(* ===== verification/_CoqProject ===== *)
-Q . S2P
Prelude.v
PyJson.v
JsonText.v
Protocol.v
PortTypes.v
ControlProtocol.v
ControlProtocolV2.v
Effects.v
WorkerBroker.v
Reservation.v
Canonical.v
RecoveryReceipt.v
JournalRecord.v
RecoveryJournal.v
Session.v
Orchestration.v
Demo.v
Lifecycle.v
SessionLaws.v
SessionPhases.v
SessionLaunch.v
SessionProgress.v
SessionEvents.v
Paths.v
Policy.v
PolicyFields.v
SourceView.v
AgentPolicy.v
ControlPolicy.v
Recovery.v
RecoveryDemo.v
JournalIdentity.v
RecoveryFrame.v
Cgroup.v
Copying.v
Snapshot.v
ViewCopy.v
ViewRollback.v
FreezePath.v
FrozenStore.v
