(* ===== verification/Prelude.v ===== *)
(** * MirrorGate supervisor: a verification development

    MirrorGate runs code nobody trusts (an implementer's submission, an agent's
    tools) inside sandboxes, on behalf of an evaluator that keeps private
    specifications.  Its supervisor, [src/supervisor/mirrorgate/], is the
    trusted part: it speaks two closed protocols, owns the life of every
    session, relays the traffic of one worker, and keeps a durable journal of
    what it owns so that a later process can reclaim it.  The development
    models the decisions of that supervisor as executable definitions and
    proves what they promise.  The kernel, the processes it starts and the
    clients are outside: they appear as arbitrary inputs and answers.

    ** The parts and how they interact

    A connection of an evaluator client reaches [control_server.serve_stream],
    which reads frames with the control codec ([control_protocol.py], and
    [control_protocol_v2.py] once version 2 is selected) and hands each request
    to an [OrchestrationController] ([orchestration.py]).  The controller keeps
    the sessions of the connection; their operations, managed runs and backend
    callbacks run on threads of their own and share the session under its lock.
    A session's worker speaks the port protocol ([protocol.py]) through the
    relay of [worker_broker.py].  What a session may use is selected from the
    catalog of [control_policy.py] and [agent_policy.py], a sandbox from
    [policy.py], a filtered view of a source tree from [source_view.py].  What
    the supervisor owns outside its memory is recorded by
    [recovery_journal.py]; [recovery.py] removes what a dead supervisor left and
    reports with the receipts of [recovery_receipt.py].

    ** Files, and the source they model

    Shared ground:
    - [Prelude.v]: the exceptions as one sum, results ([res], with its monad
      notation), UTF-8, lists and decimal numerals.
    - [PyJson.v]: JSON values, dictionaries as ordered association lists,
      Python's [==] on them, the budget on depth and nodes.
    - [JsonText.v]: [json.loads] with its hooks and the compact [json.dumps].
    - [Canonical.v]: sorted [json.dumps], SHA-256, [str.splitlines].
    - [Effects.v]: a monad of state and exceptions that keeps, as Python does,
      what was written before an exception.

    Protocols:
    - [Protocol.v] (Module [port]): [protocol.py].  [PortTypes.v] has the
      abstract types and values its validators are proved to decide.
    - [ControlProtocol.v] (Module [v1]): [control_protocol.py].
    - [ControlProtocolV2.v] (Module [v2]): [control_protocol_v2.py].
    - [WorkerBroker.v] (Module [broker]): the attachment record, the frame
      splitter and [WorkerFlow] of [worker_broker.py].  [Reservation.v] (Module
      [reservation]): [WorkerReservation], its threads one locked section or call
      at a time ([accept_step] for [_accept], [client_step] and [worker_step] for
      the relays, [close_step] for [close]), under any schedule.

    Recovery:
    - [RecoveryReceipt.v] (Module [receipt]): [recovery_receipt.py].
    - [JournalRecord.v] (Module [journal]): the records of
      [recovery_journal.py]; [RecoveryJournal.v] (Module [store]): the class
      [RecoveryJournal] over a disk.  [JournalIdentity.v] (Module [identity]):
      no method of the journal changes what a claim names.
    - [Recovery.v] (Module [recovery]): [recovery.py] over that journal and a
      tree of files; [RecoveryDemo.v] (Module [ruin]): a state root left behind;
      [RecoveryFrame.v] (Module [frame]): a logic of what an action keeps, and
      the theorems.
    - [Cgroup.v] (Module [cgroup]): [cgroup.py] over a kernel that answers every
      system call as it likes; a log of the calls, and a logic on it.

    Snapshots and views:
    - [Copying.v] (Module [copying]): a source that may change at any moment, a
      destination tree, the calls on both; what a tree must hold to be what a
      manifest says ([covers]), and the reference that reads a source that stands
      still ([dir_contents]).
    - [Snapshot.v] (Module [snapshot]): [freeze_tree] of [artifacts.py];
      [FreezePath.v] (Module [single]): [freeze_path].
    - [FrozenStore.v] (Module [store]): [FrozenStore] of [artifacts.py]; a thread
      of [freeze], [release] or [close] goes from one locked section or system
      call to the next, a schedule picks the threads and answers the calls.
    - [ViewCopy.v] (Module [materialize]): [materialize_source_view] of
      [source_view.py]; [ViewRollback.v] (Module [rollback]): what it undoes.

    The controller:
    - [Session.v] (Module [session]): the state of one session ([SessionState],
      [OperationRecord], [HostedRun]) and what one [with state.lock] block of
      [orchestration.py] does to it, one definition per block.
    - [Orchestration.v] (Module [controller]): the controller's state [ctl], the
      handlers [_op_...], operation threads, cleanup, managed runs and callbacks
      as lists of locked sections ([instr]), and [step], one choice of a
      schedule: a frame arrives, the server thread or another thread runs its
      next section, the backend calls back, a deadline passes.
    - [Demo.v]: concrete histories.  [Lifecycle.v] (Module [lifecycle]):
      reachable controllers and their projection to one session, on which the
      invariants are proved.  [SessionLaws.v], [SessionPhases.v],
      [SessionLaunch.v], [SessionProgress.v], [SessionEvents.v]: the invariants.

    Policies:
    - [Paths.v]: [PurePosixPath] and [checked_directory]; [Policy.v]:
      [policy.py]; [PolicyFields.v] and [ControlPolicy.v]: [control_policy.py];
      [SourceView.v]: the selector of [source_view.py]; [AgentPolicy.v]: the
      limits, tasks and profiles of [agent_policy.py].

    ** What the theorems show

    - Codecs: whatever is encoded is read back, reading is total up to the
      declared errors, the validators accept exactly an abstract language of
      messages, types and values, and admitted paths, digests and numbers are
      in their bounds.
      A number token is accepted exactly when its decimal value is a safe integer.
    - The relay: identifiers increase, an answer is let through only under the
      identifier of one earlier request, dispose is sent once, closing blocks
      requests.  The reservation passes the frames on as they were sent and in
      order, launches a worker only for an attachment with this session's
      identifiers and token, and a close without failures leaves nothing running.
    - The journal: a crash anywhere in a publication leaves the old record or
      the complete new one, a method on a record moves it forward along the
      transition table or repeats [cleanup_intent], [quarantine_invalid] only
      moves the files it was given, and a written record is read back when its
      integers fit 64 bits ([int_fits]; the other bounds of the reader hold of
      every valid record, [validate_record_small]).
    - Receipts: the public summary is derived from an authentic receipt and a
      cleanup is confirmed only when results and remains allow it.
    - Recovery: however it ends, it changes only the trees at the places of
      claims it owns and may remove ([place]: the path, the claim's own place in
      the quarantine, the target its record names) and leaves everything else,
      retained objects above all; a claim reported as reclaimed was found with its
      identity and is gone.
    - Control groups: a group that was created has its limits in force, it is
      removed only when it is empty after its processes were killed, and waiting
      for that ends.
    - Snapshots and views: a copy that succeeds is what its manifest says and
      nothing else, whatever the source does meanwhile; of a source that stands
      still it is exact; one that fails is undone, or says that it was not.  The
      store loses no snapshot, and a close without failures leaves nothing.
    - The controller, under every interleaving and every answer of the backend:
      an operation is settled exactly once; a session follows the graph of
      phases, cleans up once and its end is final; a worker is launched at most
      once and only after the backend granted an authorization that matches the
      session ([AuthorizeGranted]; a refused call is only [AuthorizeCalled]); events are
      numbered without a gap; the threads terminate and none blocks another.
    - Policies: limits only tighten, resolved inputs stay below their root,
      runtimes start trusted code, the trees of a sandbox are apart from each
      other ([separate], which leaves out the second spelling of the root), the
      runtimes from the submission and the output but not from one another.

    ** Conventions, bounds and assumptions

    Strings are lists of code points ([pystr]), bytes are lists of numbers below
    256, integers are [Z], Python exceptions are values of [exn].  Free text of
    protocol errors is not modelled; the text of the exceptions the controller
    reports is a parameter, and names interpolated into policy messages are
    left out.  [rec_limit] is the nesting the interpreter's JSON scanner
    supports: theorems hold for every value of it unless they say otherwise.
    Recursion on data is structural; the fuel of a loop is the length of the
    data it consumes ([pieces], the frame splitter, [evict_loop]) and lemmas
    show it is enough.  [SessionProgress.v] bounds the work of threads by the
    measure [total], so termination of the controller needs no fuel.

    Random tokens are drawn from an injective sequence.  The backend
    ([preparation.ControlBackend]), the agent runtime and the kernel are not
    fixed: their answers are part of the schedule, of the file system given by
    its [lstat]/[stat] answers, or of the environment of the journal (short
    writes, faults at every injection point).  The schedule lets a deadline
    pass at any moment.  During a recovery any system call may fail, the deadline
    of a removal may pass and every injected fault may fire; nothing else changes
    the tree, records are read without more nesting than [rec_limit > 10]
    allows, and a kernel's tables are dictionaries of texts ([honest]).  Nobody but
    the supervisor writes the directories snapshots and views are made in; a
    system never lists an empty name, reading a file ends, closing a descriptor
    does not fail, and the nesting of a copy is bounded by its depth limit, so
    [FUEL] = 66 is enough ([rh_dir]).  The callback that queues an outgoing
    message is taken not to raise ([_event] always succeeds): [output.send]
    encodes the message and raises, inside the [try] of [_spawn], for one that
    cannot be encoded; the repository's own backend makes none.

    ** Not modelled

    - [preparation.py], [sandbox.py]: they drive processes, descriptors and
      mounts.  Of [recovery.py] the test of the owner's lock; of [artifacts.py]
      what [FrozenStore] writes to the journal (a call to it can fail, that is
      all), [duplicate_fd] and [_mount_path], which change nothing.
    - [agent_runtime.py], [agent_audit.py], [agent_trampoline.py],
      [authoring_broker.py], [authoring_mcp.py], [cli.py], [node_profile.py]:
      processes, sockets and start-up.
    - Of [worker_broker.py] the socket and the directory [WorkerReservation]
      makes; of
      [recovery_journal.py] taking the lease and reading the boot id; of
      [agent_policy.py] hashing files; of [control_policy.py] the float division of
      [sandbox_limits] and the example documents; of [control_server.py] the
      sockets and the output queue.
    - The clients and worker runtimes in other languages. *)

From Stdlib Require Import ZArith Lia.
From stdpp Require Import base list gmap strings numbers.

(** ** Python exceptions

    One sum type for every exception class the modelled code raises or
    catches.  A [ProtocolError] is modelled by its [code], a
    [ControlProtocolError] by [code], [stage] and [fatal]; the free-text
    message of these two classes is not part of the model.  [AdmissionError]
    and its subclass [JournalError] have no code, so they keep the message. *)
Inductive exn : Type :=
  | ProtocolError (code : string)
  | ControlError (code stage : string) (fatal : bool)
  | AdmissionError (message : string)
  | JournalError (message : string)
  | BrokerError (code : string)
  | BackendError (code stage : string)
  | UnicodeError
  | JSONDecodeError
  | RecursionError
  | KeyError
  | TypeError
  | ValueError
  | OSError
  | FileNotFoundError
  | OverflowError.

#[export] Instance exn_eq_dec : EqDecision exn.
Proof. solve_decision. Defined.

(** ** The error monad *)
Inductive res (A : Type) : Type :=
  | Ok (a : A)
  | Err (e : exn).
Arguments Ok {_} _.
Arguments Err {_} _.

#[export] Instance res_eq_dec {A} `{EqDecision A} : EqDecision (res A).
Proof. solve_decision. Defined.

Definition rbind {A B} (m : res A) (f : A -> res B) : res B :=
  match m with Ok a => f a | Err e => Err e end.

Declare Scope res_scope.
Delimit Scope res_scope with res.
Notation "x ← y ; z" := (rbind y (fun x => z))
  (at level 20, y at level 100, z at level 200) : res_scope.
Notation "' x ← y ; z" := (rbind y (fun x => z))
  (at level 20, x pattern, y at level 100, z at level 200) : res_scope.
Notation "y ;; z" := (rbind y (fun _ => z))
  (at level 100, z at level 200, right associativity) : res_scope.
#[local] Open Scope res_scope.

(** [if cond: raise e] *)
Definition raise_if (cond : bool) (e : exn) : res unit :=
  if cond then Err e else Ok tt.

(** [try: m  except handled: handler] *)
Definition try_except {A} (m : res A) (handles : exn -> bool) (handler : exn -> res A) : res A :=
  match m with
  | Ok a => Ok a
  | Err e => if handles e then handler e else Err e
  end.

Definition is_ok {A} (m : res A) : bool := match m with Ok _ => true | Err _ => false end.

(** [for x in l: body x] where the body only checks. *)
Fixpoint for_each {A} (body : A -> res unit) (l : list A) : res unit :=
  match l with
  | [] => Ok tt
  | x :: l' => body x ;; for_each body l'
  end.

(** [\[body x for x in l\]] *)
Fixpoint traverse {A B} (body : A -> res B) (l : list A) : res (list B) :=
  match l with
  | [] => Ok []
  | x :: l' => y ← body x; ys ← traverse body l'; Ok (y :: ys)
  end.

(** A loop that threads an accumulator. *)
Fixpoint fold_res {A B} (body : B -> A -> res B) (l : list A) (acc : B) : res B :=
  match l with
  | [] => Ok acc
  | x :: l' => acc' ← body acc x; fold_res body l' acc'
  end.

Definition from_option_res {A} (o : option A) (e : exn) : res A :=
  match o with Some a => Ok a | None => Err e end.


Lemma bind_Ok {A B} (m : res A) (f : A -> res B) b :
  rbind m f = Ok b <-> exists a, m = Ok a /\ f a = Ok b.
Proof. destruct m; split; [eauto|naive_solver|discriminate|naive_solver]. Qed.

Lemma bind_Err {A B} (m : res A) (f : A -> res B) e :
  rbind m f = Err e <-> m = Err e \/ exists a, m = Ok a /\ f a = Err e.
Proof. destruct m; split; naive_solver. Qed.

Lemma rbind_assoc {A B C} (m : res A) (f : A -> res B) (g : B -> res C) :
  rbind (rbind m f) g = rbind m (fun a => rbind (f a) g).
Proof. by destruct m. Qed.

Lemma raise_if_Ok cond e u : raise_if cond e = Ok u <-> cond = false.
Proof. destruct cond, u; naive_solver. Qed.

Lemma raise_if_Err cond e e' : raise_if cond e = Err e' <-> cond = true /\ e = e'.
Proof. destruct cond; naive_solver. Qed.

Lemma for_each_Ok {A} (body : A -> res unit) l u :
  for_each body l = Ok u <-> Forall (fun x => body x = Ok tt) l.
Proof.
  destruct u. induction l as [|x l IH]; simpl; [naive_solver|].
  rewrite list.Forall_cons, <- IH, bind_Ok. split; [|naive_solver].
  intros ([] & ? & ?); naive_solver.
Qed.

Lemma for_each_Err {A} (body : A -> res unit) l e :
  for_each body l = Err e -> exists x, x ∈ l /\ body x = Err e.
Proof.
  induction l as [|x l IH]; simpl; [done|].
  rewrite bind_Err. intros [|(a & ? & ?)].
  - exists x. split; [left|done].
  - destruct IH as (y & ? & ?); [done|]. exists y. split; [right; done|done].
Qed.

Lemma traverse_Ok {A B} (body : A -> res B) l ys :
  traverse body l = Ok ys <-> Forall2 (fun x y => body x = Ok y) l ys.
Proof.
  revert ys. induction l as [|x l IH]; intros ys; simpl.
  - split; [intros [= <-]; constructor|by inversion 1].
  - rewrite bind_Ok. setoid_rewrite bind_Ok. split.
    + intros (y & Hy & ys' & Hys & [= <-]). constructor; [done|by apply IH].
    + inversion 1; subst. eexists; split; [done|]. eexists; split; [by apply IH|done].
Qed.

Lemma try_except_Ok_inv {A} (m : res A) h f a :
  try_except m h f = Ok a ->
  m = Ok a \/ exists e, m = Err e /\ h e = true /\ f e = Ok a.
Proof. destruct m; simpl; [naive_solver|]. case_match; naive_solver. Qed.

(** ** Which exceptions a computation may raise *)
Definition raises {A} (P : exn -> Prop) (m : res A) : Prop :=
  match m with Ok _ => True | Err e => P e end.

Lemma raises_bind {A B} P (m : res A) (f : A -> res B) :
  raises P m -> (forall a, m = Ok a -> raises P (f a)) -> raises P (rbind m f).
Proof. destruct m; simpl; auto. Qed.

Lemma raises_if P cond e : P e -> raises P (raise_if cond e).
Proof. by destruct cond. Qed.

Lemma raises_for_each {A} P (body : A -> res unit) l :
  (forall x, x ∈ l -> raises P (body x)) -> raises P (for_each body l).
Proof.
  induction l as [|x l IH]; intros H; simpl; [done|].
  apply raises_bind; [apply H; by left|]. intros _ _. apply IH. intros y Hy. apply H. by right.
Qed.

Lemma raises_traverse {A B} P (body : A -> res B) l :
  (forall x, x ∈ l -> raises P (body x)) -> raises P (traverse body l).
Proof.
  induction l as [|x l IH]; intros H; simpl; [done|].
  apply raises_bind; [apply H; by left|]. intros y _.
  apply raises_bind; [apply IH; intros z Hz; apply H; by right|]. done.
Qed.

Lemma raises_mono {A} (P Q : exn -> Prop) (m : res A) :
  (forall e, P e -> Q e) -> raises P m -> raises Q m.
Proof. destruct m; simpl; auto. Qed.

Lemma raises_option {A} P (o : option A) e : P e -> raises P (from_option_res o e).
Proof. by destruct o. Qed.

Create HintDb gate.
#[export] Hint Resolve raises_if raises_option : gate.

(** Destructs every monadic equation of the context. *)
Ltac inv_res :=
  repeat match goal with
  | H : rbind _ _ = Ok _ |- _ => apply bind_Ok in H; destruct H as (? & ? & ?)
  | H : raise_if _ _ = Ok _ |- _ => apply raise_if_Ok in H
  | H : raise_if _ _ = Err _ |- _ => apply raise_if_Err in H; destruct H as [? ?]; simplify_eq
  | H : Ok _ = Ok _ |- _ => injection H; clear H; intros; subst
  | H : Err _ = Err _ |- _ => injection H; clear H; intros; subst
  | H : Ok _ = Err _ |- _ => discriminate H
  | H : Err _ = Ok _ |- _ => discriminate H
  | u : unit |- _ => destruct u
  end.

(** Boolean hypotheses to propositions. *)
Ltac bool_hyps :=
  repeat match goal with
  | H : _ && _ = true |- _ => apply andb_true_iff in H; destruct H
  | H : _ || _ = false |- _ => apply orb_false_iff in H; destruct H
  | H : negb _ = true |- _ => apply negb_true_iff in H
  | H : negb _ = false |- _ => apply negb_false_iff in H
  | H : bool_decide _ = true |- _ => apply bool_decide_eq_true in H
  | H : bool_decide _ = false |- _ => apply bool_decide_eq_false in H
  | H : (_ <=? _)%Z = true |- _ => apply Z.leb_le in H
  | H : (_ <=? _)%Z = false |- _ => apply Z.leb_gt in H
  | H : (_ <? _)%Z = true |- _ => apply Z.ltb_lt in H
  | H : (_ <? _)%Z = false |- _ => apply Z.ltb_ge in H
  | H : (_ =? _)%Z = true |- _ => apply Z.eqb_eq in H
  | H : (_ =? _)%Z = false |- _ => apply Z.eqb_neq in H
  end.

(** ** Python strings: sequences of code points *)
Definition pystr : Type := list N.
#[export] Instance pystr_eq_dec : EqDecision pystr := _.
#[export] Instance pystr_countable : Countable pystr := _.

Fixpoint str (s : string) : pystr :=
  match s with
  | EmptyString => []
  | String c s' => Ascii.N_of_ascii c :: str s'
  end.
Coercion str : string >-> pystr.

(** A set of literal names. *)
Definition strs (l : list string) : list pystr := map str l.

(** A code point that is a Unicode scalar value (no surrogate). *)
Definition is_surrogate (c : N) : bool := (0xD800 <=? c)%N && (c <=? 0xDFFF)%N.
Definition is_scalar (c : N) : bool := (c <=? 0x10FFFF)%N && negb (is_surrogate c).

(** ** Bytes and UTF-8 *)
Definition bytes : Type := list N.
#[export] Instance bytes_eq_dec : EqDecision bytes := _.

(** [chr(c).encode("utf-8", "strict")]: [None] is the [UnicodeError] of a
    surrogate. *)
Definition utf8_encode1 (c : N) : option bytes :=
  if (c <? 0x80)%N then Some [c]
  else if (c <? 0x800)%N then Some [0xC0 + c / 64; 0x80 + c mod 64]%N
  else if negb (is_scalar c) then None
  else if (c <? 0x10000)%N then
    Some [0xE0 + c / 4096; 0x80 + (c / 64) mod 64; 0x80 + c mod 64]%N
  else Some [0xF0 + c / 262144; 0x80 + (c / 4096) mod 64;
             0x80 + (c / 64) mod 64; 0x80 + c mod 64]%N.

Fixpoint utf8_encode (s : pystr) : option bytes :=
  match s with
  | [] => Some []
  | c :: s' => (b ← utf8_encode1 c; bs ← utf8_encode s'; Some (b ++ bs))%stdpp
  end.

(** A continuation byte [10xxxxxx] and its six bits. *)
Definition cont_byte (b : N) : option N :=
  if (0x80 <=? b)%N && (b <? 0xC0)%N then Some (b - 0x80)%N else None.

(** [data.decode("utf-8", "strict")]: overlong forms, surrogates, values past
    0x10FFFF, stray and missing continuation bytes are all refused. *)
Fixpoint utf8_decode (bs : bytes) : option pystr :=
  match bs with
  | [] => Some []
  | b :: r =>
    if (b <? 0x80)%N then (s ← utf8_decode r; Some (b :: s))%stdpp
    else if (b <? 0xC2)%N then None
    else if (b <? 0xE0)%N then
      match r with
      | b1 :: r1 =>
        (x1 ← cont_byte b1; s ← utf8_decode r1; Some ((b - 0xC0) * 64 + x1 :: s)%N)%stdpp
      | _ => None
      end
    else if (b <? 0xF0)%N then
      match r with
      | b1 :: b2 :: r2 =>
        (x1 ← cont_byte b1; x2 ← cont_byte b2;
        let c := ((b - 0xE0) * 4096 + x1 * 64 + x2)%N in
        if (c <? 0x800)%N || is_surrogate c then None
        else s ← utf8_decode r2; Some (c :: s))%stdpp
      | _ => None
      end
    else if (b <? 0xF5)%N then
      match r with
      | b1 :: b2 :: b3 :: r3 =>
        (x1 ← cont_byte b1; x2 ← cont_byte b2; x3 ← cont_byte b3;
        let c := ((b - 0xF0) * 262144 + x1 * 4096 + x2 * 64 + x3)%N in
        if (c <? 0x10000)%N || (0x10FFFF <? c)%N then None
        else s ← utf8_decode r3; Some (c :: s))%stdpp
      | _ => None
      end
    else None
  end.

Lemma utf8_encode_Some s : (exists bs, utf8_encode s = Some bs) <-> Forall (fun c => is_scalar c = true) s.
Proof.
  induction s as [|c s IH]; simpl; [split; eauto|].
  rewrite list.Forall_cons, <- IH. unfold utf8_encode1.
  assert ((c <? 0x800)%N = true -> is_scalar c = true) as Hs.
  { unfold is_scalar, is_surrogate. intros ?%N.ltb_lt.
    apply andb_true_iff; split; [apply N.leb_le; lia|].
    apply negb_true_iff, andb_false_iff. left. apply N.leb_gt. lia. }
  destruct (c <? 0x80)%N eqn:E1.
  { split.
    - intros [bs H]. destruct (utf8_encode s); [|done]. split; [|eauto].
      apply Hs. apply N.ltb_lt in E1. apply N.ltb_lt. lia.
    - intros [_ [bs ->]]. eauto. }
  destruct (c <? 0x800)%N eqn:E2.
  { split.
    - intros [bs H]. destruct (utf8_encode s); [|done]. eauto.
    - intros [_ [bs ->]]. eauto. }
  destruct (is_scalar c); simpl; [|naive_solver].
  destruct (c <? 0x10000)%N; (split; [intros [bs H]; destruct (utf8_encode s); [eauto|done]|intros [_ [bs ->]]; eauto]).
Qed.

Lemma cont_byte_enc x : (x < 64)%N -> cont_byte (0x80 + x) = Some x.
Proof.
  intros. unfold cont_byte.
  replace ((0x80 <=? 0x80 + x)%N && (0x80 + x <? 0xC0)%N) with true.
  - f_equal. lia.
  - symmetry. apply andb_true_iff. split; [apply N.leb_le|apply N.ltb_lt]; lia.
Qed.

Lemma utf8_decode_encode1 c b bs :
  utf8_encode1 c = Some b -> utf8_decode (b ++ bs) = (fun s => c :: s) <$> utf8_decode bs.
Proof.
  unfold utf8_encode1.
  pose proof (N.mod_lt c 64 ltac:(lia)) as M0.
  pose proof (N.mod_lt (c / 64) 64 ltac:(lia)) as M1.
  pose proof (N.mod_lt (c / 4096) 64 ltac:(lia)) as M2.
  pose proof (N.div_mod c 64 ltac:(lia)) as D0.
  pose proof (N.div_mod (c / 64) 64 ltac:(lia)) as D1.
  pose proof (N.div_mod (c / 4096) 64 ltac:(lia)) as D2.
  assert (c / 4096 = c / 64 / 64)%N as E2 by (rewrite N.Div0.div_div; f_equal).
  assert (c / 262144 = c / 4096 / 64)%N as E3 by (rewrite N.Div0.div_div; f_equal).
  rewrite <- E2 in D1. rewrite <- E3 in D2. clear E2 E3.
  generalize dependent (c mod 64)%N. intros r0 ? ?.
  generalize dependent ((c / 64) mod 64)%N. intros r1 ? ?.
  generalize dependent ((c / 4096) mod 64)%N. intros r2 ? ?.
  generalize dependent (c / 64)%N. intros q1 ? ?.
  generalize dependent (c / 4096)%N. intros q2 ? ?.
  generalize dependent (c / 262144)%N. intros q3 ?.
  destruct (c <? 0x80)%N eqn:L1.
  { intros [= <-]. simpl. rewrite L1. by destruct (utf8_decode bs). }
  apply N.ltb_ge in L1.
  destruct (c <? 0x800)%N eqn:L2.
  { apply N.ltb_lt in L2. intros [= <-]. cbn [app utf8_decode].
    destruct (N.ltb_spec (0xC0 + q1) 0x80); [lia|].
    destruct (N.ltb_spec (0xC0 + q1) 0xC2); [lia|].
    destruct (N.ltb_spec (0xC0 + q1) 0xE0); [|lia].
    rewrite cont_byte_enc by done. simpl.
    destruct (utf8_decode bs); [|done]. simpl. do 2 f_equal. lia. }
  apply N.ltb_ge in L2.
  unfold is_scalar. destruct (c <=? 0x10FFFF)%N eqn:L3; [|done].
  apply N.leb_le in L3. destruct (is_surrogate c) eqn:L4; [done|]. simpl negb. cbv iota.
  destruct (c <? 0x10000)%N eqn:L5.
  { apply N.ltb_lt in L5. intros [= <-]. cbn [app utf8_decode].
    destruct (N.ltb_spec (0xE0 + q2) 0x80); [lia|].
    destruct (N.ltb_spec (0xE0 + q2) 0xC2); [lia|].
    destruct (N.ltb_spec (0xE0 + q2) 0xE0); [lia|].
    destruct (N.ltb_spec (0xE0 + q2) 0xF0); [|lia].
    rewrite !cont_byte_enc by done. simpl mbind. cbv zeta.
    replace ((0xE0 + q2 - 0xE0) * 4096 + r1 * 64 + r0)%N with c by lia.
    destruct (N.ltb_spec c 0x800); [lia|]. rewrite L4. simpl. by destruct (utf8_decode bs). }
  apply N.ltb_ge in L5. intros [= <-]. cbn [app utf8_decode].
  destruct (N.ltb_spec (0xF0 + q3) 0x80); [lia|].
  destruct (N.ltb_spec (0xF0 + q3) 0xC2); [lia|].
  destruct (N.ltb_spec (0xF0 + q3) 0xE0); [lia|].
  destruct (N.ltb_spec (0xF0 + q3) 0xF0); [lia|].
  destruct (N.ltb_spec (0xF0 + q3) 0xF5); [|lia].
  rewrite !cont_byte_enc by done. simpl mbind. cbv zeta.
  replace ((0xF0 + q3 - 0xF0) * 262144 + r2 * 4096
           + r1 * 64 + r0)%N with c by lia.
  destruct (N.ltb_spec c 0x10000); [lia|].
  destruct (N.ltb_spec 0x10FFFF c); [lia|]. simpl. by destruct (utf8_decode bs).
Qed.

(** Decoding the UTF-8 encoding of a string gives the string back. *)
Lemma utf8_roundtrip s bs : utf8_encode s = Some bs -> utf8_decode bs = Some s.
Proof.
  revert bs. induction s as [|c s IH]; intros bs; simpl; [by intros [= <-]|].
  destruct (utf8_encode1 c) as [b|] eqn:E; [|done]. simpl.
  destruct (utf8_encode s) as [bs'|]; [|done]. intros [= <-].
  rewrite (utf8_decode_encode1 _ _ _ E), (IH bs') by done. done.
Qed.

(** Every byte of the encoding of an ASCII-free-of-[b] string avoids [b]. *)
Lemma utf8_encode1_ascii c b x :
  utf8_encode1 c = Some b -> (x < 0x80)%N -> x ∈ b -> x = c.
Proof.
  unfold utf8_encode1. intros H Hx Hin. revert H.
  generalize dependent (c / 64)%N. generalize dependent (c / 4096)%N.
  generalize dependent (c / 262144)%N. generalize dependent (c mod 64)%N. intros r0 q3 q2 q1.
  generalize dependent (q1 mod 64)%N. generalize dependent (q2 mod 64)%N. intros r2 r1 H.
  repeat case_match; simplify_eq;
    repeat (apply elem_of_cons in Hin; destruct Hin as [->|Hin]; [lia|]);
    by apply elem_of_nil in Hin.
Qed.

Lemma utf8_encode_ascii s bs x :
  utf8_encode s = Some bs -> (x < 0x80)%N -> x ∈ bs -> x ∈ s.
Proof.
  revert bs. induction s as [|c s IH]; intros bs; simpl.
  - intros [= <-] _ H. by apply elem_of_nil in H.
  - destruct (utf8_encode1 c) as [b|] eqn:E; [|done]. simpl.
    destruct (utf8_encode s) as [bs'|]; [|done]. intros [= <-] Hx [H|H]%elem_of_app.
    + rewrite (utf8_encode1_ascii _ _ _ E Hx H). by apply elem_of_cons; left.
    + apply elem_of_cons; right. eauto.
Qed.

Lemma utf8_encode_app s t bs ct :
  utf8_encode s = Some bs -> utf8_encode t = Some ct -> utf8_encode (s ++ t) = Some (bs ++ ct).
Proof.
  revert bs. induction s as [|c s IH]; intros bs; simpl; [by intros [= <-]|].
  destruct (utf8_encode1 c) as [b|]; [|done]. simpl.
  destruct (utf8_encode s) as [bs'|]; [|done]. intros [= <-] Ht.
  rewrite (IH bs') by done. simpl. by rewrite app_assoc.
Qed.

(** [b.decode("ascii")] *)
Definition ascii_decode (b : bytes) : res pystr := if forallb (fun c => c <? 128)%N b then Ok b else Err UnicodeError.

(** [len(s.encode("utf-8"))] when it is defined. *)
Definition utf8_len (s : pystr) : option Z := (fun b => Z.of_nat (length b)) <$> utf8_encode s.

(** ** Character classes of the regular expressions *)
Definition in_range (lo hi c : N) : bool := (lo <=? c)%N && (c <=? hi)%N.
Definition is_digit (c : N) : bool := in_range 48 57 c.
Definition is_upper (c : N) : bool := in_range 65 90 c.
Definition is_lower (c : N) : bool := in_range 97 122 c.
Definition is_alpha (c : N) : bool := is_upper c || is_lower c.
Definition is_alnum (c : N) : bool := is_alpha c || is_digit c.
(** [\[0-9a-f\]] *)
Definition is_lower_hex (c : N) : bool := is_digit c || in_range 97 102 c.
(** [\[A-Za-z0-9_.-\]] *)
Definition is_id_char (c : N) : bool := is_alnum c || bool_decide (c ∈ [95; 46; 45]%N).

Definition zlen {A} (l : list A) : Z := Z.of_nat (length l).
#[export] Instance zlen_proper {A} : Proper ((≡ₚ) ==> (=)) (@zlen A).
Proof. intros l1 l2 H. unfold zlen. by rewrite H. Qed.

(** [\[A-Za-z\]\[A-Za-z0-9_.-\]{0,127}\Z] *)
Definition match_identifier (s : pystr) : bool :=
  match s with
  | c :: r => is_alpha c && forallb is_id_char r && (zlen r <=? 127)%Z
  | [] => false
  end.
(** [\[0-9a-f\]{n}\Z] *)
Definition match_hex (n : Z) (s : pystr) : bool := (zlen s =? n)%Z && forallb is_lower_hex s.

(** [s.split(sep)] for a one-character separator. *)
Fixpoint split_on (sep : N) (s : pystr) : list pystr :=
  match s with
  | [] => [[]]
  | c :: s' =>
    if (c =? sep)%N then [] :: split_on sep s'
    else match split_on sep s' with
         | p :: ps => (c :: p) :: ps
         | [] => [[c]]
         end
  end.

Fixpoint join_with (sep : N) (ps : list pystr) : pystr :=
  match ps with
  | [] => []
  | [p] => p
  | p :: ps' => p ++ sep :: join_with sep ps'
  end.

Fixpoint starts_with (p s : pystr) : bool :=
  match p, s with
  | [], _ => true
  | a :: p', b :: s' => (a =? b)%N && starts_with p' s'
  | _, [] => false
  end.

Lemma starts_with_spec p s : starts_with p s = true <-> exists t, s = p ++ t.
Proof.
  revert s. induction p as [|a p IH]; intros s; simpl; [split; eauto|].
  destruct s as [|b s]; [split; [done|by intros [? ?]]|].
  rewrite andb_true_iff, N.eqb_eq, IH. naive_solver.
Qed.

Lemma split_on_nonempty sep s : split_on sep s <> [].
Proof. destruct s; simpl; [done|]. repeat case_match; done. Qed.

Lemma join_split sep s : join_with sep (split_on sep s) = s.
Proof.
  induction s as [|c s IH]; simpl; [done|].
  destruct (c =? sep)%N eqn:E.
  - apply N.eqb_eq in E. subst. pose proof (split_on_nonempty sep s).
    destruct (split_on sep s); [done|]. simpl in *. by rewrite IH.
  - pose proof (split_on_nonempty sep s).
    destruct (split_on sep s) as [|p [|q ps]]; simpl in *; [done| |]; by rewrite IH.
Qed.

(** Duplicate test of a list (the [len(set(l)) != len(l)] idiom). *)
Fixpoint has_dup {A} `{EqDecision A} (l : list A) : bool :=
  match l with
  | [] => false
  | x :: l' => bool_decide (x ∈ l') || has_dup l'
  end.

Lemma has_dup_false {A} `{EqDecision A} (l : list A) : has_dup l = false <-> NoDup l.
Proof.
  induction l as [|x l IH]; simpl; [split; [constructor|done]|].
  rewrite orb_false_iff, bool_decide_eq_false, IH, list.NoDup_cons. done.
Qed.

(** [set(a) == set(b)] and [set(a) <= set(b)] on lists of keys. *)
Definition set_sub (a b : list pystr) : bool := forallb (fun x => bool_decide (x ∈ b)) a.
Definition set_eq (a b : list pystr) : bool := set_sub a b && set_sub b a.

Lemma set_sub_spec a b : set_sub a b = true <-> a ⊆ b.
Proof.
  unfold set_sub. rewrite forallb_forall. split.
  - intros H x Hx. apply list_elem_of_In in Hx. apply H in Hx. by apply bool_decide_eq_true in Hx.
  - intros H x Hx%list_elem_of_In. apply bool_decide_eq_true. by apply H.
Qed.

Lemma set_eq_spec a b : set_eq a b = true <-> forall x, x ∈ a <-> x ∈ b.
Proof.
  unfold set_eq. rewrite andb_true_iff, !set_sub_spec. split.
  - intros [H1 H2] x. split; [apply H1|apply H2].
  - intros H. split; intros x; apply H.
Qed.

Lemma Forall_rev_iff {A} (P : A -> Prop) l : Forall P (rev l) <-> Forall P l.
Proof. by rewrite <- Permutation_rev. Qed.

(** Turns membership in a literal list of names into a disjunction. *)
Ltac elem_literal H :=
  unfold strs in H; cbn [map] in H; rewrite ?elem_of_cons, ?elem_of_nil in H.

(** Evaluates the decisions between literals. *)
Ltac eval_decides :=
  repeat match goal with
  | |- context [bool_decide ?P] =>
    let b := eval vm_compute in (bool_decide P) in
    match b with true => idtac | false => idtac end;
    change (bool_decide P) with b; cbv iota
  end.

(** Proves a closed decidable proposition by evaluation. *)
Ltac by_decision := refine (bool_decide_eq_true_1 _ _); vm_compute; reflexivity.
