(* ===== verification/PyJson.v ===== *)
(** * Python values built from JSON

    The values [json.loads] can produce, Python dictionaries as ordered
    association lists, Python's [==] on them, and the iterative depth and
    node budget shared by the worker protocol ([protocol._json_bounds]) and
    the control protocol ([control_protocol._bounds]). *)

From Stdlib Require Import ZArith Lia.
From stdpp Require Import base list gmap strings numbers.
From S2P Require Import Prelude.
#[local] Open Scope res_scope.

(** ** Values *)

(** [JFloat] is a Python float, known by its [repr]; it is the only type
    [json.loads] produces that no contract of the program admits. *)
Unset Elimination Schemes.
Inductive json : Type :=
  | JNull
  | JBool (b : bool)
  | JInt (z : Z)
  | JFloat (r : pystr)
  | JStr (s : pystr)
  | JArr (l : list json)
  | JObj (d : list (pystr * json)).
Set Elimination Schemes.

Section json_nested_ind.
Context (P : json -> Prop)
  (HNull : P JNull) (HBool : forall b, P (JBool b)) (HInt : forall z, P (JInt z))
  (HFloat : forall r, P (JFloat r)) (HStr : forall s, P (JStr s))
  (HArr : forall l, Forall P l -> P (JArr l))
  (HObj : forall d, Forall (fun kv => P kv.2) d -> P (JObj d)).

(** Induction through the lists nested in arrays and objects. *)
Fixpoint json_nested_ind (v : json) : P v :=
  match v with
  | JNull => HNull
  | JBool b => HBool b
  | JInt z => HInt z
  | JFloat r => HFloat r
  | JStr s => HStr s
  | JArr l => HArr l ((fix go l := match l return Forall P l with
      | [] => Forall_nil _
      | x :: l' => Forall_cons _ _ _ (json_nested_ind x) (go l')
      end) l)
  | JObj d => HObj d ((fix go d := match d return Forall (fun kv => P kv.2) d with
      | [] => Forall_nil _
      | kv :: d' => Forall_cons _ _ _ (json_nested_ind kv.2) (go d')
      end) d)
  end.
End json_nested_ind.

(** [=] on values is decidable; it is finer than Python's [==]. *)
Fixpoint json_beq (a b : json) : bool :=
  match a, b with
  | JNull, JNull => true
  | JBool x, JBool y => Bool.eqb x y
  | JInt x, JInt y => (x =? y)%Z
  | JFloat x, JFloat y => bool_decide (x = y)
  | JStr x, JStr y => bool_decide (x = y)
  | JArr x, JArr y =>
    (fix go (l m : list json) : bool :=
       match l, m with
       | [], [] => true
       | u :: l', w :: m' => json_beq u w && go l' m'
       | _, _ => false
       end) x y
  | JObj x, JObj y =>
    (fix go (l m : list (pystr * json)) : bool :=
       match l, m with
       | [], [] => true
       | (k, u) :: l', (k', w) :: m' => bool_decide (k = k') && json_beq u w && go l' m'
       | _, _ => false
       end) x y
  | _, _ => false
  end.

Lemma json_beq_eq a b : json_beq a b = true <-> a = b.
Proof.
  revert b. induction a as [| | | | |l IH|d IH] using json_nested_ind; intros c; destruct c; simpl; try (split; congruence).
  - rewrite Bool.eqb_true_iff. split; congruence.
  - rewrite Z.eqb_eq. split; congruence.
  - rewrite bool_decide_eq_true. split; congruence.
  - rewrite bool_decide_eq_true. split; congruence.
  - revert l0. induction IH as [|x l Hx _ IHl]; intros [|y m]; try (split; congruence).
    rewrite andb_true_iff, Hx, IHl. split; [intros [-> [= ->]]|intros [= -> ->]]; auto.
  - revert d0. induction IH as [|[k x] l Hx _ IHl]; intros [|[k' y] m]; try (split; congruence).
    simpl in Hx. rewrite !andb_true_iff, bool_decide_eq_true, Hx, IHl.
    split; [intros [[-> ->] [= ->]]|intros [= -> -> ->]]; auto.
Qed.

#[export] Instance json_eq_dec : EqDecision json.
Proof.
  intros a b. destruct (json_beq a b) eqn:E.
  - left. by apply json_beq_eq.
  - right. intros ->. by rewrite (proj2 (json_beq_eq b b) eq_refl) in E.
Defined.

(** ** Dictionaries *)
Abbreviation pydict := (list (pystr * json)).

Definition dkeys (d : pydict) : list pystr := d.*1.

(** [d.get(k)] *)
Fixpoint dget (k : pystr) (d : pydict) : option json :=
  match d with
  | [] => None
  | (k', v) :: d' => if bool_decide (k = k') then Some v else dget k d'
  end.

(** [k in d] *)
Definition dmem (k : pystr) (d : pydict) : bool :=
  match dget k d with Some _ => true | None => false end.

(** [d\[k\] = v]: a new key goes last, a known one keeps its place. *)
Fixpoint dset (k : pystr) (v : json) (d : pydict) : pydict :=
  match d with
  | [] => [(k, v)]
  | (k', w) :: d' => if bool_decide (k = k') then (k', v) :: d' else (k', w) :: dset k v d'
  end.

(** [del d\[k\]], [d.pop(k)] and [{... for key in d if key != k}] *)
Definition ddel (k : pystr) (d : pydict) : pydict :=
  filter (fun kv => kv.1 <> k) d.

(** [v\[k\]] *)
Definition getitem (v : json) (k : pystr) : res json :=
  match v with
  | JObj d => from_option_res (dget k d) KeyError
  | _ => Err TypeError
  end.

Definition is_str (v : json) : bool := match v with JStr _ => true | _ => false end.
Definition is_int (v : json) : bool := match v with JInt _ => true | _ => false end.
Definition is_bool (v : json) : bool := match v with JBool _ => true | _ => false end.
Definition is_list (v : json) : bool := match v with JArr _ => true | _ => false end.
Definition is_dict (v : json) : bool := match v with JObj _ => true | _ => false end.
Definition is_none (v : json) : bool := match v with JNull => true | _ => false end.

(** Hashable values: what may be tested with [in] against a Python set. *)
Definition hashable (v : json) : bool := negb (is_list v || is_dict v).

(** Python's [==]: [True == 1], and dictionaries compare without order. *)
Fixpoint py_eqb (a b : json) : bool :=
  match a, b with
  | JNull, JNull => true
  | JBool x, JBool y => Bool.eqb x y
  | JBool x, JInt z => (Z.b2z x =? z)%Z
  | JInt z, JBool x => (Z.b2z x =? z)%Z
  | JInt x, JInt y => (x =? y)%Z
  | JFloat x, JFloat y => bool_decide (x = y)
  | JStr x, JStr y => bool_decide (x = y)
  | JArr x, JArr y =>
    (fix go (l m : list json) : bool :=
       match l, m with
       | [], [] => true
       | u :: l', w :: m' => py_eqb u w && go l' m'
       | _, _ => false
       end) x y
  | JObj x, JObj y =>
    Nat.eqb (length x) (length y) &&
    (fix go (l : list (pystr * json)) : bool :=
       match l with
       | [] => true
       | (k, u) :: l' =>
         match dget k y with Some w => py_eqb u w | None => false end && go l'
       end) x
  | _, _ => false
  end.

(** [v == "text"] and [v in ("a", "b")] *)
Definition str_is (v : json) (s : pystr) : bool :=
  match v with JStr t => bool_decide (t = s) | _ => false end.
Definition str_in (v : json) (l : list pystr) : bool :=
  match v with JStr t => bool_decide (t ∈ l) | _ => false end.
Definition opt_str_is (v : option json) (s : pystr) : bool :=
  match v with Some w => str_is w s | None => false end.

Lemma str_is_true v s : str_is v s = true <-> v = JStr s.
Proof. destruct v; simpl; try (split; congruence). rewrite bool_decide_eq_true. split; congruence. Qed.

Lemma str_in_true v l : str_in v l = true <-> exists s, v = JStr s /\ s ∈ l.
Proof.
  destruct v; simpl; try (split; [done|naive_solver]).
  rewrite bool_decide_eq_true. naive_solver.
Qed.

Lemma dget_Some_in k d v : dget k d = Some v -> (k, v) ∈ d.
Proof.
  induction d as [|[k' w] d IH]; simpl; [done|].
  case_bool_decide; intros; simplify_eq; [left|right; auto].
Qed.

Lemma getitem_dget k d x : dget k d = Some x -> getitem (JObj d) k = Ok x.
Proof. simpl. by intros ->. Qed.

Lemma dget_elem k d : k ∈ dkeys d <-> exists v, dget k d = Some v.
Proof.
  induction d as [|[k' w] d IH]; simpl; [split; [by intros ?%elem_of_nil|naive_solver]|].
  rewrite elem_of_cons, IH. case_bool_decide; naive_solver.
Qed.

Lemma dget_None k d : dget k d = None <-> k ∉ dkeys d.
Proof. rewrite dget_elem. destruct (dget k d); naive_solver. Qed.

Lemma dmem_true k d : dmem k d = true <-> k ∈ dkeys d.
Proof. unfold dmem. rewrite dget_elem. case_match; naive_solver. Qed.

Lemma dget_nodup k v d : NoDup (dkeys d) -> (k, v) ∈ d -> dget k d = Some v.
Proof.
  induction d as [|[k' w] d IH]; simpl; [by intros _ ?%elem_of_nil|].
  rewrite list.NoDup_cons. intros [Hn Hd] [[= -> ->]|H]%elem_of_cons.
  - by rewrite bool_decide_eq_true_2.
  - rewrite bool_decide_eq_false_2; [auto|]. intros ->. apply Hn.
    apply (list_elem_of_fmap_2 fst) in H. done.
Qed.

Lemma dget_dset k k' v d :
  dget k (dset k' v d) = if bool_decide (k = k') then Some v else dget k d.
Proof.
  induction d as [|[k1 w] d IH]; simpl.
  - by case_bool_decide.
  - repeat (case_bool_decide; simplify_eq/=); try done.
    all: rewrite IH; by case_bool_decide.
Qed.

Lemma dkeys_dset_known k v d : k ∈ dkeys d -> dkeys (dset k v d) = dkeys d.
Proof.
  induction d as [|[k1 w] d IH]; simpl; [by intros ?%elem_of_nil|].
  intros H. case_bool_decide; simpl; [done|]. f_equal. apply IH.
  by apply elem_of_cons in H as [?|].
Qed.

Lemma dkeys_dset_new k v d : k ∉ dkeys d -> dset k v d = d ++ [(k, v)].
Proof.
  induction d as [|[k1 w] d IH]; simpl; [done|].
  rewrite not_elem_of_cons. intros [? ?]. rewrite bool_decide_eq_false_2 by done.
  by rewrite IH.
Qed.

(** ** Structure of a value *)

Definition children (v : json) : list json :=
  match v with JArr l => l | JObj d => d.*2 | _ => [] end.

(** Every value nested in [v], [v] included. *)
Fixpoint subvalues (v : json) : list json :=
  v :: match v with
       | JArr l => (fix go l := match l with [] => [] | x :: l' => subvalues x ++ go l' end) l
       | JObj d => (fix go d := match d with [] => [] | kv :: d' => subvalues kv.2 ++ go d' end) d
       | _ => []
       end.

(** Nesting depth: a scalar has depth 0. *)
Fixpoint json_depth (v : json) : Z :=
  match v with
  | JArr l => (fix go l := match l with [] => 0 | x :: l' => Z.max (1 + json_depth x) (go l') end)%Z l
  | JObj d => (fix go d := match d with [] => 0 | kv :: d' => Z.max (1 + json_depth kv.2) (go d') end)%Z d
  | _ => 0%Z
  end.

Lemma subvalues_children v : subvalues v = v :: flat_map subvalues (children v).
Proof.
  destruct v as [| | | | |l|d]; simpl; try done; f_equal.
  induction d as [|x d IH]; simpl; [done|by rewrite IH].
Qed.

(** A property of every nested value, at the items of a list. *)
Lemma nodes_flat_map (P : json -> Prop) (l : list json) :
  Forall P (flat_map subvalues l) ->
  Forall P l /\ forall y, y ∈ l -> Forall P (subvalues y).
Proof.
  intros Hn. rewrite list.Forall_forall in Hn.
  assert (forall y, y ∈ l -> Forall P (subvalues y)) as Hsub.
  { intros y Hy. apply list.Forall_forall. intros w Hw. apply Hn.
    apply list_elem_of_In, in_flat_map. exists y. split; by apply list_elem_of_In. }
  split; [|done]. apply list.Forall_forall. intros y Hy. specialize (Hsub y Hy).
  rewrite subvalues_children in Hsub. by inversion Hsub.
Qed.

Lemma json_depth_nonneg v : (0 <= json_depth v)%Z.
Proof.
  destruct v as [| | | | |l|d]; simpl; try lia.
  - induction l; lia.
  - induction d; lia.
Qed.

Lemma json_depth_le v n :
  (0 <= n)%Z -> (json_depth v <= n)%Z <-> Forall (fun c => (1 + json_depth c <= n)%Z) (children v).
Proof.
  intros Hn. destruct v as [| | | | |l|d]; simpl; try (by split; [constructor|lia]).
  - induction l as [|x l IH]; [by split; [constructor|lia]|].
    rewrite list.Forall_cons, <- IH. lia.
  - induction d as [|x d IH]; [by split; [constructor|lia]|]. simpl.
    rewrite list.Forall_cons, <- IH. lia.
Qed.

(** ** The iterative budget check

    [stack] is a Python list used as a stack, its top at the head here; each
    iteration pops one item, counts it, and pushes its children. *)
Definition MAX_SAFE_INTEGER : Z := 9007199254740991.

Section Bounds.
Context (max_depth max_nodes : Z) (limit_err int_err other_err : exn).
Context (check_str : pystr -> res unit).

Fixpoint bounds_loop (fuel : nat) (stack : list (json * Z)) (count : Z) : res unit :=
  match fuel, stack with
  | _, [] => Ok tt
  | O, _ => Err RecursionError
  | S fuel, (item, depth) :: rest =>
    let count := (count + 1)%Z in
    raise_if ((max_depth <? depth)%Z || (max_nodes <? count)%Z) limit_err ;;
    match item with
    | JObj d =>
      for_each (fun kv => check_str kv.1) d ;;
      bounds_loop fuel (rev (map (fun kv => (kv.2, depth + 1)%Z) d) ++ rest) count
    | JArr l => bounds_loop fuel (rev (map (fun c => (c, depth + 1)%Z) l) ++ rest) count
    | JStr s => check_str s ;; bounds_loop fuel rest count
    | JInt z => raise_if (MAX_SAFE_INTEGER <? Z.abs z)%Z int_err ;; bounds_loop fuel rest count
    | JNull | JBool _ => bounds_loop fuel rest count
    | JFloat _ => Err other_err
    end
  end.

(** One iteration per node suffices. *)
Definition bounds (v : json) : res unit := bounds_loop (length (subvalues v)) [(v, 0%Z)] 0.

(** What each node must satisfy, whatever its position. *)
Definition node_ok (v : json) : Prop :=
  match v with
  | JObj d => Forall (fun k => check_str k = Ok tt) (dkeys d)
  | JStr s => check_str s = Ok tt
  | JInt z => (Z.abs z <= MAX_SAFE_INTEGER)%Z
  | JFloat _ => False
  | _ => True
  end.

Definition within_bounds (v : json) : Prop :=
  (json_depth v <= max_depth)%Z /\ (zlen (subvalues v) <= max_nodes)%Z /\
  Forall node_ok (subvalues v).

(** The same for a stack with a given number of nodes already counted. *)
Definition stack_subs (stack : list (json * Z)) : list json := flat_map (fun p => subvalues p.1) stack.
Definition stack_ok (stack : list (json * Z)) (count : Z) : Prop :=
  Forall (fun p => (p.2 + json_depth p.1 <= max_depth)%Z) stack /\
  (stack = [] \/ (count + zlen (stack_subs stack) <= max_nodes)%Z) /\
  Forall node_ok (stack_subs stack).

Definition push (v : json) (depth : Z) : list (json * Z) :=
  rev (map (fun c => (c, depth + 1)%Z) (children v)).

Lemma stack_subs_cons v depth rest :
  stack_subs ((v, depth) :: rest) = subvalues v ++ stack_subs rest.
Proof. done. Qed.

Lemma stack_subs_push v depth rest :
  stack_subs (push v depth ++ rest) ≡ₚ flat_map subvalues (children v) ++ stack_subs rest.
Proof.
  unfold stack_subs, push. rewrite flat_map_app. f_equiv.
  induction (children v) as [|c l IH]; simpl; [done|].
  rewrite flat_map_app, IH. simpl. rewrite app_nil_r. apply Permutation_app_comm.
Qed.

Lemma push_depth v depth :
  (0 <= depth <= max_depth)%Z ->
  Forall (fun p => (p.2 + json_depth p.1 <= max_depth)%Z) (push v depth)
  <-> (depth + json_depth v <= max_depth)%Z.
Proof.
  intros Hd. unfold push. rewrite Forall_rev_iff, List.Forall_map.
  transitivity (json_depth v <= max_depth - depth)%Z; [|lia].
  rewrite json_depth_le by lia. apply Forall_iff. intros c. simpl. lia.
Qed.

Lemma stack_ok_push v depth rest count :
  (0 <= depth <= max_depth)%Z -> (count + 1 <= max_nodes)%Z -> node_ok v ->
  stack_ok ((v, depth) :: rest) count <-> stack_ok (push v depth ++ rest) (count + 1).
Proof.
  intros Hd Hc Hn. unfold stack_ok. pose proof (stack_subs_push v depth rest) as HP.
  rewrite HP, stack_subs_cons, subvalues_children. unfold zlen. simpl.
  rewrite !length_app, !list.Forall_cons, !Forall_app, push_depth by done. simpl.
  split.
  - intros (HF & [?|Hlen] & ?); [done|]. split_and!; try naive_solver. right. lia.
  - intros (HF & Hlen & ?). split_and!; try naive_solver. right.
    destruct Hlen as [He|?]; [|lia].
    apply app_nil in He as [H1 ->]. unfold push in H1. simpl.
    destruct (children v); [simpl; lia|]. simpl in H1. by apply app_nil in H1 as [_ ?].
Qed.

Lemma stack_ok_nil count : stack_ok [] count.
Proof. split; [constructor|split; [by left|constructor]]. Qed.

Lemma bounds_loop_Ok fuel stack count :
  (length (stack_subs stack) <= fuel)%nat -> Forall (fun p => 0 <= p.2)%Z stack ->
  bounds_loop fuel stack count = Ok tt <-> stack_ok stack count.
Proof.
  revert stack count. induction fuel as [|fuel IH]; intros stack count Hf Hp.
  { destruct stack as [|[v d] stack].
    - split; [|done]. intros _. apply stack_ok_nil.
    - unfold stack_subs in Hf. simpl in Hf. rewrite subvalues_children, length_app in Hf. simpl in Hf. lia. }
  destruct stack as [|[v d] stack]; simpl.
  { split; [|done]. intros _. apply stack_ok_nil. }
  apply list.Forall_cons in Hp as [Hd Hp]. simpl in Hd.
  pose proof (stack_subs_push v d stack) as HP.
  unfold stack_subs in Hf. simpl in Hf. rewrite subvalues_children in Hf. simpl in Hf.
  destruct ((max_depth <? d)%Z || (max_nodes <? count + 1)%Z) eqn:E; simpl.
  { split; [done|]. intros (H1 & [?|H2] & _); [done|]. exfalso.
    apply list.Forall_cons in H1 as [H1 _]. simpl in H1. unfold stack_subs, zlen in H2. simpl in H2.
    rewrite subvalues_children, length_app in H2. simpl in H2.
    pose proof (json_depth_nonneg v). apply orb_true_iff in E as [?|?]; bool_hyps; lia. }
  bool_hyps.
  assert (node_ok v -> bounds_loop fuel (push v d ++ stack) (count + 1) = Ok tt
            <-> stack_ok ((v, d) :: stack) count) as Hstep.
  { intros Hn. rewrite stack_ok_push by (done || lia). apply IH.
    - rewrite (Permutation_length HP). unfold stack_subs. lia.
    - apply Forall_app. split; [|done]. unfold push. rewrite Forall_rev_iff, List.Forall_map.
      apply list.Forall_forall. intros c _. simpl. lia. }
  assert (stack_ok ((v, d) :: stack) count -> node_ok v) as Hnode.
  { intros (_ & _ & Hn). unfold stack_subs in Hn. simpl in Hn.
    rewrite subvalues_children in Hn. by inversion Hn. }
  destruct v as [|b|z|r|s|l|o]; unfold push in *; simpl in Hstep, Hnode |- *;
    try (by apply Hstep).
  - rewrite bind_Ok. setoid_rewrite raise_if_Ok. setoid_rewrite Z.ltb_ge.
    split; [intros ([] & ? & ?); by apply Hstep|]. intros H'. exists tt.
    split; [auto|]. by apply Hstep; auto.
  - split; [done|]. intros H'. by apply Hnode in H'.
  - rewrite bind_Ok. split; [intros ([] & ? & ?); by apply Hstep|].
    intros H'. exists tt. split; [auto|]. by apply Hstep; auto.
  - rewrite bind_Ok. setoid_rewrite for_each_Ok. unfold dkeys in *.
    rewrite List.map_map in Hstep. rewrite list.Forall_fmap in Hstep, Hnode.
    split; [intros ([] & ? & ?); by apply Hstep|].
    intros H'. exists tt. split; [by apply Hnode|]. by apply Hstep; auto.
Qed.

(** The loop accepts exactly the values within the budget. *)
Lemma bounds_Ok v : (0 <= max_depth)%Z -> bounds v = Ok tt <-> within_bounds v.
Proof.
  intros Hd. unfold bounds. rewrite bounds_loop_Ok.
  - unfold stack_ok, within_bounds, stack_subs. simpl. rewrite app_nil_r.
    rewrite list.Forall_cons, list.Forall_nil. simpl. naive_solver lia.
  - unfold stack_subs. simpl. by rewrite app_nil_r.
  - by repeat constructor.
Qed.

(** The loop ends with a verdict of its own: the fuel never runs out. *)
Lemma bounds_loop_Err fuel stack count e :
  (length (stack_subs stack) <= fuel)%nat ->
  bounds_loop fuel stack count = Err e ->
  e = limit_err \/ e = int_err \/ e = other_err \/ exists s, check_str s = Err e.
Proof.
  revert stack count. induction fuel as [|fuel IH]; intros stack count Hf.
  { destruct stack as [|[v d] stack]; [done|].
    unfold stack_subs in Hf. simpl in Hf. rewrite subvalues_children, length_app in Hf. simpl in Hf. lia. }
  destruct stack as [|[v d] stack]; simpl; [done|].
  pose proof (stack_subs_push v d stack) as HP. apply Permutation_length in HP.
  unfold stack_subs in Hf. simpl in Hf. rewrite subvalues_children in Hf. simpl in Hf.
  fold (stack_subs stack) in Hf.
  rewrite bind_Err. intros [H|(_ & _ & H)]; [apply raise_if_Err in H; naive_solver|].
  assert (forall c, bounds_loop fuel (push v d ++ stack) c = Err e ->
    e = limit_err \/ e = int_err \/ e = other_err \/ exists s, check_str s = Err e) as Hstep.
  { intros c. apply IH. rewrite HP. lia. }
  destruct v as [|b|z|r|s|l|o]; unfold push in Hstep; simpl in Hstep; eauto.
  - apply bind_Err in H as [H|(_ & _ & H)]; [apply raise_if_Err in H; naive_solver|eauto].
  - inv_res. naive_solver.
  - apply bind_Err in H as [H|(_ & _ & H)]; eauto.
  - rewrite List.map_map in Hstep.
    apply bind_Err in H as [H|(_ & _ & H)]; [|eauto].
    apply for_each_Err in H as (x & _ & Hx). eauto.
Qed.
End Bounds.

(** A Python dictionary has no key twice: the invariant of the [dict] type,
    at every level of a value. *)
Definition dict_ok (v : json) : Prop :=
  match v with JObj d => NoDup (dkeys d) | _ => True end.
Definition wf_json (v : json) : Prop := Forall dict_ok (subvalues v).

#[export] Instance dict_ok_dec v : Decision (dict_ok v).
Proof. destruct v; simpl; apply _. Defined.
#[export] Instance wf_json_dec v : Decision (wf_json v).
Proof. unfold wf_json. apply _. Defined.
