(* ===== verification/JsonText.v ===== *)
(** * [json.loads] and [json.dumps]

    The part of Python's standard [json] module the supervisor relies on:
    the scanner with its hooks (duplicate-key detection, exact integers,
    refused constants) and the compact encoder, on code points.  The nesting
    the scanner accepts before [RecursionError] is a parameter ([depth]): it
    belongs to the interpreter.  The main result is that scanning the compact
    encoding of a value gives the value back. *)

From Stdlib Require Import ZArith Lia.
From stdpp Require Import base list gmap strings numbers.
From S2P Require Import Prelude PyJson.
#[local] Open Scope res_scope.

(** ** Scanner *)
Record json_hooks : Type := {
  object_pairs_hook : pydict -> res json;
  parse_int : pystr -> res json;
  parse_float : pystr -> res json;
  parse_constant : pystr -> res json
}.

Definition is_ws (c : N) : bool := bool_decide (c ∈ [32; 9; 10; 13]%N).

Fixpoint skip_ws (s : pystr) : pystr :=
  match s with
  | c :: r => if is_ws c then skip_ws r else s
  | [] => []
  end.

Definition hex_value (c : N) : option N :=
  if is_digit c then Some (c - 48)%N
  else if in_range 97 102 c then Some (c - 87)%N
  else if in_range 65 70 c then Some (c - 55)%N
  else None.

Definition hex4 (a b c d : N) : option N :=
  (a ← hex_value a; b ← hex_value b; c ← hex_value c; d ← hex_value d;
   Some (((a * 16 + b) * 16 + c) * 16 + d)%N)%stdpp.

Definition is_high_surrogate (c : N) : bool := in_range 0xD800 0xDBFF c.
Definition is_low_surrogate (c : N) : bool := in_range 0xDC00 0xDFFF c.

(** The one-letter escapes: quote, backslash, slash, b, f, n, r, t. *)
Definition simple_escape (e : N) : option N :=
  if bool_decide (e ∈ [34; 92; 47]%N) then Some e
  else if (e =? 98)%N then Some 8%N
  else if (e =? 102)%N then Some 12%N
  else if (e =? 110)%N then Some 10%N
  else if (e =? 114)%N then Some 13%N
  else if (e =? 116)%N then Some 9%N
  else None.

Definition prepend (c : N) (m : res (pystr * pystr)) : res (pystr * pystr) :=
  '(s, r) ← m; Ok (c :: s, r).

(** [scanstring] with [strict=True]; the input starts after the quote. *)
Fixpoint scanstring (s : pystr) : res (pystr * pystr) :=
  match s with
  | [] => Err JSONDecodeError
  | c :: r =>
    if (c =? 34)%N then Ok ([], r)
    else if (c <? 32)%N then Err JSONDecodeError
    else if negb (c =? 92)%N then prepend c (scanstring r)
    else match r with
    | [] => Err JSONDecodeError
    | e :: r1 =>
      if negb (e =? 117)%N then
        match simple_escape e with
        | Some ch => prepend ch (scanstring r1)
        | None => Err JSONDecodeError
        end
      else match r1 with
      | h1 :: h2 :: h3 :: h4 :: r2 =>
        match hex4 h1 h2 h3 h4 with
        | None => Err JSONDecodeError
        | Some c1 =>
          match r2 with
          | b :: u :: g1 :: g2 :: g3 :: g4 :: r3 =>
            if is_high_surrogate c1 && (b =? 92)%N && (u =? 117)%N then
              match hex4 g1 g2 g3 g4 with
              | None => Err JSONDecodeError
              | Some c2 =>
                if is_low_surrogate c2
                then prepend (0x10000 + (c1 - 0xD800) * 1024 + (c2 - 0xDC00))%N (scanstring r3)
                else prepend c1 (scanstring r2)
              end
            else prepend c1 (scanstring r2)
          | _ => prepend c1 (scanstring r2)
          end
        end
      | _ => Err JSONDecodeError
      end
    end
  end.

Fixpoint span_digits (s : pystr) : pystr * pystr :=
  match s with
  | c :: r => if is_digit c then let '(d, t) := span_digits r in (c :: d, t) else ([], s)
  | [] => ([], [])
  end.

(** The integer part: [0] or a digit string without leading zero. *)
Definition scan_int_part (s : pystr) : option (pystr * pystr) :=
  match s with
  | c :: r =>
    if (c =? 48)%N then Some ([c], r)
    else if is_digit c then let '(d, t) := span_digits r in Some (c :: d, t)
    else None
  | [] => None
  end.

Definition scan_frac (s : pystr) : pystr * pystr :=
  match s with
  | c :: r =>
    if (c =? 46)%N then
      match span_digits r with
      | ([], _) => ([], s)
      | (d, t) => (c :: d, t)
      end
    else ([], s)
  | [] => ([], [])
  end.

Definition scan_exp (s : pystr) : pystr * pystr :=
  match s with
  | c :: r =>
    if bool_decide (c ∈ [101; 69]%N) then
      let '(sign, r1) := match r with
        | x :: r' => if bool_decide (x ∈ [43; 45]%N) then ([x], r') else ([], r)
        | [] => ([], [])
        end in
      match span_digits r1 with
      | ([], _) => ([], s)
      | (d, t) => (c :: sign ++ d, t)
      end
    else ([], s)
  | [] => ([], [])
  end.

(** The number token, whether it goes to [parse_float], and the rest. *)
Definition scan_number (s : pystr) : option (pystr * bool * pystr) :=
  let '(sign, r) := match s with
    | c :: r => if (c =? 45)%N then ([c], r) else ([], s)
    | [] => ([], [])
    end in
  ('(ip, r1) ← scan_int_part r;
   let '(fr, r2) := scan_frac r1 in
   let '(ex, r3) := scan_exp r2 in
   Some (sign ++ ip ++ fr ++ ex, negb (bool_decide (fr ++ ex = [])), r3))%stdpp.

Section Scan.
Context (h : json_hooks).

(** The loops over members and elements; [fuel] bounds the number of
    members, and the length of the input is enough. *)
Fixpoint scan_members (scan : pystr -> res (json * pystr)) (fuel : nat)
    (s : pystr) (acc : pydict) : res (json * pystr) :=
  match fuel, s with
  | S fuel, c :: r =>
    if negb (c =? 34)%N then Err JSONDecodeError
    else
      '(k, r1) ← scanstring r;
      match skip_ws r1 with
      | c2 :: r2 =>
        if negb (c2 =? 58)%N then Err JSONDecodeError
        else
          '(v, r3) ← scan (skip_ws r2);
          match skip_ws r3 with
          | c4 :: r4 =>
            if (c4 =? 125)%N then
              o ← object_pairs_hook h (acc ++ [(k, v)]); Ok (o, r4)
            else if (c4 =? 44)%N then scan_members scan fuel (skip_ws r4) (acc ++ [(k, v)])
            else Err JSONDecodeError
          | [] => Err JSONDecodeError
          end
      | [] => Err JSONDecodeError
      end
  | _, _ => Err JSONDecodeError
  end.

Fixpoint scan_elements (scan : pystr -> res (json * pystr)) (fuel : nat)
    (s : pystr) (acc : list json) : res (json * pystr) :=
  match fuel with
  | S fuel =>
    '(v, r1) ← scan s;
    match skip_ws r1 with
    | c :: r2 =>
      if (c =? 93)%N then Ok (JArr (acc ++ [v]), r2)
      else if (c =? 44)%N then scan_elements scan fuel (skip_ws r2) (acc ++ [v])
      else Err JSONDecodeError
    | [] => Err JSONDecodeError
    end
  | O => Err JSONDecodeError
  end.

Definition scan_object (scan : pystr -> res (json * pystr)) (r : pystr) : res (json * pystr) :=
  match skip_ws r with
  | c :: r1 =>
    if (c =? 125)%N then o ← object_pairs_hook h []; Ok (o, r1)
    else scan_members scan (length r) (skip_ws r) []
  | [] => Err JSONDecodeError
  end.

Definition scan_array (scan : pystr -> res (json * pystr)) (r : pystr) : res (json * pystr) :=
  match skip_ws r with
  | c :: r1 =>
    if (c =? 93)%N then Ok (JArr [], r1)
    else scan_elements scan (length r) (skip_ws r) []
  | [] => Err JSONDecodeError
  end.

Definition drop_prefix (p : pystr) (s : pystr) : option pystr :=
  if starts_with p s then Some (drop (length p) s) else None.

(** Everything but containers and strings. *)
Definition scan_scalar (s : pystr) : res (json * pystr) :=
  match drop_prefix "null" s, drop_prefix "true" s, drop_prefix "false" s with
  | Some r, _, _ => Ok (JNull, r)
  | _, Some r, _ => Ok (JBool true, r)
  | _, _, Some r => Ok (JBool false, r)
  | _, _, _ =>
    match drop_prefix "NaN" s, drop_prefix "Infinity" s, drop_prefix "-Infinity" s with
    | Some r, _, _ => v ← parse_constant h "NaN"; Ok (v, r)
    | _, Some r, _ => v ← parse_constant h "Infinity"; Ok (v, r)
    | _, _, Some r => v ← parse_constant h "-Infinity"; Ok (v, r)
    | _, _, _ =>
      match scan_number s with
      | Some (tok, isf, r) =>
        v ← (if isf : bool then parse_float h tok else parse_int h tok); Ok (v, r)
      | None => Err JSONDecodeError
      end
    end
  end.

(** [scan_once]; [depth] containers may still be opened. *)
Fixpoint scan_once (depth : nat) (s : pystr) : res (json * pystr) :=
  match s with
  | [] => Err JSONDecodeError
  | c :: r =>
    if (c =? 34)%N then '(t, r1) ← scanstring r; Ok (JStr t, r1)
    else if (c =? 123)%N then
      match depth with
      | O => Err RecursionError
      | S d => scan_object (scan_once d) r
      end
    else if (c =? 91)%N then
      match depth with
      | O => Err RecursionError
      | S d => scan_array (scan_once d) r
      end
    else scan_scalar s
  end.

(** [json.loads(s, ...)] on a string. *)
Definition loads (depth : nat) (s : pystr) : res json :=
  raise_if (starts_with [0xFEFF]%N s) JSONDecodeError ;;
  '(v, r) ← scan_once depth (skip_ws s);
  match skip_ws r with [] => Ok v | _ => Err JSONDecodeError end.
End Scan.

(** ** Encoder *)

Definition hex_digit (n : N) : N := if (n <? 10)%N then (48 + n)%N else (87 + n)%N.
Definition hex4_digits (c : N) : pystr :=
  [hex_digit (c / 4096); hex_digit ((c / 256) mod 16);
   hex_digit ((c / 16) mod 16); hex_digit (c mod 16)]%N.

(** [ensure_ascii=False]: only quotes, backslashes and controls are escaped. *)
Definition escape_char (c : N) : pystr :=
  if bool_decide (c ∈ [34; 92]%N) then [92; c]%N
  else if (c =? 10)%N then [92; 110]%N
  else if (c =? 13)%N then [92; 114]%N
  else if (c =? 9)%N then [92; 116]%N
  else if (c =? 12)%N then [92; 102]%N
  else if (c =? 8)%N then [92; 98]%N
  else if (c <? 32)%N then [92; 117]%N ++ hex4_digits c
  else [c].

(** [ensure_ascii=True]: everything outside the printable ASCII range as well. *)
Definition escape_char_ascii (c : N) : pystr :=
  if (c <? 127)%N then escape_char c
  else if (c <? 0x10000)%N then [92; 117]%N ++ hex4_digits c
  else [92; 117]%N ++ hex4_digits (0xD800 + (c - 0x10000) / 1024)
       ++ [92; 117]%N ++ hex4_digits (0xDC00 + (c - 0x10000) mod 1024).

Definition quote (ascii : bool) (s : pystr) : pystr :=
  34%N :: flat_map (if ascii then escape_char_ascii else escape_char) s ++ [34]%N.

(** Decimal digits of a natural number. *)
Fixpoint dec_digits_fuel (fuel : nat) (n : N) : pystr :=
  match fuel with
  | O => []
  | S f => if (n <? 10)%N then [48 + n]%N else dec_digits_fuel f (n / 10) ++ [48 + n mod 10]%N
  end.
Definition dec_digits (n : N) : pystr := dec_digits_fuel (S (N.to_nat (N.size n))) n.
Definition int_repr (z : Z) : pystr :=
  if (z <? 0)%Z then 45%N :: dec_digits (Z.to_N (- z)) else dec_digits (Z.to_N z).

(** [json.dumps(v, separators=(",", ":"), ensure_ascii=...)] *)
Fixpoint dumps (ascii : bool) (v : json) : pystr :=
  match v with
  | JNull => "null"
  | JBool true => "true"
  | JBool false => "false"
  | JInt z => int_repr z
  | JFloat r => r
  | JStr s => quote ascii s
  | JArr l => 91%N :: join_with 44 (map (dumps ascii) l) ++ [93]%N
  | JObj d => 123%N :: join_with 44 (map (fun kv => quote ascii kv.1 ++ 58%N :: dumps ascii kv.2) d) ++ [125]%N
  end.

(** ** Decimal numerals *)

(** The number a digit string denotes. *)
Definition digits_value (l : pystr) : N := fold_left (fun a c => (a * 10 + (c - 48))%N) l 0%N.

Lemma digits_value_snoc l c : digits_value (l ++ [c]) = (digits_value l * 10 + (c - 48))%N.
Proof. unfold digits_value. by rewrite fold_left_app. Qed.

Lemma is_digit_spec c : is_digit c = true <-> (48 <= c <= 57)%N.
Proof. unfold is_digit, in_range. rewrite andb_true_iff, !N.leb_le. done. Qed.

Lemma dec_digits_fuel_value fuel n :
  (n < 2 ^ N.of_nat fuel)%N -> digits_value (dec_digits_fuel (S fuel) n) = n.
Proof.
  revert n. induction fuel as [|fuel IH]; intros n Hn.
  { simpl in Hn. assert (n = 0)%N as -> by lia. done. }
  cbn [dec_digits_fuel]. destruct (N.ltb_spec n 10).
  { unfold digits_value. simpl. lia. }
  change (if (n / 10 <? 10)%N then _ else _) with (dec_digits_fuel (S fuel) (n / 10)).
  rewrite digits_value_snoc, IH.
  - pose proof (N.div_mod n 10 ltac:(lia)) as Hdm.
    generalize dependent (n mod 10)%N. generalize dependent (n / 10)%N. lia.
  - rewrite Nat2N.inj_succ, N.pow_succ_r' in Hn.
    apply N.Div0.div_lt_upper_bound. lia.
Qed.

Lemma dec_digits_value n : digits_value (dec_digits n) = n.
Proof. apply dec_digits_fuel_value. rewrite N2Nat.id. apply N.size_gt. Qed.

Lemma dec_digits_fuel_digits fuel n : Forall (fun c => is_digit c = true) (dec_digits_fuel fuel n).
Proof.
  revert n. induction fuel as [|fuel IH]; intros n; simpl; [constructor|].
  destruct (N.ltb_spec n 10).
  - repeat constructor. apply is_digit_spec. lia.
  - apply Forall_app. split; [done|]. repeat constructor. apply is_digit_spec.
    pose proof (N.mod_lt n 10 ltac:(lia)).
    generalize dependent (n mod 10)%N. lia.
Qed.

(** A canonical numeral: no leading zero, except for zero itself. *)
Definition canonical_digits (l : pystr) : Prop :=
  l = [48]%N \/ exists c r, l = c :: r /\ (49 <= c <= 57)%N /\ Forall (fun c => is_digit c = true) r.

Lemma dec_digits_fuel_canonical fuel n :
  (n < 2 ^ N.of_nat fuel)%N -> canonical_digits (dec_digits_fuel (S fuel) n).
Proof.
  revert n. induction fuel as [|fuel IH]; intros n Hn.
  { simpl in Hn. assert (n = 0)%N as -> by lia. by left. }
  cbn [dec_digits_fuel]. destruct (N.ltb_spec n 10).
  { destruct (decide (n = 0)%N) as [->|]; [by left|]. right. exists (48 + n)%N, []. split_and!; [done|lia|lia|constructor]. }
  change (if (n / 10 <? 10)%N then _ else _) with (dec_digits_fuel (S fuel) (n / 10)).
  assert (n / 10 < 2 ^ N.of_nat fuel)%N as Hlt.
  { rewrite Nat2N.inj_succ, N.pow_succ_r' in Hn. apply N.Div0.div_lt_upper_bound. lia. }
  assert (0 < n / 10)%N as Hpos.
  { apply N.div_str_pos. lia. }
  assert (is_digit (48 + n mod 10) = true) as Hdig.
  { apply is_digit_spec. pose proof (N.mod_lt n 10 ltac:(lia)).
    generalize dependent (n mod 10)%N. lia. }
  right. destruct (IH _ Hlt) as [E|(c & r & E & ? & ?)].
  - pose proof (dec_digits_fuel_value _ _ Hlt) as Hv. rewrite E in Hv. unfold digits_value in Hv. simpl in Hv. lia.
  - exists c, (r ++ [48 + n mod 10]%N). rewrite E. split_and!; [done|lia|lia|].
    apply Forall_app. split; [done|]. by repeat constructor.
Qed.

Lemma dec_digits_canonical n : canonical_digits (dec_digits n).
Proof. apply dec_digits_fuel_canonical. rewrite N2Nat.id. apply N.size_gt. Qed.

(** What may follow a value in compact JSON: a separator, a closer, a line
    feed, or the end. *)
Definition num_end (rest : pystr) : Prop :=
  match rest with [] => True | c :: _ => c ∈ [44; 93; 125; 10]%N end.

Lemma digits_value_pos l :
  (exists c r, l = c :: r /\ (49 <= c <= 57)%N) -> (0 < digits_value l)%N.
Proof.
  intros (c & r & -> & Hc). unfold digits_value. cbn [fold_left].
  replace (0 * 10 + (c - 48))%N with (c - 48)%N by lia.
  assert (0 < c - 48)%N as Hp by lia. revert Hp. generalize (c - 48)%N. clear Hc.
  induction r as [|x r IH]; intros a Ha; cbn [fold_left]; [done|]. apply IH. lia.
Qed.

(** A canonical numeral is the one [dec_digits] writes. *)
Lemma canonical_dec_digits_fuel l fuel :
  canonical_digits l -> (digits_value l < 2 ^ N.of_nat fuel)%N ->
  dec_digits_fuel (S fuel) (digits_value l) = l.
Proof.
  revert fuel. induction l as [|c l IH] using rev_ind; intros fuel Hc Hv.
  { destruct Hc as [|(? & ? & ? & _)]; done. }
  destruct l as [|x l].
  { assert (48 <= c <= 57)%N as Hr.
    { destruct Hc as [E|(x & r & E & Hx & _)]; simpl in E; simplify_eq; clear IH; lia. }
    unfold digits_value. cbn [fold_left app]. replace (0 * 10 + (c - 48))%N with (c - 48)%N by lia.
    cbn [dec_digits_fuel]. destruct (N.ltb_spec (c - 48) 10); [|lia]. f_equal. lia. }
  destruct Hc as [?|(x' & r & [= <- <-] & Hx & Hr)]; [by destruct l|].
  apply Forall_app in Hr as [Hl Hr]. apply Forall_cons_1 in Hr as [Hr _]. apply is_digit_spec in Hr.
  assert (canonical_digits (x :: l)) as Hc by (right; eauto).
  pose proof (digits_value_pos (x :: l) ltac:(eauto)) as Hpos.
  change (x :: l ++ [c]) with ((x :: l) ++ [c]) in *. rewrite digits_value_snoc in *.
  generalize dependent (digits_value (x :: l)). intros v IH Hv Hpos. specialize (fun f => IH f Hc).
  destruct fuel as [|fuel]; [simpl in Hv; lia|].
  cbn [dec_digits_fuel]. destruct (N.ltb_spec (v * 10 + (c - 48)) 10); [lia|].
  replace ((v * 10 + (c - 48)) / 10)%N with v.
  2:{ apply N.div_unique with (c - 48)%N; lia. }
  replace ((v * 10 + (c - 48)) mod 10)%N with (c - 48)%N.
  2:{ apply N.mod_unique with v; lia. }
  rewrite Nat2N.inj_succ, N.pow_succ_r' in Hv.
  change (if (v <? 10)%N then _ else _) with (dec_digits_fuel (S fuel) v).
  rewrite IH by lia. f_equal. f_equal. lia.
Qed.

Lemma canonical_dec_digits l : canonical_digits l -> dec_digits (digits_value l) = l.
Proof. intros. apply canonical_dec_digits_fuel; [done|]. rewrite N2Nat.id. apply N.size_gt. Qed.

#[export] Instance dec_digits_inj : Inj (=) (=) dec_digits.
Proof. intros n m H. rewrite <- (dec_digits_value n), <- (dec_digits_value m). by rewrite H. Qed.

Lemma span_digits_app d rest :
  Forall (fun c => is_digit c = true) d -> num_end rest -> span_digits (d ++ rest) = (d, rest).
Proof.
  intros Hd Hr. induction Hd as [|c d Hc _ IH]; simpl.
  - destruct rest as [|c r]; [done|]. simpl.
    replace (is_digit c) with false; [done|].
    symmetry. apply not_true_iff_false. rewrite is_digit_spec.
    simpl in Hr. rewrite !elem_of_cons, elem_of_nil in Hr. lia.
  - by rewrite Hc, IH.
Qed.

Lemma scan_int_part_digits l rest :
  canonical_digits l -> num_end rest -> scan_int_part (l ++ rest) = Some (l, rest).
Proof.
  intros [->|(c & r & -> & Hc & Hr)] He; [done|]. simpl.
  destruct (N.eqb_spec c 48); [lia|].
  rewrite (proj2 (is_digit_spec c)) by lia. by rewrite span_digits_app.
Qed.

Lemma num_end_no_frac_exp rest :
  num_end rest -> scan_frac rest = ([], rest) /\ scan_exp rest = ([], rest).
Proof.
  destruct rest as [|c r]; [done|]. simpl. rewrite !elem_of_cons, elem_of_nil.
  intros [->|[->|[->|[->|[]]]]]; done.
Qed.

Lemma scan_number_repr z rest :
  num_end rest -> scan_number (int_repr z ++ rest) = Some (int_repr z, false, rest).
Proof.
  intros He. destruct (num_end_no_frac_exp rest He) as [Hf Hx].
  unfold scan_number, int_repr. destruct (z <? 0)%Z eqn:Hz.
  - simpl. rewrite scan_int_part_digits by auto using dec_digits_canonical. simpl.
    rewrite Hf, Hx. by rewrite !app_nil_r.
  - pose proof (dec_digits_canonical (Z.to_N z)) as Hc.
    assert (exists c r, dec_digits (Z.to_N z) = c :: r /\ (c =? 45)%N = false) as (c & r & E & Hm).
    { destruct Hc as [->|(c & r & -> & Hc & _)]; [by exists 48%N, []|].
      exists c, r. split; [done|]. apply N.eqb_neq. lia. }
    rewrite E. simpl. rewrite Hm. rewrite <- E.
    change (c :: (r ++ rest)) with ((c :: r) ++ rest). rewrite <- E.
    rewrite scan_int_part_digits by done. simpl. rewrite Hf, Hx. simpl. by rewrite !app_nil_r.
Qed.

(** ** Strings *)

Lemma hex_value_digit n : (n < 16)%N -> hex_value (hex_digit n) = Some n.
Proof.
  intros Hn. unfold hex_value, hex_digit. destruct (N.ltb_spec n 10).
  - rewrite (proj2 (is_digit_spec (48 + n))) by lia. f_equal. lia.
  - destruct (is_digit (87 + n)) eqn:E; [apply is_digit_spec in E; lia|].
    unfold in_range. destruct (N.leb_spec 97 (87 + n)); [|lia].
    destruct (N.leb_spec (87 + n) 102); [|lia]. simpl. f_equal. lia.
Qed.

Lemma hex4_roundtrip c a b d e : hex4_digits c = [a; b; d; e] -> (c < 65536)%N -> hex4 a b d e = Some c.
Proof.
  unfold hex4_digits, hex4. intros [= <- <- <- <-] Hc.
  pose proof (N.div_mod c 16 ltac:(lia)) as D0. pose proof (N.mod_lt c 16 ltac:(lia)) as M0.
  pose proof (N.div_mod (c / 16) 16 ltac:(lia)) as D1. pose proof (N.mod_lt (c / 16) 16 ltac:(lia)) as M1.
  pose proof (N.div_mod (c / 256) 16 ltac:(lia)) as D2. pose proof (N.mod_lt (c / 256) 16 ltac:(lia)) as M2.
  assert (c / 256 = c / 16 / 16)%N as E1 by (rewrite N.Div0.div_div; f_equal).
  assert (c / 4096 = c / 256 / 16)%N as E2 by (rewrite N.Div0.div_div; f_equal).
  rewrite <- E1 in D1. rewrite <- E2 in D2. clear E1 E2.
  generalize dependent (c mod 16)%N. generalize dependent ((c / 16) mod 16)%N.
  generalize dependent ((c / 256) mod 16)%N. generalize dependent (c / 16)%N.
  generalize dependent (c / 256)%N. generalize dependent (c / 4096)%N.
  intros q3 q2 q1 r2 D2 M2 r1 D1 M1 r0 D0 M0.
  rewrite !hex_value_digit by lia. simpl. f_equal. lia.
Qed.

Lemma scanstring_u c1 h1 h2 h3 h4 t :
  hex4 h1 h2 h3 h4 = Some c1 -> is_high_surrogate c1 = false ->
  scanstring (92%N :: 117%N :: h1 :: h2 :: h3 :: h4 :: t) = prepend c1 (scanstring t).
Proof.
  intros H4 Hh. cbn [scanstring]. cbv iota beta. simpl negb. cbv iota. rewrite H4.
  do 6 (destruct t as [|? t]; [done|]). by rewrite Hh.
Qed.

Lemma scanstring_pair c1 c2 h1 h2 h3 h4 g1 g2 g3 g4 t :
  hex4 h1 h2 h3 h4 = Some c1 -> hex4 g1 g2 g3 g4 = Some c2 ->
  is_high_surrogate c1 = true -> is_low_surrogate c2 = true ->
  scanstring (92%N :: 117%N :: h1 :: h2 :: h3 :: h4 :: 92%N :: 117%N :: g1 :: g2 :: g3 :: g4 :: t)
  = prepend (0x10000 + (c1 - 0xD800) * 1024 + (c2 - 0xDC00))%N (scanstring t).
Proof.
  intros H4 G4 Hh Hl. cbn [scanstring]. cbv iota beta. simpl negb. cbv iota. rewrite H4, Hh.
  simpl andb. cbv iota. by rewrite G4, Hl.
Qed.

Lemma hex4_digits_shape c : exists a b d e, hex4_digits c = [a; b; d; e].
Proof. unfold hex4_digits. eauto. Qed.

Lemma scanstring_escape_char c t :
  scanstring (escape_char c ++ t) = prepend c (scanstring t).
Proof.
  unfold escape_char.
  case_bool_decide as Hq; [rewrite !elem_of_cons, elem_of_nil in Hq; by destruct Hq as [->|[->|[]]]|].
  rewrite !elem_of_cons, elem_of_nil in Hq.
  do 5 match goal with |- context [(c =? ?k)%N] => destruct (N.eqb_spec c k) as [->|?]; [done|] end.
  destruct (N.ltb_spec c 32).
  - destruct (hex4_digits_shape c) as (a & b & d & e & E). rewrite E.
    apply scanstring_u; [apply hex4_roundtrip; [done|lia]|].
    unfold is_high_surrogate, in_range. destruct (N.leb_spec 0xD800 c); [lia|done].
  - cbn [app scanstring].
    destruct (N.eqb_spec c 34); [naive_solver|]. destruct (N.ltb_spec c 32); [lia|].
    destruct (N.eqb_spec c 92); [naive_solver|]. done.
Qed.

Lemma is_scalar_spec c :
  is_scalar c = true <-> (c <= 0x10FFFF)%N /\ (c < 0xD800 \/ 0xDFFF < c)%N.
Proof.
  unfold is_scalar, is_surrogate.
  rewrite andb_true_iff, negb_true_iff, andb_false_iff, !N.leb_le, !N.leb_gt. lia.
Qed.

Lemma scanstring_escape_ascii c t :
  is_scalar c = true -> scanstring (escape_char_ascii c ++ t) = prepend c (scanstring t).
Proof.
  rewrite is_scalar_spec. intros [H1 H2]. unfold escape_char_ascii.
  destruct (N.ltb_spec c 127); [apply scanstring_escape_char|].
  destruct (N.ltb_spec c 0x10000).
  - destruct (hex4_digits_shape c) as (a & b & d & e & E). rewrite E.
    apply scanstring_u; [apply hex4_roundtrip; [done|lia]|].
    unfold is_high_surrogate, in_range.
    destruct (N.leb_spec 0xD800 c); [|done]. destruct (N.leb_spec c 0xDBFF); [lia|done].
  - pose proof (N.div_mod (c - 0x10000) 1024 ltac:(lia)) as D. pose proof (N.mod_lt (c - 0x10000) 1024 ltac:(lia)) as M.
    generalize dependent ((c - 0x10000) mod 1024)%N. generalize dependent ((c - 0x10000) / 1024)%N.
    intros q r D M.
    destruct (hex4_digits_shape (0xD800 + q)) as (a & b & d & e & E).
    destruct (hex4_digits_shape (0xDC00 + r)) as (a' & b' & d' & e' & E').
    rewrite E, E'. simpl app.
    rewrite (scanstring_pair (0xD800 + q) (0xDC00 + r)).
    + f_equal. lia.
    + apply hex4_roundtrip; [done|lia].
    + apply hex4_roundtrip; [done|lia].
    + unfold is_high_surrogate, in_range. apply andb_true_iff. rewrite !N.leb_le. lia.
    + unfold is_low_surrogate, in_range. apply andb_true_iff. rewrite !N.leb_le. lia.
Qed.

(** Scanning a quoted string gives the string back. *)
Lemma scanstring_quote (ascii : bool) s rest :
  Forall (fun c => is_scalar c = true) s ->
  scanstring ((flat_map (if ascii then escape_char_ascii else escape_char) s ++ [34]%N) ++ rest) = Ok (s, rest).
Proof.
  intros Hs. rewrite <- app_assoc. simpl app.
  induction Hs as [|c s Hc _ IH]; [done|]. cbn [flat_map].
  rewrite <- app_assoc. destruct ascii.
  - by rewrite scanstring_escape_ascii, IH.
  - by rewrite scanstring_escape_char, IH.
Qed.

(** ** Values *)

Lemma drop_prefix_app p s : drop_prefix p (p ++ s) = Some s.
Proof.
  unfold drop_prefix. rewrite (proj2 (starts_with_spec _ _)) by eauto. by rewrite drop_app_length.
Qed.

Lemma drop_prefix_ne a p c s : a <> c -> drop_prefix (a :: p) (c :: s) = None.
Proof. intros. unfold drop_prefix. simpl. by rewrite (proj2 (N.eqb_neq a c)). Qed.

Section RoundTrip.
Context (h : json_hooks) (ascii : bool).

(** What the encoder and the hooks need of each nested value. *)
Definition node_rt (v : json) : Prop :=
  match v with
  | JObj d => NoDup (dkeys d) /\ Forall (Forall (fun c => is_scalar c = true)) (dkeys d)
  | JStr s => Forall (fun c => is_scalar c = true) s
  | JInt z => parse_int h (int_repr z) = Ok (JInt z)
  | JFloat _ => False
  | _ => True
  end.

Lemma int_repr_head z : exists c r, int_repr z = c :: r /\
  ((48 <= c <= 57)%N \/ c = 45%N /\ exists c' r', r = c' :: r' /\ (48 <= c' <= 57)%N).
Proof.
  unfold int_repr.
  assert (forall n, exists c r, dec_digits n = c :: r /\ (48 <= c <= 57)%N) as Hd.
  { intros n. destruct (dec_digits_canonical n) as [->|(c & r & -> & ? & _)]; eauto using N.le_refl.
    - exists 48%N, []. split; [done|lia].
    - exists c, r. split; [done|lia]. }
  destruct (z <? 0)%Z.
  - destruct (Hd (Z.to_N (- z))) as (c & r & -> & ?). exists 45%N, (c :: r). split; [done|].
    right. split; [done|]. eauto.
  - destruct (Hd (Z.to_N z)) as (c & r & -> & ?). eauto.
Qed.

Lemma scan_scalar_int z rest :
  node_rt (JInt z) -> num_end rest -> scan_scalar h (int_repr z ++ rest) = Ok (JInt z, rest).
Proof.
  intros Hz He. simpl in Hz. unfold scan_scalar. pose proof (scan_number_repr z rest He) as Hn.
  destruct (int_repr_head z) as (c & r & E & Hc). rewrite E in *. simpl app in *.
  change (str "null") with [110; 117; 108; 108]%N. change (str "true") with [116; 114; 117; 101]%N.
  change (str "false") with [102; 97; 108; 115; 101]%N. change (str "NaN") with [78; 97; 78]%N.
  change (str "Infinity") with [73; 110; 102; 105; 110; 105; 116; 121]%N.
  change (str "-Infinity") with [45; 73; 110; 102; 105; 110; 105; 116; 121]%N.
  rewrite !(drop_prefix_ne _ _ c) by (destruct Hc as [?|[-> _]]; lia).
  assert (drop_prefix [45; 73; 110; 102; 105; 110; 105; 116; 121]%N (c :: r ++ rest) = None) as Hm.
  { destruct Hc as [?|(-> & c' & r' & -> & ?)]; [apply drop_prefix_ne; lia|].
    unfold drop_prefix. cbn [app starts_with]. by rewrite (proj2 (N.eqb_neq 73 c')) by lia. }
  rewrite Hm, Hn. by rewrite Hz.
Qed.

Lemma dumps_head v : node_rt v -> exists c r, dumps ascii v = c :: r /\
  is_ws c = false /\ c <> 93%N /\ c <> 125%N.
Proof.
  destruct v as [|[]|z|r|s|l|d]; cbn [dumps]; intros Hv;
    try (eexists _, _; split_and!; [reflexivity|done..]); try done.
  destruct (int_repr_head z) as (c & r & -> & Hc). exists c, r. split; [done|].
  assert ((48 <= c <= 57)%N \/ c = 45%N) as Hc' by naive_solver. clear Hc.
  split_and!; [|lia..]. unfold is_ws. apply bool_decide_eq_false.
  rewrite !elem_of_cons, elem_of_nil. lia.
Qed.

Lemma skip_ws_head c r : is_ws c = false -> skip_ws (c :: r) = c :: r.
Proof. simpl. by intros ->. Qed.

Lemma skip_ws_dumps v rest : node_rt v -> skip_ws (dumps ascii v ++ rest) = dumps ascii v ++ rest.
Proof. intros (c & r & -> & ? & _)%dumps_head. by apply skip_ws_head. Qed.

Lemma scan_elements_dumps scan l fuel acc rest :
  l <> [] -> (length l <= fuel)%nat -> Forall node_rt l ->
  Forall (fun x => forall rest, num_end rest -> scan (dumps ascii x ++ rest) = Ok (x, rest)) l ->
  scan_elements scan fuel (join_with 44 (map (dumps ascii) l) ++ 93%N :: rest) acc
  = Ok (JArr (acc ++ l), rest).
Proof.
  intros Hne Hf Hn Hs. revert fuel acc Hf. induction l as [|x l IH]; [done|].
  apply list.Forall_cons in Hn as [Hx Hn]. apply list.Forall_cons in Hs as [Sx Hs].
  intros [|fuel] acc Hf; [simpl in Hf; lia|]. destruct l as [|y l].
  - cbn [map join_with scan_elements]. rewrite Sx by (simpl; set_solver). simpl. done.
  - change (join_with 44 (map (dumps ascii) (x :: y :: l))) with
      (dumps ascii x ++ 44%N :: join_with 44 (map (dumps ascii) (y :: l))).
    cbn [scan_elements]. rewrite <- app_assoc. rewrite Sx by (simpl; set_solver). cbn [app].
    cbn [rbind]. rewrite skip_ws_head by done. simpl N.eqb. cbv iota.
    assert (skip_ws (join_with 44 (map (dumps ascii) (y :: l)) ++ 93%N :: rest)
            = join_with 44 (map (dumps ascii) (y :: l)) ++ 93%N :: rest) as ->.
    { apply list.Forall_cons in Hn as [Hy _]. destruct l; cbn [map join_with].
      - by apply skip_ws_dumps.
      - rewrite <- app_assoc. by apply skip_ws_dumps. }
    rewrite IH; [by rewrite <- app_assoc|done|done|done|simpl in *; lia].
Qed.

Context (Hhook : forall d, NoDup (dkeys d) -> object_pairs_hook h d = Ok (JObj d)).

Lemma scan_members_dumps scan (l : pydict) fuel acc rest :
  l <> [] -> (length l <= fuel)%nat -> Forall (fun kv => node_rt kv.2) l ->
  Forall (Forall (fun c => is_scalar c = true)) (dkeys l) -> NoDup (dkeys (acc ++ l)) ->
  Forall (fun kv => forall rest, num_end rest -> scan (dumps ascii kv.2 ++ rest) = Ok (kv.2, rest)) l ->
  scan_members h scan fuel
    (join_with 44 (map (fun kv => quote ascii kv.1 ++ 58%N :: dumps ascii kv.2) l) ++ 125%N :: rest) acc
  = Ok (JObj (acc ++ l), rest).
Proof.
  intros Hne Hf Hn Hk Hd Hs. revert fuel acc Hf Hd. induction l as [|[k x] l IH]; [done|].
  apply list.Forall_cons in Hn as [Hx Hn]. apply list.Forall_cons in Hs as [Sx Hs].
  unfold dkeys in Hk. simpl in Hx, Sx, Hk. apply list.Forall_cons in Hk as [Kx Hk].
  intros [|fuel] acc Hf Hd; [simpl in Hf; lia|].
  assert (forall t, num_end t ->
    scan_members h scan (S fuel) ((quote ascii k ++ 58%N :: dumps ascii x) ++ t) acc =
    match skip_ws t with
    | c4 :: r4 =>
      if (c4 =? 125)%N then o ← object_pairs_hook h (acc ++ [(k, x)]); Ok (o, r4)
      else if (c4 =? 44)%N then scan_members h scan fuel (skip_ws r4) (acc ++ [(k, x)])
      else Err JSONDecodeError
    | [] => Err JSONDecodeError
    end) as Hone.
  { intros t Ht. rewrite <- app_assoc. simpl app.
    change (quote ascii k ++ 58%N :: dumps ascii x ++ t)
      with (34%N :: (flat_map (if ascii then escape_char_ascii else escape_char) k ++ [34]%N)
              ++ (58%N :: dumps ascii x ++ t)).
    cbn [scan_members]. simpl negb. cbv iota. rewrite scanstring_quote by done.
    cbn [rbind]. rewrite skip_ws_head by done. simpl negb. cbv iota.
    rewrite skip_ws_dumps, Sx by done. done. }
  destruct l as [|[k' y] l].
  - cbn [map join_with fst snd]. rewrite Hone by (simpl; set_solver).
    rewrite skip_ws_head by done. simpl N.eqb. cbv iota. by rewrite Hhook.
  - change (join_with 44 (map ?f ((k, x) :: (k', y) :: l))) with
      (f (k, x) ++ 44%N :: join_with 44 (map f ((k', y) :: l))).
    cbn [fst snd]. rewrite <- app_assoc. cbn [app]. rewrite Hone by (simpl; set_solver).
    rewrite skip_ws_head by done. simpl N.eqb. cbv iota.
    assert (forall s, skip_ws (quote ascii k' ++ s) = quote ascii k' ++ s) as Hq by done.
    assert (skip_ws (join_with 44 (map (fun kv => quote ascii kv.1 ++ 58%N :: dumps ascii kv.2) ((k', y) :: l)) ++ 125%N :: rest)
      = join_with 44 (map (fun kv => quote ascii kv.1 ++ 58%N :: dumps ascii kv.2) ((k', y) :: l)) ++ 125%N :: rest) as ->.
    { destruct l; cbn [map join_with fst snd]; rewrite <- ?app_assoc; apply Hq. }
    rewrite IH; [by rewrite <- app_assoc|done|done|done|done|simpl in *; lia|].
    by rewrite <- app_assoc.
Qed.

Lemma join_with_length (ps : list pystr) :
  Forall (fun p => p <> []) ps -> (length ps <= length (join_with 44 ps))%nat.
Proof.
  induction 1 as [|p ps Hp _ IH]; [done|].
  assert (1 <= length p)%nat by (destruct p; simpl; [done|lia]).
  destruct ps as [|q ps]; [simpl; lia|].
  change (join_with 44 (p :: q :: ps)) with (p ++ 44%N :: join_with 44 (q :: ps)).
  rewrite length_app. cbn [length] in *. lia.
Qed.

Lemma scan_array_dumps scan l rest :
  Forall node_rt l ->
  (forall x, x ∈ l -> forall rest, num_end rest -> scan (dumps ascii x ++ rest) = Ok (x, rest)) ->
  scan_array scan (join_with 44 (map (dumps ascii) l) ++ 93%N :: rest) = Ok (JArr l, rest).
Proof.
  intros Hnl Hs. unfold scan_array. destruct l as [|x l]; [done|].
  destruct (dumps_head x) as (c & r & E & Hw & Hc & _); [by inversion Hnl|].
  assert (exists r', join_with 44 (map (dumps ascii) (x :: l)) ++ 93%N :: rest = c :: r') as [r' Er].
  { destruct l; cbn [map join_with]; rewrite E; cbn [app]; eauto. }
  rewrite Er, skip_ws_head, (proj2 (N.eqb_neq c 93)), <- Er by done.
  rewrite scan_elements_dumps; [done|done| |done|by apply list.Forall_forall].
  rewrite length_app. pose proof (join_with_length (map (dumps ascii) (x :: l))) as HL.
  rewrite length_map in HL. etransitivity; [apply HL|lia].
  apply List.Forall_map, list.Forall_forall. rewrite list.Forall_forall in Hnl.
  intros y Hy. destruct (dumps_head y (Hnl y Hy)) as (? & ? & -> & _). done.
Qed.

Lemma scan_object_dumps scan (d : pydict) rest :
  node_rt (JObj d) -> Forall node_rt d.*2 ->
  (forall x, x ∈ d.*2 -> forall rest, num_end rest -> scan (dumps ascii x ++ rest) = Ok (x, rest)) ->
  scan_object h scan (join_with 44 (map (fun kv => quote ascii kv.1 ++ 58%N :: dumps ascii kv.2) d) ++ 125%N :: rest)
  = Ok (JObj d, rest).
Proof.
  intros [Hnd Hk] Hnl Hs. unfold scan_object. destruct d as [|[k x] d].
  { simpl. by rewrite Hhook. }
  set (txt := join_with 44 (map (fun kv => quote ascii kv.1 ++ 58%N :: dumps ascii kv.2) ((k, x) :: d))).
  assert (exists r', txt ++ 125%N :: rest = 34%N :: r') as [r' Er].
  { subst txt. destruct d; cbn [map join_with fst snd]; unfold quote; cbn [app]; eauto. }
  rewrite Er. rewrite skip_ws_head by done. simpl N.eqb. cbv iota. rewrite <- Er.
  subst txt. rewrite scan_members_dumps; [done|done| |by rewrite list.Forall_fmap in Hnl|done|done|].
  - rewrite length_app.
    pose proof (join_with_length (map (fun kv => quote ascii kv.1 ++ 58%N :: dumps ascii kv.2) ((k, x) :: d))) as HL.
    rewrite length_map in HL. etransitivity; [apply HL|lia].
    apply List.Forall_map, list.Forall_forall. intros y _. done.
  - apply list.Forall_forall. intros y Hy. apply Hs. by apply list_elem_of_fmap_2.
Qed.

(** Scanning the encoding of a value gives the value and what follows it. *)
Lemma scan_once_dumps v : forall depth rest,
  (json_depth v < Z.of_nat depth)%Z -> Forall node_rt (subvalues v) -> num_end rest ->
  scan_once h depth (dumps ascii v ++ rest) = Ok (v, rest).
Proof.
  induction v as [|b|z|r|s|l IH|d IH] using json_nested_ind; intros depth rest Hd Hn He;
    rewrite subvalues_children in Hn; apply list.Forall_cons in Hn as [Hv Hn].
  - destruct depth; done.
  - destruct b, depth; done.
  - cbn [dumps]. pose proof (scan_scalar_int z rest Hv He) as Hs.
    destruct (int_repr_head z) as (c & r & E & Hc). rewrite E in *. cbn [app] in *.
    assert ((48 <= c <= 57)%N \/ c = 45%N) as Hc' by naive_solver.
    destruct depth; cbn [scan_once]; rewrite !(proj2 (N.eqb_neq c _)) by lia; done.
  - done.
  - cbn [dumps]. unfold quote. cbn [app].
    replace (scan_once h depth _) with
      ('(t, r1) ← scanstring ((flat_map (if ascii then escape_char_ascii else escape_char) s ++ [34]%N) ++ rest);
       Ok (JStr t, r1)) by (by destruct depth).
    by rewrite scanstring_quote.
  - destruct depth as [|depth]; [pose proof (json_depth_nonneg (JArr l)); lia|].
    cbn [dumps app scan_once]. simpl N.eqb. cbv iota. rewrite <- app_assoc. cbn [app].
    assert ((json_depth (JArr l) <= Z.of_nat depth)%Z) as Hl by lia.
    apply json_depth_le in Hl; [|lia]. apply nodes_flat_map in Hn as [Hnl Hsub].
    rewrite list.Forall_forall in IH. rewrite list.Forall_forall in Hl. apply scan_array_dumps; [done|].
    intros x Hx t Ht. apply IH; auto. specialize (Hl x Hx). lia.
  - destruct depth as [|depth]; [pose proof (json_depth_nonneg (JObj d)); lia|].
    cbn [dumps app scan_once]. simpl N.eqb. cbv iota. rewrite <- app_assoc. cbn [app].
    assert ((json_depth (JObj d) <= Z.of_nat depth)%Z) as Hl by lia.
    apply json_depth_le in Hl; [|lia]. apply nodes_flat_map in Hn as [Hnl Hsub].
    rewrite list.Forall_forall in IH. rewrite list.Forall_forall in Hl. apply scan_object_dumps; [done|done|].
    intros x Hx t Ht. pose proof (Hl x Hx). pose proof (Hsub x Hx).
    apply list_elem_of_fmap in Hx as (kv & -> & Hkv). apply IH; auto. lia.
Qed.

(** [json.loads(json.dumps(v)) == v], also with blank space behind. *)
Lemma loads_dumps_then v depth ws :
  (json_depth v < Z.of_nat depth)%Z -> Forall node_rt (subvalues v) -> num_end ws -> skip_ws ws = [] ->
  loads h depth (dumps ascii v ++ ws) = Ok v.
Proof.
  intros Hd Hn He Hws. unfold loads. pose proof (scan_once_dumps v depth ws Hd Hn He) as Hs.
  assert (node_rt v) as Hv by (rewrite subvalues_children in Hn; by inversion Hn).
  rewrite (skip_ws_dumps v ws Hv), Hs.
  assert (starts_with [0xFEFF]%N (dumps ascii v ++ ws) = false) as ->.
  { destruct v as [|[]|z|?|s|l|d]; try done. cbn [dumps].
    destruct (int_repr_head z) as (c' & r' & -> & Hc). cbn [starts_with app]. rewrite andb_true_r.
    apply N.eqb_neq. naive_solver lia. }
  cbn [raise_if rbind]. by rewrite Hws.
Qed.

Lemma loads_dumps v depth :
  (json_depth v < Z.of_nat depth)%Z -> Forall node_rt (subvalues v) -> loads h depth (dumps ascii v) = Ok v.
Proof. intros Hd Hn. rewrite <- (app_nil_r (dumps ascii v)). by apply loads_dumps_then. Qed.
End RoundTrip.

(** ** The text of an encoding

    Every code point the encoder writes is a scalar value and none is a
    control character, so no line feed or carriage return of the value can
    reach the frame. *)
Definition clean_char (c : N) : bool := (32 <=? c)%N && is_scalar c.

Lemma ascii_clean c : (32 <= c < 128)%N -> clean_char c = true.
Proof.
  intros. unfold clean_char. apply andb_true_iff. rewrite N.leb_le, is_scalar_spec. lia.
Qed.

Lemma hex_digit_clean n : (n < 16)%N -> clean_char (hex_digit n) = true.
Proof. intros. apply ascii_clean. unfold hex_digit. destruct (N.ltb_spec n 10); lia. Qed.

Lemma hex4_digits_clean c : (c < 65536)%N -> Forall (fun c => clean_char c = true) (hex4_digits c).
Proof.
  intros Hc. unfold hex4_digits. repeat constructor; apply hex_digit_clean;
    try (by apply N.mod_lt). apply N.Div0.div_lt_upper_bound. lia.
Qed.

Lemma escape_char_clean c : is_scalar c = true -> Forall (fun c => clean_char c = true) (escape_char c).
Proof.
  intros Hs. unfold escape_char.
  case_bool_decide as Hq.
  { rewrite !elem_of_cons, elem_of_nil in Hq. by destruct Hq as [->|[->|[]]]; repeat constructor. }
  do 5 match goal with |- context [(c =? ?k)%N] => destruct (N.eqb_spec c k) as [->|?]; [by repeat constructor|] end.
  destruct (N.ltb_spec c 32).
  - constructor; [done|]. constructor; [done|]. apply hex4_digits_clean. lia.
  - repeat constructor. unfold clean_char. rewrite Hs, andb_true_r. by apply N.leb_le.
Qed.

Lemma escape_char_ascii_clean c : is_scalar c = true -> Forall (fun c => clean_char c = true) (escape_char_ascii c).
Proof.
  intros Hs. unfold escape_char_ascii. pose proof (proj1 (is_scalar_spec c) Hs).
  destruct (N.ltb_spec c 127); [by apply escape_char_clean|].
  destruct (N.ltb_spec c 0x10000); [by do 2 (constructor; [done|]); apply hex4_digits_clean|].
  pose proof (N.mod_lt (c - 0x10000) 1024 ltac:(lia)).
  assert ((c - 0x10000) / 1024 < 1024)%N by (apply N.Div0.div_lt_upper_bound; lia).
  apply Forall_app. split; [by repeat constructor|]. apply Forall_app.
  split; [apply hex4_digits_clean; lia|]. apply Forall_app.
  split; [by repeat constructor|]. apply hex4_digits_clean. lia.
Qed.

(** Nodes that have a UTF-8 text form. *)
Definition text_node (v : json) : Prop :=
  match v with
  | JObj d => Forall (Forall (fun c => is_scalar c = true)) (dkeys d)
  | JStr s => Forall (fun c => is_scalar c = true) s
  | JFloat _ => False
  | _ => True
  end.

Section TextChars.
Context (P : N -> Prop) (ascii : bool) (Hprint : forall c, (32 <= c < 128)%N -> P c).
Context (Hesc : forall c, is_scalar c = true -> Forall P ((if ascii then escape_char_ascii else escape_char) c)).

Lemma quote_chars s : Forall (fun c => is_scalar c = true) s -> Forall P (quote ascii s).
Proof.
  intros Hs. unfold quote. constructor; [apply Hprint; lia|]. apply Forall_app.
  split; [|constructor; [apply Hprint; lia|constructor]].
  induction Hs as [|c s Hc _ IH]; [constructor|]. cbn [flat_map]. apply Forall_app. auto.
Qed.

Lemma dec_digits_chars n : Forall P (dec_digits n).
Proof.
  eapply Forall_impl; [|apply dec_digits_fuel_digits]. simpl. intros c Hc%is_digit_spec. apply Hprint. lia.
Qed.

Lemma join_with_chars (ps : list pystr) : Forall (Forall P) ps -> Forall P (join_with 44 ps).
Proof.
  induction 1 as [|p ps Hp _ IH]; [constructor|]. destruct ps as [|q ps]; [done|].
  change (join_with 44 (p :: q :: ps)) with (p ++ 44%N :: join_with 44 (q :: ps)).
  apply Forall_app. split; [done|]. constructor; [apply Hprint; lia|done].
Qed.

Lemma ascii_chars s : forallb (fun c => (32 <=? c)%N && (c <? 128)%N) s = true -> Forall P s.
Proof.
  rewrite forallb_forall, list.Forall_forall. intros H c Hc%list_elem_of_In.
  apply H in Hc as [?%N.leb_le ?%N.ltb_lt]%andb_true_iff. by apply Hprint.
Qed.

(** Every code point the encoder writes satisfies [P]. *)
Lemma dumps_chars v : Forall text_node (subvalues v) -> Forall P (dumps ascii v).
Proof.
  induction v as [|b|z|r|s|l IH|d IH] using json_nested_ind; intros Hn;
    rewrite subvalues_children in Hn; apply list.Forall_cons in Hn as [Hv Hn]; cbn [dumps].
  - by apply ascii_chars.
  - destruct b; by apply ascii_chars.
  - unfold int_repr. destruct (z <? 0)%Z; [constructor; [apply Hprint; lia|]|]; apply dec_digits_chars.
  - done.
  - by apply quote_chars.
  - constructor; [apply Hprint; lia|]. apply Forall_app. split; [|by apply ascii_chars].
    apply join_with_chars, List.Forall_map, list.Forall_forall. intros x Hx.
    apply nodes_flat_map in Hn as [_ Hn]. rewrite list.Forall_forall in IH. auto.
  - constructor; [apply Hprint; lia|]. apply Forall_app. split; [|by apply ascii_chars].
    apply join_with_chars, List.Forall_map, list.Forall_forall. intros kv Hx.
    apply nodes_flat_map in Hn as [_ Hn]. rewrite list.Forall_forall in IH.
    simpl in Hv. rewrite list.Forall_forall in Hv.
    apply Forall_app. split; [|constructor; [apply Hprint; lia|]].
    + apply quote_chars, Hv. by apply list_elem_of_fmap_2.
    + apply IH; [done|]. apply Hn. by apply list_elem_of_fmap_2.
Qed.
End TextChars.

Lemma dumps_clean ascii v :
  Forall text_node (subvalues v) -> Forall (fun c => clean_char c = true) (dumps ascii v).
Proof.
  apply dumps_chars; [apply ascii_clean|]. intros c. destruct ascii; [apply escape_char_ascii_clean|apply escape_char_clean].
Qed.

(** ** Errors of the scanner *)
Section ScanErrors.
Context (h : json_hooks).

(** The exceptions a scan can end with: its own two, or one of a hook. *)
Definition scan_error (e : exn) : Prop :=
  e = JSONDecodeError \/ e = RecursionError \/
  (exists d, object_pairs_hook h d = Err e) \/ (exists t, parse_int h t = Err e) \/
  (exists t, parse_float h t = Err e) \/ (exists t, parse_constant h t = Err e).

Lemma prepend_Err c m e : prepend c m = Err e -> m = Err e.
Proof. unfold prepend. destruct m as [[? ?]|]; simpl; congruence. Qed.

Lemma scanstring_Err_len n s e : (length s <= n)%nat -> scanstring s = Err e -> e = JSONDecodeError.
Proof.
  revert s. induction n as [|n IH]; intros s Hl.
  { destruct s; [simpl; congruence|simpl in Hl; lia]. }
  assert (forall c t, (length t <= n)%nat -> prepend c (scanstring t) = Err e -> e = JSONDecodeError) as Hp.
  { intros c t Ht H%prepend_Err. by apply (IH t). }
  destruct s as [|c r]; [simpl; congruence|]. cbn [scanstring]. simpl in Hl.
  repeat case_match; try congruence; subst; simpl in Hl; intros Herr;
    (apply Hp in Herr; [done|simpl; lia]).
Qed.

Lemma scanstring_Err s e : scanstring s = Err e -> scan_error e.
Proof. intros H. left. by apply (scanstring_Err_len (length s) s). Qed.

Lemma scan_scalar_Err s e : scan_scalar h s = Err e -> scan_error e.
Proof.
  unfold scan_scalar, scan_error. repeat case_match; try congruence; intros H';
    first [apply bind_Err in H' as [H'|(? & _ & ?)]; [eauto 10|done] | inv_res; auto].
Qed.

Definition scan_errs (scan : pystr -> res (json * pystr)) : Prop :=
  forall s e, scan s = Err e -> scan_error e.

Lemma decode_error : scan_error JSONDecodeError.
Proof. by left. Qed.

Lemma scan_members_Err scan fuel s acc e :
  scan_errs scan -> scan_members h scan fuel s acc = Err e -> scan_error e.
Proof.
  intros Hs. revert s acc. induction fuel as [|fuel IH]; intros s acc; simpl.
  { intros. inv_res. apply decode_error. }
  destruct s as [|c r]; [intros; inv_res; apply decode_error|].
  destruct (negb _); [intros; inv_res; apply decode_error|].
  rewrite bind_Err. intros [?%scanstring_Err|([k r1] & _ & H)]; [done|].
  destruct (skip_ws r1) as [|c2 r2]; [inv_res; apply decode_error|].
  destruct (negb _); [inv_res; apply decode_error|].
  apply bind_Err in H as [H|([v r3] & _ & H)]; [by eapply Hs|].
  destruct (skip_ws r3) as [|c4 r4]; [inv_res; apply decode_error|].
  destruct (c4 =? 125)%N.
  { apply bind_Err in H as [H|(? & _ & H)]; [|done]. unfold scan_error. eauto. }
  destruct (c4 =? 44)%N; [eauto|inv_res; apply decode_error].
Qed.

Lemma scan_elements_Err scan fuel s acc e :
  scan_errs scan -> scan_elements scan fuel s acc = Err e -> scan_error e.
Proof.
  intros Hs. revert s acc. induction fuel as [|fuel IH]; intros s acc; simpl.
  { intros. inv_res. apply decode_error. }
  rewrite bind_Err. intros [H|([v r1] & _ & H)]; [by eapply Hs|].
  destruct (skip_ws r1) as [|c r2]; [inv_res; apply decode_error|].
  destruct (c =? 93)%N; [done|].
  destruct (c =? 44)%N; [eauto|inv_res; apply decode_error].
Qed.

Lemma scan_once_Err depth : scan_errs (scan_once h depth).
Proof.
  induction depth as [|depth IH]; intros s e; (destruct s as [|c r]; [simpl; intros; inv_res; apply decode_error|]);
    cbn [scan_once]; (destruct (c =? 34)%N;
      [intros [?%scanstring_Err|([? ?] & _ & ?)]%bind_Err; done|]);
    repeat (case_match; [intros; inv_res; try (by right; left)|]); try apply scan_scalar_Err.
  - unfold scan_object in *. destruct (skip_ws r) as [|c1 r1]; [inv_res; apply decode_error|].
    destruct (c1 =? 125)%N; [|by eapply scan_members_Err].
    match goal with H : rbind _ _ = Err _ |- _ => apply bind_Err in H as [H|(? & _ & H)]; [|done] end.
    unfold scan_error. eauto.
  - unfold scan_array in *. destruct (skip_ws r) as [|c1 r1]; [inv_res; apply decode_error|].
    destruct (c1 =? 93)%N; [done|]. by eapply scan_elements_Err.
Qed.

Lemma loads_Err depth s e : loads h depth s = Err e -> scan_error e.
Proof.
  unfold loads. intros [H|(_ & _ & H)]%bind_Err; [inv_res; apply decode_error|].
  apply bind_Err in H as [H|([v r] & _ & H)]; [by eapply scan_once_Err|].
  case_match; inv_res. apply decode_error.
Qed.
End ScanErrors.

(** ** Shared by the codecs *)

(** An [object_pairs_hook] that refuses a duplicate key. *)
Definition unique_pairs (dup : exn) (items : pydict) : res json :=
  d ← fold_res (fun result kv =>
        raise_if (dmem kv.1 result) dup ;; Ok (dset kv.1 kv.2 result)) items [];
  Ok (JObj d).

Lemma unique_pairs_nodup dup d : NoDup (dkeys d) -> unique_pairs dup d = Ok (JObj d).
Proof.
  intros Hd. unfold unique_pairs.
  assert (forall acc, NoDup (dkeys (acc ++ d)) ->
    fold_res (fun result kv => raise_if (dmem kv.1 result) dup ;; Ok (dset kv.1 kv.2 result)) d acc
    = Ok (acc ++ d)) as H; [|by rewrite (H [])].
  clear Hd. induction d as [|[k v] d IH]; intros acc Hd; simpl; [by rewrite app_nil_r|].
  assert (k ∉ dkeys acc) as Hk.
  { unfold dkeys in *. rewrite fmap_app in Hd. apply list.NoDup_app in Hd as (_ & Hd & _).
    intros Hin. apply (Hd _ Hin). left. }
  replace (dmem k acc) with false by (symmetry; apply not_true_iff_false; by rewrite dmem_true).
  simpl. rewrite dkeys_dset_new by done. rewrite IH, <- app_assoc; [done|].
  by rewrite <- app_assoc.
Qed.

Lemma unique_pairs_Err dup d e : unique_pairs dup d = Err e -> e = dup.
Proof.
  unfold unique_pairs. intros [H|(? & _ & ?)]%bind_Err; [|done].
  revert H. generalize (@nil (pystr * json)). induction d as [|kv d IH]; intros acc; simpl; [done|].
  intros [H|(acc' & _ & H)]%bind_Err; [|eauto].
  apply bind_Err in H as [H|(? & _ & ?)]; [by inv_res|done].
Qed.

(** [int(token)]: the default integer hook, with the interpreter's limit of
    4300 digits. *)
Definition int_token (t : pystr) : res json :=
  let '(neg, digits) := match t with c :: r => if (c =? 45)%N then (true, r) else (false, t) | [] => (false, []) end in
  raise_if (4300 <? zlen digits)%Z ValueError ;;
  Ok (JInt (if neg then - Z.of_N (digits_value digits) else Z.of_N (digits_value digits))%Z).

(** The serialised text has no control character. *)
Lemma payload_no_control ascii v bs x :
  Forall text_node (subvalues v) -> utf8_encode (dumps ascii v) = Some bs -> (x < 32)%N -> x ∉ bs.
Proof.
  intros Hn Hu Hx Hin. apply (utf8_encode_ascii _ _ _ Hu) in Hin; [|lia].
  pose proof (dumps_clean ascii v Hn) as Hc.
  rewrite list.Forall_forall in Hc. apply Hc in Hin. unfold clean_char in Hin. bool_hyps.
  match goal with H : (32 <=? x)%N = true |- _ => apply N.leb_le in H; lia end.
Qed.

(** Serialisation never fails to encode. *)
Lemma dumps_encodes ascii v :
  Forall text_node (subvalues v) -> exists bs, utf8_encode (dumps ascii v) = Some bs.
Proof.
  intros Hn. apply utf8_encode_Some. eapply Forall_impl; [|exact (dumps_clean ascii v Hn)].
  intros c [_ ?]%andb_true_iff. done.
Qed.
