(* ===== verification/Protocol.v ===== *)
(** * Worker port protocol v1 ([supervisor/mirrorgate/protocol.py])

    Framing, request and response admission, portable types, manifests and
    typed values.  A dictionary is a [JObj]; the [depth] argument of [_type]
    and [_value] is kept as the number of levels left, so running out of
    levels is the source's [LIMIT] failure.  [rec_limit] is the nesting the
    interpreter's JSON scanner supports. *)

From Stdlib Require Import ZArith Lia.
From stdpp Require Import base list gmap strings numbers.
From S2P Require Import Prelude PyJson JsonText.
#[local] Open Scope res_scope.

Module port.

Definition MAX_FRAME_BYTES : Z := 65535.
Definition MAX_MANIFEST_BYTES : Z := 262144.
Definition MAX_JSON_DEPTH : Z := 96.
Definition MAX_TYPE_DEPTH : nat := 32.
Definition MAX_VALUE_DEPTH : nat := 32.
Definition MAX_NODES : Z := 8192.

Definition fail (code : string) : exn := ProtocolError code.

(** [\[A-Z\]\[A-Z0-9_\]{0,63}\Z] *)
Definition ERROR_CODE (s : pystr) : bool :=
  match s with
  | c :: r => is_upper c && forallb (fun c => is_upper c || is_digit c || (c =? 95)%N) r && (zlen r <=? 63)%Z
  | [] => false
  end.

(** Zero, or an optional minus sign and digits without a leading zero. *)
Definition nonzero_digits (s : pystr) : bool :=
  match s with c :: r => in_range 49 57 c && forallb is_digit r | [] => false end.
Definition INTEGER (s : pystr) : bool :=
  bool_decide (s = "0") || nonzero_digits s ||
  match s with c :: r => (c =? 45)%N && nonzero_digits r | [] => false end.

Definition _string (v : json) (maximum : option Z) (nonempty : bool) : res unit :=
  match v with
  | JStr s =>
    match utf8_len s with
    | None => Err (fail "SCHEMA")
    | Some size =>
      raise_if ((nonempty && (size =? 0)%Z)
                || match maximum with Some m => (m <? size)%Z | None => false end) (fail "SCHEMA")
    end
  | _ => Err (fail "SCHEMA")
  end.

Definition _identifier (v : json) : res unit :=
  raise_if (negb match v with JStr s => match_identifier s | _ => false end) (fail "SCHEMA").

Definition _digest (v : json) : res unit :=
  raise_if (negb match v with JStr s => match_hex 64 s | _ => false end) (fail "SCHEMA").

Definition _object (v : json) (keys : option (list pystr)) (code : string) : res pydict :=
  match v with
  | JObj d =>
    raise_if match keys with Some ks => negb (set_eq (dkeys d) ks) | None => false end (fail code) ;;
    Ok d
  | _ => Err (fail code)
  end.

Definition _array (v : json) (nonempty : bool) : res (list json) :=
  match v with
  | JArr l => raise_if (nonempty && bool_decide (l = [])) (fail "SCHEMA") ;; Ok l
  | _ => Err (fail "SCHEMA")
  end.

Definition _json_bounds (v : json) : res unit :=
  bounds MAX_JSON_DEPTH MAX_NODES (fail "LIMIT") (fail "SCHEMA") (fail "SCHEMA")
    (fun s => _string (JStr s) None false) v.

(** [object_pairs_hook]: a duplicate key is a framing error. *)
Definition _pairs (items : pydict) : res json := unique_pairs (fail "FRAME") items.

Definition _invalid_constant (_ : pystr) : res json := Err (fail "FRAME").

(** ** Exact numbers

    A JSON number token read as Python's [Decimal]: sign, coefficient digits
    and exponent.  [exact_int] is the integer the decimal denotes, when it is
    one of the safe integers; no power of ten beyond the seventeenth is
    computed for a non-zero coefficient in range. *)
Definition parse_exponent (s : pystr) : Z :=
  match s with
  | c :: r =>
    if (c =? 45)%N then - Z.of_N (digits_value r)
    else if (c =? 43)%N then Z.of_N (digits_value r)
    else Z.of_N (digits_value s)
  | [] => 0
  end%Z.

Definition split_token (tok : pystr) : bool * pystr * Z :=
  let '(neg, r) := match tok with
    | c :: r => if (c =? 45)%N then (true, r) else (false, tok)
    | [] => (false, [])
    end in
  let '(ip, r1) := span_digits r in
  let '(fp, r2) := match r1 with
    | c :: r' => if (c =? 46)%N then span_digits r' else ([], r1)
    | [] => ([], [])
    end in
  let e := match r2 with _ :: r' => parse_exponent r' | [] => 0%Z end in
  (neg, ip ++ fp, (e - zlen fp)%Z).

Definition exact_int (coefficient : pystr) (e : Z) : option Z :=
  let c := Z.of_N (digits_value coefficient) in
  if (e <? 0)%Z then
    if (zlen coefficient <? - e)%Z then None
    else if (c mod 10 ^ (- e) =? 0)%Z then
      if (c / 10 ^ (- e) <=? MAX_SAFE_INTEGER)%Z then Some (c / 10 ^ (- e))%Z else None
    else None
  else if (17 <? e)%Z then None
  else if (c * 10 ^ e <=? MAX_SAFE_INTEGER)%Z then Some (c * 10 ^ e)%Z else None.

Definition signed (neg : bool) (z : Z) : Z := if neg then (- z)%Z else z.

Definition _exact_number (token : pystr) : res json :=
  let '(neg, coefficient, e) := split_token token in
  if forallb (fun c => (c =? 48)%N) coefficient then Ok (JInt 0)
  else match exact_int coefficient e with
       | Some z => Ok (JInt (signed neg z))
       | None => Err (fail "SCHEMA")
       end.

Definition hooks : json_hooks := {|
  object_pairs_hook := _pairs;
  parse_int := _exact_number;
  parse_float := _exact_number;
  parse_constant := _invalid_constant |}.

(** A [ProtocolError] of a hook passes through; [UnicodeError],
    [JSONDecodeError] and [RecursionError] become [FRAME]. *)
Definition _parse_json (rec_limit : nat) (data : bytes) : res json :=
  value ← try_except
    (s ← from_option_res (utf8_decode data) UnicodeError; loads hooks rec_limit s)
    (fun e => match e with ProtocolError _ => false | _ => true end)
    (fun _ => Err (fail "FRAME"));
  _json_bounds value ;; Ok value.

(** [bytes.strip()] leaves something: not all ASCII whitespace. *)
Definition py_space (b : N) : bool := bool_decide (b ∈ [9; 10; 11; 12; 13; 32]%N).

(** The [FRAME] conditions on the raw bytes. *)
Definition bad_framing (data : bytes) : bool :=
  negb (bool_decide (list.last data = Some 10%N))
  || bool_decide (10%N ∈ removelast data) || bool_decide (13%N ∈ data).

Definition parse_frame (rec_limit : nat) (data : bytes) : res json :=
  raise_if (MAX_FRAME_BYTES + 1 <? zlen data)%Z (fail "LIMIT") ;;
  raise_if (bad_framing data) (fail "FRAME") ;;
  raise_if (forallb py_space (removelast data)) (fail "FRAME") ;;
  value ← _parse_json rec_limit (removelast data);
  d ← _object value None "SCHEMA"; Ok (JObj d).

Definition encode_frame (message : json) : res bytes :=
  _object message None "SCHEMA" ;;
  _json_bounds message ;;
  payload ← from_option_res (utf8_encode (dumps false message)) UnicodeError;
  raise_if (MAX_FRAME_BYTES <? zlen payload)%Z (fail "LIMIT") ;;
  Ok (payload ++ [10]%N).

(** ** Requests and responses *)
Definition _request_id (v : option json) : res Z :=
  match v with
  | Some (JInt z) => raise_if (negb ((1 <=? z) && (z <=? MAX_SAFE_INTEGER)))%Z (fail "SCHEMA") ;; Ok z
  | _ => Err (fail "SCHEMA")
  end.

Definition _version_is (n : Z) (d : pydict) : bool :=
  match dget "v" d with Some (JInt z) => (z =? n)%Z | _ => false end.

(** The [fields] table of [validate_request]. *)
Definition request_fields (op : pystr) : option (list pystr) :=
  if bool_decide (op = "hello") then Some (strs ["interfaceDigest"; "runtime"])
  else if bool_decide (op = "invoke") then Some (strs ["action"; "inputs"])
  else if bool_decide (op = "cancel") then Some (strs ["requestId"])
  else if bool_decide (op ∈ strs ["create"; "observe"; "dispose"]) then Some []
  else None.

Definition validate_request (message : json) : res json :=
  _json_bounds message ;;
  d ← _object message None "SCHEMA";
  raise_if (negb (_version_is 1 d)) (fail "SCHEMA") ;;
  id ← _request_id (dget "id" d);
  op ← match dget "op" d with Some (JStr op) => Ok op | _ => Err (fail "SCHEMA") end;
  fields ← from_option_res (request_fields op) (fail "SCHEMA");
  _object message (Some (strs ["v"; "id"; "op"] ++ fields)) "SCHEMA" ;;
  (if bool_decide (op = "hello") then
     x ← getitem message "interfaceDigest"; _digest x ;;
     y ← getitem message "runtime"; _identifier y
   else if bool_decide (op = "invoke") then
     a ← getitem message "action"; _identifier a ;;
     i ← getitem message "inputs"; inputs ← _object i None "SCHEMA";
     for_each (fun k => _identifier (JStr k)) (dkeys inputs)
   else if bool_decide (op = "cancel") then
     target ← _request_id (dget "requestId" d);
     raise_if (id <=? target)%Z (fail "SCHEMA")
   else Ok tt) ;;
  Ok message.

Definition validate_response (message : json) : res json :=
  _json_bounds message ;;
  d ← _object message None "SCHEMA";
  raise_if (negb (_version_is 1 d)) (fail "SCHEMA") ;;
  _request_id (dget "id" d) ;;
  match dget "ok" d with
  | Some (JBool true) => _object message (Some (strs ["v"; "id"; "ok"; "result"])) "SCHEMA" ;; Ok message
  | Some (JBool false) =>
    _object message (Some (strs ["v"; "id"; "ok"; "error"])) "SCHEMA" ;;
    e ← getitem message "error";
    error ← _object e (Some (strs ["code"; "message"])) "SCHEMA";
    c ← getitem (JObj error) "code";
    raise_if (negb match c with JStr s => ERROR_CODE s | _ => false end) (fail "SCHEMA") ;;
    m ← getitem (JObj error) "message";
    _string m (Some 1024%Z) false ;;
    Ok message
  | _ => Err (fail "SCHEMA")
  end.

(** ** Portable types *)

(** [_unique]: the values of [field], in order, are pairwise distinct.  Every
    caller has checked that they are strings. *)
Definition _unique (items : list json) (field : pystr) : res unit :=
  vs ← traverse (fun item => getitem item field) items;
  raise_if (has_dup vs) (fail "SCHEMA").

(** [levels] is [MAX_TYPE_DEPTH + 1 - depth]. *)
Fixpoint _type_at (levels : nat) (shape : json) : res unit :=
  match levels with
  | O => Err (fail "LIMIT")
  | S levels =>
    d ← _object shape None "SCHEMA";
    match dget "kind" d with
    | Some (JStr kind) =>
      if bool_decide (kind ∈ strs ["int"; "bool"; "str"; "null"]) then
        _object shape (Some (strs ["kind"])) "SCHEMA" ;; Ok tt
      else if bool_decide (kind ∈ strs ["set"; "seq"]) then
        _object shape (Some (strs ["kind"; "element"])) "SCHEMA" ;;
        e ← getitem shape "element"; _type_at levels e
      else if bool_decide (kind = "tuple") then
        _object shape (Some (strs ["kind"; "elements"])) "SCHEMA" ;;
        es ← getitem shape "elements"; items ← _array es false;
        for_each (_type_at levels) items
      else if bool_decide (kind = "record") then
        _object shape (Some (strs ["kind"; "fields"])) "SCHEMA" ;;
        fs ← getitem shape "fields"; fields ← _array fs false;
        for_each (fun item =>
          _object item (Some (strs ["wireName"; "type"])) "SCHEMA" ;;
          n ← getitem item "wireName"; _string n (Some 128%Z) true ;;
          t ← getitem item "type"; _type_at levels t) fields ;;
        _unique fields "wireName"
      else if bool_decide (kind = "map") then
        _object shape (Some (strs ["kind"; "key"; "value"])) "SCHEMA" ;;
        k ← getitem shape "key";
        raise_if (negb (py_eqb k (JObj [(str "kind", JStr "str")]))) (fail "SCHEMA") ;;
        _type_at levels k ;;
        v ← getitem shape "value"; _type_at levels v
      else if bool_decide (kind = "variant") then
        _object shape (Some (strs ["kind"; "cases"])) "SCHEMA" ;;
        cs ← getitem shape "cases"; cases ← _array cs true;
        for_each (fun item =>
          _object item (Some (strs ["tag"; "payload"])) "SCHEMA" ;;
          n ← getitem item "tag"; _string n (Some 128%Z) true ;;
          t ← getitem item "payload"; _type_at levels t) cases ;;
        _unique cases "tag"
      else Err (fail "SCHEMA")
    | _ => Err (fail "SCHEMA")
    end
  end.

Definition _type (shape : json) : res unit := _type_at (S MAX_TYPE_DEPTH) shape.

Definition validate_type (shape : json) : res json :=
  _json_bounds shape ;; _type shape ;; Ok shape.

(** ** Manifests *)
Definition _typed_id (item : json) : res unit :=
  _object item (Some (strs ["id"; "type"])) "SCHEMA" ;;
  i ← getitem item "id"; _identifier i ;;
  t ← getitem item "type"; _type t.

Definition _manifest_action (action : json) : res unit :=
  _object action (Some (strs ["id"; "inputs"])) "SCHEMA" ;;
  i ← getitem action "id"; _identifier i ;;
  ins ← getitem action "inputs"; inputs ← _array ins false;
  for_each _typed_id inputs ;;
  _unique inputs "id".

Definition validate_manifest (manifest : json) : res json :=
  _json_bounds manifest ;;
  _object manifest (Some (strs ["schema"; "interfaceDigest"; "initializers"; "actions"; "observations"])) "SCHEMA" ;;
  sc ← getitem manifest "schema";
  raise_if (negb (str_is sc "mirrorgate.port/v1")) (fail "SCHEMA") ;;
  dg ← getitem manifest "interfaceDigest"; _digest dg ;;
  ini ← getitem manifest "initializers"; initializers ← _array ini true;
  act ← getitem manifest "actions"; actions ← _array act false;
  obs ← getitem manifest "observations"; observations ← _array obs true;
  for_each _manifest_action (initializers ++ actions) ;;
  _unique (initializers ++ actions) "id" ;;
  for_each _typed_id observations ;;
  _unique observations "id" ;;
  data ← from_option_res (utf8_encode (dumps false manifest)) UnicodeError;
  raise_if (MAX_MANIFEST_BYTES <? zlen data)%Z (fail "LIMIT") ;;
  Ok manifest.

(** [load_manifest] after the bounded read of the file's bytes. *)
Definition load_manifest (rec_limit : nat) (data : bytes) : res json :=
  raise_if (MAX_MANIFEST_BYTES <? zlen data)%Z (fail "LIMIT") ;;
  m ← _parse_json rec_limit data; validate_manifest m.

(** ** Typed values *)

(** The hashable key [_value] returns.  [KSet], [KRec] and [KMap] hold a
    frozenset: their order is not significant. *)
Unset Elimination Schemes.
Inductive vkey : Type :=
  | KInt (n : pystr)
  | KBool (b : bool)
  | KStr (s : pystr)
  | KNull
  | KSet (ks : list vkey)
  | KSeq (ks : list vkey)
  | KTup (ks : list vkey)
  | KRec (fs : list (pystr * vkey))
  | KMap (fs : list (pystr * vkey))
  | KVar (tag : pystr) (k : vkey).
Set Elimination Schemes.

(** Python's [==] on the keys: tuples pointwise, frozensets as sets. *)
Fixpoint vkey_eqb (a b : vkey) : bool :=
  match a, b with
  | KInt n, KInt m => bool_decide (n = m)
  | KBool x, KBool y => Bool.eqb x y
  | KStr s, KStr t => bool_decide (s = t)
  | KNull, KNull => true
  | KSet l, KSet m =>
    forallb (fun x => existsb (vkey_eqb x) m) l
    && forallb (fun y => existsb (fun x => vkey_eqb x y) l) m
  | KSeq l, KSeq m | KTup l, KTup m =>
    (fix go (l m : list vkey) : bool :=
       match l, m with
       | [], [] => true
       | x :: l', y :: m' => vkey_eqb x y && go l' m'
       | _, _ => false
       end) l m
  | KRec l, KRec m | KMap l, KMap m =>
    forallb (fun x => existsb (fun y => bool_decide (x.1 = y.1) && vkey_eqb x.2 y.2) m) l
    && forallb (fun y => existsb (fun x => bool_decide (x.1 = y.1) && vkey_eqb x.2 y.2) l) m
  | KVar t x, KVar u y => bool_decide (t = u) && vkey_eqb x y
  | _, _ => false
  end.

(** [len(frozenset(keys)) != len(keys)] *)
Fixpoint dup_keys (l : list vkey) : bool :=
  match l with
  | [] => false
  | x :: l' => existsb (vkey_eqb x) l' || dup_keys l'
  end.

Definition _list (v : json) : res (list json) :=
  match v with JArr l => Ok l | _ => Err TypeError end.

(** The loop over map entries: [seen] are the keys met so far. *)
Fixpoint map_entries (check : json -> res vkey) (entries : list json) (seen : list pystr)
    : res (list (pystr * vkey)) :=
  match entries with
  | [] => Ok []
  | JArr [JStr k; v] :: rest =>
    raise_if (bool_decide (k ∈ seen)) (fail "VALUE") ;;
    x ← check v;
    r ← map_entries check rest (k :: seen);
    Ok ((k, x) :: r)
  | _ :: _ => Err (fail "VALUE")
  end.

(** The loop over variant cases. *)
Fixpoint find_case (check : json -> json -> res vkey) (tag payload : json) (cases : list json) : res vkey :=
  match cases with
  | [] => Err (fail "VALUE")
  | c :: rest =>
    t ← getitem c "tag";
    if py_eqb tag t then
      p ← getitem c "payload"; k ← check p payload;
      match t with JStr s => Ok (KVar s k) | _ => Err TypeError end
    else find_case check tag payload rest
  end.

(** [levels] is [MAX_VALUE_DEPTH + 1 - depth]; the shape has been validated. *)
Fixpoint _value_at (levels : nat) (shape value : json) : res vkey :=
  match levels with
  | O => Err (fail "LIMIT")
  | S levels =>
    kind ← getitem shape "kind";
    if str_is kind "int" then
      d ← _object value (Some (strs ["#bigint"])) "VALUE";
      n ← getitem (JObj d) "#bigint";
      match n with
      | JStr n => raise_if (negb (INTEGER n)) (fail "VALUE") ;; Ok (KInt n)
      | _ => Err (fail "VALUE")
      end
    else if str_is kind "bool" then
      match value with JBool b => Ok (KBool b) | _ => Err (fail "VALUE") end
    else if str_is kind "str" then
      match value with JStr s => Ok (KStr s) | _ => Err (fail "VALUE") end
    else if str_is kind "null" then
      match value with JNull => Ok KNull | _ => Err (fail "VALUE") end
    else if str_is kind "seq" then
      vs ← match value with JArr l => Ok l | _ => Err (fail "VALUE") end;
      e ← getitem shape "element";
      ks ← traverse (_value_at levels e) vs; Ok (KSeq ks)
    else if str_is kind "set" then
      d ← _object value (Some (strs ["#set"])) "VALUE";
      x ← getitem (JObj d) "#set";
      vs ← match x with JArr l => Ok l | _ => Err (fail "VALUE") end;
      e ← getitem shape "element";
      ks ← traverse (_value_at levels e) vs;
      raise_if (dup_keys ks) (fail "VALUE") ;; Ok (KSet ks)
    else if str_is kind "tuple" then
      d ← _object value (Some (strs ["#tup"])) "VALUE";
      x ← getitem (JObj d) "#tup";
      vs ← match x with JArr l => Ok l | _ => Err (fail "VALUE") end;
      e ← getitem shape "elements"; es ← _list e;
      raise_if (negb (Nat.eqb (length vs) (length es))) (fail "VALUE") ;;
      ks ← traverse (fun tv => _value_at levels tv.1 tv.2) (zip es vs); Ok (KTup ks)
    else if str_is kind "record" then
      fs ← getitem shape "fields"; fields ← _list fs;
      names ← traverse (fun item => n ← getitem item "wireName";
                          match n with JStr s => Ok s | _ => Err TypeError end) fields;
      d ← _object value (Some names) "VALUE";
      ks ← traverse (fun item =>
             n ← getitem item "wireName"; t ← getitem item "type";
             match n with
             | JStr s => x ← getitem (JObj d) s; k ← _value_at levels t x; Ok (s, k)
             | _ => Err TypeError
             end) fields;
      Ok (KRec ks)
    else if str_is kind "map" then
      d ← _object value (Some (strs ["#map"])) "VALUE";
      x ← getitem (JObj d) "#map";
      entries ← match x with JArr l => Ok l | _ => Err (fail "VALUE") end;
      t ← getitem shape "value";
      ks ← map_entries (_value_at levels t) entries []; Ok (KMap ks)
    else if str_is kind "variant" then
      d ← _object value (Some (strs ["tag"; "value"])) "VALUE";
      tag ← getitem (JObj d) "tag"; payload ← getitem (JObj d) "value";
      cs ← getitem shape "cases"; cases ← _list cs;
      find_case (_value_at levels) tag payload cases
    else Err (fail "SCHEMA")
  end.

Definition _value (shape value : json) : res vkey := _value_at (S MAX_VALUE_DEPTH) shape value.

Definition validate_value (shape value : json) : res json :=
  validate_type shape ;; _json_bounds value ;; _value shape value ;; Ok value.

(** ** Operations and observations of a validated manifest *)
Fixpoint find_operation (items : list json) (action : pystr) : res json :=
  match items with
  | [] => Err (fail "VALUE")
  | item :: rest =>
    i ← getitem item "id";
    if str_is i action then Ok item else find_operation rest action
  end.

Definition operation (manifest : json) (action : pystr) : res json :=
  a ← getitem manifest "initializers"; initializers ← _list a;
  b ← getitem manifest "actions"; actions ← _list b;
  find_operation (initializers ++ actions) action.

(** The loop [for item in items: _value(item\["type"\], values\[item\["id"\]\])]
    after the closed-field check. *)
Definition check_fields (items : list json) (values : json) : res json :=
  ids ← traverse (fun item => i ← getitem item "id";
                    match i with JStr s => Ok s | _ => Err TypeError end) items;
  _object values (Some ids) "VALUE" ;;
  for_each (fun item =>
    t ← getitem item "type"; i ← getitem item "id";
    match i with
    | JStr s => x ← getitem values s; _value t x ;; Ok tt
    | _ => Err TypeError
    end) items ;;
  Ok values.

Definition validate_inputs (manifest : json) (action : pystr) (inputs : json) : res json :=
  selected ← operation manifest action;
  _json_bounds inputs ;;
  ins ← getitem selected "inputs"; items ← _list ins;
  check_fields items inputs.

Definition validate_observations (manifest : json) (values : json) : res json :=
  _json_bounds values ;;
  obs ← getitem manifest "observations"; items ← _list obs;
  check_fields items values.

(** ** Correlated results *)
Definition validate_result (request response manifest : json) : res json :=
  validate_request request ;;
  validate_response response ;;
  i ← getitem response "id"; j ← getitem request "id";
  raise_if (negb (py_eqb i j)) (fail "SCHEMA") ;;
  ok ← getitem response "ok";
  if bool_decide (ok = JBool false) then getitem response "error"
  else
    result ← getitem response "result";
    op ← getitem request "op";
    (if str_is op "hello" then
       r ← _object result (Some (strs ["interfaceDigest"; "runtime"])) "SCHEMA";
       a ← getitem result "interfaceDigest"; b ← getitem request "interfaceDigest";
       c ← getitem result "runtime"; e ← getitem request "runtime";
       raise_if (negb (py_eqb a b) || negb (py_eqb c e)) (fail "HANDSHAKE")
     else if str_is op "observe" then
       validate_observations manifest result ;; Ok tt
     else raise_if (negb (is_none result)) (fail "SCHEMA")) ;;
    Ok result.


(** ** Properties: scalar checks and the budget *)

Lemma _string_scalar s : _string (JStr s) None false = Ok tt <-> Forall (fun c => is_scalar c = true) s.
Proof.
  rewrite <- utf8_encode_Some. unfold _string, utf8_len. simpl.
  destruct (utf8_encode s); simpl; naive_solver.
Qed.

Lemma _string_Err v m n e : _string v m n = Err e -> e = fail "SCHEMA".
Proof. unfold _string. repeat case_match; intros; inv_res; done. Qed.

(** [_json_bounds] as a predicate on the value. *)
Definition bounded (v : json) : Prop :=
  (json_depth v <= MAX_JSON_DEPTH)%Z /\ (zlen (subvalues v) <= MAX_NODES)%Z /\
  Forall (fun n => match n with
    | JObj d => Forall (Forall (fun c => is_scalar c = true)) (dkeys d)
    | JStr s => Forall (fun c => is_scalar c = true) s
    | JInt z => (Z.abs z <= MAX_SAFE_INTEGER)%Z
    | JFloat _ => False
    | _ => True
    end) (subvalues v).

Lemma json_bounds_bounded v : _json_bounds v = Ok tt <-> bounded v.
Proof.
  unfold _json_bounds. rewrite bounds_Ok by done. unfold within_bounds, bounded.
  do 2 f_equiv. apply Forall_iff. intros n. unfold node_ok. destruct n as [| | | |s| |d]; try done.
  - apply _string_scalar.
  - apply Forall_iff. intros k. apply _string_scalar.
Qed.

Lemma json_bounds_Err v e : _json_bounds v = Err e -> e = fail "LIMIT" \/ e = fail "SCHEMA".
Proof.
  unfold _json_bounds, bounds. intros H. apply bounds_loop_Err in H.
  - destruct H as [|[|[|(s & H)]]]; eauto. right. by apply _string_Err in H.
  - unfold stack_subs. simpl. by rewrite app_nil_r.
Qed.

(** ** Properties: exact numbers *)

Lemma span_digits_all d : Forall (fun c => is_digit c = true) d -> span_digits d = (d, []).
Proof. intros. rewrite <- (app_nil_r d) at 1. by apply span_digits_app. Qed.

Lemma canonical_all_digits l : canonical_digits l -> Forall (fun c => is_digit c = true) l.
Proof.
  intros [->|(c & r & -> & ? & ?)]; [by repeat constructor|]. constructor; [|done].
  apply is_digit_spec. lia.
Qed.

Lemma split_token_repr z :
  split_token (int_repr z) = ((z <? 0)%Z, dec_digits (Z.to_N (Z.abs z)), 0%Z).
Proof.
  unfold split_token, int_repr. destruct (Z.ltb_spec z 0).
  - simpl. rewrite span_digits_all by apply canonical_all_digits, dec_digits_canonical. simpl.
    rewrite app_nil_r. by replace (- z)%Z with (Z.abs z) by lia.
  - replace (Z.abs z) with z by lia. pose proof (dec_digits_canonical (Z.to_N z)) as Hc.
    pose proof (span_digits_all _ (canonical_all_digits _ Hc)) as Hs.
    destruct (dec_digits (Z.to_N z)) as [|c r] eqn:E.
    { destruct Hc as [|(? & ? & ? & _)]; done. }
    assert (c <> 45%N) by (destruct Hc as [[= -> _]|(? & ? & [= -> ->] & ? & _)]; lia).
    rewrite (proj2 (N.eqb_neq c 45)) by done. rewrite Hs. simpl. by rewrite app_nil_r.
Qed.

Lemma digits_value_zeros l : forallb (fun c => (c =? 48)%N) l = true -> digits_value l = 0%N.
Proof.
  unfold digits_value. intros H. assert (forall a, a = 0%N -> fold_left (fun a c => (a * 10 + (c - 48))%N) l a = 0%N) as Hg.
  { induction l as [|c l IH]; simpl in *; [done|]. apply andb_true_iff in H as [->%N.eqb_eq H].
    intros a ->. apply IH; done. }
  by apply Hg.
Qed.

Lemma exact_int_Some c e z :
  exact_int c e = Some z ->
  (0 <= z <= MAX_SAFE_INTEGER)%Z /\
  if (e <? 0)%Z then (z * 10 ^ (- e) = Z.of_N (digits_value c))%Z else (z = Z.of_N (digits_value c) * 10 ^ e)%Z.
Proof.
  unfold exact_int. set (v := Z.of_N (digits_value c)). assert (0 <= v)%Z by lia.
  destruct (Z.ltb_spec e 0).
  - destruct (zlen c <? - e)%Z; [done|].
    assert (0 < 10 ^ (- e))%Z by (apply Z.pow_pos_nonneg; lia).
    destruct (Z.eqb_spec (v mod 10 ^ (- e)) 0) as [Hm|]; [|done].
    destruct (Z.leb_spec (v / 10 ^ (- e)) MAX_SAFE_INTEGER); [|done]. intros [= <-].
    split; [split; [by apply Z.div_pos|done]|].
    pose proof (Z.div_mod v (10 ^ (- e)) ltac:(lia)). lia.
  - destruct (17 <? e)%Z; [done|].
    destruct (Z.leb_spec (v * 10 ^ e) MAX_SAFE_INTEGER); [|done]. intros [= <-].
    split; [|done]. split; [|done]. apply Z.mul_nonneg_nonneg; [done|]. by apply Z.pow_nonneg.
Qed.

Lemma exact_number_repr z :
  (Z.abs z <= MAX_SAFE_INTEGER)%Z -> _exact_number (int_repr z) = Ok (JInt z).
Proof.
  intros Hz. unfold _exact_number. rewrite split_token_repr.
  destruct (forallb _ _) eqn:E.
  - apply digits_value_zeros in E. rewrite dec_digits_value in E.
    assert (z = 0)%Z as -> by lia. done.
  - unfold exact_int. cbn [Z.ltb Z.compare]. rewrite dec_digits_value, Z2N.id by lia.
    change (10 ^ 0)%Z with 1%Z. rewrite Z.mul_1_r, (proj2 (Z.leb_le _ _)) by done.
    unfold signed. do 2 f_equal. destruct (Z.ltb_spec z 0); lia.
Qed.

(** ** Properties: the parser *)

Lemma bounded_node_rt v : bounded v -> wf_json v -> Forall (node_rt hooks) (subvalues v).
Proof.
  intros (_ & _ & Hb) Hw. unfold wf_json in Hw. rewrite list.Forall_forall in *.
  intros n Hn. specialize (Hb n Hn). specialize (Hw n Hn).
  destruct n; simpl in *; try done. by apply exact_number_repr.
Qed.

Lemma bounded_text v : bounded v -> Forall text_node (subvalues v).
Proof. intros (_ & _ & Hb). eapply Forall_impl; [|exact Hb]. intros n Hn. by destruct n. Qed.

Lemma parse_json_dumps rec_limit v data :
  bounded v -> wf_json v -> (MAX_JSON_DEPTH < Z.of_nat rec_limit)%Z ->
  utf8_encode (dumps false v) = Some data -> _parse_json rec_limit data = Ok v.
Proof.
  intros Hb Hw Hr Hu. unfold _parse_json. rewrite (utf8_roundtrip _ _ Hu). simpl.
  rewrite loads_dumps.
  - simpl. by rewrite (proj2 (json_bounds_bounded v) Hb).
  - apply unique_pairs_nodup.
  - destruct Hb as [? _]. lia.
  - by apply bounded_node_rt.
Qed.

Lemma frame_payload_clean v bs :
  bounded v -> wf_json v -> utf8_encode (dumps false v) = Some bs ->
  bad_framing (bs ++ [10]%N) = false.
Proof.
  intros Hb Hw Hu. unfold bad_framing. rewrite list.last_snoc, removelast_last.
  assert (forall x, (x < 32)%N -> x ∉ bs) as Hno.
  { intros x. apply (payload_no_control false v); [by apply bounded_text|done]. }
  rewrite bool_decide_eq_true_2 by done. rewrite !bool_decide_eq_false_2; [done| |].
  - rewrite elem_of_app, list_elem_of_singleton. intros [H|H]; [by apply (Hno 13%N)|done].
  - by apply Hno.
Qed.

Lemma frame_payload_nonblank d bs :
  utf8_encode (dumps false (JObj d)) = Some bs -> forallb py_space bs = false.
Proof.
  cbn [dumps utf8_encode]. change (utf8_encode1 123) with (Some [123]%N). simpl.
  destruct (utf8_encode _); [|done]. by intros [= <-].
Qed.

(** The claims below name the properties of the manifest by their id. *)

(** C5: [encode_frame] and [parse_frame] are inverse: every object the encoder
    accepts is read back unchanged from the bytes it wrote, when the
    interpreter's scanner supports the 96 levels the protocol allows. *)
Theorem frame_roundtrip (rec_limit : nat) (message : json) (data : bytes) :
  wf_json message -> (MAX_JSON_DEPTH < Z.of_nat rec_limit)%Z ->
  encode_frame message = Ok data -> parse_frame rec_limit data = Ok message.
Proof.
  intros Hw Hr He. unfold encode_frame in He. inv_res.
  destruct message as [| | | | | |d]; try discriminate. inv_res.
  match goal with H : _json_bounds _ = _ |- _ => apply json_bounds_bounded in H; rename H into Hb end.
  match goal with H : from_option_res _ _ = Ok ?p |- _ => rename p into payload; rename H into Hp end.
  destruct (utf8_encode _) as [bs|] eqn:Hu; [|done]. simpl in Hp. injection Hp as ->. bool_hyps.
  unfold parse_frame. rewrite (frame_payload_clean _ _ Hb Hw Hu), removelast_last.
  rewrite (proj2 (Z.ltb_ge _ _)) by (unfold zlen in *; rewrite length_app; simpl; lia). simpl.
  rewrite (frame_payload_nonblank _ _ Hu). simpl.
  by rewrite (parse_json_dumps _ _ _ Hb Hw Hr Hu).
Qed.

(** ** Requests and responses as typed data *)

Inductive request : Type :=
  | Hello (digest runtime : pystr)
  | Create
  | Invoke (action : pystr) (inputs : pydict)
  | Observe
  | Dispose
  | Cancel (target : Z).

Definition op_name (r : request) : pystr :=
  match r with
  | Hello _ _ => "hello" | Create => "create" | Invoke _ _ => "invoke"
  | Observe => "observe" | Dispose => "dispose" | Cancel _ => "cancel"
  end.

Definition op_fields (r : request) : list pystr :=
  match r with
  | Hello _ _ => strs ["interfaceDigest"; "runtime"]
  | Invoke _ _ => strs ["action"; "inputs"]
  | Cancel _ => strs ["requestId"]
  | _ => []
  end.

(** The fields of [d] are exactly [ks]. *)
Definition closed (d : pydict) (ks : list pystr) : Prop := forall k, k ∈ dkeys d <-> k ∈ ks.

(** The dictionary [d] is the request [r] with identifier [id]. *)
Definition denotes_request (d : pydict) (id : Z) (r : request) : Prop :=
  closed d (strs ["v"; "id"; "op"] ++ op_fields r) /\
  dget "v" d = Some (JInt 1) /\
  dget "id" d = Some (JInt id) /\ (1 <= id <= MAX_SAFE_INTEGER)%Z /\
  dget "op" d = Some (JStr (op_name r)) /\
  match r with
  | Hello dg rt =>
    dget "interfaceDigest" d = Some (JStr dg) /\ match_hex 64 dg = true /\
    dget "runtime" d = Some (JStr rt) /\ match_identifier rt = true
  | Invoke a ins =>
    dget "action" d = Some (JStr a) /\ match_identifier a = true /\
    dget "inputs" d = Some (JObj ins) /\ Forall (fun k => match_identifier k = true) (dkeys ins)
  | Cancel t => dget "requestId" d = Some (JInt t) /\ (1 <= t < id)%Z
  | _ => True
  end.

Lemma _object_Ok v ks code d :
  _object v (Some ks) code = Ok d <-> v = JObj d /\ closed d ks.
Proof.
  unfold _object, closed. destruct v as [| | | | | |d']; try (split; [done|intros [? _]; done]).
  rewrite bind_Ok. setoid_rewrite raise_if_Ok. setoid_rewrite negb_false_iff. setoid_rewrite set_eq_spec.
  split; [intros (_ & ? & [= ->]); done|intros [[= ->] ?]; by exists tt].
Qed.

Lemma _object_any v code d : _object v None code = Ok d <-> v = JObj d.
Proof. destruct v; simpl; split; congruence. Qed.

Lemma _identifier_Ok v : _identifier v = Ok tt <-> exists s, v = JStr s /\ match_identifier s = true.
Proof. unfold _identifier. rewrite raise_if_Ok, negb_false_iff. destruct v; naive_solver. Qed.

Lemma _digest_Ok v : _digest v = Ok tt <-> exists s, v = JStr s /\ match_hex 64 s = true.
Proof. unfold _digest. rewrite raise_if_Ok, negb_false_iff. destruct v; naive_solver. Qed.

Lemma _request_id_Ok v id :
  _request_id v = Ok id <-> v = Some (JInt id) /\ (1 <= id <= MAX_SAFE_INTEGER)%Z.
Proof.
  unfold _request_id. destruct v as [[| |z| | | |]|]; try (split; [done|naive_solver]).
  rewrite bind_Ok. setoid_rewrite raise_if_Ok. setoid_rewrite negb_false_iff.
  setoid_rewrite andb_true_iff. setoid_rewrite Z.leb_le.
  split; [intros (_ & ? & [= ->]); done|intros [[= ->] ?]; by exists tt].
Qed.

Lemma _version_is_true n d : _version_is n d = true <-> dget "v" d = Some (JInt n).
Proof.
  unfold _version_is. destruct (dget "v" d) as [[| |z| | | |]|]; try (split; congruence).
  rewrite Z.eqb_eq. split; congruence.
Qed.

Lemma getitem_Ok v k x : getitem v k = Ok x <-> exists d, v = JObj d /\ dget k d = Some x.
Proof.
  unfold getitem, from_option_res. destruct v as [| | | | | |d]; try (split; [done|naive_solver]).
  destruct (dget k d) eqn:E; naive_solver.
Qed.

Lemma request_fields_op r : request_fields (op_name r) = Some (op_fields r).
Proof. by destruct r. Qed.

(** Opens the equations a successful validation leaves behind. *)
Ltac open_checks :=
  repeat match goal with
  | H : _object _ (Some _) _ = Ok _ |- _ => apply _object_Ok in H as [? ?]; simplify_eq
  | H : _object _ None _ = Ok _ |- _ => apply _object_any in H; simplify_eq
  | H : _identifier _ = Ok _ |- _ => apply _identifier_Ok in H as (? & ? & ?); simplify_eq
  | H : _digest _ = Ok _ |- _ => apply _digest_Ok in H as (? & ? & ?); simplify_eq
  | H : _request_id _ = Ok _ |- _ => apply _request_id_Ok in H as [? ?]; simplify_eq
  | H : getitem (JObj _) _ = Ok _ |- _ => apply getitem_Ok in H as (? & ? & ?); simplify_eq
  | H : negb (_version_is _ _) = false |- _ => apply negb_false_iff, _version_is_true in H
  end.

Lemma validate_request_sound m m' :
  validate_request m = Ok m' ->
  m' = m /\ bounded m /\ exists d id r, m = JObj d /\ denotes_request d id r.
Proof.
  unfold validate_request. intros H. inv_res. open_checks.
  match goal with H : _json_bounds _ = _ |- _ => apply json_bounds_bounded in H end.
  split_and!; [done|done|].
  match goal with H : match dget ?k ?d with _ => _ end = Ok ?o |- _ =>
    destruct (dget k d) as [[| | | |op| |]|] eqn:Hop; try discriminate H; injection H as <- end.
  match goal with H : from_option_res (request_fields op) _ = Ok _ |- _ =>
    destruct (request_fields op) as [fs|] eqn:Hf; [|discriminate H]; injection H as <- end.
  unfold request_fields in Hf.
  match goal with H : _json_bounds _ = _ |- _ => clear H | _ => idtac end.
  repeat (case_bool_decide; simplify_eq); inv_res; open_checks.
  - eexists _, _, (Hello _ _). split; [done|]. unfold denotes_request. split_and!; try done; lia.
  - eexists _, _, (Invoke _ _). split; [done|].
    match goal with H : for_each _ _ = _ |- _ => apply for_each_Ok in H; rename H into Hall end.
    unfold denotes_request. split_and!; try done; try lia.
    eapply Forall_impl; [|exact Hall]. simpl. intros k Hk. apply _identifier_Ok in Hk as (s & [= ->] & ?). done.
  - bool_hyps. eexists _, _, (Cancel _). split; [done|]. unfold denotes_request. split_and!; try done; lia.
  - match goal with H : op ∈ _ |- _ => elem_literal H; destruct H as [->|[->|[->|[]]]] end.
    + eexists _, _, Create. split; [done|]. unfold denotes_request. split_and!; try done; lia.
    + eexists _, _, Observe. split; [done|]. unfold denotes_request. split_and!; try done; lia.
    + eexists _, _, Dispose. split; [done|]. unfold denotes_request. split_and!; try done; lia.
Qed.

Lemma closed_object v ks code d : v = JObj d -> closed d ks -> _object v (Some ks) code = Ok d.
Proof. intros. by apply _object_Ok. Qed.

Lemma validate_request_complete d id r :
  bounded (JObj d) -> denotes_request d id r -> validate_request (JObj d) = Ok (JObj d).
Proof.
  intros Hb (Hc & Hv & Hid & Hr & Hop & Hx). unfold validate_request.
  rewrite (proj2 (json_bounds_bounded _) Hb). cbn [rbind].
  rewrite (proj2 (_object_any _ _ d) eq_refl). cbn [rbind].
  rewrite (proj2 (_version_is_true _ _) Hv). cbn [rbind negb raise_if].
  rewrite (proj2 (_request_id_Ok _ id)) by done. cbn [rbind]. rewrite Hop. cbn [rbind].
  rewrite request_fields_op. cbn [rbind from_option_res].
  rewrite (closed_object _ _ _ d) by done. cbn [rbind].
  destruct r as [dg rt| |a ins| | |t]; cbn [op_name]; eval_decides; try done.
  - destruct Hx as (H1 & H2 & H3 & H4). rewrite (getitem_dget _ _ _ H1), (getitem_dget _ _ _ H3). cbn [rbind].
    unfold _digest, _identifier. by rewrite H2, H4.
  - destruct Hx as (H1 & H2 & H3 & H4). rewrite (getitem_dget _ _ _ H1), (getitem_dget _ _ _ H3). cbn [rbind].
    rewrite (proj2 (_identifier_Ok _)) by eauto. cbn [rbind].
    rewrite (proj2 (_object_any _ _ ins) eq_refl). cbn [rbind].
    rewrite (proj2 (for_each_Ok _ _ tt)); [done|]. eapply Forall_impl; [|exact H4].
    simpl. intros k Hk. unfold _identifier. by rewrite Hk.
  - destruct Hx as [H1 H2]. rewrite (proj2 (_request_id_Ok _ t)) by (split; [done|lia]). cbn [rbind].
    rewrite (proj2 (Z.leb_gt _ _)) by lia. done.
Qed.

(** C27: [validate_request] admits exactly the bounded dictionaries that denote
    one of the six requests of the contract: closed fields, version 1, a
    positive safe identifier, well-formed payload, and for [cancel] a target
    that precedes the request. *)
Theorem validate_request_spec (m m' : json) :
  validate_request m = Ok m' <->
  m' = m /\ bounded m /\ exists d id r, m = JObj d /\ denotes_request d id r.
Proof.
  split; [apply validate_request_sound|].
  intros (-> & Hb & d & id & r & -> & Hd). by eapply validate_request_complete.
Qed.

Inductive response : Type :=
  | Success (result : json)
  | Failure (code message : pystr).

Definition denotes_response (d : pydict) (id : Z) (r : response) : Prop :=
  dget "v" d = Some (JInt 1) /\ dget "id" d = Some (JInt id) /\ (1 <= id <= MAX_SAFE_INTEGER)%Z /\
  match r with
  | Success result =>
    closed d (strs ["v"; "id"; "ok"; "result"]) /\ dget "ok" d = Some (JBool true) /\
    dget "result" d = Some result
  | Failure code message =>
    closed d (strs ["v"; "id"; "ok"; "error"]) /\ dget "ok" d = Some (JBool false) /\
    exists e, dget "error" d = Some (JObj e) /\ closed e (strs ["code"; "message"]) /\
      dget "code" e = Some (JStr code) /\ ERROR_CODE code = true /\
      dget "message" e = Some (JStr message) /\
      exists size, utf8_len message = Some size /\ (size <= 1024)%Z
  end.

Lemma closed_dget d ks k : closed d ks -> k ∈ ks -> exists x, dget k d = Some x.
Proof. intros Hc Hk. apply dget_elem. by apply Hc. Qed.

Lemma _string_max v m : _string v (Some m) false = Ok tt <->
  exists s size, v = JStr s /\ utf8_len s = Some size /\ (size <= m)%Z.
Proof.
  unfold _string. destruct v as [| | | |s| |]; try (split; [done|naive_solver]).
  destruct (utf8_len s) as [size|] eqn:E; simpl.
  - rewrite raise_if_Ok, Z.ltb_ge. naive_solver.
  - naive_solver.
Qed.

Lemma validate_response_sound m m' :
  validate_response m = Ok m' ->
  m' = m /\ bounded m /\ exists d id r, m = JObj d /\ denotes_response d id r.
Proof.
  unfold validate_response. intros H. inv_res. open_checks.
  match goal with H : _json_bounds _ = _ |- _ => apply json_bounds_bounded in H end.
  match goal with H : match dget _ ?o with _ => _ end = _ |- _ =>
    destruct (dget "ok" o) as [[|[]| | | | |]|] eqn:Hok; try discriminate H end;
    inv_res; open_checks; (split_and!; [done|done|]).
  - match goal with H : closed ?d _ |- _ =>
      destruct (closed_dget _ _ "result" H) as [result ?]; [set_solver|] end.
    eexists _, _, (Success result). split; [done|]. by unfold denotes_response.
  - match goal with H : negb match ?c with _ => _ end = false |- _ =>
      destruct c as [| | | |code| |]; try discriminate H; apply negb_false_iff in H end.
    match goal with H : _string _ _ _ = _ |- _ => apply _string_max in H as (msg & size & -> & ? & ?) end.
    eexists _, _, (Failure code msg). split; [done|]. unfold denotes_response. naive_solver.
Qed.

Lemma validate_response_complete d id r :
  bounded (JObj d) -> denotes_response d id r -> validate_response (JObj d) = Ok (JObj d).
Proof.
  intros Hb (Hv & Hid & Hr & Hx). unfold validate_response.
  rewrite (proj2 (json_bounds_bounded _) Hb). cbn [rbind].
  rewrite (proj2 (_object_any _ _ d) eq_refl). cbn [rbind].
  rewrite (proj2 (_version_is_true _ _) Hv). cbn [rbind negb raise_if].
  rewrite (proj2 (_request_id_Ok _ id)) by done. cbn [rbind].
  destruct r as [result|code message].
  - destruct Hx as (Hc & -> & _). by rewrite (closed_object _ _ _ d).
  - destruct Hx as (Hc & -> & e & He & Hce & Hcode & Hec & Hmsg & size & Hs & Hle).
    rewrite (closed_object _ _ _ d) by done. cbn [rbind].
    rewrite (getitem_dget _ _ _ He). cbn [rbind]. rewrite (closed_object _ _ _ e) by done. cbn [rbind].
    rewrite (getitem_dget _ _ _ Hcode), (getitem_dget _ _ _ Hmsg). cbn [rbind].
    rewrite Hec. cbn [rbind raise_if negb].
    rewrite (proj2 (_string_max _ _)) by eauto. done.
Qed.

(** A response [validate_response] admits is the dictionary of a success or
    of a failure with a public error code and a bounded message, with closed
    fields and a positive safe identifier; nothing else passes. *)
Theorem validate_response_spec (m m' : json) :
  validate_response m = Ok m' <->
  m' = m /\ bounded m /\ exists d id r, m = JObj d /\ denotes_response d id r.
Proof.
  split; [apply validate_response_sound|].
  intros (-> & Hb & d & id & r & -> & Hd). by eapply validate_response_complete.
Qed.

(** ** Errors of the frame parser *)

Lemma exact_number_Err t e : _exact_number t = Err e -> e = fail "SCHEMA".
Proof. unfold _exact_number. repeat case_match; congruence. Qed.

Definition public_code (e : exn) : Prop :=
  e = fail "LIMIT" \/ e = fail "FRAME" \/ e = fail "SCHEMA".

Lemma parse_json_Err rec_limit data e : _parse_json rec_limit data = Err e -> public_code e.
Proof.
  unfold _parse_json, public_code. intros [H|(v & _ & H)]%bind_Err.
  - unfold try_except in H.
    destruct (rbind _ _) as [|e'] eqn:Hl; [done|]. destruct e' as [code| | | | | | | | | | | | | |]; inv_res; eauto.
    apply bind_Err in Hl as [Hl|(s & _ & Hl)]; [by destruct (utf8_decode data)|].
    apply loads_Err in Hl. unfold scan_error, hooks in Hl. simpl in Hl.
    destruct Hl as [|[|[(d & Hl)|[(t & Hl)|[(t & Hl)|(t & Hl)]]]]]; try done.
    + apply unique_pairs_Err in Hl. naive_solver.
    + apply exact_number_Err in Hl. naive_solver.
    + apply exact_number_Err in Hl. naive_solver.
    + unfold _invalid_constant in Hl. inv_res. eauto.
  - apply bind_Err in H as [H|(? & _ & ?)]; [|done]. apply json_bounds_Err in H. naive_solver.
Qed.

Definition protocol_error (e : exn) : Prop := exists code, e = ProtocolError code.

Lemma raises_object v ks code : raises protocol_error (_object v ks code).
Proof.
  unfold _object. destruct v; try (by eexists). apply raises_bind; [apply raises_if; by eexists|done].
Qed.

Lemma raises_array v ne : raises protocol_error (_array v ne).
Proof. unfold _array. destruct v; try (by eexists). apply raises_bind; [apply raises_if; by eexists|done]. Qed.

Lemma raises_string v m n : raises protocol_error (_string v m n).
Proof. destruct (_string v m n) eqn:E; [done|]. apply _string_Err in E as ->. by eexists. Qed.

Lemma raises_bounds v : raises protocol_error (_json_bounds v).
Proof. destruct (_json_bounds v) eqn:E; [done|]. apply json_bounds_Err in E as [->| ->]; by eexists. Qed.

(** The members of a checked list have the field. *)
Definition has_field (field : pystr) (item : json) : Prop := exists d, item = JObj d /\ field ∈ dkeys d.

Lemma raises_unique items field : Forall (has_field field) items -> raises protocol_error (_unique items field).
Proof.
  intros Hf. unfold _unique. apply raises_bind; [|intros; apply raises_if; by eexists].
  apply raises_traverse. intros item Hin. rewrite list.Forall_forall in Hf.
  destruct (Hf item Hin) as (d & -> & [x Hx]%dget_elem). by rewrite (getitem_dget _ _ _ Hx).
Qed.

(** One step of a walk over a validator, for [raises protocol_error]. *)
Ltac raises_step :=
  match goal with
  | |- raises _ (Ok _) => exact I
  | |- raises _ (raise_if _ _) => apply raises_if; eexists; reflexivity
  | |- raises _ (Err (fail _)) => eexists; reflexivity
  | |- raises _ (_object _ _ _) => apply raises_object
  | |- raises _ (_array _ _) => apply raises_array
  | |- raises _ (_string _ _ _) => apply raises_string
  | |- raises _ (_json_bounds _) => apply raises_bounds
  | |- raises _ (_identifier _) => apply raises_if; eexists; reflexivity
  | |- raises _ (_digest _) => apply raises_if; eexists; reflexivity
  | H : closed ?d ?ks |- raises _ (rbind (getitem (JObj ?d) ?k) _) =>
    let x := fresh "x" in let Hx := fresh "Hx" in
    destruct (closed_dget d ks k H) as [x Hx]; [by_decision|];
    rewrite (getitem_dget _ _ _ Hx); cbn [rbind]
  | |- raises _ (rbind (_object _ (Some _) _) _) =>
    apply raises_bind; [apply raises_object|let H := fresh in intros ? H; apply _object_Ok in H; destruct H as [-> ?]]
  | |- raises _ (rbind (_object _ None _) _) =>
    apply raises_bind; [apply raises_object|let H := fresh in intros ? H; apply _object_any in H; subst]
  | |- raises _ (rbind _ _) => apply raises_bind; [|intros ? ?]
  | |- raises _ (for_each _ _) => apply raises_for_each; intros ? _
  | |- raises _ (if bool_decide _ then _ else _) => case_bool_decide
  | |- raises _ (match ?x with _ => _ end) => destruct x
  end.

(** After the loop over the items, every item has the labelled field. *)
Lemma for_each_has_field field ks (rest : json -> res unit) items u :
  field ∈ ks -> for_each (fun item => _object item (Some ks) "SCHEMA" ;; rest item) items = Ok u ->
  Forall (has_field field) items.
Proof.
  intros Hk H. apply for_each_Ok in H. eapply Forall_impl; [|exact H]. simpl.
  intros item (d & Hd & _)%bind_Ok. apply _object_Ok in Hd as [-> Hc]. exists d. split; [done|]. by apply Hc.
Qed.

Lemma raises_type n s : raises protocol_error (_type_at n s).
Proof.
  revert s. induction n as [|n IH]; intros s; cbn [_type_at]; [by eexists|].
  repeat first [apply IH | raises_step].
  - match goal with H : for_each _ _ = _ |- _ => apply (for_each_has_field "wireName") in H; [|set_solver] end.
    by apply raises_unique.
  - match goal with H : for_each _ _ = _ |- _ => apply (for_each_has_field "tag") in H; [|set_solver] end.
    by apply raises_unique.
Qed.

Lemma raises_manifest m : raises protocol_error (validate_manifest m).
Proof.
  unfold validate_manifest, _manifest_action, _typed_id, _type.
  apply raises_bind; [apply raises_bounds|]. intros [] Hb%json_bounds_bounded.
  repeat match goal with |- raises _ (_type_at _ _) => apply raises_type | _ => raises_step end.
  4: destruct (dumps_encodes false (JObj a) (bounded_text _ Hb)) as [bs ->]; exact I.
  all: apply raises_unique.
  all: match goal with
    | H : for_each _ ?l = Ok _ |- Forall _ ?l => apply (for_each_has_field "id") in H; [exact H|by_decision]
    end.
Qed.

(** ** JSON numerals

    The grammar of a JSON number and the decimal value it stands for, written
    down apart from the code: sign, integer part, fraction (empty for none)
    and exponent with its mark and sign. *)
Record numeral : Type := Numeral {
  n_neg : bool; n_int : pystr; n_frac : pystr; n_exp : option (N * option bool * pystr) }.

Definition digits (l : pystr) : Prop := Forall (fun c => is_digit c = true) l.

Definition exp_ok (ex : option (N * option bool * pystr)) : Prop :=
  match ex with Some (mark, _, ds) => mark ∈ [101; 69]%N /\ ds <> [] /\ digits ds | None => True end.

Definition numeral_ok (n : numeral) : Prop := canonical_digits (n_int n) /\ digits (n_frac n) /\ exp_ok (n_exp n).

Definition sign_text (sign : option bool) : pystr :=
  match sign with None => [] | Some negative => [if negative : bool then 45%N else 43%N] end.

Definition frac_text (fp : pystr) : pystr := if bool_decide (fp = []) then [] else 46%N :: fp.

Definition exp_text (ex : option (N * option bool * pystr)) : pystr :=
  match ex with Some (mark, sign, ds) => mark :: sign_text sign ++ ds | None => [] end.

Definition numeral_text (n : numeral) : pystr :=
  (if n_neg n then [45%N] else []) ++ n_int n ++ frac_text (n_frac n) ++ exp_text (n_exp n).

Definition exponent (n : numeral) : Z :=
  match n_exp n with
  | Some (_, sign, ds) => signed (bool_decide (sign = Some true)) (Z.of_N (digits_value ds))
  | None => 0
  end.

(** [z] is the value of the numeral, with the powers of ten on both sides. *)
Definition denotes (n : numeral) (z : Z) : Prop :=
  (z * 10 ^ zlen (n_frac n) * 10 ^ Z.max 0 (- exponent n)
   = signed (n_neg n) (Z.of_N (digits_value (n_int n ++ n_frac n))) * 10 ^ Z.max 0 (exponent n))%Z.

Lemma digits_value_bound l : digits l -> (Z.of_N (digits_value l) < 10 ^ zlen l)%Z.
Proof.
  unfold zlen. induction l as [|c l IH] using rev_ind; intros Hl; [done|].
  apply Forall_app in Hl as [Hl [Hc _]%list.Forall_cons]. apply is_digit_spec in Hc. specialize (IH Hl).
  rewrite digits_value_snoc, length_app, Nat2Z.inj_add, Z.pow_add_r by lia. simpl. change (10 ^ 1)%Z with 10%Z. lia.
Qed.

Lemma digits_value_zero l : digits l -> digits_value l = 0%N -> forallb (fun c => (c =? 48)%N) l = true.
Proof.
  induction l as [|c l IH] using rev_ind; intros Hl; [done|].
  apply Forall_app in Hl as [Hl [Hc _]%list.Forall_cons]. apply is_digit_spec in Hc.
  rewrite digits_value_snoc, forallb_app. intros Hv. rewrite IH by (done || lia). simpl.
  by rewrite (proj2 (N.eqb_eq c 48)) by lia.
Qed.

Lemma exact_int_complete c e z :
  digits c -> forallb (fun c => (c =? 48)%N) c = false -> (z <= MAX_SAFE_INTEGER)%Z ->
  (if (e <? 0)%Z then (z * 10 ^ (- e) = Z.of_N (digits_value c))%Z else (z = Z.of_N (digits_value c) * 10 ^ e)%Z) ->
  exact_int c e = Some z.
Proof.
  intros Hd Hnz Hz Heq. pose proof (digits_value_bound c Hd) as Hb.
  assert (digits_value c <> 0%N) by (intros H0; by rewrite digits_value_zero in Hnz).
  unfold exact_int. set (v := Z.of_N (digits_value c)) in *. assert (0 < v)%Z by lia. destruct (Z.ltb_spec e 0).
  - assert (0 < 10 ^ (- e))%Z by (apply Z.pow_pos_nonneg; lia). destruct (Z.ltb_spec (zlen c) (- e)).
    + assert (10 ^ zlen c <= 10 ^ (- e))%Z by (apply Z.pow_le_mono_r; lia).
      assert (z < 1)%Z by (apply (Z.mul_lt_mono_pos_r (10 ^ (- e))); lia).
      assert (z * 10 ^ (- e) <= 0 * 10 ^ (- e))%Z by (apply Z.mul_le_mono_nonneg_r; lia). lia.
    + rewrite <- Heq, Z.mod_mul, Z.div_mul by lia. cbn [Z.eqb]. by rewrite (proj2 (Z.leb_le _ _) Hz).
  - destruct (Z.ltb_spec 17 e).
    + assert (10 ^ 18 <= 10 ^ e)%Z by (apply Z.pow_le_mono_r; lia). change (10 ^ 18)%Z with 1000000000000000000%Z in *. unfold MAX_SAFE_INTEGER in Hz.
      assert (1 * 10 ^ e <= v * 10 ^ e)%Z by (apply Z.mul_le_mono_nonneg_r; lia). lia.
    + rewrite <- Heq. by rewrite (proj2 (Z.leb_le _ _) Hz).
Qed.

(** Moving the fraction's digits into the exponent. *)
Lemma shift_point (z c f x : Z) :
  (0 <= f)%Z ->
  (if (x - f <? 0)%Z then (z * 10 ^ (- (x - f)) = c)%Z else (z = c * 10 ^ (x - f))%Z)
  <-> (z * 10 ^ f * 10 ^ Z.max 0 (- x) = c * 10 ^ Z.max 0 x)%Z.
Proof.
  intros Hf. assert (Hpos : forall k, (0 <= k -> 0 < 10 ^ k)%Z) by (intros; by apply Z.pow_pos_nonneg).
  destruct (Z.ltb_spec x 0).
  - rewrite (proj2 (Z.ltb_lt _ _)) by lia. rewrite (Z.max_r 0 (- x)), (Z.max_l 0 x) by lia.
    replace (- (x - f))%Z with (f + - x)%Z by lia. rewrite Z.pow_add_r, Z.mul_assoc, Z.pow_0_r, Z.mul_1_r by lia. done.
  - rewrite (Z.max_l 0 (- x)), (Z.max_r 0 x), Z.pow_0_r, Z.mul_1_r by lia. destruct (Z.ltb_spec (x - f) 0).
    + assert (10 ^ f = 10 ^ (- (x - f)) * 10 ^ x)%Z as -> by (rewrite <- Z.pow_add_r by lia; f_equal; lia).
      specialize (Hpos x ltac:(lia)). rewrite Z.mul_assoc. split; [by intros ->|]. intros ?%Z.mul_reg_r; lia.
    + assert (10 ^ x = 10 ^ (x - f) * 10 ^ f)%Z as -> by (rewrite <- Z.pow_add_r by lia; f_equal; lia).
      specialize (Hpos f ltac:(lia)). rewrite Z.mul_assoc. split; [by intros ->|]. intros ?%Z.mul_reg_r; lia.
Qed.

Lemma span_digits_stop d c r : digits d -> is_digit c = false -> span_digits (d ++ c :: r) = (d, c :: r).
Proof. intros Hd Hc. induction Hd as [|x d Hx _ IH]; simpl; [by rewrite Hc|]. by rewrite Hx, IH. Qed.

Lemma parse_exponent_text sign ds :
  ds <> [] -> digits ds ->
  parse_exponent (sign_text sign ++ ds) = signed (bool_decide (sign = Some true)) (Z.of_N (digits_value ds)).
Proof.
  intros Hn Hd. destruct sign as [[]|]; [done|done|]. destruct ds as [|c ds]; [done|].
  apply list.Forall_cons in Hd as [Hc _]. apply is_digit_spec in Hc. unfold parse_exponent. cbn [sign_text app].
  by rewrite (proj2 (N.eqb_neq c 45)), (proj2 (N.eqb_neq c 43)) by lia.
Qed.

Lemma split_token_text n :
  numeral_ok n -> split_token (numeral_text n) = (n_neg n, n_int n ++ n_frac n, (exponent n - zlen (n_frac n))%Z).
Proof.
  destruct n as [neg ip fp ex]. intros (Hi & Hf & Hx). unfold numeral_text, split_token. simpl in *.
  pose proof (canonical_all_digits _ Hi) as Hd.
  set (tail := exp_text ex).
  assert (tail = [] /\ exponent (Numeral neg ip fp ex) = 0%Z \/ exists m r, tail = m :: r /\ m ∈ [101; 69]%N /\
    parse_exponent r = exponent (Numeral neg ip fp ex)) as Ht.
  { unfold tail. destruct ex as [[[m sign] ds]|]; [right|by left]. destruct Hx as (Hm & Hne & Hds).
    eexists m, _. split_and!; [done|done|]. by apply parse_exponent_text. }
  set (rest := frac_text fp ++ tail).
  match goal with |- (let '(_, _) := ?m in _) = _ => assert (m = (neg, ip ++ rest)) as -> end.
  { destruct neg; [done|]. destruct ip as [|c ip]; [destruct Hi as [?|(? & ? & ? & _)]; done|].
    apply list.Forall_cons in Hd as [Hc _]. apply is_digit_spec in Hc. simpl. by rewrite (proj2 (N.eqb_neq c 45)) by lia. }
  assert (Hm : forall m, m ∈ [101; 69]%N -> is_digit m = false /\ (m =? 46)%N = false).
  { intros m. rewrite !elem_of_cons, elem_of_nil. by intros [-> | [-> | []]]. }
  unfold rest, frac_text. case_bool_decide as Hfp.
  - subst fp. cbn [app]. rewrite app_nil_r. destruct Ht as [[-> Ht]|(m & r & -> & (Hm1 & Hm2)%Hm & <-)].
    + rewrite app_nil_r, span_digits_all, Ht by done. cbn. by rewrite app_nil_r.
    + rewrite span_digits_stop by done. cbn. rewrite Hm2. cbn. by rewrite app_nil_r.
  - cbn [app]. rewrite span_digits_stop by done. cbn [N.eqb Pos.eqb].
    destruct Ht as [[-> Ht]|(m & r & -> & (Hm1 & Hm2)%Hm & <-)].
    + by rewrite app_nil_r, span_digits_all, Ht by done.
    + by rewrite span_digits_stop.
Qed.

Lemma signed_bound neg v z (p q : Z) :
  (0 <= v)%Z -> (0 < p)%Z -> (0 < q)%Z -> (z * p = signed neg v * q)%Z -> z = signed neg (Z.abs z).
Proof. unfold signed. destruct neg; intros; nia. Qed.

Lemma scan_digits s d r : span_digits s = (d, r) -> digits d.
Proof.
  revert d r. induction s as [|c s IH]; intros d r; simpl; [intros [= <- <-]; constructor|].
  destruct (is_digit c) eqn:Hc; [|intros [= <- <-]; constructor].
  destruct (span_digits s) as [d' t] eqn:E. intros [= <- <-]. constructor; [done|]. by eapply IH.
Qed.

Lemma scan_int_part_ok s d r : scan_int_part s = Some (d, r) -> canonical_digits d.
Proof.
  unfold scan_int_part. destruct s as [|c s]; [done|]. destruct (N.eqb_spec c 48); [intros [= <- <-]; subst; by left|].
  destruct (is_digit c) eqn:Hc; [|done]. destruct (span_digits s) as [d' t] eqn:E. intros [= <- <-].
  right. exists c, d'. apply is_digit_spec in Hc. split_and!; [done|lia|lia|]. by eapply scan_digits.
Qed.

Lemma scan_frac_ok s d r :
  scan_frac s = (d, r) -> exists fp, digits fp /\ d = frac_text fp.
Proof.
  assert (exists fp, digits fp /\ ([] : pystr) = frac_text fp) as Hno by (exists []; split; [constructor|done]).
  unfold scan_frac. destruct s as [|c s]; [by intros [= <- <-]|].
  destruct (N.eqb_spec c 46); [|by intros [= <- <-]]. destruct (span_digits s) as [d' t] eqn:E.
  apply scan_digits in E. destruct d' as [|x d']; intros [= <- <-]; [done|]. exists (x :: d'). subst. split; [done|].
  unfold frac_text. by rewrite bool_decide_eq_false_2.
Qed.

Lemma scan_exp_ok s d r :
  scan_exp s = (d, r) ->
  exists ex, exp_ok ex /\ d = exp_text ex.
Proof.
  assert (exists ex, exp_ok ex /\ ([] : pystr) = exp_text ex) as Hno by by exists None.
  unfold scan_exp. destruct s as [|c s]; [by intros [= <- <-]|]. case_bool_decide as Hc; [|by intros [= <- <-]].
  match goal with |- (let '(sign, r1) := ?m in _) = _ -> _ => assert (exists sign, m.1 = sign_text sign) as [sign Hs] end.
  { destruct s as [|x s]; [by exists None|]. case_bool_decide as Hx; [|by exists None].
    rewrite !elem_of_cons, elem_of_nil in Hx. destruct Hx as [-> | [-> | []]]; [by exists (Some false)|by exists (Some true)]. }
  match goal with |- (let '(sign, r1) := ?m in _) = _ -> _ => destruct m as [sg r1] end. simpl in Hs. subst sg.
  destruct (span_digits r1) as [ds t] eqn:E. apply scan_digits in E.
  destruct ds as [|x ds]; intros [= <- <-]; [done|]. by exists (Some (c, sign, x :: ds)).
Qed.

(** Every token of the scanner is a numeral of the grammar. *)
Lemma scan_number_numeral s token isf rest :
  scan_number s = Some (token, isf, rest) -> exists n, numeral_ok n /\ token = numeral_text n.
Proof.
  unfold scan_number.
  match goal with |- (let '(sign, r) := ?m in _) = _ -> _ => assert (exists neg : bool, m.1 = if neg then [45%N] else []) as [neg Hs] end.
  { destruct s as [|c s]; [by exists false|]. destruct (N.eqb_spec c 45); [exists true; by subst|by exists false]. }
  match goal with |- (let '(sign, r) := ?m in _) = _ -> _ => destruct m as [sg r] end. simpl in Hs. subst sg.
  intros ([ip r1] & Hi & H)%bind_Some. destruct (scan_frac r1) as [fr r2] eqn:Hf. destruct (scan_exp r2) as [ex r3] eqn:Hx.
  injection H as <- _ _. apply scan_int_part_ok in Hi. apply scan_frac_ok in Hf as (fp & Hf & ->).
  apply scan_exp_ok in Hx as (x & Hx & ->). by exists (Numeral neg ip fp x).
Qed.

Lemma exact_value neg c e v :
  digits c ->
  (if forallb (fun c => (c =? 48)%N) c then Ok (JInt 0)
   else match exact_int c e with Some z => Ok (JInt (signed neg z)) | None => Err (fail "SCHEMA") end) = Ok v <->
  exists z, v = JInt z /\ (Z.abs z <= MAX_SAFE_INTEGER)%Z /\
    if (e <? 0)%Z then (z * 10 ^ (- e) = signed neg (Z.of_N (digits_value c)))%Z
    else (z = signed neg (Z.of_N (digits_value c)) * 10 ^ e)%Z.
Proof.
  intros Hd. assert (Hpos : forall k, (0 <= k -> 0 < 10 ^ k)%Z) by (intros; by apply Z.pow_pos_nonneg).
  destruct (forallb _ c) eqn:Hz.
  - rewrite (digits_value_zeros _ Hz). assert (signed neg (Z.of_N 0) = 0%Z) as -> by by destruct neg. split.
    + intros [= <-]. exists 0%Z. split_and!; [done|done|]. by case_match.
    + intros (z & -> & _ & H). do 2 f_equal. destruct (Z.ltb_spec e 0); [|lia].
      specialize (Hpos (- e)%Z ltac:(lia)). nia.
  - split.
    + destruct (exact_int c e) as [z|] eqn:He; [|done]. intros [= <-]. apply exact_int_Some in He as [Hb Heq].
      exists (signed neg z). split_and!; [done|unfold signed; destruct neg; lia|].
      unfold signed. destruct neg; case_match; lia.
    + intros (z & -> & Hb & Heq). assert (z = signed neg (Z.abs z)) as Hs.
      { pose proof (Hpos (Z.abs e) ltac:(lia)). destruct (Z.ltb_spec e 0);
          [apply (signed_bound neg (Z.of_N (digits_value c)) z (10 ^ (- e)) 1)|apply (signed_bound neg (Z.of_N (digits_value c)) z 1 (10 ^ e))];
          try lia; apply Hpos; lia. }
      rewrite (exact_int_complete c e (Z.abs z)); [by rewrite <- Hs|done|done|lia|].
      revert Hs Heq. generalize (Z.abs z). intros a -> Heq. unfold signed in Heq. destruct neg; case_match; lia.
Qed.

(** C28: whatever bytes a worker or client sends, [parse_frame] answers with an
    object within the JSON budget or with a [ProtocolError] whose code is
    [LIMIT], [FRAME] or [SCHEMA]; no other exception escapes. *)
Theorem parse_frame_total (rec_limit : nat) (data : bytes) :
  match parse_frame rec_limit data with
  | Ok m => bounded m /\ exists d, m = JObj d
  | Err e => public_code e
  end.
Proof.
  destruct (parse_frame rec_limit data) as [m|e] eqn:H; unfold parse_frame in H.
  - inv_res. open_checks.
    match goal with H : _parse_json _ _ = _ |- _ => unfold _parse_json in H; inv_res end.
    match goal with H : _json_bounds _ = _ |- _ => apply json_bounds_bounded in H end. eauto.
  - unfold public_code.
    do 3 (apply bind_Err in H as [H|(_ & _ & H)]; [inv_res; eauto|]).
    apply bind_Err in H as [H|(v & _ & H)]; [by apply parse_json_Err in H|].
    apply bind_Err in H as [H|(? & _ & ?)]; [|done]. destruct v; simpl in H; inv_res; eauto.
Qed.

(** C29: the number hook is exact.  Every number token of the scanner is a
    numeral of the JSON grammar, and on such a numeral, fraction and exponent
    included, [_exact_number] answers with an integer exactly when the decimal
    value of the numeral is a safe integer, and then with that integer;
    everything else is refused with [SCHEMA]. *)
Theorem exact_number_exact :
  (forall s token isf rest, scan_number s = Some (token, isf, rest) -> exists n, numeral_ok n /\ token = numeral_text n)
  /\ (forall n v, numeral_ok n ->
       (_exact_number (numeral_text n) = Ok v <->
        exists z, v = JInt z /\ (Z.abs z <= MAX_SAFE_INTEGER)%Z /\ denotes n z)
       /\ (forall e, _exact_number (numeral_text n) = Err e -> e = fail "SCHEMA")).
Proof.
  split; [exact scan_number_numeral|]. intros n v Hn. split; [|apply exact_number_Err].
  unfold _exact_number, denotes. rewrite (split_token_text _ Hn).
  assert (digits (n_int n ++ n_frac n)) as Hd
    by (apply Forall_app; split; [by apply canonical_all_digits; destruct Hn|by destruct Hn as (_ & ? & _)]).
  assert (0 <= zlen (n_frac n))%Z as Hf by (unfold zlen; lia).
  setoid_rewrite <- shift_point; [|done]. revert Hd Hf.
  generalize (n_int n ++ n_frac n), (zlen (n_frac n)), (exponent n), (n_neg n). clear n Hn. intros c f x neg Hd Hf.
  by apply exact_value.
Qed.

(** ** Concrete instances *)
Definition create_message : json :=
  JObj [(str "v", JInt 1); (str "id", JInt 7); (str "op", JStr "create")].

Lemma frame_roundtrip_witness :
  exists data, encode_frame create_message = Ok data /\ parse_frame 1000 data = Ok create_message.
Proof.
  eexists. split; [vm_compute; reflexivity|].
  apply (frame_roundtrip 1000 create_message).
  - apply (bool_decide_eq_true_1 (wf_json create_message)). vm_compute. reflexivity.
  - vm_compute. reflexivity.
  - vm_compute. reflexivity.
Defined.

(** [1e2] *)
Definition hundred : numeral := Numeral false (str "1") [] (Some (101%N, None, str "2")).

Lemma hundred_value : denotes hundred 100.
Proof. vm_compute. reflexivity. Qed.

Lemma exact_number_exact_witness : numeral_text hundred = str "1e2" /\ _exact_number (str "1e2") = Ok (JInt 100).
Proof.
  split; [vm_compute; reflexivity|].
  apply (proj2 exact_number_exact hundred (JInt 100)).
  - split; [right; exists 49%N, []; by repeat constructor|]. by repeat constructor.
  - exists 100%Z. split; [reflexivity|]. split; [vm_compute; discriminate|exact hundred_value].
Defined.

Example exact_number_cases :
  _exact_number (str "-12.50e1") = Ok (JInt (-125)) /\ _exact_number (str "1.5") = Err (fail "SCHEMA") /\
  _exact_number (str "0e999999") = Ok (JInt 0) /\ _exact_number (str "9007199254740992") = Err (fail "SCHEMA").
Proof. vm_compute. split_and!; reflexivity. Qed.

End port.
