(* ===== verification/PortTypes.v ===== *)
(** * Portable types and values: specification and refinement

    An abstract view of [protocol.py]'s types and typed values.  [pty] is the
    syntax of portable types, [shape_is] says which JSON dictionaries write a
    type, [vtyped] which JSON values inhabit it, and [veq] when two values of
    a type are the same value (sets and maps without order, integers by their
    value).  The validators of [Protocol.v] are proved to decide these. *)

From Stdlib Require Import ZArith Lia.
From stdpp Require Import base list gmap strings numbers.
From S2P Require Import Prelude PyJson JsonText Protocol.
Import port.
#[local] Open Scope res_scope.

(** Pointwise conjunction over two and three lists of equal length. *)
Definition all2 {A B} (P : A -> B -> Prop) : list A -> list B -> Prop :=
  fix go l m := match l, m with
    | [], [] => True
    | x :: l', y :: m' => P x y /\ go l' m'
    | _, _ => False
    end.
Definition all3 {A B C} (P : A -> B -> C -> Prop) : list A -> list B -> list C -> Prop :=
  fix go l m n := match l, m, n with
    | [], [], [] => True
    | x :: l', y :: m', z :: n' => P x y z /\ go l' m' n'
    | _, _, _ => False
    end.
Definition all1 {A} (P : A -> Prop) : list A -> Prop :=
  fix go l := match l with [] => True | x :: l' => P x /\ go l' end.

Lemma all1_Forall {A} (P : A -> Prop) l : all1 P l <-> Forall P l.
Proof. induction l; simpl; [by split; [constructor|]|]. rewrite list.Forall_cons, IHl. done. Qed.

(** ** Types *)
Unset Elimination Schemes.
Inductive pty : Type :=
  | TInt | TBool | TStr | TNull
  | TSet (t : pty)
  | TSeq (t : pty)
  | TTuple (ts : list pty)
  | TRecord (fs : list (pystr * pty))
  | TMap (t : pty)
  | TVariant (cs : list (pystr * pty)).
Set Elimination Schemes.

Definition maxl (l : list nat) : nat := fold_right Nat.max 0%nat l.

(** Nesting of a type; the key of a map counts as one level. *)
Fixpoint pty_depth (t : pty) : nat :=
  match t with
  | TSet t | TSeq t => S (pty_depth t)
  | TMap t => S (pty_depth t)
  | TTuple ts => maxl (map (fun t => S (pty_depth t)) ts)
  | TRecord fs | TVariant fs => maxl (map (fun f => S (pty_depth f.2)) fs)
  | _ => 0%nat
  end.

(** A field name or variant tag: 1 to 128 bytes of UTF-8. *)
Definition label_ok (s : pystr) : Prop :=
  exists size, utf8_len s = Some size /\ (0 < size <= 128)%Z.

(** [s] is the dictionary with fields [ks] whose kind is [kind]. *)
Definition shape_kind (s : json) (kind : string) (ks : list string) (d : pydict) : Prop :=
  s = JObj d /\ closed d (strs ("kind" :: ks)) /\ dget "kind" d = Some (JStr kind).

(** [item] is the dictionary [{nfield: n, tfield: j}]. *)
Definition labelled (nfield tfield : string) (item : json) (n : pystr) (j : json) : Prop :=
  exists d, item = JObj d /\ closed d (strs [nfield; tfield]) /\
    dget nfield d = Some (JStr n) /\ dget tfield d = Some j.

(** The dictionary [s] writes the type [t]. *)
Fixpoint shape_is (t : pty) (s : json) : Prop :=
  match t with
  | TInt => exists d, shape_kind s "int" [] d
  | TBool => exists d, shape_kind s "bool" [] d
  | TStr => exists d, shape_kind s "str" [] d
  | TNull => exists d, shape_kind s "null" [] d
  | TSet t => exists d e, shape_kind s "set" ["element"] d /\ dget "element" d = Some e /\ shape_is t e
  | TSeq t => exists d e, shape_kind s "seq" ["element"] d /\ dget "element" d = Some e /\ shape_is t e
  | TTuple ts => exists d es, shape_kind s "tuple" ["elements"] d /\
      dget "elements" d = Some (JArr es) /\ all2 (fun t e => shape_is t e) ts es
  | TRecord fs => exists d items, shape_kind s "record" ["fields"] d /\
      dget "fields" d = Some (JArr items) /\ NoDup fs.*1 /\ Forall label_ok fs.*1 /\
      all2 (fun f item => exists j, labelled "wireName" "type" item f.1 j /\ shape_is f.2 j) fs items
  | TMap t => exists d e, shape_kind s "map" ["key"; "value"] d /\
      dget "key" d = Some (JObj [(str "kind", JStr "str")]) /\
      dget "value" d = Some e /\ shape_is t e
  | TVariant cs => exists d items, shape_kind s "variant" ["cases"] d /\
      dget "cases" d = Some (JArr items) /\ cs <> [] /\ NoDup cs.*1 /\ Forall label_ok cs.*1 /\
      all2 (fun c item => exists j, labelled "tag" "payload" item c.1 j /\ shape_is c.2 j) cs items
  end.

(** ** Values *)

(** [v] is the one-field dictionary [{k: x}]. *)
Definition single (k : string) (v x : json) : Prop :=
  exists d, v = JObj d /\ closed d (strs [k]) /\ dget k d = Some x.

Definition entry (e : pystr * json) : json := JArr [JStr e.1; e.2].

Definition variant_value (v : json) (tag : pystr) (x : json) : Prop :=
  exists d, v = JObj d /\ closed d (strs ["tag"; "value"]) /\
    dget "tag" d = Some (JStr tag) /\ dget "value" d = Some x.

(** Two values of type [t] are the same value. *)
Fixpoint veq (t : pty) (v w : json) : Prop :=
  match t with
  | TInt => exists z, single "#bigint" v (JStr (int_repr z)) /\ single "#bigint" w (JStr (int_repr z))
  | TBool | TStr | TNull => v = w
  | TSet t => exists vs ws, single "#set" v (JArr vs) /\ single "#set" w (JArr ws) /\
      (forall a, a ∈ vs -> exists b, b ∈ ws /\ veq t a b) /\
      (forall b, b ∈ ws -> exists a, a ∈ vs /\ veq t a b)
  | TSeq t => exists vs ws, v = JArr vs /\ w = JArr ws /\ Forall2 (veq t) vs ws
  | TTuple ts => exists vs ws, single "#tup" v (JArr vs) /\ single "#tup" w (JArr ws) /\
      all3 (fun t a b => veq t a b) ts vs ws
  | TRecord fs => exists d e, v = JObj d /\ w = JObj e /\
      all1 (fun f => exists x y, dget f.1 d = Some x /\ dget f.1 e = Some y /\ veq f.2 x y) fs
  | TMap t => exists es fs, single "#map" v (JArr (map entry es)) /\ single "#map" w (JArr (map entry fs)) /\
      (forall a, a ∈ es -> exists b, b ∈ fs /\ a.1 = b.1 /\ veq t a.2 b.2) /\
      (forall b, b ∈ fs -> exists a, a ∈ es /\ a.1 = b.1 /\ veq t a.2 b.2)
  | TVariant cs => exists tag x y, variant_value v tag x /\ variant_value w tag y /\
      (fix go cs := match cs with
         | [] => False
         | c :: cs' => (c.1 = tag /\ veq c.2 x y) \/ go cs'
         end) cs
  end.

(** [v] is a value of type [t]; the members of a set are pairwise different. *)
Fixpoint vtyped (t : pty) (v : json) : Prop :=
  match t with
  | TInt => exists z, single "#bigint" v (JStr (int_repr z))
  | TBool => exists b, v = JBool b
  | TStr => exists s, v = JStr s
  | TNull => v = JNull
  | TSet t => exists vs, single "#set" v (JArr vs) /\ Forall (vtyped t) vs /\
      ForallOrdPairs (fun a b => ~ veq t a b) vs
  | TSeq t => exists vs, v = JArr vs /\ Forall (vtyped t) vs
  | TTuple ts => exists vs, single "#tup" v (JArr vs) /\ all2 (fun t a => vtyped t a) ts vs
  | TRecord fs => exists d, v = JObj d /\ closed d fs.*1 /\
      all1 (fun f => exists x, dget f.1 d = Some x /\ vtyped f.2 x) fs
  | TMap t => exists es, single "#map" v (JArr (map entry es)) /\ NoDup es.*1 /\
      Forall (fun e => vtyped t e.2) es
  | TVariant cs => exists tag x, variant_value v tag x /\
      (fix go cs := match cs with
         | [] => False
         | c :: cs' => (c.1 = tag /\ vtyped c.2 x) \/ go cs'
         end) cs
  end.

(** ** Lists of checked items *)

Lemma all2_Forall2 {A B} (P : A -> B -> Prop) l m : all2 P l m <-> Forall2 P l m.
Proof.
  revert m. induction l as [|x l IH]; intros [|y m]; simpl.
  - split; [constructor|done].
  - split; [done|by inversion 1].
  - split; [done|by inversion 1].
  - rewrite IH. split; [intros [? ?]; by constructor|inversion 1; done].
Qed.

Lemma all2_and {A B} (P : A -> B -> Prop) (Q : A -> Prop) l m :
  all2 (fun x y => P x y /\ Q x) l m <-> all2 P l m /\ Forall Q l.
Proof.
  revert m. induction l as [|x l IH]; intros [|y m]; simpl.
  - by split; [split; [|constructor]|].
  - by split; [|intros []].
  - by split; [|intros []].
  - rewrite IH, list.Forall_cons. naive_solver.
Qed.

Lemma Forall_exists_all2 {A B} (P : A -> B -> Prop) m :
  Forall (fun y => exists x, P x y) m <-> exists l, all2 P l m.
Proof.
  induction m as [|y m IH].
  - split; [intros; by exists []|constructor].
  - rewrite list.Forall_cons, IH. split.
    + intros [[x Hx] [l Hl]]. by exists (x :: l).
    + intros [[|x l] Hl]; [done|]. destruct Hl. eauto.
Qed.

Lemma maxl_lt l n : (maxl l < S n)%nat <-> Forall (fun x => x < S n)%nat l.
Proof.
  induction l as [|x l IH]; simpl; [split; [constructor|lia]|].
  rewrite list.Forall_cons, <- IH. lia.
Qed.

Lemma maxl_map_lt {A} (f : A -> nat) l n :
  (maxl (map (fun x => S (f x)) l) < S n)%nat <-> Forall (fun x => f x < n)%nat l.
Proof. rewrite maxl_lt, List.Forall_map. apply Forall_iff. intros x. lia. Qed.

Lemma _string_label v : _string v (Some 128%Z) true = Ok tt <-> exists s, v = JStr s /\ label_ok s.
Proof.
  unfold _string, label_ok. destruct v as [| | | |s| |]; try (split; [done|naive_solver]).
  destruct (utf8_len s) as [size|] eqn:E; [|naive_solver].
  assert (0 <= size)%Z.
  { unfold utf8_len in E. destruct (utf8_encode s); simpl in E; simplify_eq. lia. }
  rewrite raise_if_Ok, orb_false_iff, andb_true_l, Z.eqb_neq, Z.ltb_ge. naive_solver lia.
Qed.

Lemma _array_Ok v ne l : _array v ne = Ok l <-> v = JArr l /\ (ne = true -> l <> []).
Proof.
  unfold _array. destruct v as [| | | | |l'|]; try (split; [done|naive_solver]).
  rewrite bind_Ok. setoid_rewrite raise_if_Ok. destruct ne; simpl.
  - setoid_rewrite bool_decide_eq_false. split; [intros (_ & ? & [= ->]); auto|].
    intros [[= ->] ?]. exists tt. auto.
  - split; [intros (_ & _ & [= ->]); auto|]. intros [[= ->] _]. by exists tt.
Qed.

(** The distinctness check on labelled items is distinctness of the labels. *)
Lemma _unique_labels nf tf {T} (P : T -> json -> Prop) (fs : list (pystr * T)) items :
  all2 (fun f item => exists j, labelled nf tf item f.1 j /\ P f.2 j) fs items ->
  _unique items nf = Ok tt <-> NoDup fs.*1.
Proof.
  intros Hl. unfold _unique.
  assert (traverse (fun item => getitem item nf) items = Ok (JStr <$> fs.*1)) as ->.
  { revert fs Hl. induction items as [|item items IH]; intros [|f fs] Hl; simpl in *; try done.
    destruct Hl as [(j & (d & -> & _ & Hn & _) & _) Hl]. rewrite (getitem_dget _ _ _ Hn). simpl.
    by rewrite (IH fs Hl). }
  simpl. rewrite raise_if_Ok, has_dup_false. split; [apply NoDup_fmap_1|].
  intros ?. apply NoDup_fmap_2; [|done]. intros ? ? [= ->]. done.
Qed.

(** ** [_type] decides the syntax of types *)

(** What one level of [_type] checks, by kind. *)
Definition type_level (n : nat) (d : pydict) (kind : pystr) : Prop :=
  let ty e := _type_at n e = Ok tt in
  let items field nf tf l := dget field d = Some (JArr l) /\
    Forall (fun item => exists s j, labelled nf tf item s j /\ label_ok s /\ ty j) l /\
    _unique l nf = Ok tt in
  if bool_decide (kind ∈ strs ["int"; "bool"; "str"; "null"]) then closed d (strs ["kind"])
  else if bool_decide (kind ∈ strs ["set"; "seq"]) then
    closed d (strs ["kind"; "element"]) /\ exists e, dget "element" d = Some e /\ ty e
  else if bool_decide (kind = "tuple") then
    closed d (strs ["kind"; "elements"]) /\ exists l, dget "elements" d = Some (JArr l) /\ Forall ty l
  else if bool_decide (kind = "record") then
    closed d (strs ["kind"; "fields"]) /\ exists l, items "fields" "wireName" "type" l
  else if bool_decide (kind = "map") then
    closed d (strs ["kind"; "key"; "value"]) /\
    dget "key" d = Some (JObj [(str "kind", JStr "str")]) /\
    ty (JObj [(str "kind", JStr "str")]) /\ exists e, dget "value" d = Some e /\ ty e
  else if bool_decide (kind = "variant") then
    closed d (strs ["kind"; "cases"]) /\ exists l, items "cases" "tag" "payload" l /\ l <> []
  else False.

Lemma py_eqb_str_kind k :
  py_eqb k (JObj [(str "kind", JStr "str")]) = true <-> k = JObj [(str "kind", JStr "str")].
Proof.
  split; [|by intros ->].
  destruct k as [| | | | | |[|[k v] [|? ?]]]; simpl; try done.
  case_bool_decide; [|done]. subst. destruct v; simpl; try done.
  rewrite andb_true_r, bool_decide_eq_true. by intros ->.
Qed.

(** The check of one labelled item of a record or a variant. *)
Lemma item_check n nf tf item :
  (_object item (Some (strs [nf; tf])) "SCHEMA" ;;
   x ← getitem item nf; _string x (Some 128%Z) true ;;
   t ← getitem item tf; _type_at n t) = Ok tt <->
  exists s j, labelled nf tf item s j /\ label_ok s /\ _type_at n j = Ok tt.
Proof.
  rewrite bind_Ok. setoid_rewrite bind_Ok. setoid_rewrite bind_Ok. setoid_rewrite bind_Ok.
  setoid_rewrite _object_Ok. setoid_rewrite getitem_Ok. unfold labelled. split.
  - intros (d & [-> Hc] & x & (d1 & [= <-] & Hx) & [] & Hs & t & (d2 & [= <-] & Ht) & Hty).
    apply _string_label in Hs as (s & -> & Hl). naive_solver.
  - intros (s & j & (d & -> & Hc & Hn & Ht) & Hl & Hty).
    exists d. split; [done|]. exists (JStr s). split; [eauto|]. exists tt.
    split; [apply _string_label; eauto|]. eauto.
Qed.

Lemma items_check n nf tf l code :
  (for_each (fun item =>
     _object item (Some (strs [nf; tf])) "SCHEMA" ;;
     x ← getitem item nf; _string x (Some 128%Z) true ;;
     t ← getitem item tf; _type_at n t) l ;; _unique l code) = Ok tt <->
  Forall (fun item => exists s j, labelled nf tf item s j /\ label_ok s /\ _type_at n j = Ok tt) l /\
  _unique l code = Ok tt.
Proof.
  rewrite bind_Ok. setoid_rewrite for_each_Ok. setoid_rewrite item_check.
  split; [intros ([] & ? & ?); done|intros []; by exists tt].
Qed.

Lemma object_then ks d {B} (f : pydict -> res B) b :
  rbind (_object (JObj d) (Some ks) "SCHEMA") f = Ok b <-> closed d ks /\ f d = Ok b.
Proof.
  rewrite bind_Ok. setoid_rewrite _object_Ok.
  split; [intros (? & [[= <-] ?] & ?); done|intros []; by exists d].
Qed.

Lemma field_then d k {B} (f : json -> res B) b :
  rbind (getitem (JObj d) k) f = Ok b <-> exists x, dget k d = Some x /\ f x = Ok b.
Proof. rewrite bind_Ok. setoid_rewrite getitem_Ok. naive_solver. Qed.

Lemma array_then v ne {B} (f : list json -> res B) b :
  rbind (_array v ne) f = Ok b <-> exists l, v = JArr l /\ (ne = true -> l <> []) /\ f l = Ok b.
Proof. rewrite bind_Ok. setoid_rewrite _array_Ok. naive_solver. Qed.

Lemma then_unit (m m' : res unit) : (m ;; m') = Ok tt <-> m = Ok tt /\ m' = Ok tt.
Proof. rewrite bind_Ok. split; [intros ([] & ? & ?); done|intros []; by exists tt]. Qed.

Lemma type_at_level n s :
  _type_at (S n) s = Ok tt <->
  exists d kind, s = JObj d /\ dget "kind" d = Some (JStr kind) /\ type_level n d kind.
Proof.
  cbn [_type_at]. destruct s as [| | | | | |d]; try (split; [done|intros (? & ? & ? & _); done]).
  rewrite (proj2 (_object_any _ _ d) eq_refl). cbn [rbind].
  transitivity (exists kind, dget "kind" d = Some (JStr kind) /\ type_level n d kind); [|naive_solver].
  destruct (dget "kind" d) as [[| | | |kind| |]|]; try (split; [done|naive_solver]).
  transitivity (type_level n d kind); [|naive_solver].
  unfold type_level. repeat case_bool_decide; try done; rewrite object_then.
  - naive_solver.
  - setoid_rewrite field_then. done.
  - setoid_rewrite field_then. setoid_rewrite array_then. setoid_rewrite for_each_Ok. naive_solver.
  - setoid_rewrite field_then. setoid_rewrite array_then. setoid_rewrite items_check. naive_solver.
  - setoid_rewrite field_then. setoid_rewrite then_unit. setoid_rewrite raise_if_Ok.
    setoid_rewrite negb_false_iff. setoid_rewrite py_eqb_str_kind.
    setoid_rewrite then_unit. setoid_rewrite field_then. naive_solver.
  - setoid_rewrite field_then. setoid_rewrite array_then. setoid_rewrite items_check. naive_solver.
Qed.

(** A list of labelled items against a list of labelled types. *)
Lemma items_refine nf tf n (IH : forall s, _type_at n s = Ok tt <-> exists t, shape_is t s /\ (pty_depth t < n)%nat) l :
  Forall (fun item => exists s j, labelled nf tf item s j /\ label_ok s /\ _type_at n j = Ok tt) l /\
    _unique l nf = Ok tt <->
  exists fs, NoDup fs.*1 /\ Forall label_ok fs.*1 /\ Forall (fun f => pty_depth f.2 < n)%nat fs /\
    all2 (fun f item => exists j, labelled nf tf item f.1 j /\ shape_is f.2 j) fs l.
Proof.
  set (P := fun (f : pystr * pty) item => (exists j, labelled nf tf item f.1 j /\ shape_is f.2 j)
            /\ (label_ok f.1 /\ (pty_depth f.2 < n)%nat)).
  transitivity ((exists fs, all2 P fs l) /\ _unique l nf = Ok tt).
  - rewrite <- (Forall_exists_all2 P). f_equiv. apply Forall_iff. intros item. unfold P. split.
    + intros (s & j & Hl & Hs & (t & Ht & Hd)%IH). exists (s, t). simpl. eauto.
    + intros ([s t] & (j & Hl & Ht) & Hs & Hd). exists s, j. split_and!; [done|done|]. apply IH. eauto.
  - unfold P. split.
    + intros [[fs H] Hu]. rewrite all2_and in H. destruct H as [H [Hs Hd]%list.Forall_and]. exists fs.
      split_and!; [by apply (_unique_labels nf tf shape_is fs l)|by apply list.Forall_fmap|done|done].
    + intros (fs & Hn & Hs & Hd & H). split; [exists fs; rewrite all2_and, list.Forall_and; rewrite list.Forall_fmap in Hs; done|].
      by apply (_unique_labels nf tf shape_is fs l).
Qed.

(** Types are decided level by level. *)
Lemma type_at_refines n s :
  _type_at n s = Ok tt <-> exists t, shape_is t s /\ (pty_depth t < n)%nat.
Proof.
  revert s. induction n as [|n IH]; intros s; [split; [done|intros (? & _ & ?); lia]|].
  rewrite type_at_level. split.
  - intros (d & kind & -> & Hk & Hl). unfold type_level in Hl.
    repeat case_bool_decide; try done.
    + match goal with H : kind ∈ _ |- _ => elem_literal H; rename H into Hin end.
      destruct Hin as [->|[->|[->|[->|[]]]]];
        [exists TInt|exists TBool|exists TStr|exists TNull]; simpl; (split; [|lia]); by exists d.
    + match goal with H : kind ∈ strs ["set"; _] |- _ => elem_literal H; rename H into Hin end.
      destruct Hl as (Hc & e & He & (t & Ht & Hd)%IH).
      destruct Hin as [->|[->|[]]]; [exists (TSet t)|exists (TSeq t)]; simpl; (split; [|lia]); by exists d, e.
    + destruct Hl as (Hc & l & Hl & Hf). setoid_rewrite IH in Hf. subst.
      apply (Forall_exists_all2 (fun t e => shape_is t e /\ (pty_depth t < n)%nat)) in Hf as [ts Hf].
      rewrite all2_and in Hf. destruct Hf as [Hf Hd].
      exists (TTuple ts). simpl. split; [by exists d, l|]. by apply maxl_map_lt.
    + destruct Hl as (Hc & l & Hl & Hf). apply (items_refine _ _ n IH) in Hf as (fs & ? & ? & ? & ?). subst.
      exists (TRecord fs). simpl. split; [by exists d, l|]. by apply maxl_map_lt.
    + destruct Hl as (Hc & Hkey & _ & e & He & (t & Ht & Hd)%IH). subst.
      exists (TMap t). simpl. split; [by exists d, e|lia].
    + destruct Hl as (Hc & l & (Hl & Hf) & Hne). apply (items_refine _ _ n IH) in Hf as (fs & ? & ? & ? & ?). subst.
      exists (TVariant fs). simpl. split; [|by apply maxl_map_lt].
      exists d, l. split_and!; try done. intros ->. by destruct l.
  - intros (t & Ht & Hd).
    destruct t as [| | | |t|t|ts|fs|t|cs]; simpl in Ht, Hd.
    1-4: destruct Ht as (d & -> & Hc & Hk); eexists d, _; split_and!; [done|exact Hk|];
      unfold type_level; by eval_decides.
    1-2: destruct Ht as (d & e & (-> & Hc & Hk) & He & Ht); eexists d, _; split_and!; [done|exact Hk|];
      unfold type_level; eval_decides; split; [done|]; exists e; split; [done|];
      apply IH; exists t; split; [done|lia].
    + destruct Ht as (d & es & (-> & Hc & Hk) & He & Ht). apply maxl_map_lt in Hd.
      eexists d, _; split_and!; [done|exact Hk|]. unfold type_level; eval_decides.
      split; [done|]. exists es. split; [done|]. setoid_rewrite IH.
      apply (Forall_exists_all2 (fun t e => shape_is t e /\ (pty_depth t < n)%nat)).
      exists ts. by apply all2_and.
    + destruct Ht as (d & es & (-> & Hc & Hk) & He & Hn & Hl & Ht). apply maxl_map_lt in Hd.
      eexists d, _; split_and!; [done|exact Hk|]. unfold type_level; eval_decides.
      split; [done|]. exists es. split; [done|]. apply (items_refine _ _ n IH). by exists fs.
    + destruct Ht as (d & e & (-> & Hc & Hk) & Hkey & He & Ht).
      eexists d, _; split_and!; [done|exact Hk|]. unfold type_level; eval_decides.
      split_and!; [done|done| |].
      * apply IH. exists TStr. split; [|simpl; lia].
        exists [(str "kind", JStr "str")]. split_and!; [done|intros k; set_solver|done].
      * exists e. split; [done|]. apply IH. exists t. split; [done|lia].
    + destruct Ht as (d & es & (-> & Hc & Hk) & He & Hne & Hn & Hl & Ht). apply maxl_map_lt in Hd.
      eexists d, _; split_and!; [done|exact Hk|]. unfold type_level; eval_decides.
      split; [done|]. exists es. split; [|intros ->; by destruct cs].
      split; [done|]. apply (items_refine _ _ n IH). by exists cs.
Qed.

(** C21: [_type] and [validate_type] decide the syntax of portable types.  [_type]
    accepts a JSON value exactly when the value writes a type (closed fields,
    distinct bounded labels, at least one variant case, string map keys) nested at
    most 32 deep; [validate_type] returns its argument exactly when, besides, the
    value is within the bounds of every JSON message (nodes, depth, integers and
    strings), and otherwise raises. *)
Theorem type_refines (s s' : json) :
  (_type s = Ok tt <-> exists t, shape_is t s /\ (pty_depth t <= MAX_TYPE_DEPTH)%nat) /\
  (validate_type s = Ok s' <-> s' = s /\ bounded s /\ exists t, shape_is t s /\ (pty_depth t <= MAX_TYPE_DEPTH)%nat).
Proof.
  assert (_type s = Ok tt <-> exists t, shape_is t s /\ (pty_depth t <= MAX_TYPE_DEPTH)%nat) as H.
  { unfold _type. rewrite type_at_refines. split; intros (t & ? & ?); exists t; (split; [done|lia]). }
  split; [exact H|]. rewrite <- H, <- json_bounds_bounded. unfold validate_type. split.
  - intros Hv. apply bind_Ok in Hv as ([] & Hb & Hv). apply bind_Ok in Hv as ([] & Ht & Hv). by injection Hv as <-.
  - intros (-> & -> & ->). done.
Qed.

(** ** Integers are canonical decimal strings *)

Lemma nonzero_digits_spec s :
  nonzero_digits s = true <-> exists n, (0 < n)%N /\ s = dec_digits n.
Proof.
  split.
  - destruct s as [|c r]; [done|]. simpl. unfold in_range. rewrite !andb_true_iff, !N.leb_le. intros [Hc Hr].
    exists (digits_value (c :: r)). split; [apply digits_value_pos; eauto|].
    symmetry. apply canonical_dec_digits. right. exists c, r. split_and!; [done|lia|lia|].
    apply list.Forall_forall. intros x Hx. rewrite forallb_forall in Hr. apply Hr. by apply list_elem_of_In.
  - intros (n & Hn & ->). destruct (dec_digits_canonical n) as [E|(c & r & E & Hc & Hr)].
    + rewrite <- (dec_digits_value n), E in Hn. done.
    + rewrite E. simpl. unfold in_range. rewrite !andb_true_iff, !N.leb_le. split; [lia|].
      apply forallb_forall. intros x Hx. rewrite list.Forall_forall in Hr. apply Hr. by apply list_elem_of_In.
Qed.

Lemma INTEGER_spec s : INTEGER s = true <-> exists z, s = int_repr z.
Proof.
  unfold INTEGER. rewrite !orb_true_iff, bool_decide_eq_true, nonzero_digits_spec. split.
  - intros [[->|(n & Hn & ->)]|H].
    + by exists 0%Z.
    + exists (Z.of_N n). unfold int_repr. destruct (Z.ltb_spec (Z.of_N n) 0); [lia|]. by rewrite N2Z.id.
    + destruct s as [|c r]; [done|]. apply andb_true_iff in H as [->%N.eqb_eq (n & Hn & ->)%nonzero_digits_spec].
      exists (- Z.of_N n)%Z. unfold int_repr. destruct (Z.ltb_spec (- Z.of_N n) 0); [|lia].
      by rewrite Z.opp_involutive, N2Z.id.
  - intros (z & ->). unfold int_repr. destruct (Z.ltb_spec z 0).
    + right. simpl. apply nonzero_digits_spec. exists (Z.to_N (- z)). split; [lia|done].
    + destruct (decide (z = 0)%Z) as [->|]; [by left; left|]. left. right. exists (Z.to_N z). split; [lia|done].
Qed.

#[export] Instance int_repr_inj : Inj (=) (=) int_repr.
Proof.
  intros x y. unfold int_repr.
  assert (forall n m, 45%N :: dec_digits n <> dec_digits m) as Hne.
  { intros n m E. destruct (dec_digits_canonical m) as [E'|(c & r & E' & ? & _)]; rewrite <- E in E'; simplify_eq; lia. }
  destruct (Z.ltb_spec x 0), (Z.ltb_spec y 0); intros E.
  - injection E as E%dec_digits_inj. lia.
  - by apply Hne in E.
  - symmetry in E. by apply Hne in E.
  - apply dec_digits_inj in E. lia.
Qed.

(** ** [_value] decides typed values *)

(** A check that accepts exactly [P] and refuses everything else as [VALUE]. *)
Definition verdict {A} (m : res A) (P : Prop) : Prop :=
  match m with Ok _ => P | Err e => e = fail "VALUE" /\ ~ P end.

(** At [n] levels: shapes of [t] accept exactly its values, and the keys of two
    values are equal exactly when the values are. *)
Definition value_ok (n : nat) (t : pty) : Prop :=
  forall s s', shape_is t s -> shape_is t s' ->
    (forall v, verdict (_value_at n s v) (vtyped t v)) /\
    (forall v w k k', _value_at n s v = Ok k -> _value_at n s' w = Ok k' ->
       vkey_eqb k k' = true <-> veq t v w).

#[export] Instance verdict_proper {A} (m : res A) : Proper (iff ==> iff) (verdict m).
Proof. intros P Q H. unfold verdict. destruct m; [done|]. by rewrite H. Qed.

Lemma verdict_bind_pure {A B} (m : res A) (f : A -> B) P :
  verdict m P -> verdict (a ← m; Ok (f a)) P.
Proof. by destruct m. Qed.

Lemma traverse_verdict {A B} (f : A -> res B) (P : A -> Prop) l :
  (forall x, x ∈ l -> verdict (f x) (P x)) -> verdict (traverse f l) (Forall P l).
Proof.
  induction l as [|x l IH]; intros H; simpl; [constructor|].
  pose proof (H x ltac:(left)) as Hx.
  assert (verdict (traverse f l) (Forall P l)) as Hl by (apply IH; intros; apply H; by right).
  rewrite list.Forall_cons.
  unfold verdict in *. destruct (f x); simpl; [|naive_solver].
  destruct (traverse f l); simpl; naive_solver.
Qed.

Lemma single_fun k v x y : single k v x -> single k v y -> x = y.
Proof. intros (d & -> & _ & Hx) (d' & [= <-] & _ & Hy). congruence. Qed.

Lemma _object_VALUE v ks e : _object v (Some ks) "VALUE" = Err e -> e = fail "VALUE".
Proof.
  destruct v; simpl; try congruence. intros [H|(? & _ & ?)]%bind_Err; [|done].
  by apply raise_if_Err in H as [_ <-].
Qed.

(** A marked value [{k: x}] is opened, or the value is refused. *)
Lemma marked_cases {B} k v (f : json -> res B) :
  let m := (d ← _object v (Some (strs [k])) "VALUE"; x ← getitem (JObj d) k; f x) in
  (exists x, single k v x /\ m = f x) \/ ((forall x, ~ single k v x) /\ m = Err (fail "VALUE")).
Proof.
  cbv zeta. destruct (_object v (Some (strs [k])) "VALUE") as [d|e] eqn:E; cbn [rbind].
  - left. apply _object_Ok in E as [-> Hc].
    destruct (closed_dget d _ k Hc) as [x Hx]; [by left|]. exists x. rewrite (getitem_dget _ _ _ Hx).
    split; [|done]. by exists d.
  - right. pose proof (_object_VALUE _ _ _ E) as ->. split; [|done]. intros x (d & -> & Hc & _).
    by rewrite (closed_object _ _ _ d eq_refl Hc) in E.
Qed.

Lemma marked_array {B} k v (f : list json -> res B) :
  let m := (d ← _object v (Some (strs [k])) "VALUE"; x ← getitem (JObj d) k;
            vs ← match x with JArr l => Ok l | _ => Err (fail "VALUE") end; f vs) in
  (exists vs, single k v (JArr vs) /\ m = f vs) \/
  ((forall vs, ~ single k v (JArr vs)) /\ m = Err (fail "VALUE")).
Proof.
  cbv zeta.
  destruct (marked_cases k v (fun x => vs ← match x with JArr l => Ok l | _ => Err (fail "VALUE") end; f vs))
    as [(x & Hs & ->)|[Hn ->]]; [|by right; split; [intros; apply Hn|]].
  assert ((exists l, x = JArr l) \/ forall l, x <> JArr l) as [[l ->]|Hx]
    by (destruct x; naive_solver); [by left; exists l|].
  right. split; [|by destruct x; try destruct (Hx _ eq_refl)].
  intros vs Hv. by apply (Hx vs), (single_fun k v).
Qed.

(** Comparing two frozensets of keys compares the values as sets. *)
Lemma frozenset_eq {V K} (eqb : K -> K -> bool) (R : V -> V -> Prop) (f g : V -> K -> Prop) vs ws ks ls :
  (forall v w k l, f v k -> g w l -> eqb k l = true <-> R v w) ->
  Forall2 f vs ks -> Forall2 g ws ls ->
  forallb (fun x => existsb (eqb x) ls) ks && forallb (fun y => existsb (fun x => eqb x y) ks) ls = true <->
  (forall a, a ∈ vs -> exists b, b ∈ ws /\ R a b) /\ (forall b, b ∈ ws -> exists a, a ∈ vs /\ R a b).
Proof.
  intros Hag Hf Hg.
  assert (forall (h : V -> K -> Prop) l m, Forall2 h l m ->
            (forall v, v ∈ l -> exists k, k ∈ m /\ h v k) /\ (forall k, k ∈ m -> exists v, v ∈ l /\ h v k)) as F.
  { clear. induction 1 as [|v k l m Hv _ [IH1 IH2]]; [by split; intros ? ?%elem_of_nil|].
    split; intros ? [->|Hin]%elem_of_cons; [by exists k; split; [left|]| |by exists v; split; [left|]|].
    - destruct (IH1 _ Hin) as (k' & ? & ?). exists k'. split; [by right|done].
    - destruct (IH2 _ Hin) as (v' & ? & ?). exists v'. split; [by right|done]. }
  destruct (F f vs ks Hf) as [F1 F2], (F g ws ls Hg) as [G1 G2].
  rewrite andb_true_iff, !forallb_forall. setoid_rewrite existsb_exists. setoid_rewrite <- list_elem_of_In.
  split; intros [H1 H2]; split.
  - intros a (k & Hk & Hfk)%F1. destruct (H1 _ Hk) as (l & Hl & He).
    destruct (G2 _ Hl) as (b & Hb & Hgb). exists b. split; [done|]. by apply (Hag a b k l).
  - intros b (l & Hl & Hgl)%G1. destruct (H2 _ Hl) as (k & Hk & He).
    destruct (F2 _ Hk) as (a & Ha & Hfa). exists a. split; [done|]. by apply (Hag a b k l).
  - intros k Hk. destruct (F2 _ Hk) as (a & Ha & Hfa). destruct (H1 _ Ha) as (b & Hb & HR).
    destruct (G1 _ Hb) as (l & Hl & Hgl). exists l. split; [done|]. by apply (Hag a b k l).
  - intros l Hl. destruct (G2 _ Hl) as (b & Hb & Hgb). destruct (H2 _ Hb) as (a & Ha & HR).
    destruct (F1 _ Ha) as (k & Hk & Hfa). exists k. split; [done|]. by apply (Hag a b k l).
Qed.

Lemma dup_keys_spec {V} (R : V -> V -> Prop) (f : V -> vkey -> Prop) vs ks :
  (forall v w k l, f v k -> f w l -> vkey_eqb k l = true <-> R v w) ->
  Forall2 f vs ks -> dup_keys ks = false <-> ForallOrdPairs (fun a b => ~ R a b) vs.
Proof.
  intros Hag. induction 1 as [|v k vs ks Hv Hf IH]; simpl; [by split; [constructor|]|].
  rewrite orb_false_iff, IH.
  assert (existsb (vkey_eqb k) ks = false <-> List.Forall (fun b => ~ R v b) vs) as ->.
  { clear IH. induction Hf as [|w l vs ks Hw _ IH]; simpl; [by split; [constructor|]|].
    rewrite orb_false_iff, IH, list.Forall_cons, <- (Hag v w k l Hv Hw). destruct (vkey_eqb k l); naive_solver. }
  split; [intros []; by constructor|inversion 1; done].
Qed.

Lemma vkey_list_eqb (h : vkey -> vkey -> bool) l m :
  (fix go (l m : list vkey) : bool :=
     match l, m with
     | [], [] => true
     | x :: l', y :: m' => h x y && go l' m'
     | _, _ => false
     end) l m = true <-> Forall2 (fun x y => h x y = true) l m.
Proof.
  revert m. induction l as [|x l IH]; intros [|y m]; try (split; [done|by inversion 1]).
  rewrite andb_true_iff, IH. split; [intros []; by constructor|inversion 1; done].
Qed.

(** Comparing two tuples of keys compares the values in order. *)
Lemma tuple_eq {V K} (eqb : K -> K -> bool) (R : V -> V -> Prop) (f g : V -> K -> Prop) vs ws ks ls :
  (forall v w k l, f v k -> g w l -> eqb k l = true <-> R v w) ->
  Forall2 f vs ks -> Forall2 g ws ls ->
  Forall2 (fun x y => eqb x y = true) ks ls <-> Forall2 R vs ws.
Proof.
  intros Hag Hf. revert ws ls. induction Hf as [|v k vs ks Hv _ IHf]; intros ws ls Hg.
  - destruct Hg; [done|split; inversion 1].
  - destruct Hg as [|w l ws ls Hw Hg]; [split; inversion 1|].
    rewrite !list.Forall2_cons, (Hag v w k l), (IHf ws ls) by done. done.
Qed.

Section Values.
Context (n : nat) (IH : forall t, (pty_depth t < n)%nat -> value_ok n t).

(** Opens one level of [_value] at a known kind. *)
Ltac enter_kind Hk := cbn [_value_at]; rewrite (getitem_dget _ _ _ Hk); cbn [rbind str_is]; eval_decides.

Lemma int_at s d v : shape_kind s "int" [] d ->
  (exists z, single "#bigint" v (JStr (int_repr z)) /\ _value_at (S n) s v = Ok (KInt (int_repr z))) \/
  (~ vtyped TInt v /\ _value_at (S n) s v = Err (fail "VALUE")).
Proof.
  intros (-> & _ & Hk). enter_kind Hk.
  match goal with |- context [rbind (_object v ?ks ?c) ?f] =>
    destruct (marked_cases "#bigint" v (fun x =>
      match x with JStr m => raise_if (negb (INTEGER m)) (fail "VALUE") ;; Ok (KInt m) | _ => Err (fail "VALUE") end))
      as [(x & Hs & ->)|[Hn ->]] end.
  - assert ((exists m, x = JStr m) \/ forall m, x <> JStr m) as [[m ->]|Hx] by (destruct x; naive_solver).
    + destruct (INTEGER m) eqn:Hm; simpl.
      * apply INTEGER_spec in Hm as [z ->]. left. eauto.
      * right. split; [|done]. intros (z & Hz). pose proof (single_fun _ _ _ _ Hs Hz) as [= ->].
        rewrite (proj2 (INTEGER_spec _)) in Hm; [done|eauto].
    + right. split; [|by destruct x; try destruct (Hx _ eq_refl)].
      intros (z & Hz). by apply (Hx (int_repr z)), (single_fun "#bigint" v).
  - right. split; [|done]. intros (z & Hz). by apply Hn in Hz.
Qed.

Lemma value_ok_int : value_ok (S n) TInt.
Proof.
  intros s s' [d Hd] [d' Hd']. split.
  - intros v. destruct (int_at s d v Hd) as [(z & Hz & ->)|[Hn ->]]; [by exists z|done].
  - intros v w k k' Hk Hk'.
    destruct (int_at s d v Hd) as [(z & Hz & E)|[_ E]]; rewrite E in Hk; [|done].
    destruct (int_at s' d' w Hd') as [(z' & Hz' & E')|[_ E']]; rewrite E' in Hk'; [|done].
    simplify_eq. simpl. rewrite bool_decide_eq_true. split.
    + intros Eq%int_repr_inj. subst. eauto.
    + intros (x & Hx & Hx'). pose proof (single_fun _ _ _ _ Hz Hx). pose proof (single_fun _ _ _ _ Hz' Hx').
      congruence.
Qed.

Lemma value_ok_scalar t : t ∈ [TBool; TStr; TNull] -> value_ok (S n) t.
Proof.
  intros Ht s s' Hs Hs'. apply elem_of_cons in Ht as [->|[->|[->|[]%elem_of_nil]%elem_of_cons]%elem_of_cons];
    destruct Hs as (d & -> & _ & Hd), Hs' as (d' & -> & _ & Hd'); split.
  1, 3, 5: intros v; enter_kind Hd; destruct v; simpl; naive_solver.
  all: intros v w k k'; enter_kind Hd; rewrite (getitem_dget _ _ _ Hd'); cbn [rbind str_is]; eval_decides;
    destruct v; try done; destruct w; try done; intros; simplify_eq; simpl;
    rewrite ?eqb_true_iff, ?bool_decide_eq_true; naive_solver.
Qed.

Lemma elements_agree t s s' vs ws ks ls :
  (pty_depth t < n)%nat -> shape_is t s -> shape_is t s' ->
  traverse (_value_at n s) vs = Ok ks -> traverse (_value_at n s') ws = Ok ls ->
  Forall2 (fun v k => _value_at n s v = Ok k) vs ks /\ Forall2 (fun v k => _value_at n s' v = Ok k) ws ls /\
  (forall v w k l, _value_at n s v = Ok k -> _value_at n s' w = Ok l -> vkey_eqb k l = true <-> veq t v w).
Proof. intros Ht Hs Hs' Hk Hl. apply traverse_Ok in Hk, Hl. split_and!; [done|done|]. by apply (IH t Ht). Qed.

Lemma value_ok_seq t : (pty_depth t < n)%nat -> value_ok (S n) (TSeq t).
Proof.
  intros Ht s s' (d & e & (-> & _ & Hd) & He & Hs) (d' & e' & (-> & _ & Hd') & He' & Hs'). split.
  - intros v. enter_kind Hd. destruct v as [| | | | |vs|]; try (by split; [|intros (? & ? & _)]).
    cbn [rbind]. rewrite (getitem_dget _ _ _ He). cbn [rbind]. apply verdict_bind_pure.
    pose proof (traverse_verdict (_value_at n e) (vtyped t) vs ltac:(intros; by apply (IH t Ht e e))) as Hv.
    eapply verdict_proper; [|exact Hv]. simpl. naive_solver.
  - intros v w k k'. enter_kind Hd. rewrite (getitem_dget _ _ _ Hd'); cbn [rbind str_is]; eval_decides.
    destruct v as [| | | | |vs|]; try done; destruct w as [| | | | |ws|]; try done. cbn [rbind].
    rewrite (getitem_dget _ _ _ He), (getitem_dget _ _ _ He'). cbn [rbind].
    intros (ks & Hks & [= <-])%bind_Ok (ls & Hls & [= <-])%bind_Ok.
    destruct (elements_agree t e e' vs ws ks ls) as (Hf & Hg & Hag); try done.
    cbn [vkey_eqb]. rewrite vkey_list_eqb, (tuple_eq _ _ _ _ _ _ _ _ Hag Hf Hg). simpl. naive_solver.
Qed.

Lemma set_at s d e v : shape_kind s "set" ["element"] d -> dget "element" d = Some e ->
  (exists vs, single "#set" v (JArr vs) /\
     _value_at (S n) s v = (ks ← traverse (_value_at n e) vs; raise_if (dup_keys ks) (fail "VALUE") ;; Ok (KSet ks))) \/
  ((forall vs, ~ single "#set" v (JArr vs)) /\ _value_at (S n) s v = Err (fail "VALUE")).
Proof.
  intros (-> & _ & Hd) He. enter_kind Hd. rewrite (getitem_dget _ _ _ He). cbn [rbind]. apply marked_array.
Qed.

Lemma value_ok_set t : (pty_depth t < n)%nat -> value_ok (S n) (TSet t).
Proof.
  intros Ht s s' (d & e & Hd & He & Hs) (d' & e' & Hd' & He' & Hs'). split.
  - intros v. destruct (set_at s d e v Hd He) as [(vs & Hv & ->)|[Hn ->]].
    2:{ split; [done|]. intros (vs & Hvs & _). by apply Hn in Hvs. }
    assert (vtyped (TSet t) v <-> Forall (vtyped t) vs /\ ForallOrdPairs (fun a b => ~ veq t a b) vs) as ->.
    { simpl. split; [|eauto]. intros (vs' & Hv' & H). pose proof (single_fun _ _ _ _ Hv Hv') as [= <-]. done. }
    pose proof (traverse_verdict (_value_at n e) (vtyped t) vs ltac:(intros; by apply (IH t Ht e e))) as Hall.
    destruct (traverse (_value_at n e) vs) as [ks|x] eqn:Hks; simpl in *; [|naive_solver].
    destruct (elements_agree t e e vs vs ks ks) as (Hf & _ & Hag); try done.
    pose proof (dup_keys_spec _ _ _ _ Hag Hf) as Hdup.
    destruct (dup_keys ks); simpl; naive_solver.
  - intros v w k k' Hk Hk'.
    destruct (set_at s d e v Hd He) as [(vs & Hv & E)|[_ E]]; rewrite E in Hk; clear E; [|done].
    destruct (set_at s' d' e' w Hd' He') as [(ws & Hw & E)|[_ E]]; rewrite E in Hk'; clear E; [|done].
    inv_res. destruct (elements_agree t e e' vs ws _ _ Ht Hs Hs' ltac:(eassumption) ltac:(eassumption)) as (Hf & Hg & Hag).
    cbn [vkey_eqb]. rewrite (frozenset_eq _ _ _ _ _ _ _ _ Hag Hf Hg). simpl. split; [naive_solver|].
    intros (vs' & ws' & Hv' & Hw' & ?). pose proof (single_fun _ _ _ _ Hv Hv') as [= <-].
    pose proof (single_fun _ _ _ _ Hw Hw') as [= <-]. done.
Qed.

Lemma tuple_verdict ts es vs :
  Forall (fun t => pty_depth t < n)%nat ts -> all2 (fun t e => shape_is t e) ts es -> length vs = length es ->
  verdict (traverse (fun tv => _value_at n tv.1 tv.2) (zip es vs)) (all2 (fun t a => vtyped t a) ts vs).
Proof.
  intros Hd. revert es vs. induction Hd as [|t ts Ht _ IHt]; intros [|e es] [|v vs]; try done.
  intros [Hs Hss] [= Hlen]. simpl.
  pose proof (proj1 (IH t Ht e e Hs Hs) v) as Hv. pose proof (IHt es vs Hss Hlen) as Hvs.
  unfold verdict in *. destruct (_value_at n e v); simpl; [|naive_solver].
  destruct (traverse _ (zip es vs)); simpl; naive_solver.
Qed.

Lemma tuple_agree ts es es' vs ws ks ls :
  Forall (fun t => pty_depth t < n)%nat ts ->
  all2 (fun t e => shape_is t e) ts es -> all2 (fun t e => shape_is t e) ts es' ->
  length vs = length es -> length ws = length es' ->
  traverse (fun tv => _value_at n tv.1 tv.2) (zip es vs) = Ok ks ->
  traverse (fun tv => _value_at n tv.1 tv.2) (zip es' ws) = Ok ls ->
  Forall2 (fun x y => vkey_eqb x y = true) ks ls <-> all3 (fun t a b => veq t a b) ts vs ws.
Proof.
  intros Hd. revert es es' vs ws ks ls. induction Hd as [|t ts Ht _ IHt];
    intros [|e es] [|e' es'] [|v vs] [|w ws] ks ls; try done.
  - intros _ _ _ _ [= <-] [= <-]. done.
  - intros [Hs Hss] [Hs' Hss'] [= Hl] [= Hl']. simpl.
    intros (k & Hk & (ks' & Hks & [= <-])%bind_Ok)%bind_Ok (l & Hkl & (ls' & Hls & [= <-])%bind_Ok)%bind_Ok.
    rewrite list.Forall2_cons. rewrite (IHt es es' vs ws ks' ls') by done.
    rewrite (proj2 (IH t Ht e e' Hs Hs') v w k l Hk Hkl). done.
Qed.

Lemma tuple_at s d es v : shape_kind s "tuple" ["elements"] d -> dget "elements" d = Some (JArr es) ->
  (exists vs, single "#tup" v (JArr vs) /\
     _value_at (S n) s v = (raise_if (negb (Nat.eqb (length vs) (length es))) (fail "VALUE") ;;
       ks ← traverse (fun tv => _value_at n tv.1 tv.2) (zip es vs); Ok (KTup ks))) \/
  ((forall vs, ~ single "#tup" v (JArr vs)) /\ _value_at (S n) s v = Err (fail "VALUE")).
Proof.
  intros (-> & _ & Hd) He. enter_kind Hd. rewrite (getitem_dget _ _ _ He). cbn [rbind _list]. apply marked_array.
Qed.

Lemma value_ok_tuple ts : Forall (fun t => pty_depth t < n)%nat ts -> value_ok (S n) (TTuple ts).
Proof.
  intros Ht s s' (d & es & Hd & He & Hs) (d' & es' & Hd' & He' & Hs'). split.
  - intros v. destruct (tuple_at s d es v Hd He) as [(vs & Hv & ->)|[Hn ->]].
    2:{ split; [done|]. intros (vs & Hvs & _). by apply Hn in Hvs. }
    assert (vtyped (TTuple ts) v <-> all2 (fun t a => vtyped t a) ts vs) as ->.
    { simpl. split; [|eauto]. intros (vs' & Hv' & H). pose proof (single_fun _ _ _ _ Hv Hv') as [= <-]. done. }
    destruct (Nat.eqb_spec (length vs) (length es)) as [Hlen|Hlen]; simpl.
    + apply verdict_bind_pure. by apply tuple_verdict.
    + split; [done|]. rewrite all2_Forall2 in *. apply Forall2_length in Hs.
      intros Hl%Forall2_length. lia.
  - intros v w k k' Hk Hk'.
    destruct (tuple_at s d es v Hd He) as [(vs & Hv & E)|[_ E]]; rewrite E in Hk; clear E; [|done].
    destruct (tuple_at s' d' es' w Hd' He') as [(ws & Hw & E)|[_ E]]; rewrite E in Hk'; clear E; [|done].
    inv_res. bool_hyps. rewrite Nat.eqb_eq in *. cbn [vkey_eqb].
    rewrite vkey_list_eqb, (tuple_agree ts es es' vs ws) by done. simpl. split; [naive_solver|].
    intros (vs' & ws' & Hv' & Hw' & ?). pose proof (single_fun _ _ _ _ Hv Hv') as [= <-].
    pose proof (single_fun _ _ _ _ Hw Hw') as [= <-]. done.
Qed.

(** Map entries: the pairs in order, with keys not met before. *)
Lemma entries_cases check vs seen :
  (exists es ks, vs = map entry es /\ map_entries check vs seen = Ok ks /\
     Forall2 (fun e k => e.1 = k.1 /\ check e.2 = Ok k.2) es ks /\ NoDup es.*1 /\ Forall (fun e => e.1 ∉ seen) es) \/
  exists x, map_entries check vs seen = Err x /\
    (x = fail "VALUE" \/ exists v, check v = Err x) /\
    forall es, vs = map entry es -> NoDup es.*1 -> Forall (fun e => e.1 ∉ seen) es ->
      exists e, e ∈ es /\ check e.2 = Err x.
Proof.
  revert seen. induction vs as [|v vs IHv]; intros seen; simpl.
  { left. exists [], []. split_and!; try done; constructor. }
  assert ((exists k x, v = JArr [JStr k; x]) \/ (forall k x, v <> JArr [JStr k; x])) as [(k & x & ->)|Hno].
  { destruct v as [| | | | |[|[] [|? [|]]]|]; naive_solver. }
  2:{ right. exists (fail "VALUE"). split_and!; [|by left|].
      - destruct v as [| | | | |[|[] [|? [|]]]|]; try done. by destruct (Hno _ _ eq_refl).
      - intros [|[k x] es]; [done|]. intros [= ->]. by destruct (Hno k x). }
  case_bool_decide as Hin; simpl.
  { right. exists (fail "VALUE"). split_and!; [done|by left|].
    intros [|[k' x'] es]; [done|]. intros [= -> -> _] _ Hf. apply list.Forall_cons in Hf as [Hf _]. done. }
  destruct (check x) as [kx|err] eqn:Hc; simpl.
  2:{ right. exists err. split_and!; [done|eauto|].
      intros [|[k' x'] es]; [done|]. intros [= -> -> _] _ _. eexists. split; [by left|done]. }
  destruct (IHv (k :: seen)) as [(es & ks & -> & -> & Hf & Hnd & Hseen)|(err & -> & Hd & Hes)]; simpl.
  - left. exists ((k, x) :: es), ((k, kx) :: ks). split_and!; try done.
    + by constructor.
    + simpl. apply list.NoDup_cons. split; [|done]. intros (e & -> & He)%list_elem_of_fmap.
      rewrite list.Forall_forall in Hseen. apply (Hseen e He). by left.
    + constructor; [done|]. eapply Forall_impl; [|exact Hseen]. simpl. intros e He Hin'. apply He. by right.
  - right. exists err. split_and!; [done|done|].
    intros [|[k' x'] es]; [done|]. intros [= -> -> ->] Hnd Hs. simpl in Hnd. apply list.NoDup_cons in Hnd as [Hk Hnd].
    apply list.Forall_cons in Hs as [_ Hs].
    destruct (Hes es) as (e & He & Hce); [done|done| |exists e; split; [by right|done]].
    apply list.Forall_forall. intros e He. rewrite list.Forall_forall in Hs. specialize (Hs e He).
    rewrite not_elem_of_cons. split; [|done]. intros <-. apply Hk, list_elem_of_fmap. eauto.
Qed.

Lemma map_at s d t v : shape_kind s "map" ["key"; "value"] d -> dget "value" d = Some t ->
  (exists vs, single "#map" v (JArr vs) /\
     _value_at (S n) s v = (ks ← map_entries (_value_at n t) vs []; Ok (KMap ks))) \/
  ((forall vs, ~ single "#map" v (JArr vs)) /\ _value_at (S n) s v = Err (fail "VALUE")).
Proof.
  intros (-> & _ & Hd) He. enter_kind Hd. rewrite (getitem_dget _ _ _ He). cbn [rbind]. apply marked_array.
Qed.

Lemma entry_inj (es fs : list (pystr * json)) : map entry es = map entry fs -> es = fs.
Proof.
  revert fs. induction es as [|[k x] es IHe]; intros [|[k' x'] fs]; try done.
  intros [= -> -> E]. f_equal. auto.
Qed.

Lemma value_ok_map t : (pty_depth t < n)%nat -> value_ok (S n) (TMap t).
Proof.
  intros Ht s s' (d & e & Hd & _ & He & Hs) (d' & e' & Hd' & _ & He' & Hs'). split.
  - intros v. destruct (map_at s d e v Hd He) as [(vs & Hv & ->)|[Hn ->]].
    2:{ split; [done|]. intros (es & Hes & _). by apply Hn in Hes. }
    pose proof (fun x => proj1 (IH t Ht e e Hs Hs) x) as Hx. unfold verdict in Hx.
    destruct (entries_cases (_value_at n e) vs []) as [(es & ks & -> & -> & Hf & Hnd & _)|(err & -> & Herr & Hes)]; simpl.
    + exists es. split_and!; [done|done|]. clear - Hf Hx.
      induction Hf as [|a k es ks [_ Hk] _ IHf]; constructor; [|done]. specialize (Hx a.2). by rewrite Hk in Hx.
    + split.
      * destruct Herr as [->|[x Hc]]; [done|]. specialize (Hx x). rewrite Hc in Hx. by destruct Hx.
      * intros (es & Hs2 & Hnd & Hall). pose proof (single_fun _ _ _ _ Hv Hs2) as [= ->].
        destruct (Hes es) as (a & Ha & Hc); [done|done|apply list.Forall_forall; intros ? _ ?%elem_of_nil; done|].
        specialize (Hx a.2). rewrite Hc in Hx. rewrite list.Forall_forall in Hall. by apply Hx, Hall.
  - intros v w k k' Hk Hk'.
    destruct (map_at s d e v Hd He) as [(vs & Hv & E)|[_ E]]; rewrite E in Hk; clear E; [|done].
    destruct (map_at s' d' e' w Hd' He') as [(ws & Hw & E)|[_ E]]; rewrite E in Hk'; clear E; [|done].
    destruct (entries_cases (_value_at n e) vs []) as [(es & ks & -> & E & Hf & _)|(? & E & _)]; rewrite E in Hk; simplify_eq.
    destruct (entries_cases (_value_at n e') ws []) as [(fs & ls & -> & E' & Hg & _)|(? & E' & _)]; rewrite E' in Hk'; simplify_eq.
    injection Hk as <-. injection Hk' as <-. cbn [vkey_eqb].
    assert (forall (a b : pystr * json) (x y : pystr * vkey),
      (a.1 = x.1 /\ _value_at n e a.2 = Ok x.2) -> (b.1 = y.1 /\ _value_at n e' b.2 = Ok y.2) ->
      (fun x y => bool_decide (x.1 = y.1) && vkey_eqb x.2 y.2) x y = true <->
      (fun a b => a.1 = b.1 /\ veq t a.2 b.2) a b) as Hag.
    { intros a b x y [-> Ha] [-> Hb]. rewrite andb_true_iff, bool_decide_eq_true.
      by rewrite (proj2 (IH t Ht e e' Hs Hs') a.2 b.2 x.2 y.2 Ha Hb). }
    rewrite (frozenset_eq _ _ _ _ _ _ _ _ Hag Hf Hg).
    simpl. split; [naive_solver|]. intros (es' & fs' & Hv' & Hw' & ?).
    pose proof (single_fun _ _ _ _ Hv Hv') as [= ->%entry_inj].
    pose proof (single_fun _ _ _ _ Hw Hw') as [= ->%entry_inj]. done.
Qed.

(** Records: the loop over the declared fields. *)
Definition field_key (d : pydict) (item : json) : res (pystr * vkey) :=
  x ← getitem item "wireName"; t ← getitem item "type";
  match x with
  | JStr s => y ← getitem (JObj d) s; k ← _value_at n t y; Ok (s, k)
  | _ => Err TypeError
  end.

Lemma record_at s d items fs v : shape_kind s "record" ["fields"] d -> dget "fields" d = Some (JArr items) ->
  all2 (fun f item => exists j, labelled "wireName" "type" item f.1 j /\ shape_is f.2 j) fs items ->
  _value_at (S n) s v =
    (o ← _object v (Some fs.*1) "VALUE"; ks ← traverse (field_key o) items; Ok (KRec ks)).
Proof.
  intros (-> & _ & Hd) Hi Hl. enter_kind Hd. rewrite (getitem_dget _ _ _ Hi). cbn [rbind _list].
  match goal with |- rbind (traverse ?g items) _ = _ => assert (traverse g items = Ok fs.*1) as -> end; [|done].
  clear - Hl. revert fs Hl. induction items as [|item items IHi]; intros [|f fs]; try done.
  intros [(j & (di & -> & _ & Hn & _) & _) Hl]. cbn [traverse]. rewrite (getitem_dget _ _ _ Hn). cbn [rbind].
  by rewrite (IHi fs Hl).
Qed.

Lemma field_verdict f item o :
  (pty_depth f.2 < n)%nat -> (exists j, labelled "wireName" "type" item f.1 j /\ shape_is f.2 j) ->
  f.1 ∈ dkeys o ->
  verdict (field_key o item) (exists x, dget f.1 o = Some x /\ vtyped f.2 x).
Proof.
  intros Hd (j & (di & -> & _ & Hn & Ht) & Hj) [x Hx]%dget_elem. unfold field_key.
  rewrite (getitem_dget _ _ _ Hn), (getitem_dget _ _ _ Ht). cbn [rbind].
  rewrite (getitem_dget _ _ _ Hx). cbn [rbind]. rewrite Hx.
  pose proof (proj1 (IH f.2 Hd j j Hj Hj) x) as Hv.
  unfold verdict in *. destruct (_value_at n j x); simpl; naive_solver.
Qed.

Lemma fields_verdict fs items o :
  Forall (fun f => pty_depth f.2 < n)%nat fs ->
  all2 (fun f item => exists j, labelled "wireName" "type" item f.1 j /\ shape_is f.2 j) fs items ->
  Forall (fun f => f.1 ∈ dkeys o) fs ->
  verdict (traverse (field_key o) items) (all1 (fun f => exists x, dget f.1 o = Some x /\ vtyped f.2 x) fs).
Proof.
  intros Hd. revert items. induction Hd as [|f fs Hf _ IHf]; intros [|item items]; try done.
  intros [Hi Hl] [Ho Hos]%list.Forall_cons. simpl.
  pose proof (field_verdict f item o Hf Hi Ho) as H1. pose proof (IHf items Hl Hos) as H2.
  unfold verdict in *. destruct (field_key o item); simpl; [|naive_solver].
  destruct (traverse (field_key o) items); simpl; naive_solver.
Qed.

(** A field of a record value: its declaration, its value and its key. *)
Definition field_value (fs : list (pystr * pty)) (o : pydict) (v : pystr * pty * json) (k : pystr * vkey) : Prop :=
  v.1 ∈ fs /\ v.1.1 = k.1 /\ dget v.1.1 o = Some v.2 /\
  exists j, shape_is v.1.2 j /\ _value_at n j v.2 = Ok k.2.

Lemma fields_keys fs items o ks :
  all2 (fun f item => exists j, labelled "wireName" "type" item f.1 j /\ shape_is f.2 j) fs items ->
  traverse (field_key o) items = Ok ks ->
  exists vs, vs.*1 = fs /\ Forall2 (field_value fs o) vs ks.
Proof.
  intros Hl Hk. apply traverse_Ok in Hk.
  assert (forall fs0, fs ⊆ fs0 -> exists vs, vs.*1 = fs /\ Forall2 (field_value fs0 o) vs ks) as H; [|by apply H].
  revert fs Hl. induction Hk as [|item k items ks Hik _ IHk]; intros [|f fs] Hl fs0 Hsub; try done.
  { exists []. split; [done|constructor]. }
  destruct Hl as [(j & (di & -> & _ & Hn & Ht) & Hj) Hl].
  destruct (IHk fs Hl fs0 ltac:(set_solver)) as (vs & <- & Hvs).
  unfold field_key in Hik. rewrite (getitem_dget _ _ _ Hn), (getitem_dget _ _ _ Ht) in Hik. cbn [rbind] in Hik.
  inv_res. match goal with H : getitem _ _ = _ |- _ => apply getitem_Ok in H as (o' & [= <-] & Hx) end.
  match goal with H : _value_at n j ?x = Ok _ |- _ => exists ((f, x) :: vs) end.
  split; [done|]. constructor; [|done]. split_and!; [set_solver|done|done|eauto].
Qed.

Lemma field_unique {T} (fs : list (pystr * T)) f g : NoDup fs.*1 -> f ∈ fs -> g ∈ fs -> f.1 = g.1 -> f = g.
Proof.
  intros Hn Hf Hg E. apply list_elem_of_lookup in Hf as [i Hi], Hg as [j Hj].
  assert (i = j) as ->; [|congruence].
  eapply (NoDup_lookup fs.*1); [done| |]; rewrite list_lookup_fmap; [rewrite Hi|rewrite Hj]; simpl; by rewrite ?E.
Qed.

Lemma field_agree fs o o' v w k l :
  Forall (fun f => pty_depth f.2 < n)%nat fs -> NoDup fs.*1 ->
  field_value fs o v k -> field_value fs o' w l ->
  bool_decide (k.1 = l.1) && vkey_eqb k.2 l.2 = true <-> v.1.1 = w.1.1 /\ veq v.1.2 v.2 w.2.
Proof.
  intros Hd Hn (Hv & <- & _ & j & Hj & Hk) (Hw & <- & _ & j' & Hj' & Hl).
  rewrite andb_true_iff, bool_decide_eq_true.
  split; (intros [E H]; split; [done|]); pose proof (field_unique fs _ _ Hn Hv Hw E) as E';
    rewrite <- E' in Hj'; rewrite list.Forall_forall in Hd;
    by apply (proj2 (IH v.1.2 (Hd _ Hv) j j' Hj Hj') v.2 w.2 k.2 l.2 Hk Hl).
Qed.

Lemma fields_agree fs o o' vs ws ks ls :
  Forall (fun f => pty_depth f.2 < n)%nat fs -> NoDup fs.*1 ->
  vs.*1 = fs -> ws.*1 = fs -> Forall2 (field_value fs o) vs ks -> Forall2 (field_value fs o') ws ls ->
  vkey_eqb (KRec ks) (KRec ls) = true <->
  all1 (fun f => exists x y, dget f.1 o = Some x /\ dget f.1 o' = Some y /\ veq f.2 x y) fs.
Proof.
  intros Hd Hn Hvs Hws Hf Hg. cbn [vkey_eqb].
  rewrite (frozenset_eq (fun x y => bool_decide (x.1 = y.1) && vkey_eqb x.2 y.2) _ _ _ _ _ _ _
             (fun v w k l => field_agree fs o o' v w k l Hd Hn) Hf Hg).
  rewrite all1_Forall, list.Forall_forall.
  assert (forall o vs ks, Forall2 (field_value fs o) vs ks ->
            forall a, a ∈ vs -> a.1 ∈ fs /\ dget a.1.1 o = Some a.2) as Hval.
  { clear. intros o vs ks H a Ha. apply list_elem_of_lookup in Ha as [i Hi].
    eapply Forall2_lookup_l in H as (k & _ & H); [|done]. destruct H as (? & _ & ? & _). done. }
  assert (forall vs : list (pystr * pty * json), vs.*1 = fs -> forall f, f ∈ fs -> exists x, (f, x) ∈ vs) as Hex.
  { clear. intros vs <- f ([f' x] & -> & Hx)%list_elem_of_fmap. eauto. }
  split.
  - intros [H1 _] f Hin. destruct (Hex vs Hvs f Hin) as [x Hx]. destruct (H1 _ Hx) as ([g y] & Hb & HE & HR).
    destruct (Hval _ _ _ Hf _ Hx) as [_ ?], (Hval _ _ _ Hg _ Hb) as [Hgf ?]. simpl in *.
    pose proof (field_unique fs _ _ Hn Hin Hgf HE) as <-. eauto.
  - intros H. split.
    + intros [f x] Ha. destruct (Hval _ _ _ Hf _ Ha) as [Hin Hx]. simpl in *.
      destruct (H f Hin) as (x' & y & Hx' & Hy & HR). destruct (Hex ws Hws f Hin) as [y' Hb].
      destruct (Hval _ _ _ Hg _ Hb) as [_ Hy']. simpl in *. exists (f, y'). simplify_eq. done.
    + intros [f y] Hb. destruct (Hval _ _ _ Hg _ Hb) as [Hin Hy]. simpl in *.
      destruct (H f Hin) as (x & y' & Hx & Hy' & HR). destruct (Hex vs Hvs f Hin) as [x' Ha].
      destruct (Hval _ _ _ Hf _ Ha) as [_ Hx']. simpl in *. exists (f, x'). simplify_eq. done.
Qed.

Lemma value_ok_record fs : Forall (fun f => pty_depth f.2 < n)%nat fs -> value_ok (S n) (TRecord fs).
Proof.
  intros Ht s s' (d & items & Hd & Hi & Hn & _ & Hl) (d' & items' & Hd' & Hi' & _ & _ & Hl'). split.
  - intros v. rewrite (record_at s d items fs v Hd Hi Hl).
    destruct (_object v (Some fs.*1) "VALUE") as [o|e] eqn:E; cbn [rbind].
    + apply _object_Ok in E as [-> Hc].
      assert (vtyped (TRecord fs) (JObj o) <-> all1 (fun f => exists x, dget f.1 o = Some x /\ vtyped f.2 x) fs) as ->.
      { simpl. split; [|eauto]. intros (? & [= <-] & _ & ?). done. }
      apply verdict_bind_pure, fields_verdict; [done|done|].
      apply list.Forall_forall. intros f Hf. apply Hc. apply list_elem_of_fmap. eauto.
    + pose proof (_object_VALUE _ _ _ E) as ->. split; [done|]. intros (o & -> & Hc & _).
      by rewrite (closed_object _ _ _ o eq_refl Hc) in E.
  - intros v w k k'. rewrite (record_at s d items fs v Hd Hi Hl), (record_at s' d' items' fs w Hd' Hi' Hl').
    intros Hk Hk'. inv_res. open_checks.
    match goal with H : traverse (field_key ?o) items = _ |- _ => rename o into o1;
      apply (fields_keys fs) in H as (vs & Hvs & Hf); [|done] end.
    match goal with H : traverse (field_key ?o) items' = _ |- _ => rename o into o2;
      apply (fields_keys fs) in H as (ws & Hws & Hg); [|done] end.
    rewrite (fields_agree fs o1 o2 vs ws) by done. simpl. naive_solver.
Qed.

(** Variants: the first case with the tag, and the tags are distinct. *)
Lemma some_case (P : pty -> Prop) tag (cs : list (pystr * pty)) :
  (fix go cs := match cs with
     | [] => False
     | c :: cs' => (c.1 = tag /\ P c.2) \/ go cs'
     end) cs <-> exists c, c ∈ cs /\ c.1 = tag /\ P c.2.
Proof.
  induction cs as [|c cs IHc]; [split; [done|intros (? & ?%elem_of_nil & _); done]|].
  rewrite IHc. setoid_rewrite elem_of_cons. naive_solver.
Qed.

Lemma find_case_cases cs cases tag payload :
  all2 (fun c item => exists j, labelled "tag" "payload" item c.1 j /\ shape_is c.2 j) cs cases ->
  (exists c j, c ∈ cs /\ tag = JStr c.1 /\ shape_is c.2 j /\
     find_case (_value_at n) tag payload cases = (k ← _value_at n j payload; Ok (KVar c.1 k))) \/
  ((forall c, c ∈ cs -> tag <> JStr c.1) /\ find_case (_value_at n) tag payload cases = Err (fail "VALUE")).
Proof.
  revert cases. induction cs as [|c cs IHc]; intros [|item cases]; try done.
  { intros _. right. split; [by intros ? ?%elem_of_nil|done]. }
  intros [(j & (di & -> & _ & Hn & Ht) & Hj) Hl]. cbn [find_case].
  rewrite (getitem_dget _ _ _ Hn). cbn [rbind].
  destruct (py_eqb tag (JStr c.1)) eqn:E.
  - left. exists c, j. assert (tag = JStr c.1) as ->.
    { destruct tag; try done. simpl in E. apply bool_decide_eq_true in E. by rewrite E. }
    rewrite (getitem_dget _ _ _ Ht). cbn [rbind]. split_and!; [by left|done|done|done].
  - destruct (IHc cases Hl) as [(c' & j' & Hc & -> & Hj' & ->)|[Hno ->]].
    + left. exists c', j'. split_and!; [by right|done|done|done].
    + right. split; [|done]. intros c' [->|Hc]%elem_of_cons; [|by apply Hno].
      intros ->. simpl in E. by rewrite bool_decide_eq_true_2 in E.
Qed.

Lemma variant_at s d cases cs v : shape_kind s "variant" ["cases"] d -> dget "cases" d = Some (JArr cases) ->
  all2 (fun c item => exists j, labelled "tag" "payload" item c.1 j /\ shape_is c.2 j) cs cases ->
  (exists c j x, c ∈ cs /\ variant_value v c.1 x /\ shape_is c.2 j /\
     _value_at (S n) s v = (k ← _value_at n j x; Ok (KVar c.1 k))) \/
  ((forall c x, c ∈ cs -> ~ variant_value v c.1 x) /\ _value_at (S n) s v = Err (fail "VALUE")).
Proof.
  intros (-> & _ & Hd) Hi Hl. enter_kind Hd.
  destruct (_object v (Some (strs ["tag"; "value"])) "VALUE") as [o|e] eqn:E; cbn [rbind].
  - apply _object_Ok in E as [-> Hc].
    destruct (closed_dget o _ "tag" Hc) as [tag Htag]; [set_solver|].
    destruct (closed_dget o _ "value" Hc) as [x Hx]; [set_solver|].
    rewrite (getitem_dget _ _ _ Htag), (getitem_dget _ _ _ Hx). cbn [rbind].
    rewrite (getitem_dget _ _ _ Hi). cbn [rbind _list].
    destruct (find_case_cases cs cases tag x Hl) as [(c & j & Hin & -> & Hj & ->)|[Hno ->]].
    + left. exists c, j, x. split_and!; [done|by exists o|done|done].
    + right. split; [|done]. intros c y Hin (o' & [= <-] & _ & Ht & _). apply (Hno c Hin). congruence.
  - right. pose proof (_object_VALUE _ _ _ E) as ->. split; [|done]. intros c x _ (o & -> & Hc & _).
    by rewrite (closed_object _ _ _ o eq_refl Hc) in E.
Qed.

Lemma variant_fun v tag tag' x y : variant_value v tag x -> variant_value v tag' y -> tag = tag' /\ x = y.
Proof. intros (o & -> & _ & H1 & H2) (o' & [= <-] & _ & H3 & H4). naive_solver. Qed.

Lemma value_ok_variant cs : Forall (fun c => pty_depth c.2 < n)%nat cs -> value_ok (S n) (TVariant cs).
Proof.
  intros Ht s s' (d & items & Hd & Hi & _ & Hn & _ & Hl) (d' & items' & Hd' & Hi' & _ & _ & _ & Hl').
  rewrite list.Forall_forall in Ht. split.
  - intros v. assert (vtyped (TVariant cs) v <->
      exists tag x, variant_value v tag x /\ exists c, c ∈ cs /\ c.1 = tag /\ vtyped c.2 x) as ->.
    { cbn [vtyped]. by setoid_rewrite (some_case (fun t => vtyped t _)). }
    destruct (variant_at s d items cs v Hd Hi Hl) as [(c & j & x & Hin & Hv & Hj & ->)|[Hno ->]].
    + apply verdict_bind_pure. pose proof (proj1 (IH c.2 (Ht _ Hin) j j Hj Hj) x) as Hx.
      eapply verdict_proper; [|exact Hx]. split; [|eauto 10].
      intros (tag & y & Hy & c' & Hin' & <- & Hty). destruct (variant_fun _ _ _ _ _ Hv Hy) as [E ->].
      by rewrite (field_unique cs c c' Hn Hin Hin' E).
    + split; [done|]. intros (tag & x & Hx & c & Hin & <- & _). by apply (Hno c x Hin).
  - intros v w k k' Hk Hk'.
    assert (veq (TVariant cs) v w <-> exists tag x y, variant_value v tag x /\ variant_value w tag y /\
      exists c, c ∈ cs /\ c.1 = tag /\ veq c.2 x y) as ->.
    { cbn [veq]. by setoid_rewrite (some_case (fun t => veq t _ _)). }
    destruct (variant_at s d items cs v Hd Hi Hl) as [(c & j & x & Hin & Hv & Hj & E)|[_ E]]; rewrite E in Hk; clear E; [|done].
    destruct (variant_at s' d' items' cs w Hd' Hi' Hl') as [(c' & j' & y & Hin' & Hw & Hj' & E)|[_ E]]; rewrite E in Hk'; clear E; [|done].
    inv_res. cbn [vkey_eqb]. rewrite andb_true_iff, bool_decide_eq_true. split.
    + intros [E Hkk]. pose proof (field_unique cs c c' Hn Hin Hin' E) as <-.
      exists c.1, x, y. split_and!; [done|done|]. exists c. split_and!; [done|done|].
      eapply (proj2 (IH c.2 (Ht _ Hin) j j' Hj Hj')); done.
    + intros (tag & x' & y' & Hx & Hy & c2 & Hin2 & <- & HR).
      destruct (variant_fun _ _ _ _ _ Hv Hx) as [E1 ->], (variant_fun _ _ _ _ _ Hw Hy) as [E2 ->].
      pose proof (field_unique cs _ _ Hn Hin Hin2 E1) as <-. pose proof (field_unique cs _ _ Hn Hin' Hin E2) as ->.
      split; [done|]. eapply (proj2 (IH c.2 (Ht _ Hin) j j' Hj Hj')); done.
Qed.
End Values.

Lemma value_ok_all n t : (pty_depth t < n)%nat -> value_ok n t.
Proof.
  revert t. induction n as [|n IH]; intros t Ht; [lia|].
  destruct t as [| | | |t|t|ts|fs|t|cs]; simpl in Ht.
  - by apply value_ok_int.
  - apply value_ok_scalar. set_solver.
  - apply value_ok_scalar. set_solver.
  - apply value_ok_scalar. set_solver.
  - apply value_ok_set; [done|lia].
  - apply value_ok_seq; [done|lia].
  - apply value_ok_tuple; [done|]. by apply maxl_map_lt.
  - apply value_ok_record; [done|]. by apply maxl_map_lt.
  - apply value_ok_map; [done|lia].
  - apply value_ok_variant; [done|]. by apply maxl_map_lt.
Qed.

(** C6: [validate_value] accepts a value exactly when the shape writes a type
    nested at most 32 deep, the value inhabits that type (set members pairwise
    different, map keys distinct, integers canonical, records closed), and both
    are within the JSON budget. *)
Theorem validate_value_spec (s v w : json) :
  validate_value s v = Ok w <->
  w = v /\ bounded s /\ bounded v /\
  exists t, shape_is t s /\ (pty_depth t <= MAX_TYPE_DEPTH)%nat /\ vtyped t v.
Proof.
  unfold validate_value, validate_type, _type, _value. split.
  - intros H. inv_res. match goal with H : _type_at _ _ = _ |- _ => apply type_at_refines in H as (t & Ht & Hd) end.
    split_and!; [done|by apply json_bounds_bounded|by apply json_bounds_bounded|].
    exists t. split_and!; [done|lia|].
    match goal with H : _value_at _ ?s ?v = _ |- _ =>
      pose proof (proj1 (value_ok_all (S MAX_VALUE_DEPTH) t Hd s s Ht Ht) v) as Hv; by rewrite H in Hv end.
  - intros (-> & Hs & Hv & t & Ht & Hd & Hty).
    rewrite (proj2 (json_bounds_bounded _) Hs). cbn [rbind].
    rewrite (proj2 (type_at_refines _ _)) by (exists t; split; [done|lia]). cbn [rbind].
    rewrite (proj2 (json_bounds_bounded _) Hv). cbn [rbind].
    pose proof (proj1 (value_ok_all (S MAX_VALUE_DEPTH) t ltac:(unfold MAX_TYPE_DEPTH, MAX_VALUE_DEPTH in *; lia) s s Ht Ht) v) as H.
    destruct (_value_at _ s v); [done|]. by destruct H.
Qed.

(** C30: the hashable key that [_value] returns identifies the value: whatever
    shapes of the same type two values are checked against, their keys are
    equal exactly when they are the same value (sets and maps up to order,
    integers by value), so duplicate detection is semantic. *)
Theorem value_key_semantic (t : pty) (s s' v w : json) (k k' : vkey) :
  shape_is t s -> shape_is t s' -> (pty_depth t <= MAX_VALUE_DEPTH)%nat ->
  _value s v = Ok k -> _value s' w = Ok k' ->
  vkey_eqb k k' = true <-> veq t v w.
Proof. intros Hs Hs' Hd. by apply (value_ok_all (S MAX_VALUE_DEPTH) t ltac:(lia) s s'). Qed.

(** ** Interfaces *)

(** A list of declarations [{"id": name, "type": shape}]. *)
Definition typed_items (items : list json) (ts : list (pystr * pty)) : Prop :=
  all2 (fun f item => exists j, labelled "id" "type" item f.1 j /\ shape_is f.2 j) ts items /\
  NoDup ts.*1 /\ Forall (fun f => match_identifier f.1 = true /\ (pty_depth f.2 <= MAX_TYPE_DEPTH)%nat) ts.

Lemma typed_id_Ok item :
  _typed_id item = Ok tt <-> exists f : pystr * pty,
    (exists j, labelled "id" "type" item f.1 j /\ shape_is f.2 j) /\
    match_identifier f.1 = true /\ (pty_depth f.2 <= MAX_TYPE_DEPTH)%nat.
Proof.
  unfold _typed_id. rewrite bind_Ok. setoid_rewrite bind_Ok. setoid_rewrite bind_Ok. setoid_rewrite bind_Ok.
  setoid_rewrite _object_Ok. setoid_rewrite getitem_Ok. unfold labelled. split.
  - intros (d & [-> Hc] & x & (d1 & [= <-] & Hx) & [] & Hs & t & (d2 & [= <-] & Ht) & Hty).
    apply _identifier_Ok in Hs as (s & -> & Hl). apply type_at_refines in Hty as (ty & Hs & Hd).
    exists (s, ty). simpl. split_and!; [|done|lia]. exists t. split; [|done]. by exists d.
  - intros ([s ty] & (j & (d & -> & Hc & Hn & Ht) & Hs) & Hi & Hd). simpl in *.
    exists d. split; [done|]. exists (JStr s). split; [eauto|]. exists tt.
    split; [apply _identifier_Ok; eauto|]. exists j. split; [eauto|]. apply type_at_refines. exists ty. split; [done|lia].
Qed.

Lemma typed_items_Ok items :
  (for_each _typed_id items ;; _unique items "id") = Ok tt <-> exists ts, typed_items items ts.
Proof.
  rewrite then_unit, for_each_Ok. setoid_rewrite typed_id_Ok.
  rewrite (Forall_exists_all2 (fun (f : pystr * pty) item =>
    (exists j, labelled "id" "type" item f.1 j /\ shape_is f.2 j) /\
    match_identifier f.1 = true /\ (pty_depth f.2 <= MAX_TYPE_DEPTH)%nat)).
  unfold typed_items. split.
  - intros [[ts H] Hu]. rewrite all2_and in H. destruct H as [H Hf].
    exists ts. split_and!; [done| |done]. by apply (_unique_labels "id" "type" shape_is ts items).
  - intros (ts & H & Hn & Hf). split; [exists ts; by rewrite all2_and|].
    by apply (_unique_labels "id" "type" shape_is ts items).
Qed.

(** The closed-field check and the loop over the declarations accept exactly
    the records of the declared type. *)
Lemma check_fields_verdict items ts values :
  typed_items items ts -> verdict (check_fields items values) (vtyped (TRecord ts) values).
Proof.
  intros (Hl & Hn & Hf). unfold check_fields.
  match goal with |- context [rbind (traverse ?g items)] => assert (traverse g items = Ok ts.*1) as -> end.
  { clear - Hl. revert ts Hl. induction items as [|item items IHi]; intros [|f fs]; try done.
    intros [(j & (di & -> & _ & Hn & _) & _) Hl]. cbn [traverse]. rewrite (getitem_dget _ _ _ Hn). cbn [rbind].
    by rewrite (IHi fs Hl). }
  cbn [rbind]. destruct (_object values (Some ts.*1) "VALUE") as [o|e] eqn:E; cbn [rbind].
  2:{ pose proof (_object_VALUE _ _ _ E) as ->. split; [done|]. intros (o & -> & Hc & _).
      by rewrite (closed_object _ _ _ o eq_refl Hc) in E. }
  apply _object_Ok in E as [-> Hc]. apply verdict_bind_pure.
  assert (vtyped (TRecord ts) (JObj o) <-> all1 (fun f => exists x, dget f.1 o = Some x /\ vtyped f.2 x) ts) as ->.
  { simpl. split; [|eauto]. intros (? & [= <-] & _ & ?). done. }
  assert (Forall (fun f => f.1 ∈ dkeys o) ts) as Hk.
  { apply list.Forall_forall. intros f Hin. apply Hc, list_elem_of_fmap. eauto. }
  clear Hc Hn. revert items Hl Hf Hk. induction ts as [|f ts IHt]; intros [|item items]; try done.
  intros [(j & (di & -> & _ & Hn & Ht) & Hj) Hl] [[_ Hd] Hf]%list.Forall_cons [[x Hx]%dget_elem Hk]%list.Forall_cons.
  cbn [for_each]. rewrite (getitem_dget _ _ _ Hn), (getitem_dget _ _ _ Ht). cbn [rbind].
  rewrite (getitem_dget _ _ _ Hx). cbn [rbind all1]. rewrite Hx.
  pose proof (proj1 (value_ok_all (S MAX_VALUE_DEPTH) f.2 ltac:(unfold MAX_TYPE_DEPTH, MAX_VALUE_DEPTH in *; lia) j j Hj Hj) x) as Hv.
  pose proof (IHt items Hl Hf Hk) as Hrest. fold (_value j x) in Hv.
  unfold verdict in *. destruct (_value j x); simpl; [|naive_solver].
  destruct (for_each _ items); naive_solver.
Qed.

(** What a public manifest promises: operations with typed inputs, and typed
    observations. *)
Record interface : Type := Interface {
  operations : list (pystr * list (pystr * pty));
  observed : list (pystr * pty) }.

(** A list of declarations [{"id": name, "inputs": declarations}]. *)
Definition declared_operation (op : pystr * list (pystr * pty)) (item : json) : Prop :=
  exists d ins, item = JObj d /\ closed d (strs ["id"; "inputs"]) /\ dget "id" d = Some (JStr op.1) /\
    match_identifier op.1 = true /\ dget "inputs" d = Some (JArr ins) /\ typed_items ins op.2.

Definition declares (m : json) (i : interface) : Prop :=
  exists d ini act obs, m = JObj d /\
    dget "initializers" d = Some (JArr ini) /\ dget "actions" d = Some (JArr act) /\
    dget "observations" d = Some (JArr obs) /\ ini <> [] /\ obs <> [] /\
    all2 declared_operation (operations i) (ini ++ act) /\ NoDup (operations i).*1 /\
    typed_items obs (observed i).

Lemma manifest_action_Ok item : _manifest_action item = Ok tt <-> exists op, declared_operation op item.
Proof.
  unfold _manifest_action. split.
  - intros H. inv_res. open_checks.
    match goal with H : (for_each _typed_id _ = _), H' : _unique _ _ = _ |- _ =>
      destruct (proj1 (typed_items_Ok _) (proj2 (then_unit _ _) (conj H H'))) as [ts Hts] end.
    match goal with H : _array _ _ = _ |- _ => apply _array_Ok in H as [-> _] end.
    match goal with H : match_identifier ?s = true |- _ => exists (s, ts) end. by eexists _, _.
  - intros ([s ts] & d & ins & -> & Hc & Hid & Hi & Hins & Hts). cbn [fst snd] in Hid, Hi, Hts.
    rewrite (closed_object _ _ _ d) by done. cbn [rbind].
    rewrite (getitem_dget _ _ _ Hid), (getitem_dget _ _ _ Hins). cbn [rbind].
    rewrite (proj2 (_identifier_Ok _)) by eauto. cbn [rbind].
    rewrite (proj2 (_array_Ok _ _ ins)) by done. cbn [rbind]. apply typed_items_Ok. eauto.
Qed.

Lemma operations_unique ops items :
  all2 declared_operation ops items -> _unique items "id" = Ok tt <-> NoDup ops.*1.
Proof.
  intros Hl. unfold _unique.
  assert (traverse (fun item => getitem item "id") items = Ok (JStr <$> ops.*1)) as ->.
  { revert ops Hl. induction items as [|item items IH]; intros [|f fs] Hl; try done.
    destruct Hl as [(d & ins & -> & _ & Hn & _) Hl]. cbn [traverse]. rewrite (getitem_dget _ _ _ Hn). cbn [rbind].
    by rewrite (IH fs Hl). }
  cbn [rbind]. rewrite raise_if_Ok, has_dup_false. split; [apply NoDup_fmap_1|].
  intros ?. apply NoDup_fmap_2; [|done]. intros ? ? [= ->]. done.
Qed.

Lemma validate_manifest_declares m m' : validate_manifest m = Ok m' -> m' = m /\ bounded m /\ exists i, declares m i.
Proof.
  unfold validate_manifest. intros H. inv_res. open_checks.
  repeat match goal with H : _array _ _ = _ |- _ => apply _array_Ok in H as [-> ?] end.
  split_and!; [done|by apply json_bounds_bounded|].
  match goal with H : (for_each _typed_id _ = _), H' : _unique _ _ = _ |- _ =>
    destruct (proj1 (typed_items_Ok _) (proj2 (then_unit _ _) (conj H H'))) as [ts Hts] end.
  match goal with H : for_each _manifest_action _ = _ |- _ => apply for_each_Ok in H;
    setoid_rewrite manifest_action_Ok in H; apply Forall_exists_all2 in H as [ops Hops] end.
  exists (Interface ops ts). eexists _, _, _, _. split_and!; eauto; simpl.
  by apply (operations_unique _ _ Hops).
Qed.

Lemma observations_verdict m i values :
  declares m i -> bounded values -> verdict (validate_observations m values) (vtyped (TRecord (observed i)) values).
Proof.
  intros (d & ini & act & obs & -> & _ & _ & Ho & _ & _ & _ & _ & Hobs) Hb. unfold validate_observations.
  rewrite (proj2 (json_bounds_bounded _) Hb). cbn [rbind]. rewrite (getitem_dget _ _ _ Ho). cbn [rbind _list].
  by apply check_fields_verdict.
Qed.

Lemma find_operation_cases ops items action :
  all2 declared_operation ops items ->
  (exists ts item, (action, ts) ∈ ops /\ declared_operation (action, ts) item /\
     find_operation items action = Ok item) \/
  ((forall ts, (action, ts) ∉ ops) /\ find_operation items action = Err (fail "VALUE")).
Proof.
  revert items. induction ops as [|[a ts] ops IH]; intros [|item items]; try done.
  { intros _. right. split; [by intros ? ?%elem_of_nil|done]. }
  intros [Hop Hl]. pose proof Hop as (d & ins & -> & _ & Hid & _). cbn [find_operation].
  rewrite (getitem_dget _ _ _ Hid). cbn [rbind str_is]. case_bool_decide as E; simpl in E.
  - subst. left. exists ts, (JObj d). split_and!; [by left|done|done].
  - destruct (IH items Hl) as [(ts' & item' & Hin & Hd & ->)|[Hno ->]].
    + left. exists ts', item'. split_and!; [by right|done|done].
    + right. split; [|done]. intros ts' [[= -> ->]|Hin]%elem_of_cons; [done|by apply (Hno ts')].
Qed.

(** After a manifest has been validated, an action's inputs are accepted
    exactly when the manifest declares the action and the inputs are a closed
    record of the declared types. *)
Theorem validate_inputs_spec (m m' : json) :
  validate_manifest m = Ok m' ->
  exists i, declares m i /\ forall action inputs w,
    validate_inputs m action inputs = Ok w <->
    w = inputs /\ bounded inputs /\
    exists ts, (action, ts) ∈ operations i /\ vtyped (TRecord ts) inputs.
Proof.
  intros (-> & _ & i & Hi)%validate_manifest_declares. exists i. split; [done|]. intros action inputs w.
  destruct Hi as (d & ini & act & obs & -> & Hini & Hact & _ & _ & _ & Hops & Hnd & _).
  unfold validate_inputs, operation. rewrite (getitem_dget _ _ _ Hini), (getitem_dget _ _ _ Hact). cbn [rbind _list].
  destruct (find_operation_cases _ _ action Hops) as [(ts & item & Hin & Hop & ->)|[Hno ->]]; cbn [rbind].
  2:{ split; [done|]. intros (_ & _ & ts & Hin & _). by destruct (Hno ts). }
  destruct Hop as (di & ins & -> & _ & _ & _ & Hins & Hts). rewrite (getitem_dget _ _ _ Hins). cbn [rbind _list].
  pose proof (check_fields_verdict ins ts inputs Hts) as Hv. split.
  - intros H. inv_res. assert (w = inputs) as -> by (unfold check_fields in *; by inv_res).
    split_and!; [done|by apply json_bounds_bounded|]. exists ts. split; [done|].
    match goal with H : check_fields _ _ = _ |- _ => by rewrite H in Hv end.
  - intros (-> & Hb & ts' & Hin' & Hty). rewrite (proj2 (json_bounds_bounded _) Hb). cbn [rbind].
    pose proof (field_unique _ _ _ Hnd Hin Hin' eq_refl) as [= <-].
    destruct (check_fields ins inputs) eqn:E; [|by destruct Hv]. unfold check_fields in E. by inv_res.
Qed.

(** ** Correlated results *)

Lemma bounded_field d k x : bounded (JObj d) -> dget k d = Some x -> bounded x.
Proof.
  unfold bounded, within_bounds. intros (Hd & Hn & Hf) Hx.
  assert (x ∈ children (JObj d)) as Hin.
  { simpl. apply list_elem_of_fmap. exists (k, x). split; [done|]. by apply dget_Some_in. }
  rewrite subvalues_children in Hn, Hf. apply list.Forall_cons in Hf as [_ Hf].
  assert (exists l1 l2, children (JObj d) = l1 ++ x :: l2) as (l1 & l2 & E) by (by apply list_elem_of_split).
  rewrite E in Hn, Hf. rewrite flat_map_app in Hn, Hf. simpl in Hn, Hf.
  apply Forall_app in Hf as [_ [Hf _]%Forall_app]. split_and!; [| |done].
  - apply json_depth_le in Hd; [|by vm_compute]. rewrite list.Forall_forall in Hd. specialize (Hd x Hin).
    simpl in Hd. lia.
  - unfold zlen in *. simpl in Hn. rewrite !length_app in Hn. lia.
Qed.

(** What a correlated answer to the request [q] may be, and what
    [validate_result] returns for it. *)
Definition result_ok (i : interface) (q : request) (result : json) : Prop :=
  match q with
  | Hello digest runtime => exists o, result = JObj o /\ closed o (strs ["interfaceDigest"; "runtime"]) /\
      dget "interfaceDigest" o = Some (JStr digest) /\ dget "runtime" o = Some (JStr runtime)
  | Observe => vtyped (TRecord (observed i)) result
  | _ => result = JNull
  end.

Lemma py_eqb_str v s : py_eqb v (JStr s) = true <-> v = JStr s.
Proof. destruct v; simpl; try done. rewrite bool_decide_eq_true. split; congruence. Qed.

(** The checks on a success result, by request. *)
Lemma result_checks i m d d' id q result :
  declares m i -> denotes_request d id q -> bounded (JObj d') -> dget "result" d' = Some result ->
  (if str_is (JStr (op_name q)) "hello" then
     r ← _object result (Some (strs ["interfaceDigest"; "runtime"])) "SCHEMA";
     a ← getitem result "interfaceDigest"; b ← getitem (JObj d) "interfaceDigest";
     c ← getitem result "runtime"; e ← getitem (JObj d) "runtime";
     raise_if (negb (py_eqb a b) || negb (py_eqb c e)) (fail "HANDSHAKE")
   else if str_is (JStr (op_name q)) "observe" then validate_observations m result ;; Ok tt
   else raise_if (negb (is_none result)) (fail "SCHEMA")) = Ok tt <-> result_ok i q result.
Proof.
  intros Hi (Hc & Hv & Hid & Hr & Hop & Hx) Hb Hres.
  assert (raise_if (negb (is_none result)) (fail "SCHEMA") = Ok tt <-> result = JNull) as Hnull.
  { rewrite raise_if_Ok. destruct result; simpl; split; congruence. }
  destruct q as [dg rt| |a ins| | |t]; cbn [op_name str_is result_ok]; eval_decides; try exact Hnull.
  - destruct Hx as (H1 & _ & H2 & _). rewrite (getitem_dget _ _ _ H1), (getitem_dget _ _ _ H2). cbn [rbind].
    split.
    + intros H. inv_res. open_checks. bool_hyps. rewrite py_eqb_str in *. subst. eauto 10.
    + intros (o & -> & Hco & Ha & Hr'). rewrite (closed_object _ _ _ o) by done. cbn [rbind].
      rewrite (getitem_dget _ _ _ Ha), (getitem_dget _ _ _ Hr'). cbn [rbind].
      by rewrite (proj2 (py_eqb_str _ _) eq_refl), (proj2 (py_eqb_str _ _) eq_refl).
  - pose proof (observations_verdict m i result Hi (bounded_field _ _ _ Hb Hres)) as Hv'.
    destruct (validate_observations m result); simpl; [done|]. split; [done|]. intros. by destruct Hv'.
Qed.

(** [validate_result] after the two envelopes have been admitted. *)
Definition result_after (request response manifest : json) : res json :=
  i ← getitem response "id"; j ← getitem request "id";
  raise_if (negb (py_eqb i j)) (fail "SCHEMA") ;;
  ok ← getitem response "ok";
  if bool_decide (ok = JBool false) then getitem response "error"
  else
    result ← getitem response "result";
    op ← getitem request "op";
    (if str_is op "hello" then
       r ← _object result (Some (strs ["interfaceDigest"; "runtime"])) "SCHEMA";
       a ← getitem result "interfaceDigest"; b ← getitem request "interfaceDigest";
       c ← getitem result "runtime"; e ← getitem request "runtime";
       raise_if (negb (py_eqb a b) || negb (py_eqb c e)) (fail "HANDSHAKE")
     else if str_is op "observe" then validate_observations manifest result ;; Ok tt
     else raise_if (negb (is_none result)) (fail "SCHEMA")) ;;
    Ok result.

Lemma validate_result_admits req resp m r :
  validate_result req resp m = Ok r <->
  exists d d' id id' q a, req = JObj d /\ resp = JObj d' /\ bounded req /\ bounded resp /\
    denotes_request d id q /\ denotes_response d' id' a /\ result_after req resp m = Ok r.
Proof.
  unfold validate_result. fold (result_after req resp m). split.
  - intros (x & Hx & (y & Hy & H)%bind_Ok)%bind_Ok.
    apply validate_request_sound in Hx as (_ & Hb & d & id & q & -> & Hq).
    apply validate_response_sound in Hy as (_ & Hb' & d' & id' & a & -> & Ha). eauto 15.
  - intros (d & d' & id & id' & q & a & -> & -> & Hb & Hb' & Hq & Ha & H).
    rewrite (validate_request_complete d id q), (validate_response_complete d' id' a) by done. done.
Qed.

Lemma result_tail m i d d' id id' q a r :
  declares m i -> bounded (JObj d') -> denotes_request d id q -> denotes_response d' id' a ->
  result_after (JObj d) (JObj d') m = Ok r <->
  id = id' /\ match a with
    | Failure _ _ => dget "error" d' = Some r
    | Success result => r = result /\ result_ok i q result
    end.
Proof.
  intros Hi Hb Hq (_ & Hid' & _ & Ha). pose proof Hq as (_ & _ & Hid & _ & Hop & _). unfold result_after.
  rewrite (getitem_dget _ _ _ Hid), (getitem_dget _ _ _ Hid'), (getitem_dget _ _ _ Hop). cbn [rbind py_eqb].
  destruct (Z.eqb_spec id' id) as [->|Hne]; cbn [negb raise_if rbind].
  2:{ split; [done|]. intros [-> _]. done. }
  destruct a as [result|code msg].
  - destruct Ha as (_ & Hok & Hres). rewrite (getitem_dget _ _ _ Hok), (getitem_dget _ _ _ Hres). cbn [rbind].
    rewrite bool_decide_eq_false_2 by done. rewrite bind_Ok.
    split.
    + intros ([] & H & [= <-]). split_and!; [done|done|]. by apply (result_checks i m d d' id q result).
    + intros (_ & -> & H). exists tt. split; [|done]. by apply (result_checks i m d d' id q result).
  - destruct Ha as (_ & Hok & e & He & _). rewrite (getitem_dget _ _ _ Hok), (getitem_dget _ _ _ He). cbn [rbind].
    rewrite bool_decide_eq_true_2 by done. rewrite He. naive_solver.
Qed.

(** Against a validated manifest, [validate_result] accepts exactly a
    well-formed request and a well-formed response with the same identifier,
    and returns the error dictionary of a failure or the result of a success;
    the result of [hello] repeats the requested identity, the result of
    [observe] is a closed record of the declared observation types, and every
    other result is null. *)
Theorem validate_result_spec (m m' : json) :
  validate_manifest m = Ok m' ->
  exists i, declares m i /\ forall req resp r,
    validate_result req resp m = Ok r <->
    exists d d' id q a, req = JObj d /\ resp = JObj d' /\ bounded req /\ bounded resp /\
      denotes_request d id q /\ denotes_response d' id a /\
      match a with
      | Failure _ _ => dget "error" d' = Some r
      | Success result => r = result /\ result_ok i q result
      end.
Proof.
  intros (-> & _ & i & Hi)%validate_manifest_declares. exists i. split; [done|].
  intros req resp r. rewrite validate_result_admits. split.
  - intros (d & d' & id & id' & q & a & -> & -> & Hb & Hb' & Hq & Ha & H).
    apply (result_tail m i d d' id id' q a r) in H as [<- H]; [|done..]. eauto 12.
  - intros (d & d' & id & q & a & -> & -> & Hb & Hb' & Hq & Ha & H).
    exists d, d', id, id, q, a. split_and!; try done. by apply (result_tail m i d d' id id q a r).
Qed.

(** ** Concrete instances *)
Definition kind_only (k : string) : json := JObj [(str "kind", JStr k)].
Definition set_of_int : json := JObj [(str "kind", JStr "set"); (str "element", kind_only "int")].
Definition big (z : Z) : json := JObj [(str "#bigint", JStr (int_repr z))].
Definition set_value (l : list json) : json := JObj [(str "#set", JArr l)].

Lemma set_of_int_shape : shape_is (TSet TInt) set_of_int.
Proof.
  exists [(str "kind", JStr "set"); (str "element", kind_only "int")], (kind_only "int").
  split; [|split; [reflexivity|]].
  - split; [reflexivity|split; [|reflexivity]]. intros k. unfold dkeys. set_solver.
  - exists [(str "kind", JStr "int")]. split; [reflexivity|split; [|reflexivity]]. intros k. unfold dkeys. set_solver.
Qed.

Lemma value_key_semantic_witness :
  veq (TSet TInt) (set_value [big 1; big (-2)]) (set_value [big (-2); big 1]).
Proof.
  refine (proj1 (value_key_semantic (TSet TInt) set_of_int set_of_int _ _
    (KSet [KInt (int_repr 1); KInt (int_repr (-2))]) (KSet [KInt (int_repr (-2)); KInt (int_repr 1)])
    set_of_int_shape set_of_int_shape _ _ _) _).
  - vm_compute. lia.
  - vm_compute. reflexivity.
  - vm_compute. reflexivity.
  - vm_compute. reflexivity.
Defined.

Definition counter_manifest : json := JObj [
  (str "schema", JStr "mirrorgate.port/v1");
  (str "interfaceDigest", JStr (repeat 97%N 64));
  (str "initializers", JArr [JObj [(str "id", JStr "init"); (str "inputs", JArr [])]]);
  (str "actions", JArr [JObj [(str "id", JStr "add"); (str "inputs", JArr [
    JObj [(str "id", JStr "amounts"); (str "type", set_of_int)]])]]);
  (str "observations", JArr [JObj [(str "id", JStr "total"); (str "type", kind_only "int")]])].

Lemma validate_inputs_spec_witness :
  exists i, declares counter_manifest i /\ exists ts, (str "add", ts) ∈ operations i /\
    vtyped (TRecord ts) (JObj [(str "amounts", set_value [big 1; big 2])]).
Proof.
  destruct (validate_inputs_spec counter_manifest counter_manifest) as (i & Hi & Hs); [vm_compute; reflexivity|].
  exists i. split; [exact Hi|].
  destruct (proj1 (Hs (str "add") (JObj [(str "amounts", set_value [big 1; big 2])]) _) ltac:(vm_compute; reflexivity))
    as (_ & _ & Hts). exact Hts.
Defined.

Definition observe_request : json := JObj [(str "v", JInt 1); (str "id", JInt 3); (str "op", JStr "observe")].
Definition observe_response : json := JObj [(str "v", JInt 1); (str "id", JInt 3); (str "ok", JBool true);
  (str "result", JObj [(str "total", big 12)])].

Lemma validate_result_spec_witness :
  exists i, declares counter_manifest i /\ exists d d' id q a,
    observe_request = JObj d /\ observe_response = JObj d' /\ denotes_request d id q /\ denotes_response d' id a.
Proof.
  destruct (validate_result_spec counter_manifest counter_manifest) as (i & Hi & Hs); [vm_compute; reflexivity|].
  exists i. split; [exact Hi|].
  destruct (proj1 (Hs observe_request observe_response _) ltac:(vm_compute; reflexivity))
    as (d & d' & id & q & a & H1 & H2 & _ & _ & H3 & H4 & _).
  exists d, d', id, q, a. split; [exact H1|]. split; [exact H2|]. split; [exact H3|exact H4].
Defined.
