(* ===== verification/ControlProtocol.v ===== *)
(** * Control protocol v1 ([supervisor/mirrorgate/control_protocol.py])

    The administrative channel's codec: framing, closed records, requests,
    responses, events, attachment records and base64 output chunks.  A
    [ControlProtocolError] is [ControlError code stage fatal].  [rec_limit] is
    the nesting the interpreter's JSON scanner supports. *)

From Stdlib Require Import ZArith Lia.
From stdpp Require Import base list gmap strings numbers.
From S2P Require Import Prelude PyJson JsonText Protocol.
#[local] Open Scope res_scope.

Module v1.

Definition MAX_FRAME_BYTES : Z := 1048576.
Definition MAX_JSON_DEPTH : Z := 128.
Definition MAX_JSON_NODES : Z := 16384.
Definition MAX_MANIFEST_BYTES : Z := 262144.
Definition MAX_ATTACHMENT_FRAME_BYTES : Z := 4096.
Definition MAX_OUTPUT_CHUNK_BYTES : Z := 16384.

Definition ERROR_CODES : list pystr := strs [
  "VERSION_UNSUPPORTED"; "CAPABILITY_UNAVAILABLE"; "ARGUMENT_INVALID"; "POLICY_DENIED"; "HANDLE_INVALID";
  "STATE_INVALID"; "LIMIT_EXCEEDED"; "PREPARATION_FAILED"; "BUILD_FAILED"; "NEGOTIATION_ATTESTATION_INVALID";
  "BACKEND_ADMISSION_FAILED"; "ATTACHMENT_FAILED"; "WORKER_PROTOCOL_FAILED"; "WORKER_EXITED"; "CANCELLED";
  "DEADLINE_EXCEEDED"; "CLEANUP_FAILED"; "OPERATION_UNKNOWN"].
Definition ERROR_STAGES : list pystr := strs [
  "bootstrap"; "policy"; "authoring"; "prepare"; "build"; "authorize"; "attach"; "worker"; "cleanup"].
Definition OPERATIONS : list pystr := strs [
  "hello"; "session.open"; "authoring.exec"; "session.prepare"; "session.authorize"; "worker.acquire";
  "worker.release"; "session.cancel"; "session.close"; "session.status"; "operation.status"].
Definition PHASES : list pystr := strs [
  "open"; "authoring"; "preparing"; "prepared"; "authorized"; "reserved"; "starting"; "running"; "closing";
  "closed"; "cleanupFailed"].
Definition REASONS : list pystr := strs ["normal"; "user-cancel"; "deadline"; "client-failure"; "worker-failure"].
Definition EVENTS : list pystr := strs [
  "operation.finished"; "authoring.output"; "build.output"; "worker.started"; "worker.ready"; "worker.exited";
  "worker.closing"; "session.closed"].
Definition LIMIT_KEYS : list pystr := strs [
  "sessionWallMs"; "executionWallMs"; "commandCpuSeconds"; "addressSpaceBytes"; "uidProcesses"; "openFiles";
  "fileBytes"; "stdoutBytes"; "stderrBytes"; "snapshotFiles"; "snapshotBytes"; "tmpBytes"; "scratchBytes"].
Definition HELLO_LIMIT_KEYS : list pystr := strs [
  "maxFrameBytes"; "maxJsonDepth"; "maxJsonNodes"; "maxPendingOutputBytes"; "maxSessionsPerConnection";
  "maxInflightRequestsPerConnection"; "maxCompletedOperationsPerSession"; "helloTimeoutMs"; "requestAckTimeoutMs";
  "workerAttachmentTimeoutMs"; "sessionWallMs"; "gracefulStopMs"; "teardownMs"].

Definition _fail (code stage : string) : exn := ControlError code stage false.
Definition _fatal (code stage : string) : exn := ControlError code stage true.
(** The failure of most argument checks. *)
Definition invalid : exn := _fail "ARGUMENT_INVALID" "bootstrap".

(** [ControlProtocolError.record] *)
Definition record (code stage message : pystr) (operation_id : option Z) : json :=
  JObj ([(str "code", JStr code); (str "stage", JStr stage); (str "message", JStr message)]
        ++ match operation_id with Some n => [(str "operationId", JInt n)] | None => [] end).

Definition _pairs (items : pydict) : res json := unique_pairs (_fatal "ARGUMENT_INVALID" "bootstrap") items.

(** [Decimal] refuses a zero whose exponent is outside the range its context
    can represent; every other token is a number, exact or refused. *)
Definition decimal_zero_ok (e : Z) : bool := ((-1999999999999999997 <=? e) && (e <=? 999999999999999999))%Z.

Definition _number (token : pystr) : res json :=
  let '(neg, coefficient, e) := port.split_token token in
  if forallb (fun c => (c =? 48)%N) coefficient then
    raise_if (negb (decimal_zero_ok e)) (_fatal "ARGUMENT_INVALID" "bootstrap") ;; Ok (JInt 0)
  else match port.exact_int coefficient e with
       | Some z => Ok (JInt (port.signed neg z))
       | None => Err (_fatal "ARGUMENT_INVALID" "bootstrap")
       end.

Definition _constant (_ : pystr) : res json := Err (_fatal "ARGUMENT_INVALID" "bootstrap").

Definition _scalar_string (v : json) (max_bytes : Z) (nonempty : bool) : res pystr :=
  match v with
  | JStr s =>
    raise_if (nonempty && bool_decide (s = [])) invalid ;;
    size ← from_option_res (utf8_len s) invalid;
    raise_if (max_bytes <? size)%Z (_fail "LIMIT_EXCEEDED" "bootstrap") ;;
    Ok s
  | _ => Err invalid
  end.

Definition _bounds (v : json) : res unit :=
  bounds MAX_JSON_DEPTH MAX_JSON_NODES (_fatal "LIMIT_EXCEEDED" "bootstrap")
    (_fatal "ARGUMENT_INVALID" "bootstrap") (_fatal "ARGUMENT_INVALID" "bootstrap")
    (fun s => _scalar_string (JStr s) MAX_FRAME_BYTES false ;; Ok tt) v.

Definition _object (v : json) (required optional : list pystr) : res pydict :=
  match v with
  | JObj d =>
    raise_if (negb (set_sub required (dkeys d)) || negb (set_sub (dkeys d) (required ++ optional))) invalid ;;
    Ok d
  | _ => Err invalid
  end.

Definition _safe (v : json) (positive : bool) : res Z :=
  match v with
  | JInt z =>
    raise_if (negb (((if positive then 1 else 0) <=? z) && (z <=? MAX_SAFE_INTEGER)))%Z invalid ;; Ok z
  | _ => Err invalid
  end.

Definition _handle (v : json) : res pystr :=
  match v with JStr s => raise_if (negb (match_hex 32 s)) invalid ;; Ok s | _ => Err invalid end.

Definition _public_id (v : json) : res pystr :=
  match v with JStr s => raise_if (negb (match_identifier s)) invalid ;; Ok s | _ => Err invalid end.

Definition _enum (v : json) (allowed : list pystr) : res pystr :=
  match v with JStr s => raise_if (negb (bool_decide (s ∈ allowed))) invalid ;; Ok s | _ => Err invalid end.

Definition _digest (v : json) : res pystr :=
  match v with JStr s => raise_if (negb (match_hex 64 s)) invalid ;; Ok s | _ => Err invalid end.

(** The loop of [_remaining_resources]: [seen] holds the names met so far. *)
Fixpoint distinct_ids (seen : list pystr) (l : list json) : res unit :=
  match l with
  | [] => Ok tt
  | item :: rest =>
    s ← _public_id item;
    raise_if (bool_decide (s ∈ seen)) (_fail "ARGUMENT_INVALID" "cleanup") ;;
    distinct_ids (s :: seen) rest
  end.

Definition _remaining_resources (v : json) : res unit :=
  match v with
  | JArr l =>
    raise_if (64 <? zlen l)%Z (_fail "ARGUMENT_INVALID" "cleanup") ;; distinct_ids [] l
  | _ => Err (_fail "ARGUMENT_INVALID" "cleanup")
  end.

(** Truth value of a JSON value, as in [if value:]. *)
Definition truthy (v : json) : bool :=
  match v with
  | JNull => false | JBool b => b | JInt z => negb (z =? 0)%Z | JFloat _ => true
  | JStr s => negb (bool_decide (s = [])) | JArr l => negb (bool_decide (l = []))
  | JObj d => negb (bool_decide (d = []))
  end.

Definition _cleanup_result (v : json) : res unit :=
  _object v (strs ["phase"; "cleanupStatus"; "remainingResources"]) [] ;;
  p ← getitem v "phase"; phase ← _enum p (strs ["closed"; "cleanupFailed"]);
  c ← getitem v "cleanupStatus"; status ← _enum c (strs ["succeeded"; "failed"]);
  r ← getitem v "remainingResources"; _remaining_resources r ;;
  raise_if (negb (Bool.eqb (bool_decide (phase = "closed")) (bool_decide (status = "succeeded")))
            || (bool_decide (phase = "closed") && truthy r))
    (_fail "ARGUMENT_INVALID" "cleanup").

(** ** Frames *)
Definition hooks : json_hooks := {|
  object_pairs_hook := _pairs;
  parse_int := _number;
  parse_float := _number;
  parse_constant := _constant |}.

(** The exceptions [parse_control_frame] turns into its own. *)
Definition decode_failure (e : exn) : bool :=
  match e with UnicodeError | JSONDecodeError | RecursionError | ValueError => true | _ => false end.

(** [except ControlProtocolError as exc: raise ControlProtocolError(..., fatal=True)] *)
Definition make_fatal {A} (m : res A) : res A :=
  match m with
  | Err (ControlError code stage _) => Err (ControlError code stage true)
  | _ => m
  end.

Definition parse_control_frame (rec_limit : nat) (max_bytes : Z) (data : bytes) : res json :=
  raise_if (max_bytes + 1 <? zlen data)%Z (_fatal "LIMIT_EXCEEDED" "bootstrap") ;;
  raise_if (starts_with [239; 187; 191]%N data || port.bad_framing data
            || forallb port.py_space (removelast data)) (_fatal "ARGUMENT_INVALID" "bootstrap") ;;
  value ← try_except
    (s ← from_option_res (utf8_decode (removelast data)) UnicodeError; loads hooks rec_limit s)
    decode_failure (fun _ => Err (_fatal "ARGUMENT_INVALID" "bootstrap"));
  make_fatal (_bounds value) ;;
  raise_if (negb (is_dict value)) (_fatal "ARGUMENT_INVALID" "bootstrap") ;;
  Ok value.

Definition encode_control_frame (max_bytes : Z) (message : json) : res bytes :=
  _bounds message ;;
  payload ← from_option_res (utf8_encode (dumps false message)) invalid;
  raise_if (max_bytes <? zlen payload)%Z (_fail "LIMIT_EXCEEDED" "bootstrap") ;;
  Ok (payload ++ [10]%N).

(** ** Requests *)

(** A path segment that would change the directory or name nothing. *)
Definition bad_part (p : pystr) : bool := bool_decide (p ∈ strs [""; "."; ".."]).

Definition _input_ref (v : json) : res unit :=
  _object v (strs ["rootId"; "relativePath"]) [] ;;
  r ← getitem v "rootId"; _public_id r ;;
  p ← getitem v "relativePath"; path ← _scalar_string p 1024 true;
  raise_if (starts_with "/" path || bool_decide (0%N ∈ path)
            || (negb (bool_decide (path = ".")) && existsb bad_part (split_on 47 path)))
    (_fail "ARGUMENT_INVALID" "policy").

Definition _submission (v : json) : res unit :=
  match v with
  | JObj d =>
    kind ← from_option_res (dget "kind" d) (_fail "ARGUMENT_INVALID" "policy");
    raise_if (negb (str_in kind (strs ["prebuilt"; "source"]))) (_fail "ARGUMENT_INVALID" "policy") ;;
    (if str_is kind "prebuilt" then _object v (strs ["kind"; "input"]) [] ;; Ok tt
     else
       _object v (strs ["kind"; "input"; "buildPlanId"; "authoring"]) [] ;;
       b ← getitem v "buildPlanId"; _public_id b ;;
       a ← getitem v "authoring"; raise_if (negb (is_bool a)) (_fail "ARGUMENT_INVALID" "policy")) ;;
    i ← getitem v "input"; _input_ref i
  | _ => Err (_fail "ARGUMENT_INVALID" "policy")
  end.

Definition _limits (v : json) (keys : list pystr) (positive : bool) : res unit :=
  d ← _object v [] keys;
  for_each (fun kv => _safe kv.2 positive ;; Ok tt) d.

Definition _outcome (v : json) : res unit :=
  d ← _object v (strs ["status"]) (strs ["failureFamily"]);
  s ← getitem v "status";
  raise_if (negb (str_in s (strs ["passed"; "mismatch"; "failed"; "cancelled"; "timedOut"])))
    (_fail "ARGUMENT_INVALID" "cleanup") ;;
  match dget "failureFamily" d with Some f => _public_id f ;; Ok tt | None => Ok tt end.

Definition attestation_strings : list pystr := strs [
  "registrationId"; "descriptorSchema"; "adapterId"; "targetProfile"; "stateComputerContractVersion"].

Definition _attestation (v : json) : res unit :=
  _object v (strs ["registrationId"; "request"; "policy"; "status"; "descriptorSchema"; "semanticDigest";
                   "adapterId"; "targetProfile"; "stateComputerContractVersion"]) [] ;;
  for_each (fun k => x ← getitem v k; _scalar_string x 128 true ;; Ok tt) attestation_strings ;;
  rq ← getitem v "request"; po ← getitem v "policy"; st ← getitem v "status"; ds ← getitem v "descriptorSchema";
  dg ← getitem v "semanticDigest";
  raise_if (negb (str_is rq "verify" && str_is po "require" && str_is st "matched"
                  && str_is ds "mirrors.model-interface-descriptor/v1")
            || negb match dg with JStr s => match_hex 64 s | _ => false end)
    (_fail "ARGUMENT_INVALID" "authorize").

Definition int_is (v : json) (n : Z) : bool := match v with JInt z => (z =? n)%Z | _ => false end.

(** The [try] block of [validate_request]. *)
Definition envelope_checks (message : json) : res pystr :=
  _object message (strs ["v"; "kind"; "id"; "op"; "args"]) [] ;;
  v ← getitem message "v"; k ← getitem message "kind";
  raise_if (negb (int_is v 1) || negb (str_is k "request")) ValueError ;;
  i ← getitem message "id"; _safe i true ;;
  o ← getitem message "op";
  match o with
  | JStr op => raise_if (negb (bool_decide (op ∈ OPERATIONS))) KeyError ;; Ok op
  | _ => Err KeyError
  end.

(** [except (ControlProtocolError, ValueError, KeyError)] *)
Definition envelope_failure (e : exn) : bool :=
  match e with ControlError _ _ _ | ValueError | KeyError => true | _ => false end.

Definition positive_int (v : json) : bool := match v with JInt z => (1 <=? z)%Z | _ => false end.

Definition hello_args (args : json) : res unit :=
  _object args (strs ["controlVersions"; "requiredCapabilities"]) [] ;;
  vs ← getitem args "controlVersions"; cs ← getitem args "requiredCapabilities";
  raise_if (negb match vs with
                 | JArr l => (1 <=? zlen l)%Z && (zlen l <=? 8)%Z && forallb positive_int l && negb (has_dup l)
                 | _ => false
                 end) invalid ;;
  match cs with
  | JArr l =>
    raise_if ((64 <? zlen l)%Z || negb (forallb is_str l)) invalid ;;
    for_each (fun c => _public_id c ;; Ok tt) l ;;
    raise_if (has_dup l) invalid
  | _ => Err invalid
  end.

(** [except ProtocolError] around the embedded manifest. *)
Definition manifest_failure (e : exn) : bool := match e with ProtocolError _ => true | _ => false end.

Definition is_ascii (s : pystr) : bool := forallb (fun c => (c <? 128)%N) s.

Definition session_open_args (rec_limit : nat) (message args : json) : res unit :=
  d ← _object args (strs ["policyId"; "submission"; "runtime"; "manifestJson"]) (strs ["limits"; "modelRevisionId"]);
  p ← getitem args "policyId"; _public_id p ;;
  r ← getitem args "runtime"; _public_id r ;;
  s ← getitem args "submission"; _submission s ;;
  mj ← getitem args "manifestJson"; manifest ← _scalar_string mj MAX_MANIFEST_BYTES false;
  try_except
    (data ← from_option_res (utf8_encode manifest) UnicodeError;
     m ← port._parse_json rec_limit data; port.validate_manifest m ;; Ok tt)
    manifest_failure (fun _ => Err (_fail "ARGUMENT_INVALID" "policy")) ;;
  match dget "limits" d with Some l => _limits l LIMIT_KEYS true | None => Ok tt end ;;
  match dget "modelRevisionId" d with
  | Some x => revision ← _scalar_string x 128 true;
              raise_if (negb (is_ascii revision)) (_fail "ARGUMENT_INVALID" "policy")
  | None => Ok tt
  end ;;
  match message with
  | JObj m =>
    frame ← encode_control_frame MAX_FRAME_BYTES (JObj (dset "args" (JObj (ddel "manifestJson" d)) m));
    raise_if (65535 <? zlen frame - 1)%Z (_fail "LIMIT_EXCEEDED" "policy")
  | _ => Err TypeError
  end.

(** The [required] table of the remaining operations. *)
Definition required_args (op : pystr) : res (list pystr) :=
  if bool_decide (op = "authoring.exec") then Ok (strs ["sessionId"; "toolId"; "arguments"; "cwd"])
  else if bool_decide (op = "session.authorize") then
    Ok (strs ["sessionId"; "preparedRevision"; "challenge"; "attestation"])
  else if bool_decide (op = "worker.acquire") then Ok (strs ["sessionId"; "authorizationId"])
  else if bool_decide (op = "worker.release") then Ok (strs ["sessionId"; "workerId"; "reason"])
  else if bool_decide (op = "session.cancel") then Ok (strs ["sessionId"; "reason"])
  else if bool_decide (op = "operation.status") then Ok (strs ["sessionId"; "operationId"])
  else if bool_decide (op ∈ strs ["session.prepare"; "session.close"; "session.status"]) then Ok (strs ["sessionId"])
  else Err KeyError.

(** The command line of [authoring.exec]. *)
Definition argv_check (v : json) : res unit :=
  match v with
  | JArr argv =>
    raise_if (256 <? zlen argv)%Z (_fail "ARGUMENT_INVALID" "authoring") ;;
    items ← traverse (fun item => _scalar_string item 65535 false) argv;
    sizes ← traverse (fun s => from_option_res (utf8_len s) invalid) items;
    raise_if ((65535 <? foldr Z.add 0%Z sizes)%Z || existsb (fun s => bool_decide (0%N ∈ s)) items)
      (_fail "LIMIT_EXCEEDED" "authoring")
  | _ => Err (_fail "ARGUMENT_INVALID" "authoring")
  end.

Definition session_args (op : pystr) (args : json) : res unit :=
  required ← required_args op;
  d ← _object args required (if bool_decide (op = "session.close") then strs ["outcomeSummary"] else []);
  s ← getitem args "sessionId"; _handle s ;;
  (if bool_decide (op = "authoring.exec") then
     t ← getitem args "toolId"; _public_id t ;;
     c ← getitem args "cwd"; _input_ref (JObj [(str "rootId", JStr "cwd"); (str "relativePath", c)]) ;;
     a ← getitem args "arguments"; argv_check a
   else if bool_decide (op = "session.authorize") then
     r ← getitem args "preparedRevision"; _safe r true ;;
     c ← getitem args "challenge"; _handle c ;;
     a ← getitem args "attestation"; _attestation a
   else if bool_decide (op = "worker.acquire") then
     a ← getitem args "authorizationId"; _handle a ;; Ok tt
   else if bool_decide (op = "worker.release") then
     w ← getitem args "workerId"; _handle w ;; Ok tt
   else Ok tt) ;;
  (if bool_decide (op ∈ strs ["worker.release"; "session.cancel"]) then
     r ← getitem args "reason"; _enum r REASONS ;; Ok tt else Ok tt) ;;
  match bool_decide (op = "session.close"), dget "outcomeSummary" d with
  | true, Some o => _outcome o
  | _, _ => Ok tt
  end ;;
  (if bool_decide (op = "operation.status") then
     o ← getitem args "operationId"; _safe o true ;; Ok tt else Ok tt).

Definition validate_request (rec_limit : nat) (message : json) : res json :=
  _bounds message ;;
  op ← try_except (envelope_checks message) envelope_failure
         (fun _ => Err (_fatal "ARGUMENT_INVALID" "bootstrap"));
  args ← getitem message "args";
  (if bool_decide (op = "hello") then hello_args args
   else if bool_decide (op = "session.open") then session_open_args rec_limit message args
   else session_args op args) ;;
  Ok message.

(** ** Responses, results and events *)
(** A closed error record over given code and stage sets. *)
Definition error_record (codes stages : list pystr) (v : json) : res json :=
  d ← _object v (strs ["code"; "stage"; "message"]) (strs ["operationId"]);
  c ← getitem v "code"; _enum c codes ;;
  s ← getitem v "stage"; _enum s stages ;;
  m ← getitem v "message"; _scalar_string m 1024 false ;;
  match dget "operationId" d with Some i => _safe i true ;; Ok tt | None => Ok tt end ;;
  Ok v.

Definition validate_error (v : json) : res json := error_record ERROR_CODES ERROR_STAGES v.

Definition validate_response (message : json) (request : option json) : res json :=
  _bounds message ;;
  let ok := match message with JObj d => dget "ok" d | _ => None end in
  (if negb (is_dict message) || bool_decide (ok = Some (JBool true)) then
     _object message (strs ["v"; "kind"; "id"; "ok"; "result"]) [] ;; Ok tt
   else
     _object message (strs ["v"; "kind"; "id"; "ok"; "error"]) [] ;;
     e ← getitem message "error"; validate_error e ;; Ok tt) ;;
  v ← getitem message "v"; k ← getitem message "kind"; o ← getitem message "ok";
  raise_if (negb (int_is v 1) || negb (str_is k "response") || negb (is_bool o)) invalid ;;
  i ← getitem message "id"; _safe i true ;;
  match request with
  | Some r => j ← getitem r "id";
              raise_if (negb (py_eqb i j)) (_fatal "ARGUMENT_INVALID" "bootstrap")
  | None => Ok tt
  end ;;
  Ok message.

Definition optional_field {A} (d : pydict) (k : pystr) (check : json -> res A) : res unit :=
  match dget k d with Some x => check x ;; Ok tt | None => Ok tt end.

Definition validate_terminal_result (operation : pystr) (v : json) : res json :=
  _bounds v ;;
  (if bool_decide (operation = "session.prepare") then
     d ← _object v (strs ["preparedRevision"; "artifactId"; "artifactHash"; "manifestHash"; "runtime"; "policyId";
                          "challenge"]) (strs ["sourceHash"]);
     r ← getitem v "preparedRevision";
     raise_if (negb (int_is r 1)) (_fail "ARGUMENT_INVALID" "prepare") ;;
     a ← getitem v "artifactId"; _handle a ;;
     c ← getitem v "challenge"; _handle c ;;
     optional_field d "artifactHash" _digest ;;
     optional_field d "manifestHash" _digest ;;
     optional_field d "sourceHash" _digest ;;
     t ← getitem v "runtime"; _public_id t ;;
     p ← getitem v "policyId"; _public_id p ;; Ok tt
   else if bool_decide (operation = "authoring.exec") then
     _object v (strs ["exitCode"; "stdoutBytes"; "stderrBytes"]) [] ;;
     x ← getitem v "exitCode";
     raise_if (negb match x with JInt z => (Z.abs z <=? MAX_SAFE_INTEGER)%Z | _ => false end)
       (_fail "ARGUMENT_INVALID" "authoring") ;;
     o ← getitem v "stdoutBytes"; _safe o false ;;
     e ← getitem v "stderrBytes"; _safe e false ;; Ok tt
   else if bool_decide (operation ∈ strs ["worker.release"; "session.cancel"; "session.close"]) then
     _cleanup_result v
   else Err invalid) ;;
  Ok v.

Definition validate_operation_status (v : json) (operation : option pystr) (terminal : bool) : res json :=
  _bounds v ;;
  s ← match v with JObj d => from_option_res (dget "status" d) invalid | _ => Err invalid end;
  raise_if (negb (str_in s (strs ["pending"; "succeeded"; "failed"]))) invalid ;;
  d ← _object v (strs ["operationId"; "status"] ++
        (if str_is s "succeeded" then strs ["result"] else if str_is s "failed" then strs ["error"] else [])) [];
  i ← getitem v "operationId"; _safe i true ;;
  raise_if (terminal && str_is s "pending") invalid ;;
  (if str_is s "failed" then
     e ← getitem v "error"; validate_error e ;;
     match e with
     | JObj ed => raise_if (negb (py_eqb (default i (dget "operationId" ed)) i)) invalid
     | _ => Err TypeError
     end
   else Ok tt) ;;
  match str_is s "succeeded", operation with
  | true, Some op => r ← getitem v "result"; validate_terminal_result op r ;; Ok tt
  | _, _ => Ok tt
  end ;;
  Ok v.

(** [set(x)] of a JSON value, as its members. *)
Definition set_members (v : json) : res (list json) :=
  match v with
  | JArr l => raise_if (negb (forallb hashable l)) TypeError ;; Ok l
  | JObj d => Ok (map JStr (dkeys d))
  | JStr s => Ok (map (fun c => JStr [c]) s)
  | _ => Err TypeError
  end.

Definition CAPABILITY_SCOPES : list pystr :=
  strs ["connection"; "session"; "command"; "process"; "host-uid"; "host"; "none"].

(** One capability report; [seen] are the identifiers met so far. *)
Definition capability (seen : list pystr) (cap : json) : res (pystr * bool) :=
  d ← _object cap (strs ["id"; "available"; "enforcedScope"; "limits"]) (strs ["reason"]);
  i ← getitem cap "id"; id ← _public_id i;
  raise_if (bool_decide (id ∈ seen)) invalid ;;
  a ← getitem cap "available"; s ← getitem cap "enforcedScope";
  raise_if (negb (is_bool a) || negb (str_in s CAPABILITY_SCOPES)) invalid ;;
  l ← getitem cap "limits"; _limits l (HELLO_LIMIT_KEYS ++ LIMIT_KEYS) false ;;
  let available := bool_decide (a = JBool true) in
  raise_if ((available && (dmem "reason" d || str_is s "none"))
            || (negb available && negb (dmem "reason" d))
            || (negb available && negb (str_is s "none"))) invalid ;;
  optional_field d "reason" _public_id ;;
  Ok (id, available).

Fixpoint capabilities (seen : list pystr) (l : list json) : res (list (pystr * bool)) :=
  match l with
  | [] => Ok []
  | cap :: rest => c ← capability seen cap; cs ← capabilities (c.1 :: seen) rest; Ok (c :: cs)
  end.

(** The identifiers of the available capabilities. *)
Definition available_ids (cs : list (pystr * bool)) : list json :=
  map (fun c => JStr c.1) (filter (fun c => c.2 = true) cs).

Definition hello_result (request result : json) : res unit :=
  _object result (strs ["controlVersion"; "instanceId"; "capabilities"; "limits"]) [] ;;
  v ← getitem result "controlVersion";
  raise_if (negb (int_is v 1)) (_fail "VERSION_UNSUPPORTED" "bootstrap") ;;
  i ← getitem result "instanceId"; _handle i ;;
  l ← getitem result "limits"; _limits l HELLO_LIMIT_KEYS true ;;
  ks ← match l with JObj d => Ok (dkeys d) | _ => Err TypeError end;
  raise_if (negb (set_eq ks HELLO_LIMIT_KEYS)) invalid ;;
  c ← getitem result "capabilities";
  caps ← match c with
         | JArr caps => raise_if (64 <? zlen caps)%Z invalid ;; Ok caps
         | _ => Err invalid
         end;
  cs ← capabilities [] caps;
  args ← getitem request "args";
  required ← match args with
             | JObj d => set_members (default (JArr []) (dget "requiredCapabilities" d))
             | _ => Err TypeError
             end;
  raise_if (negb (forallb (fun x => existsb (py_eqb x) (available_ids cs)) required))
    (_fail "CAPABILITY_UNAVAILABLE" "bootstrap").

Definition worker_descriptor (result : json) : res unit :=
  _object result (strs ["workerId"; "endpoint"; "attachmentToken"; "attachmentTimeoutMs"; "releaseMode"]) [] ;;
  w ← getitem result "workerId"; _handle w ;;
  e ← getitem result "endpoint"; _object e (strs ["kind"; "path"]) [] ;;
  p ← getitem e "path"; path ← _scalar_string p 107 true;
  k ← getitem e "kind";
  raise_if (negb (str_is k "unix") || negb (starts_with "/" path) || bool_decide (0%N ∈ path)
            || existsb bad_part (tail (split_on 47 path))) (_fail "ARGUMENT_INVALID" "attach") ;;
  t ← getitem result "attachmentToken";
  raise_if (negb match t with JStr s => match_hex 64 s | _ => false end) (_fail "ARGUMENT_INVALID" "attach") ;;
  m ← getitem result "attachmentTimeoutMs"; _safe m true ;;
  r ← getitem result "releaseMode";
  raise_if (negb (str_is r "control-v1")) (_fail "ARGUMENT_INVALID" "attach").

Definition session_status (result : json) : res unit :=
  _object result (strs ["phase"; "resources"; "cleanup"]) [] ;;
  p ← getitem result "phase"; phase ← _enum p PHASES;
  r ← getitem result "resources";
  resources ← _object r (strs ["authoringProcesses"; "buildProcesses"; "workers"; "snapshots"]) [];
  for_each (fun kv => _safe kv.2 false ;; Ok tt) resources ;;
  c ← getitem result "cleanup";
  _object c (strs ["status"; "remainingResources"]) [] ;;
  s ← getitem c "status"; _enum s (strs ["notStarted"; "pending"; "succeeded"; "failed"]) ;;
  rem ← getitem c "remainingResources"; _remaining_resources rem ;;
  (if bool_decide (phase ∈ strs ["closed"; "cleanupFailed"]) then
     _cleanup_result (JObj [(str "phase", p); (str "cleanupStatus", s); (str "remainingResources", rem)])
   else Ok tt).

Definition validate_result (request response : json) (operation : option pystr) : res json :=
  validate_response response (Some request) ;;
  ok ← getitem response "ok";
  if negb (truthy ok) then getitem response "error"
  else
    op ← getitem request "op"; result ← getitem response "result";
    (if str_is op "hello" then hello_result request result
     else if str_is op "session.open" then
       _object result (strs ["sessionId"]) [] ;; s ← getitem result "sessionId"; _handle s ;; Ok tt
     else if str_in op (strs ["authoring.exec"; "session.prepare"; "session.cancel"; "session.close"]) then
       _object result (strs ["operationId"]) [] ;; i ← getitem result "operationId"; _safe i true ;; Ok tt
     else if str_is op "worker.release" then
       _object result (strs ["operationId"; "cleanupMode"]) [] ;;
       i ← getitem result "operationId"; _safe i true ;;
       m ← getitem result "cleanupMode";
       raise_if (negb (str_in m (strs ["dispose-then-terminate"; "terminate-only"]))) (_fail "ARGUMENT_INVALID" "cleanup")
     else if str_is op "session.authorize" then
       _object result (strs ["authorizationId"]) [] ;; a ← getitem result "authorizationId"; _handle a ;; Ok tt
     else if str_is op "worker.acquire" then worker_descriptor result
     else if str_is op "operation.status" then
       validate_operation_status result operation false ;;
       i ← getitem result "operationId"; args ← getitem request "args"; j ← getitem args "operationId";
       raise_if (negb (py_eqb i j)) invalid
     else if str_is op "session.status" then session_status result
     else Ok tt) ;;
    Ok result.

(** ** Base64 output chunks *)
Definition b64_char (n : N) : N :=
  (if n <? 26 then 65 + n else if n <? 52 then 71 + n else if n <? 62 then n - 4
   else if n =? 62 then 43 else 47)%N.
Definition b64_value (c : N) : option N :=
  if in_range 65 90 c then Some (c - 65)%N
  else if in_range 97 122 c then Some (c - 71)%N
  else if in_range 48 57 c then Some (c + 4)%N
  else if (c =? 43)%N then Some 62%N
  else if (c =? 47)%N then Some 63%N
  else None.

(** [base64.b64encode(data).decode("ascii")] *)
Fixpoint b64encode (data : bytes) : pystr :=
  match data with
  | a :: b :: c :: rest =>
    b64_char (a / 4) :: b64_char ((a mod 4) * 16 + b / 16)%N :: b64_char ((b mod 16) * 4 + c / 64)%N
      :: b64_char (c mod 64) :: b64encode rest
  | [a; b] => [b64_char (a / 4); b64_char ((a mod 4) * 16 + b / 16)%N; b64_char ((b mod 16) * 4)%N; 61%N]
  | [a] => [b64_char (a / 4); b64_char ((a mod 4) * 16)%N; 61%N; 61%N]
  | [] => []
  end.

(** [base64.b64decode(text, validate=True)]: full groups, padding only at the
    end; the unused low bits of a padded group are ignored. *)
Fixpoint b64decode (s : pystr) : option bytes :=
  match s with
  | [] => Some []
  | p :: q :: r :: t :: rest =>
    (x ← b64_value p; y ← b64_value q;
     let a := (x * 4 + y / 16)%N in
     if (r =? 61)%N then
       if (t =? 61)%N && bool_decide (rest = []) then Some [a] else None
     else
       z ← b64_value r;
       let b := ((y mod 16) * 16 + z / 4)%N in
       if (t =? 61)%N then if bool_decide (rest = []) then Some [a; b] else None
       else
         w ← b64_value t; bs ← b64decode rest;
         Some (a :: b :: ((z mod 4) * 64 + w)%N :: bs))%stdpp
  | _ => None
  end.

(** An output chunk is canonical base64 of at most 16384 bytes. *)
Definition output_chunk (v : json) : res unit :=
  match v with
  | JStr s =>
    decoded ← from_option_res (b64decode s) invalid;
    raise_if (negb (bool_decide (b64encode decoded = s)) || (MAX_OUTPUT_CHUNK_BYTES <? zlen decoded)%Z) invalid
  | _ => Err invalid
  end.

Definition canonical_base64 (data : bytes) : res pystr :=
  raise_if (MAX_OUTPUT_CHUNK_BYTES <? zlen data)%Z (_fail "LIMIT_EXCEEDED" "authoring") ;;
  Ok (b64encode data).

Definition event_data (name : pystr) (data : json) (operation : option pystr) : res unit :=
  if bool_decide (name = "operation.finished") then
    validate_operation_status data operation true ;; Ok tt
  else if bool_decide (name ∈ strs ["authoring.output"; "build.output"]) then
    _object data (strs ["operationId"; "stream"; "chunk"; "bytesBase64"]) [] ;;
    i ← getitem data "operationId"; _safe i true ;;
    c ← getitem data "chunk"; _safe c true ;;
    s ← getitem data "stream"; raise_if (negb (str_in s (strs ["stdout"; "stderr"]))) invalid ;;
    b ← getitem data "bytesBase64"; output_chunk b
  else if bool_decide (name ∈ strs ["worker.started"; "worker.ready"]) then
    _object data (strs ["workerId"]) [] ;; w ← getitem data "workerId"; _handle w ;; Ok tt
  else if bool_decide (name = "worker.closing") then
    _object data (strs ["workerId"; "reason"]) [] ;; w ← getitem data "workerId"; _handle w ;;
    r ← getitem data "reason"; _enum r REASONS ;; Ok tt
  else if bool_decide (name = "worker.exited") then
    d ← _object data (strs ["workerId"; "reason"]) (strs ["exitCode"]);
    w ← getitem data "workerId"; _handle w ;;
    r ← getitem data "reason"; _scalar_string r 128 true ;; _enum r REASONS ;;
    match dget "exitCode" d with
    | Some x => raise_if (negb match x with JInt z => (Z.abs z <=? MAX_SAFE_INTEGER)%Z | _ => false end)
                  (_fail "ARGUMENT_INVALID" "worker")
    | None => Ok tt
    end
  else if bool_decide (name = "session.closed") then _cleanup_result data
  else Ok tt.

Definition validate_event (message : json) (operation : option pystr) : res json :=
  _bounds message ;;
  _object message (strs ["v"; "kind"; "seq"; "sessionId"; "event"; "data"]) [] ;;
  v ← getitem message "v"; k ← getitem message "kind"; e ← getitem message "event";
  raise_if (negb (int_is v 1) || negb (str_is k "event") || negb (str_in e EVENTS))
    (_fatal "ARGUMENT_INVALID" "bootstrap") ;;
  q ← getitem message "seq"; _safe q true ;;
  s ← getitem message "sessionId"; _handle s ;;
  data ← getitem message "data";
  name ← match e with JStr n => Ok n | _ => Err TypeError end;
  event_data name data operation ;;
  Ok message.

Definition validate_attachment (message : json) (success : bool) : res json :=
  _object message (strs (["v"; "kind"; "sessionId"; "workerId"] ++ if success then [] else ["attachmentToken"])) [] ;;
  v ← getitem message "v"; k ← getitem message "kind";
  raise_if (negb (int_is v 1) || negb (str_is k (if success then "attached" else "attach")))
    (_fatal "ATTACHMENT_FAILED" "attach") ;;
  s ← getitem message "sessionId"; _handle s ;;
  w ← getitem message "workerId"; _handle w ;;
  (if success then Ok tt
   else
     t ← getitem message "attachmentToken";
     raise_if (negb match t with JStr x => match_hex 64 x | _ => false end) (_fatal "ATTACHMENT_FAILED" "attach")) ;;
  frame ← encode_control_frame MAX_ATTACHMENT_FRAME_BYTES message;
  raise_if (MAX_ATTACHMENT_FRAME_BYTES + 1 <? zlen frame)%Z (_fatal "ATTACHMENT_FAILED" "attach") ;;
  Ok message.

(** [codec_for_version]: the two codecs by their number. *)
Inductive codec : Type := control_v1 | control_v2.
Definition codec_for_version (version : json) : res codec :=
  if int_is version 1 then Ok control_v1
  else if int_is version 2 then Ok control_v2
  else Err (_fatal "VERSION_UNSUPPORTED" "bootstrap").

(** ** Properties: the budget *)

(** A string whose UTF-8 form has at most [n] bytes. *)
Definition short (n : Z) (s : pystr) : Prop := exists size, utf8_len s = Some size /\ (size <= n)%Z.

Lemma short_scalar n s : short n s -> Forall (fun c => is_scalar c = true) s.
Proof.
  intros (size & H & _). apply utf8_encode_Some. unfold utf8_len in H. destruct (utf8_encode s); [eauto|done].
Qed.

Lemma _scalar_string_Ok v n ne s :
  _scalar_string v n ne = Ok s <-> v = JStr s /\ short n s /\ (ne = true -> s <> []).
Proof.
  unfold _scalar_string, short. destruct v as [| | | |s'| |]; try (split; [done|by intros [? _]]).
  rewrite bind_Ok. setoid_rewrite raise_if_Ok. setoid_rewrite bind_Ok. setoid_rewrite bind_Ok.
  setoid_rewrite raise_if_Ok. split.
  - intros ([] & Hne & size & Hs & [] & Hle & [= ->]). bool_hyps.
    destruct (utf8_len s) as [k|]; simpl in Hs; [|done]. injection Hs as ->.
    split_and!; [done|by exists size|]. intros -> ->. done.
  - intros ([= ->] & (size & Hs & Hle) & Hne). exists tt. split.
    + destruct ne; simpl; [|done]. apply bool_decide_eq_false. auto.
    + exists size. rewrite Hs. split; [done|]. exists tt. split; [by apply Z.ltb_ge|done].
Qed.

(** [_bounds] as a predicate. *)
Definition bounded (v : json) : Prop :=
  (json_depth v <= MAX_JSON_DEPTH)%Z /\ (zlen (subvalues v) <= MAX_JSON_NODES)%Z /\
  Forall (fun n => match n with
    | JObj d => Forall (short MAX_FRAME_BYTES) (dkeys d)
    | JStr s => short MAX_FRAME_BYTES s
    | JInt z => (Z.abs z <= MAX_SAFE_INTEGER)%Z
    | JFloat _ => False
    | _ => True
    end) (subvalues v).

Lemma _scalar_string_short s n : (_scalar_string (JStr s) n false ;; Ok tt) = Ok tt <-> short n s.
Proof.
  rewrite bind_Ok. setoid_rewrite _scalar_string_Ok. split.
  - intros (? & ([= <-] & ? & _) & _). done.
  - intros. by exists s.
Qed.

Lemma _bounds_Ok v : _bounds v = Ok tt <-> bounded v.
Proof.
  unfold _bounds. rewrite bounds_Ok by done. unfold within_bounds, bounded.
  do 2 f_equiv. apply Forall_iff. intros n. unfold node_ok. destruct n as [| | | |s| |d]; try done.
  - apply _scalar_string_short.
  - apply Forall_iff. intros k. apply _scalar_string_short.
Qed.

(** Every failure of the codec is a [ControlProtocolError]. *)
Definition control_error (e : exn) : Prop := exists code stage fatal, e = ControlError code stage fatal.
(** A failure that keeps the connection. *)
Definition soft (e : exn) : Prop := exists code stage, e = ControlError code stage false.

Lemma soft_fail c s : soft (_fail c s).
Proof. by exists c, s. Qed.
Lemma soft_invalid : soft invalid.
Proof. apply soft_fail. Qed.
#[local] Hint Resolve soft_fail soft_invalid : gate.

Lemma raises_scalar_string v n ne : raises soft (_scalar_string v n ne).
Proof.
  unfold _scalar_string. destruct v; try apply soft_invalid.
  repeat (apply raises_bind; [auto with gate|intros ? _]). done.
Qed.

Lemma _bounds_Err v e : _bounds v = Err e -> control_error e.
Proof.
  unfold _bounds, bounds. intros H. apply bounds_loop_Err in H.
  - destruct H as [->|[->|[->|(s & H)]]]; try (by do 3 eexists).
    apply bind_Err in H as [H|(? & _ & ?)]; [|done].
    pose proof (raises_scalar_string (JStr s) MAX_FRAME_BYTES false) as Hs. rewrite H in Hs.
    destruct Hs as (c & st & ->). by do 3 eexists.
  - unfold stack_subs. simpl. by rewrite app_nil_r.
Qed.

Lemma control_text v : bounded v -> Forall text_node (subvalues v).
Proof.
  intros (_ & _ & Hb). eapply Forall_impl; [|exact Hb]. intros n Hn. destruct n; try done; simpl in *.
  - by eapply short_scalar.
  - eapply Forall_impl; [|exact Hn]. apply short_scalar.
Qed.

(** ** Properties: frames *)

Lemma number_repr z : (Z.abs z <= MAX_SAFE_INTEGER)%Z -> _number (int_repr z) = Ok (JInt z).
Proof.
  intros Hz. pose proof (port.exact_number_repr z Hz) as H. unfold port._exact_number in H. unfold _number.
  rewrite port.split_token_repr in *. destruct (forallb _ _); [rewrite <- H; reflexivity|destruct (port.exact_int _ _); done].
Qed.

Lemma control_node_rt v : bounded v -> wf_json v -> Forall (node_rt hooks) (subvalues v).
Proof.
  intros Hb Hw. pose proof (control_text v Hb) as Ht. destruct Hb as (_ & _ & Hb).
  unfold wf_json in Hw. rewrite list.Forall_forall in *.
  intros n Hn. specialize (Hb n Hn). specialize (Hw n Hn). specialize (Ht n Hn).
  destruct n; simpl in *; try done. by apply number_repr.
Qed.

Lemma loads_control rec_limit v data :
  bounded v -> wf_json v -> (MAX_JSON_DEPTH < Z.of_nat rec_limit)%Z ->
  utf8_encode (dumps false v) = Some data ->
  (s ← from_option_res (utf8_decode data) UnicodeError; loads hooks rec_limit s) = Ok v.
Proof.
  intros Hb Hw Hr Hu. rewrite (utf8_roundtrip _ _ Hu). cbn [rbind from_option_res]. apply loads_dumps.
  - apply unique_pairs_nodup.
  - destruct Hb as [? _]. lia.
  - by apply control_node_rt.
Qed.

Lemma framing_ok d bs :
  bounded (JObj d) -> utf8_encode (dumps false (JObj d)) = Some bs ->
  starts_with [239; 187; 191]%N (bs ++ [10]%N) || port.bad_framing (bs ++ [10]%N)
    || forallb port.py_space (removelast (bs ++ [10]%N)) = false.
Proof.
  intros Hb Hu. pose proof (fun x => payload_no_control false _ bs x (control_text _ Hb) Hu) as Hno.
  rewrite removelast_last, (port.frame_payload_nonblank _ _ Hu), orb_false_r. apply orb_false_iff. split.
  - revert Hu. cbn [dumps utf8_encode]. change (utf8_encode1 123) with (Some [123]%N). simpl.
    destruct (utf8_encode _); [|done]. by intros [= <-].
  - unfold port.bad_framing. rewrite list.last_snoc, removelast_last.
    rewrite bool_decide_eq_true_2 by done. rewrite !bool_decide_eq_false_2; [done| |].
    + rewrite elem_of_app, list_elem_of_singleton. intros [H|H]; [by apply (Hno 13%N)|done].
    + by apply Hno.
Qed.

(** C23: [encode_control_frame] and [parse_control_frame] are inverse on
    objects: what either side of the control channel sends within a byte limit
    is what the other side reads, when the interpreter's scanner supports the
    128 levels the protocol allows. *)
Theorem control_frame_roundtrip (rec_limit : nat) (max_bytes : Z) (d : pydict) (data : bytes) :
  wf_json (JObj d) -> (MAX_JSON_DEPTH < Z.of_nat rec_limit)%Z ->
  encode_control_frame max_bytes (JObj d) = Ok data ->
  parse_control_frame rec_limit max_bytes data = Ok (JObj d).
Proof.
  intros Hw Hr He. unfold encode_control_frame in He. inv_res.
  match goal with H : _bounds _ = _ |- _ => pose proof H as Hb; apply _bounds_Ok in Hb; rename H into Hbo end.
  match goal with H : from_option_res _ _ = Ok ?p |- _ => rename p into payload; rename H into Hp end.
  destruct (utf8_encode _) as [bs|] eqn:Hu; [|done]. simpl in Hp. injection Hp as ->. bool_hyps.
  unfold parse_control_frame. rewrite (framing_ok _ _ Hb Hu), removelast_last.
  rewrite (proj2 (Z.ltb_ge _ _)) by (unfold zlen in *; rewrite length_app; simpl; lia). cbn [raise_if rbind].
  rewrite (loads_control rec_limit _ _ Hb Hw Hr Hu). cbn [try_except rbind]. by rewrite Hbo.
Qed.

Lemma number_Err t e : _number t = Err e -> e = _fatal "ARGUMENT_INVALID" "bootstrap".
Proof.
  unfold _number. destruct (port.split_token t) as [[neg c] x]. destruct (forallb _ c).
  - intros [H|(? & _ & ?)]%bind_Err; [by inv_res|done].
  - destruct (port.exact_int c x); [done|]. by intros [= <-].
Qed.

(** Reading the control channel is total.  Whatever bytes arrive,
    [parse_control_frame] returns an object within the budget or raises a
    fatal [ControlProtocolError], so a malformed frame always ends the
    connection and no other exception escapes. *)
Theorem parse_control_frame_total (rec_limit : nat) (max_bytes : Z) (data : bytes) :
  match parse_control_frame rec_limit max_bytes data with
  | Ok m => bounded m /\ exists d, m = JObj d
  | Err e => exists code stage, e = ControlError code stage true
  end.
Proof.
  destruct (parse_control_frame rec_limit max_bytes data) as [m|e] eqn:H; unfold parse_control_frame in H.
  - inv_res. bool_hyps. destruct m as [| | | | | |d]; try done. split; [|eauto]. apply _bounds_Ok.
    match goal with H : make_fatal (_bounds ?v) = _ |- _ => destruct (_bounds v) as [[]|[]]; done end.
  - do 2 (apply bind_Err in H as [H|(_ & _ & H)]; [inv_res; unfold _fatal; eauto|]).
    apply bind_Err in H as [H|(v & _ & H)].
    + unfold try_except in H. destruct (rbind _ _) as [|e'] eqn:Hl; [done|].
      destruct (decode_failure e') eqn:Hd; inv_res; [unfold _fatal; eauto|].
      apply bind_Err in Hl as [Hl|(s & _ & Hl)]; [destruct (utf8_decode _); simpl in Hl; inv_res; done|].
      apply loads_Err in Hl. unfold scan_error, hooks in Hl. simpl in Hl.
      destruct Hl as [->|[->|[(d & Hl)|[(t & Hl)|[(t & Hl)|(t & Hl)]]]]]; try done.
      * apply unique_pairs_Err in Hl. subst. unfold _fatal. eauto.
      * apply number_Err in Hl. subst. unfold _fatal. eauto.
      * apply number_Err in Hl. subst. unfold _fatal. eauto.
      * unfold _constant, _fatal in Hl. inv_res. eauto.
    + apply bind_Err in H as [H|(_ & _ & H)].
      * destruct (_bounds v) as [|e'] eqn:Hb; [done|]. apply _bounds_Err in Hb as (c & s & f & ->).
        simpl in H. inv_res. eauto.
      * apply bind_Err in H as [H|(? & _ & ?)]; [inv_res; unfold _fatal; eauto|done].
Qed.

(** ** Properties: closed records *)

(** The fields of [d]: all of [required], and nothing but [required] and
    [optional]. *)
Definition fields (d : pydict) (required optional : list pystr) : Prop :=
  required ⊆ dkeys d /\ dkeys d ⊆ required ++ optional.

Lemma _object_verdict v req opt d : _object v req opt = Ok d <-> v = JObj d /\ fields d req opt.
Proof.
  unfold _object, fields. destruct v as [| | | | | |d']; try (split; [done|by intros [? _]]).
  rewrite bind_Ok. setoid_rewrite raise_if_Ok. setoid_rewrite orb_false_iff. setoid_rewrite negb_false_iff.
  setoid_rewrite set_sub_spec. split.
  - intros ([] & ? & [= ->]). done.
  - intros [[= ->] ?]. by exists tt.
Qed.

Lemma fields_dget d req opt k : fields d req opt -> k ∈ req -> exists x, dget k d = Some x.
Proof. intros [H _] Hk. apply dget_elem. by apply H. Qed.

Lemma _safe_Ok v p z : _safe v p = Ok z <-> v = JInt z /\ ((if p then 1 else 0) <= z <= MAX_SAFE_INTEGER)%Z.
Proof.
  unfold _safe. destruct v as [| |z'| | | |]; try (split; [done|by intros [? _]]).
  rewrite bind_Ok. setoid_rewrite raise_if_Ok. setoid_rewrite negb_false_iff.
  setoid_rewrite andb_true_iff. setoid_rewrite Z.leb_le.
  split; [intros (_ & ? & [= ->]); done|intros [[= ->] ?]; by exists tt].
Qed.

(** A validator of strings: an optional test and the string itself. *)
Lemma tested_string (v : json) (test : pystr -> bool) e s :
  match v with JStr x => raise_if (negb (test x)) e ;; Ok x | _ => Err e end = Ok s <->
  v = JStr s /\ test s = true.
Proof.
  destruct v as [| | | |x| |]; try (split; [done|by intros [? _]]).
  rewrite bind_Ok. setoid_rewrite raise_if_Ok. setoid_rewrite negb_false_iff.
  split; [intros (_ & ? & [= ->]); done|intros [[= ->] ?]; by exists tt].
Qed.

Lemma _handle_Ok v s : _handle v = Ok s <-> v = JStr s /\ match_hex 32 s = true.
Proof. apply (tested_string v (match_hex 32)). Qed.
Lemma _public_id_Ok v s : _public_id v = Ok s <-> v = JStr s /\ match_identifier s = true.
Proof. apply (tested_string v match_identifier). Qed.
Lemma _enum_Ok v allowed s : _enum v allowed = Ok s <-> v = JStr s /\ s ∈ allowed.
Proof.
  unfold _enum. rewrite (tested_string v (fun s => bool_decide (s ∈ allowed))). by rewrite bool_decide_eq_true.
Qed.

Lemma _digest_verdict v s : _digest v = Ok s <-> v = JStr s /\ match_hex 64 s = true.
Proof. apply (tested_string v (match_hex 64)). Qed.

(** Opens the equations a successful validation leaves behind. *)
Ltac open_records :=
  repeat match goal with
  | H : _object _ _ _ = Ok _ |- _ => apply _object_verdict in H; destruct H as [H ?]; simplify_eq
  | H : getitem (JObj _) _ = Ok _ |- _ => apply port.getitem_Ok in H; destruct H as (? & ? & ?); simplify_eq
  | H : _safe _ _ = Ok _ |- _ => apply _safe_Ok in H; destruct H as [? ?]; simplify_eq
  | H : _handle _ = Ok _ |- _ => apply _handle_Ok in H; destruct H as [? ?]; simplify_eq
  | H : _public_id _ = Ok _ |- _ => apply _public_id_Ok in H; destruct H as [? ?]; simplify_eq
  | H : _digest _ = Ok _ |- _ => apply _digest_verdict in H; destruct H as [? ?]; simplify_eq
  | H : _enum _ _ = Ok _ |- _ => apply _enum_Ok in H; destruct H as [? ?]; simplify_eq
  | H : _scalar_string _ _ _ = Ok _ |- _ => apply _scalar_string_Ok in H; destruct H as (? & ? & ?); simplify_eq
  end.

(** *** The checks of arguments raise only non-fatal errors *)
Lemma raises_object1 v req opt : raises soft (_object v req opt).
Proof. unfold _object. destruct v; try apply soft_invalid. apply raises_bind; [auto with gate|done]. Qed.
Lemma raises_safe v p : raises soft (_safe v p).
Proof. unfold _safe. destruct v; try apply soft_invalid. apply raises_bind; [auto with gate|done]. Qed.
Lemma raises_handle v : raises soft (_handle v).
Proof. unfold _handle. destruct v; try apply soft_invalid. apply raises_bind; [auto with gate|done]. Qed.
Lemma raises_public_id v : raises soft (_public_id v).
Proof. unfold _public_id. destruct v; try apply soft_invalid. apply raises_bind; [auto with gate|done]. Qed.
Lemma raises_enum v l : raises soft (_enum v l).
Proof. unfold _enum. destruct v; try apply soft_invalid. apply raises_bind; [auto with gate|done]. Qed.

(** Walks over a validator. *)
Ltac soft_step :=
  match goal with
  | |- raises _ (Ok _) => exact I
  | |- raises _ (raise_if _ _) => apply raises_if; auto with gate
  | |- raises _ (Err _) => simpl; auto with gate
  | |- raises _ (from_option_res _ _) => apply raises_option; auto with gate
  | |- raises _ (_object _ _ _) => apply raises_object1
  | |- raises _ (_safe _ _) => apply raises_safe
  | |- raises _ (_handle _) => apply raises_handle
  | |- raises _ (_public_id _) => apply raises_public_id
  | |- raises _ (_enum _ _) => apply raises_enum
  | |- raises _ (_scalar_string _ _ _) => apply raises_scalar_string
  | H : fields ?d ?req ?opt |- raises _ (rbind (getitem (JObj ?d) ?k) _) =>
    let x := fresh "x" in let Hx := fresh "Hx" in
    destruct (fields_dget d req opt k H) as [x Hx]; [by_decision|];
    rewrite (getitem_dget _ _ _ Hx); cbn [rbind]
  | |- raises _ (rbind (_object _ _ _) _) =>
    apply raises_bind; [apply raises_object1|let H := fresh in intros ? H; apply _object_verdict in H; destruct H as [H ?]; simplify_eq]
  | |- raises _ (rbind (rbind _ _) _) => rewrite rbind_assoc
  | |- raises _ (rbind (Ok _) _) => cbn [rbind]
  | |- raises _ (rbind (Err _) _) => cbn [rbind]
  | |- raises _ (rbind (match ?x with _ => _ end) _) => destruct x eqn:?
  | |- raises _ (rbind _ _) => apply raises_bind; [|intros ? ?]
  | |- raises _ (for_each _ _) => apply raises_for_each; intros ? ?
  | |- raises _ (traverse _ _) => apply raises_traverse; intros ? ?
  | |- raises _ (match ?x with _ => _ end) => destruct x eqn:?
  end.

Lemma raises_input_ref v : raises soft (_input_ref v).
Proof. unfold _input_ref. repeat soft_step. Qed.

Lemma raises_submission v : raises soft (_submission v).
Proof.
  unfold _submission. repeat match goal with |- raises _ (_input_ref _) => apply raises_input_ref | _ => soft_step end.
Qed.

Lemma raises_limits v keys p : raises soft (_limits v keys p).
Proof. unfold _limits. repeat soft_step. Qed.

Lemma raises_outcome v : raises soft (_outcome v).
Proof. unfold _outcome. repeat soft_step. Qed.

Lemma raises_attestation v : raises soft (_attestation v).
Proof.
  unfold _attestation. repeat soft_step.
  match goal with H : fields ?d ?req ?opt, Hx : ?x ∈ attestation_strings |- _ =>
    destruct (fields_dget d req opt x H) as [y Hy]; [elem_literal Hx; set_solver|] end.
  by rewrite (getitem_dget _ _ _ Hy).
Qed.

Lemma raises_hello_args v : raises soft (hello_args v).
Proof. unfold hello_args. repeat soft_step. Qed.

Lemma raises_argv v : raises soft (argv_check v).
Proof. unfold argv_check. repeat soft_step. Qed.

(** Removing a field of [args] keeps the message within the budget. *)
Lemma dset_split k v d x : dget k d = Some x -> exists d1 d2, d = d1 ++ (k, x) :: d2 /\ dset k v d = d1 ++ (k, v) :: d2.
Proof.
  induction d as [|[k' y] d IH]; simpl; [done|]. case_bool_decide as E.
  - intros [= ->]. subst. by exists [], d.
  - intros (d1 & d2 & -> & ->)%IH. by exists ((k', y) :: d1), d2.
Qed.

Lemma subvalues_obj d : subvalues (JObj d) = JObj d :: flat_map subvalues d.*2.
Proof. by rewrite subvalues_children. Qed.

(** What [_bounds] requires of one node. *)
Definition node_fits (n : json) : Prop :=
  match n with
  | JObj d => Forall (short MAX_FRAME_BYTES) (dkeys d)
  | JStr s => short MAX_FRAME_BYTES s
  | JInt z => (Z.abs z <= MAX_SAFE_INTEGER)%Z
  | JFloat _ => False
  | _ => True
  end.

(** [v] is no deeper and no larger than [w], and its nodes fit when those of
    [w] do. *)
Definition dominated (v w : json) : Prop :=
  (json_depth v <= json_depth w)%Z /\ (length (subvalues v) <= length (subvalues w))%nat /\
  (Forall node_fits (subvalues w) -> Forall node_fits (subvalues v)).

Lemma dominated_bounded v w : dominated v w -> bounded w -> bounded v.
Proof.
  intros (Hd & Hn & Hf) (Hwd & Hwn & Hwf). split_and!; [lia|unfold zlen in *; lia|]. by apply Hf.
Qed.

Lemma dominated_ddel k d : dominated (JObj (ddel k d)) (JObj d).
Proof.
  assert ((ddel k d).*2 `sublist_of` d.*2) as Hs by apply fmap_sublist, sublist_filter.
  assert (dkeys (ddel k d) ⊆ dkeys d) as Hk.
  { intros x. unfold dkeys. rewrite !list_elem_of_fmap. intros (kv & -> & [_ Hin]%list_elem_of_filter). eauto. }
  split_and!.
  - pose proof (json_depth_nonneg (JObj d)) as H0. apply json_depth_le; [done|].
    pose proof (proj1 (json_depth_le (JObj d) _ H0) (Z.le_refl _)) as HF. simpl in HF |- *.
    rewrite list.Forall_forall in HF |- *. intros c Hc. apply HF. by eapply elem_of_sublist.
  - rewrite !subvalues_obj. simpl. apply le_n_S. clear Hk.
    induction Hs as [|x l l' _ IH|x l l' _ IH]; simpl; rewrite ?length_app; lia.
  - rewrite !subvalues_obj, !list.Forall_cons. intros [H1 H2]. split.
    + simpl in *. rewrite list.Forall_forall in H1 |- *. auto.
    + rewrite list.Forall_forall in H2 |- *. intros x Hx. apply H2.
      rewrite list_elem_of_In, in_flat_map in Hx |- *. destruct Hx as (y & Hy & Hx). exists y. split; [|done].
      rewrite <- list_elem_of_In in Hy |- *. by eapply elem_of_sublist.
Qed.

Lemma dominated_field d1 k x x' d2 :
  dominated x' x -> dominated (JObj (d1 ++ (k, x') :: d2)) (JObj (d1 ++ (k, x) :: d2)).
Proof.
  intros (Hd & Hn & Hf). split_and!.
  - set (w := JObj (d1 ++ (k, x) :: d2)). pose proof (json_depth_nonneg w) as H0. apply json_depth_le; [done|].
    pose proof (proj1 (json_depth_le w _ H0) (Z.le_refl _)) as HF. unfold w in HF at 1. simpl in HF |- *.
    rewrite fmap_app in HF |- *. simpl in HF |- *. rewrite Forall_app, list.Forall_cons in HF |- *.
    destruct HF as (? & ? & ?). split_and!; [done|lia|done].
  - rewrite !subvalues_obj, !fmap_app. simpl. rewrite !flat_map_app, !length_app. simpl. rewrite !length_app. lia.
  - rewrite !subvalues_obj, !fmap_app. simpl. rewrite !flat_map_app. simpl.
    rewrite !list.Forall_cons, !Forall_app. unfold node_fits, dkeys. rewrite !fmap_app. simpl. naive_solver.
Qed.

Lemma without_manifest_bounded m d :
  dget "args" m = Some (JObj d) -> bounded (JObj m) ->
  bounded (JObj (dset "args" (JObj (ddel "manifestJson" d)) m)).
Proof.
  intros Ha. destruct (dset_split "args" (JObj (ddel "manifestJson" d)) m _ Ha) as (d1 & d2 & E & ->).
  apply dominated_bounded. rewrite E. apply dominated_field, dominated_ddel.
Qed.

Lemma raises_encode n v : bounded v -> raises soft (encode_control_frame n v).
Proof.
  intros Hb. unfold encode_control_frame. rewrite (proj2 (_bounds_Ok v) Hb). cbn [rbind]. repeat soft_step.
Qed.

Lemma raises_embedded_manifest rec_limit s :
  Forall (fun c => is_scalar c = true) s ->
  raises soft (try_except
    (data ← from_option_res (utf8_encode s) UnicodeError;
     m ← port._parse_json rec_limit data; port.validate_manifest m ;; Ok tt)
    manifest_failure (fun _ => Err (_fail "ARGUMENT_INVALID" "policy"))).
Proof.
  intros [bs ->]%utf8_encode_Some. cbn [from_option_res rbind].
  assert (raises port.protocol_error (m ← port._parse_json rec_limit bs; port.validate_manifest m ;; Ok tt)) as H.
  { apply raises_bind; [|intros m _; apply raises_bind; [apply port.raises_manifest|done]].
    destruct (port._parse_json rec_limit bs) eqn:E; [done|].
    apply port.parse_json_Err in E as [->|[->| ->]]; by eexists. }
  destruct (rbind _ _) as [|e]; [done|]. destruct H as [c ->]. simpl. auto with gate.
Qed.

Lemma raises_session_open rec_limit m args :
  dget "args" m = Some args -> bounded (JObj m) -> raises soft (session_open_args rec_limit (JObj m) args).
Proof.
  intros Ha Hb. unfold session_open_args.
  repeat match goal with
  | |- raises _ (_submission _) => apply raises_submission
  | |- raises _ (_limits _ _ _) => apply raises_limits
  | |- raises _ (encode_control_frame _ _) => apply raises_encode, without_manifest_bounded; [exact Ha|exact Hb]
  | H : _scalar_string _ _ _ = Ok _ |- raises _ (rbind (try_except _ _ _) _) =>
    apply raises_bind; [apply raises_embedded_manifest; apply _scalar_string_Ok in H as (_ & H & _);
                        by eapply short_scalar|intros ? ?]
  | _ => soft_step
  end.
Qed.

(** The operations [session_args] is written for. *)
Definition session_ops : list pystr := strs [
  "authoring.exec"; "session.prepare"; "session.authorize"; "worker.acquire"; "worker.release";
  "session.cancel"; "session.close"; "session.status"; "operation.status"].

Lemma raises_session_args op args : op ∈ session_ops -> raises soft (session_args op args).
Proof.
  intros Hop. unfold session_ops in Hop. elem_literal Hop.
  destruct_or! Hop; subst; unfold session_args, required_args; eval_decides; cbn [rbind].
  all: repeat match goal with
    | |- raises _ (_input_ref _) => apply raises_input_ref
    | |- raises _ (argv_check _) => apply raises_argv
    | |- raises _ (_attestation _) => apply raises_attestation
    | |- raises _ (_outcome _) => apply raises_outcome
    | _ => soft_step
    end.
Qed.

(** The envelope of a request: what a client must get right for the server to
    answer under its identifier. *)
Definition envelope (m : json) : Prop :=
  exists d id op, m = JObj d /\ fields d (strs ["v"; "kind"; "id"; "op"; "args"]) [] /\
    dget "v" d = Some (JInt 1) /\ dget "kind" d = Some (JStr "request") /\
    dget "id" d = Some (JInt id) /\ (1 <= id <= MAX_SAFE_INTEGER)%Z /\
    dget "op" d = Some (JStr op) /\ op ∈ OPERATIONS.

Lemma int_is_true v n : int_is v n = true <-> v = JInt n.
Proof. destruct v; simpl; try (split; congruence). rewrite Z.eqb_eq. split; congruence. Qed.

Lemma envelope_checks_spec m :
  match envelope_checks m with
  | Ok op => envelope m /\ op ∈ OPERATIONS /\ exists d args, m = JObj d /\ dget "args" d = Some args
  | Err e => envelope_failure e = true /\ ~ envelope m
  end.
Proof.
  unfold envelope_checks. destruct (_object m _ _) as [d|e] eqn:E; cbn [rbind].
  2:{ pose proof (raises_object1 m (strs ["v"; "kind"; "id"; "op"; "args"]) []) as H. rewrite E in H.
      destruct H as (c & s & ->). split; [done|]. intros (d & id & op & -> & Hf & _).
      by rewrite (proj2 (_object_verdict _ _ _ d)) in E. }
  apply _object_verdict in E as [-> Hf].
  destruct (fields_dget _ _ _ "v" Hf) as [v Hv]; [by_decision|].
  destruct (fields_dget _ _ _ "kind" Hf) as [k Hk]; [by_decision|].
  destruct (fields_dget _ _ _ "id" Hf) as [i Hi]; [by_decision|].
  destruct (fields_dget _ _ _ "op" Hf) as [o Ho]; [by_decision|].
  destruct (fields_dget _ _ _ "args" Hf) as [a Ha]; [by_decision|].
  rewrite (getitem_dget _ _ _ Hv), (getitem_dget _ _ _ Hk), (getitem_dget _ _ _ Hi), (getitem_dget _ _ _ Ho).
  cbn [rbind].
  destruct (int_is v 1) eqn:Hv1; cbn [negb orb raise_if rbind].
  2:{ split; [done|]. intros (d' & id & op & [= <-] & _ & Hv' & _). rewrite Hv' in Hv. injection Hv as <-. done. }
  destruct (str_is k "request") eqn:Hk1; cbn [negb orb raise_if rbind].
  2:{ split; [done|]. intros (d' & id & op & [= <-] & _ & _ & Hk' & _). rewrite Hk' in Hk. injection Hk as <-. done. }
  apply int_is_true in Hv1 as ->. apply str_is_true in Hk1 as ->.
  destruct (_safe i true) as [id|e] eqn:Es; cbn [rbind].
  2:{ pose proof (raises_safe i true) as H. rewrite Es in H. destruct H as (c & s & ->). split; [done|].
      intros (d' & id & op & [= <-] & _ & _ & _ & Hi' & Hr & _). rewrite Hi' in Hi. injection Hi as <-.
      by rewrite (proj2 (_safe_Ok _ true id)) in Es. }
  apply _safe_Ok in Es as [-> Hr].
  destruct o as [| | | |op| |]; try (split; [done|]; intros (d' & id' & op & [= <-] & _ & _ & _ & _ & _ & Ho' & _); congruence).
  case_bool_decide as Hop; simpl.
  - split_and!; [|done|by exists d, a]. by exists d, id, op.
  - split; [done|]. intros (d' & id' & op' & [= <-] & _ & _ & _ & _ & _ & Ho' & Hin). congruence.
Qed.

(** C31: a bounded control request is answered in one of three ways.  It is
    accepted unchanged with a valid envelope; or it is refused fatally, exactly
    when its envelope (fields, version, identifier, operation) is invalid; or
    it is refused without ending the connection, exactly when the envelope is
    valid but the arguments are not.  No other exception escapes the checks of
    any of the eleven operations. *)
Theorem validate_request_verdict (rec_limit : nat) (m : json) :
  bounded m ->
  match validate_request rec_limit m with
  | Ok m' => m' = m /\ envelope m
  | Err (ControlError _ _ fatal) => fatal = true <-> ~ envelope m
  | Err _ => False
  end.
Proof.
  intros Hb. unfold validate_request. rewrite (proj2 (_bounds_Ok m) Hb). cbn [rbind].
  pose proof (envelope_checks_spec m) as He.
  destruct (envelope_checks m) as [op|e]; cbn [try_except].
  2:{ destruct He as [-> He]. simpl. naive_solver. }
  destruct He as (Henv & Hop & d & args & -> & Ha). cbn [rbind]. rewrite (getitem_dget _ _ _ Ha). cbn [rbind].
  match goal with |- context [rbind ?c _] => assert (raises soft c) as Hs end.
  { case_bool_decide; [apply raises_hello_args|]. case_bool_decide; [by apply raises_session_open|].
    apply raises_session_args. unfold OPERATIONS in Hop. unfold session_ops. elem_literal Hop.
    destruct_or! Hop; subst; try done; by_decision. }
  destruct (if bool_decide (op = "hello") then _ else _) as [[]|e]; cbn [rbind]; [done|].
  destruct Hs as (c & s & ->). naive_solver.
Qed.

(** ** Properties: terminal cleanup *)

Lemma distinct_ids_Ok seen l :
  distinct_ids seen l = Ok tt <->
  exists names, l = map JStr names /\ Forall (fun s => match_identifier s = true) names /\
    NoDup names /\ Forall (fun s => s ∉ seen) names.
Proof.
  revert seen. induction l as [|x l IH]; intros seen; cbn [distinct_ids].
  { split; [|done]. intros _. exists []. split_and!; constructor || done. }
  rewrite bind_Ok. setoid_rewrite _public_id_Ok. setoid_rewrite bind_Ok. setoid_rewrite raise_if_Ok.
  setoid_rewrite bool_decide_eq_false. setoid_rewrite IH. split.
  - intros (s & [-> Hs] & [] & Hn & names & -> & Hall & Hnd & Hseen).
    exists (s :: names). split_and!; [done|by constructor| |].
    + apply list.NoDup_cons. split; [|done]. intros Hin. rewrite list.Forall_forall in Hseen.
      apply (Hseen s Hin). by left.
    + constructor; [done|]. eapply Forall_impl; [|exact Hseen]. simpl. intros y Hy Hin. apply Hy. by right.
  - intros ([|s names] & E & Hall & Hnd & Hseen); [done|]. simpl in E. injection E as -> ->.
    apply list.Forall_cons in Hall as [Hs Hall], Hseen as [Hn Hseen]. apply list.NoDup_cons in Hnd as [Hnin Hnd].
    exists s. split; [done|]. exists tt. split; [done|]. exists names. split_and!; try done.
    apply list.Forall_forall. intros y Hy. rewrite list.Forall_forall in Hseen. specialize (Hseen y Hy).
    rewrite not_elem_of_cons. split; [|done]. intros ->. done.
Qed.

(** The state in which a session ends. *)
Inductive terminal : Type :=
  | Closed
  | CleanupFailed (remaining : list pystr).

Definition denotes_terminal (d : pydict) (t : terminal) : Prop :=
  fields d (strs ["phase"; "cleanupStatus"; "remainingResources"]) [] /\
  match t with
  | Closed => dget "phase" d = Some (JStr "closed") /\ dget "cleanupStatus" d = Some (JStr "succeeded") /\
      dget "remainingResources" d = Some (JArr [])
  | CleanupFailed names =>
      dget "phase" d = Some (JStr "cleanupFailed") /\ dget "cleanupStatus" d = Some (JStr "failed") /\
      dget "remainingResources" d = Some (JArr (map JStr names)) /\
      (zlen names <= 64)%Z /\ NoDup names /\ Forall (fun s => match_identifier s = true) names
  end.

Lemma remaining_Ok v : _remaining_resources v = Ok tt <->
  exists names, v = JArr (map JStr names) /\ (zlen names <= 64)%Z /\ NoDup names /\
    Forall (fun s => match_identifier s = true) names.
Proof.
  unfold _remaining_resources. destruct v as [| | | | |l|]; try (split; [done|naive_solver]).
  rewrite bind_Ok. setoid_rewrite raise_if_Ok. setoid_rewrite Z.ltb_ge. setoid_rewrite distinct_ids_Ok. split.
  - intros ([] & Hl & names & -> & ? & ? & _). exists names. split_and!; try done.
    unfold zlen in *. by rewrite length_map in Hl.
  - intros (names & [= ->] & ? & ? & ?). exists tt. split; [unfold zlen in *; by rewrite length_map|].
    exists names. split_and!; try done. apply list.Forall_forall. intros s _ Hs. by apply elem_of_nil in Hs.
Qed.

(** A terminal cleanup result is coherent.  [_cleanup_result] accepts
    exactly the closed records of a session that closed with a successful
    cleanup and nothing left over, or of one whose cleanup failed with at most
    64 distinct named leftovers: a session is never reported closed with
    resources remaining. *)
Theorem cleanup_result_spec (v : json) :
  _cleanup_result v = Ok tt <-> exists d t, v = JObj d /\ denotes_terminal d t.
Proof.
  unfold _cleanup_result. split.
  - intros H. inv_res. match goal with H : _object _ _ _ = _ |- _ => apply _object_verdict in H as [-> Hf] end.
    repeat match goal with H : getitem (JObj _) _ = Ok _ |- _ => apply port.getitem_Ok in H as (? & [= <-] & ?) end.
    repeat match goal with H : _enum _ _ = _ |- _ => apply _enum_Ok in H as [-> ?] end.
    match goal with H : _remaining_resources _ = _ |- _ => apply remaining_Ok in H as (names & -> & ? & ? & ?) end.
    bool_hyps.
    match goal with H : _ ∈ strs ["closed"; _] |- _ => elem_literal H; destruct H as [->|[->|[]]] end;
    match goal with H : _ ∈ strs ["succeeded"; _] |- _ => elem_literal H; destruct H as [->|[->|[]]] end;
    try match goal with H : Bool.eqb _ _ = true |- _ => by vm_compute in H end.
    + eexists _, Closed. split; [done|]. split; [done|]. destruct names; [done|].
      match goal with H : _ && truthy _ = false |- _ => by vm_compute in H end.
    + eexists _, (CleanupFailed names). done.
  - intros (d & t & -> & Hf & Ht).
    rewrite (proj2 (_object_verdict _ _ _ d)) by done. cbn [rbind].
    destruct t as [|names]; [destruct Ht as (H1 & H2 & H3)|destruct Ht as (H1 & H2 & H3 & H4 & H5 & H6)];
      rewrite (getitem_dget _ _ _ H1), (getitem_dget _ _ _ H2), (getitem_dget _ _ _ H3); cbn [rbind].
    + done.
    + rewrite (proj2 (_enum_Ok _ _ (str "cleanupFailed"))) by (split; [done|by_decision]).
      rewrite (proj2 (_enum_Ok _ _ (str "failed"))) by (split; [done|by_decision]). cbn [rbind].
      rewrite (proj2 (remaining_Ok _)) by eauto. done.
Qed.

(** ** Properties: paths *)

(** A relative path that [_input_ref] admits stays below its root: it is
    ["."], or a sequence of non-empty segments other than ["."] and [".."]
    joined by slashes, without NUL, of at most 1024 bytes. *)
Theorem input_ref_confined (d : pydict) :
  _input_ref (JObj d) = Ok tt ->
  exists root path, dget "rootId" d = Some (JStr root) /\ match_identifier root = true /\
    dget "relativePath" d = Some (JStr path) /\ short 1024 path /\ ~ (0%N ∈ path) /\
    (path = "." \/ path = join_with 47 (split_on 47 path) /\
       Forall (fun p => p <> [] /\ p <> str "." /\ p <> str "..") (split_on 47 path)).
Proof.
  unfold _input_ref. intros H. inv_res.
  match goal with H : _object _ _ _ = _ |- _ => apply _object_verdict in H as [[= <-] Hf] end.
  repeat match goal with H : getitem (JObj _) _ = Ok _ |- _ => apply port.getitem_Ok in H as (? & [= <-] & ?) end.
  match goal with H : _public_id _ = _ |- _ => apply _public_id_Ok in H as [-> ?] end.
  match goal with H : _scalar_string _ _ _ = Ok ?s |- _ => apply _scalar_string_Ok in H as (-> & ? & ?); rename s into path end.
  bool_hyps. eexists _, path. split_and!; try done.
  match goal with H : negb _ && _ = false |- _ => apply andb_false_iff in H; destruct H as [Hc|Hc] end.
  - left. bool_hyps. done.
  - right. split; [by rewrite join_split|]. apply list.Forall_forall. intros p Hp.
    assert (bad_part p = false) as Hb.
    { apply not_true_iff_false. intros Hb. apply not_true_iff_false in Hc. apply Hc, existsb_exists.
      exists p. split; [by apply list_elem_of_In|done]. }
    unfold bad_part in Hb. bool_hyps. split_and!; intros ->; apply Hb; by_decision.
Qed.

(** ** Properties: base64 *)

Definition is_byte (b : N) : Prop := (b < 256)%N.

(** The 64 digits, by enumeration. *)
Lemma b64_digit n : (n < 64)%N -> b64_value (b64_char n) = Some n /\ b64_char n <> 61%N.
Proof.
  intros Hn.
  assert (Forall (fun n => b64_value (b64_char n) = Some n /\ b64_char n <> 61%N) (map N.of_nat (seq 0 64))) as H.
  { vm_compute. repeat constructor; discriminate. }
  rewrite list.Forall_forall in H. apply H. apply list_elem_of_In, in_map_iff. exists (N.to_nat n).
  split; [lia|]. apply in_seq. lia.
Qed.

Lemma b64_value_lt c n : b64_value c = Some n -> (n < 64)%N.
Proof.
  unfold b64_value, in_range. repeat case_match; intros; simplify_eq;
    repeat match goal with
    | H : (_ && _) = true |- _ => apply andb_true_iff in H as [?%N.leb_le ?%N.leb_le]
    end; lia.
Qed.

Ltac div_lia := zify; Z.to_euclidean_division_equations; lia.

(** Induction over groups of three bytes. *)
Lemma bytes3_ind (P : list N -> Prop) :
  P [] -> (forall a, P [a]) -> (forall a b, P [a; b]) ->
  (forall a b c l, P l -> P (a :: b :: c :: l)) -> forall l : list N, P l.
Proof.
  intros H0 H1 H2 H3 l. enough (forall n l, (length l <= n)%nat -> P l) by eauto.
  clear l. induction n as [|n IH]; intros [|a [|b [|c l]]] Hl; simpl in Hl; auto; try lia.
  apply H3, IH. lia.
Qed.

Lemma b64_decode_encode data : Forall is_byte data -> b64decode (b64encode data) = Some data.
Proof.
  induction data as [|a|a b|a b c data IH] using bytes3_ind; intros Hb.
  - done.
  - apply list.Forall_cons in Hb as [Ha _]. unfold is_byte in *. cbn [b64encode b64decode].
    rewrite (proj1 (b64_digit (a / 4) ltac:(div_lia))), (proj1 (b64_digit (a mod 4 * 16) ltac:(div_lia))). simpl.
    do 2 f_equal. div_lia.
  - apply list.Forall_cons in Hb as [Ha [Hb _]%list.Forall_cons]. unfold is_byte in *. cbn [b64encode b64decode].
    destruct (b64_digit (b mod 16 * 4) ltac:(div_lia)) as [E3 N3].
    rewrite (proj1 (b64_digit (a / 4) ltac:(div_lia))), (proj1 (b64_digit (a mod 4 * 16 + b / 16) ltac:(div_lia))), E3.
    cbn [mbind option_bind]. rewrite (proj2 (N.eqb_neq _ _) N3). simpl. do 2 f_equal; [|f_equal]; div_lia.
  - apply list.Forall_cons in Hb as [Ha [Hb [Hc Hd]%list.Forall_cons]%list.Forall_cons].
    unfold is_byte in Ha, Hb, Hc. cbn [b64encode b64decode].
    destruct (b64_digit (b mod 16 * 4 + c / 64) ltac:(div_lia)) as [E3 N3].
    destruct (b64_digit (c mod 64) ltac:(div_lia)) as [E4 N4].
    rewrite (proj1 (b64_digit (a / 4) ltac:(div_lia))), (proj1 (b64_digit (a mod 4 * 16 + b / 16) ltac:(div_lia))), E3, E4.
    cbn [mbind option_bind]. rewrite (proj2 (N.eqb_neq _ _) N3), (proj2 (N.eqb_neq _ _) N4), (IH Hd). simpl.
    do 2 f_equal; [div_lia|f_equal; [div_lia|f_equal; div_lia]].
Qed.

(** Induction over groups of four digits. *)
Lemma digits4_ind (P : list N -> Prop) :
  P [] -> (forall a, P [a]) -> (forall a b, P [a; b]) -> (forall a b c, P [a; b; c]) ->
  (forall a b c d l, P l -> P (a :: b :: c :: d :: l)) -> forall l : list N, P l.
Proof.
  intros H0 H1 H2 H3 H4 l. enough (forall n l, (length l <= n)%nat -> P l) by eauto.
  clear l. induction n as [|n IH]; intros [|a [|b [|c [|d l]]]] Hl; simpl in Hl; auto; try lia.
  apply H4, IH. lia.
Qed.

Lemma b64_decode_bytes s data : b64decode s = Some data -> Forall is_byte data.
Proof.
  revert data. induction s as [| | | |p q r t rest IH] using digits4_ind; intros data; try done.
  { intros [= <-]. constructor. }
  cbn [b64decode].
  destruct (b64_value p) as [x|] eqn:Hx; [|done]. destruct (b64_value q) as [y|] eqn:Hy; [|done]. cbn [mbind option_bind].
  apply b64_value_lt in Hx, Hy. unfold is_byte.
  assert (x * 4 + y / 16 < 256)%N by div_lia.
  destruct (r =? 61)%N. { case_match; [|done]. intros [= <-]. by constructor. }
  destruct (b64_value r) as [z|] eqn:Hz; [|done]. cbn [mbind option_bind]. apply b64_value_lt in Hz.
  assert (y mod 16 * 16 + z / 4 < 256)%N by div_lia.
  destruct (t =? 61)%N. { case_match; [|done]. intros [= <-]. by repeat constructor. }
  destruct (b64_value t) as [w|] eqn:Hw; [|done]. cbn [mbind option_bind]. apply b64_value_lt in Hw.
  destruct (b64decode rest) as [bs|]; [|done]. intros [= <-].
  repeat constructor; [done|done|div_lia|by apply IH].
Qed.

(** Output chunks are canonical base64.  The text [canonical_base64] sends
    decodes to the very bytes it was given, and the receiving check accepts a
    chunk exactly when it is the encoding of some byte string of at most 16384
    bytes, so every chunk has one accepted text. *)
Theorem output_chunk_canonical (v : json) :
  (output_chunk v = Ok tt <->
   exists data, Forall is_byte data /\ (zlen data <= MAX_OUTPUT_CHUNK_BYTES)%Z /\
     canonical_base64 data = Ok (b64encode data) /\ v = JStr (b64encode data))
  /\ forall data s, Forall is_byte data -> canonical_base64 data = Ok s -> b64decode s = Some data.
Proof.
  split.
  - unfold output_chunk, canonical_base64. split.
    + destruct v as [| | | |s| |]; try done. intros (data & Hd & H)%bind_Ok.
      destruct (b64decode s) as [bs|] eqn:E; simpl in Hd; simplify_eq. inv_res. bool_hyps. exists data.
      split_and!; [by eapply b64_decode_bytes|done| |by f_equal].
      by rewrite (proj2 (Z.ltb_ge _ _)).
    + intros (data & Hb & Hl & _ & ->). rewrite b64_decode_encode by done. cbn [rbind from_option_res].
      by rewrite bool_decide_eq_true_2, (proj2 (Z.ltb_ge _ _)).
  - intros data s Hb H. unfold canonical_base64 in H. inv_res. by apply b64_decode_encode.
Qed.

(** ** Properties: capability negotiation *)

(** The hello result reports capability [id] as available and enforced. *)
Definition enforced (result : json) (id : pystr) : Prop :=
  exists d caps o scope, result = JObj d /\ dget "capabilities" d = Some (JArr caps) /\ JObj o ∈ caps /\
    dget "id" o = Some (JStr id) /\ dget "available" o = Some (JBool true) /\
    dget "enforcedScope" o = Some (JStr scope) /\ scope ∈ CAPABILITY_SCOPES /\ scope <> "none" /\
    dget "reason" o = None.

Lemma capability_Ok seen cap id :
  capability seen cap = Ok (id, true) ->
  exists o scope, cap = JObj o /\ dget "id" o = Some (JStr id) /\ dget "available" o = Some (JBool true) /\
    dget "enforcedScope" o = Some (JStr scope) /\ scope ∈ CAPABILITY_SCOPES /\ scope <> "none" /\
    dget "reason" o = None.
Proof.
  unfold capability. intros H. inv_res.
  match goal with H : _object _ _ _ = _ |- _ => apply _object_verdict in H; destruct H as [-> Hf] end.
  repeat match goal with H : getitem (JObj _) _ = Ok _ |- _ => apply port.getitem_Ok in H as (? & [= <-] & ?) end.
  repeat match goal with H : (_, _) = (_, _) |- _ => injection H as -> ? end.
  match goal with H : bool_decide (_ = JBool true) = true |- _ => rewrite ?H in *; apply bool_decide_eq_true in H as -> end.
  match goal with H : _public_id _ = _ |- _ => apply _public_id_Ok in H as [-> ?] end.
  bool_hyps. match goal with H : str_in _ _ = true |- _ => apply str_in_true in H as (scope & -> & ?) end.
  cbn [andb negb] in *. bool_hyps. eexists _, scope. split_and!; try done.
  - intros ->. match goal with H : str_is _ _ = false |- _ => by vm_compute in H end.
  - apply dget_None. intros Hk%dmem_true. congruence.
Qed.

Lemma capabilities_elem seen l cs c :
  capabilities seen l = Ok cs -> c ∈ cs -> exists seen' cap, cap ∈ l /\ capability seen' cap = Ok c.
Proof.
  revert seen cs. induction l as [|x l IH]; intros seen cs; cbn [capabilities].
  { intros [= <-] ?%elem_of_nil. done. }
  intros H Hin. inv_res. apply elem_of_cons in Hin as [->|Hin].
  - eexists seen, x. split; [by left|done].
  - edestruct IH as (seen' & cap & ? & ?); [done|done|]. exists seen', cap. split; [by right|done].
Qed.

(** Negotiation cannot silently drop a requirement.  When a hello result
    is accepted, every capability the request required is reported by it as
    available with a real enforcement scope and no excuse. *)
Theorem hello_result_enforced (request result : json) (d args : pydict) (required : list pystr) (id : pystr) :
  request = JObj d -> dget "args" d = Some (JObj args) ->
  dget "requiredCapabilities" args = Some (JArr (map JStr required)) ->
  hello_result request result = Ok tt -> id ∈ required -> enforced result id.
Proof.
  intros -> Ha Hr H Hin. unfold hello_result in H.
  rewrite (getitem_dget _ _ _ Ha) in H. cbn [rbind] in H. rewrite Hr in H. inv_res.
  match goal with H : _object result _ _ = _ |- _ => apply _object_verdict in H as [-> Hf] end.
  repeat match goal with H : getitem (JObj _) _ = Ok _ |- _ => apply port.getitem_Ok in H as (? & [= <-] & ?) end.
  match goal with H : match ?c with _ => _ end = Ok _ |- _ => destruct c as [| | | | |caps|]; try discriminate H; inv_res end.
  match goal with H : set_members _ = Ok _ |- _ => cbn [default set_members Datatypes.id] in H; inv_res end. bool_hyps.
  match goal with H : forallb (fun _ => _) _ = true |- _ => rewrite forallb_forall in H;
    specialize (H (JStr id) ltac:(by apply in_map, list_elem_of_In)); apply existsb_exists in H as (y & Hy & E) end.
  unfold available_ids in Hy. apply in_map_iff in Hy as ([id' av] & <- & Hc).
  apply list_elem_of_In, list_elem_of_filter in Hc as [Hav Hc]. simpl in Hav, E. subst av.
  apply bool_decide_eq_true in E as <-.
  match goal with H : capabilities _ _ = Ok _ |- _ => destruct (capabilities_elem _ _ _ _ H Hc) as (seen & cap & Hcap & Ho) end.
  apply capability_Ok in Ho as (o & scope & -> & Ho). exists x, x9, o, scope. done.
Qed.

(** ** Concrete instances *)
Definition status_request : json := JObj [(str "v", JInt 1); (str "kind", JStr "request"); (str "id", JInt 4);
  (str "op", JStr "session.status"); (str "args", JObj [(str "sessionId", JStr (repeat 97%N 32))])].

Lemma control_frame_roundtrip_witness :
  exists data d, status_request = JObj d /\ encode_control_frame MAX_FRAME_BYTES (JObj d) = Ok data /\
    parse_control_frame 1000 MAX_FRAME_BYTES data = Ok (JObj d).
Proof.
  eexists _, _. split; [reflexivity|]. split; [vm_compute; reflexivity|].
  apply control_frame_roundtrip.
  - apply (bool_decide_eq_true_1 (wf_json _)). vm_compute. reflexivity.
  - vm_compute. reflexivity.
  - vm_compute. reflexivity.
Defined.

(** The envelope is fine and the handle is not: refused without ending the
    connection. *)
Definition bad_handle_request : json := JObj [(str "v", JInt 1); (str "kind", JStr "request"); (str "id", JInt 4);
  (str "op", JStr "session.status"); (str "args", JObj [(str "sessionId", JStr "oops")])].

Lemma validate_request_verdict_witness :
  match validate_request 1000 bad_handle_request with
  | Err (ControlError _ _ fatal) => fatal = false
  | _ => False
  end /\ ~ ~ envelope bad_handle_request.
Proof.
  split; [vm_compute; reflexivity|].
  pose proof (validate_request_verdict 1000 bad_handle_request ltac:(apply _bounds_Ok; vm_compute; reflexivity)) as H.
  intros Hn. assert (validate_request 1000 bad_handle_request = Err invalid) as E by (vm_compute; reflexivity).
  rewrite E in H. apply H in Hn. discriminate Hn.
Defined.

Lemma input_ref_confined_witness :
  exists path, dget "relativePath" [(str "rootId", JStr "work"); (str "relativePath", JStr "a/b.txt")] = Some (JStr path)
    /\ ~ (0%N ∈ path).
Proof.
  destruct (input_ref_confined [(str "rootId", JStr "work"); (str "relativePath", JStr "a/b.txt")])
    as (root & path & _ & _ & Hp & _ & Hn & _); [vm_compute; reflexivity|].
  exists path. split; [exact Hp|exact Hn].
Defined.

Lemma output_chunk_canonical_witness : b64decode (str "TWlycm9y") = Some (str "Mirror").
Proof.
  apply (proj2 (output_chunk_canonical JNull)); [|vm_compute; reflexivity].
  apply (bool_decide_eq_true_1 (Forall (fun b => (b < 256)%N) (str "Mirror"))). vm_compute. reflexivity.
Defined.

Definition hello_request : json := JObj [(str "v", JInt 1); (str "kind", JStr "request"); (str "id", JInt 1);
  (str "op", JStr "hello"); (str "args", JObj [(str "controlVersions", JArr [JInt 1]);
    (str "requiredCapabilities", JArr [JStr "sandbox"])])].
Definition hello_answer : json := JObj [(str "controlVersion", JInt 1); (str "instanceId", JStr (repeat 98%N 32));
  (str "limits", JObj (map (fun k => (k, JInt 5)) HELLO_LIMIT_KEYS));
  (str "capabilities", JArr [JObj [(str "id", JStr "sandbox"); (str "available", JBool true);
     (str "enforcedScope", JStr "process"); (str "limits", JObj [])]])].

Lemma hello_result_enforced_witness : enforced hello_answer "sandbox".
Proof.
  eapply (hello_result_enforced hello_request hello_answer _
    [(str "controlVersions", JArr [JInt 1]); (str "requiredCapabilities", JArr [JStr "sandbox"])] [str "sandbox"]);
    [reflexivity|reflexivity|reflexivity|vm_compute; reflexivity|left].
Defined.

End v1.
