(* ===== verification/ControlProtocolV2.v ===== *)
(** * Control protocol v2 ([supervisor/mirrorgate/control_protocol_v2.py])

    The hosting codec: public tasks, hosting limits, agent requests, run
    records, events and version selection.  The frozen v1 codec is called
    through [dict(message, v=1)], here [as_v1]. *)

From Stdlib Require Import ZArith Lia.
From stdpp Require Import base list gmap strings numbers.
From S2P Require Import Prelude PyJson JsonText Protocol ControlProtocol.
#[local] Open Scope res_scope.

Module v2.
Import v1.

Definition VERSION : Z := 2.
Definition HOSTING_CAPABILITY : pystr := "hosting.fresh-agent-v1".
Definition OPERATIONS2 : list pystr := v1.OPERATIONS ++ strs ["agent.start"; "agent.status"; "agent.cancel"].
Definition EVENTS2 : list pystr := v1.EVENTS ++ strs ["agent.updated"; "agent.finished"].
Definition PHASES2 : list pystr := v1.PHASES ++ strs ["submitted"].
Definition RUN_PHASES : list pystr := strs ["starting"; "running"; "submitting"; "cleaning"; "finished"].
Definition RUN_OUTCOMES : list pystr := strs ["submitted"; "failed"; "cancelled"; "timedOut"].
Definition ERROR_CODES2 : list pystr :=
  v1.ERROR_CODES ++ strs ["AGENT_START_FAILED"; "AGENT_EXITED"; "AUDIT_UNAVAILABLE"].
Definition ERROR_STAGES2 : list pystr := v1.ERROR_STAGES ++ strs ["hosting"].
Definition HOST_LIMITS : list (pystr * Z) := [
  (str "wallMs", 300000%Z); (str "stdoutBytes", 1048576%Z); (str "stderrBytes", 1048576%Z);
  (str "progressRecords", 256%Z); (str "progressBytes", 262144%Z); (str "progressRecordBytes", 16384%Z)].
Definition MAX_INSTRUCTION_BYTES : Z := 65536.
Definition MAX_PUBLIC_FILES : Z := 128.
Definition MAX_PUBLIC_FILE_BYTES : Z := 262144.
Definition MAX_PUBLIC_PATH_BYTES : Z := 1024.

(** ** Public tasks *)

(** Non-canonical or reserved: absolute, with a backslash or NUL, with an
    empty or dot segment, or under the private directory. *)
Definition bad_public_path (path : pystr) : bool :=
  starts_with "/" path || bool_decide (92%N ∈ path) || bool_decide (0%N ∈ path)
  || existsb bad_part (split_on 47 path)
  || match split_on 47 path with p :: _ => bool_decide (p = ".mirrorgate") | [] => false end.

(** A path already used, or one that is a directory of the other. *)
Definition collides (path p : pystr) : bool :=
  bool_decide (path = p) || starts_with (p ++ str "/") path || starts_with (path ++ str "/") p.

(** The loop over the files: [paths] and [total] so far. *)
Fixpoint public_files (paths : list pystr) (total : Z) (files : list json) : res unit :=
  match files with
  | [] => Ok tt
  | item :: rest =>
    _object item (strs ["path"; "text"]) [] ;;
    p ← getitem item "path"; path ← _scalar_string p MAX_PUBLIC_PATH_BYTES true;
    raise_if (bad_public_path path) (_fail "ARGUMENT_INVALID" "hosting") ;;
    raise_if (existsb (collides path) paths) (_fail "ARGUMENT_INVALID" "hosting") ;;
    t ← getitem item "text"; text ← _scalar_string t MAX_PUBLIC_FILE_BYTES false;
    size ← from_option_res (utf8_len text) UnicodeError;
    raise_if (MAX_PUBLIC_FILE_BYTES <? total + size)%Z (_fail "LIMIT_EXCEEDED" "hosting") ;;
    public_files (path :: paths) (total + size)%Z rest
  end.

Definition validate_public_task (v : json) : res json :=
  _bounds v ;;
  _object v (strs ["instructions"; "files"]) [] ;;
  i ← getitem v "instructions"; _scalar_string i MAX_INSTRUCTION_BYTES true ;;
  f ← getitem v "files";
  files ← match f with
          | JArr l => raise_if (MAX_PUBLIC_FILES <? zlen l)%Z (_fail "LIMIT_EXCEEDED" "hosting") ;; Ok l
          | _ => Err (_fail "LIMIT_EXCEEDED" "hosting")
          end;
  public_files [] 0 files ;;
  Ok v.

(** ** Hosting limits *)
Fixpoint zget (k : pystr) (l : list (pystr * Z)) : option Z :=
  match l with [] => None | (k', z) :: l' => if bool_decide (k = k') then Some z else zget k l' end.

Definition validate_host_limits (v : json) (complete : bool) : res pydict :=
  d ← _object v (if complete then HOST_LIMITS.*1 else []) (if complete then [] else HOST_LIMITS.*1);
  for_each (fun kv =>
    z ← _safe kv.2 true;
    ceiling ← from_option_res (zget kv.1 HOST_LIMITS) KeyError;
    raise_if (ceiling <? z)%Z (_fail "LIMIT_EXCEEDED" "hosting")) d ;;
  Ok d.

(** ** Requests *)
Definition as_v1 (v : json) : res json :=
  match v with JObj d => Ok (JObj (dset "v" (JInt 1) d)) | _ => Err TypeError end.

Definition agent_args (op : pystr) : res (list pystr * list pystr) :=
  if bool_decide (op = "agent.start") then Ok (strs ["sessionId"; "profileId"; "publicTask"], strs ["limits"])
  else if bool_decide (op = "agent.status") then Ok (strs ["sessionId"], strs ["runId"])
  else if bool_decide (op = "agent.cancel") then Ok (strs ["sessionId"; "runId"; "reason"], [])
  else Err KeyError.

Definition validate_request (rec_limit : nat) (message : json) : res json :=
  _bounds message ;;
  m ← _object message (strs ["v"; "kind"; "id"; "op"; "args"]) [];
  if opt_str_is (dget "op" m) "hello" then v1.validate_request rec_limit message
  else
    v ← getitem message "v"; k ← getitem message "kind"; o ← getitem message "op";
    raise_if (negb (int_is v VERSION) || negb (str_is k "request") || negb (str_in o OPERATIONS2))
      (_fatal "ARGUMENT_INVALID" "bootstrap") ;;
    i ← getitem message "id"; _safe i true ;;
    op ← match o with JStr s => Ok s | _ => Err TypeError end;
    args ← getitem message "args";
    if negb (starts_with "agent." op) then
      old ← as_v1 message; v1.validate_request rec_limit old ;; Ok message
    else
      '(required, optional) ← agent_args op;
      a ← _object args required optional;
      s ← getitem args "sessionId"; _handle s ;;
      optional_field a "runId" _handle ;;
      (if bool_decide (op = "agent.start") then
         p ← getitem args "profileId"; _public_id p ;;
         t ← getitem args "publicTask"; validate_public_task t ;;
         optional_field a "limits" (fun l => validate_host_limits l false)
       else if bool_decide (op = "agent.cancel") then
         r ← getitem args "reason"; _enum r REASONS ;; Ok tt
       else Ok tt) ;;
      Ok message.

Definition validate_error2 (v : json) : res json := error_record ERROR_CODES2 ERROR_STAGES2 v.

Definition validate_submission (v : json) : res json :=
  _object v (strs ["submissionId"; "sourceHash"; "sourceRevision"]) [] ;;
  i ← getitem v "submissionId"; _handle i ;;
  h ← getitem v "sourceHash"; _digest h ;;
  r ← getitem v "sourceRevision";
  raise_if (negb (int_is r 1)) (_fail "ARGUMENT_INVALID" "hosting") ;;
  Ok v.

(** ** Run records *)

(** A limit of a validated record. *)
Definition limit (limits : pydict) (k : pystr) : res Z :=
  match dget k limits with Some (JInt z) => Ok z | Some _ => Err TypeError | None => Err KeyError end.

(** The loop over the progress records: sequence numbers from [seq], encoded
    sizes added to [total]. *)
Fixpoint progress_records (limits : pydict) (seq total : Z) (records : list json) : res Z :=
  match records with
  | [] => Ok total
  | record :: rest =>
    _object record (strs ["seq"; "message"]) [] ;;
    s ← getitem record "seq";
    raise_if (negb (int_is s seq)) (_fail "ARGUMENT_INVALID" "hosting") ;;
    n ← limit limits "progressRecordBytes";
    m ← getitem record "message"; _scalar_string m n false ;;
    frame ← encode_control_frame MAX_FRAME_BYTES record;
    let size := (zlen frame - 1)%Z in
    raise_if (n <? size)%Z (_fail "LIMIT_EXCEEDED" "hosting") ;;
    progress_records limits (seq + 1) (total + size) rest
  end.

Definition expected_cleanup (phase : pystr) : res (list pystr) :=
  if bool_decide (phase ∈ strs ["starting"; "running"; "submitting"]) then Ok (strs ["notStarted"])
  else if bool_decide (phase = "cleaning") then Ok (strs ["pending"])
  else if bool_decide (phase = "finished") then Ok (strs ["succeeded"; "failed"])
  else Err KeyError.

Definition run_cleanup (v : json) : res pystr :=
  c ← getitem v "cleanup";
  _object c (strs ["status"; "remainingResources"]) [] ;;
  s ← getitem c "status"; status ← _enum s (strs ["notStarted"; "pending"; "succeeded"; "failed"]);
  r ← getitem c "remainingResources"; _remaining_resources r ;;
  raise_if (bool_decide (status ∈ strs ["notStarted"; "succeeded"]) && truthy r) (_fail "ARGUMENT_INVALID" "hosting") ;;
  Ok status.

Definition run_progress (v : json) (limits : pydict) : res unit :=
  p ← getitem v "progress";
  _object p (strs ["firstSeq"; "nextSeq"; "truncated"; "records"]) [] ;;
  f ← getitem p "firstSeq"; first ← _safe f true;
  n ← getitem p "nextSeq"; next ← _safe n true;
  r ← getitem p "records"; t ← getitem p "truncated";
  raise_if (negb (bool_decide (t = JBool (1 <? first)%Z))) (_fail "ARGUMENT_INVALID" "hosting") ;;
  records ← match r with JArr l => Ok l | _ => Err (_fail "ARGUMENT_INVALID" "hosting") end;
  most ← limit limits "progressRecords";
  raise_if ((most <? zlen records)%Z || negb (next =? first + zlen records)%Z) (_fail "ARGUMENT_INVALID" "hosting") ;;
  total ← progress_records limits first 0 records;
  budget ← limit limits "progressBytes";
  raise_if (budget <? total)%Z (_fail "LIMIT_EXCEEDED" "hosting").

Definition validate_run (v : json) : res json :=
  _bounds v ;;
  d ← _object v (strs ["runId"; "phase"; "cleanup"; "limits"; "progress"]) (strs ["outcome"; "submission"; "error"]);
  i ← getitem v "runId"; _handle i ;;
  p ← getitem v "phase"; phase ← _enum p RUN_PHASES;
  l ← getitem v "limits"; limits ← validate_host_limits l true;
  status ← run_cleanup v;
  optional_field d "outcome" (fun o => _enum o RUN_OUTCOMES) ;;
  optional_field d "submission" validate_submission ;;
  raise_if (negb (Bool.eqb (opt_str_is (dget "outcome" d) "submitted") (dmem "submission" d)))
    (_fail "ARGUMENT_INVALID" "hosting") ;;
  optional_field d "error" validate_error2 ;;
  raise_if (negb (Bool.eqb (match dget "outcome" d with
                            | Some o => str_in o (strs ["failed"; "cancelled"; "timedOut"])
                            | None => false
                            end) (dmem "error" d))) (_fail "ARGUMENT_INVALID" "hosting") ;;
  expected ← expected_cleanup phase;
  raise_if (negb (bool_decide (status ∈ expected))
            || negb (Bool.eqb (bool_decide (phase ∈ strs ["cleaning"; "finished"])) (dmem "outcome" d)))
    (_fail "ARGUMENT_INVALID" "hosting") ;;
  run_progress v limits ;;
  Ok v.

(** ** Responses, results and events *)
Definition validate_response (message : json) (request : option json) : res json :=
  _bounds message ;;
  (if bool_decide (match message with JObj d => dget "ok" d | _ => None end = Some (JBool true)) then
     _object message (strs ["v"; "kind"; "id"; "ok"; "result"]) [] ;; Ok tt
   else
     _object message (strs ["v"; "kind"; "id"; "ok"; "error"]) [] ;;
     e ← getitem message "error"; validate_error2 e ;; Ok tt) ;;
  expected ← match request with
             | Some (JObj r) => Ok (if opt_str_is (dget "op" r) "hello" then 1 else 2)%Z
             | Some _ => Err TypeError
             | None => Ok 2%Z
             end;
  v ← getitem message "v"; k ← getitem message "kind"; o ← getitem message "ok";
  raise_if (negb (int_is v expected) || negb (str_is k "response") || negb (is_bool o)) invalid ;;
  i ← getitem message "id"; _safe i true ;;
  match request with
  | Some r => j ← getitem r "id"; raise_if (negb (py_eqb i j)) (_fatal "ARGUMENT_INVALID" "bootstrap")
  | None => Ok tt
  end ;;
  Ok message.

(** [dict(v, k=x)] *)
Definition with_field (k : pystr) (x v : json) : res json :=
  match v with JObj d => Ok (JObj (dset k x d)) | _ => Err TypeError end.

Definition hello_selected (request response result : json) : res unit :=
  args ← getitem request "args"; vs ← getitem args "controlVersions"; offered ← port._list vs;
  let selected := match result with JObj d => default JNull (dget "controlVersion" d) | _ => JNull end in
  raise_if (negb (is_int selected) || negb (int_is selected 1 || int_is selected 2)
            || negb (existsb (py_eqb selected) offered)) (_fail "VERSION_UNSUPPORTED" "bootstrap") ;;
  old ← with_field "controlVersion" (JInt 1) result;
  resp ← with_field "result" old response;
  v1.validate_result request resp None ;;
  c ← getitem result "capabilities"; caps ← port._list c;
  ids ← traverse (fun cap => i ← getitem cap "id"; match i with JStr s => Ok s | _ => Err TypeError end) caps;
  raise_if (int_is selected 1 && existsb (starts_with "hosting.") ids) invalid.

Definition run_result (op : pystr) (request result : json) : res unit :=
  _object result (strs ["run"]) [] ;;
  run ← getitem result "run";
  args ← getitem request "args";
  a ← match args with JObj a => Ok a | _ => Err TypeError end;
  if is_none run then
    raise_if (negb (bool_decide (op = "agent.status")) || dmem "runId" a) (_fail "HANDLE_INVALID" "hosting")
  else
    validate_run run ;;
    i ← getitem run "runId";
    raise_if (negb (py_eqb (default i (dget "runId" a)) i)) (_fail "HANDLE_INVALID" "hosting") ;;
    p ← getitem run "phase";
    raise_if (bool_decide (op = "agent.cancel") && negb (str_is p "finished")) (_fail "ARGUMENT_INVALID" "hosting").

Definition validate_result (rec_limit : nat) (request response : json) (operation : option pystr) : res json :=
  validate_request rec_limit request ;;
  validate_response response (Some request) ;;
  ok ← getitem response "ok";
  if negb (truthy ok) then getitem response "error"
  else
    o ← getitem request "op"; result ← getitem response "result";
    op ← match o with JStr s => Ok s | _ => Err TypeError end;
    (if bool_decide (op = "hello") then hello_selected request response result
     else if bool_decide (op = "agent.start") then
       _object result (strs ["runId"]) [] ;; i ← getitem result "runId"; _handle i ;; Ok tt
     else if bool_decide (op ∈ strs ["agent.status"; "agent.cancel"]) then run_result op request result
     else if bool_decide (op = "session.status")
             && opt_str_is (match result with JObj d => dget "phase" d | _ => None end) "submitted" then
       rq ← as_v1 request; rp ← as_v1 response;
       shown ← with_field "phase" (JStr "authoring") result; resp ← with_field "result" shown rp;
       v1.validate_result rq resp None ;;
       c ← getitem result "cleanup"; s ← getitem c "status";
       raise_if (negb (str_is s "notStarted")) (_fail "ARGUMENT_INVALID" "hosting")
     else
       rq ← as_v1 request; rp ← as_v1 response;
       v1.validate_result rq rp operation ;; Ok tt) ;;
    Ok result.

Definition validate_event (message : json) (operation : option pystr) : res json :=
  _bounds message ;;
  _object message (strs ["v"; "kind"; "seq"; "sessionId"; "event"; "data"]) [] ;;
  v ← getitem message "v"; k ← getitem message "kind"; e ← getitem message "event";
  raise_if (negb (int_is v 2) || negb (str_is k "event") || negb (str_in e EVENTS2))
    (_fatal "ARGUMENT_INVALID" "bootstrap") ;;
  q ← getitem message "seq"; _safe q true ;;
  s ← getitem message "sessionId"; _handle s ;;
  name ← match e with JStr n => Ok n | _ => Err TypeError end;
  (if starts_with "agent." name then
     data ← getitem message "data";
     _object data (strs ["run"]) [] ;;
     run ← getitem data "run"; validate_run run ;;
     p ← getitem run "phase";
     raise_if (negb (Bool.eqb (str_is p "finished") (bool_decide (name = "agent.finished"))))
       (_fail "ARGUMENT_INVALID" "hosting")
   else
     old ← as_v1 message; v1.validate_event old operation ;; Ok tt) ;;
  Ok message.

(** ** Version selection *)
Definition json_int (v : json) : option Z := match v with JInt z => Some z | _ => None end.

Definition select_control_version (rec_limit : nat) (hello : json) (supported : list Z) : res Z :=
  v1.validate_request rec_limit hello ;;
  o ← getitem hello "op";
  raise_if (negb (str_is o "hello")) (_fatal "ARGUMENT_INVALID" "bootstrap") ;;
  args ← getitem hello "args"; vs ← getitem args "controlVersions"; offered ← port._list vs;
  match filter (fun z => z ∈ supported) (omap json_int offered) with
  | [] => Err (_fail "VERSION_UNSUPPORTED" "bootstrap")
  | z :: rest => Ok (foldr Z.max z rest)
  end.

(** ** Properties: public tasks *)

(** The record of one public file. *)
Definition file_record (f : pystr * pystr) (item : json) : Prop :=
  exists d, item = JObj d /\ fields d (strs ["path"; "text"]) [] /\
    dget "path" d = Some (JStr f.1) /\ dget "text" d = Some (JStr f.2).

Definition text_size (s : pystr) : Z := default 0%Z (utf8_len s).

(** The segments of a path. *)
Definition segments (path : pystr) : list pystr := split_on 47 path.

Definition proper_path (path : pystr) : Prop :=
  Forall (fun p => p <> [] /\ p <> str "." /\ p <> str "..") (segments path) /\
  hd_error (segments path) <> Some (str ".mirrorgate") /\ ~ (92%N ∈ path) /\ ~ (0%N ∈ path).

Lemma good_path path : bad_public_path path = false -> proper_path path.
Proof.
  unfold bad_public_path, proper_path, segments. intros H. bool_hyps. split_and!; try done.
  - apply list.Forall_forall. intros p Hp.
    assert (bad_part p = false) as Hb.
    { apply not_true_iff_false. intros Hb. match goal with H : existsb _ _ = false |- _ =>
        apply not_true_iff_false in H; apply H, existsb_exists end. exists p. split; [by apply list_elem_of_In|done]. }
    unfold bad_part in Hb. bool_hyps. split_and!; intros ->; apply Hb; by_decision.
  - destruct (split_on 47 path) as [|p ps]; [done|]. simpl. intros [= ->]. bool_hyps. done.
Qed.

Lemma join_with_app sep (l m : list pystr) :
  l <> [] -> m <> [] -> join_with sep (l ++ m) = join_with sep l ++ sep :: join_with sep m.
Proof.
  induction l as [|x l IH]; intros Hl Hm; [done|]. destruct l as [|y l].
  - simpl. destruct m; [done|]. done.
  - change (join_with sep ((x :: y :: l) ++ m)) with (x ++ sep :: join_with sep ((y :: l) ++ m)).
    change (join_with sep (x :: y :: l)) with (x ++ sep :: join_with sep (y :: l)).
    rewrite IH by done. by rewrite <- app_assoc.
Qed.

(** Two paths of which one is at or below the other are told apart by the
    textual test. *)
Lemma prefix_collides p q : segments p `prefix_of` segments q -> collides q p = true.
Proof.
  unfold segments, collides. intros [rest E]. rewrite !orb_true_iff. left.
  rewrite <- (join_split 47 p), <- (join_split 47 q), E. destruct rest as [|r rest].
  - left. rewrite app_nil_r. by apply bool_decide_eq_true.
  - right. apply starts_with_spec. exists (join_with 47 (r :: rest)).
    rewrite join_with_app by (done || apply split_on_nonempty). by rewrite <- app_assoc.
Qed.

Lemma collides_sym p q : collides p q = collides q p.
Proof. unfold collides. rewrite (bool_decide_ext (p = q) (q = p)) by done. rewrite <- !orb_assoc. f_equal. apply orb_comm. Qed.

(** Neither path is at or below the other. *)
Definition disjoint_paths (p q : pystr) : Prop :=
  ~ segments p `prefix_of` segments q /\ ~ segments q `prefix_of` segments p.

Lemma not_collides p q : collides p q = false -> disjoint_paths p q.
Proof.
  intros H. split; intros Hp%prefix_collides; [rewrite collides_sym in Hp|]; congruence.
Qed.

Lemma public_files_Ok paths total files :
  public_files paths total files = Ok tt ->
  exists fs, Forall2 file_record fs files /\ Forall (fun f => proper_path f.1) fs /\
    Forall (fun f => Forall (disjoint_paths f.1) paths) fs /\
    ForallOrdPairs (fun f g => disjoint_paths f.1 g.1) fs /\
    (fs = [] \/ (total + foldr (fun f n => text_size f.2 + n) 0 fs <= MAX_PUBLIC_FILE_BYTES)%Z).
Proof.
  revert paths total. induction files as [|item files IH]; intros paths total; cbn [public_files].
  { intros _. exists []. split_and!; [constructor..|by left]. }
  intros H. inv_res. open_records.
  match goal with H : public_files _ _ _ = _ |- _ => apply IH in H as (fs & Q1 & Q2 & Q3 & Q4 & Q5) end.
  match goal with H : from_option_res (utf8_len ?s) _ = Ok ?n |- _ =>
    rename s into text; rename n into size; destruct (utf8_len text) as [k|] eqn:Hk; [|done]; simpl in H; injection H as -> end.
  match goal with H : bad_public_path ?s = false |- _ => rename s into path; apply good_path in H end.
  bool_hyps. exists ((path, text) :: fs). split_and!.
  - constructor; [|done]. eexists. split_and!; done.
  - by constructor.
  - constructor.
    + apply list.Forall_forall. intros p Hp. apply not_collides. simpl.
      destruct (collides path p) eqn:Hc; [|done].
      exfalso. match goal with H : existsb _ _ = false |- _ => apply not_true_iff_false in H; apply H, existsb_exists end.
      exists p. split; [by apply list_elem_of_In|done].
    + eapply Forall_impl; [|exact Q3]. simpl. intros f Hf. by apply list.Forall_cons in Hf as [_ ?].
  - constructor; [|done]. eapply Forall_impl; [|exact Q3]. simpl. intros f Hf.
    apply list.Forall_cons in Hf as [[? ?] _]. done.
  - right. simpl. unfold text_size at 1. rewrite Hk. simpl. destruct Q5 as [->|?]; simpl; lia.
Qed.

(** A public task that is admitted can be staged in any order.  Its file
    paths are canonical and outside the reserved directory, no path is equal
    to, above or below another in the directory tree, and the texts together
    fit the aggregate limit. *)
Theorem public_task_disjoint (v w : json) :
  validate_public_task v = Ok w ->
  w = v /\ exists d items fs, v = JObj d /\ dget "files" d = Some (JArr items) /\ Forall2 file_record fs items /\
    (zlen fs <= MAX_PUBLIC_FILES)%Z /\ Forall (fun f => proper_path f.1) fs /\
    ForallOrdPairs (fun f g => disjoint_paths f.1 g.1) fs /\
    (foldr (fun f n => text_size f.2 + n) 0 fs <= MAX_PUBLIC_FILE_BYTES)%Z.
Proof.
  unfold validate_public_task. intros H. inv_res. open_records. split; [done|].
  match goal with H : match ?f with _ => _ end = Ok _ |- _ => destruct f as [| | | | |l|]; try discriminate H; inv_res end.
  match goal with H : public_files _ _ _ = _ |- _ => apply public_files_Ok in H as (fs & Q1 & Q2 & _ & Q4 & Q5) end.
  bool_hyps. eexists _, _, fs. split_and!; try done.
  - unfold zlen in *. apply Forall2_length in Q1. lia.
  - destruct Q5 as [->|Q5]; [done|]. by rewrite Z.add_0_l in Q5.
Qed.

(** ** Properties: run records *)

Inductive outcome : Type :=
  | Submitted
  | Unsuccessful (why : pystr).

(** Where a hosted run stands: working, cleaning up, or finished with the
    result of its cleanup. *)
Inductive run_state : Type :=
  | Working (phase : pystr)
  | Cleaning (o : outcome)
  | Finished (o : outcome) (clean : bool).

Definition outcome_fields (d : pydict) (o : option outcome) : Prop :=
  match o with
  | None => dget "outcome" d = None /\ dget "submission" d = None /\ dget "error" d = None
  | Some Submitted => dget "outcome" d = Some (JStr "submitted") /\ dget "error" d = None /\
      exists s, dget "submission" d = Some s /\ validate_submission s = Ok s
  | Some (Unsuccessful why) => dget "outcome" d = Some (JStr why) /\ why ∈ strs ["failed"; "cancelled"; "timedOut"] /\
      dget "submission" d = None /\ exists e, dget "error" d = Some e /\ validate_error2 e = Ok e
  end.

Definition state_outcome (s : run_state) : option outcome :=
  match s with Working _ => None | Cleaning o | Finished o _ => Some o end.

(** Phase and cleanup status as written in the record. *)
Definition state_phase (s : run_state) : pystr :=
  match s with Working p => p | Cleaning _ => "cleaning" | Finished _ _ => "finished" end.
Definition state_cleanup (s : run_state) : pystr :=
  match s with
  | Working _ => "notStarted" | Cleaning _ => "pending"
  | Finished _ true => "succeeded" | Finished _ false => "failed"
  end.

Lemma optional_field_Ok {A} d k (check : json -> res A) :
  optional_field d k check = Ok tt <-> dget k d = None \/ exists x a, dget k d = Some x /\ check x = Ok a.
Proof.
  unfold optional_field. destruct (dget k d) as [x|]; [|naive_solver]. rewrite bind_Ok. naive_solver.
Qed.

Lemma dmem_None k d : dmem k d = false <-> dget k d = None.
Proof. unfold dmem. destruct (dget k d); split; congruence. Qed.

Lemma dmem_Some k d : dmem k d = true <-> exists x, dget k d = Some x.
Proof. unfold dmem. destruct (dget k d); naive_solver. Qed.

Lemma run_outcome d :
  optional_field d "outcome" (fun o => _enum o RUN_OUTCOMES) = Ok tt ->
  optional_field d "submission" validate_submission = Ok tt ->
  optional_field d "error" validate_error2 = Ok tt ->
  Bool.eqb (opt_str_is (dget "outcome" d) "submitted") (dmem "submission" d) = true ->
  Bool.eqb (match dget "outcome" d with
            | Some o => str_in o (strs ["failed"; "cancelled"; "timedOut"])
            | None => false
            end) (dmem "error" d) = true ->
  exists o, outcome_fields d o /\ (o = None <-> dget "outcome" d = None).
Proof.
  rewrite !optional_field_Ok, !eqb_true_iff. intros Ho Hs He E1 E2.
  assert (forall (x : json) y, validate_submission x = Ok y -> y = x) as Hsub
    by (unfold validate_submission; intros x y H; by inv_res).
  assert (forall (x : json) y, validate_error2 x = Ok y -> y = x) as Herr
    by (unfold validate_error2, error_record; intros x y H; by inv_res).
  destruct Ho as [Ho|(x & s & Ho & Hx)]; rewrite Ho in E1, E2 |- *; cbn [opt_str_is str_is str_in] in E1, E2.
  - exists None. symmetry in E1, E2. apply dmem_None in E1, E2. done.
  - apply _enum_Ok in Hx as [-> Hin]. cbn [str_is str_in] in E1, E2. unfold RUN_OUTCOMES in Hin. elem_literal Hin.
    destruct Hin as [->|Hin].
    + exists (Some Submitted).
      rewrite bool_decide_eq_true_2 in E1 by done.
      rewrite bool_decide_eq_false_2 in E2 by (intros Hf; elem_literal Hf; destruct_or! Hf; discriminate Hf).
      symmetry in E1, E2. apply dmem_Some in E1 as [y Hy].
      apply dmem_None in E2. destruct Hs as [?|(y' & z & Hy' & Hz)]; [congruence|].
      split; [|done]. split_and!; [done|done|]. exists y'. pose proof (Hsub _ _ Hz). by subst z.
    + exists (Some (Unsuccessful s)).
      assert (s <> "submitted" /\ s ∈ strs ["failed"; "cancelled"; "timedOut"]) as [D1 D2].
      { destruct_or! Hin; subst; (split; [discriminate|by_decision]). }
      rewrite bool_decide_eq_false_2 in E1 by done. rewrite bool_decide_eq_true_2 in E2 by done.
      symmetry in E1, E2. apply dmem_None in E1. apply dmem_Some in E2 as [y Hy].
      destruct He as [?|(y' & z & Hy' & Hz)]; [congruence|].
      split; [|done]. split_and!; [done|done|done|]. exists y'. pose proof (Herr _ _ Hz). by subst z.
Qed.

(** The record of one progress message. *)
Definition progress_record (seq : Z) (item : json) : Prop :=
  exists d message, item = JObj d /\ fields d (strs ["seq"; "message"]) [] /\
    dget "seq" d = Some (JInt seq) /\ dget "message" d = Some (JStr message).

(** The length of the frame that carries a record, without its newline. *)
Definition frame_size (item : json) : Z :=
  match encode_control_frame MAX_FRAME_BYTES item with Ok b => (zlen b - 1)%Z | Err _ => 0%Z end.

Fixpoint numbered (seq : Z) (items : list json) : Prop :=
  match items with
  | [] => True
  | item :: rest => progress_record seq item /\ numbered (seq + 1) rest
  end.

Lemma progress_records_Ok limits n seq total records sum :
  limit limits "progressRecordBytes" = Ok n ->
  progress_records limits seq total records = Ok sum ->
  numbered seq records /\ sum = (total + foldr (fun r k => frame_size r + k) 0 records)%Z /\
  Forall (fun r => (frame_size r <= n)%Z) records.
Proof.
  intros Hn. revert seq total. induction records as [|item records IH]; intros seq total; cbn [progress_records].
  { intros [= <-]. split_and!; [done|simpl; lia|constructor]. }
  rewrite Hn. intros H. inv_res. open_records.
  match goal with H : progress_records _ _ _ _ = Ok _ |- _ => apply IH in H as (Q1 & -> & Q3) end.
  bool_hyps. match goal with H : int_is _ _ = true |- _ => apply int_is_true in H; subst end.
  match goal with H : encode_control_frame _ ?r = Ok ?b |- _ =>
    assert (frame_size r = zlen b - 1)%Z as Hz by (unfold frame_size; by rewrite H) end.
  cbn [numbered foldr]. rewrite Hz. split_and!; [by do 2 eexists|done|lia|].
  constructor; [lia|done].
Qed.

(** A limit of a complete hosting limit record, within its ceiling. *)
Lemma host_limit v d k ceiling :
  validate_host_limits v true = Ok d -> zget k HOST_LIMITS = Some ceiling -> k ∈ HOST_LIMITS.*1 ->
  exists z, limit d k = Ok z /\ (1 <= z <= ceiling)%Z.
Proof.
  unfold validate_host_limits. intros H Hc Hk. inv_res. open_records.
  match goal with H : for_each _ _ = _ |- _ => apply for_each_Ok in H; rename H into Hall end.
  match goal with H : fields d _ _ |- _ => destruct (fields_dget d _ _ k H Hk) as [x Hx] end.
  rewrite list.Forall_forall in Hall. specialize (Hall _ (dget_Some_in _ _ _ Hx)). cbn [fst snd] in Hall. inv_res. open_records.
  rewrite Hc in *. match goal with H : from_option_res (Some _) _ = _ |- _ => injection H as -> end. bool_hyps.
  unfold limit. rewrite Hx. eexists. split; [done|lia].
Qed.

(** The progress window of a run: [records] numbered from [first]. *)
Definition progress_window (v : json) (first : Z) (records : list json) : Prop :=
  exists d p, v = JObj d /\ dget "progress" d = Some (JObj p) /\
    fields p (strs ["firstSeq"; "nextSeq"; "truncated"; "records"]) [] /\
    dget "firstSeq" p = Some (JInt first) /\ dget "nextSeq" p = Some (JInt (first + zlen records)) /\
    dget "truncated" p = Some (JBool (1 <? first)%Z) /\ dget "records" p = Some (JArr records) /\
    numbered first records.

Lemma run_progress_Ok l limits v :
  validate_host_limits l true = Ok limits -> run_progress v limits = Ok tt -> is_dict v = true ->
  exists first records, progress_window v first records /\ (1 <= first)%Z /\ (zlen records <= 256)%Z /\
    (foldr (fun r k => frame_size r + k) 0 records <= 262144)%Z.
Proof.
  intros Hl H Hv. destruct v as [| | | | | |d]; try done. unfold run_progress in H.
  destruct (host_limit l limits "progressRecords" 256 Hl) as (most & Hm & ?); [done|by_decision|].
  destruct (host_limit l limits "progressRecordBytes" 16384 Hl) as (per & Hp & ?); [done|by_decision|].
  destruct (host_limit l limits "progressBytes" 262144 Hl) as (budget & Hb & ?); [done|by_decision|].
  rewrite Hm, Hb in H. inv_res. open_records.
  match goal with H : match ?f with _ => _ end = Ok _ |- _ => destruct f as [| | | | |records|]; try discriminate H; inv_res end.
  match goal with H : progress_records _ _ _ _ = Ok _ |- _ => apply (progress_records_Ok _ _ _ _ _ _ Hp) in H as (Q1 & -> & _) end.
  bool_hyps. subst. cbv iota in *. eexists _, _. split; [by eexists _, _; split_and!|]. lia.
Qed.

Lemma run_cleanup_Ok d status :
  run_cleanup (JObj d) = Ok status ->
  exists c names, dget "cleanup" d = Some (JObj c) /\ dget "status" c = Some (JStr status) /\
    dget "remainingResources" c = Some (JArr (map JStr names)) /\
    (status = "notStarted" \/ status = "succeeded" -> names = []).
Proof.
  unfold run_cleanup. intros H. inv_res. open_records.
  match goal with H : _remaining_resources _ = _ |- _ => apply remaining_Ok in H as (names & -> & _) end.
  eexists _, names. split_and!; try done. intros Hs. destruct names as [|n names]; [done|].
  exfalso. match goal with H : _ && truthy _ = false |- _ => apply andb_false_iff in H; destruct H as [H|H]; [|done];
    apply bool_decide_eq_false in H; apply H end. destruct Hs as [->| ->]; by_decision.
Qed.

(** Phase, cleanup status and outcome of an admitted record determine its
    state. *)
Lemma run_state_of d phase status expected o :
  phase ∈ RUN_PHASES -> expected_cleanup phase = Ok expected -> status ∈ expected ->
  Bool.eqb (bool_decide (phase ∈ strs ["cleaning"; "finished"])) (dmem "outcome" d) = true ->
  (o = None <-> dget "outcome" d = None) ->
  exists s, state_phase s = phase /\ state_cleanup s = status /\ state_outcome s = o /\
    match s with Working p => p ∈ strs ["starting"; "running"; "submitting"] | _ => True end.
Proof.
  intros Hp He Hs Hb%Bool.eqb_prop Ho. unfold expected_cleanup in He. symmetry in Hb.
  destruct (bool_decide (phase ∈ strs ["starting"; _; _])) eqn:E.
  - apply bool_decide_eq_true in E. injection He as <-. elem_literal Hs. destruct Hs as [->|[]].
    rewrite bool_decide_eq_false_2 in Hb.
    2:{ intros Hin. elem_literal E. elem_literal Hin. destruct_or! E; subst; destruct_or! Hin; first [discriminate Hin|done]. }
    apply dmem_None in Hb. apply Ho in Hb as ->. by exists (Working phase).
  - unfold RUN_PHASES in Hp. elem_literal Hp. apply bool_decide_eq_false in E.
    assert (phase = "cleaning" \/ phase = "finished") as Hc.
    { destruct_or! Hp; subst; auto; destruct E; by_decision. }
    clear Hp E. rewrite bool_decide_eq_true_2 in Hb.
    2:{ destruct Hc as [->| ->]; by_decision. }
    apply dmem_Some in Hb as [x Hx]. destruct o as [o|]; [|by rewrite (proj1 Ho eq_refl) in Hx].
    destruct Hc as [->| ->].
    + rewrite bool_decide_eq_true_2 in He by done. injection He as <-. elem_literal Hs.
      destruct Hs as [->|[]]. by exists (Cleaning o).
    + rewrite bool_decide_eq_false_2 in He by done. rewrite bool_decide_eq_true_2 in He by done.
      injection He as <-. elem_literal Hs. destruct Hs as [->|[->|[]]]; [by exists (Finished o true)|by exists (Finished o false)].
Qed.

(** A run record that is admitted is coherent.  It denotes a run that is
    still working (no outcome, cleanup not started), cleaning up (an outcome,
    cleanup pending) or finished (an outcome and a definite cleanup result);
    a submission accompanies exactly the submitted outcome and an error exactly
    the others; nothing remains after a clean finish; and the progress window
    is contiguous from its first number, with at most 256 records and 262144
    encoded bytes. *)
Theorem validate_run_coherent (v w : json) :
  validate_run v = Ok w ->
  w = v /\ exists d s c names first records, v = JObj d /\
    dget "phase" d = Some (JStr (state_phase s)) /\
    (match s with Working p => p ∈ strs ["starting"; "running"; "submitting"] | _ => True end) /\
    dget "cleanup" d = Some (JObj c) /\ dget "status" c = Some (JStr (state_cleanup s)) /\
    dget "remainingResources" c = Some (JArr (map JStr names)) /\
    (state_cleanup s = "notStarted" \/ state_cleanup s = "succeeded" -> names = []) /\
    outcome_fields d (state_outcome s) /\
    progress_window v first records /\ (1 <= first)%Z /\ (zlen records <= 256)%Z /\
    (foldr (fun r k => frame_size r + k) 0 records <= 262144)%Z.
Proof.
  unfold validate_run. intros H. inv_res. split; [done|]. open_records. bool_hyps.
  match goal with H : run_progress _ _ = Ok _ |- _ =>
    eapply run_progress_Ok in H as (first & records & Hw & ? & ? & ?); [|done|done] end.
  match goal with H : run_cleanup _ = Ok ?s |- _ => apply run_cleanup_Ok in H as (c & names & Hc & Hs & Hr & Hn); rename s into status end.
  match goal with H : dget (str "phase") ?d = _ |- _ => destruct (run_outcome d) as (o & Ho & Hnone); [done..|] end.
  match goal with H : expected_cleanup _ = Ok _ |- _ =>
    destruct (run_state_of _ _ _ _ o ltac:(eassumption) H ltac:(eassumption) ltac:(eassumption) Hnone) as (s & <- & <- & <- & Hp) end.
  eexists _, s, c, names, first, records. split_and!; done.
Qed.

(** ** Properties: version selection *)

(** The versions a hello offers. *)
Definition offers (hello : json) (z : Z) : Prop :=
  exists d args l, hello = JObj d /\ dget "args" d = Some (JObj args) /\
    dget "controlVersions" args = Some (JArr l) /\ JInt z ∈ l.

Lemma foldr_max_spec z l : foldr Z.max z l ∈ z :: l /\ Forall (fun y => (y <= foldr Z.max z l)%Z) (z :: l).
Proof.
  induction l as [|y l [Hin Hle]]; simpl; [split; [left|by repeat constructor]|].
  apply list.Forall_cons in Hle as [Hz Hle]. split.
  - destruct (Z.max_spec y (foldr Z.max z l)) as [[_ ->]|[_ ->]]; set_solver.
  - constructor; [lia|]. constructor; [lia|]. eapply Forall_impl; [|exact Hle]. simpl. intros. lia.
Qed.

Lemma json_int_elem (l : list json) z : z ∈ omap json_int l <-> JInt z ∈ l.
Proof.
  rewrite list_elem_of_omap. split.
  - intros (v & Hv & Hz). destruct v; simpl in Hz; simplify_eq. done.
  - intros H. by exists (JInt z).
Qed.

Lemma hello_arguments rec_limit h h' d :
  v1.validate_request rec_limit h = Ok h' -> h = JObj d -> dget "op" d = Some (JStr "hello") ->
  exists args l, dget "args" d = Some (JObj args) /\ dget "controlVersions" args = Some (JArr l).
Proof.
  unfold v1.validate_request. intros H -> Hop. inv_res.
  match goal with H : try_except _ _ _ = Ok _ |- _ => apply try_except_Ok_inv in H as [H|(? & _ & _ & ?)]; [|done];
    unfold envelope_checks in H; inv_res end.
  open_records. inv_res.
  match goal with H : (if bool_decide (_ = _) then _ else _) = Ok _ |- _ =>
    rewrite bool_decide_eq_true_2 in H by done; unfold hello_args in H; inv_res end.
  open_records. bool_hyps.
  match goal with H : match ?c with _ => _ end = true |- _ => destruct c as [| | | | |l|]; try discriminate H end.
  eauto.
Qed.

(** Once a hello has been admitted, version selection is the highest common
    version.  The version selected is supported, was offered, and is not below
    any other version that is both; selection is refused exactly when no
    version is both. *)
Theorem select_control_version_highest (rec_limit : nat) (d : pydict) (h : json) (supported : list Z) :
  v1.validate_request rec_limit (JObj d) = Ok h -> dget "op" d = Some (JStr "hello") ->
  match select_control_version rec_limit (JObj d) supported with
  | Ok z => z ∈ supported /\ offers (JObj d) z /\ forall y, y ∈ supported -> offers (JObj d) y -> (y <= z)%Z
  | Err e => e = _fail "VERSION_UNSUPPORTED" "bootstrap" /\ forall y, y ∈ supported -> ~ offers (JObj d) y
  end.
Proof.
  intros Hv Hop. destruct (hello_arguments _ _ _ d Hv eq_refl Hop) as (args & l & Ha & Hl).
  assert (forall y, y ∈ filter (fun z => z ∈ supported) (omap json_int l) <-> y ∈ supported /\ offers (JObj d) y) as Hc.
  { intros y. rewrite list_elem_of_filter, json_int_elem. f_equiv. unfold offers. split; [eauto 10|].
    intros (d' & args' & l' & [= <-] & Ha' & Hl' & Hy). congruence. }
  unfold select_control_version. rewrite Hv. cbn [rbind].
  rewrite (getitem_dget _ _ _ Hop), (getitem_dget _ _ _ Ha). cbn [rbind str_is]. rewrite bool_decide_eq_true_2 by done.
  cbn [rbind negb raise_if]. rewrite (getitem_dget _ _ _ Hl). cbn [rbind port._list].
  destruct (filter _ _) as [|z rest].
  - split; [done|]. intros y Hy Ho. pose proof (proj2 (Hc y) (conj Hy Ho)) as Hn. by apply elem_of_nil in Hn.
  - destruct (foldr_max_spec z rest) as [Hin Hle]. apply Hc in Hin as [Hs Ho]. split_and!; [done|done|].
    intros y Hy Hoy. rewrite list.Forall_forall in Hle. apply Hle, Hc. done.
Qed.

(** ** Properties: correlated run results *)

Lemma validate_run_same v w : validate_run v = Ok w -> w = v /\ exists d, v = JObj d.
Proof. unfold validate_run. intros H. inv_res. open_records. eauto. Qed.

(** An accepted answer to [agent.cancel] joins the cleanup of the run that
    was named.  When the response reports success, the result is the record
    of a run with the requested identifier whose phase is finished. *)
Theorem agent_cancel_joined (rec_limit : nat) (d args r : pydict) (id : pystr) (op : option pystr) (result : json) :
  dget "op" d = Some (JStr "agent.cancel") -> dget "args" d = Some (JObj args) ->
  dget "runId" args = Some (JStr id) -> dget "ok" r = Some (JBool true) ->
  validate_result rec_limit (JObj d) (JObj r) op = Ok result ->
  exists o run, result = JObj o /\ dget "run" o = Some (JObj run) /\ validate_run (JObj run) = Ok (JObj run) /\
    dget "runId" run = Some (JStr id) /\ dget "phase" run = Some (JStr "finished").
Proof.
  intros Hop Ha Hid Hok H. unfold validate_result in H.
  rewrite (getitem_dget _ _ _ Hok), (getitem_dget _ _ _ Hop) in H. inv_res. cbn [truthy negb] in *. inv_res.
  rewrite bool_decide_eq_false_2 in * by done. rewrite bool_decide_eq_false_2 in * by done.
  match goal with H : (if bool_decide _ then _ else _) = Ok _ |- _ =>
    rewrite bool_decide_eq_true_2 in H by by_decision; unfold run_result in H; rewrite (getitem_dget _ _ _ Ha) in H; inv_res end.
  open_records. rewrite Hid in *. rewrite bool_decide_eq_false_2 in * by done.
  match goal with H : (if is_none ?x then _ else _) = Ok _ |- _ => destruct (is_none x); [done|]; inv_res end.
  match goal with H : validate_run _ = Ok _ |- _ => pose proof H as Hrun; apply validate_run_same in H as [-> [run ->]] end.
  open_records. bool_hyps. rewrite bool_decide_eq_true_2 in * by done. cbn [andb default] in *. bool_hyps.
  match goal with H : str_is _ _ = true |- _ => apply str_is_true in H; subst end.
  match goal with H : py_eqb _ ?i = true |- _ => destruct i; try done; simpl in H; apply bool_decide_eq_true in H; subst end.
  eauto 10.
Qed.

(** ** Concrete instances *)
Definition task : json := JObj [(str "instructions", JStr "implement it"); (str "files", JArr [
  JObj [(str "path", JStr "src/a.txt"); (str "text", JStr "one")];
  JObj [(str "path", JStr "src/b/c.txt"); (str "text", JStr "two")]])].

Lemma public_task_disjoint_witness :
  exists fs : list (pystr * pystr), Forall (fun f => proper_path f.1) fs /\ ForallOrdPairs (fun f g => disjoint_paths f.1 g.1) fs /\ length fs = 2%nat.
Proof.
  destruct (public_task_disjoint task task) as [_ (d & items & fs & E & Hf & H2 & _ & Hp & Ho & _)]; [vm_compute; reflexivity|].
  exists fs. split; [exact Hp|]. split; [exact Ho|].
  apply Forall2_length in H2. injection E as <-. cbn in Hf. injection Hf as <-. exact H2.
Defined.

Definition host_limits : json := JObj (map (fun kv => (kv.1, JInt 1024)) (take 3 HOST_LIMITS)
  ++ [(str "progressRecords", JInt 16); (str "progressBytes", JInt 4096); (str "progressRecordBytes", JInt 512)]).

Definition finished_run : json := JObj [
  (str "runId", JStr (repeat 97%N 32)); (str "phase", JStr "finished");
  (str "cleanup", JObj [(str "status", JStr "succeeded"); (str "remainingResources", JArr [])]);
  (str "limits", host_limits);
  (str "progress", JObj [(str "firstSeq", JInt 2); (str "nextSeq", JInt 3); (str "truncated", JBool true);
    (str "records", JArr [JObj [(str "seq", JInt 2); (str "message", JStr "done")]])]);
  (str "outcome", JStr "submitted");
  (str "submission", JObj [(str "submissionId", JStr (repeat 98%N 32)); (str "sourceHash", JStr (repeat 99%N 64));
    (str "sourceRevision", JInt 1)])].

Lemma validate_run_coherent_witness :
  exists d first records, finished_run = JObj d /\ progress_window finished_run first records.
Proof.
  destruct (validate_run_coherent finished_run finished_run)
    as [_ (d & s & c & names & first & records & E & _ & _ & _ & _ & _ & _ & _ & Hw & _)]; [vm_compute; reflexivity|].
  exists d, first, records. split; [exact E|exact Hw].
Defined.

Definition hello12 : pydict := [(str "v", JInt 1); (str "kind", JStr "request"); (str "id", JInt 1);
  (str "op", JStr "hello"); (str "args", JObj [(str "controlVersions", JArr [JInt 2; JInt 1; JInt 7]);
    (str "requiredCapabilities", JArr [])])].

Lemma select_control_version_highest_witness :
  offers (JObj hello12) 2 /\ forall y, y ∈ [1; 2]%Z -> offers (JObj hello12) y -> (y <= 2)%Z.
Proof.
  pose proof (select_control_version_highest 1000 hello12 (JObj hello12) [1; 2]%Z
    ltac:(vm_compute; reflexivity) ltac:(vm_compute; reflexivity)) as H.
  assert (select_control_version 1000 (JObj hello12) [1; 2]%Z = Ok 2%Z) as E by (vm_compute; reflexivity).
  rewrite E in H. exact (proj2 H).
Defined.

Definition cancel_args : pydict := [(str "sessionId", JStr (repeat 100%N 32)); (str "runId", JStr (repeat 97%N 32));
  (str "reason", JStr "user-cancel")].
Definition cancel_request : pydict := [(str "v", JInt 2); (str "kind", JStr "request"); (str "id", JInt 9);
  (str "op", JStr "agent.cancel"); (str "args", JObj cancel_args)].
Definition cancel_response : pydict := [(str "v", JInt 2); (str "kind", JStr "response"); (str "id", JInt 9);
  (str "ok", JBool true); (str "result", JObj [(str "run", finished_run)])].

Lemma agent_cancel_joined_witness :
  exists o run, JObj [(str "run", finished_run)] = JObj o /\ dget "run" o = Some (JObj run) /\
    dget "phase" run = Some (JStr "finished").
Proof.
  destruct (agent_cancel_joined 1000 cancel_request cancel_args cancel_response (repeat 97%N 32) None
    (JObj [(str "run", finished_run)])) as (o & run & E & Hr & _ & _ & Hp);
    [reflexivity|reflexivity|reflexivity|reflexivity|vm_compute; reflexivity|].
  exists o, run. split; [exact E|]. split; [exact Hr|exact Hp].
Defined.
End v2.
