(* ===== verification/Effects.v ===== *)
(** * Stateful code that can fail

    A small state-and-exception monad: a computation over a state [S] returns
    the state it leaves behind and a result.  The state written before an
    exception is kept, as Python keeps it. *)

From stdpp Require Import base list gmap.
From S2P Require Import Prelude.

Definition eff (S A : Type) : Type := S -> S * res A.

Definition eret {S A} (a : A) : eff S A := fun s => (s, Ok a).
Definition ebind {S A B} (m : eff S A) (f : A -> eff S B) : eff S B := fun s =>
  match m s with
  | (s', Ok a) => f a s'
  | (s', Err e) => (s', Err e)
  end.
Definition eraise {S A} (e : exn) : eff S A := fun s => (s, Err e).
Definition eget {S} : eff S S := fun s => (s, Ok s).
Definition emodify {S} (f : S -> S) : eff S unit := fun s => (f s, Ok tt).
(** A pure computation that may fail. *)
Definition elift {S A} (m : res A) : eff S A := fun s => (s, m).
(** [if cond: raise e] *)
Definition eguard {S} (cond : bool) (e : exn) : eff S unit := elift (raise_if cond e).

(** [try: m except E: handler] *)
Definition etry {S A} (m : eff S A) (caught : exn -> bool) (handler : exn -> eff S A) : eff S A := fun s =>
  match m s with (s', Err e) => if caught e then handler e s' else (s', Err e) | r => r end.
(** [try: m finally: c] *)
Definition efinally {S A} (m : eff S A) (c : eff S unit) : eff S A := fun s =>
  let '(s', x) := m s in match c s' with (s', Ok _) => (s', x) | (s', Err e) => (s', Err e) end.
(** [try: m except BaseException: c; raise] *)
Definition eonerror {S A} (m : eff S A) (c : eff S unit) : eff S A := fun s =>
  match m s with (s', Err e) => match c s' with (s', Ok _) => (s', Err e) | (s', Err e') => (s', Err e') end | r => r end.

(** [for x in l: body(x)] *)
Fixpoint efor {S A} (body : A -> eff S unit) (l : list A) : eff S unit :=
  match l with [] => eret tt | x :: l => ebind (body x) (fun _ => efor body l) end.

Declare Scope eff_scope.
Delimit Scope eff_scope with eff.
Notation "'let*' x ':=' m 'in' k" := (ebind m (fun x => k))
  (at level 10, x binder, m at level 100, k at level 200) : eff_scope.
Notation "m ';;*' k" := (ebind m (fun _ => k))
  (at level 100, k at level 200, right associativity) : eff_scope.

(** A property of the final state, whatever the result. *)
Definition preserves {S A} (P : S -> Prop) (m : eff S A) : Prop := forall s, P s -> P (m s).1.

Lemma preserves_bind {S A B} (P : S -> Prop) (m : eff S A) (f : A -> eff S B) :
  preserves P m -> (forall a, preserves P (f a)) -> preserves P (ebind m f).
Proof.
  intros Hm Hf s Hs. unfold ebind. specialize (Hm s Hs). destruct (m s) as [s' [a|e]]; [|done]. by apply Hf.
Qed.

Lemma preserves_pure {S A} (P : S -> Prop) (m : eff S A) : (forall s, (m s).1 = s) -> preserves P m.
Proof. intros H s Hs. by rewrite H. Qed.

(** Running the first step of a sequence. *)
Lemma ebind_lift {S A B} (m : res A) (f : A -> eff S B) s :
  ebind (elift m) f s = match m with Ok a => f a s | Err e => (s, Err e) end.
Proof. done. Qed.

Lemma ebind_get {S B} (f : S -> eff S B) s : ebind eget f s = f s s.
Proof. done. Qed.

Lemma ebind_guard {S B} cond e (f : unit -> eff S B) s :
  ebind (eguard cond e) f s = if cond then (s, Err e) else f tt s.
Proof. by destruct cond. Qed.

(** Where a sequence, or a protected block, ended well. *)
Lemma ebind_Ok {S A B} (m : eff S A) (f : A -> eff S B) s s' b :
  ebind m f s = (s', Ok b) -> exists s1 a, m s = (s1, Ok a) /\ f a s1 = (s', Ok b).
Proof. unfold ebind. destruct (m s) as [s1 [a|e]]; [|done]. by exists s1, a. Qed.

Lemma efinally_Ok {S A} (m : eff S A) c s s' a :
  efinally m c s = (s', Ok a) -> exists s1 u, m s = (s1, Ok a) /\ c s1 = (s', Ok u).
Proof. unfold efinally. destruct (m s) as [s1 x]. destruct (c s1) as [s2 [u|e]] eqn:Hc; [|done]. intros [= <- ->]. by exists s1, u. Qed.

Lemma eonerror_Ok {S A} (m : eff S A) c s s' a : eonerror m c s = (s', Ok a) -> m s = (s', Ok a).
Proof. unfold eonerror. destruct (m s) as [s1 [b|e]]; [by intros [= <- <-]|]. by destruct (c s1) as [s2 [u|e2]]. Qed.

Lemma eguard_Ok {S} cond e (s s' : S) u : eguard cond e s = (s', Ok u) -> cond = false /\ s' = s.
Proof. destruct cond; [done|]. intros [= <- _]. done. Qed.
