(* ===== verification/WorkerBroker.v ===== *)
(** * Worker broker ([supervisor/mirrorgate/worker_broker.py])

    The attachment record, the frame splitter of the relay, and [WorkerFlow],
    which observes the correlation of worker-v1 traffic and enforces closing.
    The two relay threads and the control thread call [client_frame],
    [worker_frame] and [begin_closing] under one lock, so a run of the flow is
    a sequence of these steps in any order ([flow_step]). *)

From Stdlib Require Import ZArith Lia Sorted.
From stdpp Require Import base list gmap strings numbers.
From S2P Require Import Prelude PyJson JsonText Protocol Effects.
#[local] Open Scope res_scope.
#[local] Open Scope eff_scope.

Module broker.

Definition ATTACH_MAX_BYTES : Z := 4096.

(** ** The attachment record *)
Definition attach_error : exn := BrokerError "ATTACHMENT_FAILED".

Definition attach_hooks : json_hooks := {|
  object_pairs_hook := unique_pairs attach_error;
  parse_int := int_token;
  parse_float := fun _ => Err attach_error;
  parse_constant := fun _ => Err attach_error |}.

(** [except (UnicodeError, json.JSONDecodeError)] *)
Definition attach_decode_failure (e : exn) : bool :=
  match e with UnicodeError | JSONDecodeError => true | _ => false end.

Definition _strict_attach (rec_limit : nat) (frame : bytes) : res json :=
  raise_if ((ATTACH_MAX_BYTES + 1 <? zlen frame)%Z || port.bad_framing frame) attach_error ;;
  value ← try_except
    (s ← from_option_res (utf8_decode (removelast frame)) UnicodeError; loads attach_hooks rec_limit s)
    attach_decode_failure (fun _ => Err attach_error);
  d ← match value with JObj d => Ok d | _ => Err attach_error end;
  raise_if (negb (set_eq (dkeys d) (strs ["v"; "kind"; "sessionId"; "workerId"; "attachmentToken"]))) attach_error ;;
  v ← getitem value "v"; k ← getitem value "kind";
  raise_if (negb (match v with JInt z => (z =? 1)%Z | _ => false end) || negb (str_is k "attach")) attach_error ;;
  s ← getitem value "sessionId"; w ← getitem value "workerId"; t ← getitem value "attachmentToken";
  raise_if (negb (is_str s) || negb (is_str w) || negb (is_str t)) attach_error ;;
  let hex n x := match x with JStr y => match_hex n y | _ => false end in
  raise_if (negb (hex 32%Z s) || negb (hex 32%Z w) || negb (hex 64%Z t)) attach_error ;;
  Ok value.

(** ** Splitting the byte stream *)

(** The bytes up to and including the first newline, and the rest. *)
Fixpoint split_line (b : bytes) : option (bytes * bytes) :=
  match b with
  | [] => None
  | c :: r =>
    if (c =? 10)%N then Some ([c], r)
    else match split_line r with Some (l, rest) => Some (c :: l, rest) | None => None end
  end.

(** The loop [while b"\n" in buffer]; one newline is consumed per turn. *)
Fixpoint take_frames (fuel : nat) (buffer : bytes) : bytes * res (list bytes) :=
  match split_line buffer with
  | None => (buffer, Ok [])
  | Some (frame, rest) =>
    if (port.MAX_FRAME_BYTES + 1 <? zlen frame)%Z then (buffer, Err (ProtocolError "LIMIT"))
    else match fuel with
         | O => (buffer, Err RecursionError)
         | S fuel =>
           match take_frames fuel rest with
           | (b, Ok frames) => (b, Ok (frame :: frames))
           | (b, Err e) => (b, Err e)
           end
         end
  end.

(** [_frames]: the buffer is mutated, complete frames are returned. *)
Definition _frames (buffer chunk : bytes) : bytes * res (list bytes) :=
  let b := buffer ++ chunk in
  if (port.MAX_FRAME_BYTES + 1 <? zlen b)%Z && negb (bool_decide (10%N ∈ b)) then (b, Err (ProtocolError "LIMIT"))
  else take_frames (length b) b.

(** ** The flow *)
Inductive life : Type := awaitHello | awaitCreate | created | ready | disposed | poisoned.
#[export] Instance life_eq_dec : EqDecision life.
Proof. solve_decision. Defined.

Record flow : Type := Flow {
  last_id : Z;
  requests : gmap Z json;
  ordinary_pending : option Z;
  cancel_pending : option Z;
  lifecycle : life;
  closing : bool;
  cancelled_ever : bool;
  dispose_sent : bool;
  cooperative_failure : option pystr;
  events : list string }.

Definition init : flow := Flow 0 ∅ None None awaitHello false false false None [].

Definition set_last_id (z : Z) (f : flow) : flow :=
  Flow z (requests f) (ordinary_pending f) (cancel_pending f) (lifecycle f) (closing f) (cancelled_ever f)
    (dispose_sent f) (cooperative_failure f) (events f).
Definition set_requests (r : gmap Z json) (f : flow) : flow :=
  Flow (last_id f) r (ordinary_pending f) (cancel_pending f) (lifecycle f) (closing f) (cancelled_ever f)
    (dispose_sent f) (cooperative_failure f) (events f).
Definition set_ordinary (o : option Z) (f : flow) : flow :=
  Flow (last_id f) (requests f) o (cancel_pending f) (lifecycle f) (closing f) (cancelled_ever f)
    (dispose_sent f) (cooperative_failure f) (events f).
Definition set_cancel (o : option Z) (f : flow) : flow :=
  Flow (last_id f) (requests f) (ordinary_pending f) o (lifecycle f) (closing f) (cancelled_ever f)
    (dispose_sent f) (cooperative_failure f) (events f).
Definition set_life (l : life) (f : flow) : flow :=
  Flow (last_id f) (requests f) (ordinary_pending f) (cancel_pending f) l (closing f) (cancelled_ever f)
    (dispose_sent f) (cooperative_failure f) (events f).
Definition set_closing (f : flow) : flow :=
  Flow (last_id f) (requests f) (ordinary_pending f) (cancel_pending f) (lifecycle f) true (cancelled_ever f)
    (dispose_sent f) (cooperative_failure f) (events f).
Definition set_cancelled (f : flow) : flow :=
  Flow (last_id f) (requests f) (ordinary_pending f) (cancel_pending f) (lifecycle f) (closing f) true
    (dispose_sent f) (cooperative_failure f) (events f).
Definition set_dispose (f : flow) : flow :=
  Flow (last_id f) (requests f) (ordinary_pending f) (cancel_pending f) (lifecycle f) (closing f) (cancelled_ever f)
    true (cooperative_failure f) (events f).
Definition set_failure (s : pystr) (f : flow) : flow :=
  Flow (last_id f) (requests f) (ordinary_pending f) (cancel_pending f) (lifecycle f) (closing f) (cancelled_ever f)
    (dispose_sent f) (Some s) (events f).
Definition emit (e : string) (f : flow) : flow :=
  Flow (last_id f) (requests f) (ordinary_pending f) (cancel_pending f) (lifecycle f) (closing f) (cancelled_ever f)
    (dispose_sent f) (cooperative_failure f) (events f ++ [e]).

Definition LIFECYCLE : exn := ProtocolError "LIFECYCLE".
Definition SCHEMA : exn := ProtocolError "SCHEMA".
Definition HANDSHAKE : exn := ProtocolError "HANDSHAKE".

(** [true] is ["dispose-then-terminate"], [false] is ["terminate-only"]. *)
Definition cleanup_mode (f : flow) : bool :=
  bool_decide (ordinary_pending f = None) && bool_decide (cancel_pending f = None)
  && negb (cancelled_ever f) && negb (dispose_sent f) && bool_decide (lifecycle f ∈ [created; ready]).

Definition begin_closing : eff flow bool :=
  emodify set_closing ;;* let* f := eget in eret (cleanup_mode f).

Definition int_field (v : json) (k : pystr) : res Z :=
  x ← getitem v k; match x with JInt z => Ok z | _ => Err TypeError end.
Definition str_field (v : json) (k : pystr) : res pystr :=
  x ← getitem v k; match x with JStr s => Ok s | _ => Err TypeError end.

(** The cancel target is the pending call and no cancellation is pending. *)
Definition bad_target (f : flow) (request : json) : res bool :=
  target ← int_field request "requestId";
  Ok (negb (bool_decide (ordinary_pending f = Some target)) || negb (bool_decide (cancel_pending f = None))).

(** The body of [client_frame] under the lock. *)
Definition client_request (request : json) : eff flow unit :=
  let* request_id := elift (int_field request "id") in
  let* op := elift (str_field request "op") in
  let* f := eget in
  eguard (request_id <=? last_id f)%Z SCHEMA ;;*
  emodify (set_last_id request_id) ;;*
  let* f := eget in
  (if closing f then
     if bool_decide (op = "cancel") then let* bad := elift (bad_target f request) in eguard bad LIFECYCLE
     else if bool_decide (op = "dispose") then eguard (negb (cleanup_mode f)) LIFECYCLE
     else eraise LIFECYCLE
   else eret tt) ;;*
  (if bool_decide (op = "cancel") then
     let* bad := elift (bad_target f request) in
     eguard bad SCHEMA ;;*
     emodify (set_cancel (Some request_id)) ;;*
     emodify set_cancelled
   else
     eguard (negb (bool_decide (ordinary_pending f = None))) SCHEMA ;;*
     eguard (bool_decide (op = "hello") && negb (bool_decide (lifecycle f = awaitHello))) LIFECYCLE ;;*
     eguard (bool_decide (op = "create") && negb (bool_decide (lifecycle f = awaitCreate))) LIFECYCLE ;;*
     eguard (negb (bool_decide (op ∈ strs ["hello"; "create"])) && negb (bool_decide (lifecycle f ∈ [created; ready])))
       LIFECYCLE ;;*
     (if bool_decide (op = "dispose") then
        eguard (dispose_sent f) LIFECYCLE ;;* emodify set_dispose
      else eret tt) ;;*
     emodify (set_ordinary (Some request_id))) ;;*
  emodify (fun f => set_requests (<[request_id := request]> (requests f)) f).

Definition client_frame (rec_limit : nat) (frame : bytes) : eff flow unit :=
  let* request := elift (m ← port.parse_frame rec_limit frame; port.validate_request m) in
  client_request request.

(** [str(message)\[:1024\]] of the failed dispose. *)
Definition dispose_message (response : json) : res pystr :=
  match response with
  | JObj d =>
    match dget "error" d with
    | Some (JObj e) =>
      match dget "message" e with
      | Some (JStr s) => Ok (take 1024 s)
      | Some _ => Err TypeError
      | None => Ok (str "worker dispose failed")
      end
    | Some _ => Err TypeError
    | None => Ok (str "worker dispose failed")
    end
  | _ => Err TypeError
  end.

(** The identity a worker answers hello with is the one requested. *)
Definition identity_ok (request result : json) : bool :=
  match result, request with
  | JObj r, JObj q =>
    set_eq (dkeys r) (strs ["interfaceDigest"; "runtime"])
    && match dget "interfaceDigest" r, dget "interfaceDigest" q, dget "runtime" r, dget "runtime" q with
       | Some a, Some b, Some c, Some d => py_eqb a b && py_eqb c d
       | _, _, _, _ => false
       end
  | _, _ => false
  end.

(** The body of [worker_frame] under the lock. *)
Definition worker_response (response : json) : eff flow unit :=
  let* request_id := elift (int_field response "id") in
  let* f := eget in
  match requests f !! request_id with
  | None => eraise SCHEMA
  | Some request =>
    (if bool_decide (cancel_pending f = Some request_id) then
       eguard (negb (bool_decide (ordinary_pending f = None))) SCHEMA ;;* emodify (set_cancel None)
     else if bool_decide (ordinary_pending f = Some request_id) then emodify (set_ordinary None)
     else eraise SCHEMA) ;;*
    emodify (fun f => set_requests (delete request_id (requests f)) f) ;;*
    let* op := elift (str_field request "op") in
    let* o := elift (getitem response "ok") in
    let ok := bool_decide (o = JBool true) in
    if bool_decide (op = "hello") then
      eguard (negb ok) HANDSHAKE ;;*
      let* result := elift (getitem response "result") in
      eguard (negb (identity_ok request result)) HANDSHAKE ;;*
      emodify (set_life awaitCreate)
    else if bool_decide (op = "create") then
      let* null := elift (if ok then r ← getitem response "result"; Ok (is_none r) else Ok false) in
      eguard (negb null) HANDSHAKE ;;*
      emodify (set_life created) ;;*
      emodify (emit "worker.ready")
    else if bool_decide (op = "dispose") then
      if ok then
        let* result := elift (getitem response "result") in
        eguard (negb (is_none result)) SCHEMA ;;*
        emodify (set_life disposed)
      else
        emodify (set_life poisoned) ;;*
        let* message := elift (dispose_message response) in
        emodify (set_failure message)
    else if negb ok then emodify (set_life poisoned)
    else emodify (set_life ready)
  end.

Definition worker_frame (rec_limit : nat) (frame : bytes) : eff flow unit :=
  let* response := elift (m ← port.parse_frame rec_limit frame; port.validate_response m) in
  worker_response response.

(** ** The flow over typed messages *)

Import port.

Definition is_dispose (r : request) : bool := match r with Dispose => true | _ => false end.
Definition is_cancel (r : request) : bool := match r with Cancel _ => true | _ => false end.

(** The lifecycle in which a request may be sent. *)
Definition life_allows (r : request) (l : life) : bool :=
  match r with
  | Hello _ _ => bool_decide (l = awaitHello)
  | Create => bool_decide (l = awaitCreate)
  | _ => bool_decide (l ∈ [created; ready])
  end.

Definition record_request (id : Z) (m : json) (f : flow) : flow := set_requests (<[id := m]> (requests f)) f.

(** [client_request] on a request known to be well formed. *)
Definition client_step (id : Z) (r : request) (m : json) (f : flow) : flow * res unit :=
  if (id <=? last_id f)%Z then (f, Err SCHEMA)
  else
    let f1 := set_last_id id f in
    match r with
    | Cancel t =>
      if bool_decide (ordinary_pending f = Some t) && bool_decide (cancel_pending f = None)
      then (record_request id m (set_cancelled (set_cancel (Some id) f1)), Ok tt)
      else (f1, Err (if closing f then LIFECYCLE else SCHEMA))
    | _ =>
      if closing f && negb (is_dispose r && cleanup_mode f) then (f1, Err LIFECYCLE)
      else if negb (bool_decide (ordinary_pending f = None)) then (f1, Err SCHEMA)
      else if negb (life_allows r (lifecycle f)) then (f1, Err LIFECYCLE)
      else if is_dispose r && dispose_sent f then (f1, Err LIFECYCLE)
      else (record_request id m (set_ordinary (Some id) (if is_dispose r then set_dispose f1 else f1)), Ok tt)
    end.

Lemma int_field_dget d k z : dget k d = Some (JInt z) -> int_field (JObj d) k = Ok z.
Proof. intros H. unfold int_field. by rewrite (getitem_dget _ _ _ H). Qed.
Lemma str_field_dget d k s : dget k d = Some (JStr s) -> str_field (JObj d) k = Ok s.
Proof. intros H. unfold str_field. by rewrite (getitem_dget _ _ _ H). Qed.

(** Case analysis on what the flow consults. *)
Ltac split_flow f :=
  repeat match goal with
  | |- context [if closing f then _ else _] => destruct (closing f)
  | |- context [cleanup_mode f] => destruct (cleanup_mode f)
  | |- context [bool_decide (ordinary_pending f = None)] => destruct (bool_decide (ordinary_pending f = None))
  | |- context [bool_decide (lifecycle f = ?x)] => destruct (bool_decide (lifecycle f = x))
  | |- context [bool_decide (lifecycle f ∈ ?x)] => destruct (bool_decide (lifecycle f ∈ x))
  | |- context [dispose_sent f] => destruct (dispose_sent f)
  end.

Lemma client_request_step d id r f :
  denotes_request d id r -> client_request (JObj d) f = client_step id r (JObj d) f.
Proof.
  intros (_ & _ & Hid & _ & Hop & Hx). unfold client_request, client_step, ebind, elift, eget, eguard, emodify, eret, eraise.
  rewrite (int_field_dget _ _ _ Hid), (str_field_dget _ _ _ Hop).
  destruct (id <=? last_id f)%Z; [done|]. cbn [raise_if elift].
  destruct r as [dg rt| |a ins| | |t]; cbn [op_name]; eval_decides.
  6:{ destruct Hx as [Ht _]. unfold bad_target. rewrite (int_field_dget _ _ _ Ht). cbn [rbind].
      change (closing (set_last_id id f)) with (closing f).
      change (ordinary_pending (set_last_id id f)) with (ordinary_pending f).
      change (cancel_pending (set_last_id id f)) with (cancel_pending f).
      destruct (bool_decide (ordinary_pending f = Some t)); destruct (bool_decide (cancel_pending f = None));
        destruct (closing f); done. }
  all: change (closing (set_last_id id f)) with (closing f);
    change (ordinary_pending (set_last_id id f)) with (ordinary_pending f);
    change (lifecycle (set_last_id id f)) with (lifecycle f);
    change (dispose_sent (set_last_id id f)) with (dispose_sent f);
    change (cleanup_mode (set_last_id id f)) with (cleanup_mode f);
    cbn [is_dispose life_allows andb negb];
    split_flow f; done.
Qed.

Definition forget_request (id : Z) (f : flow) : flow := set_requests (delete id (requests f)) f.

(** What an answer [a] to the request [r] (stored as [q]) does once the request
    has been taken out. *)
Definition accept_response (r : request) (q : json) (a : response) (f : flow) : flow * res unit :=
  match r, a with
  | Hello _ _, Success result =>
    if identity_ok q result then (set_life awaitCreate f, Ok tt) else (f, Err HANDSHAKE)
  | Hello _ _, Failure _ _ => (f, Err HANDSHAKE)
  | Create, Success JNull => (emit "worker.ready" (set_life created f), Ok tt)
  | Create, _ => (f, Err HANDSHAKE)
  | Dispose, Success JNull => (set_life disposed f, Ok tt)
  | Dispose, Success _ => (f, Err SCHEMA)
  | Dispose, Failure _ message => (set_failure (take 1024 message) (set_life poisoned f), Ok tt)
  | _, Success _ => (set_life ready f, Ok tt)
  | _, Failure _ _ => (set_life poisoned f, Ok tt)
  end.

(** [worker_response] on a well-formed response to the stored request [r]. *)
Definition worker_step (id : Z) (r : request) (q : json) (a : response) (f : flow) : flow * res unit :=
  if bool_decide (cancel_pending f = Some id) then
    if bool_decide (ordinary_pending f = None) then accept_response r q a (forget_request id (set_cancel None f))
    else (f, Err SCHEMA)
  else if bool_decide (ordinary_pending f = Some id) then
    accept_response r q a (forget_request id (set_ordinary None f))
  else (f, Err SCHEMA).

Lemma worker_response_step d id q r a f :
  requests f !! id = Some (JObj q) -> denotes_request q id r -> denotes_response d id a ->
  worker_response (JObj d) f = worker_step id r (JObj q) a f.
Proof.
  intros Hq (_ & _ & _ & _ & Hop & Hx) (_ & Hid & _ & Ha).
  unfold worker_response, worker_step, ebind, elift, eget, eguard, emodify, eret, eraise.
  rewrite (int_field_dget _ _ _ Hid), Hq, (str_field_dget _ _ _ Hop).
  assert (getitem (JObj d) "ok" = Ok (JBool match a with Success _ => true | _ => false end)) as Hok.
  { destruct a; [destruct Ha as (_ & Hok & _)|destruct Ha as (_ & Hok & _)]; by rewrite (getitem_dget _ _ _ Hok). }
  assert (forall result, a = Success result -> getitem (JObj d) "result" = Ok result) as Hres.
  { intros result ->. destruct Ha as (_ & _ & Hr). by rewrite (getitem_dget _ _ _ Hr). }
  assert (forall code msg, a = Failure code msg -> dispose_message (JObj d) = Ok (take 1024 msg)) as Hmsg.
  { intros code msg ->. destruct Ha as (_ & _ & e & He & _ & _ & _ & Hm & _). unfold dispose_message.
    by rewrite He, Hm. }
  clear Ha. rewrite Hok.
  destruct (bool_decide (cancel_pending f = Some id)); [destruct (bool_decide (ordinary_pending f = None)); [|done]
    |destruct (bool_decide (ordinary_pending f = Some id)); [|done]]; cbn [negb raise_if elift];
    destruct r as [dg rt| |act ins| | |t], a as [result|code msg]; cbn [op_name]; eval_decides; cbn [negb raise_if accept_response];
    rewrite ?(Hres _ eq_refl), ?(Hmsg _ _ eq_refl); try done; cbn [rbind];
    try (destruct (identity_ok (JObj q) result); done); try (destruct result; done).
Qed.

(** ** Runs *)

(** What an observer of the relay sees. *)
Inductive label : Type :=
  | Forwarded (id : Z) (r : request)
  | Answered (id : Z) (r : request)
  | Refused
  | Closing.

(** The label of a response that is let through names the identifier the worker
    wrote, and the request on record under it; when there is none it may name any
    request. *)
Inductive flow_step (rec_limit : nat) : flow -> label -> flow -> Prop :=
  | step_forward f f' frame d id r :
      parse_frame rec_limit frame = Ok (JObj d) -> bounded (JObj d) -> denotes_request d id r ->
      client_frame rec_limit frame f = (f', Ok tt) -> flow_step rec_limit f (Forwarded id r) f'
  | step_client_refused f f' frame e :
      client_frame rec_limit frame f = (f', Err e) -> flow_step rec_limit f Refused f'
  | step_answer f f' frame d id a r :
      parse_frame rec_limit frame = Ok (JObj d) -> bounded (JObj d) -> denotes_response d id a ->
      (forall q, requests f !! id = Some (JObj q) -> denotes_request q id r) ->
      worker_frame rec_limit frame f = (f', Ok tt) -> flow_step rec_limit f (Answered id r) f'
  | step_worker_refused f f' frame e :
      worker_frame rec_limit frame f = (f', Err e) -> flow_step rec_limit f Refused f'
  | step_closing f f' b :
      begin_closing f = (f', Ok b) -> flow_step rec_limit f Closing f'.

Inductive run (rec_limit : nat) : list label -> flow -> Prop :=
  | run_init : run rec_limit [] init
  | run_snoc tr f l f' : run rec_limit tr f -> flow_step rec_limit f l f' -> run rec_limit (tr ++ [l]) f'.

(** *** The invariant *)
Definition pending_as (f : flow) (id : Z) (r : request) : Prop :=
  if is_cancel r then cancel_pending f = Some id else ordinary_pending f = Some id.

Record flow_ok (f : flow) : Prop := FlowOk {
  ok_last : (0 <= last_id f)%Z;
  ok_stored : forall id m, requests f !! id = Some m -> (id <= last_id f)%Z /\
    exists d r, m = JObj d /\ denotes_request d id r /\ pending_as f id r;
  ok_ordinary : forall id, ordinary_pending f = Some id ->
    exists d r, requests f !! id = Some (JObj d) /\ denotes_request d id r /\ is_cancel r = false;
  ok_cancel : forall id, cancel_pending f = Some id -> cancelled_ever f = true /\
    exists d t, requests f !! id = Some (JObj d) /\ denotes_request d id (Cancel t) }.

Lemma flow_ok_init : flow_ok init.
Proof. split; simpl; [lia|intros id m; by rewrite lookup_empty|done|done]. Qed.

(** A step that keeps the queue keeps the invariant. *)
Lemma flow_ok_same f f' :
  flow_ok f -> (last_id f <= last_id f')%Z -> requests f' = requests f ->
  ordinary_pending f' = ordinary_pending f -> cancel_pending f' = cancel_pending f ->
  cancelled_ever f' = cancelled_ever f -> flow_ok f'.
Proof.
  intros [H1 H2 H3 H4] Hl Hr Ho Hc He. split.
  - lia.
  - intros id m Hm. rewrite Hr in Hm. destruct (H2 id m Hm) as [? (d & r & ? & ? & Hp)]. split; [lia|].
    exists d, r. unfold pending_as in *. by rewrite Ho, Hc.
  - intros id. rewrite Ho, Hr. apply H3.
  - intros id. rewrite Hc, He, Hr. apply H4.
Qed.

Lemma denotes_fun d id id' r r' : denotes_request d id r -> denotes_request d id' r' -> is_cancel r = is_cancel r'.
Proof.
  intros (_ & _ & _ & _ & H1 & _) (_ & _ & _ & _ & H2 & _). rewrite H1 in H2. injection H2 as H2.
  destruct r, r'; simpl in *; try done.
Qed.

Lemma fresh_id f id m : flow_ok f -> (last_id f < id)%Z -> requests f !! id = Some m -> False.
Proof. intros Hf Hid Hm. destruct (ok_stored f Hf id m Hm). lia. Qed.

Lemma client_step_ok d id r f :
  flow_ok f -> denotes_request d id r -> flow_ok (client_step id r (JObj d) f).1.
Proof.
  intros Hf Hd. unfold client_step. destruct (Z.leb_spec id (last_id f)) as [|Hid]; [done|].
  assert (flow_ok (set_last_id id f)) as Hsame by (eapply flow_ok_same; [exact Hf|simpl; lia|done..]).
  assert (forall id' m, requests f !! id' = Some m -> id' <> id) as Hne.
  { intros id' m Hm ->. exact (fresh_id f id m Hf Hid Hm). }
  assert (is_cancel r = false -> ordinary_pending f = None -> forall b : bool,
    flow_ok (record_request id (JObj d) (set_ordinary (Some id) (if b then set_dispose (set_last_id id f) else set_last_id id f)))) as Hord.
  { intros Hc Ho b. destruct Hf as [H1 H2 H3 H4]. split; simpl.
    - destruct b; simpl; lia.
    - intros id' m. destruct b; simpl; rewrite lookup_insert_Some; (intros [[<- <-]|[Hn Hm]];
        [split; [lia|]; exists d, r; unfold pending_as; rewrite Hc; done|
         destruct (H2 id' m Hm) as [? (d' & r' & ? & ? & Hp)]; split; [lia|]; exists d', r'; split_and!; [done|done|];
         unfold pending_as in *; destruct (is_cancel r'); [done|congruence]]).
    - intros id' [= <-]. exists d, r. destruct b; simpl; rewrite lookup_insert_eq; done.
    - intros id'. destruct b; simpl; intros Hp; destruct (H4 id' Hp) as [? (d' & t & Hl & ?)]; (split; [done|]);
        exists d', t; rewrite lookup_insert_ne by (intros ->; by eapply Hne); done. }
  destruct r as [dg rt| |a ins| | |t]; cbn [is_dispose andb].
  6:{ case_bool_decide as Ho; cbn [andb]; [|done]. case_bool_decide as Hc; [|done]. cbn [fst].
      destruct Hf as [H1 H2 H3 H4]. split; simpl.
      - lia.
      - intros id' m. rewrite lookup_insert_Some. intros [[<- <-]|[Hn Hm]].
        + split; [lia|]. exists d, (Cancel t). done.
        + destruct (H2 id' m Hm) as [? (d' & r' & ? & ? & Hp)]. split; [lia|]. exists d', r'. split_and!; [done|done|].
          unfold pending_as in *. destruct (is_cancel r'); [congruence|done].
      - intros id' Hp. destruct (H3 id' Hp) as (d' & r' & Hl & ?). exists d', r'.
        rewrite lookup_insert_ne by (intros ->; by eapply Hne). done.
      - intros id' [= <-]. split; [done|]. exists d, t. by rewrite lookup_insert_eq. }
  all: repeat case_match; bool_hyps; cbn [fst]; try done.
  all: first [apply (Hord eq_refl ltac:(assumption) false)|apply (Hord eq_refl ltac:(assumption) true)].
Qed.

Lemma accept_response_same r q a f : flow_ok f -> flow_ok (accept_response r q a f).1.
Proof.
  intros Hf. unfold accept_response. repeat case_match; cbn [fst]; try done;
    (eapply flow_ok_same; [exact Hf|simpl; lia|done..]).
Qed.

Lemma worker_step_ok id r q a f : flow_ok f -> flow_ok (worker_step id r q a f).1.
Proof.
  intros Hf. unfold worker_step. destruct Hf as [H1 H2 H3 H4] eqn:EHf.
  case_bool_decide as Hc; [case_bool_decide as Ho; [|done]|case_bool_decide as Ho; [|done]]; apply accept_response_same.
  - split; simpl; [done| | |done].
    + intros id' m. rewrite lookup_delete_Some. intros [Hn Hm]. destruct (H2 id' m Hm) as [? (d' & r' & ? & ? & Hp)].
      split; [done|]. exists d', r'. split_and!; [done|done|]. unfold pending_as in *. destruct (is_cancel r'); simpl; congruence.
    + rewrite Ho. done.
  - split; simpl; [done| |done|].
    + intros id' m. rewrite lookup_delete_Some. intros [Hn Hm]. destruct (H2 id' m Hm) as [? (d' & r' & ? & ? & Hp)].
      split; [done|]. exists d', r'. split_and!; [done|done|]. unfold pending_as in *. destruct (is_cancel r'); simpl; congruence.
    + intros id' Hp. destruct (H4 id' Hp) as [? (d' & t & Hl & ?)]. split; [done|]. exists d', t.
      rewrite lookup_delete_ne by congruence. done.
Qed.

(** A client frame is refused before the flow sees it, or is a typed step. *)
Lemma client_frame_cases rec_limit frame f :
  (exists e, client_frame rec_limit frame f = (f, Err e)) \/
  exists d id r, parse_frame rec_limit frame = Ok (JObj d) /\ bounded (JObj d) /\ denotes_request d id r /\
    client_frame rec_limit frame f = client_step id r (JObj d) f.
Proof.
  unfold client_frame, ebind, elift.
  destruct (parse_frame rec_limit frame) as [m|e] eqn:Hp; cbn [rbind]; [|eauto].
  destruct (validate_request m) as [m'|e] eqn:Hv; [|eauto]. right.
  apply validate_request_sound in Hv as (-> & Hb & d & id & r & -> & Hd). exists d, id, r.
  split_and!; [done|done|done|]. by apply client_request_step.
Qed.

Lemma worker_frame_cases rec_limit frame f :
  flow_ok f ->
  (exists e, worker_frame rec_limit frame f = (f, Err e)) \/
  exists d id a q r, parse_frame rec_limit frame = Ok (JObj d) /\ bounded (JObj d) /\ denotes_response d id a /\
    requests f !! id = Some (JObj q) /\ denotes_request q id r /\
    worker_frame rec_limit frame f = worker_step id r (JObj q) a f.
Proof.
  intros Hf. unfold worker_frame, ebind, elift.
  destruct (parse_frame rec_limit frame) as [m|e] eqn:Hp; cbn [rbind]; [|eauto].
  destruct (validate_response m) as [m'|e] eqn:Hv; [|eauto].
  apply validate_response_sound in Hv as (-> & Hb & d & id & a & -> & Hd).
  destruct (requests f !! id) as [q|] eqn:Hq.
  - right. destruct (ok_stored f Hf id q Hq) as [_ (dq & r & -> & Hr & _)]. exists d, id, a, dq, r.
    split_and!; try done. by apply worker_response_step.
  - left. exists SCHEMA. unfold worker_response, ebind, elift, eget, eraise.
    destruct Hd as (_ & Hid & _). by rewrite (int_field_dget _ _ _ Hid), Hq.
Qed.

Lemma flow_step_ok rec_limit f l f' : flow_ok f -> flow_step rec_limit f l f' -> flow_ok f'.
Proof.
  intros Hf Hs. destruct Hs as [f f' frame d id r _ _ _ H|f f' frame e H|f f' frame d id a r _ _ _ _ H|f f' frame e H|f f' b H].
  1,2: destruct (client_frame_cases rec_limit frame f) as [[e' E]|(d' & id' & r' & _ & _ & Hd & E)]; rewrite E in H;
    [by simplify_eq|]; pose proof (client_step_ok d' id' r' f Hf Hd) as Hok; by rewrite H in Hok.
  1,2: destruct (worker_frame_cases rec_limit frame f Hf) as [[e' E]|(d' & id' & a' & q' & r' & _ & _ & _ & _ & _ & E)]; rewrite E in H;
    [by simplify_eq|]; pose proof (worker_step_ok id' r' (JObj q') a' f Hf) as Hok; by rewrite H in Hok.
  - unfold begin_closing, ebind, emodify, eget, eret in H. injection H as <- _.
    eapply flow_ok_same; [exact Hf|simpl; lia|done..].
Qed.

Lemma run_ok rec_limit tr f : run rec_limit tr f -> flow_ok f.
Proof. induction 1; [apply flow_ok_init|by eapply flow_step_ok]. Qed.

(** *** Effect of one step on what the trace remembers *)

Definition forwarded (tr : list label) : list Z := omap (fun l => match l with Forwarded id _ => Some id | _ => None end) tr.
Definition answered (tr : list label) : list Z := omap (fun l => match l with Answered id _ => Some id | _ => None end) tr.

(** A forwarding step queues exactly its request. *)
Lemma forward_effect rec_limit f id r f' :
  flow_step rec_limit f (Forwarded id r) f' ->
  (last_id f < id)%Z /\ last_id f' = id /\ (exists d, denotes_request d id r /\ requests f' = <[id := JObj d]> (requests f)) /\
  (closing f = true -> (exists t, r = Cancel t) \/ (r = Dispose /\ cleanup_mode f = true)) /\
  closing f' = closing f /\ lifecycle f' = lifecycle f /\
  cancelled_ever f' = cancelled_ever f || is_cancel r /\
  dispose_sent f' = dispose_sent f || is_dispose r /\ (is_dispose r = true -> dispose_sent f = false) /\
  (is_cancel r = false -> life_allows r (lifecycle f) = true).
Proof.
  intros H. inversion H as [f0 f1 frame d id0 r0 Hp Hb Hd Hc| | | |]; subst.
  unfold client_frame, ebind, elift in Hc. rewrite Hp in Hc. cbn [rbind] in Hc.
  rewrite (validate_request_complete d id r Hb Hd) in Hc. rewrite (client_request_step d id r f Hd) in Hc.
  clear Hp H. unfold client_step in Hc. destruct (Z.leb_spec id (last_id f)) as [|Hid]; [done|].
  destruct r as [dg rt| |a ins| | |t]; cbn [is_dispose andb] in Hc.
  6:{ case_bool_decide; cbn [andb] in Hc; [|done]. case_bool_decide; [|done]. injection Hc as <-. simpl.
      split_and!; try done; eauto; by rewrite ?orb_true_r, ?orb_false_r. }
  all: destruct (closing f) eqn:Hcl; cbn [andb negb] in Hc; try (destruct (cleanup_mode f) eqn:Hm; cbn [negb] in Hc);
    try discriminate Hc; (destruct (bool_decide (ordinary_pending f = None)); cbn [negb] in Hc; [|discriminate Hc]);
    destruct (life_allows _ (lifecycle f)) eqn:Hl; cbn [negb] in Hc; try discriminate Hc;
    try (destruct (dispose_sent f) eqn:Hds; try discriminate Hc); injection Hc as <-; cbn [is_cancel is_dispose];
    (split_and!; try done; eauto; simpl; rewrite ?Hcl, ?Hds, ?orb_false_r; done).
Qed.

Definition life_after (r : request) : list life :=
  match r with
  | Hello _ _ => [awaitCreate]
  | Create => [created]
  | Dispose => [disposed; poisoned]
  | _ => [ready; poisoned]
  end.

(** What a step that forwards nothing to the worker leaves alone. *)
Definition quiet (f f' : flow) : Prop :=
  closing f' = closing f /\ cancelled_ever f' = cancelled_ever f /\ dispose_sent f' = dispose_sent f.

Lemma accept_response_effect r q a f f' x :
  accept_response r q a f = (f', x) ->
  quiet f f' /\ last_id f' = last_id f /\ requests f' = requests f /\
  match x with Ok _ => lifecycle f' ∈ life_after r | Err _ => lifecycle f' = lifecycle f end.
Proof.
  unfold accept_response, quiet. intros H. repeat case_match; simplify_eq; simpl; split_and!; try done; set_solver.
Qed.

Lemma worker_step_effect id r q a f f' x :
  worker_step id r q a f = (f', x) ->
  quiet f f' /\ last_id f' = last_id f /\
  match x with
  | Ok _ => requests f' = delete id (requests f) /\ lifecycle f' ∈ life_after r
  | Err _ => (requests f' = requests f \/ requests f' = delete id (requests f)) /\ lifecycle f' = lifecycle f
  end.
Proof.
  unfold worker_step. intros H. case_bool_decide; [case_bool_decide|case_bool_decide]; simplify_eq;
    try (by split_and!; [split_and!| |left|]).
  - apply accept_response_effect in H as ((Q1 & Q2 & Q3) & Q4 & Q5 & Q6). split; [done|]. split; [done|]. destruct x; [done|]. by split; [right|].
  - apply accept_response_effect in H as ((Q1 & Q2 & Q3) & Q4 & Q5 & Q6). split; [done|]. split; [done|]. destruct x; [done|]. by split; [right|].
Qed.

Lemma answer_effect rec_limit f id r f' :
  flow_ok f -> flow_step rec_limit f (Answered id r) f' ->
  (exists m, requests f !! id = Some m) /\ requests f' = delete id (requests f) /\ last_id f' = last_id f /\
  quiet f f' /\ lifecycle f' ∈ life_after r /\ exists d, requests f !! id = Some (JObj d) /\ denotes_request d id r.
Proof.
  intros Hf H. inversion H as [| |f0 f1 frame d id0 a r0 Hp Hb Hd Hr Hw| |]; subst.
  unfold worker_frame, ebind, elift in Hw. rewrite Hp in Hw. cbn [rbind] in Hw. rewrite (validate_response_complete d id a Hb Hd) in Hw.
  destruct (requests f !! id) as [m|] eqn:Hq.
  2:{ unfold worker_response, ebind, elift, eget, eraise in Hw. destruct Hd as (_ & Hid & _). by rewrite (int_field_dget _ _ _ Hid), Hq in Hw. }
  destruct (ok_stored f Hf id m Hq) as [_ (q & _ & -> & _)]. specialize (Hr q eq_refl).
  rewrite (worker_response_step d id q r a f Hq Hr Hd) in Hw. apply worker_step_effect in Hw as (? & ? & ? & ?). eauto 10.
Qed.

Lemma client_step_refused id r m f f' e :
  client_step id r m f = (f', Err e) -> f' = f \/ f' = set_last_id id f /\ (last_id f < id)%Z.
Proof.
  unfold client_step. destruct (Z.leb_spec id (last_id f)); [intros; simplify_eq; by left|].
  intros Hc. right. split; [|done]. destruct r; repeat case_match; by simplify_eq.
Qed.

Lemma refused_effect rec_limit f f' :
  flow_ok f -> flow_step rec_limit f Refused f' ->
  (last_id f <= last_id f')%Z /\ (requests f' = requests f \/ exists id, requests f' = delete id (requests f)) /\
  quiet f f' /\ lifecycle f' = lifecycle f.
Proof.
  intros Hf H. inversion H as [|f0 f1 frame e Hc| |f0 f1 frame e Hw|]; subst.
  - destruct (client_frame_cases rec_limit frame f) as [[e' E]|(d & id & r & _ & _ & _ & E)]; rewrite E in Hc.
    + simplify_eq. by split_and!; [|left|split_and!|].
    + apply client_step_refused in Hc as [->|[-> Hid]]; (split_and!; [simpl; lia|by left|done..]).
  - destruct (worker_frame_cases rec_limit frame f Hf) as [[e' E]|(d & id & a & q & r & _ & _ & _ & _ & _ & E)]; rewrite E in Hw.
    + simplify_eq. by split_and!; [|left|split_and!|].
    + apply worker_step_effect in Hw as (? & Hl & [?|?] & ?); (split_and!; [lia| |done|done]); eauto.
Qed.

Lemma closing_effect rec_limit f f' : flow_step rec_limit f Closing f' -> f' = set_closing f.
Proof. inversion 1 as [| | | |f0 f1 b Hc]; subst. unfold begin_closing, ebind, emodify, eget, eret in Hc. by injection Hc as <- _. Qed.

(** *** Correlation *)
Record trace_ok (tr : list label) (f : flow) : Prop := TraceOk {
  tr_sorted : StronglySorted Z.lt (forwarded tr);
  tr_last : Forall (fun id => (id <= last_id f)%Z) (forwarded tr);
  tr_stored : forall id m, requests f !! id = Some m -> id ∈ forwarded tr;
  tr_done : forall id, id ∈ answered tr -> requests f !! id = None /\ (id <= last_id f)%Z }.

Lemma StronglySorted_snoc_lt l x : StronglySorted Z.lt l -> Forall (fun y => (y < x)%Z) l -> StronglySorted Z.lt (l ++ [x]).
Proof.
  induction l as [|y l IH]; simpl; intros Hs Hf; [by repeat constructor|].
  inversion Hs as [|? ? Hs' Hy]; subst. inversion Hf as [|? ? Hx Hf']; subst.
  constructor; [by apply IH|]. apply Forall_app. split; [exact Hy|]. by constructor.
Qed.

Lemma forwarded_snoc tr l : forwarded (tr ++ [l]) = forwarded tr ++ match l with Forwarded id _ => [id] | _ => [] end.
Proof. unfold forwarded. rewrite omap_app. by destruct l. Qed.
Lemma answered_snoc tr l : answered (tr ++ [l]) = answered tr ++ match l with Answered id _ => [id] | _ => [] end.
Proof. unfold answered. rewrite omap_app. by destruct l. Qed.

Lemma run_trace rec_limit tr f : run rec_limit tr f -> trace_ok tr f.
Proof.
  induction 1 as [|tr f l f' Hrun IH Hs].
  { split; simpl; [constructor|constructor|intros id m; by rewrite lookup_empty|by intros id ?%elem_of_nil]. }
  pose proof (run_ok _ _ _ Hrun) as Hf. destruct IH as [H1 H2 H3 H4].
  destruct l as [id r|id r| |].
  - apply forward_effect in Hs as (Hid & Hl & (d & _ & Hr) & _).
    assert (Forall (fun y => (y < id)%Z) (forwarded tr)) as Hlt.
    { eapply Forall_impl; [|exact H2]. simpl. intros. lia. }
    split.
    + rewrite forwarded_snoc. by apply StronglySorted_snoc_lt.
    + rewrite forwarded_snoc, Hl. apply Forall_app. split; [|by repeat constructor].
      eapply Forall_impl; [|exact Hlt]. simpl. intros. lia.
    + intros i m. rewrite Hr, lookup_insert_Some, forwarded_snoc, elem_of_app. intros [[<- _]|[_ Hm]]; [right; by left|left; eauto].
    + intros i. rewrite answered_snoc, app_nil_r. intros Hi. destruct (H4 i Hi). rewrite Hr, lookup_insert_ne by lia.
      split; [done|lia].
  - apply answer_effect in Hs as ((m & Hm) & Hr & Hl & _); [|by eauto using run_ok]. split.
    + by rewrite forwarded_snoc, app_nil_r.
    + by rewrite forwarded_snoc, app_nil_r, Hl.
    + intros i m'. rewrite Hr, lookup_delete_Some, forwarded_snoc, app_nil_r. intros [_ ?]. eauto.
    + intros i. rewrite answered_snoc, elem_of_app, list_elem_of_singleton, Hr, Hl, lookup_delete_None.
      intros [Hi| ->]; [destruct (H4 i Hi); auto|]. split; [by left|]. by apply (ok_stored f Hf id m).
  - apply refused_effect in Hs as (Hl & Hr & _); [|done]. split.
    + by rewrite forwarded_snoc, app_nil_r.
    + rewrite forwarded_snoc, app_nil_r. eapply Forall_impl; [|exact H2]. simpl. intros. lia.
    + intros i m'. rewrite forwarded_snoc, app_nil_r. destruct Hr as [->|(id & ->)]; [eauto|].
      rewrite lookup_delete_Some. intros [_ ?]. eauto.
    + intros i. rewrite answered_snoc, app_nil_r. intros Hi. destruct (H4 i Hi). split; [|lia].
      destruct Hr as [->|(id & ->)]; [done|]. rewrite lookup_delete_None. auto.
  - apply closing_effect in Hs as ->. split; rewrite ?forwarded_snoc, ?answered_snoc, ?app_nil_r; done.
Qed.

Lemma run_prefix rec_limit t1 t2 f : run rec_limit (t1 ++ t2) f -> exists f1, run rec_limit t1 f1.
Proof.
  revert f. induction t2 as [|l t2 IH] using rev_ind; intros f; [rewrite app_nil_r; eauto|].
  rewrite app_assoc. inversion 1 as [Hnil|tr f0 l0 f' Hr Hs E]; [by destruct (app_cons_not_nil _ _ _ Hnil)|].
  apply app_inj_tail in E as [-> _]. eauto.
Qed.

Lemma run_step_at rec_limit t1 l t2 f :
  run rec_limit (t1 ++ [l] ++ t2) f -> exists f1 f2, run rec_limit t1 f1 /\ flow_step rec_limit f1 l f2.
Proof.
  rewrite app_assoc. intros [f2 Hr]%run_prefix.
  inversion Hr as [Hnil|tr f0 l0 f' Hr' Hs E]; [by destruct (app_cons_not_nil _ _ _ Hnil)|].
  apply app_inj_tail in E as [-> ->]. eauto.
Qed.

(** At every moment of a run, the requests on record are exactly the one
    pending ordinary request and the one pending cancellation, if any, and
    none of them has an identifier above the last one seen. *)
Theorem flow_records_pending (rec_limit : nat) (tr : list label) (f : flow) (id : Z) :
  run rec_limit tr f ->
  ((exists m, requests f !! id = Some m) <-> ordinary_pending f = Some id \/ cancel_pending f = Some id) /\
  (forall m, requests f !! id = Some m -> (id <= last_id f)%Z).
Proof.
  intros Hf%run_ok. split.
  - split.
    + intros [m Hm]. destruct (ok_stored f Hf id m Hm) as [_ (d & r & _ & _ & Hp)].
      unfold pending_as in Hp. destruct (is_cancel r); auto.
    + intros [H|H]; [destruct (ok_ordinary f Hf id H) as (d & r & ? & _)|destruct (ok_cancel f Hf id H) as [_ (d & r & ? & _)]]; eauto.
  - intros m Hm. by apply (ok_stored f Hf id m).
Qed.

Lemma client_frame_label rec_limit frame f f' :
  client_frame rec_limit frame f = (f', Ok tt) -> exists id r, flow_step rec_limit f (Forwarded id r) f'.
Proof.
  intros H. destruct (client_frame_cases rec_limit frame f) as [[e E]|(d & id & r & Hp & Hb & Hd & _)]; [congruence|].
  exists id, r. by eapply step_forward.
Qed.
Lemma worker_frame_label rec_limit frame f f' :
  flow_ok f -> worker_frame rec_limit frame f = (f', Ok tt) -> exists id r, flow_step rec_limit f (Answered id r) f'.
Proof.
  intros Hf H. destruct (worker_frame_cases rec_limit frame f Hf) as [[e E]|(d & id & a & q & r & Hp & Hb & Hd & Hq & Hr & _)]; [congruence|].
  exists id, r. eapply step_answer; [done..| |done]. intros q' Hq'. rewrite Hq in Hq'. by injection Hq' as <-.
Qed.

(** C19: the relay correlates.  Forwarded request identifiers strictly increase
    over a run, and every response let through carries the identifier of a request
    forwarded earlier that has not been answered before; a response under any other
    identifier is refused.  Every frame of either side that is let through is such
    a step of a run. *)
Theorem flow_correlation (rec_limit : nat) (tr : list label) (f : flow) :
  run rec_limit tr f ->
  StronglySorted Z.lt (forwarded tr) /\
  (forall t1 id r t2, tr = t1 ++ [Answered id r] ++ t2 -> id ∈ forwarded t1 /\ id ∉ answered t1) /\
  (forall frame f', client_frame rec_limit frame f = (f', Ok tt) -> exists id r, run rec_limit (tr ++ [Forwarded id r]) f') /\
  (forall frame f', worker_frame rec_limit frame f = (f', Ok tt) -> exists id r, run rec_limit (tr ++ [Answered id r]) f').
Proof.
  intros Hr. pose proof (run_ok _ _ _ Hr) as Hok. split_and!.
  - by apply (run_trace _ _ _ Hr).
  - intros t1 id r t2 ->. apply run_step_at in Hr as (f1 & f2 & Hr & Hs). pose proof (run_ok _ _ _ Hr) as Hf1. apply run_trace in Hr as [_ _ H3 H4].
    apply answer_effect in Hs as ((m & Hm) & _); [|done]. split; [by eapply H3|]. intros [Hn _]%H4. congruence.
  - intros frame f' (id & r & H)%client_frame_label. exists id, r. by eapply run_snoc.
  - intros frame f' (id & r & H)%worker_frame_label; [|done]. exists id, r. by eapply run_snoc.
Qed.

(** *** Disposal and closing *)
Definition is_disposal (l : label) : bool := match l with Forwarded _ Dispose => true | _ => false end.
Definition disposals (tr : list label) : list label := filter (fun l => is_disposal l = true) tr.

Lemma disposals_run rec_limit tr f :
  run rec_limit tr f -> length (disposals tr) = if dispose_sent f then 1%nat else 0%nat.
Proof.
  induction 1 as [|tr f l f' Hrun IH Hs]; [done|]. pose proof (run_ok _ _ _ Hrun) as Hf.
  unfold disposals in *. rewrite list.filter_app, length_app, IH. destruct l as [id r|id r| |].
  - apply forward_effect in Hs as (_ & _ & _ & _ & _ & _ & _ & Hd & Hn & _). rewrite Hd.
    destruct r; simpl in *; rewrite ?orb_false_r, ?Nat.add_0_r; try done. by rewrite Hn.
  - apply answer_effect in Hs as (_ & _ & _ & (_ & _ & ->) & _); [|by eauto using run_ok]. by rewrite Nat.add_0_r.
  - apply refused_effect in Hs as (_ & _ & (_ & _ & ->) & _); [|done]. by rewrite Nat.add_0_r.
  - apply closing_effect in Hs as ->. by rewrite Nat.add_0_r.
Qed.

(** A worker is asked to dispose at most once, whatever the interleaving of
    client frames, worker frames, failures and closing. *)
Theorem dispose_at_most_once (rec_limit : nat) (tr : list label) (f : flow) :
  run rec_limit tr f -> (length (disposals tr) <= 1)%nat.
Proof. intros ->%disposals_run. destruct (dispose_sent f); lia. Qed.

Lemma closing_run rec_limit tr f : run rec_limit tr f -> Closing ∈ tr -> closing f = true.
Proof.
  induction 1 as [|tr f l f' Hrun IH Hs]; [by intros ?%elem_of_nil|]. pose proof (run_ok _ _ _ Hrun) as Hf.
  rewrite elem_of_app, list_elem_of_singleton. destruct l as [id r|id r| |].
  - apply forward_effect in Hs as (_ & _ & _ & _ & -> & _). intros [?|?]; [auto|done].
  - apply answer_effect in Hs as (_ & _ & _ & (-> & _) & _); [|by eauto using run_ok]. intros [?|?]; [auto|done].
  - apply refused_effect in Hs as (_ & _ & (-> & _) & _); [|done]. intros [?|?]; [auto|done].
  - by apply closing_effect in Hs as ->.
Qed.

(** Once closing has begun, the only requests that reach the worker are a
    cancellation and a cooperative disposal; the disposal is let through only
    when nothing is pending, nothing was ever cancelled and the worker was
    created. *)
Theorem closing_blocks_requests (rec_limit : nat) (t1 t2 : list label) (id : Z) (r : request) (f : flow) :
  run rec_limit (t1 ++ [Forwarded id r] ++ t2) f -> Closing ∈ t1 ->
  (exists t, r = Cancel t) \/
  (r = Dispose /\ exists f1, run rec_limit t1 f1 /\ requests f1 = ∅ /\ cancelled_ever f1 = false /\
     lifecycle f1 ∈ [created; ready]).
Proof.
  intros (f1 & f2 & Hr & Hs)%run_step_at Hc. pose proof (closing_run _ _ _ Hr Hc) as Hcl.
  apply forward_effect in Hs as (_ & _ & _ & Hs & _). destruct (Hs Hcl) as [?|[-> Hm]]; [by left|]. right.
  split; [done|]. exists f1. unfold cleanup_mode in Hm. bool_hyps. split_and!; try done.
  apply map_empty. intros i. destruct (requests f1 !! i) as [m|] eqn:E; [|done].
  destruct (ok_stored f1 (run_ok _ _ _ Hr) i m E) as [_ (d & r & _ & _ & Hp)].
  unfold pending_as in Hp. destruct (is_cancel r); congruence.
Qed.

(** *** Lifecycle *)
Definition is_hello (r : request) : bool := match r with Hello _ _ => true | _ => false end.
Definition is_create (r : request) : bool := match r with Create => true | _ => false end.

(** A request of that kind has been answered. *)
Definition answered_kind (kind : request -> bool) (tr : list label) : Prop := exists id r, Answered id r ∈ tr /\ kind r = true.

(** What must have been answered before a request of this kind. *)
Definition needs (r : request) (tr : list label) : Prop :=
  match r with
  | Hello _ _ => True
  | Create => answered_kind is_hello tr
  | _ => answered_kind is_create tr
  end.

Lemma answered_kind_snoc kind tr l : answered_kind kind tr -> answered_kind kind (tr ++ [l]).
Proof. intros (id & r & Hin & Hk). exists id, r. split; [|done]. apply elem_of_app. by left. Qed.

Lemma needs_snoc r tr l : needs r tr -> needs r (tr ++ [l]).
Proof. destruct r; simpl; auto using answered_kind_snoc. Qed.

Definition life_needs (l : life) (tr : list label) : Prop :=
  match l with
  | awaitHello => True
  | awaitCreate => answered_kind is_hello tr
  | _ => answered_kind is_create tr
  end.

Lemma allowed_needs r l tr : is_cancel r = false -> life_allows r l = true -> life_needs l tr -> needs r tr.
Proof.
  destruct r; simpl; try done; intros _ H; apply bool_decide_eq_true in H; try (by subst);
    rewrite elem_of_cons, list_elem_of_singleton in H; by destruct H as [->| ->].
Qed.

Lemma needs_answered r l tr id : needs r tr -> is_cancel r = false -> l ∈ life_after r -> life_needs l (tr ++ [Answered id r]).
Proof.
  intros Hn Hc Hl. assert (Answered id r ∈ tr ++ [Answered id r]) as Hin by (apply elem_of_app; right; by left).
  destruct r; simpl in Hl, Hc; try done; rewrite ?elem_of_cons, ?elem_of_nil in Hl; destruct_or! Hl; subst; simpl in *;
    try (by eexists _, _); by apply answered_kind_snoc.
Qed.

(** Without cancellations, lifecycle and queue tell what has been answered. *)
Lemma lifecycle_run rec_limit tr f :
  run rec_limit tr f -> cancelled_ever f = false ->
  life_needs (lifecycle f) tr /\
  forall id d r, requests f !! id = Some (JObj d) -> denotes_request d id r -> needs r tr.
Proof.
  induction 1 as [|tr f l f' Hrun IH Hs]; intros Hn.
  { split; [done|]. intros id d r. simpl. by rewrite lookup_empty. }
  pose proof (run_ok _ _ _ Hrun) as Hf.
  assert (forall g, life_needs g tr -> life_needs g (tr ++ [l])) as Hmono by (intros []; simpl; auto using answered_kind_snoc).
  destruct l as [id r|id r| |].
  - apply forward_effect in Hs as (_ & _ & (d & Hd & Hr) & _ & _ & Hl & Hc & _ & _ & Ha). rewrite Hc in Hn.
    apply orb_false_iff in Hn as [Hn Hcr]. destruct (IH Hn) as [H1 H2]. rewrite Hl. split; [auto|].
    intros i di ri. rewrite Hr, lookup_insert_Some. intros [[<- [= <-]]|[_ Hm]] Hdi; [|eauto using needs_snoc].
    apply needs_snoc. assert (is_cancel ri = false) as Hci by (rewrite <- Hcr; by eapply denotes_fun).
    eapply allowed_needs; [done| |exact H1]. rewrite <- (Ha Hcr).
    destruct Hd as (_ & _ & _ & _ & Ho1 & _), Hdi as (_ & _ & _ & _ & Ho2 & _). rewrite Ho1 in Ho2. injection Ho2 as Ho2.
    destruct r, ri; simpl in *; try done.
  - apply answer_effect in Hs as (_ & Hr & _ & (_ & Hc & _) & Hl & (d & Hq & Hd)); [|by eauto using run_ok]. rewrite Hc in Hn.
    destruct (IH Hn) as [H1 H2]. split.
    + eapply needs_answered; [by eapply H2| |done]. destruct (is_cancel r) eqn:Hcr; [|done].
      destruct (ok_stored f Hf id _ Hq) as [_ (d' & r' & [= <-] & Hd' & Hp)].
      rewrite (denotes_fun _ _ _ _ _ Hd Hd') in Hcr. unfold pending_as in Hp. rewrite Hcr in Hp.
      destruct (ok_cancel f Hf id Hp). congruence.
    + intros i di ri. rewrite Hr, lookup_delete_Some. intros [_ Hm] Hdi. eauto using needs_snoc.
  - apply refused_effect in Hs as (_ & Hr & (_ & Hc & _) & Hl); [|done]. rewrite Hc in Hn. destruct (IH Hn) as [H1 H2].
    rewrite Hl. split; [auto|]. intros i di ri Hm Hdi. apply needs_snoc. eapply H2; [|done].
    destruct Hr as [Hr|(j & Hr)]; rewrite Hr in Hm; [done|]. by apply lookup_delete_Some in Hm as [_ ?].
  - apply closing_effect in Hs as ->. destruct (IH Hn) as [H1 H2]. split; [auto|]. eauto using needs_snoc.
Qed.

Lemma cancelled_run rec_limit tr f :
  run rec_limit tr f -> cancelled_ever f = true -> exists id t, Forwarded id (Cancel t) ∈ tr.
Proof.
  induction 1 as [|tr f l f' Hrun IH Hs]; [done|]. pose proof (run_ok _ _ _ Hrun) as Hf. setoid_rewrite elem_of_app.
  destruct l as [id r|id r| |].
  - apply forward_effect in Hs as (_ & _ & _ & _ & _ & _ & -> & _). intros [H|H]%orb_true_iff.
    + destruct (IH H) as (i & t & ?). eauto.
    + destruct r as [| | | | |t]; try done. exists id, t. right. by left.
  - apply answer_effect in Hs as (_ & _ & _ & (_ & -> & _) & _); [|by eauto using run_ok]. intros (i & t & ?)%IH. eauto.
  - apply refused_effect in Hs as (_ & _ & (_ & -> & _) & _); [|done]. intros (i & t & ?)%IH. eauto.
  - apply closing_effect in Hs as ->. intros (i & t & ?)%IH. eauto.
Qed.

(** As long as nothing has been cancelled, the worker is driven in order:
    create is forwarded only after hello has been answered, and invoke,
    observe and dispose only after create has been answered. *)
Theorem lifecycle_in_order (rec_limit : nat) (t1 t2 : list label) (id : Z) (r : request) (f : flow) :
  run rec_limit (t1 ++ [Forwarded id r] ++ t2) f -> (forall i t, Forwarded i (Cancel t) ∉ t1) ->
  is_cancel r = false -> needs r t1.
Proof.
  intros (f1 & f2 & Hr & Hs)%run_step_at Hn Hc.
  assert (cancelled_ever f1 = false) as Hn1.
  { destruct (cancelled_ever f1) eqn:E; [|done]. destruct (cancelled_run _ _ _ Hr E) as (i & t & Hin). by destruct (Hn i t). }
  destruct (lifecycle_run _ _ _ Hr Hn1) as [Hl _].
  apply forward_effect in Hs as (_ & _ & _ & _ & _ & _ & _ & _ & _ & Ha). eapply allowed_needs; eauto.
Qed.

(** ** Splitting the stream *)

Lemma split_line_Some b frame rest :
  split_line b = Some (frame, rest) ->
  b = frame ++ rest /\ exists l, frame = l ++ [10]%N /\ 10%N ∉ l.
Proof.
  revert frame rest. induction b as [|c b IH]; intros frame rest; simpl; [done|].
  destruct (N.eqb_spec c 10) as [->|Hc].
  - intros [= <- <-]. split; [done|]. exists []. split; [done|apply not_elem_of_nil].
  - destruct (split_line b) as [[l r]|] eqn:E; [|done]. intros [= <- <-].
    destruct (IH l r eq_refl) as [-> (l' & -> & Hn)]. split; [done|]. exists (c :: l'). split; [done|].
    apply not_elem_of_cons. split; [congruence|done].
Qed.

Lemma split_line_None b : split_line b = None <-> 10%N ∉ b.
Proof.
  induction b as [|c b IH]; simpl; [split; [intros; apply not_elem_of_nil|done]|].
  rewrite not_elem_of_cons. destruct (N.eqb_spec c 10) as [->|Hc]; [naive_solver|].
  destruct (split_line b) as [[? ?]|]; naive_solver.
Qed.

(** A complete frame: one newline, at its end, and within the limit. *)
Definition is_frame (frame : bytes) : Prop :=
  (exists l, frame = l ++ [10]%N /\ 10%N ∉ l) /\ (zlen frame <= MAX_FRAME_BYTES + 1)%Z.

Lemma take_frames_spec fuel b :
  (length b <= fuel)%nat ->
  let '(rest, x) := take_frames fuel b in
  match x with
  | Ok frames => b = concat frames ++ rest /\ Forall is_frame frames /\ 10%N ∉ rest
  | Err e => e = ProtocolError "LIMIT"
  end.
Proof.
  revert b. induction fuel as [|fuel IH]; intros b Hl.
  { destruct b; [|simpl in Hl; lia]. simpl. split_and!; [done|constructor|apply not_elem_of_nil]. }
  cbn [take_frames]. destruct (split_line b) as [[frame rest]|] eqn:E.
  2:{ apply split_line_None in E. split_and!; [done|constructor|done]. }
  apply split_line_Some in E as [-> (l & -> & Hn)]. destruct (Z.ltb_spec (MAX_FRAME_BYTES + 1) (zlen (l ++ [10%N]))); [done|].
  assert (length rest <= fuel)%nat as Hr by (rewrite !length_app in Hl; simpl in Hl; lia).
  specialize (IH rest Hr). destruct (take_frames fuel rest) as [b' [frames|e]]; [|done].
  destruct IH as (-> & Hf & Hb). split_and!; [by cbn [concat]; rewrite <- !app_assoc|constructor; [|done]|done].
  split; [by exists l|lia].
Qed.

(** The splitter loses and invents nothing.  The frames it returns and the
    bytes it keeps are, in order, the buffered bytes and the new chunk; every
    frame ends with its only newline and respects the frame limit, no complete
    frame stays behind, and the only failure is the frame limit. *)
Theorem frames_partition (buffer chunk : bytes) :
  let '(rest, x) := _frames buffer chunk in
  match x with
  | Ok frames => buffer ++ chunk = concat frames ++ rest /\ Forall is_frame frames /\ 10%N ∉ rest
  | Err e => e = ProtocolError "LIMIT"
  end.
Proof. unfold _frames. destruct (_ && _); [done|]. by apply take_frames_spec. Qed.

(** ** Attachment *)

(** The fields of a closed attachment record are there to be read. *)
Ltac attach_field d Hc k :=
  let x := fresh "x" in let Hx := fresh "Hx" in
  destruct (closed_dget d _ k Hc) as [x Hx]; [by_decision|]; rewrite (getitem_dget _ _ _ Hx) in *; cbn [rbind] in *.

Ltac attach_fields d Hc :=
  attach_field d Hc (str "v"); attach_field d Hc (str "kind"); attach_field d Hc (str "sessionId");
  attach_field d Hc (str "workerId"); attach_field d Hc (str "attachmentToken").

(** An attachment record that is accepted names one session, one worker and
    one token, each in its exact lowercase hexadecimal form, in a closed
    record; a refused one raises the broker's own error, except that the
    interpreter's scanner may run out of nesting or digits. *)
Theorem strict_attach_spec (rec_limit : nat) (frame : bytes) :
  match _strict_attach rec_limit frame with
  | Ok v => exists d s w t, v = JObj d /\ closed d (strs ["v"; "kind"; "sessionId"; "workerId"; "attachmentToken"]) /\
      dget "v" d = Some (JInt 1) /\ dget "kind" d = Some (JStr "attach") /\
      dget "sessionId" d = Some (JStr s) /\ match_hex 32 s = true /\
      dget "workerId" d = Some (JStr w) /\ match_hex 32 w = true /\
      dget "attachmentToken" d = Some (JStr t) /\ match_hex 64 t = true
  | Err e => e = attach_error \/ e = RecursionError \/ e = ValueError
  end.
Proof.
  destruct (_strict_attach rec_limit frame) as [v|e] eqn:H; unfold _strict_attach in H.
  - inv_res. match goal with H : match ?v with _ => _ end = Ok _ |- _ => destruct v as [| | | | | |d]; try discriminate H; inv_res end.
    repeat match goal with H : getitem (JObj _) _ = Ok _ |- _ => apply getitem_Ok in H as (? & [= <-] & ?) end. bool_hyps.
    repeat match goal with H : is_str ?x = true |- _ => destruct x; try discriminate H; clear H end.
    match goal with H : str_is _ _ = true |- _ => apply str_is_true in H; subst end.
    match goal with H : match ?v with JInt _ => _ | _ => _ end = true |- _ => destruct v; try discriminate H; apply Z.eqb_eq in H; subst end.
    eexists _, _, _, _. split_and!; try done. intros k. by apply set_eq_spec.
  - apply bind_Err in H as [H|(_ & _ & H)]; [inv_res; by left|].
    apply bind_Err in H as [H|(v & _ & H)].
    + unfold try_except in H. destruct (rbind _ _) as [|e'] eqn:Hl; [done|].
      destruct (attach_decode_failure e') eqn:Hd; inv_res; [by left|].
      apply bind_Err in Hl as [Hl|(s & _ & Hl)]; [destruct (utf8_decode _); simpl in Hl; inv_res; done|].
      apply loads_Err in Hl. unfold scan_error, attach_hooks in Hl. simpl in Hl.
      destruct Hl as [->|[->|[(d & Hl)|[(x & Hl)|[(x & Hl)|(x & Hl)]]]]]; try done; auto.
      * apply unique_pairs_Err in Hl. auto.
      * unfold int_token in Hl. destruct (match x with [] => (false, []) | _ => _ end) as [neg ds].
        apply bind_Err in Hl as [Hl|(? & _ & ?)]; [inv_res; auto|done].
      * inv_res. auto.
      * inv_res. auto.
    + apply bind_Err in H as [H|(d & Hd & H)]; [destruct v; inv_res; by left|].
      destruct v as [| | | | | |d']; try discriminate Hd. inv_res.
      apply bind_Err in H as [H|(u & Hk & H)]; [inv_res; by left|]. inv_res. apply negb_false_iff in Hk.
      assert (closed d (strs ["v"; "kind"; "sessionId"; "workerId"; "attachmentToken"])) as Hc by (intros k; by apply set_eq_spec).
      left. attach_fields d Hc. repeat (apply bind_Err in H as [H|(_ & _ & H)]; [by inv_res|]). discriminate H.
Qed.

(** ** A whole session, and two corner cases *)

Definition frame_of (m : json) : bytes := match encode_frame m with Ok b => b | Err _ => [] end.

Definition zeros (n : nat) : pystr := replicate n 48%N.

Definition request_dict (id : Z) (op : string) (rest : pydict) : pydict :=
  [(str "v", JInt 1); (str "id", JInt id); (str "op", JStr (str op))] ++ rest.
Definition answer_dict (id : Z) (result : json) : pydict :=
  [(str "v", JInt 1); (str "id", JInt id); (str "ok", JBool true); (str "result", result)].

Definition identity_dict : pydict := [(str "interfaceDigest", JStr (zeros 64)); (str "runtime", JStr (str "python"))].
Definition hello_dict : pydict := request_dict 1 "hello" identity_dict.

Definition after (f : flow) (x : flow * res unit) : flow := match x with (g, Ok _) => g | (_, Err _) => f end.
Definition sent (d : pydict) (f : flow) : flow := after f (client_frame 1000 (frame_of (JObj d)) f).
Definition replied (d : pydict) (f : flow) : flow := after f (worker_frame 1000 (frame_of (JObj d)) f).

(** Hello, create, then a cooperative close. *)
Definition hello_request : request := Hello (zeros 64) (str "python").
Definition flow1 : flow := sent hello_dict init.
Definition flow2 : flow := replied (answer_dict 1 (JObj identity_dict)) flow1.
Definition flow3 : flow := sent (request_dict 2 "create" []) flow2.
Definition flow4 : flow := replied (answer_dict 2 JNull) flow3.
Definition flow5 : flow := set_closing flow4.
Definition flow6 : flow := sent (request_dict 3 "dispose" []) flow5.
Definition flow7 : flow := replied (answer_dict 3 JNull) flow6.

Lemma stored_is (o : option json) (P : pydict -> Prop) q : o = Some (JObj q) -> P q -> forall q', o = Some (JObj q') -> P q'.
Proof. intros -> H q' E. by injection E as <-. Qed.

Ltac concrete := first [ done | by_decision | (vm_compute; reflexivity) | (vm_compute; split; discriminate) ].
Ltac forward_witness d r :=
  apply (step_forward _ _ _ (frame_of (JObj d)) d _ r);
  [vm_compute; reflexivity|apply json_bounds_bounded; vm_compute; reflexivity
  |split_and!; [intros k; apply set_eq_spec; vm_compute; reflexivity|concrete..]
  |vm_compute; reflexivity].
Ltac answer_witness d a q r :=
  apply (step_answer _ _ _ (frame_of (JObj d)) d _ a r);
  [vm_compute; reflexivity|apply json_bounds_bounded; vm_compute; reflexivity
  |split_and!; first [concrete|intros k; apply set_eq_spec; vm_compute; reflexivity]
  |apply (stored_is _ _ q); [vm_compute; reflexivity|split_and!; [intros k; apply set_eq_spec; vm_compute; reflexivity|concrete..]]
  |vm_compute; reflexivity].

Lemma session_step1 : flow_step 1000 init (Forwarded 1 hello_request) flow1.
Proof. forward_witness hello_dict hello_request. Qed.
Lemma session_step2 : flow_step 1000 flow1 (Answered 1 hello_request) flow2.
Proof. answer_witness (answer_dict 1 (JObj identity_dict)) (Success (JObj identity_dict)) hello_dict hello_request. Qed.
Lemma session_step3 : flow_step 1000 flow2 (Forwarded 2 Create) flow3.
Proof. forward_witness (request_dict 2 "create" []) Create. Qed.
Lemma session_step4 : flow_step 1000 flow3 (Answered 2 Create) flow4.
Proof. answer_witness (answer_dict 2 JNull) (Success JNull) (request_dict 2 "create" []) Create. Qed.
Lemma session_step6 : flow_step 1000 flow5 (Forwarded 3 Dispose) flow6.
Proof. forward_witness (request_dict 3 "dispose" []) Dispose. Qed.
Lemma session_step7 : flow_step 1000 flow6 (Answered 3 Dispose) flow7.
Proof. answer_witness (answer_dict 3 JNull) (Success JNull) (request_dict 3 "dispose" []) Dispose. Qed.

Definition opened : list label :=
  [Forwarded 1 hello_request; Answered 1 hello_request; Forwarded 2 Create; Answered 2 Create].
Definition session : list label := (opened ++ [Closing]) ++ [Forwarded 3 Dispose] ++ [Answered 3 Dispose].

Lemma session_opened : run 1000 opened flow4.
Proof.
  apply (run_snoc _ [_; _; _] flow3); [|exact session_step4]. apply (run_snoc _ [_; _] flow2); [|exact session_step3].
  apply (run_snoc _ [_] flow1); [|exact session_step2]. apply (run_snoc _ [] init); [constructor|exact session_step1].
Qed.

Lemma session_run : run 1000 session flow7.
Proof.
  unfold session. rewrite app_assoc. apply (run_snoc _ _ flow6); [|exact session_step7].
  apply (run_snoc _ _ flow5); [|exact session_step6]. apply (run_snoc _ _ flow4); [exact session_opened|].
  by apply (step_closing _ _ _ true).
Qed.

Lemma flow_records_pending_witness : (exists m : json, requests flow6 !! 3%Z = Some m) /\
  ((exists m, requests flow4 !! 3%Z = Some m) <-> ordinary_pending flow4 = Some 3%Z \/ cancel_pending flow4 = Some 3%Z).
Proof. split; [eexists; vm_compute; reflexivity|]. apply (flow_records_pending 1000 opened). apply session_opened. Defined.

Lemma flow_correlation_witness : StronglySorted Z.lt (forwarded session) /\ 3%Z ∈ forwarded ((opened ++ [Closing]) ++ [Forwarded 3 Dispose]).
Proof.
  destruct (flow_correlation 1000 session flow7 session_run) as (H1 & H2 & _). split; [exact H1|].
  refine (proj1 (H2 ((opened ++ [Closing]) ++ [Forwarded 3 Dispose]) 3%Z Dispose [] _)). reflexivity.
Defined.

Lemma dispose_at_most_once_witness : length (disposals session) = 1%nat /\ (length (disposals session) <= 1)%nat.
Proof. split; [reflexivity|]. apply (dispose_at_most_once 1000 session flow7). apply session_run. Defined.

Lemma closing_blocks_requests_witness : (exists t, Dispose = Cancel t) \/
  (Dispose = Dispose /\ exists f1, run 1000 (opened ++ [Closing]) f1 /\ requests f1 = ∅ /\ cancelled_ever f1 = false /\
     lifecycle f1 ∈ [created; ready]).
Proof.
  apply (closing_blocks_requests 1000 (opened ++ [Closing]) [Answered 3 Dispose] 3 Dispose flow7); [apply session_run|].
  rewrite elem_of_app, list_elem_of_singleton. by right.
Defined.

Lemma lifecycle_in_order_witness : needs Dispose (opened ++ [Closing]).
Proof.
  apply (lifecycle_in_order 1000 (opened ++ [Closing]) [Answered 3 Dispose] 3 Dispose flow7); [apply session_run| |done].
  intros i t H. cbn [opened app] in H. repeat (apply elem_of_cons in H as [H|H]; [discriminate H|]).
  by apply elem_of_nil in H.
Defined.

(** A hello that is cancelled and answered leaves the flow ready: the answer to
    the cancellation declares the worker ready although no create was ever
    sent, and an invoke is forwarded next. *)
Definition cancelled_hello : flow :=
  replied (answer_dict 2 JNull) (replied (answer_dict 1 (JObj identity_dict))
    (sent (request_dict 2 "cancel" [(str "requestId", JInt 1)]) flow1)).

Definition early_invoke : pydict :=
  request_dict 3 "invoke" [(str "action", JStr (str "act")); (str "inputs", JObj [])].

(** Cancelling the handshake makes the worker count as ready.  After hello,
    its cancellation and the two answers the lifecycle is ready, no worker.ready
    event was emitted, and an invoke is forwarded to a worker nobody created. *)
Theorem ready_without_create :
  lifecycle cancelled_hello = ready /\ events cancelled_hello = [] /\
  (client_frame 1000 (frame_of (JObj early_invoke)) cancelled_hello).2 = Ok tt.
Proof. by_decision. Qed.

(** A small attachment frame that only opens brackets escapes the broker's
    own error: the interpreter's recursion limit is hit inside the JSON
    scanner, and that exception is not among those the decoder translates. *)
Theorem attach_recursion_escapes :
  let frame := replicate 3000 91%N ++ [10%N] in
  (zlen frame <= ATTACH_MAX_BYTES + 1)%Z /\ _strict_attach 1000 frame = Err RecursionError.
Proof. split; [vm_compute; discriminate|vm_compute; reflexivity]. Qed.
End broker.
