(* ===== verification/Reservation.v ===== *)
(** * The reservation of a worker ([supervisor/mirrorgate/worker_broker.py], [WorkerReservation])

    One endpoint of one session: the thread that accepts the attachment and
    launches the worker, the relays in both directions, failures, and closing.  A
    thread goes from one locked section or call to the next; a schedule picks the
    threads and answers the calls.  What happened is kept in a log. *)

From Stdlib Require Import ZArith Lia Sorted.
From stdpp Require Import base list gmap strings numbers.
From S2P Require Import Prelude PyJson JsonText Protocol Effects WorkerBroker.
#[local] Open Scope res_scope.

Module reservation.
Import broker.

Section Reservation.
(** [text] is [str(exc)\[:1024\]]. *)
Context (rec_limit : nat) (text : exn -> pystr) (principal_uid getuid : Z) (session_id worker_id attachment_token : pystr).

Inductive note : Type :=
  | Attached (frame : bytes) | Guarded | Launched | Acknowledged
  | FromClient (chunk : bytes) | ToWorker (frame : bytes) | FromWorker (chunk : bytes) | ToClient (frame : bytes)
  | Event (name : string) (reason : option pystr) (returncode : option Z)
  | Terminated | Cancelled | GateClosed | ConnectionClosed | EndpointRemoved.

(** [_process] is [Some returncode] once the worker is stored; [_gate] and
    [_connection] are stored with it. *)
Record reservation : Type := Reservation {
  _closing : bool; _cleanup_mode : option bool; _closing_reason : option pystr; _failure : option pystr; _exit_event_sent : bool;
  _process : option (option Z); _flow : flow; teardown_held : bool; _close_result : option (bool * list pystr); log : list note }.

(** [WorkerReservation.__init__] *)
Definition init : reservation := Reservation false None None None false None broker.init false None [].

Definition set_closing r := Reservation true (_cleanup_mode r) (_closing_reason r) (_failure r) (_exit_event_sent r) (_process r) (_flow r) (teardown_held r) (_close_result r) (log r).
Definition set_armed reason mode r := Reservation true (Some mode) (Some reason) (_failure r) (_exit_event_sent r) (_process r) (_flow r) (teardown_held r) (_close_result r) (log r).
Definition set_failure m r := Reservation (_closing r) (_cleanup_mode r) (_closing_reason r) (Some m) (_exit_event_sent r) (_process r) (_flow r) (teardown_held r) (_close_result r) (log r).
Definition set_exit_sent r := Reservation (_closing r) (_cleanup_mode r) (_closing_reason r) (_failure r) true (_process r) (_flow r) (teardown_held r) (_close_result r) (log r).
Definition set_process p r := Reservation (_closing r) (_cleanup_mode r) (_closing_reason r) (_failure r) (_exit_event_sent r) p (_flow r) (teardown_held r) (_close_result r) (log r).
Definition set_flow f r := Reservation (_closing r) (_cleanup_mode r) (_closing_reason r) (_failure r) (_exit_event_sent r) (_process r) f (teardown_held r) (_close_result r) (log r).
Definition set_teardown b r := Reservation (_closing r) (_cleanup_mode r) (_closing_reason r) (_failure r) (_exit_event_sent r) (_process r) (_flow r) b (_close_result r) (log r).
Definition set_result x r := Reservation (_closing r) (_cleanup_mode r) (_closing_reason r) (_failure r) (_exit_event_sent r) (_process r) (_flow r) (teardown_held r) (Some x) (log r).
Definition say (n : note) r := Reservation (_closing r) (_cleanup_mode r) (_closing_reason r) (_failure r) (_exit_event_sent r) (_process r) (_flow r) (teardown_held r) (_close_result r) (log r ++ [n]).

(** The worker is stored and has not exited. *)
Definition running (r : reservation) : bool := match _process r with Some None => true | _ => false end.
Definition returncode (r : reservation) : option Z := match _process r with Some c => c | None => None end.

(** [cleanup_mode]; [true] is "dispose-then-terminate". *)
Definition cleanup_mode (r : reservation) : bool := match _process r with None => false | Some _ => broker.cleanup_mode (_flow r) end.

(** [arm_closing] *)
Definition arm_closing (reason : pystr) (r : reservation) : reservation * bool :=
  match _cleanup_mode r with
  | Some m => (r, m)
  | None =>
    let f := broker.set_closing (_flow r) in
    let mode := match _process r with Some _ => broker.cleanup_mode f | None => false end in
    let r := match _process r with Some _ => set_flow f r | None => r end in
    (say (Event "worker.closing" (Some reason) None) (set_armed reason mode r), mode)
  end.

(** ** The attachment *)

(** Each [recv] asks for at most 1024 bytes and never for more than one byte over
    the limit; [true] is a deadline that has passed.  When nothing more is
    answered, [recv] times out. *)
Fixpoint _receive_attach (data : bytes) (answers : list (bool * bytes)) : res bytes :=
  if bool_decide (10%N ∈ data) then
    raise_if (negb (match split_line data with Some (_, []) => true | _ => false end)) attach_error ;; Ok data
  else
    match answers with
    | [] => Err OSError
    | (expired, chunk) :: answers =>
      raise_if expired attach_error ;;
      let chunk := take (Z.to_nat (1024 `min` (ATTACH_MAX_BYTES + 1 - zlen data))) chunk in
      raise_if (bool_decide (chunk = [])) attach_error ;;
      let data := data ++ chunk in
      raise_if (ATTACH_MAX_BYTES <? zlen data)%Z attach_error ;;
      _receive_attach data answers
    end.

(** The body of the inner [try] of [_accept]: the frame of a candidate that is let
    in. *)
Definition authenticate (uid : Z) (answers : list (bool * bytes)) (late : bool) : res bytes :=
  raise_if (negb (uid =? principal_uid)%Z || negb (uid =? getuid)%Z) attach_error ;;
  frame ← _receive_attach [] answers;
  attach ← _strict_attach rec_limit frame;
  s ← getitem attach "sessionId"; w ← getitem attach "workerId"; t ← getitem attach "attachmentToken";
  raise_if (negb (str_is s session_id) || negb (str_is w worker_id) || negb (str_is t attachment_token)) attach_error ;;
  raise_if late attach_error ;;
  Ok frame.

(** ** Threads *)
Inductive thread : Type :=
  | AWait | AAccept | AGuard | ACheck | ALaunch | AStore | AStarted | AAck
  | CRelay (buffer : bytes) (frames : list bytes) | CWrite (frame buffer : bytes) (frames : list bytes)
  | WRelay (buffer : bytes) (frames : list bytes) | WSend (frame buffer : bytes) (frames : list bytes) | WEnd | WExit
  | Drain
  | Fail (m reason : pystr) | Failing (reason : pystr) (emit connected : bool)
  | Arm (reason : pystr)
  | KLock (reason : pystr) (mode : option bool) | KMode (reason : pystr) (mode : option bool) | KStop (mode : bool) | KGrace | KTerm | KTermWait | KKill
  | KConn (had_connection : bool) (failures : list pystr) | KJoin (failures : list pystr) | KGate (failures : list pystr) | KFlow (failures : list pystr)
  | KEndpoint (failures cooperative : list pystr) | KResult (failures cooperative : list pystr)
  | Closed (result : bool * list pystr)
  | Stop.

(** How a call ended. *)
Inductive answer : Type :=
  | Well | Raises (m : pystr) | TimedOut | Says (b : bool) | Candidate (uid : Z) (answers : list (bool * bytes)) (late : bool)
  | Chunk (c : bytes) | Eof | Exited (process_reason : pystr).

Definition broker_error (e : exn) : bool := match e with BrokerError _ => true | _ => false end.
Definition worker_failure : pystr := str "worker-failure".
Definition deadline_message : pystr := str "worker attachment deadline exceeded".

(** [_fail], under the lock. *)
Definition fail_section (m reason : pystr) (r : reservation) : reservation * thread :=
  let emit := negb (_exit_event_sent r) in
  let connected := match _process r with Some _ => true | None => false end in
  let r := match _failure r with None => set_failure (take 1024 m) r | Some _ => r end in
  (set_exit_sent (set_flow (broker.set_closing (_flow r)) (set_closing r)), Failing reason emit connected).

(** The rest of [_fail]. *)
Definition fail_rest (reason : pystr) (emit connected : bool) (r : reservation) : reservation :=
  let r := if connected then say ConnectionClosed r else r in
  let r := if running r then say Cancelled r else r in
  if emit then say (Event "worker.exited" (Some reason) (returncode r)) r else r.

(** The reason [_worker_to_client] gives when the worker ended by itself. *)
Definition exit_reason (r : reservation) (process_reason : pystr) : pystr :=
  match _closing_reason r with
  | Some reason => reason
  | None => if bool_decide (process_reason = str "exited") then str "normal"
            else if bool_decide (process_reason = str "wall_timeout") then str "deadline" else worker_failure
  end.

(** The events a step of the flow emitted. *)
Definition told (before after : flow) (r : reservation) : reservation :=
  foldl (fun r name => say (Event name None None) r) r (drop (length (events before)) (events after)).

(** One frame of a relay through the flow. *)
Definition client_section (frame : bytes) (r : reservation) : reservation * res unit :=
  let '(f, x) := client_frame rec_limit frame (_flow r) in (set_flow f r, x).
Definition worker_section (frame : bytes) (r : reservation) : reservation * res unit :=
  let '(f, x) := worker_frame rec_limit frame (_flow r) in (told (_flow r) f (set_flow f r), x).

Definition end_of_stream : pystr := str "unterminated worker stream".

(** A step ends where the thread waits, or takes or leaves the lock; its last
    component is the threads it starts.  [_accept]: an attachment, the guard, the
    launch, and the start of the relays. *)
Definition accept_step (a : answer) (t : thread) (r : reservation) : option (reservation * thread * list thread) :=
  let go r t := Some (r, t, []) in
  let fails r m := Some (r, Fail m worker_failure, []) in
  match t, a with
  | AWait, Well => go r (if _closing r then Stop else AAccept)
  | AAccept, TimedOut => fails r deadline_message
  | AAccept, Raises m => fails r m
  | AAccept, Candidate uid answers late =>
    match authenticate uid answers late with
    | Ok frame => go (say (Attached frame) r) AGuard
    | Err OSError => fails r deadline_message
    | Err e => if broker_error e then go r AWait else fails r (text e)
    end
  | AGuard, Says true => go (say Guarded r) ACheck
  | AGuard, Says false => fails r (str "worker launch is no longer authorized")
  | AGuard, Raises m => fails r m
  | ACheck, Well => go r (if _closing r then Stop else ALaunch)
  | ALaunch, Well => go (say Launched r) AStore
  | ALaunch, Raises m => fails r m
  | AStore, Well => if _closing r then go (say ConnectionClosed (say GateClosed (say Cancelled r))) Stop else go (set_process (Some None) r) AStarted
  | AStore, Raises m => if _closing r then fails (say Cancelled r) m else None
  | AStarted, Well => go (say (Event "worker.started" None None) r) AAck
  | AStarted, Raises m => fails r m
  | AAck, Well => Some (say Acknowledged r, Stop, [CRelay [] []; WRelay [] []; Drain])
  | AAck, TimedOut => fails r deadline_message
  | AAck, Raises m => fails r m
  | _, _ => None
  end.

(** [_client_to_worker]: one chunk is cut into frames, and each frame is let
    through the flow and then written. *)
Definition client_step (a : answer) (t : thread) (r : reservation) : option (reservation * thread * list thread) :=
  let go r t := Some (r, t, []) in
  let fails r m := Some (r, Fail m worker_failure, []) in
  match t, a with
  | CRelay buffer [], Chunk c =>
    if bool_decide (c = []) then None else
    match _frames buffer c with
    | (buffer, Ok frames) => go (say (FromClient c) r) (CRelay buffer frames)
    | (_, Err e) => fails (say (FromClient c) r) (text e)
    end
  | CRelay buffer [], Eof => if bool_decide (buffer = []) then Some (r, Fail (str "worker client disconnected") (str "client-failure"), []) else fails r end_of_stream
  | CRelay _ [], Raises m => fails r m
  | CRelay buffer (frame :: frames), Well =>
    match client_section frame r with (r, Ok _) => go r (CWrite frame buffer frames) | (r, Err e) => fails r (text e) end
  | CWrite frame buffer frames, Well => go (say (ToWorker frame) r) (CRelay buffer frames)
  | CWrite _ _ _, Raises m => fails r m
  | _, _ => None
  end.

(** [_worker_to_client], up to the exit it tells. *)
Definition worker_step (a : answer) (t : thread) (r : reservation) : option (reservation * thread * list thread) :=
  let go r t := Some (r, t, []) in
  let fails r m := Some (r, Fail m worker_failure, []) in
  match t, a with
  | WRelay buffer [], Chunk c =>
    if bool_decide (c = []) then None else
    match _frames buffer c with
    | (buffer, Ok frames) => go (say (FromWorker c) r) (WRelay buffer frames)
    | (_, Err e) => fails (say (FromWorker c) r) (text e)
    end
  | WRelay buffer [], Eof => if bool_decide (buffer = []) then go r WEnd else fails r end_of_stream
  | WRelay _ [], Raises m => fails r m
  | WRelay buffer (frame :: frames), Well =>
    match worker_section frame r with (r, Ok _) => go r (WSend frame buffer frames) | (r, Err e) => fails r (text e) end
  | WSend frame buffer frames, Well => go (say (ToClient frame) r) (WRelay buffer frames)
  | WSend _ _ _, Raises m => fails r m
  | WEnd, Well => go (set_exit_sent r) WExit
  | WExit, Exited p => go (say (Event "worker.exited" (Some (exit_reason r p)) (returncode r)) r) Stop
  | WExit, Raises m => fails r m
  | _, _ => None
  end.

(** [_drain_stderr] *)
Definition drain_step (a : answer) (t : thread) (r : reservation) : option (reservation * thread * list thread) :=
  let go r t := Some (r, t, []) in
  let fails r m := Some (r, Fail m worker_failure, []) in
  match t, a with
  | Drain, Chunk _ => go r Drain
  | Drain, Eof => go r Stop
  | Drain, Raises m => fails r m
  | _, _ => None
  end.

(** [close] and [_close_locked].  [accepting] says whether the accepting thread
    still runs.  Closing the gate of a worker that still runs does not end well:
    [GateSession.close] waits for it. *)
Definition close_step (accepting : bool) (a : answer) (t : thread) (r : reservation) : option (reservation * thread * list thread) :=
  let go r t := Some (r, t, []) in
  match t, a with
  | KLock reason mode, Well =>
    if teardown_held r then None else
    match _close_result r with Some x => go r (Closed x) | None => go (set_teardown true r) (KMode reason mode) end
  | KLock _ _, TimedOut => go r (Closed (false, [str "worker cleanup did not serialize before deadline"]))
  | KMode reason mode, Well =>
    match (match mode with Some m => Some m | None => _cleanup_mode r end) with
    | Some m => go r (KStop m)
    | None => let '(r, m) := arm_closing reason r in go r (KStop m)
    end
  | KStop mode, Well => go r (if running r then (if mode then KGrace else KTerm) else KConn (match _process r with Some _ => true | None => false end) [])
  | KGrace, Well => go r (if running r then KTerm else KConn true [])
  | KTerm, Well => go (say Terminated r) KTermWait
  | KTermWait, Well => if running r then None else go r (KConn true [])
  | KTermWait, TimedOut => go (say Cancelled r) KKill
  | KKill, Well => if running r then None else go r (KConn true [])
  | KKill, TimedOut => go r (KConn true [str "worker process did not terminate before cleanup deadline"])
  | KConn had failures, Well => go (if had then say ConnectionClosed r else r) (KJoin failures)
  | KConn had failures, Raises m => go (if had then say ConnectionClosed r else r) (KJoin (failures ++ [str "listener close failed: " ++ m]))
  | KJoin failures, Well => if accepting then None else go r (KGate failures)
  | KJoin failures, TimedOut => if accepting then go r (KGate (failures ++ [str "worker attachment or launch did not quiesce before cleanup deadline"])) else None
  | KGate failures, Well => if running r then None else go (match _process r with Some _ => say GateClosed r | None => r end) (KFlow failures)
  | KGate failures, Raises m => match _process r with Some _ => go r (KFlow (failures ++ [str "sandbox cleanup failed: " ++ m])) | None => None end
  | KFlow failures, Well =>
    go r (KEndpoint failures match cooperative_failure (_flow r) with Some m => [str "cooperative dispose failed: " ++ m] | None => [] end)
  | KEndpoint failures cooperative, Well => go (say EndpointRemoved r) (KResult failures cooperative)
  | KEndpoint failures cooperative, Raises m => go r (KResult (failures ++ [str "endpoint cleanup failed: " ++ m]) cooperative)
  | KResult failures cooperative, Well =>
    let result := (bool_decide (failures = []), failures ++ cooperative) in go (set_teardown false (set_result result r)) (Closed result)
  | _, _ => None
  end.

(** One step of any thread. *)
Definition step (accepting : bool) (a : answer) (t : thread) (r : reservation) : option (reservation * thread * list thread) :=
  match t with
  | AWait | AAccept | AGuard | ACheck | ALaunch | AStore | AStarted | AAck => accept_step a t r
  | CRelay _ _ | CWrite _ _ _ => client_step a t r
  | WRelay _ _ | WSend _ _ _ | WEnd | WExit => worker_step a t r
  | Drain => drain_step a t r
  | Fail m reason => match a with Well => let '(r, t) := fail_section m reason r in Some (r, t, []) | _ => None end
  | Failing reason emit connected => match a with Well => Some (fail_rest reason emit connected r, Stop, []) | _ => None end
  | Arm reason => match a with Well => Some ((arm_closing reason r).1, Stop, []) | _ => None end
  | Closed _ | Stop => None
  | _ => close_step accepting a t r
  end.

(** ** Schedules *)

(** The accepting thread is thread 0, the relays it starts are 1 and 2, the thread
    that drains the errors is 3; others are callers. *)
Record conf : Type := Conf { st : reservation; threads : gmap nat thread }.
Definition start : conf := Conf init {[ 0%nat := AWait ]}.

Definition is_stopped (t : option thread) : bool := match t with Some Stop => true | _ => false end.
Definition accepting (c : conf) : bool := negb (is_stopped (threads c !! 0%nat)).
Definition started (l : list thread) (ts : gmap nat thread) : gmap nat thread :=
  match l with [a; b; d] => <[1%nat := a]> (<[2%nat := b]> (<[3%nat := d]> ts)) | _ => ts end.

(** [arm_closing] or [close] is called, the worker exits, or a thread goes on. *)
Inductive action : Type :=
  | ArmClosing (reason : pystr) | Close (reason : pystr) (mode : option bool) | Exits (code : Z) | Go (k : nat) (a : answer).

Definition caller (ts : gmap nat thread) : nat := fresh (dom ts ∪ {[0; 1; 2; 3]}%nat).
Definition act (x : action) (c : conf) : option conf :=
  match x with
  | ArmClosing reason => Some (Conf (st c) (<[caller (threads c) := Arm reason]> (threads c)))
  | Close reason mode => Some (Conf (st c) (<[caller (threads c) := KLock reason mode]> (threads c)))
  | Exits code => if running (st c) then Some (Conf (set_process (Some (Some code)) (st c)) (threads c)) else None
  | Go k a =>
    match threads c !! k with
    | Some t =>
      match step (accepting c) a t (st c) with
      | Some (r, t', l) => Some (Conf r (<[k := t']> (started l (threads c))))
      | None => None
      end
    | None => None
    end
  end.
Fixpoint run_from (l : list action) (c : conf) : option conf := match l with [] => Some c | x :: l => match act x c with Some c' => run_from l c' | None => None end end.

Lemma run_from_ind (P : conf -> Prop) l c c' : (forall x c c', P c -> act x c = Some c' -> P c') -> P c -> run_from l c = Some c' -> P c'.
Proof.
  intros Hstep. revert c. induction l as [|x l IH]; intros c Hc H; cbn in H; [by injection H as <-|].
  destruct (act x c) as [c1|] eqn:E; [|done]. by eapply IH; [eapply Hstep|].
Qed.

(** ** The threads keep to their slots *)
Definition accept_thread (t : thread) : bool := match t with AWait | AAccept | AGuard | ACheck | ALaunch | AStore | AStarted | AAck => true | _ => false end.
Definition client_thread (t : thread) : bool := match t with CRelay _ _ | CWrite _ _ _ => true | _ => false end.
Definition worker_thread (t : thread) : bool := match t with WRelay _ _ | WSend _ _ _ | WEnd | WExit => true | _ => false end.
Definition ending (t : thread) : bool := match t with Fail _ _ | Failing _ _ _ | Stop => true | _ => false end.

Definition slot_ok (k : nat) (t : thread) : Prop :=
  (accept_thread t = true -> k = 0%nat) /\ (client_thread t = true -> k = 1%nat) /\ (worker_thread t = true -> k = 2%nat) /\
  (k = 0%nat -> accept_thread t || ending t = true) /\ (k = 1%nat -> client_thread t || ending t = true) /\ (k = 2%nat -> worker_thread t || ending t = true).
Definition slots (c : conf) : Prop := forall k t, threads c !! k = Some t -> slot_ok k t.

Lemma step_slot b a t r r' t' l : step b a t r = Some (r', t', l) ->
  (accept_thread t' = true -> accept_thread t = true) /\ (client_thread t' = true -> client_thread t = true) /\ (worker_thread t' = true -> worker_thread t = true) /\
  (accept_thread t || ending t = true -> accept_thread t' || ending t' = true) /\ (client_thread t || ending t = true -> client_thread t' || ending t' = true) /\
  (worker_thread t || ending t = true -> worker_thread t' || ending t' = true) /\
  (l = [] \/ (t = AAck /\ t' = Stop /\ l = [CRelay [] []; WRelay [] []; Drain])).
Proof.
  intros H. destruct t; destruct a; try done; cbn in H; unfold fail_section in H; repeat case_match; simplify_eq; cbn; tauto.
Qed.

Lemma caller_fresh ts : ts !! caller ts = None /\ caller ts <> 0%nat /\ caller ts <> 1%nat /\ caller ts <> 2%nat.
Proof.
  pose proof (is_fresh (dom ts ∪ ({[0; 1; 2; 3]}%nat : gset nat))) as H. fold (caller ts) in H. rewrite not_elem_of_union in H. destruct H as [H1 H2].
  split; [by apply not_elem_of_dom|]. set_solver.
Qed.

Lemma started_lookup l ts k t : started l ts !! k = Some t ->
  ts !! k = Some t \/ exists a b d, l = [a; b; d] /\ ((k = 1%nat /\ t = a) \/ (k = 2%nat /\ t = b) \/ (k = 3%nat /\ t = d)).
Proof.
  destruct l as [|a [|b [|d [|]]]]; cbn; try (by left). rewrite !lookup_insert_Some. intros [[<- <-]|[_ [[<- <-]|[_ [[<- <-]|[_ H]]]]]].
  1-3: right; exists a, b, d; tauto. by left.
Qed.

Lemma act_slots x c c' : slots c -> act x c = Some c' -> slots c'.
Proof.
  intros Hs H. destruct (caller_fresh (threads c)) as (Hf & H0 & H1 & H2). destruct x as [m|m o|code|k a]; cbn in H.
  1, 2: injection H as <-; intros k' t'; cbn [threads]; intros [[<- <-]|[_ Hk]]%lookup_insert_Some; [|by apply Hs]; (split_and!; [done|done|done|by intros ?%H0|by intros ?%H1|by intros ?%H2]).
  - destruct (running (st c)); [|done]. by injection H as <-.
  - destruct (threads c !! k) as [t|] eqn:Hk; [|done]. destruct (step _ a t _) as [[[r t'] l]|] eqn:Hst; [|done]. injection H as <-.
    destruct (step_slot _ _ _ _ _ _ _ Hst) as (Ha & Hc & Hw & Ha' & Hc' & Hw' & Hl). pose proof (Hs _ _ Hk) as (S1 & S2 & S3 & S4 & S5 & S6).
    intros k' u; cbn [threads]; intros [[<- <-]|[_ Hu]]%lookup_insert_Some; [unfold slot_ok; tauto|].
    destruct Hl as [->|(_ & _ & ->)]; [by apply Hs|]. apply started_lookup in Hu as [Hu|(a1 & a2 & a3 & [= <- <- <-] & Hu)]; [by apply Hs|].
    destruct Hu as [[-> ->]|[[-> ->]|[-> ->]]]; unfold slot_ok; cbn; split_and!; try done; tauto.
Qed.

(** ** What the log tells *)
Definition from_client (l : list note) : bytes := flat_map (fun n => match n with FromClient c => c | _ => [] end) l.
Definition to_worker (l : list note) : list bytes := omap (fun n => match n with ToWorker f => Some f | _ => None end) l.
Definition from_worker (l : list note) : bytes := flat_map (fun n => match n with FromWorker c => c | _ => [] end) l.
Definition to_client (l : list note) : list bytes := omap (fun n => match n with ToClient f => Some f | _ => None end) l.
(** The requests that were let through, and the answers. *)
Definition requested (tr : list label) : list (Z * port.request) := omap (fun l => match l with Forwarded id r => Some (id, r) | _ => None end) tr.
Definition replied (tr : list label) : list (Z * port.request) := omap (fun l => match l with Answered id r => Some (id, r) | _ => None end) tr.

Lemma from_client_app a b : from_client (a ++ b) = from_client a ++ from_client b.
Proof. apply flat_map_app. Qed.
Lemma from_worker_app a b : from_worker (a ++ b) = from_worker a ++ from_worker b.
Proof. apply flat_map_app. Qed.
Lemma to_worker_app a b : to_worker (a ++ b) = to_worker a ++ to_worker b.
Proof. apply omap_app. Qed.
Lemma to_client_app a b : to_client (a ++ b) = to_client a ++ to_client b.
Proof. apply omap_app. Qed.
Lemma requested_app a b : requested (a ++ b) = requested a ++ requested b.
Proof. apply omap_app. Qed.
Lemma replied_app a b : replied (a ++ b) = replied a ++ replied b.
Proof. apply omap_app. Qed.

Lemma told_log f f' r : exists names, log (told f f' r) = log r ++ map (fun name => Event name None None) names /\ _flow (told f f' r) = _flow r /\ _process (told f f' r) = _process r.
Proof.
  unfold told. generalize (drop (length (events f)) (events f')). intros names. exists names. revert r.
  induction names as [|n names IH]; intros r; cbn; [by rewrite app_nil_r|]. destruct (IH (say (Event n None None) r)) as (-> & -> & ->). cbn. by rewrite <- app_assoc.
Qed.
Definition silent (l : list note) : Prop := from_client l = [] /\ to_worker l = [] /\ from_worker l = [] /\ to_client l = [].
Lemma events_silent names : silent (map (fun name => Event name None None) names).
Proof. unfold silent. by induction names as [|n names (? & ? & ? & ?)]. Qed.

(** ** The flow inside runs as [WorkerFlow] does *)
Lemma client_frame_step frame f f' x : client_frame rec_limit frame f = (f', x) ->
  exists l, flow_step rec_limit f l f' /\ replied [l] = [] /\
    match x with
    | Ok _ => exists d id r, l = Forwarded id r /\ port.parse_frame rec_limit frame = Ok (JObj d) /\ port.denotes_request d id r
    | Err _ => requested [l] = []
    end.
Proof.
  intros H. destruct x as [[]|e].
  - destruct (client_frame_cases rec_limit frame f) as [[e He]|(d & id & r & Hp & Hb & Hd & _)]; [congruence|].
    exists (Forwarded id r). split; [by eapply step_forward|]. split; [done|]. by exists d, id, r.
  - exists Refused. split; [by eapply step_client_refused|done].
Qed.
Lemma worker_frame_step frame f f' x : flow_ok f -> worker_frame rec_limit frame f = (f', x) ->
  exists l, flow_step rec_limit f l f' /\ requested [l] = [] /\
    match x with
    | Ok _ => exists d id a r, l = Answered id r /\ port.parse_frame rec_limit frame = Ok (JObj d) /\ port.denotes_response d id a
    | Err _ => replied [l] = []
    end.
Proof.
  intros Hf H. destruct x as [[]|e].
  - destruct (worker_frame_cases rec_limit frame f Hf) as [[e He]|(d & id & a & q & r & Hp & Hb & Hd & Hq & Hr & _)]; [congruence|].
    exists (Answered id r). split; [eapply step_answer; [done..| |done]; intros q' Hq'; rewrite Hq in Hq'; by injection Hq' as <-|].
    split; [done|]. by exists d, id, a, r.
  - exists Refused. split; [by eapply step_worker_refused|done].
Qed.

(** The flow stays, or makes one step. *)
Inductive moved (f : flow) : list label -> flow -> Prop :=
  | moved_not : moved f [] f
  | moved_by l f' : flow_step rec_limit f l f' -> moved f [l] f'.
Lemma moved_run tr f ls f' : run rec_limit tr f -> moved f ls f' -> run rec_limit (tr ++ ls) f'.
Proof. intros H [|l f2 Hs]; [by rewrite app_nil_r|]. by eapply run_snoc. Qed.
Lemma moved_closing f : moved f [Closing] (broker.set_closing f).
Proof. apply moved_by. by eapply (step_closing rec_limit f). Qed.

(** A step of a thread that is not a relay. *)
Lemma step_elsewhere b a t r r' t' l : step b a t r = Some (r', t', l) -> client_thread t = false -> worker_thread t = false ->
  exists ls ns, moved (_flow r) ls (_flow r') /\ requested ls = [] /\ replied ls = [] /\ log r' = log r ++ ns /\ silent ns.
Proof.
  intros H Hc Hw. assert (silent []) as Hn by done.
  destruct t; try done; destruct a; try done; cbn in H; unfold fail_section, fail_rest, arm_closing in *; repeat case_match; simplify_eq; cbn.
  all: try (exists [], []; rewrite app_nil_r; (split; [constructor|]); done).
  all: try (exists [Closing], []; rewrite app_nil_r; (split; [apply moved_closing|]); done).
  all: try (exists []; eexists; rewrite <- ?app_assoc; (split; [constructor|]); (split; [done|]); (split; [done|]); (split; [reflexivity|]); done).
  all: try (exists [Closing]; eexists; rewrite <- ?app_assoc; (split; [apply moved_closing|]); (split; [done|]); (split; [done|]); (split; [reflexivity|]); done).
Qed.

(** ** The relays *)

(** A frame is the text of a request, or of an answer. *)
Definition asks (frame : bytes) (x : Z * port.request) : Prop :=
  exists d, port.parse_frame rec_limit frame = Ok (JObj d) /\ port.denotes_request d x.1 x.2.
Definition answers (frame : bytes) (x : Z * port.request) : Prop :=
  exists d a, port.parse_frame rec_limit frame = Ok (JObj d) /\ port.denotes_response d x.1 a.

(** A relay between two streams: [from] was read, [to] written; [through] is what
    the flow let through. *)
Definition relaying {A} (carries : bytes -> A -> Prop) (from : bytes) (to : list bytes) (through : list A) (held frames : list bytes) (buffer : bytes) : Prop :=
  from = concat to ++ concat held ++ concat frames ++ buffer /\ Forall is_frame (to ++ held ++ frames) /\ Forall2 carries (to ++ held) through.
Definition relayed {A} (carries : bytes -> A -> Prop) (from : bytes) (to : list bytes) (through : list A) : Prop :=
  concat to `prefix_of` from /\ Forall is_frame to /\ exists rest, Forall2 carries (to ++ rest) through.

Lemma relaying_relayed {A} (carries : bytes -> A -> Prop) from to through held frames buffer :
  relaying carries from to through held frames buffer -> relayed carries from to through.
Proof.
  intros (-> & Hf & H2). split; [by eexists|]. apply Forall_app in Hf as [Hf _]. split; [done|]. by exists held.
Qed.

Definition client_inv (slot : option thread) (l : list note) (tr : list label) : Prop :=
  match slot with
  | None => from_client l = [] /\ to_worker l = [] /\ requested tr = []
  | Some (CRelay buffer frames) => relaying asks (from_client l) (to_worker l) (requested tr) [] frames buffer
  | Some (CWrite frame buffer frames) => relaying asks (from_client l) (to_worker l) (requested tr) [frame] frames buffer
  | Some _ => relayed asks (from_client l) (to_worker l) (requested tr)
  end.
Definition worker_inv (slot : option thread) (l : list note) (tr : list label) : Prop :=
  match slot with
  | None => from_worker l = [] /\ to_client l = [] /\ replied tr = []
  | Some (WRelay buffer frames) => relaying answers (from_worker l) (to_client l) (replied tr) [] frames buffer
  | Some (WSend frame buffer frames) => relaying answers (from_worker l) (to_client l) (replied tr) [frame] frames buffer
  | Some _ => relayed answers (from_worker l) (to_client l) (replied tr)
  end.

Lemma client_inv_same slot l tr l' tr' : from_client l' = from_client l -> to_worker l' = to_worker l -> requested tr' = requested tr ->
  client_inv slot l tr -> client_inv slot l' tr'.
Proof. intros E1 E2 E3. unfold client_inv. by rewrite E1, E2, E3. Qed.
Lemma worker_inv_same slot l tr l' tr' : from_worker l' = from_worker l -> to_client l' = to_client l -> replied tr' = replied tr ->
  worker_inv slot l tr -> worker_inv slot l' tr'.
Proof. intros E1 E2 E3. unfold worker_inv. by rewrite E1, E2, E3. Qed.

(** The chunk that is read goes into frames and the rest of the buffer. *)
Lemma relaying_chunk {A} (carries : bytes -> A -> Prop) from to through buffer c buffer' frames :
  relaying carries from to through [] [] buffer -> _frames buffer c = (buffer', Ok frames) ->
  relaying carries (from ++ c) to through [] frames buffer'.
Proof.
  intros (-> & Hf & H2) H. pose proof (frames_partition buffer c) as Hp. rewrite H in Hp. destruct Hp as (E & Hfr & _).
  cbn. split_and!; [by rewrite <- app_assoc, E| |done]. apply Forall_app. split; [|done]. by apply Forall_app in Hf as [Hf _].
Qed.
Lemma relayed_more {A} (carries : bytes -> A -> Prop) from to through c : relayed carries from to through -> relayed carries (from ++ c) to through.
Proof. intros ([k ->] & Hf & H). split; [exists (k ++ c); by rewrite app_assoc|done]. Qed.
Lemma relaying_take {A} (carries : bytes -> A -> Prop) from to through frame frames buffer x :
  relaying carries from to through [] (frame :: frames) buffer -> carries frame x -> relaying carries from to (through ++ [x]) [frame] frames buffer.
Proof.
  intros (-> & Hf & H2) Hx. cbn. split_and!; [by simplify_list_eq|done|]. rewrite app_nil_r in H2. by apply Forall2_app; [|repeat constructor].
Qed.
Lemma relaying_write {A} (carries : bytes -> A -> Prop) from to through frame frames buffer :
  relaying carries from to through [frame] frames buffer -> relaying carries from (to ++ [frame]) through [] frames buffer.
Proof.
  intros (-> & Hf & H2). cbn. split_and!; [|by rewrite <- app_assoc|by rewrite app_nil_r]. rewrite concat_app. cbn. by rewrite <- !app_assoc.
Qed.

Lemma step_client b a t r r' t' l tr : step b a t r = Some (r', t', l) -> client_thread t = true -> client_inv (Some t) (log r) tr ->
  exists ls ns, moved (_flow r) ls (_flow r') /\ replied ls = [] /\ log r' = log r ++ ns /\ from_worker ns = [] /\ to_client ns = [] /\
    client_inv (Some t') (log r ++ ns) (tr ++ ls).
Proof.
  intros H Ht Hinv. destruct t as [| | | | | | | |buffer [|frame frames]|frame buffer frames| | | | | | | | | | | | | | | | | | | | | | |]; try done; destruct a as [|m| | | |c| |]; try done; cbn in H.
  - injection H as <- <- _. exists [], []. rewrite !app_nil_r. split_and!; try done; [constructor|]. by eapply relaying_relayed.
  - case_bool_decide; [done|]. destruct (_frames buffer c) as [buffer' [frames|e]] eqn:Hf; injection H as <- <- _; exists [], [FromClient c].
    all: rewrite app_nil_r; (split; [constructor|]); split_and!; try done; cbn; rewrite from_client_app, to_worker_app; cbn; rewrite !app_nil_r.
    + by eapply relaying_chunk.
    + by eapply relayed_more, relaying_relayed.
  - assert (forall x y, Some (r, Fail x y, []) = Some (r', t', l) -> exists ls ns, moved (_flow r) ls (_flow r') /\ replied ls = [] /\ log r' = log r ++ ns /\ from_worker ns = [] /\ to_client ns = [] /\
      client_inv (Some t') (log r ++ ns) (tr ++ ls)) as Hg.
    { intros x y Hx. injection Hx as <- <- _. exists [], []. rewrite !app_nil_r. split_and!; try done; [constructor|]. by eapply relaying_relayed. }
    case_bool_decide; by eapply Hg.
  - unfold client_section in H. destruct (client_frame rec_limit frame (_flow r)) as [f x] eqn:Hc.
    destruct (client_frame_step _ _ _ _ Hc) as (lb & Hs & Hre & Hx). destruct x as [[]|e]; injection H as <- <- _; exists [lb], [].
    all: rewrite app_nil_r; (split; [by constructor|]); split_and!; try done; cbn; rewrite requested_app.
    + destruct Hx as (d & id & rq & -> & Hp & Hd). cbn. eapply relaying_take; [done|]. by exists d.
    + rewrite Hx, app_nil_r. by eapply relaying_relayed.
  - injection H as <- <- _. exists [], [ToWorker frame]. rewrite app_nil_r. split_and!; try done; [constructor|]. cbn.
    rewrite from_client_app, to_worker_app. cbn. rewrite app_nil_r. by apply relaying_write.
  - injection H as <- <- _. exists [], []. rewrite !app_nil_r. split_and!; try done; [constructor|]. by eapply relaying_relayed.
Qed.

Lemma step_worker b a t r r' t' l tr : flow_ok (_flow r) -> step b a t r = Some (r', t', l) -> worker_thread t = true -> worker_inv (Some t) (log r) tr ->
  exists ls ns, moved (_flow r) ls (_flow r') /\ requested ls = [] /\ log r' = log r ++ ns /\ from_client ns = [] /\ to_worker ns = [] /\
    worker_inv (Some t') (log r ++ ns) (tr ++ ls).
Proof.
  intros Hok H Ht Hinv. assert (forall x y, Some (r, Fail x y, []) = Some (r', t', l) -> exists ls ns, moved (_flow r) ls (_flow r') /\ requested ls = [] /\
    log r' = log r ++ ns /\ from_client ns = [] /\ to_worker ns = [] /\ worker_inv (Some t') (log r ++ ns) (tr ++ ls)) as Hg.
  { intros x y Hx. injection Hx as <- <- _. exists [], []. rewrite !app_nil_r. split_and!; try done; [constructor|].
    destruct t as [| | | | | | | | | |buffer frames|frame buffer frames| | | | | | | | | | | | | | | | | | | | |]; try done; by eapply relaying_relayed. }
  destruct t as [| | | | | | | | | |buffer [|frame frames]|frame buffer frames| | | | | | | | | | | | | | | | | | | | |]; try done; destruct a as [|m| | | |c| |pr]; try done; cbn in H.
  - by eapply Hg.
  - case_bool_decide; [done|]. destruct (_frames buffer c) as [buffer' [frames|e]] eqn:Hf; injection H as <- <- _; exists [], [FromWorker c].
    all: rewrite app_nil_r; (split; [constructor|]); split_and!; try done; cbn; rewrite from_worker_app, to_client_app; cbn; rewrite !app_nil_r.
    + by eapply relaying_chunk.
    + by eapply relayed_more, relaying_relayed.
  - case_bool_decide; [|by eapply Hg]. injection H as <- <- _. exists [], []. rewrite !app_nil_r. split_and!; try done; [constructor|]. by eapply relaying_relayed.
  - unfold worker_section in H. destruct (worker_frame rec_limit frame (_flow r)) as [f x] eqn:Hc.
    destruct (worker_frame_step _ _ _ _ Hok Hc) as (lb & Hs & Hre & Hx).
    destruct (told_log (_flow r) f (set_flow f r)) as (names & Hlog & Hfl & _). destruct (events_silent names) as (E1 & E2 & E3 & E4).
    destruct x as [[]|e]; injection H as <- <- _; exists [lb]; eexists; rewrite Hfl; (split; [by constructor|]); (split; [done|]); (split; [exact Hlog|]); (split_and!; [done|done|]); cbn [worker_inv];
      rewrite from_worker_app, to_client_app, replied_app, E3, E4, !app_nil_r.
    + destruct Hx as (d & id & an & rq & -> & Hp & Hd). cbn. eapply relaying_take; [done|]. by exists d, an.
    + rewrite Hx, app_nil_r. by eapply relaying_relayed.
  - injection H as <- <- _. exists [], [ToClient frame]. rewrite app_nil_r. split_and!; try done; [constructor|]. cbn.
    rewrite from_worker_app, to_client_app. cbn. rewrite app_nil_r. by apply relaying_write.
  - by eapply Hg.
  - injection H as <- <- _. exists [], []. rewrite !app_nil_r. split_and!; try done. constructor.
  - by eapply Hg.
  - injection H as <- <- _. exists [], [Event "worker.exited" (Some (exit_reason r pr)) (returncode r)]. rewrite app_nil_r. split_and!; [apply moved_not|done|reflexivity|done|done|].
    cbn [worker_inv]. rewrite from_worker_app, to_client_app. cbn. by rewrite !app_nil_r.
Qed.

(** *** All threads *)
Definition early (t : option thread) : bool := match t with Some t => accept_thread t | None => false end.
Record relays (c : conf) (tr : list label) : Prop := {
  rl_slots : slots c;
  rl_early : early (threads c !! 0%nat) = true -> threads c !! 1%nat = None /\ threads c !! 2%nat = None;
  rl_run : broker.run rec_limit tr (_flow (st c));
  rl_client : client_inv (threads c !! 1%nat) (log (st c)) tr;
  rl_worker : worker_inv (threads c !! 2%nat) (log (st c)) tr }.

Lemma client_inv_ended slot t l tr : client_thread t = false -> client_inv slot l tr -> client_inv (Some t) l tr.
Proof.
  intros Ht H. assert (relayed asks (from_client l) (to_worker l) (requested tr)) as Hr.
  { destruct slot as [u|]; [destruct u; cbn in H; try exact H; by eapply relaying_relayed|]. destruct H as (-> & -> & ->).
    split; [by exists []|]. split; [constructor|]. by exists []. }
  by destruct t.
Qed.
Lemma worker_inv_ended slot t l tr : worker_thread t = false -> worker_inv slot l tr -> worker_inv (Some t) l tr.
Proof.
  intros Ht H. assert (relayed answers (from_worker l) (to_client l) (replied tr)) as Hr.
  { destruct slot as [u|]; [destruct u; cbn in H; try exact H; by eapply relaying_relayed|]. destruct H as (-> & -> & ->).
    split; [by exists []|]. split; [constructor|]. by exists []. }
  by destruct t.
Qed.

Lemma relays_start : relays start [].
Proof.
  split; cbn.
  - intros k t H. cbn [start threads] in H. apply lookup_singleton_Some in H as [<- <-]. unfold slot_ok. cbn. split_and!; try done.
  - intros _. split; by rewrite lookup_singleton_ne.
  - constructor.
  - by rewrite lookup_singleton_ne.
  - by rewrite lookup_singleton_ne.
Qed.

Lemma act_relays x c c' tr : relays c tr -> act x c = Some c' -> exists ls, relays c' (tr ++ ls).
Proof.
  intros Hr Hact. pose proof Hr as [Hs He Hrun Hcl Hwo]. pose proof (act_slots _ _ _ Hs Hact) as Hs'.
  destruct (caller_fresh (threads c)) as (_ & H0 & H1 & H2). destruct x as [m|m o|code|k a]; cbn in Hact.
  1, 2: exists []; rewrite app_nil_r; injection Hact as <-; split; cbn [st threads]; rewrite ?lookup_insert_ne by done; done.
  - exists []. rewrite app_nil_r. destruct (running (st c)); [|done]. injection Hact as <-. by split.
  - destruct (threads c !! k) as [t|] eqn:Hk; [|done]. destruct (step (accepting c) a t (st c)) as [[[r t'] l]|] eqn:Hst; [|done]. injection Hact as <-.
    destruct (Hs _ _ Hk) as (S1 & S2 & S3 & S4 & S5 & S6). destruct (step_slot _ _ _ _ _ _ _ Hst) as (T1 & T2 & T3 & T4 & T5 & T6 & Hl).
    assert (l = [] -> (accept_thread t' = true -> accept_thread t = true) -> early (<[k:=t']> (threads c) !! 0%nat) = true ->
      <[k:=t']> (threads c) !! 1%nat = None /\ <[k:=t']> (threads c) !! 2%nat = None) as Hearly.
    { intros _ Ha E. destruct (decide (k = 0%nat)) as [->|Hk0].
      - rewrite lookup_insert_eq in E. cbn in E. rewrite !lookup_insert_ne by done. apply He. rewrite Hk. by apply Ha.
      - rewrite lookup_insert_ne in E by done. destruct (He E) as [E1 E2].
        rewrite !lookup_insert_ne by (intros ->; congruence). done. }
    destruct (client_thread t) eqn:Hct.
    { rewrite (S2 eq_refl) in *. destruct Hl as [->|(-> & _)]; [|done]. rewrite Hk in Hcl.
      destruct (step_client _ _ _ _ _ _ _ _ Hst Hct Hcl) as (ls & ns & Hm & Hre & Hlog & Hfw & Htc & Hinv). exists ls. split; cbn [st threads started] in *.
      - done.
      - by apply Hearly.
      - by eapply moved_run.
      - by rewrite Hlog, lookup_insert_eq.
      - rewrite Hlog, lookup_insert_ne by done. eapply worker_inv_same; [| | |exact Hwo]; rewrite ?from_worker_app, ?to_client_app, ?replied_app, ?Hfw, ?Htc, ?Hre, ?app_nil_r; done. }
    destruct (worker_thread t) eqn:Hwt.
    { rewrite (S3 eq_refl) in *. destruct Hl as [->|(-> & _)]; [|done]. rewrite Hk in Hwo.
      destruct (step_worker _ _ _ _ _ _ _ _ (run_ok _ _ _ Hrun) Hst Hwt Hwo) as (ls & ns & Hm & Hre & Hlog & Hfc & Htw & Hinv). exists ls. split; cbn [st threads started] in *.
      - done.
      - by apply Hearly.
      - by eapply moved_run.
      - rewrite Hlog, lookup_insert_ne by done. eapply client_inv_same; [| | |exact Hcl]; rewrite ?from_client_app, ?to_worker_app, ?requested_app, ?Hfc, ?Htw, ?Hre, ?app_nil_r; done.
      - by rewrite Hlog, lookup_insert_eq. }
    destruct (step_elsewhere _ _ _ _ _ _ _ Hst Hct Hwt) as (ls & ns & Hm & Hrq & Hrp & Hlog & Hfc & Htw & Hfw & Htc). exists ls.
    assert (client_inv (threads c !! 1%nat) (log r) (tr ++ ls)) as Hcl'.
    { rewrite Hlog. eapply client_inv_same; [| | |exact Hcl]; rewrite ?from_client_app, ?to_worker_app, ?requested_app, ?Hfc, ?Htw, ?Hrq, ?app_nil_r; done. }
    assert (worker_inv (threads c !! 2%nat) (log r) (tr ++ ls)) as Hwo'.
    { rewrite Hlog. eapply worker_inv_same; [| | |exact Hwo]; rewrite ?from_worker_app, ?to_client_app, ?replied_app, ?Hfw, ?Htc, ?Hrp, ?app_nil_r; done. }
    assert (broker.run rec_limit (tr ++ ls) (_flow r)) as Hrun' by by eapply moved_run.
    destruct Hl as [->|(-> & -> & ->)].
    + split; cbn [st threads started] in *; [done|by apply Hearly|done| |].
      * destruct (decide (k = 1%nat)) as [->|Hne]; [|by rewrite lookup_insert_ne]. rewrite lookup_insert_eq. eapply client_inv_ended; [|exact Hcl'].
        destruct (client_thread t') eqn:E; [|done]. by specialize (T2 eq_refl).
      * destruct (decide (k = 2%nat)) as [->|Hne]; [|by rewrite lookup_insert_ne]. rewrite lookup_insert_eq.
        eapply worker_inv_ended; [|exact Hwo']. destruct (worker_thread t') eqn:E; [|done]. by specialize (T3 eq_refl).
    + rewrite (S1 eq_refl) in *. rewrite Hk in He. destruct (He eq_refl) as [E1 E2]. rewrite E1 in Hcl'. rewrite E2 in Hwo'.
      destruct Hcl' as (C1 & C2 & C3). destruct Hwo' as (W1 & W2 & W3). split; cbn [st threads started] in *; [done| |done| |].
      * rewrite lookup_insert_eq. done.
      * rewrite lookup_insert_ne, lookup_insert_eq by done. cbn. rewrite C1, C2, C3. split_and!; try done; constructor.
      * rewrite !lookup_insert_ne, lookup_insert_eq by done. cbn. rewrite W1, W2, W3. split_and!; try done; constructor.
Qed.

Lemma reservation_reached l c : run_from l start = Some c -> exists tr, relays c tr.
Proof.
  apply (run_from_ind (fun c => exists tr, relays c tr)); [|by exists []; apply relays_start].
  intros x c1 c2 [tr H] Hx. destruct (act_relays _ _ _ _ H Hx) as [ls Hl]. by eexists.
Qed.

(** The relay is exact.  The frames written to the worker are complete lines
    and, put together, a prefix of what the client sent; the same holds of the
    frames sent to the client and what the worker wrote.  Nothing is changed,
    added, dropped in between or reordered, wherever the streams were cut and
    whatever the other threads do. *)
Theorem relay_exact l c : run_from l start = Some c ->
  (concat (to_worker (log (st c))) `prefix_of` from_client (log (st c)) /\ Forall is_frame (to_worker (log (st c)))) /\
  (concat (to_client (log (st c))) `prefix_of` from_worker (log (st c)) /\ Forall is_frame (to_client (log (st c)))).
Proof.
  intros [tr [_ _ _ Hc Hw]]%reservation_reached.
  pose proof (client_inv_ended _ Stop _ _ eq_refl Hc) as (H1 & H2 & _). pose proof (worker_inv_ended _ Stop _ _ eq_refl Hw) as (H3 & H4 & _). done.
Qed.

(** A reservation runs the flow.  The state of [WorkerFlow] in a reservation
    is always one that a run of the flow alone reaches; the frames written to the
    worker are the texts of the requests that run lets through, in its order, and
    the frames sent to the client those of its answers.  At most the last of each
    is still to be written.  So what is proved of the flow holds of the relay. *)
Theorem reservation_runs_flow l c : run_from l start = Some c ->
  exists tr, broker.run rec_limit tr (_flow (st c)) /\
    (exists rest, Forall2 asks (to_worker (log (st c)) ++ rest) (requested tr)) /\
    (exists rest, Forall2 answers (to_client (log (st c)) ++ rest) (replied tr)).
Proof.
  intros [tr [_ _ Hrun Hc Hw]]%reservation_reached. exists tr.
  pose proof (client_inv_ended _ Stop _ _ eq_refl Hc) as (_ & _ & H1). pose proof (worker_inv_ended _ Stop _ _ eq_refl Hw) as (_ & _ & H2). done.
Qed.

(** ** Launching *)

(** The frame of an attachment with the credentials of this reservation. *)
Definition authentic (frame : bytes) : Prop :=
  exists v, _strict_attach rec_limit frame = Ok v /\ getitem v "sessionId" = Ok (JStr session_id) /\ getitem v "workerId" = Ok (JStr worker_id) /\
    getitem v "attachmentToken" = Ok (JStr attachment_token).

Definition is_gate (n : note) : bool := match n with Attached _ | Guarded | Launched | ToWorker _ => true | _ => false end.
Definition gate_notes (l : list note) : list note := List.filter is_gate l.
Lemma gate_notes_app a b : gate_notes (a ++ b) = gate_notes a ++ gate_notes b.
Proof. apply List.filter_app. Qed.

(** How far the accepting thread has come. *)
Definition stage (t : thread) : option nat :=
  match t with
  | AWait | AAccept => Some 0 | AGuard => Some 1 | ACheck | ALaunch => Some 2 | AStore | AStarted | AAck => Some 3
  | _ => None
  end%nat.

(** The first [n] steps of a launch, then frames to the worker. *)
Definition authorized (n : nat) (g : list note) : Prop :=
  exists frame frames, ((0 < n)%nat -> authentic frame) /\ g = take n [Attached frame; Guarded; Launched] ++ map ToWorker frames /\ ((n < 3)%nat -> frames = []).

Lemma authenticate_Ok uid ans late frame : authenticate uid ans late = Ok frame -> authentic frame.
Proof.
  unfold authenticate. intros H. inv_res. bool_hyps.
  repeat match goal with H : str_is _ _ = true |- _ => apply str_is_true in H; subst end. by eexists.
Qed.

Lemma told_gate names : gate_notes (map (fun name => Event name None None) names) = [].
Proof. by induction names. Qed.

Lemma worker_section_log frame r r' x : worker_section frame r = (r', x) -> exists names, log r' = log r ++ map (fun name => Event name None None) names.
Proof.
  unfold worker_section. destruct (worker_frame rec_limit frame (_flow r)) as [f y]. intros [= <- _].
  destruct (told_log (_flow r) f (set_flow f r)) as (names & Hlog & _). by exists names.
Qed.

(** What a step adds to the launch. *)
Lemma step_gate b a t r r' t' l : step b a t r = Some (r', t', l) ->
  exists ns, log r' = log r ++ ns /\
    ((gate_notes ns = [] /\ (stage t' = None \/ stage t' = stage t)) \/
     (exists f, t = AAccept /\ t' = AGuard /\ authentic f /\ gate_notes ns = [Attached f]) \/
     (t = AGuard /\ t' = ACheck /\ gate_notes ns = [Guarded]) \/
     (t = ALaunch /\ t' = AStore /\ gate_notes ns = [Launched]) \/
     (client_thread t = true /\ stage t' = None /\ exists f, gate_notes ns = [ToWorker f])).
Proof.
  intros H. destruct t as [| | | | | | | |buffer [|frame frames]|frame buffer frames|buffer2 [|frame2 frames2]|frame2 buffer2 frames2| | | | | | | | | | | | | | | | | | | | |];
    try done; destruct a; try done; cbn in H; unfold fail_section, fail_rest, arm_closing, client_section in *.
  all: repeat case_match; simplify_eq; cbn.
  all: try (exists []; rewrite app_nil_r; (split; [done|]); left; (split; [done|]); by (left + right)).
  all: try (eexists; rewrite <- ?app_assoc; (split; [reflexivity|]); left; (split; [done|]); by (left + right)).
  - exists [Attached a]. split; [done|]. right. left. exists a. split_and!; try done. by eapply authenticate_Ok.
  - exists [Guarded]. split; [done|]. tauto.
  - exists [Launched]. split; [done|]. tauto.
  - eexists [ToWorker _]. split; [done|]. right. right. right. right. split_and!; try done. by eexists.
  - match goal with H : worker_section _ _ = _ |- _ => apply worker_section_log in H as [names Hlog] end.
    exists (map (fun name => Event name None None) names). split; [exact Hlog|]. left. split; [apply told_gate|by left].
  - match goal with H : worker_section _ _ = _ |- _ => apply worker_section_log in H as [names Hlog] end.
    exists (map (fun name => Event name None None) names). split; [exact Hlog|]. left. split; [apply told_gate|by left].
Qed.

(** The launch of a reservation. *)
Definition launching (c : conf) : Prop :=
  exists n, authorized n (gate_notes (log (st c))) /\ (forall t m, threads c !! 0%nat = Some t -> stage t = Some m -> n = m) /\
    (threads c !! 1%nat <> None -> n = 3%nat).

Lemma launching_start : launching start.
Proof.
  exists 0%nat. split; [exists [], []; split; [lia|done]|]. split.
  - intros t m H. cbn [start threads] in H. rewrite lookup_singleton_eq in H. injection H as <-. by intros [= <-].
  - intros H. destruct H. cbn [start threads]. by rewrite lookup_singleton_ne.
Qed.

Lemma authorized_attached g f : authentic f -> authorized 0 g -> authorized 1 (g ++ [Attached f]).
Proof. intros Hf (frame & frames & _ & -> & Hn). rewrite (Hn ltac:(lia)). exists f, []. done. Qed.
Lemma authorized_next n g x : nth_error [Guarded; Launched] n = Some x -> authorized (S n) g -> authorized (S (S n)) (g ++ [x]).
Proof.
  intros Hx (frame & frames & Ha & -> & Hf). exists frame, []. destruct n as [|[|[|n]]]; cbn in *; simplify_eq; rewrite (Hf ltac:(lia)); cbn.
  all: split_and!; [intros _; apply Ha; lia|done|done].
Qed.
Lemma authorized_frame g f : authorized 3 g -> authorized 3 (g ++ [ToWorker f]).
Proof.
  intros (frame & frames & Ha & -> & _). exists frame, (frames ++ [f]). split; [done|]. split; [|lia]. by rewrite map_app, app_assoc.
Qed.

Lemma act_launching x c c' : slots c -> launching c -> act x c = Some c' -> launching c'.
Proof.
  intros Hs (n & Ha & H0 & H1) Hact. destruct (caller_fresh (threads c)) as (_ & N0 & N1 & _). destruct x as [m|m o|code|k a]; cbn in Hact.
  1, 2: injection Hact as <-; exists n; cbn [st threads]; rewrite ?lookup_insert_ne by done; done.
  - destruct (running (st c)); [|done]. injection Hact as <-. by exists n.
  - destruct (threads c !! k) as [t|] eqn:Hk; [|done]. destruct (step (accepting c) a t (st c)) as [[[r t'] l]|] eqn:Hst; [|done]. injection Hact as <-.
    destruct (Hs _ _ Hk) as (S1 & S2 & _). destruct (step_slot _ _ _ _ _ _ _ Hst) as (_ & _ & _ & _ & _ & _ & Hl).
    destruct (step_gate _ _ _ _ _ _ _ Hst) as (ns & Hlog & Hg).
    assert (forall n', authorized n' (gate_notes (log r)) -> (forall m, k = 0%nat -> stage t' = Some m -> n' = m) -> (n' = n \/ k = 0%nat) ->
      (n' = n \/ (n < 3)%nat) -> launching (Conf r (<[k:=t']> (started l (threads c))))) as Hgo.
    { intros n' Ha' Hk0 Hne Hlt. exists n'. split; [exact Ha'|]. cbn [st threads]. split.
      - intros u m. intros [[-> <-]|[Hkn Hu]]%lookup_insert_Some; [by apply Hk0|]. destruct Hne as [-> | ->]; [|done].
        apply started_lookup in Hu as [Hu|(a1 & a2 & a3 & _ & Hu)]; [by apply H0|]. exfalso. destruct Hu as [[? _]|[[? _]|[? _]]]; lia.
      - intros Hn1. assert (threads c !! 1%nat <> None \/ t = AAck) as [H|H].
        + destruct Hl as [->|(-> & _)]; [left|by right]. cbn in Hn1. destruct (decide (k = 1%nat)) as [->|Hkn]; [by rewrite Hk|]. by rewrite lookup_insert_ne in Hn1.
        + pose proof (H1 H). lia.
        + subst t. rewrite (S1 eq_refl) in Hk. pose proof (H0 _ _ Hk eq_refl). destruct Hlt; lia. }
    destruct Hg as [[Hg Ht]|[(f & -> & -> & Hf & Hg)|[(-> & -> & Hg)|[(-> & -> & Hg)|(Hc & Ht & f & Hg)]]]]; rewrite Hlog, gate_notes_app, Hg in *.
    + rewrite app_nil_r in Hgo. apply (Hgo n); [done| |by left|by left]. intros m -> Hm. destruct Ht as [Ht|Ht]; [congruence|]. rewrite Ht in Hm. by eapply H0.
    + rewrite (S1 eq_refl) in *. pose proof (H0 _ _ Hk eq_refl) as ->. apply (Hgo 1%nat); [by apply authorized_attached|by intros m _ [= <-]|by right|right; lia].
    + rewrite (S1 eq_refl) in *. pose proof (H0 _ _ Hk eq_refl) as ->. apply (Hgo 2%nat); [by apply authorized_next|by intros m _ [= <-]|by right|right; lia].
    + rewrite (S1 eq_refl) in *. pose proof (H0 _ _ Hk eq_refl) as ->. apply (Hgo 3%nat); [by apply authorized_next|by intros m _ [= <-]|by right|right; lia].
    + rewrite (S2 Hc) in *. assert (n = 3%nat) as -> by (apply H1; congruence). apply (Hgo 3%nat); [by apply authorized_frame|done|by left|by left].
Qed.

(** Nothing reaches the worker before it was launched, and nothing is launched
    before it was authorised.  The attachments that were let in, the launch guard's
    consent, the launches and the frames written to the worker come in this order:
    one attachment with the session, the worker and the token of this reservation,
    one consent, one launch, and only then frames. *)
Theorem launch_authentic l c : run_from l start = Some c ->
  exists n, authorized n (gate_notes (log (st c))).
Proof.
  intros H. assert (slots c /\ launching c) as [_ (n & Hn & _)]; [|by exists n].
  revert H. apply (run_from_ind (fun c => slots c /\ launching c)); [|split; [apply (rl_slots _ _ relays_start)|apply launching_start]].
  intros x c1 c2 [Hs Hl] Hx. split; [by eapply act_slots|by eapply act_launching].
Qed.

(** ** Closing *)

(** What has been done when a close that met no failure is at a given point. *)
Definition done_by (n : nat) (c : conf) : Prop :=
  ((1 <= n)%nat -> accepting c = false) /\
  ((2 <= n)%nat -> running (st c) = false /\ (_process (st c) <> None -> GateClosed ∈ log (st c))) /\
  ((3 <= n)%nat -> EndpointRemoved ∈ log (st c)).
Definition clean (failures : list pystr) (n : nat) : nat := match failures with [] => n | _ => 0%nat end.
Definition level (t : thread) : nat :=
  match t with
  | KGate failures => clean failures 1
  | KFlow failures | KEndpoint failures _ => clean failures 2
  | KResult failures _ => clean failures 3
  | Closed (true, _) => 3
  | _ => 0
  end%nat.
Definition result_level (x : option (bool * list pystr)) : nat := match x with Some (true, _) => 3 | _ => 0 end%nat.

Lemma clean_snoc failures m n : clean (failures ++ [m]) n = 0%nat.
Proof. by destruct failures. Qed.
Lemma done_0 c : done_by 0 c.
Proof. split_and!; lia. Qed.
Lemma done_le m n c : (m <= n)%nat -> done_by n c -> done_by m c.
Proof. intros Hm (H1 & H2 & H3). split_and!; intros H; [apply H1|apply H2|apply H3]; lia. Qed.

Lemma step_notes b a t r r' t' l : step b a t r = Some (r', t', l) ->
  (exists ns, log r' = log r ++ ns) /\ (_process r' = _process r \/ accept_thread t = true).
Proof.
  intros H. destruct (step_gate _ _ _ _ _ _ _ H) as (ns & Hlog & _). split; [by exists ns|]. clear ns Hlog.
  destruct t as [| | | | | | | |buffer [|frame frames]|frame buffer frames|buffer2 [|frame2 frames2]|frame2 buffer2 frames2| | | | | | | | | | | | | | | | | | | | |];
    try (by right); destruct a; try done; cbn in H; unfold fail_section, fail_rest, arm_closing, client_section, worker_section in *;
    repeat case_match; simplify_eq; left; cbn; try done.
  all: by destruct (told_log (_flow r) f (set_flow f r)) as (? & _ & _ & ->).
Qed.

Lemma step_level b a t r r' t' l : step b a t r = Some (r', t', l) ->
  (level t' <= level t)%nat \/ (level t' <= result_level (_close_result r))%nat \/ (level t' = 1%nat /\ b = false) \/
  (level t = 1%nat /\ level t' = 2%nat /\ running r' = false /\ (_process r' <> None -> GateClosed ∈ log r')) \/
  (level t = 2%nat /\ level t' = 3%nat /\ EndpointRemoved ∈ log r').
Proof.
  intros H. destruct t; destruct a; try done; cbn in H; unfold fail_section in H; repeat case_match; simplify_eq; cbn [level];
    rewrite ?clean_snoc; try (left; cbn; lia).
  - right. left. cbn. destruct p as [[] ?]; cbn; lia.
  - destruct failures; cbn; [right; right; by left|left; lia].
  - destruct failures; cbn; [|left; lia]. do 3 right. left. split_and!; [done|done|done|intros _; apply elem_of_app; right; by apply list_elem_of_singleton].
  - destruct failures; cbn; [|left; lia]. do 3 right. left. split_and!; [done|done|done|congruence].
  - destruct failures; cbn; [|left; lia]. do 4 right. split_and!; [done|done|apply elem_of_app; right; by apply list_elem_of_singleton].
  - left. case_bool_decide; [subst failures|]; cbn; lia.
Qed.

Lemma told_result f f' r : _close_result (told f f' (set_flow f' r)) = _close_result r.
Proof.
  unfold told. change (_close_result r) with (_close_result (set_flow f' r)). generalize (set_flow f' r). clear r.
  induction (drop _ _) as [|n names IH]; intros r; cbn; [done|]. by rewrite (IH (say (Event n None None) r)).
Qed.
Lemma step_result b a t r r' t' l : step b a t r = Some (r', t', l) ->
  _close_result r' = _close_result r \/ (result_level (_close_result r') <= level t)%nat.
Proof.
  intros H. destruct t as [| | | | | | | |buffer [|frame frames]|frame buffer frames|buffer2 [|frame2 frames2]|frame2 buffer2 frames2| | | | | | | | | | | | | | | | | | | | |];
    destruct a; try done; cbn in H; unfold fail_section, fail_rest, arm_closing, client_section, worker_section in *; repeat case_match; simplify_eq; cbn [level];
    try (left; first [assumption|reflexivity|apply told_result]).
  right. cbn. case_bool_decide; [subst failures|]; cbn; lia.
Qed.

Lemma done_act n x c c' : slots c -> act x c = Some c' -> done_by n c -> done_by n c'.
Proof.
  intros Hs Hact (H1 & H2 & H3). destruct (caller_fresh (threads c)) as (_ & N0 & _ & _).
  assert (accepting c = false -> accepting c' = false /\ (running (st c) = false -> running (st c') = false) /\
    (_process (st c') <> None -> _process (st c) <> None)) as Hp.
  { unfold accepting. intros Ha. destruct (threads c !! 0%nat) as [t0|] eqn:H0; [|done]. destruct t0; try done.
    destruct x as [m|m o|code|k a]; cbn in Hact.
    - injection Hact as <-. cbn [st threads]. by rewrite lookup_insert_ne, H0.
    - injection Hact as <-. cbn [st threads]. by rewrite lookup_insert_ne, H0.
    - destruct (running (st c)) eqn:Hr; [|done]. injection Hact as <-. cbn [st threads]. rewrite H0. split_and!; [done|done|]. intros _ E. unfold running in Hr. by rewrite E in Hr.
    - destruct (threads c !! k) as [t|] eqn:Hk; [|done]. destruct (step (accepting c) a t (st c)) as [[[r t'] l]|] eqn:Hst; [|done]. injection Hact as <-. cbn [st threads].
      destruct (step_notes _ _ _ _ _ _ _ Hst) as (_ & [Hpr|Hacc]); [|exfalso; rewrite (proj1 (Hs _ _ Hk) Hacc), H0 in Hk; by injection Hk as <-].
      unfold running. rewrite Hpr. split; [|done]. destruct (decide (k = 0%nat)) as [->|Hne].
      + rewrite H0 in Hk. injection Hk as <-. by destruct a.
      + rewrite lookup_insert_ne by done. destruct (step_slot _ _ _ _ _ _ _ Hst) as (_ & _ & _ & _ & _ & _ & [->|(-> & _)]); [by cbn; rewrite H0|].
        by specialize (proj1 (Hs _ _ Hk) eq_refl). }
  assert (exists ns, log (st c') = log (st c) ++ ns) as [ns Hlog].
  { destruct x as [m|m o|code|k a]; cbn in Hact.
    1, 2: injection Hact as <-; exists []; by rewrite app_nil_r.
    - destruct (running (st c)); [|done]. injection Hact as <-. exists []. by rewrite app_nil_r.
    - destruct (threads c !! k) as [t|]; [|done]. destruct (step (accepting c) a t (st c)) as [[[r t'] l]|] eqn:Hst; [|done]. injection Hact as <-. by apply step_notes in Hst as [? _]. }
  split_and!; intros Hn; [by apply Hp, H1|..].
  - destruct (H2 Hn) as [Hr Hg]. destruct (Hp (H1 ltac:(lia))) as (_ & Hr' & Hp'). split; [by apply Hr'|]. intros E. rewrite Hlog. apply elem_of_app. left. by apply Hg, Hp'.
  - rewrite Hlog. apply elem_of_app. left. by apply H3.
Qed.
(** Every thread that closes, and the stored result, tell the truth. *)
Definition truthful (c : conf) : Prop :=
  (forall k t, threads c !! k = Some t -> done_by (level t) c) /\ done_by (result_level (_close_result (st c))) c.

Lemma truthful_start : truthful start.
Proof.
  split; [|apply done_0]. intros k t H. cbn [start threads] in H. apply lookup_singleton_Some in H as [_ <-]. apply done_0.
Qed.

(** The point a thread reaches is one it had reached, one the stored result had
    reached, or the step did what the next point promises. *)
Lemma step_done a k t c r t' l : slots c -> truthful c -> threads c !! k = Some t -> step (accepting c) a t (st c) = Some (r, t', l) ->
  act (Go k a) c = Some (Conf r (<[k:=t']> (started l (threads c)))) -> done_by (level t') (Conf r (<[k:=t']> (started l (threads c)))).
Proof.
  intros Hs [Ht Hr] Hk Hst Hact. assert (forall n, done_by n c -> done_by n (Conf r (<[k:=t']> (started l (threads c))))) as Hkeep by (intros n; by eapply done_act).
  destruct (step_level _ _ _ _ _ _ _ Hst) as [H|[H|[(-> & Ha)|[(E & -> & Hrun & Hg)|(E & -> & He)]]]].
  - eapply done_le; [exact H|]. by eapply Hkeep, Ht.
  - eapply done_le; [exact H|]. by apply Hkeep.
  - apply Hkeep. split_and!; [done|lia|lia].
  - destruct (Hkeep _ (Ht _ _ Hk)) as (H1 & _). rewrite E in H1. split_and!; [intros _; by apply H1|done|lia].
  - destruct (Hkeep _ (Ht _ _ Hk)) as (H1 & H2 & _). rewrite E in H1, H2. split_and!; [intros _; apply H1; lia|intros _; apply H2; lia|done].
Qed.

Lemma act_truthful x c c' : slots c -> truthful c -> act x c = Some c' -> truthful c'.
Proof.
  intros Hs Hc Hact. pose proof Hc as [Ht Hr]. assert (forall n, done_by n c -> done_by n c') as Hkeep by (intros n; by eapply done_act).
  destruct x as [m|m o|code|k a]; pose proof Hact as Hact'; cbn in Hact.
  - injection Hact as <-. split; [|by apply Hkeep]. intros k t. cbn [threads]. intros [[_ <-]|[_ H]]%lookup_insert_Some; [apply done_0|]. by eapply Hkeep, Ht.
  - injection Hact as <-. split; [|by apply Hkeep]. intros k t. cbn [threads]. intros [[_ <-]|[_ H]]%lookup_insert_Some; [apply done_0|]. by eapply Hkeep, Ht.
  - destruct (running (st c)); [|done]. injection Hact as <-. split; [|by apply (Hkeep _ Hr)]. intros k t H. by eapply Hkeep, Ht.
  - destruct (threads c !! k) as [t|] eqn:Hk; [|done]. destruct (step (accepting c) a t (st c)) as [[[r t'] l]|] eqn:Hst; [|done]. injection Hact as <-.
    pose proof (step_done _ _ _ _ _ _ _ Hs Hc Hk Hst Hact') as Hd. split; cbn [st threads].
    + intros k' u. cbn [threads]. intros [[_ <-]|[_ Hu]]%lookup_insert_Some; [exact Hd|].
      apply started_lookup in Hu as [Hu|(a1 & a2 & a3 & -> & Hu)]; [by eapply Hkeep, Ht|].
      destruct (step_slot _ _ _ _ _ _ _ Hst) as (_ & _ & _ & _ & _ & _ & [|(_ & _ & [= -> -> ->])]); [done|]. destruct Hu as [[_ ->]|[[_ ->]|[_ ->]]]; apply done_0.
    + destruct (step_result _ _ _ _ _ _ _ Hst) as [->|H]; [by apply Hkeep|]. eapply done_le; [exact H|]. by eapply Hkeep, Ht.
Qed.

(** A close that reports success left nothing running.  When [close] has
    returned [True] to anybody, the accepting thread has ended, so no worker can be
    launched any more; the worker that was launched has exited and its gate was
    closed; and the endpoint and its directory are gone.  Each of these stays true
    whatever happens next. *)
Theorem clean_close_quiesces l c k messages : run_from l start = Some c -> threads c !! k = Some (Closed (true, messages)) ->
  accepting c = false /\ running (st c) = false /\ (_process (st c) <> None -> GateClosed ∈ log (st c)) /\ EndpointRemoved ∈ log (st c).
Proof.
  intros Hl Hk. assert (slots c /\ truthful c) as [_ [Ht _]].
  { revert Hl. apply (run_from_ind (fun c => slots c /\ truthful c)); [|split; [apply (rl_slots _ _ relays_start)|apply truthful_start]].
    intros x c1 c2 [Hs Hc] Hx. split; [by eapply act_slots|by eapply act_truthful]. }
  destruct (Ht _ _ Hk) as (H1 & H2 & H3). cbn [level] in *. destruct (H2 ltac:(lia)) as [Hr Hg]. split_and!; [apply H1; lia|done|done|apply H3; lia].
Qed.
End Reservation.

(** ** A worker that is attached, serves one request and is closed *)
Definition attach_dict : pydict :=
  [(str "v", JInt 1); (str "kind", JStr (str "attach")); (str "sessionId", JStr (zeros 32)); (str "workerId", JStr (zeros 32));
   (str "attachmentToken", JStr (zeros 64))].
Definition attach_frame : bytes := frame_of (JObj attach_dict).
Definition asked : bytes := frame_of (JObj hello_dict).
Definition answered_with : bytes := frame_of (JObj (answer_dict 1 (JObj identity_dict))).
Definition shown_text (e : exn) : pystr := match e with BrokerError m => m | _ => [] end.
Definition reserved (l : list action) : option conf := run_from 1000 shown_text 7 7 (zeros 32) (zeros 32) (zeros 64) l start.

(** A stranger is turned away first. *)
Definition attaching : list action :=
  [Go 0 Well; Go 0 (Candidate 8 [(false, attach_frame)] false); Go 0 Well; Go 0 (Candidate 7 [(false, take 9 attach_frame); (false, drop 9 attach_frame)] false);
   Go 0 (Says true); Go 0 Well; Go 0 Well; Go 0 Well; Go 0 Well; Go 0 Well].
Definition serving : list action :=
  attaching ++ [Go 1 (Chunk (take 9 asked)); Go 1 (Chunk (drop 9 asked)); Go 1 Well; Go 1 Well; Go 2 (Chunk answered_with); Go 2 Well; Go 2 Well].
Definition shutting : list action :=
  serving ++ [Close (str "released") None; Go 4 Well; Go 4 Well; Go 4 Well; Go 4 Well; Exits 0; Go 4 Well; Go 4 Well; Go 4 Well; Go 4 Well; Go 4 Well; Go 4 Well; Go 4 Well].
(** The client hangs up, and then the worker ends. *)
Definition hanging_up : list action :=
  serving ++ [Go 1 Eof; Go 1 Well; Go 1 Well; Exits (-9); Go 2 Eof; Go 2 Well; Go 2 (Exited (str "cancelled"))].

Definition exits (l : list note) : list (option pystr) := omap (fun n => match n with Event "worker.exited" reason _ => Some reason | _ => None end) l.

Lemma serving_runs : exists c, reserved serving = Some c /\ to_worker (log (st c)) = [asked] /\ to_client (log (st c)) = [answered_with] /\
  gate_notes (log (st c)) = [Attached attach_frame; Guarded; Launched; ToWorker asked].
Proof. eexists. split; [vm_compute; reflexivity|]. split_and!; vm_compute; reflexivity. Qed.

Lemma relay_exact_witness : exists c, reserved serving = Some c /\ asked `prefix_of` from_client (log (st c)).
Proof.
  destruct serving_runs as (c & Hc & Hw & _). exists c. split; [exact Hc|].
  pose proof (proj1 (proj1 (relay_exact _ _ _ _ _ _ _ _ _ Hc))) as H. rewrite Hw in H. cbn [concat] in H. rewrite app_nil_r in H. exact H.
Defined.

Lemma reservation_runs_flow_witness : exists c tr, reserved serving = Some c /\ broker.run 1000 tr (_flow (st c)) /\
  exists rest, Forall2 (asks 1000) ([asked] ++ rest) (requested tr).
Proof.
  destruct serving_runs as (c & Hc & Hw & _). destruct (reservation_runs_flow _ _ _ _ _ _ _ _ _ Hc) as (tr & Hr & Hq & _).
  rewrite Hw in Hq. exists c, tr. exact (conj Hc (conj Hr Hq)).
Defined.

Lemma launch_authentic_witness : exists c n, reserved serving = Some c /\
  authorized 1000 (zeros 32) (zeros 32) (zeros 64) n [Attached attach_frame; Guarded; Launched; ToWorker asked].
Proof.
  destruct serving_runs as (c & Hc & _ & _ & Hg). destruct (launch_authentic _ _ _ _ _ _ _ _ _ Hc) as [n Hn]. rewrite Hg in Hn.
  exists c, n. exact (conj Hc Hn).
Defined.

Lemma shutting_runs : exists c, reserved shutting = Some c /\ threads c !! 4%nat = Some (Closed (true, [])) /\ _process (st c) = Some (Some 0%Z).
Proof. eexists. split; [vm_compute; reflexivity|]. split; vm_compute; reflexivity. Qed.

Lemma clean_close_quiesces_witness : exists c, reserved shutting = Some c /\ GateClosed ∈ log (st c) /\ EndpointRemoved ∈ log (st c).
Proof.
  destruct shutting_runs as (c & Hc & Hk & Hp). destruct (clean_close_quiesces _ _ _ _ _ _ _ _ _ _ _ Hc Hk) as (_ & _ & Hg & He).
  exists c. split; [exact Hc|]. split; [apply Hg; rewrite Hp; discriminate|exact He].
Defined.

(** The exit of one worker can be told twice, with two reasons: the relay that
    reads the worker says so without asking whether [_fail] has. *)
Theorem exit_told_twice : exists c, reserved hanging_up = Some c /\
  exits (log (st c)) = [Some (str "client-failure"); Some (str "worker-failure")].
Proof. eexists. split; vm_compute; reflexivity. Qed.
End reservation.
