(* ===== verification/Canonical.v ===== *)
(** * Canonical JSON and SHA-256

    What the recovery code uses of the standard library: [json.dumps] with
    [sort_keys=True], [ensure_ascii=True] and compact separators, the default
    hooks of [json.loads], [hashlib.sha256(...).hexdigest()] and
    [str.splitlines].  The main results are that reading the canonical text of
    a value gives the value with its keys sorted, that sorting keeps every
    field, and that a digest is 64 lowercase hexadecimal characters. *)

From Stdlib Require Import ZArith Lia Sorted.
From stdpp Require Import base list gmap strings numbers.
From S2P Require Import Prelude PyJson JsonText.
#[local] Open Scope res_scope.

(** ** Sorted keys *)

(** [a <= b] on strings: by code points. *)
Fixpoint str_leb (a b : pystr) : bool :=
  match a, b with
  | [], _ => true
  | _ :: _, [] => false
  | x :: a', y :: b' => (x <? y)%N || ((x =? y)%N && str_leb a' b')
  end.

Fixpoint dinsert (kv : pystr * json) (d : pydict) : pydict :=
  match d with
  | [] => [kv]
  | kv' :: d' => if str_leb kv.1 kv'.1 then kv :: d else kv' :: dinsert kv d'
  end.

Definition dsort (d : pydict) : pydict := fold_right dinsert [] d.

(** The value [json.dumps(v, sort_keys=True)] writes. *)
Fixpoint sort_json (v : json) : json :=
  match v with
  | JArr l => JArr (map sort_json l)
  | JObj d => JObj (dsort (map (fun kv => (kv.1, sort_json kv.2)) d))
  | _ => v
  end.

(** [json.dumps(v, ensure_ascii=True, separators=(",", ":"), sort_keys=True).encode("ascii")]:
    all the code points written are ASCII, so they are the bytes. *)
Definition canonical (v : json) : bytes := dumps true (sort_json v).

Lemma dinsert_perm kv d : dinsert kv d ≡ₚ kv :: d.
Proof.
  induction d as [|kv' d IH]; simpl; [done|]. destruct (str_leb _ _); [done|]. rewrite IH. apply Permutation_swap.
Qed.

Lemma dsort_perm d : dsort d ≡ₚ d.
Proof. induction d as [|kv d IH]; simpl; [done|]. by rewrite dinsert_perm, IH. Qed.

Lemma dkeys_dsort d : dkeys (dsort d) ≡ₚ dkeys d.
Proof. unfold dkeys. by rewrite dsort_perm. Qed.

(** Sorting is invisible to a dictionary's readers. *)
Lemma dget_dsort k d : NoDup (dkeys d) -> dget k (dsort d) = dget k d.
Proof.
  intros Hd. assert (NoDup (dkeys (dsort d))) as Hd' by by rewrite dkeys_dsort.
  destruct (dget k d) as [v|] eqn:E.
  - apply dget_nodup; [done|]. rewrite dsort_perm. by apply dget_Some_in.
  - apply dget_None. rewrite dkeys_dsort. by apply dget_None.
Qed.

Lemma dkeys_map (f : json -> json) d : dkeys (map (fun kv => (kv.1, f kv.2)) d) = dkeys d.
Proof. induction d as [|kv d IH]; [done|]. cbn [map dkeys fmap list_fmap]. by f_equal. Qed.

Lemma dget_map (f : json -> json) k d : dget k (map (fun kv => (kv.1, f kv.2)) d) = f <$> dget k d.
Proof. induction d as [|[k' v] d IH]; simpl; [done|]. by case_bool_decide. Qed.

Lemma dget_sort_json k d :
  NoDup (dkeys d) -> dget k (dsort (map (fun kv => (kv.1, sort_json kv.2)) d)) = sort_json <$> dget k d.
Proof. intros Hd. rewrite dget_dsort by by rewrite dkeys_map. apply dget_map. Qed.

(** *** The sorted form is unique *)
Lemma str_leb_total a b : str_leb a b = true \/ str_leb b a = true.
Proof.
  revert b. induction a as [|x a IH]; intros [|y b]; simpl; auto. rewrite !orb_true_iff, !andb_true_iff, !N.ltb_lt, !N.eqb_eq.
  destruct (N.lt_trichotomy x y) as [?|[->|?]]; auto. destruct (IH b); auto.
Qed.

Lemma str_leb_antisym a b : str_leb a b = true -> str_leb b a = true -> a = b.
Proof.
  revert b. induction a as [|x a IH]; intros [|y b]; simpl; try done.
  rewrite !orb_true_iff, !andb_true_iff, !N.ltb_lt, !N.eqb_eq.
  intros [?|[-> ?]] [?|[? ?]]; try lia. f_equal. auto.
Qed.

Lemma str_leb_trans a b c : str_leb a b = true -> str_leb b c = true -> str_leb a c = true.
Proof.
  revert b c. induction a as [|x a IH]; intros [|y b] [|z c]; simpl; try done.
  rewrite !orb_true_iff, !andb_true_iff, !N.ltb_lt, !N.eqb_eq.
  intros [?|[-> ?]] [?|[-> ?]]; try (left; lia). right. split; [done|]. eauto.
Qed.

Definition key_le (a b : pystr * json) : Prop := str_leb a.1 b.1 = true.

Lemma dinsert_sorted kv d : StronglySorted key_le d -> StronglySorted key_le (dinsert kv d).
Proof.
  induction 1 as [|kv' d Hd IH Hf]; simpl; [repeat constructor|].
  destruct (str_leb kv.1 kv'.1) eqn:E.
  - constructor; [by constructor|]. constructor; [done|]. eapply Forall_impl; [|exact Hf].
    intros x Hx. unfold key_le in *. by eapply str_leb_trans.
  - constructor; [done|]. rewrite dinsert_perm. constructor; [|done].
    unfold key_le. destruct (str_leb_total kv.1 kv'.1); congruence.
Qed.

Lemma dsort_sorted d : StronglySorted key_le (dsort d).
Proof. induction d; simpl; [constructor|]. by apply dinsert_sorted. Qed.

(** [sorted(l)] for a list of strings. *)
Fixpoint insert_name (n : pystr) (l : list pystr) : list pystr :=
  match l with [] => [n] | m :: l' => if str_leb n m then n :: l else m :: insert_name n l' end.
Definition sort_names (l : list pystr) : list pystr := fold_right insert_name [] l.

Definition name_le (a b : pystr) : Prop := str_leb a b = true.

Lemma insert_name_perm n l : insert_name n l ≡ₚ n :: l.
Proof. induction l as [|m l IH]; simpl; [done|]. destruct (str_leb n m); [done|]. rewrite IH. apply Permutation_swap. Qed.

Lemma sort_names_perm l : sort_names l ≡ₚ l.
Proof. induction l as [|n l IH]; simpl; [done|]. by rewrite insert_name_perm, IH. Qed.

Lemma insert_name_sorted n l : StronglySorted name_le l -> StronglySorted name_le (insert_name n l).
Proof.
  induction 1 as [|m l Hl IH Hf]; simpl; [repeat constructor|]. destruct (str_leb n m) eqn:E.
  - constructor; [by constructor|]. constructor; [done|]. eapply Forall_impl; [|exact Hf].
    intros x Hx. unfold name_le in *. by eapply str_leb_trans.
  - constructor; [done|]. rewrite insert_name_perm. constructor; [|done]. unfold name_le. destruct (str_leb_total n m); congruence.
Qed.

Lemma sort_names_sorted l : StronglySorted name_le (sort_names l).
Proof. induction l; simpl; [constructor|]. by apply insert_name_sorted. Qed.

Lemma sort_names_id l : StronglySorted name_le l -> sort_names l = l.
Proof.
  induction 1 as [|n l Hl IH Hf]; [done|]. cbn [sort_names fold_right]. fold (sort_names l). rewrite IH. destruct l as [|m l]; [done|].
  cbn. apply Forall_inv in Hf. unfold name_le in Hf. by rewrite Hf.
Qed.

Lemma nodup_same_key (d : pydict) a b : NoDup (dkeys d) -> a ∈ d -> b ∈ d -> a.1 = b.1 -> a = b.
Proof.
  intros Hd Ha Hb E. destruct a as [k v], b as [k' w]. simpl in E. subst k'.
  apply (dget_nodup _ _ _ Hd) in Ha, Hb. congruence.
Qed.

Lemma sorted_unique d e :
  NoDup (dkeys d) -> StronglySorted key_le d -> StronglySorted key_le e -> d ≡ₚ e -> d = e.
Proof.
  intros Hn Hd. revert e. induction Hd as [|a d Hd IH Hf]; intros e He Hp; [by apply Permutation_nil_l in Hp|].
  destruct e as [|b e]; [by apply Permutation_nil_r in Hp|].
  assert (a = b) as <-.
  { assert (a ∈ b :: e) as Ha by (rewrite <- Hp; left). assert (b ∈ a :: d) as Hb by (rewrite Hp; left).
    apply (nodup_same_key (a :: d)); [done|left|done|].
    apply StronglySorted_inv in He as [_ He]. rewrite list.Forall_forall in Hf, He.
    apply elem_of_cons in Ha as [->|Ha]; [done|]. apply elem_of_cons in Hb as [->|Hb]; [done|].
    apply str_leb_antisym; [by apply Hf|by apply He]. }
  f_equal. apply IH; [by apply list.NoDup_cons in Hn as [_ ?]|by apply StronglySorted_inv in He as [? _]|].
  by apply Permutation_cons_inv in Hp.
Qed.

Lemma dsort_permute d e : NoDup (dkeys d) -> d ≡ₚ e -> dsort d = dsort e.
Proof.
  intros Hd Hp. apply sorted_unique; [by rewrite dkeys_dsort|apply dsort_sorted..|]. by rewrite !dsort_perm.
Qed.

(** A property of nodes that does not depend on the order of keys or on the
    values below survives sorting. *)
Lemma sort_json_nodes (P : json -> Prop) v :
  (forall w, P w -> P (match w with JObj d => JObj (dsort (map (fun kv => (kv.1, sort_json kv.2)) d))
                                  | JArr l => JArr (map sort_json l) | _ => w end)) ->
  Forall P (subvalues v) -> Forall P (subvalues (sort_json v)).
Proof.
  intros HP. induction v as [|b|z|r|s|l IH|d IH] using json_nested_ind; intros Hn; try done;
    rewrite subvalues_children in Hn; apply list.Forall_cons in Hn as [Hv Hn];
    rewrite subvalues_children; (constructor; [exact (HP _ Hv)|]); apply nodes_flat_map in Hn as [_ Hn];
    apply list.Forall_forall; intros w Hw; apply list_elem_of_In, in_flat_map in Hw as (x & Hx & Hw);
    apply list_elem_of_In in Hx, Hw; rewrite list.Forall_forall in IH; cbn [sort_json children] in Hx, Hn.
  - apply list_elem_of_fmap in Hx as (y & -> & Hy). specialize (IH y Hy (Hn y Hy)).
    rewrite list.Forall_forall in IH. auto.
  - rewrite dsort_perm in Hx. apply list_elem_of_fmap in Hx as (kv & -> & Hkv).
    apply list_elem_of_fmap in Hkv as (kv' & -> & Hkv). simpl in Hw.
    specialize (IH kv' Hkv (Hn _ (list_elem_of_fmap_2 snd _ _ Hkv))). rewrite list.Forall_forall in IH. auto.
Qed.

Lemma sort_json_rt h v : Forall (node_rt h) (subvalues v) -> Forall (node_rt h) (subvalues (sort_json v)).
Proof.
  apply sort_json_nodes. intros w Hw. destruct w; try done. simpl in *. by rewrite dkeys_dsort, dkeys_map.
Qed.

Lemma sort_json_text v : Forall text_node (subvalues v) -> Forall text_node (subvalues (sort_json v)).
Proof.
  apply sort_json_nodes. intros w Hw. destruct w; try done. simpl in *. by rewrite dkeys_dsort, dkeys_map.
Qed.

Lemma sort_json_depth v n : (json_depth v <= n)%Z -> (json_depth (sort_json v) <= n)%Z.
Proof.
  revert n. induction v as [|b|z|r|s|l IH|d IH] using json_nested_ind; intros n Hn; try done;
    pose proof (Z.le_trans _ _ _ (json_depth_nonneg _) Hn) as H0;
    apply json_depth_le in Hn; try done; apply json_depth_le; try done; cbn [sort_json children] in *;
    rewrite list.Forall_forall in IH; rewrite list.Forall_forall in Hn; apply list.Forall_forall.
  - intros c Hc. apply list_elem_of_fmap in Hc as (x & -> & Hx). specialize (Hn x Hx).
    specialize (IH x Hx (n - 1)%Z). lia.
  - intros c Hc. rewrite dsort_perm in Hc. apply list_elem_of_fmap in Hc as (kv & -> & Hkv).
    apply list_elem_of_fmap in Hkv as (kv' & -> & Hkv). simpl.
    specialize (Hn _ (list_elem_of_fmap_2 snd _ _ Hkv)). specialize (IH kv' Hkv (n - 1)%Z). lia.
Qed.

(** Sorting twice is sorting once, and removing a field commutes with it. *)
Lemma sort_json_idem v : wf_json v -> sort_json (sort_json v) = sort_json v.
Proof.
  unfold wf_json. induction v as [|b|z|r|s|l IH|d IH] using json_nested_ind; intros Hn; try done;
    rewrite subvalues_children in Hn; apply list.Forall_cons in Hn as [Hv Hn]; apply nodes_flat_map in Hn as [_ Hn];
    rewrite list.Forall_forall in IH; cbn [sort_json].
  - f_equal. rewrite List.map_map. apply map_ext_in. intros x Hx%list_elem_of_In. auto.
  - f_equal. simpl in Hv. set (m := map (fun kv => (kv.1, sort_json kv.2)) d).
    assert (map (fun kv => (kv.1, sort_json kv.2)) m = m) as Hm.
    { subst m. rewrite List.map_map. apply map_ext_in. intros kv Hkv%list_elem_of_In. simpl.
      rewrite IH; [done|done|]. apply Hn. by apply list_elem_of_fmap_2. }
    symmetry. rewrite <- Hm at 1. apply dsort_permute; [by rewrite Hm; unfold m; rewrite dkeys_map|].
    apply Permutation_map. by rewrite dsort_perm.
Qed.

Lemma ddel_map (f : json -> json) k d : ddel k (map (fun kv => (kv.1, f kv.2)) d) = map (fun kv => (kv.1, f kv.2)) (ddel k d).
Proof.
  unfold ddel. induction d as [|kv d IH]; [done|]. cbn [map]. rewrite !filter_cons. simpl.
  destruct (decide (kv.1 <> k)); cbn [map]; by rewrite IH.
Qed.

Lemma dkeys_ddel k d : dkeys (ddel k d) = filter (fun x => x <> k) (dkeys d).
Proof.
  unfold ddel, dkeys. induction d as [|kv d IH]; [done|]. rewrite filter_cons. cbn [fmap list_fmap]. rewrite filter_cons.
  destruct (decide (kv.1 <> k)); cbn [fmap list_fmap]; by rewrite IH.
Qed.

Lemma wf_children d : wf_json (JObj d) -> NoDup (dkeys d) /\ forall kv, kv ∈ d -> wf_json kv.2.
Proof.
  unfold wf_json. rewrite subvalues_children. intros [Hv Hn]%list.Forall_cons. split; [done|].
  apply nodes_flat_map in Hn as [_ Hn]. intros kv Hkv. apply Hn. by apply list_elem_of_fmap_2.
Qed.

(** The canonical text does not depend on the order of keys: a record read back
    from its canonical text has the same canonical text, also without one of
    its fields. *)
Lemma canonical_ddel_sorted k d :
  wf_json (JObj d) ->
  canonical (JObj (ddel k (dsort (map (fun kv => (kv.1, sort_json kv.2)) d)))) = canonical (JObj (ddel k d)).
Proof.
  intros Hw. destruct (wf_children d Hw) as [Hn Hc]. unfold canonical. f_equal. cbn [sort_json]. f_equal.
  rewrite <- !ddel_map. apply dsort_permute.
  - rewrite dkeys_ddel, dkeys_map, dkeys_dsort, dkeys_map. by apply list.NoDup_filter.
  - unfold ddel. apply filter_Permutation. rewrite dsort_perm, List.map_map. erewrite map_ext_in; [done|].
    intros kv Hkv%list_elem_of_In. simpl. by rewrite sort_json_idem by by apply Hc.
Qed.

(** ** The default hooks *)

Lemma dec_digits_fuel_length fuel n : (length (dec_digits_fuel fuel n) <= fuel)%nat.
Proof.
  revert n. induction fuel as [|fuel IH]; intros n; simpl; [lia|]. destruct (n <? 10)%N; simpl; [lia|].
  rewrite length_app. specialize (IH (n / 10)%N). simpl. lia.
Qed.

(** A 64-bit integer is far from the limit. *)
Lemma dec_digits_length n : (n < 2 ^ 64)%N -> (zlen (dec_digits n) <= 4300)%Z.
Proof.
  intros Hn. unfold zlen, dec_digits. pose proof (dec_digits_fuel_length (S (N.to_nat (N.size n))) n).
  assert (N.size n <= 64)%N; [|lia]. destruct (decide (n = 0)%N) as [->|Hz]; [simpl; lia|].
  rewrite N.size_log2 by done. assert (N.log2 n < 64)%N; [|lia]. apply N.log2_lt_pow2; lia.
Qed.

Lemma int_token_repr z : (Z.abs z < 2 ^ 64)%Z -> int_token (int_repr z) = Ok (JInt z).
Proof.
  intros Hz. unfold int_token, int_repr. destruct (Z.ltb_spec z 0) as [Hneg|Hpos].
  - change (45 =? 45)%N with true. cbv iota.
    destruct (Z.ltb_spec 4300 (zlen (dec_digits (Z.to_N (- z))))) as [Hl|_].
    { pose proof (dec_digits_length (Z.to_N (- z)) ltac:(lia)). lia. }
    cbn [raise_if rbind]. rewrite dec_digits_value. do 2 f_equal. lia.
  - destruct (dec_digits_canonical (Z.to_N z)) as [E|(c & r & E & Hc & _)].
    + pose proof (dec_digits_value (Z.to_N z)) as Hv. rewrite E in *. change (digits_value [48]%N) with 0%N in Hv.
      assert (z = 0)%Z as -> by lia. done.
    + pose proof (dec_digits_value (Z.to_N z)) as Hv. pose proof (dec_digits_length (Z.to_N z) ltac:(lia)) as Hl.
      rewrite E in *. destruct (N.eqb_spec c 45) as [->|_]; [lia|].
      destruct (Z.ltb_spec 4300 (zlen (c :: r))); [lia|]. cbn [raise_if rbind]. rewrite Hv. do 2 f_equal. lia.
Qed.

(** The default float hook keeps the token; a float has no contract here, so
    only that it is one matters. *)
Definition default_hooks (dup : exn) : json_hooks := {|
  object_pairs_hook := unique_pairs dup;
  parse_int := int_token;
  parse_float := fun t => Ok (JFloat t);
  parse_constant := fun t => Ok (JFloat t) |}.

(** Reading the canonical text gives the value with its keys sorted. *)
Lemma loads_canonical dup depth v :
  (json_depth v < Z.of_nat depth)%Z -> Forall (node_rt (default_hooks dup)) (subvalues v) ->
  loads (default_hooks dup) depth (canonical v) = Ok (sort_json v).
Proof.
  intros Hd Hn. apply loads_dumps; [apply unique_pairs_nodup| |by apply sort_json_rt].
  assert (json_depth (sort_json v) <= json_depth v)%Z; [by apply sort_json_depth|lia].
Qed.

(** Canonical text is printable ASCII, so its code points are its bytes. *)
Definition printable (c : N) : Prop := (32 <= c < 128)%N.

Lemma hex_digit_printable n : (n < 16)%N -> printable (hex_digit n).
Proof. unfold hex_digit, printable. destruct (N.ltb_spec n 10); lia. Qed.

Lemma hex4_digits_printable c : (c < 65536)%N -> Forall printable (hex4_digits c).
Proof.
  intros Hc. unfold hex4_digits.
  apply List.Forall_cons; [apply hex_digit_printable, N.Div0.div_lt_upper_bound; lia|].
  do 3 (apply List.Forall_cons; [apply hex_digit_printable, N.mod_lt; lia|]). constructor.
Qed.

Lemma escape_u_printable c : (c < 65536)%N -> Forall printable ([92; 117]%N ++ hex4_digits c).
Proof. intros Hc. do 2 (constructor; [unfold printable; lia|]). by apply hex4_digits_printable. Qed.

Lemma escape_ascii_printable c : is_scalar c = true -> Forall printable (escape_char_ascii c).
Proof.
  intros Hs%is_scalar_spec. unfold escape_char_ascii. destruct (N.ltb_spec c 127).
  - pose proof (escape_u_printable c ltac:(lia)) as Hu. unfold escape_char.
    generalize dependent ([92; 117]%N ++ hex4_digits c). intros u Hu.
    assert (forall x, (32 <= x < 128)%N -> printable x) as Hp by done.
    case_bool_decide as Hq.
    { rewrite !elem_of_cons, elem_of_nil in Hq. repeat apply List.Forall_cons; [apply Hp; lia|apply Hp; naive_solver lia|constructor]. }
    repeat match goal with |- context [(c =? ?k)%N] => destruct (c =? k)%N; [repeat apply List.Forall_cons; [apply Hp; lia..|constructor]|] end.
    destruct (N.ltb_spec c 32); [done|]. apply List.Forall_cons; [apply Hp; lia|constructor].
  - destruct (N.ltb_spec c 0x10000); [by apply escape_u_printable|].
    pose proof (N.mod_lt (c - 0x10000) 1024 ltac:(lia)).
    assert ((c - 0x10000) / 1024 < 1024)%N by (apply N.Div0.div_lt_upper_bound; lia).
    rewrite app_assoc. apply Forall_app. split; apply escape_u_printable; lia.
Qed.

Lemma canonical_printable v : Forall text_node (subvalues v) -> Forall printable (canonical v).
Proof.
  intros Hv. apply dumps_chars; [done|apply escape_ascii_printable|by apply sort_json_text].
Qed.

(** ** [json.loads] on bytes

    Bytes are decoded with [detect_encoding] and the [surrogatepass] handler
    first: UTF-8, UTF-16 or UTF-32, by byte-order mark or by the position of
    the zero bytes; lone surrogates are let through. *)
Fixpoint utf8_pass (bs : bytes) : option pystr :=
  match bs with
  | [] => Some []
  | b :: r =>
    if (b <? 0x80)%N then (s ← utf8_pass r; Some (b :: s))%stdpp
    else if (b <? 0xC2)%N then None
    else if (b <? 0xE0)%N then
      match r with
      | b1 :: r1 => (x1 ← cont_byte b1; s ← utf8_pass r1; Some ((b - 0xC0) * 64 + x1 :: s)%N)%stdpp
      | _ => None
      end
    else if (b <? 0xF0)%N then
      match r with
      | b1 :: b2 :: r2 =>
        (x1 ← cont_byte b1; x2 ← cont_byte b2;
         let c := ((b - 0xE0) * 4096 + x1 * 64 + x2)%N in
         if (c <? 0x800)%N then None else s ← utf8_pass r2; Some (c :: s))%stdpp
      | _ => None
      end
    else if (b <? 0xF5)%N then
      match r with
      | b1 :: b2 :: b3 :: r3 =>
        (x1 ← cont_byte b1; x2 ← cont_byte b2; x3 ← cont_byte b3;
         let c := ((b - 0xF0) * 262144 + x1 * 4096 + x2 * 64 + x3)%N in
         if (c <? 0x10000)%N || (0x10FFFF <? c)%N then None else s ← utf8_pass r3; Some (c :: s))%stdpp
      | _ => None
      end
    else None
  end.

(** The 16-bit units of a byte string, in either order. *)
Fixpoint units16 (big : bool) (bs : bytes) : option (list N) :=
  match bs with
  | [] => Some []
  | a :: b :: r => (s ← units16 big r; Some ((if big then a * 256 + b else b * 256 + a) :: s)%N)%stdpp
  | _ => None
  end.

Fixpoint join16 (us : list N) : pystr :=
  match us with
  | h :: ((l :: r) as t) =>
    if is_high_surrogate h && is_low_surrogate l
    then (0x10000 + (h - 0xD800) * 1024 + (l - 0xDC00))%N :: join16 r
    else h :: join16 t
  | [h] => [h]
  | [] => []
  end.

Definition utf16_pass (big : bool) (bs : bytes) : option pystr := join16 <$> units16 big bs.

Fixpoint utf32_pass (big : bool) (bs : bytes) : option pystr :=
  match bs with
  | [] => Some []
  | a :: b :: c :: d :: r =>
    let u := (if big then ((a * 256 + b) * 256 + c) * 256 + d else ((d * 256 + c) * 256 + b) * 256 + a)%N in
    if (0x10FFFF <? u)%N then None else (s ← utf32_pass big r; Some (u :: s))%stdpp
  | _ => None
  end.

Definition decode_json_bytes (b : bytes) : option pystr :=
  if starts_with [0; 0; 254; 255]%N b then utf32_pass true (drop 4 b)
  else if starts_with [255; 254; 0; 0]%N b then utf32_pass false (drop 4 b)
  else if starts_with [254; 255]%N b then utf16_pass true (drop 2 b)
  else if starts_with [255; 254]%N b then utf16_pass false (drop 2 b)
  else if starts_with [239; 187; 191]%N b then utf8_pass (drop 3 b)
  else match b with
  | b0 :: b1 :: b2 :: b3 :: _ =>
    if (b0 =? 0)%N then if (b1 =? 0)%N then utf32_pass true b else utf16_pass true b
    else if (b1 =? 0)%N then if (b2 =? 0)%N && (b3 =? 0)%N then utf32_pass false b else utf16_pass false b
    else utf8_pass b
  | [b0; b1] =>
    if (b0 =? 0)%N then utf16_pass true b else if (b1 =? 0)%N then utf16_pass false b else utf8_pass b
  | _ => utf8_pass b
  end.

Lemma utf8_pass_ascii s : Forall (fun c => (c < 128)%N) s -> utf8_pass s = Some s.
Proof. induction 1 as [|c s Hc _ IH]; [done|]. simpl. rewrite (proj2 (N.ltb_lt _ _) Hc), IH. done. Qed.

(** Text without zero bytes or bytes past ASCII is read as it is. *)
Lemma decode_json_ascii s : Forall (fun c => (0 < c < 128)%N) s -> decode_json_bytes s = Some s.
Proof.
  intros Hs. assert (utf8_pass s = Some s) as Hu.
  { apply utf8_pass_ascii. eapply Forall_impl; [|exact Hs]. simpl. lia. }
  assert (forall m r, (m = 0 \/ 128 <= m)%N -> starts_with (m :: r) s = false) as Hm.
  { intros m r Hm. destruct s as [|c s]; [done|]. cbn [starts_with].
    apply Forall_cons_1 in Hs as [Hc _]. destruct (N.eqb_spec m c); [lia|done]. }
  unfold decode_json_bytes. rewrite !Hm by lia. clear Hm.
  assert (forall c, c ∈ s -> (c =? 0)%N = false) as Hz.
  { intros c Hc. rewrite list.Forall_forall in Hs. apply Hs in Hc. apply N.eqb_neq. lia. }
  destruct s as [|b0 [|b1 [|b2 [|b3 r]]]]; try done; rewrite !Hz; try done; repeat first [left|right].
Qed.

(** ** SHA-256 *)

Definition w32 (n : N) : N := (n mod 0x100000000)%N.
Definition add32 (a b : N) : N := w32 (a + b).
Definition rotr (k w : N) : N := N.lor (N.shiftr w k) (w32 (N.shiftl w (32 - k))).
Definition not32 (w : N) : N := N.lxor w 0xFFFFFFFF.

(** The constants are the first 32 fractional bits of the cube roots of the
    first 64 primes and of the square roots of the first 8. *)
Fixpoint cube_root_bits (bits : nat) (root n : N) : N :=
  match bits with
  | O => root
  | S b =>
    let next := (root + 2 ^ N.of_nat b)%N in
    cube_root_bits b (if (next * next * next <=? n)%N then next else root) n
  end.

Definition is_prime (n : N) : bool :=
  forallb (fun d => negb (n mod (N.of_nat d) =? 0)%N) (seq 2 (N.to_nat (N.sqrt n) - 1)).

Definition primes : list N := Eval vm_compute in filter (fun n => is_prime n = true) (map N.of_nat (seq 2 310)).

Definition K256 : list N := Eval vm_compute in map (fun p => w32 (cube_root_bits 36 0 (p * 2 ^ 96))) primes.

Definition root_word (p : N) : N := w32 (N.sqrt (p * 2 ^ 64)).

Record sha_state : Type := Sha { sa : N; sb : N; sc : N; sd : N; se : N; sf : N; sg : N; sh : N }.

Definition sha_init : sha_state :=
  Sha (root_word 2) (root_word 3) (root_word 5) (root_word 7)
      (root_word 11) (root_word 13) (root_word 17) (root_word 19).

Definition sha_round (s : sha_state) (kw : N) : sha_state :=
  let S1 := N.lxor (N.lxor (rotr 6 (se s)) (rotr 11 (se s))) (rotr 25 (se s)) in
  let ch := N.lxor (N.land (se s) (sf s)) (N.land (not32 (se s)) (sg s)) in
  let t1 := add32 (add32 (add32 (sh s) S1) ch) kw in
  let S0 := N.lxor (N.lxor (rotr 2 (sa s)) (rotr 13 (sa s))) (rotr 22 (sa s)) in
  let maj := N.lxor (N.lxor (N.land (sa s) (sb s)) (N.land (sa s) (sc s))) (N.land (sb s) (sc s)) in
  let t2 := add32 S0 maj in
  Sha (add32 t1 t2) (sa s) (sb s) (sc s) (add32 (sd s) t1) (se s) (sf s) (sg s).

(** The message schedule, latest word first. *)
Fixpoint schedule (n : nat) (w : list N) : list N :=
  match n with
  | O => w
  | S n =>
    let x15 := nth 14 w 0%N in let x2 := nth 1 w 0%N in
    let s0 := N.lxor (N.lxor (rotr 7 x15) (rotr 18 x15)) (N.shiftr x15 3) in
    let s1 := N.lxor (N.lxor (rotr 17 x2) (rotr 19 x2)) (N.shiftr x2 10) in
    schedule n (add32 (add32 (nth 15 w 0%N) s0) (add32 (nth 6 w 0%N) s1) :: w)
  end.

Definition sha_block (s : sha_state) (block : list N) : sha_state :=
  let w := rev (schedule 48 (rev block)) in
  let r := fold_left sha_round (zip_with add32 K256 w) s in
  Sha (add32 (sa s) (sa r)) (add32 (sb s) (sb r)) (add32 (sc s) (sc r)) (add32 (sd s) (sd r))
      (add32 (se s) (se r)) (add32 (sf s) (sf r)) (add32 (sg s) (sg r)) (add32 (sh s) (sh r)).

(** Big-endian words of a byte string. *)
Fixpoint words (b : bytes) : list N :=
  match b with
  | x0 :: x1 :: x2 :: x3 :: r => (((x0 * 256 + x1) * 256 + x2) * 256 + x3)%N :: words r
  | _ => []
  end.

Fixpoint sha_blocks (fuel : nat) (s : sha_state) (w : list N) : sha_state :=
  match fuel, w with
  | S fuel, _ :: _ => sha_blocks fuel (sha_block s (take 16 w)) (drop 16 w)
  | _, _ => s
  end.

Fixpoint be_bytes (n : nat) (v : N) : bytes :=
  match n with O => [] | S n => be_bytes n (v / 256) ++ [v mod 256]%N end.

Definition sha_pad (m : bytes) : bytes :=
  let len := N.of_nat (length m) in
  m ++ [128]%N ++ replicate (N.to_nat ((119 - len mod 64) mod 64)) 0%N ++ be_bytes 8 (8 * len)%N.

Definition word_hex (w : N) : pystr :=
  map (fun k => hex_digit (N.land (N.shiftr w (4 * k)) 15)) [7; 6; 5; 4; 3; 2; 1; 0]%N.

(** [hashlib.sha256(m).hexdigest()] *)
Definition sha256_hex (m : bytes) : pystr :=
  let p := sha_pad m in
  let s := sha_blocks (length p) sha_init (words p) in
  flat_map word_hex [sa s; sb s; sc s; sd s; se s; sf s; sg s; sh s].

Example sha256_abc :
  sha256_hex (str "abc") = str "ba7816bf8f01cfea414140de5dae2223b00361a396177a9cb410ff61f20015ad".
Proof. vm_compute. reflexivity. Qed.

Example sha256_two_blocks :
  sha256_hex (str "abcdbcdecdefdefgefghfghighijhijkijkljklmklmnlmnomnopnopq")
  = str "248d6a61d20638b8e5c026930c3e6039a33ce45964ff2167f6ecedd419db06c1".
Proof. vm_compute. reflexivity. Qed.

Lemma hex_digit_lower n : (n < 16)%N -> is_lower_hex (hex_digit n) = true.
Proof.
  intros H. unfold hex_digit, is_lower_hex, is_digit, in_range. destruct (N.ltb_spec n 10).
  - apply orb_true_iff. left. apply andb_true_iff. rewrite !N.leb_le. lia.
  - apply orb_true_iff. right. apply andb_true_iff. rewrite !N.leb_le. lia.
Qed.

Lemma word_hex_lower w : Forall (fun c => is_lower_hex c = true) (word_hex w).
Proof.
  unfold word_hex. apply List.Forall_map, list.Forall_forall. intros k _. apply hex_digit_lower.
  change 15%N with (N.ones 4). rewrite N.land_ones. by apply N.mod_lt.
Qed.

(** A digest has 64 lowercase hexadecimal characters. *)
Lemma sha256_hex_match m : match_hex 64 (sha256_hex m) = true.
Proof.
  unfold match_hex, sha256_hex. apply andb_true_iff. split; [reflexivity|].
  apply forallb_forall. intros c Hc. apply in_flat_map in Hc as (w & _ & Hc).
  pose proof (word_hex_lower w) as Hw. rewrite list.Forall_forall in Hw. apply Hw. by apply list_elem_of_In.
Qed.

Definition scalars (s : pystr) : Prop := Forall (fun c => is_scalar c = true) s.
Lemma match_hex_scalars n s : match_hex n s = true -> scalars s.
Proof.
  intros [_ H]%andb_true_iff. apply list.Forall_forall. intros c Hc. rewrite forallb_forall in H.
  specialize (H c (proj1 (list_elem_of_In _ _) Hc)). assert (c <= 102)%N as Hle.
  { apply orb_true_iff in H as [H|H]; apply andb_true_iff in H as [_ H]; apply N.leb_le in H; lia. }
  unfold is_scalar, is_surrogate. apply andb_true_iff. split; [apply N.leb_le; lia|]. apply negb_true_iff, andb_false_iff. left. apply N.leb_gt. lia.
Qed.

(** ** Values read are well formed *)

Lemma unique_pairs_Ok dup items v : unique_pairs dup items = Ok v -> v = JObj items /\ NoDup (dkeys items).
Proof.
  unfold unique_pairs. intros H. inv_res.
  assert (forall acc d, NoDup (dkeys acc) ->
    fold_res (fun result kv => raise_if (dmem kv.1 result) dup ;; Ok (dset kv.1 kv.2 result)) items acc = Ok d ->
    d = acc ++ items /\ NoDup (dkeys d)) as Hf.
  { clear. induction items as [|[k w] items IH]; intros acc d Hn Hd; cbn [fold_res] in Hd.
    - inv_res. by rewrite app_nil_r.
    - inv_res. cbn [fst snd] in *. match goal with H : dmem _ _ = false |- _ => apply not_true_iff_false in H; rewrite dmem_true in H; rename H into Hk end.
      rewrite dkeys_dset_new in * by done. match goal with H : fold_res _ _ _ = _ |- _ => apply IH in H as [-> ?] end.
      + split; [by rewrite <- app_assoc|done].
      + unfold dkeys. rewrite fmap_app. apply list.NoDup_app. split_and!; [done| |apply NoDup_singleton].
        intros y Hy ->%list_elem_of_singleton. done. }
  match goal with H : fold_res _ _ _ = _ |- _ => apply Hf in H as [-> ?]; [done|constructor] end.
Qed.

Lemma wf_arr l : wf_json (JArr l) <-> Forall wf_json l.
Proof.
  unfold wf_json. rewrite subvalues_children, list.Forall_cons. cbn [children]. split.
  - intros [_ H]. apply nodes_flat_map in H as [_ H]. by apply list.Forall_forall.
  - intros H. split; [done|]. apply list.Forall_forall. intros y Hy.
    apply list_elem_of_In, in_flat_map in Hy as (x & Hx & Hy). rewrite list.Forall_forall in H.
    specialize (H x (proj2 (list_elem_of_In _ _) Hx)). rewrite list.Forall_forall in H. apply H. by apply list_elem_of_In.
Qed.

Lemma wf_obj d : wf_json (JObj d) <-> NoDup (dkeys d) /\ Forall wf_json d.*2.
Proof.
  unfold wf_json at 1. rewrite subvalues_children, list.Forall_cons. cbn [children dict_ok].
  pose proof (wf_arr d.*2) as Ha. unfold wf_json at 1 in Ha. rewrite subvalues_children, list.Forall_cons in Ha.
  cbn [children dict_ok] in Ha. tauto.
Qed.

Section ReadWf.
Context (dup : exn).
Let h := default_hooks dup.

Definition scans_wf (scan : pystr -> res (json * pystr)) : Prop := forall s v r, scan s = Ok (v, r) -> wf_json v.

Lemma scan_members_wf scan fuel s acc v r :
  scans_wf scan -> Forall wf_json acc.*2 -> scan_members h scan fuel s acc = Ok (v, r) -> wf_json v.
Proof.
  intros Hs. revert s acc. induction fuel as [|fuel IH]; intros s acc Ha; [done|]. cbn [scan_members].
  destruct s as [|c s]; [done|]. destruct (negb _); [done|]. intros H. apply bind_Ok in H as ([k r1] & _ & H).
  destruct (skip_ws r1) as [|c2 r2]; [done|]. destruct (negb _); [done|]. apply bind_Ok in H as ([w r3] & Hw & H).
  apply Hs in Hw. assert (Forall wf_json (acc ++ [(k, w)]).*2) as Ha'.
  { rewrite fmap_app. apply Forall_app. split; [done|]. by repeat constructor. }
  destruct (skip_ws r3) as [|c4 r4]; [done|]. destruct (c4 =? 125)%N.
  - inv_res. match goal with H : object_pairs_hook _ _ = _ |- _ => apply unique_pairs_Ok in H as [-> Hd] end. by apply wf_obj.
  - destruct (c4 =? 44)%N; [|done]. by eapply IH.
Qed.

Lemma scan_elements_wf scan fuel s acc v r :
  scans_wf scan -> Forall wf_json acc -> scan_elements scan fuel s acc = Ok (v, r) -> wf_json v.
Proof.
  intros Hs. revert s acc. induction fuel as [|fuel IH]; intros s acc Ha; [done|]. cbn [scan_elements].
  intros H. apply bind_Ok in H as ([w r1] & Hw & H). apply Hs in Hw.
  assert (Forall wf_json (acc ++ [w])) as Ha' by (apply Forall_app; split; [done|by repeat constructor]).
  destruct (skip_ws r1) as [|c r2]; [done|]. destruct (c =? 93)%N; [inv_res; by apply wf_arr|].
  destruct (c =? 44)%N; [|done]. by eapply IH.
Qed.

Lemma scan_scalar_wf : scans_wf (scan_scalar h).
Proof.
  intros s v r. unfold scan_scalar. intros H.
  assert (forall w, match w with JObj _ | JArr _ => False | _ => True end -> wf_json w) as Hsc.
  { intros w Hw. destruct w; try done; by repeat constructor. }
  apply Hsc. destruct (drop_prefix "null" s); [by inv_res|]. destruct (drop_prefix "true" s); [by inv_res|].
  destruct (drop_prefix "false" s); [by inv_res|]. destruct (drop_prefix "NaN" s); [inv_res; by simpl in *; inv_res|].
  destruct (drop_prefix "Infinity" s); [inv_res; by simpl in *; inv_res|].
  destruct (drop_prefix "-Infinity" s); [inv_res; by simpl in *; inv_res|].
  destruct (scan_number s) as [[[tok isf] r']|]; [|done]. inv_res. destruct isf; [by simpl in *; inv_res|].
  simpl in *. unfold int_token in *. match goal with H : (let '(_, _) := ?x in _) = _ |- _ => destruct x end. by inv_res.
Qed.

Lemma scan_once_wf depth : scans_wf (scan_once h depth).
Proof.
  induction depth as [|depth IH]; intros s v r; (destruct s as [|c s]; [done|]); cbn [scan_once];
    (destruct (c =? 34)%N; [intros H; inv_res; match goal with p : pystr * pystr |- _ => destruct p end; inv_res; by repeat constructor|]);
    (destruct (c =? 123)%N; [|destruct (c =? 91)%N; [|apply scan_scalar_wf]]); try done.
  - unfold scan_object. destruct (skip_ws s) as [|c1 r1]; [done|]. destruct (c1 =? 125)%N.
    + intros H. inv_res.
      match goal with H : object_pairs_hook _ _ = _ |- _ => apply unique_pairs_Ok in H as [-> _] end. by repeat constructor.
    + apply scan_members_wf; [exact IH|constructor].
  - unfold scan_array. destruct (skip_ws s) as [|c1 r1]; [done|]. destruct (c1 =? 93)%N.
    + intros H. inv_res. by repeat constructor.
    + apply scan_elements_wf; [exact IH|constructor].
Qed.

(** What [json.loads] returns has no duplicate key anywhere. *)
Lemma loads_wf depth s v : loads h depth s = Ok v -> wf_json v.
Proof.
  unfold loads. intros H. inv_res. match goal with p : json * pystr |- _ => destruct p as [w r] end.
  destruct (skip_ws r); [|done]. inv_res. by eapply scan_once_wf.
Qed.
End ReadWf.
