(* ===== verification/RecoveryReceipt.v ===== *)
(** * Recovery receipt ([supervisor/mirrorgate/recovery_receipt.py])

    The closed private receipt of a recovery attempt and its allowlisted public
    projection.  The dictionaries the code builds from checked fields are the
    records [item], [observation], [original] and [payload]; [payload_json]
    writes them back, in the key order of the source. *)

From Stdlib Require Import ZArith Lia.
From stdpp Require Import base list gmap strings numbers.
From S2P Require Import Prelude PyJson JsonText Protocol Canonical.
#[local] Open Scope res_scope.

Module receipt.

Definition SCHEMA : pystr := "mirrorgate.recovery-receipt/v1".
Definition PUBLIC_SCHEMA : pystr := "mirrorgate.recovery-public/v1".

Definition ID (s : pystr) : bool :=
  match s with
  | c :: r => is_alnum c && forallb is_id_char r && (zlen r <=? 127)%Z
  | [] => false
  end.

Definition RESULTS : list pystr := strs ["reclaimed"; "failed"; "ambiguous"; "retained"; "unconfirmed"].
Definition BEHAVIORS : list pystr := strs ["passed"; "failed"; "inconclusive"; "not_run"].
Definition CLEANUPS : list pystr := strs ["confirmed"; "failed"; "unconfirmed"; "not_applicable"].
Definition CGROUP_KINDS : list pystr := strs ["cgroup"; "cgroup-v2"].
Definition CGROUP_SETTINGS : list pystr := strs ["pids.max"; "memory.max"; "memory.swap.max"; "cpu.max"].
Definition CGROUP_COUNTERS : list pystr :=
  strs ["pids.current"; "pids.events"; "memory.current"; "memory.peak"; "memory.events"; "cpu.stat"; "cgroup.events"].
Definition PAYLOAD_FIELDS : list pystr :=
  strs ["schema"; "attemptId"; "trigger"; "original"; "journalSchema"; "controllerInstance"; "bootId"; "principalUid";
        "ownershipObservations"; "cgroupObservations"; "remainingResources"; "results"; "cleanup"].

(** ** Checked fields *)

Definition refuse (label : string) : exn := AdmissionError ("invalid " ++ label)%string.

Definition _id (value : json) (label : string) : res pystr :=
  match value with
  | JStr s => raise_if (negb (ID s)) (refuse label) ;; Ok s
  | _ => Err (refuse label)
  end.

(** [if value not in {...}: raise e]: testing an unhashable value against a
    Python set raises [TypeError]. *)
Definition member (value : json) (allowed : list pystr) (e : exn) : res pystr :=
  match value with
  | JStr s => raise_if (negb (bool_decide (s ∈ allowed))) e ;; Ok s
  | _ => Err (if hashable value then e else TypeError)
  end.

(** [type(value) is dict and set(value) == keys] *)
Definition closed_dict (value : json) (keys : list pystr) (e : exn) : res pydict :=
  match value with
  | JObj d => raise_if (negb (set_eq (dkeys d) keys)) e ;; Ok d
  | _ => Err e
  end.

(** [type(values) is list and len(values) <= 4096] *)
Definition bounded_list (values : json) (e : exn) : res (list json) :=
  match values with
  | JArr l => raise_if (4096 <? zlen l)%Z e ;; Ok l
  | _ => Err e
  end.

(** ** The original result *)
Record original : Type := Original {
  runId : pystr; envelopeSha256 : pystr; behavior : pystr; original_cleanup : pystr }.

Definition EVIDENCE_SCHEMA : pystr := "mirrors.evidence-envelope/v1.0".

Definition original_json (o : original) : json :=
  JObj [(str "runRef", JObj [(str "schemaVersion", JStr EVIDENCE_SCHEMA); (str "runId", JStr (runId o));
                             (str "envelopeSha256", JStr (envelopeSha256 o)); (str "projectionKind", JStr (str "private"))]);
        (str "behavior", JStr (behavior o)); (str "cleanup", JStr (original_cleanup o))].

Definition _original (value : json) : res (option original) :=
  match value with
  | JNull => Ok None
  | _ =>
    _ ← closed_dict value (strs ["runRef"; "behavior"; "cleanup"]) (AdmissionError "original result reference is not closed");
    run_ref ← getitem value "runRef";
    _ ← closed_dict run_ref (strs ["schemaVersion"; "runId"; "envelopeSha256"; "projectionKind"])
          (AdmissionError "runRef is not closed");
    version ← getitem run_ref "schemaVersion"; projection ← getitem run_ref "projectionKind";
    raise_if (negb (str_is version EVIDENCE_SCHEMA) || negb (str_is projection "private"))
      (AdmissionError "runRef schema/projection mismatch") ;;
    r ← getitem run_ref "runId"; run_id ← _id r "runId";
    e ← getitem run_ref "envelopeSha256";
    envelope ← match e with
      | JStr s => raise_if (negb (match_hex 64 s)) (AdmissionError "invalid envelope hash") ;; Ok s
      | _ => Err (AdmissionError "invalid envelope hash")
      end;
    b ← getitem value "behavior"; b ← member b BEHAVIORS (AdmissionError "invalid original outcome");
    c ← getitem value "cleanup"; c ← member c CLEANUPS (AdmissionError "invalid original outcome");
    Ok (Some (Original run_id envelope b c))
  end.

(** ** Results *)
Record item : Type := Item {
  resourceId : pystr; sessionId : pystr; kind : pystr; result : pystr; reasonCode : option pystr }.

Definition opt_json (o : option pystr) : json := match o with Some s => JStr s | None => JNull end.

Definition item_json (i : item) : json :=
  JObj [(str "resourceId", JStr (resourceId i)); (str "sessionId", JStr (sessionId i)); (str "kind", JStr (kind i));
        (str "result", JStr (result i)); (str "reasonCode", opt_json (reasonCode i))].

(** One turn of the loop: the checked items and the identifiers seen so far. *)
Definition check_result (acc : list item * list pystr) (value : json) : res (list item * list pystr) :=
  let '(checked, seen) := acc in
  _ ← closed_dict value (strs ["resourceId"; "sessionId"; "kind"; "result"; "reasonCode"])
        (AdmissionError "recovery result fields are not closed");
  r ← getitem value "resourceId"; resource_id ← _id r "resourceId";
  raise_if (bool_decide (resource_id ∈ seen)) (AdmissionError "duplicate recovery result") ;;
  r ← getitem value "result"; result ← member r RESULTS (AdmissionError "invalid recovery result");
  r ← getitem value "reasonCode";
  reason ← match r with JNull => Ok None | _ => s ← _id r "reasonCode"; Ok (Some s) end;
  s ← getitem value "sessionId"; session_id ← _id s "sessionId";
  k ← getitem value "kind"; kind ← _id k "kind";
  Ok (checked ++ [Item resource_id session_id kind result reason], seen ++ [resource_id]).

Definition _results (values : json) : res (list item) :=
  l ← bounded_list values (AdmissionError "invalid recovery results");
  acc ← fold_res check_result l ([], []);
  Ok acc.1.

(** ** Cgroup observations *)
Definition text_or_none (v : json) : bool := match v with JNull | JStr _ => true | _ => false end.

Definition _string_map (value : json) (exact allowed : option (list pystr)) (label : string) : res pydict :=
  d ← match value with JObj d => Ok d | _ => Err (refuse label) end;
  raise_if (match exact with Some e => negb (set_eq (dkeys d) e) | None => false end
            || match allowed with Some a => negb (set_sub (dkeys d) a) | None => false end) (refuse label) ;;
  raise_if (negb (forallb text_or_none d.*2)) (refuse label) ;;
  Ok d.

(** The line boundaries of [str.splitlines]. *)
Definition line_break (c : N) : bool :=
  in_range 10 13 c || in_range 28 30 c || bool_decide (c ∈ [0x85; 0x2028; 0x2029]%N).

(** [line] is the current line, latest character first. *)
Fixpoint splitlines_from (line : pystr) (s : pystr) : list pystr :=
  match s with
  | [] => match line with [] => [] | _ => [rev line] end
  | c :: r =>
    if line_break c then
      rev line :: match r with
                  | c' :: r' => if (c =? 13)%N && (c' =? 10)%N then splitlines_from [] r' else splitlines_from [] r
                  | [] => []
                  end
    else splitlines_from (c :: line) r
  end.
Definition splitlines (s : pystr) : list pystr := splitlines_from [] s.

(** ["populated 0" in (counters.get("cgroup.events") or "").splitlines()] *)
Definition quiescent (counters : pydict) : bool :=
  bool_decide (str "populated 0" ∈ splitlines match dget "cgroup.events" counters with Some (JStr s) => s | _ => [] end).

Record observation : Type := Observation { observed : pystr; settings : pydict; counters : pydict }.

Definition observation_json (o : observation) : json :=
  JObj [(str "resourceId", JStr (observed o)); (str "settings", JObj (settings o)); (str "counters", JObj (counters o))].

(** [{item\["resourceId"\]: item for item in results}.get(id)]: the last wins. *)
Definition result_by_id (results : list item) (id : pystr) : option item :=
  find (fun i => bool_decide (resourceId i = id)) (rev results).

Definition is_cgroup (i : item) : bool := bool_decide (kind i ∈ CGROUP_KINDS).

Definition check_observation (results : list item) (acc : list observation * list pystr) (value : json)
    : res (list observation * list pystr) :=
  let '(checked, seen) := acc in
  _ ← closed_dict value (strs ["resourceId"; "settings"; "counters"]) (AdmissionError "cgroup observation is not closed");
  r ← getitem value "resourceId"; resource_id ← _id r "cgroup observation resourceId";
  i ← match result_by_id results resource_id with
      | Some i =>
        raise_if (bool_decide (resource_id ∈ seen) || negb (is_cgroup i))
          (AdmissionError "cgroup observation does not resolve uniquely") ;; Ok i
      | None => Err (AdmissionError "cgroup observation does not resolve uniquely")
      end;
  s ← getitem value "settings"; settings ← _string_map s (Some CGROUP_SETTINGS) None "cgroup settings";
  c ← getitem value "counters"; counters ← _string_map c None (Some CGROUP_COUNTERS) "cgroup counters";
  raise_if (bool_decide (counters = []) && bool_decide (result i = "reclaimed"))
    (AdmissionError "reclaimed cgroup lacks terminal counters") ;;
  raise_if (bool_decide (result i = "reclaimed") && negb (quiescent counters))
    (AdmissionError "reclaimed cgroup lacks observed quiescence") ;;
  raise_if (bool_decide (counters = []) && bool_decide (reasonCode i = None))
    (AdmissionError "unobserved cgroup lacks reason code") ;;
  Ok (checked ++ [Observation resource_id settings counters], seen ++ [resource_id]).

Definition _cgroup_observations (values : json) (results : list item) : res (list observation) :=
  l ← bounded_list values (AdmissionError "invalid cgroup observations");
  '(checked, seen) ← fold_res (check_observation results) l ([], []);
  raise_if (negb (set_eq seen (resourceId <$> filter (fun i => is_cgroup i = true) results)))
    (AdmissionError "cgroup observations do not cover results") ;;
  Ok checked.

(** ** Identifier lists *)
Definition _ids (values : json) (label : string) (unique : bool) : res (list pystr) :=
  l ← bounded_list values (refuse label);
  checked ← traverse (fun v => _id v label) l;
  raise_if (unique && has_dup checked) (AdmissionError ("duplicate " ++ label)%string) ;;
  Ok checked.

Definition match_artifact (s : pystr) : bool := starts_with "sha256:" s && match_hex 64 (drop 7 s).

Definition _artifacts (values : json) : res (list pystr) :=
  l ← bounded_list values (AdmissionError "invalid public artifact IDs");
  checked ← traverse (fun v => match v with
      | JStr s => raise_if (negb (match_artifact s)) (AdmissionError "public artifact ID must be a SHA256 reference") ;; Ok s
      | _ => Err (AdmissionError "public artifact ID must be a SHA256 reference")
      end) l;
  raise_if (has_dup checked) (AdmissionError "duplicate public artifact ID") ;;
  Ok checked.

Definition _cleanup_status {A} (results : list item) (remaining : list A) : pystr :=
  let statuses := result <$> results in
  if bool_decide (str "failed" ∈ statuses) then "failed"
  else if (match results with [] => true | _ => false end)
          || (match remaining with [] => false | _ => true end)
          || existsb (fun s => bool_decide (s ∈ strs ["ambiguous"; "unconfirmed"; "retained"])) statuses
       then "unconfirmed"
  else "confirmed".

Definition remaining_of (results : list item) : list pystr :=
  resourceId <$> filter (fun i => result i ∈ strs ["ambiguous"; "failed"; "unconfirmed"]) results.

(** ** The payload *)
Record payload : Type := Payload {
  attemptId : pystr; trigger : pystr; original_result : option original; journalSchema : pystr;
  controllerInstance : pystr; bootId : pystr; principalUid : Z; ownershipObservations : list pystr;
  cgroupObservations : list observation; remainingResources : list pystr; results : list item;
  status : pystr; artifactIds : list pystr }.

Definition str_list (l : list pystr) : json := JArr (JStr <$> l).

Definition cleanup_json (status : pystr) (artifacts : json) : json :=
  JObj [(str "scope", JStr (str "gate-recovery")); (str "requirement", JStr (str "required"));
        (str "status", JStr status); (str "artifactIds", artifacts)].

Definition payload_dict (attempt trigger : json) (original journal controller boot principal : json)
    (ownership cgroups remaining results cleanup : json) : pydict :=
  [(str "schema", JStr SCHEMA); (str "attemptId", attempt); (str "trigger", trigger); (str "original", original);
   (str "journalSchema", journal); (str "controllerInstance", controller); (str "bootId", boot);
   (str "principalUid", principal); (str "ownershipObservations", ownership); (str "cgroupObservations", cgroups);
   (str "remainingResources", remaining); (str "results", results); (str "cleanup", cleanup)].

Definition original_or_none (o : option original) : json :=
  match o with Some o => original_json o | None => JNull end.

Definition payload_fields (p : payload) : pydict :=
  payload_dict (JStr (attemptId p)) (JStr (trigger p)) (original_or_none (original_result p)) (JStr (journalSchema p))
    (JStr (controllerInstance p)) (JStr (bootId p)) (JInt (principalUid p)) (str_list (ownershipObservations p))
    (JArr (observation_json <$> cgroupObservations p)) (str_list (remainingResources p))
    (JArr (item_json <$> results p)) (cleanup_json (status p) (str_list (artifactIds p))).

Definition payload_json (p : payload) : json := JObj (payload_fields p).

Definition provenance_error : exn := AdmissionError "invalid receipt provenance".

Definition _validate_payload (value : json) : res payload :=
  _ ← closed_dict value PAYLOAD_FIELDS (AdmissionError "invalid recovery receipt");
  v ← getitem value "schema";
  raise_if (negb (str_is v SCHEMA)) (AdmissionError "invalid recovery receipt schema") ;;
  v ← getitem value "attemptId"; attempt_id ← _id v "attemptId";
  v ← getitem value "trigger"; trigger ← _id v "trigger";
  v ← getitem value "journalSchema";
  journal_schema ← match v with
    | JStr s =>
      raise_if (negb (bool_decide (s ∈ strs ["mirrorgate.recovery-journal/v1"; "mirrorgate.recovery-journal/v2"])))
        provenance_error ;; Ok s
    | _ => Err provenance_error
    end;
  v ← getitem value "controllerInstance"; controller ← _id v "controllerInstance";
  v ← getitem value "bootId"; boot_id ← _id v "bootId";
  v ← getitem value "principalUid";
  principal_uid ← match v with JInt z => raise_if (z <? 0)%Z provenance_error ;; Ok z | _ => Err provenance_error end;
  v ← getitem value "original"; original ← _original v;
  v ← getitem value "results"; results ← _results v;
  v ← getitem value "ownershipObservations"; ownership ← _ids v "ownershipObservation" false;
  raise_if (negb (bool_decide (ownership = result <$> results)))
    (AdmissionError "ownership observations do not cover results") ;;
  v ← getitem value "remainingResources"; remaining ← _ids v "remainingResource" true;
  raise_if (negb (bool_decide (remaining = remaining_of results)))
    (AdmissionError "remaining resources do not match results") ;;
  v ← getitem value "cgroupObservations"; cgroups ← _cgroup_observations v results;
  cleanup ← getitem value "cleanup";
  _ ← closed_dict cleanup (strs ["scope"; "requirement"; "status"; "artifactIds"]) (AdmissionError "invalid cleanup projection");
  v ← getitem cleanup "artifactIds"; artifacts ← _artifacts v;
  let derived_status := _cleanup_status results remaining in
  scope ← getitem cleanup "scope"; requirement ← getitem cleanup "requirement"; status ← getitem cleanup "status";
  raise_if (negb (str_is scope "gate-recovery") || negb (str_is requirement "required")
            || negb (str_is status derived_status))
    (AdmissionError "cleanup projection does not match recovery results") ;;
  Ok (Payload attempt_id trigger original journal_schema controller boot_id principal_uid ownership cgroups remaining
        results derived_status artifacts).

(** ** Creating and publishing *)
Definition MAX_RECEIPT_BYTES : Z := 512 * 1024.

(** The arguments of [create_receipt]; [None] is the keyword's default. *)
Record receipt_args : Type := Args {
  arg_attempt : json; arg_trigger : json; arg_original : json; arg_results : json;
  arg_remaining : option (list json); arg_ownership : option (list json); arg_cgroups : option (list json);
  arg_journal : json; arg_controller : json; arg_boot : json; arg_principal : json;
  arg_artifacts : option (list json) }.

Definition create_receipt (a : receipt_args) : res json :=
  checked ← _results (arg_results a);
  let derived := JStr <$> remaining_of checked in
  let remaining := match arg_remaining a with None => derived | Some l => l end in
  original ← _original (arg_original a);
  let payload := JObj (payload_dict (arg_attempt a) (arg_trigger a) (original_or_none original) (arg_journal a)
    (arg_controller a) (arg_boot a) (arg_principal a)
    (JArr match arg_ownership a with None => JStr <$> (result <$> checked) | Some l => l end)
    (JArr match arg_cgroups a with None => [] | Some l => l end)
    (JArr remaining) (JArr (item_json <$> checked))
    (cleanup_json (_cleanup_status checked remaining)
       (JArr match arg_artifacts a with None => [] | Some l => l end))) in
  receipt ← _validate_payload payload;
  let encoded := canonical (payload_json receipt) in
  raise_if (MAX_RECEIPT_BYTES <? zlen encoded)%Z (AdmissionError "recovery receipt exceeds bound") ;;
  Ok (JObj (dset "sha256" (JStr (sha256_hex encoded)) (payload_fields receipt))).

Definition summary_json (p : payload) (digest : pystr) : json :=
  JObj [(str "schema", JStr PUBLIC_SCHEMA); (str "attemptId", JStr (attemptId p));
        (str "cleanup", cleanup_json (status p) (JArr [])); (str "receiptSha256", JStr digest)].

Definition public_summary (receipt : json) : res json :=
  d ← closed_dict receipt (PAYLOAD_FIELDS ++ strs ["sha256"]) (AdmissionError "invalid recovery receipt");
  let payload := JObj (ddel "sha256" d) in
  let encoded := canonical payload in
  raise_if (MAX_RECEIPT_BYTES <? zlen encoded)%Z (AdmissionError "recovery receipt exceeds bound") ;;
  let digest := sha256_hex encoded in
  v ← getitem receipt "sha256";
  raise_if (negb (str_is v digest)) (AdmissionError "recovery receipt hash mismatch") ;;
  checked ← _validate_payload payload;
  Ok (summary_json checked digest).

(** ** What the checks accept *)

Lemma _id_Ok v label s : _id v label = Ok s <-> v = JStr s /\ ID s = true.
Proof.
  unfold _id. destruct v; try (split; [done|intros [? _]; done]).
  rewrite bind_Ok. setoid_rewrite raise_if_Ok. setoid_rewrite negb_false_iff.
  split; [intros ([] & ? & [= <-]); done|intros [[= <-] ?]; by exists tt].
Qed.

Lemma member_Ok v l e s : member v l e = Ok s <-> v = JStr s /\ s ∈ l.
Proof.
  unfold member. destruct v; try (split; [done|intros [? _]; done]).
  rewrite bind_Ok. setoid_rewrite raise_if_Ok. setoid_rewrite negb_false_iff. setoid_rewrite bool_decide_eq_true.
  split; [intros ([] & ? & [= <-]); done|intros [[= <-] ?]; by exists tt].
Qed.

Lemma closed_dict_Ok v ks e d : closed_dict v ks e = Ok d <-> v = JObj d /\ set_eq (dkeys d) ks = true.
Proof.
  unfold closed_dict. destruct v; try (split; [done|intros [? _]; done]).
  rewrite bind_Ok. setoid_rewrite raise_if_Ok. setoid_rewrite negb_false_iff.
  split; [intros ([] & ? & [= <-]); done|intros [[= <-] ?]; by exists tt].
Qed.

Lemma bounded_list_Ok v e l : bounded_list v e = Ok l <-> v = JArr l /\ (zlen l <= 4096)%Z.
Proof.
  unfold bounded_list. destruct v; try (split; [done|intros [? _]; done]).
  rewrite bind_Ok. setoid_rewrite raise_if_Ok. setoid_rewrite Z.ltb_ge.
  split; [intros ([] & ? & [= <-]); done|intros [[= <-] ?]; by exists tt].
Qed.

Lemma traverse_same {A} (check : json -> res A) (inj : A -> json) l ys :
  (forall v y, check v = Ok y -> v = inj y) -> traverse check l = Ok ys -> l = inj <$> ys.
Proof.
  intros Hc H. apply traverse_Ok in H. induction H as [|v y l ys H _ IH]; [done|]. apply Hc in H. cbn. by f_equal.
Qed.

(** Lists of checked strings come back as they were. *)
Lemma _ids_Ok v label u l : _ids v label u = Ok l -> v = str_list l.
Proof.
  unfold _ids. intros H. inv_res.
  match goal with H : bounded_list _ _ = _ |- _ => apply bounded_list_Ok in H as [-> _] end.
  unfold str_list. f_equal. eapply traverse_same; [|done]. intros w y Hy. by apply _id_Ok in Hy as [-> _].
Qed.

Lemma _artifacts_Ok v l : _artifacts v = Ok l -> v = str_list l.
Proof.
  unfold _artifacts. intros H. inv_res.
  match goal with H : bounded_list _ _ = _ |- _ => apply bounded_list_Ok in H as [-> _] end.
  unfold str_list. f_equal. eapply traverse_same; [|done]. intros w y Hy. destruct w; try done. by inv_res.
Qed.

(** Opens the checks of the context. *)
Ltac open_receipt :=
  repeat match goal with
  | H : closed_dict _ _ _ = Ok _ |- _ => apply closed_dict_Ok in H as [? ?]; subst
  | H : _id _ _ = Ok _ |- _ => apply _id_Ok in H as [? ?]; subst
  | H : member _ _ _ = Ok _ |- _ => apply member_Ok in H as [? ?]; subst
  | H : bounded_list _ _ = Ok _ |- _ => apply bounded_list_Ok in H as [? ?]; subst
  | H : str_is _ _ = true |- _ => apply str_is_true in H; subst
  end.

(** Reads a literal field of a dictionary written out. *)
Ltac read_field := erewrite getitem_dget by reflexivity; cbn [rbind].
Ltac pass_check := unfold raise_if at 1; cbn [rbind].

Definition original_ok (o : original) : Prop :=
  ID (runId o) = true /\ match_hex 64 (envelopeSha256 o) = true /\ behavior o ∈ BEHAVIORS /\ original_cleanup o ∈ CLEANUPS.

Lemma _original_Ok v o : _original v = Ok o -> match o with Some o => original_ok o | None => v = JNull end.
Proof.
  unfold _original. destruct v; intros H; inv_res; try done; open_receipt; try done.
  match goal with H : match ?x with _ => _ end = Ok _ |- _ => destruct x; try done; inv_res end.
  bool_hyps. done.
Qed.

Lemma _original_again o : match o with Some o => original_ok o | None => True end -> _original (original_or_none o) = Ok o.
Proof.
  destruct o as [o|]; [|done]. intros (H1 & H2 & H3 & H4). unfold _original, original_or_none, original_json.
  unfold closed_dict at 1. pass_check. read_field. unfold closed_dict at 1. pass_check. do 2 read_field.
  pass_check. read_field. rewrite (proj2 (_id_Ok _ _ _) (conj eq_refl H1)). cbn [rbind]. read_field.
  rewrite H2. cbn [negb raise_if rbind]. read_field. rewrite (proj2 (member_Ok _ _ _ _) (conj eq_refl H3)). cbn [rbind].
  read_field. rewrite (proj2 (member_Ok _ _ _ _) (conj eq_refl H4)). cbn [rbind]. by destruct o.
Qed.

Definition item_ok (i : item) : Prop :=
  ID (resourceId i) = true /\ ID (sessionId i) = true /\ ID (kind i) = true /\ result i ∈ RESULTS /\
  match reasonCode i with Some s => ID s = true | None => True end.

Lemma check_result_Ok checked seen v acc :
  check_result (checked, seen) v = Ok acc ->
  exists i, acc = (checked ++ [i], seen ++ [resourceId i]) /\ item_ok i /\ resourceId i ∉ seen.
Proof.
  unfold check_result. intros H. inv_res. open_receipt. bool_hyps.
  eexists (Item _ _ _ _ _). split; [reflexivity|]. split; [|done]. split_and!; try done; simpl.
  match goal with H : match ?x with _ => _ end = Ok ?y |- _ => destruct x; inv_res; open_receipt; done end.
Qed.

Lemma check_result_again i checked seen :
  item_ok i -> resourceId i ∉ seen ->
  check_result (checked, seen) (item_json i) = Ok (checked ++ [i], seen ++ [resourceId i]).
Proof.
  intros (H1 & H2 & H3 & H4 & H5) Hn. unfold check_result, item_json. unfold closed_dict at 1. pass_check.
  read_field. rewrite (proj2 (_id_Ok _ _ _) (conj eq_refl H1)). cbn [rbind].
  rewrite bool_decide_eq_false_2 by done. cbn [raise_if rbind]. read_field.
  rewrite (proj2 (member_Ok _ _ _ _) (conj eq_refl H4)). cbn [rbind]. read_field.
  assert (match opt_json (reasonCode i) with JNull => Ok None | _ => s ← _id (opt_json (reasonCode i)) "reasonCode"; Ok (Some s) end
          = Ok (reasonCode i)) as ->.
  { destruct (reasonCode i); [|done]. cbn [opt_json]. by rewrite (proj2 (_id_Ok _ _ _) (conj eq_refl H5)). }
  cbn [rbind]. read_field. rewrite (proj2 (_id_Ok _ _ _) (conj eq_refl H2)). cbn [rbind]. read_field.
  rewrite (proj2 (_id_Ok _ _ _) (conj eq_refl H3)). cbn [rbind]. by destruct i.
Qed.

(** A loop that appends one checked item per value and remembers its
    identifier. *)
Section CheckedFold.
Context {A : Type} (name : A -> pystr) (write : A -> json) (ok : A -> Prop).
Context (check : list A * list pystr -> json -> res (list A * list pystr)).
Context (check_Ok : forall c s v acc, check (c, s) v = Ok acc ->
  exists i, acc = (c ++ [i], s ++ [name i]) /\ ok i /\ name i ∉ s).
Context (check_again : forall i c s, ok i -> name i ∉ s -> check (c, s) (write i) = Ok (c ++ [i], s ++ [name i])).

Lemma fold_checked_Ok l c s c' s' :
  fold_res check l (c, s) = Ok (c', s') ->
  exists xs, c' = c ++ xs /\ s' = s ++ (name <$> xs) /\ Forall ok xs /\ length xs = length l /\
    (NoDup s -> NoDup (s ++ (name <$> xs))).
Proof.
  revert c s. induction l as [|v l IH]; intros c s H; cbn [fold_res] in H.
  - inv_res. exists []. cbn [fmap list_fmap]. rewrite !app_nil_r. split_and!; try done.
  - inv_res. match goal with H : check _ _ = _ |- _ => apply check_Ok in H as (i & -> & Hi & Hn) end.
    match goal with H : fold_res _ _ _ = _ |- _ => apply IH in H as (xs & -> & -> & Hf & Hl & Hd) end.
    exists (i :: xs). rewrite <- !app_assoc in *. split_and!; [done|done|by constructor|simpl; lia|].
    intros Hs. apply Hd. apply list.NoDup_app. split_and!; [done| |apply NoDup_singleton].
    intros x Hx ?%list_elem_of_singleton. subst. done.
Qed.

Lemma fold_checked_again xs c s :
  Forall ok xs -> NoDup (s ++ (name <$> xs)) ->
  fold_res check (write <$> xs) (c, s) = Ok (c ++ xs, s ++ (name <$> xs)).
Proof.
  revert c s. induction xs as [|i xs IH]; intros c s Hf Hd; [cbn; by rewrite !app_nil_r|].
  apply Forall_cons_1 in Hf as [Hi Hf]. cbn [fmap list_fmap fold_res].
  rewrite check_again; [|done|].
  2:{ apply list.NoDup_app in Hd as (_ & Hd & _). intros Hin. apply (Hd _ Hin). by left. }
  cbn [rbind]. rewrite IH; [by rewrite <- !app_assoc|done|]. by rewrite <- app_assoc.
Qed.
End CheckedFold.

Definition items_ok (xs : list item) : Prop :=
  Forall item_ok xs /\ NoDup (resourceId <$> xs) /\ (zlen xs <= 4096)%Z.

Lemma _results_Ok v xs : _results v = Ok xs -> items_ok xs.
Proof.
  unfold _results. intros H. inv_res. open_receipt.
  match goal with H : fold_res _ _ _ = Ok ?a |- _ => destruct a as [c s];
    apply (fold_checked_Ok resourceId item_ok check_result check_result_Ok) in H as (xs & -> & -> & Hf & Hl & Hd) end.
  simpl in *. split_and!; [done|apply Hd; constructor|unfold zlen in *; lia].
Qed.

Lemma bounded_fmap {A} (f : A -> json) xs e :
  (zlen xs <= 4096)%Z -> bounded_list (JArr (f <$> xs)) e = Ok (f <$> xs).
Proof. intros Hl. apply bounded_list_Ok. split; [done|]. unfold zlen in *. by rewrite length_fmap. Qed.

Lemma _results_again xs : items_ok xs -> _results (JArr (item_json <$> xs)) = Ok xs.
Proof.
  intros (Hf & Hd & Hl). unfold _results.
  rewrite bounded_fmap by done. cbn [rbind]. rewrite (fold_checked_again resourceId item_json item_ok check_result check_result_again) by done. done.
Qed.

Definition observation_ok (xs : list item) (o : observation) : Prop :=
  ID (observed o) = true /\
  set_eq (dkeys (settings o)) CGROUP_SETTINGS = true /\ forallb text_or_none (settings o).*2 = true /\
  set_sub (dkeys (counters o)) CGROUP_COUNTERS = true /\ forallb text_or_none (counters o).*2 = true /\
  exists i, result_by_id xs (observed o) = Some i /\ is_cgroup i = true /\
    (result i = "reclaimed" -> counters o <> [] /\ quiescent (counters o) = true) /\
    (counters o = [] -> reasonCode i <> None).

Lemma _string_map_Ok v exact allowed label d :
  _string_map v exact allowed label = Ok d <->
  v = JObj d /\ match exact with Some e => set_eq (dkeys d) e = true | None => True end /\
  match allowed with Some a => set_sub (dkeys d) a = true | None => True end /\ forallb text_or_none d.*2 = true.
Proof.
  unfold _string_map. split.
  - intros H. inv_res. destruct v; inv_res. bool_hyps. destruct exact, allowed; bool_hyps; done.
  - intros (-> & He & Ha & Ht). cbn [rbind]. rewrite Ht.
    destruct exact, allowed; rewrite ?He, ?Ha; done.
Qed.

Lemma check_observation_Ok xs checked seen v acc :
  check_observation xs (checked, seen) v = Ok acc ->
  exists o, acc = (checked ++ [o], seen ++ [observed o]) /\ observation_ok xs o /\ observed o ∉ seen.
Proof.
  unfold check_observation. intros H. inv_res. open_receipt.
  match goal with H : match result_by_id ?a ?b with _ => _ end = Ok _ |- _ => destruct (result_by_id a b) as [i|] eqn:Hr; inv_res end.
  repeat match goal with H : _string_map _ _ _ _ = Ok _ |- _ => apply _string_map_Ok in H as (? & ? & ? & ?) end.
  bool_hyps. eexists (Observation _ _ _). split; [reflexivity|]. split; [|done].
  split_and!; try done. eexists. split_and!; [done|done| |].
  - intros Hre. simpl.
    repeat match goal with H : _ && _ = false |- _ => rewrite (bool_decide_eq_true_2 _ Hre) in H end. simpl in *.
    rewrite andb_true_r in *. bool_hyps. done.
  - simpl. intros Hc.
    repeat match goal with H : _ && _ = false |- _ => rewrite (bool_decide_eq_true_2 _ Hc) in H end. simpl in *. by bool_hyps.
Qed.

Lemma check_observation_again xs o checked seen :
  observation_ok xs o -> observed o ∉ seen ->
  check_observation xs (checked, seen) (observation_json o) = Ok (checked ++ [o], seen ++ [observed o]).
Proof.
  intros (H1 & H2 & H3 & H4 & H5 & i & Hr & Hk & Hq & Hc) Hn. unfold check_observation, observation_json.
  unfold closed_dict at 1. pass_check. read_field. rewrite (proj2 (_id_Ok _ _ _) (conj eq_refl H1)). cbn [rbind].
  rewrite Hr, Hk, bool_decide_eq_false_2 by done. cbn [negb orb raise_if rbind]. read_field.
  rewrite (proj2 (_string_map_Ok (JObj (settings o)) (Some CGROUP_SETTINGS) None _ _)) by done. cbn [rbind]. read_field.
  rewrite (proj2 (_string_map_Ok (JObj (counters o)) None (Some CGROUP_COUNTERS) _ _)) by done. cbn [rbind].
  destruct (bool_decide (result i = "reclaimed")) eqn:Ei; [apply bool_decide_eq_true in Ei; destruct (Hq Ei) as [He ->]|].
  - rewrite (bool_decide_eq_false_2 _ He). cbn. by destruct o.
  - rewrite andb_false_r. cbn [raise_if rbind andb].
    destruct (decide (counters o = [])) as [E|E].
    + rewrite (bool_decide_eq_false_2 _ (Hc E)), andb_false_r. cbn. by destruct o.
    + rewrite (bool_decide_eq_false_2 _ E). cbn. by destruct o.
Qed.

Definition observations_ok (xs : list item) (os : list observation) : Prop :=
  Forall (observation_ok xs) os /\ NoDup (observed <$> os) /\ (zlen os <= 4096)%Z /\
  set_eq (observed <$> os) (resourceId <$> filter (fun i => is_cgroup i = true) xs) = true.

Lemma _cgroup_observations_Ok v xs os : _cgroup_observations v xs = Ok os -> observations_ok xs os.
Proof.
  unfold _cgroup_observations. intros H. inv_res. open_receipt.
  match goal with H : fold_res _ _ _ = Ok ?a |- _ => destruct a as [c s];
    apply (fold_checked_Ok observed (observation_ok xs) (check_observation xs) (check_observation_Ok xs))
      in H as (ys & -> & -> & Hf & Hl & Hd) end. inv_res. bool_hyps.
  simpl in *. split_and!; [done|apply Hd; constructor|unfold zlen in *; lia|done].
Qed.

Lemma _cgroup_observations_again xs os :
  observations_ok xs os -> _cgroup_observations (JArr (observation_json <$> os)) xs = Ok os.
Proof.
  intros (Hf & Hd & Hl & Hc). unfold _cgroup_observations. rewrite bounded_fmap by done. cbn [rbind].
  rewrite (fold_checked_again observed observation_json _ _ (check_observation_again xs)) by done. cbn [rbind app].
  by rewrite Hc.
Qed.

(** What [_validate_payload] promises of the payload it returns. *)
Record payload_ok (p : payload) : Prop := PayloadOk {
  ok_ids : ID (attemptId p) = true /\ ID (trigger p) = true /\ ID (controllerInstance p) = true /\ ID (bootId p) = true;
  ok_journal : journalSchema p ∈ strs ["mirrorgate.recovery-journal/v1"; "mirrorgate.recovery-journal/v2"];
  ok_principal : (0 <= principalUid p)%Z;
  ok_original : match original_result p with Some o => original_ok o | None => True end;
  ok_results : items_ok (results p);
  ok_ownership : _ids (str_list (ownershipObservations p)) "ownershipObservation" false = Ok (ownershipObservations p) /\
    ownershipObservations p = result <$> results p;
  ok_remaining : _ids (str_list (remainingResources p)) "remainingResource" true = Ok (remainingResources p) /\
    remainingResources p = remaining_of (results p);
  ok_cgroups : observations_ok (results p) (cgroupObservations p);
  ok_artifacts : _artifacts (str_list (artifactIds p)) = Ok (artifactIds p);
  ok_status : status p = _cleanup_status (results p) (remainingResources p) }.

Lemma _validate_payload_Ok v p : _validate_payload v = Ok p -> payload_ok p.
Proof.
  unfold _validate_payload. intros H. inv_res. open_receipt. bool_hyps. open_receipt.
  repeat match goal with H : match ?x with _ => _ end = Ok _ |- _ => destruct x; try discriminate H; inv_res end. bool_hyps.
  repeat match goal with
  | H : _original _ = Ok _ |- _ => apply _original_Ok in H
  | H : _results _ = Ok _ |- _ => apply _results_Ok in H
  | H : _cgroup_observations _ _ = Ok _ |- _ => apply _cgroup_observations_Ok in H
  end.
  match goal with H : _ids ?v _ false = Ok _ |- _ => pose proof (_ids_Ok _ _ _ _ H); subst v end.
  match goal with H : _ids ?v _ true = Ok _ |- _ => pose proof (_ids_Ok _ _ _ _ H); subst v end.
  match goal with H : _artifacts ?v = Ok _ |- _ => pose proof (_artifacts_Ok _ _ H); subst v end.
  split; try done; simpl. match goal with |- match ?o with _ => _ end => by destruct o end.
Qed.

(** A checked payload passes the same checks unchanged. *)
Lemma _validate_payload_again p : payload_ok p -> _validate_payload (payload_json p) = Ok p.
Proof.
  intros [(H1 & H2 & H3 & H4) Hj Hu Ho Hr [Hown Hown'] [Hrem Hrem'] Hc Ha Hs].
  unfold _validate_payload, payload_json, payload_fields, payload_dict. unfold closed_dict at 1. pass_check.
  read_field. pass_check. read_field. rewrite (proj2 (_id_Ok _ _ _) (conj eq_refl H1)). cbn [rbind].
  read_field. rewrite (proj2 (_id_Ok _ _ _) (conj eq_refl H2)). cbn [rbind]. read_field.
  rewrite (bool_decide_eq_true_2 _ Hj). cbn [negb raise_if rbind]. read_field.
  rewrite (proj2 (_id_Ok _ _ _) (conj eq_refl H3)). cbn [rbind]. read_field.
  rewrite (proj2 (_id_Ok _ _ _) (conj eq_refl H4)). cbn [rbind]. read_field.
  rewrite (proj2 (Z.ltb_ge _ _) Hu). cbn [raise_if rbind]. read_field. rewrite (_original_again _ Ho). cbn [rbind].
  read_field. rewrite (_results_again _ Hr). cbn [rbind]. read_field. rewrite Hown. cbn [rbind].
  rewrite (bool_decide_eq_true_2 _ Hown'). cbn [negb raise_if rbind]. read_field. rewrite Hrem. cbn [rbind].
  rewrite (bool_decide_eq_true_2 _ Hrem'). cbn [negb raise_if rbind]. read_field.
  rewrite (_cgroup_observations_again _ _ Hc). cbn [rbind]. read_field. unfold cleanup_json, closed_dict at 1. pass_check.
  read_field. rewrite Ha. cbn [rbind]. do 3 read_field. rewrite <- Hs. cbn [str_is].
  rewrite !bool_decide_eq_true_2 by done. cbn. by destruct p.
Qed.

(** ** Properties *)

Definition digest_of (p : payload) : pystr := sha256_hex (canonical (payload_json p)).

(** Every receipt that is created is accepted by its own public projection.
    It is a checked payload followed by the digest of its canonical text, and
    the projection shows the attempt, the cleanup status and that digest, with
    no artifact identifiers. *)
Theorem receipt_projects (a : receipt_args) (r : json) :
  create_receipt a = Ok r ->
  exists p, payload_ok p /\ r = JObj (payload_fields p ++ [(str "sha256", JStr (digest_of p))]) /\
    public_summary r = Ok (summary_json p (digest_of p)).
Proof.
  unfold create_receipt. intros H. inv_res.
  match goal with H : _validate_payload _ = Ok ?x |- _ => apply _validate_payload_Ok in H as Hp; rename x into p end.
  exists p. split; [done|]. split; [done|]. unfold public_summary, closed_dict. fold (digest_of p).
  change (dset _ _ (payload_fields p)) with (payload_fields p ++ [(str "sha256", JStr (digest_of p))]).
  change (set_eq (dkeys _) _) with true. cbn [negb raise_if rbind].
  change (ddel "sha256" _) with (payload_fields p). fold (payload_json p).
  match goal with H : (_ <? _)%Z = false |- _ => rewrite H end. cbn [raise_if rbind].
  change (getitem _ _) with (Ok (JStr (digest_of p))). fold (digest_of p). cbn [rbind str_is].
  rewrite bool_decide_eq_true_2 by done. cbn [negb raise_if rbind]. by rewrite _validate_payload_again.
Qed.

Lemma statuses_reclaimed xs :
  Forall item_ok xs -> str "failed" ∉ (result <$> xs) ->
  existsb (fun s => bool_decide (s ∈ strs ["ambiguous"; "unconfirmed"; "retained"])) (result <$> xs) = false <->
  Forall (fun i => result i = "reclaimed") xs.
Proof.
  intros Hok Hf. rewrite <- not_true_iff_false, existsb_exists. split.
  - intros H. apply list.Forall_forall. intros i Hi. rewrite list.Forall_forall in Hok.
    destruct (Hok i Hi) as (_ & _ & _ & Hr & _). pose proof (list_elem_of_fmap_2 result _ _ Hi) as Hin.
    unfold RESULTS in Hr. elem_literal Hr. destruct Hr as [?|[E|[E|[E|[E|[]]]]]]; [done| |exfalso; apply H..].
    1: { rewrite E in Hin. done. }
    all: exists (result i); split; [by apply list_elem_of_In|]; rewrite E; reflexivity.
  - intros Hr (s & Hs & Hb). apply list_elem_of_In, list_elem_of_fmap in Hs as (i & -> & Hi).
    rewrite list.Forall_forall in Hr. rewrite (Hr i Hi) in Hb. done.
Qed.

(** C22: a validated receipt tells the truth about its results: cleanup is
    confirmed exactly when something was recovered and every resource was
    reclaimed, and failed exactly when some resource failed; the remaining
    resources are those that are neither reclaimed nor retained. *)
Theorem cleanup_status_truthful (v : json) (p : payload) :
  _validate_payload v = Ok p ->
  (status p = "confirmed" <-> results p <> [] /\ Forall (fun i => result i = "reclaimed") (results p)) /\
  (status p = "failed" <-> exists i, i ∈ results p /\ result i = "failed") /\
  (forall id, id ∈ remainingResources p <->
     exists i, i ∈ results p /\ resourceId i = id /\ result i <> "reclaimed" /\ result i <> "retained").
Proof.
  intros H. apply _validate_payload_Ok in H as [_ _ _ _ (Hok & _ & _) _ [_ Hrem] _ _ Hs].
  assert (forall id, id ∈ remainingResources p <->
     exists i, i ∈ results p /\ resourceId i = id /\ result i <> "reclaimed" /\ result i <> "retained") as Hid.
  { intros id. rewrite Hrem. unfold remaining_of. rewrite list_elem_of_fmap. split.
    - intros (i & -> & [Hr Hi]%list_elem_of_filter). exists i. split_and!; [done|done| |]; intros E; rewrite E in Hr;
        elem_literal Hr; destruct Hr as [Hr|[Hr|[Hr|[]]]]; discriminate Hr.
    - intros (i & Hi & <- & H1 & H2). exists i. split; [done|]. apply list_elem_of_filter. split; [|done].
      rewrite list.Forall_forall in Hok. destruct (Hok i Hi) as (_ & _ & _ & Hr & _). unfold RESULTS in Hr. elem_literal Hr.
      destruct Hr as [?|[E|[E|[E|[E|[]]]]]]; try done; rewrite E; by_decision. }
  assert (str "failed" ∈ (result <$> results p) <-> exists i, i ∈ results p /\ result i = "failed") as Hfail.
  { rewrite list_elem_of_fmap. naive_solver. }
  split_and!; [..|exact Hid]; rewrite Hs; unfold _cleanup_status; case_bool_decide as Hf.
  - split; [discriminate|]. intros [_ Hr]. apply Hfail in Hf as (i & Hi & E). rewrite list.Forall_forall in Hr.
    rewrite (Hr i Hi) in E. discriminate E.
  - rewrite <- (statuses_reclaimed _ Hok Hf). destruct (results p) as [|i xs] eqn:Er; [split; [discriminate|naive_solver]|].
    destruct (existsb _ _) eqn:Ex; [rewrite orb_true_r; split; [discriminate|naive_solver]|]. rewrite orb_false_r.
    split; [naive_solver|]. intros _. destruct (remainingResources p) as [|id l] eqn:El; [done|].
    destruct (proj1 (Hid id)) as (j & Hj & _ & Hj1 & _); [by left|].
    rewrite (statuses_reclaimed _ Hok Hf) in Ex. rewrite list.Forall_forall in Ex. by destruct Hj1; apply Ex.
  - naive_solver.
  - split; [|naive_solver]. destruct (_ || _); discriminate.
Qed.

Lemma result_by_id_unique xs i :
  NoDup (resourceId <$> xs) -> i ∈ xs -> result_by_id xs (resourceId i) = Some i.
Proof.
  intros Hd Hi. unfold result_by_id.
  assert (NoDup (resourceId <$> rev xs)) as Hd' by by rewrite <- Permutation_rev.
  assert (i ∈ rev xs) as Hi' by by rewrite <- Permutation_rev. clear Hd Hi.
  induction (rev xs) as [|j ys IH]; [by apply elem_of_nil in Hi'|]. cbn in Hd' |- *.
  apply list.NoDup_cons in Hd' as [Hn Hd']. apply elem_of_cons in Hi' as [->|Hi]; [by rewrite bool_decide_eq_true_2|].
  rewrite bool_decide_eq_false_2; [by apply IH|]. intros E. apply Hn. rewrite E. by apply list_elem_of_fmap_2.
Qed.

(** A validated receipt accounts for every cgroup among its results with
    exactly one observation, and a cgroup counts as reclaimed only if its
    observed events include the line [populated 0]. *)
Theorem reclaimed_cgroup_observed (v : json) (p : payload) (i : item) :
  _validate_payload v = Ok p -> i ∈ results p -> is_cgroup i = true ->
  exists o, o ∈ cgroupObservations p /\ observed o = resourceId i /\
    (forall o', o' ∈ cgroupObservations p -> observed o' = resourceId i -> o' = o) /\
    (result i = "reclaimed" -> exists text, dget "cgroup.events" (counters o) = Some (JStr text) /\
       str "populated 0" ∈ splitlines text).
Proof.
  intros H Hi Hk. apply _validate_payload_Ok in H as [_ _ _ _ (_ & Hd & _) _ _ (Hf & Hn & _ & Hc) _ _].
  rewrite set_eq_spec in Hc.
  assert (resourceId i ∈ (observed <$> cgroupObservations p)) as Ho.
  { apply Hc, list_elem_of_fmap_2, list_elem_of_filter. done. }
  apply list_elem_of_fmap in Ho as (o & Eo & Ho). exists o. split_and!; [done|done| |].
  - intros o' Ho' E. rewrite Eo in E. clear -Hn Ho Ho' E.
    induction (cgroupObservations p) as [|x xs IH]; [by apply elem_of_nil in Ho|].
    cbn in Hn. apply list.NoDup_cons in Hn as [Hx Hn].
    apply elem_of_cons in Ho as [->|Ho]; apply elem_of_cons in Ho' as [->|Ho']; auto;
      exfalso; apply Hx; [rewrite <- E|rewrite E]; by apply list_elem_of_fmap_2.
  - intros Hr. rewrite list.Forall_forall in Hf. destruct (Hf o Ho) as (_ & _ & _ & _ & _ & j & Hj & _ & Hq & _).
    rewrite <- Eo, (result_by_id_unique _ i Hd Hi) in Hj. injection Hj as <-. destruct (Hq Hr) as [_ Hq'].
    unfold quiescent in Hq'. apply bool_decide_eq_true in Hq'.
    destruct (dget "cgroup.events" (counters o)) as [[]|]; try (by apply elem_of_nil in Hq'). eauto.
Qed.

(** C32: a public summary is authentic and minimal.  A receipt that is summarised
    carries the digest of its own canonical payload, that payload passes every
    check, and the summary shows nothing but the attempt, the derived cleanup
    status and the digest. *)
Theorem public_summary_authentic (v s : json) :
  public_summary v = Ok s ->
  exists d p, v = JObj d /\
    dget "sha256" d = Some (JStr (sha256_hex (canonical (JObj (ddel "sha256" d))))) /\
    _validate_payload (JObj (ddel "sha256" d)) = Ok p /\
    s = JObj [(str "schema", JStr PUBLIC_SCHEMA); (str "attemptId", JStr (attemptId p));
          (str "cleanup", JObj [(str "scope", JStr (str "gate-recovery")); (str "requirement", JStr (str "required"));
             (str "status", JStr (_cleanup_status (results p) (remainingResources p))); (str "artifactIds", JArr [])]);
          (str "receiptSha256", JStr (sha256_hex (canonical (JObj (ddel "sha256" d)))))].
Proof.
  unfold public_summary. intros H. inv_res. open_receipt. bool_hyps. open_receipt.
  match goal with H : getitem (JObj ?d) _ = Ok _, Hv : _validate_payload _ = Ok ?p |- _ => exists d, p;
    apply port.getitem_Ok in H as (? & [= <-] & ?); pose proof (ok_status _ (_validate_payload_Ok _ _ Hv)) as Hs end.
  split_and!; try done. unfold summary_json, cleanup_json. by rewrite Hs.
Qed.

(** ** A receipt *)
Definition cgroup_result : json :=
  JObj [(str "resourceId", JStr (str "cg-1")); (str "sessionId", JStr (str "s-1")); (str "kind", JStr (str "cgroup"));
        (str "result", JStr (str "reclaimed")); (str "reasonCode", JNull)].
Definition cgroup_observation : json :=
  JObj [(str "resourceId", JStr (str "cg-1"));
        (str "settings", JObj [(str "pids.max", JStr (str "64")); (str "memory.max", JNull); (str "memory.swap.max", JNull);
                               (str "cpu.max", JNull)]);
        (str "counters", JObj [(str "cgroup.events", JStr (str "populated 0" ++ [10]%N ++ str "frozen 0"))])].
Definition sample_args : receipt_args :=
  Args (JStr (str "attempt-1")) (JStr (str "startup")) JNull (JArr [cgroup_result]) None None (Some [cgroup_observation])
    (JStr (str "mirrorgate.recovery-journal/v2")) (JStr (str "controller")) (JStr (str "boot")) (JInt 1000) None.

Definition sample_receipt : json := match create_receipt sample_args with Ok r => r | Err _ => JNull end.
Definition sample_payload_json : json := match sample_receipt with JObj d => JObj (ddel "sha256" d) | v => v end.
Definition sample_payload : payload :=
  match _validate_payload sample_payload_json with
  | Ok p => p
  | Err _ => Payload [] [] None [] [] [] 0 [] [] [] [] [] []
  end.

Lemma receipt_projects_witness : exists p, payload_ok p /\
  sample_receipt = JObj (payload_fields p ++ [(str "sha256", JStr (digest_of p))]) /\
  public_summary sample_receipt = Ok (summary_json p (digest_of p)).
Proof. apply (receipt_projects sample_args). vm_compute. reflexivity. Defined.

Lemma cleanup_status_truthful_witness :
  status sample_payload = "confirmed" <->
  results sample_payload <> [] /\ Forall (fun i => result i = "reclaimed") (results sample_payload).
Proof. apply (cleanup_status_truthful sample_payload_json sample_payload). vm_compute. reflexivity. Defined.

Lemma reclaimed_cgroup_observed_witness :
  exists o, o ∈ cgroupObservations sample_payload /\ observed o = str "cg-1".
Proof.
  destruct (reclaimed_cgroup_observed sample_payload_json sample_payload
    (Item (str "cg-1") (str "s-1") (str "cgroup") (str "reclaimed") None)) as (o & Ho & E & _).
  - vm_compute. reflexivity.
  - vm_compute. by left.
  - reflexivity.
  - exists o. split; [exact Ho|exact E].
Defined.

Lemma public_summary_authentic_witness :
  exists s, public_summary sample_receipt = Ok s /\
    exists d p, sample_receipt = JObj d /\ _validate_payload (JObj (ddel "sha256" d)) = Ok p.
Proof.
  eexists. split; [vm_compute; reflexivity|].
  destruct (public_summary_authentic sample_receipt _ ltac:(vm_compute; reflexivity)) as (d & p & H1 & _ & H2 & _).
  exists d, p. split; [exact H1|exact H2].
Defined.
End receipt.
