(* ===== verification/JournalRecord.v ===== *)
(** * Journal records ([supervisor/mirrorgate/recovery_journal.py], first half)

    The checks a durable ownership record passes before it is written and
    after it is read: closed fields, bounded texts, the identity of the owned
    resource, cleanup evidence, observations and the checksum over the
    canonical text; [encode_record] and [_decode_record] around them. *)

From Stdlib Require Import ZArith Lia.
From stdpp Require Import base list gmap strings numbers.
From S2P Require Import Prelude PyJson JsonText Protocol Canonical RecoveryReceipt.
#[local] Open Scope res_scope.

Module journal.
Import receipt.

Definition SCHEMA : pystr := "mirrorgate.recovery-journal/v1".
Definition GROUP_SCHEMA : pystr := "mirrorgate.recovery-journal/v2".
Definition MAX_RECORD_BYTES : Z := 64 * 1024.
Definition MAX_RECORDS : Z := 4096.
Definition MAX_STRING : Z := 512.

Definition KINDS : list pystr := strs ["filesystem"; "process"; "cgroup"; "retained_source"].
Definition PHASES : list pystr :=
  strs ["allocation_intent"; "durable_owned"; "active"; "cleanup_intent"; "reclaimed"; "retained_by_policy"; "ambiguous";
        "cleanup_failed"].

(** [TRANSITIONS\[phase\]]; a phase that is no key raises [KeyError] in Python,
    and no validated record has one. *)
Definition TRANSITIONS (phase : pystr) : option (list pystr) :=
  if bool_decide (phase = "allocation_intent") then
    Some (strs ["durable_owned"; "retained_by_policy"; "cleanup_intent"; "ambiguous"])
  else if bool_decide (phase = "durable_owned") then
    Some (strs ["active"; "cleanup_intent"; "retained_by_policy"; "ambiguous"])
  else if bool_decide (phase = "active") then Some (strs ["cleanup_intent"; "retained_by_policy"; "ambiguous"])
  else if bool_decide (phase = "cleanup_intent") then Some (strs ["reclaimed"; "cleanup_failed"; "ambiguous"])
  else if bool_decide (phase = "cleanup_failed") then Some (strs ["cleanup_intent"; "ambiguous"])
  else if bool_decide (phase = "retained_by_policy") then Some (strs ["cleanup_intent"; "ambiguous"])
  else if bool_decide (phase = "ambiguous") then Some []
  else if bool_decide (phase = "reclaimed") then Some []
  else None.

Definition TOP_FIELDS : list pystr :=
  strs ["schema"; "sequence"; "controllerInstance"; "bootId"; "principalUid"; "sessionId"; "resourceId"; "kind"; "phase";
        "stage"; "identity"; "retainedRecoverable"; "observations"; "stateRoot"; "cleanupTarget"; "checksum"].
Definition ROOT_IDENTITY_FIELDS : list pystr := strs ["device"; "inode"; "uid"].
Definition FILE_IDENTITY : list pystr := strs ["relativePath"; "device"; "inode"; "mode"; "ctimeNs"; "ownershipToken"].
Definition IDENTITY_FIELDS (kind : pystr) : list pystr :=
  if bool_decide (kind = "process") then strs ["pid"; "startTime"; "bootId"; "cgroup"]
  else if bool_decide (kind = "cgroup") then strs ["relativePath"; "device"; "inode"; "mode"]
  else FILE_IDENTITY.
Definition OBSERVATION_FIELDS : list pystr := strs ["attemptId"; "status"; "reasonCode"].
Definition OBSERVATION_STATUSES : list pystr := strs ["unconfirmed"; "recovered"; "failed"; "ambiguous"].

(** ** Texts and paths *)
Definition bad (label : string) : exn := JournalError ("invalid " ++ label)%string.

Definition _canonical (v : json) : bytes := canonical v.

(** [len(value.encode("utf-8"))]: a lone surrogate raises [UnicodeEncodeError]. *)
Definition encoded_len (s : pystr) : res Z := from_option_res (utf8_len s) UnicodeError.

Definition _text (value : json) (label : string) (maximum : Z) : res pystr :=
  match value with
  | JStr s =>
    raise_if (bool_decide (s = [])) (bad label) ;;
    n ← encoded_len s;
    raise_if (maximum <? n)%Z (bad label) ;;
    Ok s
  | _ => Err (bad label)
  end.

Definition opaque_char (c : N) : bool := is_id_char c.

Definition _opaque (value : json) (label : string) : res pystr :=
  text ← _text value label 128;
  raise_if (match text with c :: _ => (c =? 46)%N | [] => false end || negb (forallb opaque_char text)) (bad label) ;;
  Ok text.

Definition checked_relative_path (value : json) : res pystr :=
  text ← _text value "relative path" MAX_STRING;
  let raw_parts := split_on 47 text in
  raise_if (starts_with "/" text || existsb (fun part => bool_decide (part ∈ strs [""; "."; ".."])) raw_parts)
    (JournalError "invalid relative path") ;;
  Ok (join_with 47 raw_parts).

Definition lower_hex64 (s : pystr) : bool := match_hex 64 s.

(** [type(v) is int and v >= 0] *)
Definition natural (v : json) : bool := match v with JInt z => (0 <=? z)%Z | _ => false end.

Definition check_natural (v : json) (name : pystr) (e : exn) : res unit :=
  x ← getitem v name; raise_if (negb (natural x)) e.

Definition cgroup_identity_digest (identity : json) : pystr :=
  sha256_hex (str "mirrorgate.cgroup-identity/v2" ++ [0]%N ++ _canonical identity).

(** ** Identities *)

(** [type(v) is dict and set(v) == fields and every field a natural number] *)
Definition root_identity (v : json) : bool :=
  match v with
  | JObj d => set_eq (dkeys d) ROOT_IDENTITY_FIELDS
              && forallb (fun k => match dget k d with Some x => natural x | None => false end) ROOT_IDENTITY_FIELDS
  | _ => false
  end.

Definition or_none (o : option json) : json := match o with Some v => v | None => JNull end.

Definition _validate_identity (kind phase : pystr) (value : json) (schema : pystr) : res json :=
  d ← match value with JObj d => Ok d | _ => Err (JournalError "identity must be an object") end;
  let v2 := bool_decide (schema = GROUP_SCHEMA) in
  let process := bool_decide (kind = "process") in
  let cgroup := bool_decide (kind = "cgroup") in
  allowed ← (if v2 then
      if cgroup then Ok (IDENTITY_FIELDS kind ++ strs ["delegation"])
      else if process then Ok (IDENTITY_FIELDS kind ++ strs ["cgroupResourceId"; "cgroupIdentityDigest"])
      else Err (JournalError "v2 is restricted to cgroup-covered resources")
    else Ok (IDENTITY_FIELDS kind));
  raise_if (negb (set_sub (dkeys d) allowed)) (JournalError "identity contains unknown fields") ;;
  let open := bool_decide (phase ∈ strs ["allocation_intent"; "ambiguous"]) in
  if open && bool_decide (d = []) && negb (v2 && process) then Ok (JObj [])
  else
    intent ← (if v2 && process then
        _opaque (or_none (dget "cgroupResourceId" d)) "covering cgroup resource" ;;
        raise_if (negb (match dget "cgroupIdentityDigest" d with Some (JStr s) => lower_hex64 s | _ => false end))
          (JournalError "invalid covering cgroup identity digest") ;;
        Ok (open && set_eq (dkeys d) (strs ["cgroupResourceId"; "cgroupIdentityDigest"]))
      else Ok false);
    if intent : bool then Ok (JObj d)
    else
      raise_if (negb (set_eq (dkeys d) allowed)) (JournalError "identity fields are incomplete") ;;
      if bool_decide (kind ∈ strs ["filesystem"; "retained_source"]) then
        p ← getitem value "relativePath"; path ← checked_relative_path p;
        for_each (fun name => check_natural value name (JournalError "filesystem identity is invalid"))
          (strs ["device"; "inode"; "mode"; "ctimeNs"]) ;;
        t ← getitem value "ownershipToken"; token ← _opaque t "filesystem ownership token";
        raise_if (negb (lower_hex64 token)) (JournalError "filesystem ownership token is invalid") ;;
        Ok (JObj (dset "relativePath" (JStr path) d))
      else if cgroup then
        p ← getitem value "relativePath"; path ← checked_relative_path p;
        for_each (fun name => check_natural value name (JournalError "cgroup identity is invalid"))
          (strs ["device"; "inode"; "mode"]) ;;
        (if v2 then
           parent ← getitem value "delegation";
           raise_if (negb (root_identity parent)) (JournalError "invalid cgroup delegation identity")
         else Ok tt) ;;
        Ok (JObj (dset "relativePath" (JStr path) d))
      else
        pid ← getitem value "pid";
        raise_if (negb (match pid with JInt z => (0 <? z)%Z | _ => false end))
          (JournalError "process PID observation is invalid") ;;
        s ← getitem value "startTime"; _text s "process start time" MAX_STRING ;;
        b ← getitem value "bootId"; _text b "process boot identity" MAX_STRING ;;
        c ← getitem value "cgroup"; _text c "process cgroup" 1024 ;;
        Ok (JObj d).

(** ** Records *)

(** [item is not None and (type(item) is not str or len(item.encode("utf-8")) > 4096)] *)
Definition long_value (v : json) : res bool :=
  match v with
  | JNull => Ok false
  | JStr s => n ← encoded_len s; Ok (4096 <? n)%Z
  | _ => Ok true
  end.

(** [any(...)] over values: the first that holds ends the search. *)
Fixpoint any_res (test : json -> res bool) (l : list json) : res bool :=
  match l with
  | [] => Ok false
  | v :: l' => b ← test v; if b : bool then Ok true else any_res test l'
  end.

Definition evidence_error : exn := JournalError "cgroup cleanup evidence lacks observed quiescence".

Definition check_evidence (kind phase : pystr) (evidence : json) : res unit :=
  _ ← match evidence with
      | JObj e =>
        raise_if (negb (bool_decide (kind = "cgroup"))
                  || negb (bool_decide (phase ∈ strs ["cleanup_intent"; "cleanup_failed"; "reclaimed"]))
                  || negb (set_eq (dkeys e) (strs ["settings"; "counters"])))
          (JournalError "invalid cgroup cleanup evidence")
      | _ => Err (JournalError "invalid cgroup cleanup evidence")
      end;
  s ← getitem evidence "settings"; c ← getitem evidence "counters";
  match s, c with
  | JObj settings, JObj counters =>
    raise_if (negb (set_eq (dkeys settings) CGROUP_SETTINGS) || negb (set_sub (dkeys counters) CGROUP_COUNTERS)) evidence_error ;;
    long ← any_res long_value (settings.*2 ++ counters.*2);
    (* the values are texts or None here, so [counters.get(...) or ""] is a text *)
    raise_if (long || negb (quiescent counters)) evidence_error
  | _, _ => Err evidence_error
  end.

Definition check_observation_record (o : json) : res unit :=
  _ ← closed_dict o OBSERVATION_FIELDS (JournalError "observation fields are not closed");
  s ← getitem o "status"; member s OBSERVATION_STATUSES (JournalError "invalid observation status") ;;
  a ← getitem o "attemptId"; _text a "recovery attempt" MAX_STRING ;;
  r ← getitem o "reasonCode";
  match r with JNull => Ok tt | _ => _text r "reason code" 128 ;; Ok tt end.

Definition is_group (d : pydict) : bool := opt_str_is (dget "schema" d) GROUP_SCHEMA.

Definition str_of (v : json) : pystr := match v with JStr s => s | _ => [] end.

Definition validate_record (value : json) (expected_name : option pystr) : res json :=
  d ← match value with JObj d => Ok d | _ => Err (JournalError "record fields are not closed") end;
  raise_if (negb (set_eq (dkeys d) (TOP_FIELDS ++ if is_group d then strs ["cleanupEvidence"] else [])))
    (JournalError "record fields are not closed") ;;
  schema ← getitem value "schema";
  raise_if (negb (str_in schema [SCHEMA; GROUP_SCHEMA])) (JournalError "unsupported journal version") ;;
  sequence ← getitem value "sequence";
  raise_if (negb (match sequence with JInt z => (0 <? z)%Z | _ => false end)) (JournalError "invalid record sequence") ;;
  v ← getitem value "controllerInstance"; _opaque v "controller instance" ;;
  v ← getitem value "bootId"; _text v "bootId" MAX_STRING ;;
  v ← getitem value "sessionId"; _opaque v "session ID" ;;
  v ← getitem value "resourceId"; resource_id ← _opaque v "resource ID";
  v ← getitem value "stage"; _opaque v "stage" ;;
  raise_if (match expected_name with Some name => negb (bool_decide (resource_id ++ str ".json" = name)) | None => false end)
    (JournalError "record filename does not match resource identity") ;;
  v ← getitem value "principalUid";
  raise_if (negb (natural v)) (JournalError "invalid principal UID") ;;
  k ← getitem value "kind"; p ← getitem value "phase";
  raise_if (negb (str_in k KINDS) || negb (str_in p PHASES)) (JournalError "invalid resource kind or phase") ;;
  let kind := str_of k in let phase := str_of p in
  i ← getitem value "identity"; identity ← _validate_identity kind phase i (str_of schema);
  (if is_group d then
     evidence ← getitem value "cleanupEvidence";
     match evidence with JNull => Ok tt | _ => check_evidence kind phase evidence end
   else Ok tt) ;;
  retained ← getitem value "retainedRecoverable";
  raise_if (negb (is_bool retained)) (JournalError "invalid retained policy") ;;
  root ← getitem value "stateRoot";
  raise_if (negb (root_identity root)) (JournalError "invalid state-root identity") ;;
  t ← getitem value "cleanupTarget";
  cleanup_target ← match t with
    | JNull => Ok JNull
    | _ =>
      path ← checked_relative_path t;
      raise_if (negb (starts_with "quarantine/reclaim-" path)) (JournalError "cleanup target is outside quarantine") ;;
      Ok (JStr path)
    end;
  raise_if (bool_decide (kind = "retained_source")
            && bool_decide (phase ∈ strs ["cleanup_intent"; "cleanup_failed"; "reclaimed"])
            && bool_decide (retained = JBool false))
    (JournalError "retained source cleanup lacks explicit policy") ;;
  observations ← getitem value "observations";
  l ← match observations with
      | JArr l => raise_if (64 <? zlen l)%Z (JournalError "invalid observation list") ;; Ok l
      | _ => Err (JournalError "invalid observation list")
      end;
  for_each check_observation_record l ;;
  c ← getitem value "checksum";
  checksum ← match c with
    | JStr s => raise_if (negb (lower_hex64 s)) (JournalError "invalid checksum") ;; Ok s
    | _ => Err (JournalError "invalid checksum")
    end;
  raise_if (negb (bool_decide (sha256_hex (_canonical (JObj (ddel "checksum" d))) = checksum)))
    (JournalError "record checksum mismatch") ;;
  Ok (JObj (dset "observations" (JArr l) (dset "cleanupTarget" cleanup_target (dset "identity" identity d)))).

Definition encode_record (payload : pydict) : res bytes :=
  let body := dset "checksum" (JStr (sha256_hex (_canonical (JObj payload)))) payload in
  validate_record (JObj body) None ;;
  let encoded := _canonical (JObj body) ++ [10]%N in
  raise_if (MAX_RECORD_BYTES <? zlen encoded)%Z (JournalError "record exceeds byte limit") ;;
  Ok encoded.

(** ** Reading *)

Definition bounds_error : exn := JournalError "journal JSON exceeds structural bounds".

(** [_bounded_json]: returns the budget used so far. *)
Definition enter (depth budget : Z) : res Z :=
  raise_if ((10 <? depth)%Z || (2048 <? budget + 1)%Z) bounds_error ;; Ok (budget + 1)%Z.

Definition bounded_str (s : pystr) : res unit :=
  n ← encoded_len s; raise_if (4096 <? n)%Z (JournalError "journal string exceeds bounds").

Fixpoint _bounded_json (v : json) (depth budget : Z) : res Z :=
  budget ← enter depth budget;
  match v with
  | JNull | JBool _ => Ok budget
  | JInt z => raise_if (2 ^ 63 - 1 <? Z.abs z)%Z (JournalError "journal integer exceeds bounds") ;; Ok budget
  | JStr s => bounded_str s ;; Ok budget
  | JArr l =>
    (fix go (l : list json) (budget : Z) : res Z :=
       match l with [] => Ok budget | x :: l' => b ← _bounded_json x (depth + 1) budget; go l' b end) l budget
  | JObj d =>
    (fix go (d : pydict) (budget : Z) : res Z :=
       match d with
       | [] => Ok budget
       | kv :: d' =>
         b ← enter (depth + 1) budget; bounded_str kv.1 ;;
         b ← _bounded_json kv.2 (depth + 1) b; go d' b
       end) d budget
  | JFloat _ => Err (JournalError "journal JSON type is unsupported")
  end.

Definition record_hooks : json_hooks := default_hooks (JournalError "duplicate JSON field").

(** [except (UnicodeDecodeError, json.JSONDecodeError, JournalError, RecursionError)] *)
Definition malformed (e : exn) : bool :=
  match e with UnicodeError | JSONDecodeError | JournalError _ | RecursionError => true | _ => false end.

Definition ends_newline (data : bytes) : bool := match rev data with c :: _ => (c =? 10)%N | [] => false end.

Definition _decode_record (rec_limit : nat) (data : bytes) (name : pystr) : res json :=
  raise_if (bool_decide (data = []) || (MAX_RECORD_BYTES <? zlen data)%Z || negb (ends_newline data))
    (JournalError "journal record is truncated or oversized") ;;
  value ← try_except
    (s ← from_option_res (decode_json_bytes data) UnicodeError; loads record_hooks rec_limit s)
    malformed (fun _ => Err (JournalError "journal record is malformed"));
  _bounded_json value 0 0 ;;
  validate_record value (Some name).

(** ** What the checks accept *)

Definition text_ok (m : Z) (s : pystr) : Prop := s <> [] /\ exists n, utf8_len s = Some n /\ (n <= m)%Z.

Lemma _text_Ok v label m s : _text v label m = Ok s <-> v = JStr s /\ text_ok m s.
Proof.
  unfold _text, text_ok, encoded_len. destruct v; try (split; [done|intros [? _]; done]). split.
  - intros H. inv_res. bool_hyps. destruct (utf8_len s) as [n|]; [|done]. simpl in *. inv_res. eauto.
  - intros ([= <-] & Hs & n & Hn & Hl). rewrite bool_decide_eq_false_2 by done. rewrite Hn. cbn [raise_if rbind from_option_res].
    by rewrite (proj2 (Z.ltb_ge _ _) Hl).
Qed.

Definition opaque_ok (s : pystr) : Prop :=
  text_ok 128 s /\ forallb opaque_char s = true /\ match s with c :: _ => c <> 46%N | [] => True end.

Lemma _opaque_Ok v label s : _opaque v label = Ok s <-> v = JStr s /\ opaque_ok s.
Proof.
  unfold _opaque, opaque_ok. split.
  - intros H. inv_res. match goal with H : _text _ _ _ = _ |- _ => apply _text_Ok in H as [-> ?] end. bool_hyps.
    split_and!; try done. destruct s as [|c s]; [done|]. by apply N.eqb_neq.
  - intros (-> & Ht & Ho & Hc). rewrite (proj2 (_text_Ok _ _ _ _) (conj eq_refl Ht)). cbn [rbind]. rewrite Ho.
    destruct s as [|c s]; [done|]. by rewrite (proj2 (N.eqb_neq _ _) Hc).
Qed.

(** A relative path whose parts are all proper names. *)
Definition path_ok (s : pystr) : Prop :=
  text_ok MAX_STRING s /\ starts_with "/" s = false /\ Forall (fun part => part ∉ strs [""; "."; ".."]) (split_on 47 s).

Lemma checked_relative_path_Ok v s : checked_relative_path v = Ok s <-> v = JStr s /\ path_ok s.
Proof.
  unfold checked_relative_path, path_ok. split.
  - intros H. inv_res. match goal with H : _text _ _ _ = _ |- _ => apply _text_Ok in H as [-> ?] end. bool_hyps.
    rewrite join_split. split_and!; try done. apply list.Forall_forall. intros part Hp Hb.
    match goal with H : existsb _ _ = false |- _ => apply not_true_iff_false in H; apply H, existsb_exists end.
    exists part. split; [by apply list_elem_of_In|by apply bool_decide_eq_true].
  - intros (-> & Ht & Hs & Hp). rewrite (proj2 (_text_Ok _ _ _ _) (conj eq_refl Ht)). cbn [rbind]. rewrite Hs, join_split.
    assert (existsb (fun part => bool_decide (part ∈ strs [""; "."; ".."])) (split_on 47 s) = false) as ->; [|done].
    apply not_true_iff_false. rewrite existsb_exists. intros (part & Hi & Hb).
    rewrite list.Forall_forall in Hp. apply bool_decide_eq_true in Hb. by apply (Hp part); [apply list_elem_of_In|].
Qed.

Lemma dset_same k v d : dget k d = Some v -> dset k v d = d.
Proof.
  induction d as [|[k' w] d IH]; simpl; [done|]. case_bool_decide; intros; simplify_eq; [done|]. by rewrite IH.
Qed.

Ltac open_record :=
  repeat match goal with
  | H : _text _ _ _ = Ok _ |- _ => apply _text_Ok in H as [? ?]; subst
  | H : _opaque _ _ = Ok _ |- _ => apply _opaque_Ok in H as [? ?]; subst
  | H : checked_relative_path _ = Ok _ |- _ => apply checked_relative_path_Ok in H as [? ?]; subst
  | H : getitem (JObj _) _ = Ok _ |- _ => apply port.getitem_Ok in H as (? & [= <-] & ?)
  end; open_receipt.

(** Validation only refuses: what it returns is what it was given. *)
Lemma _validate_identity_same kind phase v schema i : _validate_identity kind phase v schema = Ok i -> i = v.
Proof.
  unfold _validate_identity. intros H. apply bind_Ok in H as (d & Hd & H). destruct v as [| | | | | |d']; try discriminate Hd.
  injection Hd as <-. apply bind_Ok in H as (allowed & _ & H). apply bind_Ok in H as (u & _ & H).
  destruct (_ && negb _) eqn:E in H; [bool_hyps; subst; by inv_res|].
  apply bind_Ok in H as (intent & _ & H). destruct intent; [by inv_res|]. apply bind_Ok in H as (u' & _ & H).
  destruct (bool_decide (kind ∈ _)); [|destruct (bool_decide (kind = "cgroup"))].
  1,2: inv_res; open_record; by rewrite dset_same.
  inv_res; done.
Qed.

Lemma validate_record_same v name r : validate_record v name = Ok r -> r = v.
Proof.
  unfold validate_record. intros H. apply bind_Ok in H as (d & Hd & H). destruct v as [| | | | | |d']; try discriminate Hd.
  injection Hd as <-. inv_res.
  repeat match goal with H : _validate_identity _ _ _ _ = _ |- _ => apply _validate_identity_same in H; subst end.
  match goal with H : match ?o with _ => _ end = @Ok (list json) _ |- _ => destruct o; try discriminate H; inv_res end.
  match goal with H : match ?t with JNull => _ | _ => _ end = Ok ?c, Hg : getitem _ (str "cleanupTarget") = Ok ?t |- _ =>
    assert (c = t) as -> by (destruct t; inv_res; open_record; done) end.
  repeat match goal with H : getitem (JObj _) _ = Ok _ |- _ => apply port.getitem_Ok in H as (? & [= <-] & ?) end.
  rewrite (dset_same "identity"), (dset_same "cleanupTarget"), dset_same by done. done.
Qed.

(** ** A typed view of a record *)
Record view : Type := View {
  v_schema : pystr; v_sequence : Z; v_resource : pystr; v_kind : pystr; v_phase : pystr; v_retained : bool;
  v_target : option pystr }.

Definition has_view (d : pydict) (w : view) : Prop :=
  dget "schema" d = Some (JStr (v_schema w)) /\ dget "sequence" d = Some (JInt (v_sequence w)) /\
  dget "resourceId" d = Some (JStr (v_resource w)) /\ dget "kind" d = Some (JStr (v_kind w)) /\
  dget "phase" d = Some (JStr (v_phase w)) /\ dget "retainedRecoverable" d = Some (JBool (v_retained w)) /\
  dget "cleanupTarget" d = Some (opt_json (v_target w)).

Definition cleaning (phase : pystr) : bool := bool_decide (phase ∈ strs ["cleanup_intent"; "cleanup_failed"; "reclaimed"]).

Definition view_ok (w : view) : Prop :=
  v_schema w ∈ [SCHEMA; GROUP_SCHEMA] /\ (0 < v_sequence w)%Z /\ opaque_ok (v_resource w) /\ v_kind w ∈ KINDS /\
  v_phase w ∈ PHASES /\
  match v_target w with Some p => path_ok p /\ starts_with "quarantine/reclaim-" p = true | None => True end /\
  (v_kind w = "retained_source" -> cleaning (v_phase w) = true -> v_retained w = true).

Lemma has_view_fun d w w' : has_view d w -> has_view d w' -> w = w'.
Proof.
  destruct w, w'. intros (A1 & A2 & A3 & A4 & A5 & A6 & A7) (B1 & B2 & B3 & B4 & B5 & B6 & B7). simpl in *.
  assert (v_target0 = v_target1) as -> by (destruct v_target0, v_target1; simpl in *; congruence). congruence.
Qed.

Lemma validate_record_view d name r :
  validate_record (JObj d) name = Ok r ->
  exists w, has_view d w /\ view_ok w /\ match name with Some n => n = v_resource w ++ str ".json" | None => True end.
Proof.
  unfold validate_record. cbn [rbind]. intros H. inv_res.
  repeat match goal with H : getitem (JObj _) _ = Ok _ |- _ => apply port.getitem_Ok in H as (? & [= <-] & ?) end.
  bool_hyps.
  repeat match goal with H : str_in _ _ = true |- _ => apply str_in_true in H as (? & -> & ?) end. cbn [str_of] in *.
  match goal with H : match ?x with JInt _ => _ | _ => _ end = true, G : dget (str "sequence") _ = Some ?x |- _ =>
    destruct x; try discriminate H; apply Z.ltb_lt in H end.
  match goal with H : is_bool ?x = true |- _ => destruct x; try discriminate H end.
  repeat match goal with H : _opaque _ _ = Ok _ |- _ => apply _opaque_Ok in H as [? ?]; subst end.
  match goal with H : match ?t with JNull => _ | _ => _ end = Ok ?c, Hg : dget (str "cleanupTarget") _ = Some ?t |- _ =>
    assert (exists o, t = opt_json o /\ match o with Some p => path_ok p /\ starts_with "quarantine/reclaim-" p = true | None => True end)
      as (target & -> & Ht) end.
  { match goal with H : match ?t with JNull => _ | _ => _ end = Ok ?c, Hg : dget (str "cleanupTarget") _ = Some ?t |- _ =>
      destruct t; inv_res; open_record; try done; [by exists None|]; bool_hyps end.
    match goal with Hp : path_ok ?p |- _ => exists (Some p) end. done. }
  eexists (View _ _ _ _ _ _ target). split; [split_and!; eassumption|]. split; [split_and!; try eassumption|].
  - simpl. unfold cleaning. intros -> Hc.
    match goal with H : _ && _ && bool_decide (JBool ?x = _) = false |- _ => rewrite Hc in H; destruct x; [done|discriminate H] end.
  - destruct name; [|done]. simpl in *. bool_hyps. done.
Qed.

(** ** Validation does not see the order of keys *)

Definition sorted_dict (d : pydict) : pydict := dsort (map (fun kv => (kv.1, sort_json kv.2)) d).

Lemma dkeys_sorted d : dkeys (sorted_dict d) ≡ₚ dkeys d.
Proof. unfold sorted_dict. by rewrite dkeys_dsort, dkeys_map. Qed.

Lemma set_eq_perm a b ks : a ≡ₚ b -> set_eq a ks = set_eq b ks.
Proof. intros Hp. apply eq_true_iff_eq. rewrite !set_eq_spec. by setoid_rewrite Hp. Qed.

Lemma set_sub_perm a b ks : a ≡ₚ b -> set_sub a ks = set_sub b ks.
Proof. intros Hp. apply eq_true_iff_eq. rewrite !set_sub_spec. split; intros H x Hx; apply H; by rewrite Hp in *. Qed.

Lemma dget_sorted k d x : NoDup (dkeys d) -> dget k d = Some x -> dget k (sorted_dict d) = Some (sort_json x).
Proof. intros Hd Hx. unfold sorted_dict. by rewrite dget_sort_json, Hx. Qed.

Lemma dget_sorted_None k d : NoDup (dkeys d) -> dget k d = None -> dget k (sorted_dict d) = None.
Proof. intros Hd Hx. unfold sorted_dict. by rewrite dget_sort_json, Hx. Qed.

Lemma getitem_sorted k d x :
  NoDup (dkeys d) -> getitem (JObj d) k = Ok x -> getitem (JObj (sorted_dict d)) k = Ok (sort_json x).
Proof.
  intros Hd Hx. apply port.getitem_Ok in Hx as (? & [= <-] & Hx). apply getitem_dget. by apply dget_sorted.
Qed.

Lemma forallb_same {A} (f g : A -> bool) l : (forall x, f x = g x) -> forallb f l = forallb g l.
Proof. intros H. induction l as [|x l IH]; simpl; [done|]. by rewrite H, IH. Qed.

Lemma natural_sort v : natural (sort_json v) = natural v.
Proof. by destruct v. Qed.

Lemma root_identity_sort v : wf_json v -> root_identity (sort_json v) = root_identity v.
Proof.
  destruct v as [| | | | | |d]; try done. intros [Hn _]%wf_obj. cbn [sort_json root_identity]. fold (sorted_dict d).
  rewrite (set_eq_perm _ _ _ (dkeys_sorted d)). f_equal. apply forallb_same. intros k. unfold sorted_dict.
  rewrite dget_sort_json by done. destruct (dget k d); [|done]. simpl. apply natural_sort.
Qed.

Lemma wf_dget d k x : wf_json (JObj d) -> dget k d = Some x -> wf_json x.
Proof.
  intros [_ Hf]%wf_obj Hx. rewrite list.Forall_forall in Hf. apply Hf.
  apply dget_Some_in in Hx. by apply (list_elem_of_fmap_2 snd) in Hx.
Qed.

Lemma sorted_nil d : sorted_dict d = [] <-> d = [].
Proof.
  split; [|by intros ->]. intros H. pose proof (dkeys_sorted d) as Hp. rewrite H in Hp. apply Permutation_nil_l in Hp.
  by destruct d.
Qed.

Lemma check_natural_sort d name e u :
  NoDup (dkeys d) -> check_natural (JObj d) name e = Ok u -> check_natural (JObj (sorted_dict d)) name e = Ok u.
Proof.
  intros Hd H. unfold check_natural in *. inv_res. erewrite getitem_sorted by eassumption. cbn [rbind].
  rewrite natural_sort. match goal with H : negb _ = false |- _ => by rewrite H end.
Qed.

Lemma for_each_impl {A} (f g : A -> res unit) l u :
  (forall x, x ∈ l -> f x = Ok tt -> g x = Ok tt) -> for_each f l = Ok u -> for_each g l = Ok tt.
Proof. rewrite !for_each_Ok, !list.Forall_forall. auto. Qed.

Lemma dset_sorted k p d :
  NoDup (dkeys d) -> dget k d = Some (JStr p) -> dset k (JStr p) (sorted_dict d) = sorted_dict d.
Proof. intros Hd Hp. apply dset_same. exact (dget_sorted k d (JStr p) Hd Hp). Qed.

(** Replays a successful check on the sorted value. *)
Ltac replay :=
  repeat first
  [ progress cbn [sort_json]
  | match goal with H : getitem (JObj ?d) ?k = Ok ?x |- context [getitem (JObj (sorted_dict ?d)) ?k] =>
      rewrite (getitem_sorted k d x ltac:(assumption) H); cbn [rbind sort_json] end
  | match goal with H : path_ok ?p |- context [checked_relative_path (JStr ?p)] =>
      rewrite (proj2 (checked_relative_path_Ok (JStr p) p) (conj eq_refl H)); cbn [rbind] end
  | match goal with H : opaque_ok ?p |- context [_opaque (JStr ?p) ?l] =>
      rewrite (proj2 (_opaque_Ok (JStr p) l p) (conj eq_refl H)); cbn [rbind] end
  | match goal with H : text_ok ?m ?p |- context [_text (JStr ?p) ?l ?m] =>
      rewrite (proj2 (_text_Ok (JStr p) l m p) (conj eq_refl H)); cbn [rbind] end
  | match goal with H : ?s ∈ ?a |- context [member (JStr ?s) ?a ?e] =>
      rewrite (proj2 (member_Ok (JStr s) a e s) (conj eq_refl H)); cbn [rbind] end
  | match goal with H : for_each (fun name => check_natural (JObj ?d) name _) _ = Ok _
      |- context [for_each (fun name => check_natural (JObj (sorted_dict ?d)) name _) _] =>
      rewrite (for_each_impl _ _ _ _ (fun x _ => check_natural_sort d x _ _ ltac:(assumption)) H); cbn [rbind] end
  | match goal with H : ?t = Ok _ |- context [rbind ?t _] => rewrite H; cbn [rbind] end
  | match goal with H : ?b = false |- context [raise_if ?b _] => rewrite H; cbn [raise_if rbind] end
  ].

Lemma _validate_identity_sort kind phase d schema :
  wf_json (JObj d) -> _validate_identity kind phase (JObj d) schema = Ok (JObj d) ->
  _validate_identity kind phase (JObj (sorted_dict d)) schema = Ok (JObj (sorted_dict d)).
Proof.
  intros Hw H. pose proof Hw as [Hn _]%wf_obj. unfold _validate_identity in *. cbn [rbind] in *.
  apply bind_Ok in H as (allowed & Ha & H). rewrite Ha. cbn [rbind]. apply bind_Ok in H as (u & Hu & H).
  rewrite (set_sub_perm _ _ _ (dkeys_sorted d)), Hu. cbn [rbind].
  rewrite (bool_decide_ext _ _ (sorted_nil d)).
  destruct (_ && negb _) eqn:E in H.
  { rewrite E. bool_hyps. by subst. }
  rewrite E. apply bind_Ok in H as (intent & Hi & H).
  match goal with |- rbind ?m _ = _ => assert (m = Ok intent) as -> end.
  { revert Hi. clear E. destruct (bool_decide (schema = GROUP_SCHEMA) && bool_decide (kind = "process")); [|done]. intros Hi. inv_res.
    rewrite (set_eq_perm _ _ _ (dkeys_sorted d)). open_record.
    destruct (dget "cgroupResourceId" d) as [c|] eqn:Ec; [|done]. cbn [or_none] in *. subst c.
    rewrite (dget_sorted _ _ _ Hn Ec). cbn [or_none sort_json].
    erewrite (proj2 (_opaque_Ok _ _ _)) by (split; [reflexivity|eassumption]). cbn [rbind].
    match goal with H : negb _ = false |- _ => apply negb_false_iff in H end.
    destruct (dget "cgroupIdentityDigest" d) as [[]|] eqn:Eg; try discriminate.
    rewrite (dget_sorted _ _ _ Hn Eg). cbn [sort_json]. by match goal with H : lower_hex64 _ = true |- _ => rewrite H end. }
  cbn [rbind]. destruct intent; [done|]. apply bind_Ok in H as (u' & Hs & H).
  rewrite (set_eq_perm _ _ _ (dkeys_sorted d)), Hs. cbn [rbind].
  destruct (bool_decide (kind ∈ _)); [|destruct (bool_decide (kind = "cgroup"))]; inv_res.
  - replay. open_record. replay. by rewrite dset_sorted.
  - replay. open_record. replay. destruct (bool_decide (schema = GROUP_SCHEMA)).
    + inv_res. open_record. erewrite getitem_sorted; [|done|by apply getitem_dget]. cbn [rbind].
      rewrite root_identity_sort by by eapply wf_dget. replay. by rewrite dset_sorted.
    + cbn [rbind]. by rewrite dset_sorted.
  - replay. open_record. replay.
    match goal with H : negb match ?x with _ => _ end = false |- _ => destruct x; try discriminate H end. cbn [sort_json]. by replay.
Qed.

Lemma any_res_false test l : any_res test l = Ok false <-> Forall (fun v => test v = Ok false) l.
Proof.
  induction l as [|v l IH]; simpl; [split; [constructor|done]|]. rewrite list.Forall_cons, <- IH.
  destruct (test v) as [[]|]; simpl; naive_solver.
Qed.

Lemma long_value_sort v : long_value (sort_json v) = long_value v.
Proof. by destruct v. Qed.

Lemma quiescent_sort c : NoDup (dkeys c) -> quiescent (sorted_dict c) = quiescent c.
Proof.
  intros Hc. unfold quiescent, sorted_dict. rewrite dget_sort_json by done. by destruct (dget "cgroup.events" c) as [[]|].
Qed.

Lemma sorted_values (P : json -> Prop) d :
  (forall v, P v -> P (sort_json v)) -> Forall P d.*2 -> Forall P (sorted_dict d).*2.
Proof.
  intros HP Hd. unfold sorted_dict. rewrite dsort_perm, list.Forall_fmap, List.Forall_map.
  rewrite list.Forall_fmap in Hd. eapply Forall_impl; [|exact Hd]. intros kv. simpl. apply HP.
Qed.

Lemma check_evidence_sort kind phase v u :
  wf_json v -> check_evidence kind phase v = Ok u -> check_evidence kind phase (sort_json v) = Ok u.
Proof.
  intros Hw H. unfold check_evidence in *. apply bind_Ok in H as (u0 & H0 & H).
  destruct v as [| | | | | |e]; try discriminate H0. pose proof Hw as [Hn _]%wf_obj.
  cbn [sort_json]. fold (sorted_dict e). rewrite (set_eq_perm _ _ _ (dkeys_sorted e)), H0. cbn [rbind].
  inv_res. replay. open_record.
  match goal with H : match ?m with _ => _ end = Ok _ |- _ => destruct m as [| | | | | |s]; try discriminate H end.
  match goal with H : match ?m with _ => _ end = Ok _ |- _ => destruct m as [| | | | | |c]; try discriminate H end.
  assert (NoDup (dkeys s) /\ NoDup (dkeys c)) as [Hs Hc].
  { split; match goal with |- NoDup (dkeys ?x) => assert (wf_json (JObj x)) as Hx by (by eapply wf_dget) end;
      by apply wf_obj in Hx as [? _]. }
  cbn [sort_json]. fold (sorted_dict s) (sorted_dict c).
  rewrite (set_eq_perm _ _ _ (dkeys_sorted s)), (set_sub_perm _ _ _ (dkeys_sorted c)). inv_res. replay. bool_hyps. subst.
  assert (any_res long_value ((sorted_dict s).*2 ++ (sorted_dict c).*2) = Ok false) as ->.
  { apply any_res_false, Forall_app. match goal with H : any_res _ _ = _ |- _ => apply any_res_false, Forall_app in H as [? ?] end.
    split; (apply sorted_values; [intros w Hl; by rewrite long_value_sort|done]). }
  cbn [rbind]. rewrite quiescent_sort by done. match goal with H : quiescent c = true |- _ => by rewrite H end.
Qed.

Lemma check_observation_record_sort v u :
  wf_json v -> check_observation_record v = Ok u -> check_observation_record (sort_json v) = Ok u.
Proof.
  intros Hw H. unfold check_observation_record in *. apply bind_Ok in H as (d & Hd & H).
  apply closed_dict_Ok in Hd as [-> Hd]. pose proof Hw as [Hn _]%wf_obj. cbn [sort_json]. fold (sorted_dict d).
  unfold closed_dict. rewrite (set_eq_perm _ _ _ (dkeys_sorted d)), Hd. cbn [negb raise_if rbind].
  inv_res. replay. open_record. replay.
  match goal with H : match ?s with _ => _ end = Ok _ |- _ => destruct s; inv_res; open_record; try done end.
  simplify_eq. by replay.
Qed.

(** Checks of scalars give the same answer on the sorted value. *)
Lemma str_in_sort v l : str_in (sort_json v) l = str_in v l.
Proof. by destruct v. Qed.
Lemma str_of_sort v : str_of (sort_json v) = str_of v.
Proof. by destruct v. Qed.
Lemma is_bool_sort v : is_bool (sort_json v) = is_bool v.
Proof. by destruct v. Qed.
Lemma text_sort v l m : _text (sort_json v) l m = _text v l m.
Proof. by destruct v. Qed.
Lemma opaque_sort v l : _opaque (sort_json v) l = _opaque v l.
Proof. by destruct v. Qed.
Lemma path_sort v : checked_relative_path (sort_json v) = checked_relative_path v.
Proof. by destruct v. Qed.

Lemma positive_sort v :
  match sort_json v with JInt z => (0 <? z)%Z | _ => false end = match v with JInt z => (0 <? z)%Z | _ => false end.
Proof. by destruct v. Qed.
Lemma retained_sort v : bool_decide (sort_json v = JBool false) = bool_decide (v = JBool false).
Proof. destruct v; done. Qed.
Lemma checksum_sort {A} (f : pystr -> res A) e v :
  match sort_json v with JStr s => f s | _ => Err e end = match v with JStr s => f s | _ => Err e end.
Proof. by destruct v. Qed.
Lemma target_sort {A} (f : pystr -> res A) g v :
  match sort_json v with JNull => g | _ => rbind (checked_relative_path (sort_json v)) f end
  = match v with JNull => g | _ => rbind (checked_relative_path v) f end.
Proof. by destruct v. Qed.

Lemma wf_getitem d k x : wf_json (JObj d) -> getitem (JObj d) k = Ok x -> wf_json x.
Proof. intros Hw Hx. apply port.getitem_Ok in Hx as (? & [= <-] & Hx). by eapply wf_dget. Qed.

Lemma evidence_sort kind phase v u :
  wf_json v -> match v with JNull => Ok tt | _ => check_evidence kind phase v end = Ok u ->
  match sort_json v with JNull => Ok tt | _ => check_evidence kind phase (sort_json v) end = Ok u.
Proof. intros Hw H. pose proof (check_evidence_sort kind phase v u Hw). destruct v; try done; by cbn [sort_json] in *; auto. Qed.

Lemma observations_sort l :
  Forall wf_json l -> for_each check_observation_record l = Ok tt ->
  for_each check_observation_record (map sort_json l) = Ok tt.
Proof.
  rewrite !for_each_Ok, List.Forall_map, !list.Forall_forall. intros Hw H o Ho. apply check_observation_record_sort; auto.
Qed.

Lemma validate_record_sort d name :
  wf_json (JObj d) -> validate_record (JObj d) name = Ok (JObj d) ->
  validate_record (JObj (sorted_dict d)) name = Ok (JObj (sorted_dict d)).
Proof.
  intros Hw H. pose proof Hw as [Hn _]%wf_obj. unfold validate_record in *. cbn [rbind] in *.
  apply bind_Ok in H as (u & H0 & H).
  assert (is_group (sorted_dict d) = is_group d) as Hg.
  { unfold is_group, sorted_dict. rewrite dget_sort_json by done. destruct (dget "schema" d) as [[]|]; done. }
  rewrite (set_eq_perm _ _ _ (dkeys_sorted d)), Hg, H0. cbn [rbind].
  repeat match type of H with rbind _ _ = _ => apply bind_Ok in H as (? & ? & H) end. clear H.
  replay. rewrite ?text_sort, ?opaque_sort, ?str_in_sort, ?natural_sort, ?str_of_sort, ?is_bool_sort.
  rewrite positive_sort, target_sort, retained_sort, checksum_sort. replay.
  match goal with H : _validate_identity _ _ ?v _ = Ok _ |- _ => pose proof (_validate_identity_same _ _ _ _ _ H); subst;
    destruct v as [| | | | | |i]; try discriminate H;
    pose proof (_validate_identity_sort _ _ i _ ltac:(eapply wf_getitem; eassumption) H) as Hi end.
  cbn [sort_json]. fold (sorted_dict i). replay.
  match goal with H : (if is_group d then _ else _) = Ok ?u |- rbind ?m _ = _ => assert (m = Ok u) as ->;
    [destruct (is_group d); [|done]; inv_res; replay; apply evidence_sort; [by eapply wf_getitem|done]|]; cbn [rbind] end.
  match goal with H : getitem _ (str "stateRoot") = Ok ?r |- _ =>
    rewrite (root_identity_sort r) by (eapply wf_getitem; eassumption) end. replay.
  match goal with H : match ?o with _ => _ end = @Ok (list json) ?l |- _ => destruct o as [| | | | |l'|]; try discriminate H; inv_res end.
  cbn [sort_json]. unfold zlen. rewrite length_map. fold (zlen x30). replay.
  match goal with H : for_each check_observation_record ?l = Ok _ |- _ =>
    rewrite (observations_sort l) by (done || (apply wf_arr; eapply wf_getitem; eassumption)) end. cbn [rbind].
  assert (_canonical (JObj (ddel "checksum" (sorted_dict d))) = _canonical (JObj (ddel "checksum" d))) as ->
    by (by apply canonical_ddel_sorted). replay.
  repeat match goal with H : getitem (JObj d) _ = Ok _ |- _ => apply port.getitem_Ok in H as (? & [= <-] & ?) end.
  rewrite (dset_same "identity") by (exact (dget_sorted "identity" d (JObj i) Hn ltac:(assumption))).
  match goal with H : match ?t with JNull => _ | _ => _ end = @Ok json ?c, Hg : dget (str "cleanupTarget") _ = Some ?t |- _ =>
    assert (c = sort_json t) as -> by (destruct t; inv_res; open_record; done); pose proof (dget_sorted _ d t Hn Hg) as Ht end.
  rewrite (dset_same "cleanupTarget") by exact Ht.
  rewrite (dset_same "observations") by (exact (dget_sorted "observations" d (JArr _) Hn ltac:(eassumption))). done.
Qed.

(** ** The structural bounds *)

(** Values and keys, each counted once. *)
Fixpoint weight (v : json) : Z :=
  (1 + match v with
       | JArr l => (fix go l := match l with [] => 0 | x :: l' => weight x + go l' end) l
       | JObj d => (fix go (d : pydict) := match d with [] => 0 | kv :: d' => 1 + weight kv.2 + go d' end) d
       | _ => 0
       end)%Z.

Definition short_text (s : pystr) : Prop := exists n, utf8_len s = Some n /\ (n <= 4096)%Z.

Definition fits (v : json) : Prop :=
  match v with
  | JInt z => (Z.abs z <= 2 ^ 63 - 1)%Z
  | JStr s => short_text s
  | JObj d => Forall short_text (dkeys d)
  | JFloat _ => False
  | _ => True
  end.

Lemma bounded_str_Ok s u : bounded_str s = Ok u <-> short_text s.
Proof.
  unfold bounded_str, short_text, encoded_len. destruct u. split.
  - intros H. inv_res. destruct (utf8_len s); simpl in *; inv_res; bool_hyps. eauto.
  - intros (n & -> & Hn). simpl. by rewrite (proj2 (Z.ltb_ge _ _) Hn).
Qed.

Lemma enter_Ok depth b b' : enter depth b = Ok b' <-> (b' = b + 1 /\ depth <= 10 /\ b + 1 <= 2048)%Z.
Proof.
  unfold enter. rewrite bind_Ok. setoid_rewrite raise_if_Ok. setoid_rewrite orb_false_iff. setoid_rewrite Z.ltb_ge.
  split; [intros ([] & [? ?] & [= <-]); lia|]. intros (-> & ? & ?). exists tt. split; [lia|done].
Qed.

Lemma weight_pos v : (1 <= weight v)%Z.
Proof.
  induction v as [|b|z|r|s|l IH|d IH] using json_nested_ind; simpl; try lia.
  - induction IH; lia.
  - induction IH; lia.
Qed.

(** The loops over items and members. *)
Definition bounded_at (depth : Z) (x : json) : Prop := forall b b',
  _bounded_json x depth b = Ok b' <->
  (b' = b + weight x /\ b + weight x <= 2048 /\ depth + json_depth x <= 10)%Z /\ Forall fits (subvalues x).

Fixpoint bounded_items (depth : Z) (l : list json) (b : Z) : res Z :=
  match l with [] => Ok b | x :: l' => b ← _bounded_json x depth b; bounded_items depth l' b end.

Fixpoint bounded_members (depth : Z) (d : pydict) (b : Z) : res Z :=
  match d with
  | [] => Ok b
  | kv :: d' => b ← enter depth b; bounded_str kv.1 ;; b ← _bounded_json kv.2 depth b; bounded_members depth d' b
  end.

Lemma bounded_arr l depth b : _bounded_json (JArr l) depth b = (b1 ← enter depth b; bounded_items (depth + 1) l b1).
Proof.
  cbn [_bounded_json]. destruct (enter depth b) as [b1|]; [|done]. cbn [rbind]. revert b1.
  induction l as [|x l IH]; intros b1; [done|]. cbn [bounded_items]. destruct (_bounded_json x _ _); [|done]. apply IH.
Qed.

Lemma bounded_obj d depth b : _bounded_json (JObj d) depth b = (b1 ← enter depth b; bounded_members (depth + 1) d b1).
Proof.
  cbn [_bounded_json]. destruct (enter depth b) as [b1|]; [|done]. cbn [rbind]. revert b1.
  induction d as [|x d IH]; intros b1; [done|]. cbn [bounded_members]. destruct (enter _ b1); [|done]. cbn [rbind].
  destruct (bounded_str x.1); [|done]. cbn [rbind]. destruct (_bounded_json x.2 _ _); [|done]. apply IH.
Qed.

Definition weights (l : list json) : Z := foldr (fun x a => weight x + a)%Z 0%Z l.

Lemma weights_nonneg l : (0 <= weights l)%Z.
Proof. induction l as [|x l IH]; simpl; [lia|]. pose proof (weight_pos x). lia. Qed.

Lemma bounded_items_Ok depth l b b' :
  Forall (bounded_at depth) l -> (b <= 2048)%Z ->
  bounded_items depth l b = Ok b' <->
  (b' = b + weights l /\ b + weights l <= 2048)%Z /\ Forall (fun x => depth + json_depth x <= 10)%Z l /\
  Forall fits (flat_map subvalues l).
Proof.
  intros Hl. revert b. induction Hl as [|x l Hx _ IH]; intros b Hb; cbn [bounded_items weights foldr flat_map].
  - split; [intros [= <-]; split_and!; [lia..|constructor|constructor]|]. intros ((-> & _) & _). f_equal. lia.
  - rewrite bind_Ok, list.Forall_cons, Forall_app. fold (weights l). pose proof (weights_nonneg l). split.
    + intros (b1 & [(-> & Q1 & Q2) Q3]%Hx & Q4). apply IH in Q4 as ((-> & Q5) & Q6 & Q7); [|lia]. split_and!; try done; lia.
    + intros ((-> & Q1) & [Q2 Q3] & Q4 & Q5). exists (b + weight x)%Z. split; [apply Hx; split_and!; try done; lia|].
      apply IH; [lia|]. split_and!; try done; lia.
Qed.

Lemma bounded_members_Ok depth (d : pydict) b b' :
  Forall (fun kv => bounded_at depth kv.2) d -> (b <= 2048)%Z ->
  bounded_members depth d b = Ok b' <->
  (b' = b + zlen d + weights d.*2 /\ b + zlen d + weights d.*2 <= 2048)%Z /\
  Forall (fun x => depth + json_depth x <= 10)%Z d.*2 /\ Forall short_text (dkeys d) /\
  Forall fits (flat_map subvalues d.*2).
Proof.
  intros Hl. revert b. induction Hl as [|[k x] d Hx _ IH]; intros b Hb; cbn [bounded_members weights foldr flat_map fmap list_fmap dkeys].
  - unfold zlen. simpl. split; [intros [= <-]; split_and!; [lia..|constructor|constructor|constructor]|].
    intros ((-> & _) & _). f_equal. lia.
  - rewrite bind_Ok, !list.Forall_cons, Forall_app. fold (weights d.*2). pose proof (weights_nonneg d.*2).
    unfold zlen in *. cbn [length fst snd] in *. setoid_rewrite enter_Ok. split.
    + intros (b1 & (-> & Q0 & Q1) & Q). apply bind_Ok in Q as (u & Qs & Q). apply bounded_str_Ok in Qs.
      apply bind_Ok in Q as (b2 & Qx & Q). apply Hx in Qx as [(-> & Q2 & Q3) Q4].
      apply IH in Q as ((-> & Q5) & Q6 & Q7 & Q8); [|lia]. split_and!; try done; lia.
    + intros ((-> & Q1) & [Q2 Q3] & [Q4 Q5] & Q6 & Q7). pose proof (weight_pos x). pose proof (json_depth_nonneg x).
      exists (b + 1)%Z. split; [lia|]. rewrite (proj2 (bounded_str_Ok k tt) Q4). cbn [rbind].
      rewrite (proj2 (Hx (b + 1)%Z (b + 1 + weight x)%Z)) by (split; [lia|done]). cbn [rbind].
      apply IH; [lia|]. split_and!; try done; lia.
Qed.

Lemma weight_children v :
  weight v = (1 + weights (children v) + match v with JObj d => zlen d | _ => 0 end)%Z.
Proof.
  destruct v as [| | | | |l|d]; try done; cbn [weight children].
  - by rewrite Z.add_0_r.
  - unfold zlen. rewrite <- Z.add_assoc. f_equal. induction d as [|x d IH]; [done|]. rewrite IH. cbn [weights foldr fmap list_fmap length].
    fold (weights d.*2). lia.
Qed.

Lemma depth_children v depth :
  (0 <= depth <= 10)%Z -> (depth + json_depth v <= 10)%Z <-> Forall (fun x => depth + 1 + json_depth x <= 10)%Z (children v).
Proof.
  intros Hd. transitivity (json_depth v <= 10 - depth)%Z; [lia|]. rewrite json_depth_le by lia.
  apply Forall_iff. intros x. simpl. lia.
Qed.

(** The check accepts exactly what is within depth 10 and 2048 nodes, and
    counts the nodes. *)
Lemma bounded_json_Ok v : forall depth, (0 <= depth)%Z -> bounded_at depth v.
Proof.
  induction v as [|x|z|r|s|l IH|d IH] using json_nested_ind; intros depth Hd b b';
    rewrite weight_children, subvalues_children, list.Forall_cons; cbn [children flat_map weights foldr].
  1-5: cbn [_bounded_json]; rewrite bind_Ok; setoid_rewrite enter_Ok; cbn [json_depth fits].
  - split; [intros (? & (-> & ? & ?) & [= <-]); split_and!; [lia..|done|constructor]|].
    intros ((-> & Q1 & Q2) & _). exists (b + 1)%Z. split; [lia|f_equal; lia].
  - split; [intros (? & (-> & ? & ?) & [= <-]); split_and!; [lia..|done|constructor]|].
    intros ((-> & Q1 & Q2) & _). exists (b + 1)%Z. split; [lia|f_equal; lia].
  - split.
    + intros (? & (-> & Q1 & Q2) & Q). inv_res. bool_hyps. split_and!; [lia..|constructor].
    + intros ((-> & Q1 & Q2) & Qz & _). exists (b + 1)%Z. split; [lia|].
      by rewrite (proj2 (Z.ltb_ge _ _)) by lia.
  - split; [intros (? & _ & ?); done|]. intros (_ & [] & _).
  - split.
    + intros (? & (-> & Q1 & Q2) & Q). inv_res. match goal with H : bounded_str _ = _ |- _ => apply bounded_str_Ok in H end.
      split_and!; [lia..|done|constructor].
    + intros ((-> & Q1 & Q2) & Qz & _). exists (b + 1)%Z. split; [lia|].
      by rewrite (proj2 (bounded_str_Ok _ tt) Qz).
  - rewrite bounded_arr.
    assert (Forall (bounded_at (depth + 1)) l) as Hl by (eapply Forall_impl; [|exact IH]; simpl; intros y Hy; apply Hy; lia).
    rewrite bind_Ok. setoid_rewrite enter_Ok. fold (weights l). pose proof (weights_nonneg l). split.
    + intros (? & (-> & Q1 & Q2) & Q). apply (bounded_items_Ok _ _ _ _ Hl Q2) in Q as ((-> & Q3) & Q4 & Q5).
      split_and!; try done; try lia. apply (depth_children (JArr l)); [lia|done].
    + intros ((-> & Q1 & Q2) & _ & Q3). pose proof (json_depth_nonneg (JArr l)). exists (b + 1)%Z. split; [lia|].
      apply bounded_items_Ok; [done|lia|]. split_and!; [lia..| |done]. by apply (depth_children (JArr l)); [lia|].
  - rewrite bounded_obj.
    assert (Forall (fun kv => bounded_at (depth + 1) kv.2) d) as Hl
      by (eapply Forall_impl; [|exact IH]; simpl; intros y Hy; apply Hy; lia).
    rewrite bind_Ok. setoid_rewrite enter_Ok. fold (weights d.*2). pose proof (weights_nonneg d.*2).
    assert (0 <= zlen d)%Z by (unfold zlen; lia). split.
    + intros (? & (-> & Q1 & Q2) & Q). apply (bounded_members_Ok _ _ _ _ Hl Q2) in Q as ((-> & Q3) & Q4 & Q5 & Q6).
      split_and!; try done; try lia. apply (depth_children (JObj d)); [lia|done].
    + intros ((-> & Q1 & Q2) & Qk & Q3). pose proof (json_depth_nonneg (JObj d)). exists (b + 1)%Z. split; [lia|].
      apply bounded_members_Ok; [done|lia|]. split_and!; [lia..| |done|done]. by apply (depth_children (JObj d)); [lia|].
Qed.

Lemma weights_perm l l' : l ≡ₚ l' -> weights l = weights l'.
Proof. induction 1; simpl; lia. Qed.

Lemma weight_sort v : weight (sort_json v) = weight v.
Proof.
  induction v as [|b|z|r|s|l IH|d IH] using json_nested_ind; try done; rewrite !weight_children; cbn [sort_json children].
  - do 2 f_equal. induction IH as [|x l Hx _ IHl]; [done|]. cbn [map weights foldr]. fold (weights (map sort_json l)) (weights l). lia.
  - fold (sorted_dict d). assert (zlen (sorted_dict d) = zlen d) as ->.
    { unfold sorted_dict. rewrite dsort_perm. unfold zlen. by rewrite length_map. }
    do 2 f_equal. unfold sorted_dict. rewrite (weights_perm _ (map (fun kv => (kv.1, sort_json kv.2)) d).*2) by by rewrite dsort_perm.
    induction IH as [|x d Hx _ IHd]; [done|]. cbn [map weights foldr fmap list_fmap].
    cbn [map fmap list_fmap] in IHd. unfold weights in *. simpl. simpl in IHd. lia.
Qed.

Lemma bounded_sort v n : _bounded_json v 0 0 = Ok n -> _bounded_json (sort_json v) 0 0 = Ok n.
Proof.
  intros H. apply (bounded_json_Ok v 0%Z ltac:(lia)) in H as ((-> & Q1 & Q2) & Q3).
  apply bounded_json_Ok; [lia|]. rewrite weight_sort. split; [split_and!; [done|done|]|].
  - assert (json_depth (sort_json v) <= json_depth v)%Z; [by apply sort_json_depth|lia].
  - revert Q3. apply sort_json_nodes. intros w Hw. destruct w; try done. simpl in *. by rewrite dkeys_dsort, dkeys_map.
Qed.

Lemma short_text_scalar s : short_text s -> Forall (fun c => is_scalar c = true) s.
Proof.
  intros (n & Hn & _). apply utf8_encode_Some. unfold utf8_len in Hn. destruct (utf8_encode s); [eauto|done].
Qed.

(** A value within the bounds survives its own text. *)
Lemma fits_rt v : wf_json v -> Forall fits (subvalues v) -> Forall (node_rt record_hooks) (subvalues v).
Proof.
  unfold wf_json. rewrite !list.Forall_forall. intros Hw Hf w Hw'. specialize (Hw w Hw'). specialize (Hf w Hw').
  destruct w; simpl in *; try done.
  - apply int_token_repr. lia.
  - by apply short_text_scalar.
  - split; [done|]. eapply Forall_impl; [|exact Hf]. apply short_text_scalar.
Qed.

Lemma fits_text v : Forall fits (subvalues v) -> Forall text_node (subvalues v).
Proof.
  intros H. eapply Forall_impl; [|exact H]. intros w Hw. destruct w; simpl in *; try done.
  - by apply short_text_scalar.
  - eapply Forall_impl; [|exact Hw]. apply short_text_scalar.
Qed.

(** Reading the canonical line of a value that is within the bounds. *)
Lemma loads_line rec_limit v n :
  wf_json v -> _bounded_json v 0 0 = Ok n -> (10 < rec_limit)%nat ->
  (s ← from_option_res (decode_json_bytes (_canonical v ++ [10]%N)) UnicodeError; loads record_hooks rec_limit s) = Ok (sort_json v).
Proof.
  intros Hw Hb Hl. apply bounded_json_Ok in Hb as ((_ & _ & Hd) & Hf); [|lia].
  rewrite decode_json_ascii.
  2:{ apply Forall_app. split; [|repeat constructor]. eapply Forall_impl; [|apply canonical_printable, fits_text, Hf].
      unfold printable. simpl. lia. }
  cbn [from_option_res rbind]. apply loads_dumps_then; [apply unique_pairs_nodup| |apply sort_json_rt, fits_rt; done|by do 3 right; left|done].
  assert (json_depth (sort_json v) <= json_depth v)%Z; [by apply sort_json_depth|lia].
Qed.

(** The expected file name is the only thing the name argument adds. *)
Lemma validate_record_named d r rid :
  validate_record (JObj d) None = Ok r -> dget "resourceId" d = Some (JStr rid) ->
  validate_record (JObj d) (Some (rid ++ str ".json")) = Ok r.
Proof.
  unfold validate_record. cbn [rbind]. intros H Hr.
  repeat match type of H with
  | rbind (raise_if false _) _ = _ => idtac
  | rbind ?m _ = _ => destruct m eqn:?; [|discriminate H]; cbn [rbind] in H |- *
  end.
  match goal with Hg : getitem _ (str "resourceId") = Ok ?v, Ho : _opaque ?v _ = Ok ?s |- _ =>
    apply port.getitem_Ok in Hg as (? & [= <-] & Hg); rewrite Hr in Hg; injection Hg as <-;
    apply _opaque_Ok in Ho as [[= <-] _] end.
  rewrite bool_decide_eq_true_2 by done. exact H.
Qed.

Definition signed_body (payload : pydict) : pydict :=
  dset "checksum" (JStr (sha256_hex (_canonical (JObj payload)))) payload.

Lemma wf_dset k v d : wf_json v -> wf_json (JObj d) -> wf_json (JObj (dset k v d)).
Proof.
  intros Hv. rewrite !wf_obj. intros [Hn Hf]. destruct (decide (k ∈ dkeys d)) as [Hk|Hk].
  - rewrite dkeys_dset_known by done. split; [done|]. clear Hn Hk. induction d as [|[k' w] d IH]; [by repeat constructor|].
    cbn [fmap list_fmap] in Hf. apply list.Forall_cons in Hf as [Hw Hf]. simpl. case_bool_decide; cbn; constructor; auto.
  - rewrite dkeys_dset_new by done. unfold dkeys in *. rewrite !fmap_app. split.
    + apply list.NoDup_app. split_and!; [done| |apply NoDup_singleton]. intros x Hx ?%list_elem_of_singleton. by subst.
    + apply Forall_app. split; [done|]. by repeat constructor.
Qed.

Lemma wf_str s : wf_json (JStr s).
Proof. by repeat constructor. Qed.

Lemma Ok_inj {A} (a b : A) : Ok a = Ok b -> a = b.
Proof. by intros [= ->]. Qed.

(** ** Every valid record is small

    A record that validation accepts has few values, little depth and short
    texts: the reader's structural bounds can refuse it only for an integer
    beyond 64 bits. *)

Definition int_fits (v : json) : Prop := match v with JInt z => (Z.abs z <= 2 ^ 63 - 1)%Z | _ => True end.

#[export] Instance int_fits_dec v : Decision (int_fits v).
Proof. destruct v; unfold int_fits; apply _. Defined.

Definition small (w k : Z) (v : json) : Prop :=
  (weight v <= w)%Z /\ (json_depth v <= k)%Z /\ (Forall int_fits (subvalues v) -> Forall fits (subvalues v)).

Lemma small_mono w k w' k' v : small w k v -> (w <= w')%Z -> (k <= k')%Z -> small w' k' v.
Proof. intros (H1 & H2 & H3) ? ?. split_and!; [lia|lia|done]. Qed.

Lemma small_null : small 1 0 JNull.
Proof. split_and!; [done|done|]. by repeat constructor. Qed.
Lemma small_bool b : small 1 0 (JBool b).
Proof. split_and!; [done|done|]. by repeat constructor. Qed.
Lemma small_int z : small 1 0 (JInt z).
Proof. split_and!; [done|done|]. intros [H _]%list.Forall_cons. by repeat constructor. Qed.
Lemma small_str s : short_text s -> small 1 0 (JStr s).
Proof. intros. split_and!; [done|done|]. by repeat constructor. Qed.

Lemma text_small m s : text_ok m s -> (m <= 4096)%Z -> small 1 0 (JStr s).
Proof. intros (_ & n & Hn & Hm) ?. apply small_str. exists n. split; [done|lia]. Qed.
Lemma opaque_small s : opaque_ok s -> small 1 0 (JStr s).
Proof. intros [H _]. by apply (text_small 128). Qed.
Lemma path_small s : path_ok s -> small 1 0 (JStr s).
Proof. intros [H _]. by apply (text_small MAX_STRING). Qed.
Lemma natural_small v : natural v = true -> small 1 0 v.
Proof. destruct v; try done. intros _. apply small_int. Qed.

Definition short_textb (s : pystr) : bool := match utf8_len s with Some n => (n <=? 4096)%Z | None => false end.

Lemma short_textb_ok s : short_textb s = true -> short_text s.
Proof. unfold short_textb, short_text. destruct (utf8_len s) as [n|]; [|done]. intros ?%Z.leb_le. eauto. Qed.

Lemma short_texts l : forallb short_textb l = true -> Forall short_text l.
Proof.
  intros H. apply list.Forall_forall. intros s Hs. apply short_textb_ok. rewrite forallb_forall in H. by apply H, list_elem_of_In.
Qed.

Lemma member_small s l : s ∈ l -> forallb short_textb l = true -> small 1 0 (JStr s).
Proof. intros Hs Hl. apply small_str. apply short_texts in Hl. rewrite list.Forall_forall in Hl. auto. Qed.

Lemma utf8_len_ascii s : Forall (fun c => (c < 128)%N) s -> utf8_len s = Some (zlen s).
Proof.
  unfold utf8_len, zlen. intros H. assert (exists b, utf8_encode s = Some b /\ length b = length s) as (b & -> & <-); [|done].
  induction H as [|c s Hc _ (b & Hb & Hl)]; [by exists []|]. exists ([c] ++ b). simpl. rewrite Hb. unfold utf8_encode1.
  rewrite (proj2 (N.ltb_lt _ _)) by lia. simpl. by rewrite Hl.
Qed.

Lemma hex_small s : lower_hex64 s = true -> small 1 0 (JStr s).
Proof.
  unfold lower_hex64, match_hex. intros [Hn%Z.eqb_eq Hf]%andb_true_iff. apply small_str. exists 64%Z.
  rewrite utf8_len_ascii; [by rewrite Hn|]. apply list.Forall_forall. intros c Hc. rewrite forallb_forall in Hf.
  apply list_elem_of_In, Hf in Hc. unfold is_lower_hex, is_digit, in_range in Hc.
  apply orb_true_iff in Hc as [Hc|Hc]; apply andb_true_iff in Hc as [_ Hc%N.leb_le]; lia.
Qed.

(** *** Lists and objects of small values *)
Lemma small_children v l w k :
  children v = l -> (0 <= k)%Z -> (1 + weights l + match v with JObj d => zlen d | _ => 0 end <= w)%Z ->
  match v with JObj d => Forall short_text (dkeys d) | JArr _ => True | _ => False end ->
  Forall (fun x => (json_depth x <= k)%Z /\ (Forall int_fits (subvalues x) -> Forall fits (subvalues x))) l ->
  small w (k + 1) v.
Proof.
  intros <- Hk Hw Hv Hl. split_and!.
  - rewrite weight_children. done.
  - apply json_depth_le; [lia|]. eapply Forall_impl; [|exact Hl]. simpl. lia.
  - rewrite subvalues_children, !list.Forall_cons. intros [_ Hi]. split; [by destruct v|].
    clear Hv Hw. revert Hl Hi. generalize (children v). intros l Hl Hi.
    induction Hl as [|x l [_ Hx] _ IH]; [constructor|]. cbn [flat_map] in *. apply Forall_app in Hi as [Hi1 Hi2].
    apply Forall_app. split; [by apply Hx|by apply IH].
Qed.

Lemma small_arr w k l : (0 <= k)%Z -> Forall (small w k) l -> small (1 + w * zlen l) (k + 1) (JArr l).
Proof.
  intros Hk Hl. apply (small_children _ l); [done|done| |done|].
  - unfold zlen. rewrite Z.add_0_r. apply Z.add_le_mono_l. induction Hl as [|x l (Hx & _) _ IH]; simpl; [lia|]. fold (weights l). lia.
  - eapply Forall_impl; [|exact Hl]. intros x (_ & H2 & H3). done.
Qed.

(** The number of values an object with these keys can have. *)
Definition room (W : pystr -> Z) (ks : list pystr) : Z := foldr (fun key a => 1 + W key + a)%Z 0%Z ks.

Lemma room_submseteq W ks ks' : (forall key, 0 <= W key)%Z -> ks ⊆+ ks' -> (room W ks <= room W ks')%Z.
Proof.
  intros HW. induction 1 as [|x l1 l2 _ IH|x y l|x l1 l2 _ IH|l1 l2 l3 _ IH1 _ IH2]; simpl; fold room in *; try lia.
  specialize (HW x). lia.
Qed.

Lemma small_obj W k d ks :
  (0 <= k)%Z -> (forall key, 0 <= W key)%Z -> NoDup (dkeys d) -> dkeys d ⊆ ks -> forallb short_textb ks = true ->
  (forall key x, dget key d = Some x -> small (W key) k x) -> small (1 + room W ks) (k + 1) (JObj d).
Proof.
  intros Hk HW Hn Hs Hks Hd.
  assert (Forall (fun kv => small (W kv.1) k kv.2) d) as Hf.
  { apply list.Forall_forall. intros [key x] Hx. by apply Hd, dget_nodup. }
  apply (small_children _ d.*2); [done|done| | |].
  - assert (weights d.*2 + zlen d <= room W (dkeys d))%Z.
    { clear Hn Hs Hd. unfold zlen. induction Hf as [|[key x] d (Hx & _) _ IH]; [done|].
      unfold weights, room, dkeys in *. cbn [fmap list_fmap foldr length fst snd] in *. lia. }
    pose proof (room_submseteq W (dkeys d) ks HW (NoDup_submseteq _ _ Hn Hs)). lia.
  - apply short_texts in Hks. rewrite list.Forall_forall in *. auto.
  - apply list.Forall_fmap. eapply Forall_impl; [|exact Hf]. intros x (_ & H2 & H3). done.
Qed.

Lemma small_closed W k d ks :
  (0 <= k)%Z -> (forall key, 0 <= W key)%Z -> wf_json (JObj d) -> set_eq (dkeys d) ks = true -> forallb short_textb ks = true ->
  Forall (fun key => exists x, dget key d = Some x /\ small (W key) k x) ks -> small (1 + room W ks) (k + 1) (JObj d).
Proof.
  intros Hk HW [Hn _]%wf_obj Hs Hks Hf. rewrite set_eq_spec in Hs. apply small_obj; try done.
  - intros key. apply Hs.
  - intros key x Hx. rewrite list.Forall_forall in Hf. destruct (Hf key) as (y & Hy & ?); [apply Hs, dget_elem; eauto|].
    by rewrite Hx in Hy; injection Hy as ->.
Qed.

(** *** The parts of a record *)
Lemma root_small v : wf_json v -> root_identity v = true -> small 7 1 v.
Proof.
  intros Hw H. destruct v as [| | | | | |d]; try done. cbn [root_identity] in H. apply andb_true_iff in H as [Hk Hf].
  apply (small_closed (fun _ => 1%Z) 0 d ROOT_IDENTITY_FIELDS); try done. apply list.Forall_forall. intros key Hkey.
  rewrite forallb_forall in Hf. apply list_elem_of_In, Hf in Hkey. destruct (dget key d) as [x|]; [|done].
  exists x. split; [done|by apply natural_small].
Qed.

Definition field_small (d : pydict) (key : pystr) : Prop := exists x, dget key d = Some x /\ small 7 1 x.

Lemma field_small_scalar d key x : dget key d = Some x -> small 1 0 x -> field_small d key.
Proof. intros ? H. exists x. split; [done|]. by apply (small_mono _ _ _ _ _ H). Qed.

Lemma check_natural_small d key e u : check_natural (JObj d) key e = Ok u -> field_small d key.
Proof.
  unfold check_natural. intros H. inv_res. open_record. eapply field_small_scalar; [done|].
  apply natural_small. by apply negb_false_iff.
Qed.

Lemma check_naturals_small d ks e u : for_each (fun key => check_natural (JObj d) key e) ks = Ok u -> Forall (field_small d) ks.
Proof. intros H. apply for_each_Ok in H. eapply Forall_impl; [|exact H]. intros key. apply check_natural_small. Qed.

Lemma fields_small d ks :
  wf_json (JObj d) -> set_eq (dkeys d) ks = true -> forallb short_textb ks = true -> (length ks <= 6)%nat ->
  Forall (field_small d) ks -> small 49 2 (JObj d).
Proof.
  intros Hw Hs Hks Hl Hf. eapply small_mono; [by apply (small_closed (fun _ => 7%Z) 1 d ks)| |done].
  clear -Hl. assert (room (fun _ => 7%Z) ks = 8 * Z.of_nat (length ks))%Z; [|lia].
  clear Hl. induction ks as [|x ks IH]; [done|]. unfold room in *. cbn [foldr length]. lia.
Qed.

(** Evaluates the comparisons between literals. *)
Ltac decide_literals :=
  repeat match goal with
  | H : context [bool_decide ?P] |- _ =>
    let b := eval vm_compute in (bool_decide P) in
    lazymatch b with
    | true => change (bool_decide P) with true in H
    | false => change (bool_decide P) with false in H
    end; cbn [andb orb negb] in H
  end.

Lemma file_small d u :
  (p ← getitem (JObj d) "relativePath"; path ← checked_relative_path p;
   for_each (fun name => check_natural (JObj d) name (JournalError "filesystem identity is invalid"))
     (strs ["device"; "inode"; "mode"; "ctimeNs"]) ;;
   t ← getitem (JObj d) "ownershipToken"; token ← _opaque t "filesystem ownership token";
   raise_if (negb (lower_hex64 token)) (JournalError "filesystem ownership token is invalid") ;;
   Ok (JObj (dset "relativePath" (JStr path) d))) = Ok u ->
  Forall (field_small d) FILE_IDENTITY.
Proof.
  intros H. inv_res. open_record.
  match goal with H : for_each _ _ = _ |- _ => apply check_naturals_small in H; cbn [strs map] in H;
    rewrite !list.Forall_cons in H; destruct H as (F1 & F2 & F3 & F4 & _) end.
  unfold FILE_IDENTITY. cbn [strs map]. rewrite !list.Forall_cons. split_and!; try done; try by constructor.
  - eapply field_small_scalar; [eassumption|]. by apply path_small.
  - eapply field_small_scalar; [eassumption|]. by apply opaque_small.
Qed.

Lemma cgroup_small d (v2 : bool) u :
  wf_json (JObj d) ->
  (p ← getitem (JObj d) "relativePath"; path ← checked_relative_path p;
   for_each (fun name => check_natural (JObj d) name (JournalError "cgroup identity is invalid"))
     (strs ["device"; "inode"; "mode"]) ;;
   (if v2 then
      parent ← getitem (JObj d) "delegation";
      raise_if (negb (root_identity parent)) (JournalError "invalid cgroup delegation identity")
    else Ok tt) ;;
   Ok (JObj (dset "relativePath" (JStr path) d))) = Ok u ->
  Forall (field_small d) (IDENTITY_FIELDS "cgroup" ++ if v2 then strs ["delegation"] else []).
Proof.
  intros Hw H. inv_res. open_record.
  match goal with H : for_each _ _ = _ |- _ => apply check_naturals_small in H; cbn [strs map] in H;
    rewrite !list.Forall_cons in H; destruct H as (F1 & F2 & F3 & _) end.
  apply Forall_app. split.
  - change (IDENTITY_FIELDS "cgroup") with (strs ["relativePath"; "device"; "inode"; "mode"]). cbn [strs map].
    rewrite !list.Forall_cons. split_and!; try done; try by constructor.
    eapply field_small_scalar; [eassumption|]. by apply path_small.
  - destruct v2; [|constructor]. inv_res. open_record. constructor; [|constructor]. bool_hyps.
    eexists. split; [eassumption|]. apply root_small; [by eapply wf_dget|done].
Qed.

Lemma process_small d u :
  (pid ← getitem (JObj d) "pid";
   raise_if (negb (match pid with JInt z => (0 <? z)%Z | _ => false end)) (JournalError "process PID observation is invalid") ;;
   s ← getitem (JObj d) "startTime"; _text s "process start time" MAX_STRING ;;
   b ← getitem (JObj d) "bootId"; _text b "process boot identity" MAX_STRING ;;
   c ← getitem (JObj d) "cgroup"; _text c "process cgroup" 1024 ;;
   Ok (JObj d)) = Ok u ->
  Forall (field_small d) (IDENTITY_FIELDS "process").
Proof.
  intros H. inv_res. open_record. bool_hyps.
  match goal with H : match ?x with JInt _ => _ | _ => _ end = true |- _ => destruct x; try discriminate H end.
  change (IDENTITY_FIELDS "process") with (strs ["pid"; "startTime"; "bootId"; "cgroup"]). cbn [strs map].
  rewrite !list.Forall_cons. split_and!; try by constructor.
  all: eapply field_small_scalar; [eassumption|]; try apply small_int; by eapply text_small.
Qed.

Lemma identity_small kind phase d schema u :
  kind ∈ KINDS -> wf_json (JObj d) -> _validate_identity kind phase (JObj d) schema = Ok u -> small 49 2 (JObj d).
Proof.
  intros Hkind Hw H. unfold _validate_identity in H. cbn [rbind] in H.
  apply bind_Ok in H as (allowed & Ha & H). apply bind_Ok in H as (u0 & _ & H).
  destruct (_ && negb _) eqn:E in H; [bool_hyps; subst; split_and!; [done|done|by repeat constructor]|]. clear E.
  apply bind_Ok in H as (intent & Hi & H).
  assert (bool_decide (schema = GROUP_SCHEMA) && bool_decide (kind = "process") = true ->
    field_small d "cgroupResourceId" /\ field_small d "cgroupIdentityDigest") as Hcover.
  { intros Hv. rewrite Hv in Hi. inv_res. open_record.
    destruct (dget "cgroupResourceId" d) as [c|] eqn:Ec; [|done]. cbn [or_none] in *. subst c.
    match goal with H : negb _ = false |- _ => apply negb_false_iff in H end.
    destruct (dget "cgroupIdentityDigest" d) as [[]|] eqn:Eg; try discriminate.
    split; (eapply field_small_scalar; [done|]); [by apply opaque_small|by apply hex_small]. }
  destruct intent.
  { destruct (_ && _) eqn:Hv in Hi; [|by inv_res]. destruct Hcover; [done|]. inv_res. bool_hyps.
    apply (fields_small d (strs ["cgroupResourceId"; "cgroupIdentityDigest"])); try done; [simpl; lia|by repeat constructor]. }
  apply bind_Ok in H as (u1 & Hs & H). apply raise_if_Ok, negb_false_iff in Hs.
  assert (forall ks, allowed = ks -> forallb short_textb ks = true -> (length ks <= 6)%nat -> Forall (field_small d) ks ->
    small 49 2 (JObj d)) as Hdone by (intros ks <-; by apply fields_small). clear Hi.
  unfold KINDS in Hkind. cbn [strs map] in Hkind. rewrite !elem_of_cons, elem_of_nil in Hkind.
  destruct Hkind as [-> | [-> | [-> | [-> | []]]]].
  all: unfold IDENTITY_FIELDS in Ha; decide_literals.
  1,4: apply (Hdone FILE_IDENTITY); [by destruct (bool_decide (schema = _)); [discriminate Ha|apply Ok_inj in Ha as <-]|done|simpl; lia|by eapply file_small].
  - apply process_small in H. destruct (bool_decide (schema = _)); apply Ok_inj in Ha as <-.
    + destruct Hcover; [done|]. eapply Hdone; [done|done|simpl; lia|].
      apply Forall_app. split; [exact H|by repeat constructor].
    + eapply Hdone; [done|done|simpl; lia|exact H].
  - apply cgroup_small in H; [|done].
    destruct (bool_decide (schema = _)); apply Ok_inj in Ha as <-; (eapply Hdone; [done|done|simpl; lia|exact H]).
Qed.

Lemma long_value_small v : long_value v = Ok false -> small 1 0 v.
Proof.
  unfold long_value. destruct v as [| | | |s| |]; try done; [intros _; apply small_null|].
  unfold encoded_len. destruct (utf8_len s) as [n|] eqn:Hn; [|done]. cbn [from_option_res rbind].
  intros [= H%Z.ltb_ge]. apply small_str. by exists n.
Qed.

Lemma values_small ks d :
  wf_json (JObj d) -> dkeys d ⊆ ks -> forallb short_textb ks = true -> Forall (fun v => long_value v = Ok false) d.*2 ->
  small (1 + room (fun _ => 1%Z) ks) 1 (JObj d).
Proof.
  intros [Hn _]%wf_obj Hs Hks Hf. apply (small_obj _ 0); try done. intros key x Hx. rewrite list.Forall_forall in Hf.
  apply long_value_small, Hf. apply dget_Some_in in Hx. by apply (list_elem_of_fmap_2 snd) in Hx.
Qed.

Lemma evidence_small kind phase v u : wf_json v -> check_evidence kind phase v = Ok u -> small 33 2 v.
Proof.
  intros Hw H. unfold check_evidence in H. apply bind_Ok in H as (u0 & H0 & H).
  destruct v as [| | | | | |e]; try discriminate H0. apply raise_if_Ok, orb_false_iff in H0 as [_ H0%negb_false_iff].
  apply bind_Ok in H as (s & Hgs & H). apply bind_Ok in H as (c & Hgc & H).
  destruct s as [| | | | | |s]; try discriminate H. destruct c as [| | | | | |c]; try discriminate H.
  apply bind_Ok in H as (u1 & Hk & H). apply raise_if_Ok, orb_false_iff in Hk as [Hs%negb_false_iff Hc%negb_false_iff].
  apply bind_Ok in H as (long & Hl & H). apply raise_if_Ok, orb_false_iff in H as [-> _].
  apply any_res_false, Forall_app in Hl as [Hls Hlc].
  apply port.getitem_Ok in Hgs as (? & [= <-] & Hgs). apply port.getitem_Ok in Hgc as (? & [= <-] & Hgc).
  apply (small_closed (fun _ => 15%Z) 1 e (strs ["settings"; "counters"])); try done.
  cbn [strs map]. rewrite !list.Forall_cons. split_and!; [| |constructor]; eexists; (split; [eassumption|]).
  - eapply small_mono; [apply (values_small CGROUP_SETTINGS); [by eapply wf_dget| |done|done]|by vm_compute|done].
    rewrite set_eq_spec in Hs. intros key. by apply Hs.
  - apply (values_small CGROUP_COUNTERS); [by eapply wf_dget|by apply set_sub_spec|done|done].
Qed.

Lemma observation_small v u : wf_json v -> check_observation_record v = Ok u -> small 7 1 v.
Proof.
  intros Hw H. unfold check_observation_record in H. apply bind_Ok in H as (d & Hd & H).
  apply closed_dict_Ok in Hd as [-> Hd]. inv_res. open_record.
  apply (small_closed (fun _ => 1%Z) 0 d OBSERVATION_FIELDS); try done.
  unfold OBSERVATION_FIELDS. cbn [strs map]. rewrite !list.Forall_cons. split_and!; [| | |constructor];
    eexists; (split; [eassumption|]).
  - by eapply text_small.
  - by eapply member_small.
  - match goal with H : match ?s with _ => _ end = Ok _ |- _ => destruct s; inv_res; open_record; try done; [apply small_null|] end.
    simplify_eq. by eapply text_small.
Qed.

Lemma observations_small l :
  Forall wf_json l -> for_each check_observation_record l = Ok tt -> (zlen l <= 64)%Z -> small 449 2 (JArr l).
Proof.
  intros Hw H Hl. rewrite for_each_Ok in H. eapply small_mono; [apply (small_arr 7 1); [done|]| |done].
  - apply list.Forall_forall. intros v Hv. rewrite list.Forall_forall in Hw, H. eapply observation_small; eauto.
  - lia.
Qed.

(** How many values each field of a record can have. *)
Definition field_room (key : pystr) : Z :=
  if bool_decide (key = "identity") then 49 else if bool_decide (key = "observations") then 449
  else if bool_decide (key = "cleanupEvidence") then 33 else if bool_decide (key = "stateRoot") then 7 else 1.

Lemma field_room_nonneg key : (0 <= field_room key)%Z.
Proof. unfold field_room. repeat case_bool_decide; lia. Qed.

Definition top_small (d : pydict) (key : pystr) : Prop := exists x, dget key d = Some x /\ small (field_room key) 2 x.

Lemma top_small_at d key x w k :
  dget key d = Some x -> small w k x -> (w <= field_room key)%Z -> (k <= 2)%Z -> top_small d key.
Proof. intros ? H ? ?. exists x. split; [done|]. by apply (small_mono _ _ _ _ _ H). Qed.

Lemma target_small (t : json) e c :
  match t with
  | JNull => Ok JNull
  | _ => path ← checked_relative_path t; raise_if (negb (starts_with "quarantine/reclaim-" path)) e ;; Ok (JStr path)
  end = Ok c -> small 1 0 t.
Proof. intros H. destruct t; inv_res; open_record; try done; [apply small_null|simplify_eq; by apply path_small]. Qed.

Lemma group_small d kind phase u :
  wf_json (JObj d) ->
  (if is_group d then
     evidence ← getitem (JObj d) "cleanupEvidence";
     match evidence with JNull => Ok tt | _ => check_evidence kind phase evidence end
   else Ok tt) = Ok u ->
  Forall (top_small d) (if is_group d then strs ["cleanupEvidence"] else []).
Proof.
  intros Hw H. destruct (is_group d); [|constructor]. inv_res. open_record. constructor; [|constructor].
  match goal with H : dget _ _ = Some ?x |- _ => exists x; split; [exact H|]; change (small 33 2 x); pose proof (wf_dget _ _ _ Hw H) end.
  match goal with |- small _ _ ?x => destruct x; try (by eapply evidence_small) end.
  by apply (small_mono _ _ _ _ _ small_null).
Qed.

Lemma validate_record_small d name r : wf_json (JObj d) -> validate_record (JObj d) name = Ok r -> small 569 3 (JObj d).
Proof.
  intros Hw H. unfold validate_record in H. cbn [rbind] in H. apply bind_Ok in H as (u & Hk & H). apply raise_if_Ok, negb_false_iff in Hk.
  repeat match type of H with rbind _ _ = _ => apply bind_Ok in H as (? & ? & H) end. clear H.
  match goal with H : (if is_group d then _ else _) = Ok _ |- _ => apply group_small in H as Hgroup; [|done]; clear H end.
  match goal with H : match ?t with JNull => _ | _ => _ end = @Ok json _ |- _ => apply target_small in H end.
  match goal with H : match ?o with _ => _ end = @Ok (list json) _ |- _ => destruct o as [| | | | |l|]; try discriminate H end.
  match goal with H : match ?o with _ => _ end = @Ok pystr _ |- _ => destruct o as [| | | |cs| |]; try discriminate H end.
  repeat match goal with H : raise_if _ _ = Ok _ |- _ => apply raise_if_Ok in H end.
  inv_res. repeat match goal with H : getitem (JObj _) _ = Ok _ |- _ => apply port.getitem_Ok in H as (? & [= <-] & ?) end.
  bool_hyps.
  repeat match goal with H : str_in _ _ = true |- _ => apply str_in_true in H as (? & -> & ?) end. cbn [str_of] in *.
  repeat match goal with
  | H : _opaque _ _ = Ok _ |- _ => apply _opaque_Ok in H as [-> ?]
  | H : _text _ _ _ = Ok _ |- _ => apply _text_Ok in H as [-> ?]
  end.
  match goal with H : match ?x with JInt _ => _ | _ => _ end = true |- _ => destruct x; try discriminate H end.
  match goal with H : is_bool ?x = true |- _ => destruct x; try discriminate H end.
  match goal with H : _validate_identity _ _ ?v _ = Ok _ |- _ => destruct v as [| | | | | |i]; try discriminate H end.
  apply (small_mono (1 + room field_room (TOP_FIELDS ++ if is_group d then strs ["cleanupEvidence"] else [])) (2 + 1));
    [|by destruct (is_group d)|done].
  apply small_closed; [done|apply field_room_nonneg|done|done|by destruct (is_group d)|].
  change (Forall (top_small d) (TOP_FIELDS ++ if is_group d then strs ["cleanupEvidence"] else [])).
  apply Forall_app. split; [|done]. unfold TOP_FIELDS. cbn [strs map]. rewrite !list.Forall_cons. split_and!; try by constructor.
  all: try (eapply top_small_at;
    [eassumption
    |first [eassumption|by apply opaque_small|by eapply text_small|by eapply member_small|by apply small_int
           |by apply small_bool|by apply natural_small|by apply hex_small]
    |by vm_compute|done]).
  - eapply (top_small_at _ _ _ 49 2); [eassumption| |by vm_compute|done]. eapply identity_small; [|by eapply wf_dget|]; eassumption.
  - eapply (top_small_at _ _ _ 449 2); [eassumption| |by vm_compute|done].
    apply observations_small; [|done|done]. apply wf_arr. by eapply wf_dget.
  - eapply (top_small_at _ _ _ 7 1); [eassumption| |by vm_compute|done]. apply root_small; [by eapply wf_dget|done].
Qed.

(** So only an integer can keep the reader from a record that validation accepts. *)
Lemma valid_bounded d name r :
  wf_json (JObj d) -> validate_record (JObj d) name = Ok r -> Forall int_fits (subvalues (JObj d)) ->
  exists n, _bounded_json (JObj d) 0 0 = Ok n.
Proof.
  intros Hw H Hi. apply validate_record_small in H as (H1 & H2 & H3); [|done]. exists (weight (JObj d)).
  apply bounded_json_Ok; [lia|]. split; [split_and!; lia|auto].
Qed.

Lemma ints_signed payload : Forall int_fits (subvalues (JObj payload)) -> Forall int_fits (subvalues (JObj (signed_body payload))).
Proof.
  rewrite !subvalues_children, !list.Forall_cons. intros [_ H]. split; [done|]. cbn [children] in *. unfold signed_body. generalize (sha256_hex (_canonical (JObj payload))). intros c.
  induction payload as [|[k v] payload IH]; [by repeat constructor|]. cbn [fmap list_fmap flat_map snd] in H.
  apply Forall_app in H as [Hv H]. cbn [dset]. case_bool_decide; cbn [fmap list_fmap flat_map snd]; apply Forall_app; split; try done.
  - by repeat constructor.
  - by apply IH.
Qed.

(** ** Round trip *)
Lemma ends_newline_line b : ends_newline (b ++ [10]%N) = true.
Proof. unfold ends_newline. by rewrite rev_app_distr. Qed.

Lemma dget_signed k payload : k <> str "checksum" -> dget k (signed_body payload) = dget k payload.
Proof. intros Hk. unfold signed_body. rewrite dget_dset. by rewrite bool_decide_eq_false_2. Qed.

Lemma encode_decode rec_limit payload data n :
  wf_json (JObj payload) -> encode_record payload = Ok data ->
  _bounded_json (JObj (signed_body payload)) 0 0 = Ok n -> (10 < rec_limit)%nat ->
  exists rid, dget "resourceId" payload = Some (JStr rid) /\
    _decode_record rec_limit data (rid ++ str ".json") = Ok (sort_json (JObj (signed_body payload))).
Proof.
  intros Hw H Hb Hl. unfold encode_record in H. fold (signed_body payload) in H.
  apply bind_Ok in H as (r & Hv & H). apply bind_Ok in H as (u & Hs & H). apply Ok_inj in H as <-.
  apply raise_if_Ok in Hs. pose proof (validate_record_same _ _ _ Hv) as ->.
  destruct (validate_record_view _ _ _ Hv) as (w & Hview & _ & _). pose proof Hview as (_ & _ & Hr & _).
  exists (v_resource w). split; [by rewrite <- Hr, dget_signed|].
  assert (wf_json (JObj (signed_body payload))) as Hw' by (apply wf_dset; [apply wf_str|done]).
  unfold _decode_record. rewrite Hs, ends_newline_line, bool_decide_eq_false_2 by (by intros [_ ?]%app_nil).
  cbn [orb negb raise_if rbind]. rewrite (loads_line _ _ n) by done. cbn [try_except rbind].
  rewrite (bounded_sort _ _ Hb). cbn [rbind].
  apply validate_record_sort; [done|]. by apply validate_record_named.
Qed.

Lemma encoded_bounded payload data :
  wf_json (JObj payload) -> encode_record payload = Ok data -> Forall int_fits (subvalues (JObj payload)) ->
  exists n, _bounded_json (JObj (signed_body payload)) 0 0 = Ok n.
Proof.
  intros Hw H Hi. unfold encode_record in H. fold (signed_body payload) in H. apply bind_Ok in H as (r & Hv & _).
  eapply valid_bounded; [|exact Hv|by apply ints_signed]. apply wf_dset; [apply wf_str|done].
Qed.

(** What reading gives: a well-formed validated record within the bounds. *)
Lemma decode_view rec_limit data name v :
  _decode_record rec_limit data name = Ok v ->
  exists d w, v = JObj d /\ has_view d w /\ view_ok w /\ wf_json (JObj d) /\ name = v_resource w ++ str ".json" /\
    validate_record (JObj d) (Some name) = Ok (JObj d).
Proof.
  unfold _decode_record. intros H. apply bind_Ok in H as (u & _ & H). apply bind_Ok in H as (x & Hx & H).
  apply bind_Ok in H as (n & _ & H). pose proof (validate_record_same _ _ _ H) as ->.
  apply try_except_Ok_inv in Hx as [Hx|(e & _ & _ & ?)]; [|done]. apply bind_Ok in Hx as (s & _ & Hx).
  apply loads_wf in Hx. destruct x as [| | | | | |d]; try discriminate H.
  destruct (validate_record_view _ _ _ H) as (w & Hw & Hok & Hn). exists d, w. done.
Qed.

(** C24: what is written is what is read.  Every record that [encode_record]
    writes, if its integers fit 64 signed bits, is accepted by [_decode_record]
    under the name of its resource, and what is read is the record that was
    written: the given fields with the checksum added, the keys in sorted order. *)
Theorem record_roundtrip (rec_limit : nat) (payload : pydict) (data : bytes) :
  wf_json (JObj payload) -> encode_record payload = Ok data ->
  Forall int_fits (subvalues (JObj payload)) -> (10 < rec_limit)%nat ->
  exists rid, dget "resourceId" payload = Some (JStr rid) /\
    _decode_record rec_limit data (rid ++ str ".json") = Ok (sort_json (JObj (signed_body payload))).
Proof.
  intros Hw H Hi Hl. destruct (encoded_bounded payload data Hw H Hi) as (n & Hb). by eapply encode_decode.
Qed.

(** A record that is read names exactly the resource its file is named
    after, and its cleanup target, if it has one, is a proper relative path
    below the quarantine directory; a retained source is cleaned up only under
    an explicit policy. *)
Theorem decoded_record_confined (rec_limit : nat) (data : bytes) (name : pystr) (v : json) :
  _decode_record rec_limit data name = Ok v ->
  exists d w, v = JObj d /\ has_view d w /\ name = v_resource w ++ str ".json" /\
    (forall p, v_target w = Some p -> starts_with "quarantine/reclaim-" p = true /\
       Forall (fun part => part ∉ strs [""; "."; ".."]) (split_on 47 p)) /\
    (v_kind w = "retained_source" -> cleaning (v_phase w) = true -> v_retained w = true).
Proof.
  intros (d & w & -> & Hw & Hok & _ & -> & _)%decode_view. exists d, w. split_and!; try done.
  - intros p Hp. destruct Hok as (_ & _ & _ & _ & _ & Ht & _). rewrite Hp in Ht. by destruct Ht as [(_ & _ & ?) ?].
  - by destruct Hok as (_ & _ & _ & _ & _ & _ & ?).
Qed.

(** ** A record *)
Definition sample_record : pydict :=
  [(str "schema", JStr SCHEMA); (str "sequence", JInt 3); (str "controllerInstance", JStr (str "c0"));
   (str "bootId", JStr (str "boot")); (str "principalUid", JInt 1000); (str "sessionId", JStr (str "s-1"));
   (str "resourceId", JStr (str "r-1")); (str "kind", JStr (str "filesystem")); (str "phase", JStr (str "cleanup_intent"));
   (str "stage", JStr (str "build"));
   (str "identity", JObj [(str "relativePath", JStr (str "resources/r-1")); (str "device", JInt 1); (str "inode", JInt 2);
                          (str "mode", JInt 16384); (str "ctimeNs", JInt 5); (str "ownershipToken", JStr (replicate 64 97%N))]);
   (str "retainedRecoverable", JBool false); (str "observations", JArr []);
   (str "stateRoot", JObj [(str "device", JInt 1); (str "inode", JInt 7); (str "uid", JInt 1000)]);
   (str "cleanupTarget", JStr (str "quarantine/reclaim-r-1"))].

Definition sample_line : bytes := match encode_record sample_record with Ok b => b | Err _ => [] end.

Lemma record_roundtrip_witness :
  exists rid, dget "resourceId" sample_record = Some (JStr rid) /\
    _decode_record 100 sample_line (rid ++ str ".json") = Ok (sort_json (JObj (signed_body sample_record))).
Proof.
  eapply (record_roundtrip 100 sample_record sample_line).
  - by_decision.
  - vm_compute. reflexivity.
  - by_decision.
  - lia.
Defined.

(** An inode number beyond 63 bits, which the writer does not refuse and the
    reader does. *)
Definition large_inode : pydict :=
  dset "stateRoot" (JObj [(str "device", JInt 1); (str "inode", JInt (2 ^ 63)); (str "uid", JInt 1000)]) sample_record.

Example large_inode_lost :
  match encode_record large_inode with Ok line => _decode_record 100 line (str "r-1.json") | Err e => Err (bad "record") end
  = Err (JournalError "journal integer exceeds bounds").
Proof. vm_compute. reflexivity. Qed.

Lemma decoded_record_confined_witness :
  exists v, _decode_record 100 sample_line (str "r-1.json") = Ok v /\
    exists d w, v = JObj d /\ has_view d w /\ str "r-1.json" = v_resource w ++ str ".json".
Proof.
  eexists. split; [vm_compute; reflexivity|].
  destruct (decoded_record_confined 100 sample_line (str "r-1.json") _ ltac:(vm_compute; reflexivity)) as (d & w & H1 & H2 & H3 & _).
  exists d, w. split; [exact H1|]. split; [exact H2|exact H3].
Defined.

(** A record whose observation status is a list ends the reader with an
    exception that is not a [JournalError], although its checksum is right. *)
Definition unhashable_status : pydict :=
  dset "observations" (JArr [JObj [(str "attemptId", JStr (str "a")); (str "status", JArr []); (str "reasonCode", JNull)]]) sample_record.

Example unhashable_status_escapes :
  _decode_record 100 (_canonical (JObj (signed_body unhashable_status)) ++ [10]%N) (str "r-1.json") = Err TypeError.
Proof. vm_compute. reflexivity. Qed.
End journal.
