(* ===== verification/RecoveryJournal.v ===== *)
(** * The recovery journal ([supervisor/mirrorgate/recovery_journal.py], second half)

    [RecoveryJournal] over the directory it publishes records in.  A record is
    published by writing a temporary file, syncing it, renaming it over the
    record and syncing the directory; [script] is that sequence of system calls
    with the fault-injection points between them, so that both an exception at
    a fault point and a crash between two system calls can be stated.  The
    journal is held by one lease, and its methods run under one mutex, so a
    history is a sequence of method calls. *)

From Stdlib Require Import ZArith Lia.
From stdpp Require Import base list gmap strings numbers.
From S2P Require Import Prelude PyJson JsonText Protocol Canonical RecoveryReceipt JournalRecord Effects.
#[local] Open Scope res_scope.
#[local] Open Scope eff_scope.

Module store.
Import receipt journal.

(** ** The directory *)

(** [synced] says whether the content has reached the disk. *)
Inductive entry : Type :=
  | Regular (content : bytes) (synced : bool)
  | Link
  | Special.

(** The names a process sees, and the names of the last directory sync. *)
Record disk : Type := Disk { names : gmap pystr entry; durable : gmap pystr entry }.

Definition is_os_error (e : exn) : bool := match e with OSError | FileNotFoundError => true | _ => false end.

Definition _read_regular_at (d : disk) (name : pystr) : res bytes :=
  match names d !! name with
  | None => Err FileNotFoundError
  | Some Link => Err OSError
  | Some Special => Err (JournalError "journal entry is not a bounded regular file")
  | Some (Regular content _) =>
    raise_if (MAX_RECORD_BYTES <? zlen content)%Z (JournalError "journal entry is not a bounded regular file") ;; Ok content
  end.

(** *** System calls *)
Inductive syscall : Type :=
  | Create (name : pystr)
  | Append (name : pystr) (data : bytes)
  | SyncFile (name : pystr)
  | Rename (old new : pystr)
  | SyncDir
  | Unlink (name : pystr).

Definition exec (c : syscall) (d : disk) : disk * res unit :=
  match c with
  | Create n =>
    match names d !! n with
    | Some _ => (d, Err OSError)
    | None => (Disk (<[n := Regular [] false]> (names d)) (durable d), Ok tt)
    end
  | Append n data =>
    match names d !! n with
    | Some (Regular content _) => (Disk (<[n := Regular (content ++ data) false]> (names d)) (durable d), Ok tt)
    | _ => (d, Err OSError)
    end
  | SyncFile n =>
    match names d !! n with
    | Some (Regular content _) => (Disk (<[n := Regular content true]> (names d)) (durable d), Ok tt)
    | _ => (d, Err OSError)
    end
  | Rename old new =>
    match names d !! old with
    | Some e => (Disk (<[new := e]> (delete old (names d))) (durable d), Ok tt)
    | None => (d, Err FileNotFoundError)
    end
  | SyncDir => (Disk (names d) (names d), Ok tt)
  | Unlink n =>
    match names d !! n with
    | Some _ => (Disk (delete n (names d)) (durable d), Ok tt)
    | None => (d, Err FileNotFoundError)
    end
  end.

(** ** Publishing *)

(** What one publication depends on besides the journal: the random token,
    how many bytes each [os.write] accepts, and the injected faults. *)
Record env : Type := Env { token : pystr; accepted : nat -> nat; fault : string -> option exn }.

(** A step of the publication: a system call, a fault-injection point, or an
    exception of its own. *)
Inductive action : Type := Call (c : syscall) | Cut (name : string) | Throw (e : exn).

(** The write loop: one [os.write] per turn; a turn that writes nothing raises. *)
Fixpoint write_script (fuel : nat) (accepted : nat -> nat) (i : nat) (temp : pystr) (data : bytes) : list action :=
  match fuel, data with
  | _, [] => []
  | O, _ => []
  | S fuel, _ =>
    match accepted i with
    | O => [Throw (JournalError "short journal write")]
    | k => Call (Append temp (take k data)) :: Cut "after-write" :: write_script fuel accepted (S i) temp (drop k data)
    end
  end.

Definition script (e : env) (temp final : pystr) (encoded : bytes) : list action :=
  [Cut "before-open"; Call (Create temp); Cut "after-open"]
  ++ write_script (length encoded) (accepted e) 0 temp encoded
  ++ [Call (SyncFile temp); Cut "after-file-sync"; Call (Rename temp final); Cut "after-rename"; Call SyncDir;
      Cut "after-directory-sync"].

Fixpoint run_script (fault : string -> option exn) (l : list action) (d : disk) : disk * res unit :=
  match l with
  | [] => (d, Ok tt)
  | Call c :: l' => match exec c d with (d', Ok _) => run_script fault l' d' | (d', Err e) => (d', Err e) end
  | Cut name :: l' => match fault name with None => run_script fault l' d | Some e => (d, Err e) end
  | Throw e :: _ => (d, Err e)
  end.

(** [finally: os.unlink(temp)], a missing file ignored. *)
Definition finally_unlink (temp : pystr) (r : disk * res unit) : disk * res unit := ((exec (Unlink temp) r.1).1, r.2).

(** ** The journal *)
Record lease : Type := Lease {
  controller_instance : pystr; boot_id : pystr; principal_uid : Z; state_root_identity : pydict }.

Record jstate : Type := JState { storage : disk; closed : bool }.

Definition set_disk (d : disk) (s : jstate) : jstate := JState d (closed s).

Definition file_of (resource_id : pystr) : pystr := resource_id ++ str ".json".
Definition temp_of (e : env) : pystr := str ".tmp-" ++ token e.

Definition _publish (e : env) (payload : pydict) (create : bool) : eff jstate unit :=
  let* s := eget in
  eguard (closed s) (JournalError "journal lease is closed") ;;*
  let* encoded := elift (encode_record payload) in
  let* rid := elift (r ← getitem (JObj payload) "resourceId"; match r with JStr s => Ok s | _ => Err TypeError end) in
  let final := file_of rid in
  eguard (create && bool_decide (is_Some (names (storage s) !! final))) (JournalError "duplicate resource ID") ;;*
  fun s => let '(d, x) := finally_unlink (temp_of e) (run_script (fault e) (script e (temp_of e) final encoded) (storage s)) in
           (set_disk d s, x).

Section Journal.
Context (rec_limit : nat) (own : lease).

Definition read (resource_id : pystr) : eff jstate json :=
  let* s := eget in
  elift (
    _opaque (JStr resource_id) "resource ID" ;;
    let name := file_of resource_id in
    data ← try_except (_read_regular_at (storage s) name) is_os_error
             (fun _ => Err (JournalError "journal record is unavailable"));
    _decode_record rec_limit data name).

(** *** Inspection *)
Inductive reason : Type := Incomplete | BadFilename | Raised (e : exn).
Record invalid_record : Type := InvalidRecord { bad_name : pystr; bad_reason : reason }.
Record snapshot : Type := Snapshot { records : list json; invalid : list invalid_record }.

Definition ends_with (suffix s : pystr) : bool := starts_with (rev suffix) (rev s).

Definition resource_of (record : json) : res pystr :=
  r ← getitem record "resourceId"; match r with JStr s => Ok s | _ => Err TypeError end.

Definition inspect_entry (d : disk) (acc : snapshot * list pystr) (name : pystr) : res (snapshot * list pystr) :=
  let '(snap, seen) := acc in
  let bad r n := Ok (Snapshot (records snap) (invalid snap ++ [InvalidRecord n r]), seen) in
  if starts_with ".tmp-" name then bad Incomplete name
  else if negb (ends_with ".json" name) || (MAX_STRING + 5 <? zlen name)%Z then bad BadFilename (take 512 name)
  else
    match (data ← _read_regular_at d name; record ← _decode_record rec_limit data name;
           id ← resource_of record;
           raise_if (bool_decide (id ∈ seen)) (JournalError "duplicate resource ID") ;; Ok (record, id)) with
    | Ok (record, id) => Ok (Snapshot (records snap ++ [record]) (invalid snap), seen ++ [id])
    | Err e => match e with
               | OSError | FileNotFoundError | JournalError _ => bad (Raised e) name
               | _ => Err e
               end
    end.

Definition _inspect_journal_fd (d : disk) : res snapshot :=
  let listed := (map_to_list (names d)).*1 in
  raise_if (MAX_RECORDS <? zlen listed)%Z (JournalError "journal record count exceeds limit") ;;
  acc ← fold_res (inspect_entry d) (sort_names listed) (Snapshot [] [], []);
  Ok acc.1.

Definition inspect : eff jstate snapshot := let* s := eget in elift (_inspect_journal_fd (storage s)).

(** *** Claims and transitions *)
Definition claim_intent (e : env) (session_id resource_id kind stage : json) (retained_recoverable : json)
    (schema : pystr) (identity : option pydict) : eff jstate json :=
  let* _ := elift (_opaque session_id "session ID") in
  let* rid := elift (_opaque resource_id "resource ID") in
  let* _ := elift (_opaque stage "stage") in
  let* _ := elift (if is_bool retained_recoverable then member kind KINDS (JournalError "invalid resource claim")
                   else _ ← member kind KINDS (JournalError "invalid resource claim");
                        Err (JournalError "invalid resource claim")) in
  let* snap := inspect in
  eguard (negb (match invalid snap with [] => true | _ => false end)) (JournalError "invalid journal record blocks allocation") ;;*
  eguard (MAX_RECORDS <=? zlen (records snap))%Z (JournalError "journal record count exceeds limit") ;;*
  let* s := eget in
  eguard (bool_decide (is_Some (names (storage s) !! file_of rid))) (JournalError "duplicate resource ID") ;;*
  let record :=
    [(str "schema", JStr schema); (str "sequence", JInt 1); (str "controllerInstance", JStr (controller_instance own));
     (str "bootId", JStr (boot_id own)); (str "principalUid", JInt (principal_uid own)); (str "sessionId", session_id);
     (str "resourceId", resource_id); (str "kind", kind); (str "phase", JStr (str "allocation_intent")); (str "stage", stage);
     (str "identity", JObj match identity with None => [] | Some i => i end);
     (str "retainedRecoverable", retained_recoverable); (str "observations", JArr []);
     (str "stateRoot", JObj (state_root_identity own)); (str "cleanupTarget", JNull)]
    ++ (if bool_decide (schema = GROUP_SCHEMA) then [(str "cleanupEvidence", JNull)] else []) in
  _publish e record true ;;*
  read rid.

Definition as_dict (v : json) : res pydict := match v with JObj d => Ok d | _ => Err TypeError end.

Definition phase_of (current : pydict) : res pystr :=
  p ← getitem (JObj current) "phase"; match p with JStr s => Ok s | _ => Err TypeError end.

(** [updated = {... if key != "checksum"}; updated\["sequence"\] += 1] *)
Definition next_sequence (current : pydict) : res pydict :=
  let updated := ddel "checksum" current in
  q ← getitem (JObj updated) "sequence";
  match q with JInt z => Ok (dset "sequence" (JInt (z + 1)) updated) | _ => Err TypeError end.

(** The optional arguments of [transition]; [None] leaves the field alone. *)
Record changes : Type := Changes {
  new_identity : option pydict; new_retained : option json; new_observation : option pydict;
  new_target : option json; new_evidence : option json }.

Definition no_changes : changes := Changes None None None None None.

(** [any(identity.get(key) != value for key, value in current\["identity"\].items())] *)
Definition identity_changed (current identity : pydict) : bool :=
  negb (forallb (fun kv => py_eqb (or_none (dget kv.1 identity)) kv.2) current).

Definition transition_error : exn := JournalError "invalid journal transition".

(** The body of [transition] up to publication: the record to publish. *)
Definition transition_payload (current : pydict) (phase : pystr) (c : changes) : res pydict :=
  old ← phase_of current;
  allowed ← from_option_res (TRANSITIONS old) KeyError;
  raise_if (negb (bool_decide (phase ∈ allowed))
            && negb (bool_decide (phase = old) && bool_decide (old = "cleanup_intent")
                     && match new_evidence c with Some _ => true | None => false end)) transition_error ;;
  updated ← next_sequence current;
  let updated := dset "phase" (JStr phase) updated in
  updated ← match new_evidence c with
    | None => Ok updated
    | Some evidence =>
      schema ← getitem (JObj current) "schema"; kind ← getitem (JObj current) "kind";
      raise_if (negb (str_is schema GROUP_SCHEMA) || negb (str_is kind "cgroup")
                || negb (bool_decide (phase ∈ strs ["cleanup_intent"; "reclaimed"])))
        (JournalError "cleanup evidence requires v2 cgroup cleanup") ;;
      Ok (dset "cleanupEvidence" evidence updated)
    end;
  updated ← match new_identity c with
    | None => Ok updated
    | Some identity =>
      schema ← getitem (JObj current) "schema";
      (if str_is schema GROUP_SCHEMA then
         i ← getitem (JObj current) "identity"; i ← as_dict i;
         raise_if (identity_changed i identity) (JournalError "v2 ownership identity is immutable")
       else Ok tt) ;;
      Ok (dset "identity" (JObj identity) updated)
    end;
  let updated := match new_retained c with None => updated | Some r => dset "retainedRecoverable" r updated end in
  updated ← match new_observation c with
    | None => Ok updated
    | Some o =>
      l ← getitem (JObj updated) "observations";
      match l with JArr l => Ok (dset "observations" (JArr (l ++ [JObj o])) updated) | _ => Err TypeError end
    end;
  match new_target c with
  | None => Ok updated
  | Some t => path ← checked_relative_path t; Ok (dset "cleanupTarget" (JStr path) updated)
  end.

Definition transition (e : env) (resource_id phase : pystr) (c : changes) : eff jstate json :=
  let* v := read resource_id in
  let* current := elift (as_dict v) in
  let* updated := elift (transition_payload current phase c) in
  _publish e updated false ;;*
  read resource_id.

Definition set_cleanup_target (e : env) (resource_id : pystr) (cleanup_target : json) : eff jstate json :=
  let* v := read resource_id in
  let* current := elift (as_dict v) in
  let* phase := elift (phase_of current) in
  let* target := elift (getitem (JObj current) "cleanupTarget") in
  eguard (negb (bool_decide (phase = "cleanup_intent")) || negb (is_none target))
    (JournalError "cleanup target can only be fixed once during cleanup intent") ;;*
  let* updated := elift (next_sequence current) in
  let* path := elift (checked_relative_path cleanup_target) in
  _publish e (dset "cleanupTarget" (JStr path) updated) false ;;*
  read resource_id.

Definition begin_cleanup (e : env) (resource_id : pystr) : eff jstate json :=
  let* v := read resource_id in
  let* current := elift (as_dict v) in
  let* phase := elift (phase_of current) in
  if bool_decide (phase ∈ strs ["cleanup_intent"; "reclaimed"; "ambiguous"]) then eret v
  else
    let* allowed := elift (from_option_res (TRANSITIONS phase) KeyError) in
    eguard (negb (bool_decide (str "cleanup_intent" ∈ allowed))) (JournalError "resource cannot enter cleanup") ;;*
    transition e resource_id "cleanup_intent" no_changes.

Definition finish_cleanup (e : env) (resource_id : pystr) (complete : bool) : eff jstate json :=
  let* v := read resource_id in
  let* current := elift (as_dict v) in
  let* phase := elift (phase_of current) in
  if bool_decide (phase ∈ strs ["reclaimed"; "ambiguous"]) then eret v
  else
    let target := if complete then str "reclaimed" else str "cleanup_failed" in
    if bool_decide (phase = target) then eret v
    else
      eguard (negb (bool_decide (phase = "cleanup_intent"))) (JournalError "cleanup result lacks durable intent") ;;*
      transition e resource_id target no_changes.

(** *** Quarantine of unreadable records *)

(** One turn of the loop: [tokens] are the random names, one per item; the
    quarantine directory is the set of its names. *)
Definition quarantine_one (acc : disk * gmap pystr entry) (item : invalid_record * pystr) : disk * gmap pystr entry :=
  let '(d, q) := acc in
  let name := bad_name item.1 in
  if bool_decide (name = []) || bool_decide (47%N ∈ name) || bool_decide (name ∈ strs ["."; ".."]) then acc
  else match names d !! name with
       | Some (Regular content synced) =>
         (Disk (delete name (names d)) (durable d), <[str "invalid-" ++ item.2 := Regular content synced]> q)
       | _ => acc
       end.

Definition quarantine_invalid (items : list (invalid_record * pystr)) (d : disk) (q : gmap pystr entry)
    : disk * gmap pystr entry :=
  let '(d, q) := fold_left quarantine_one items (d, q) in ((exec SyncDir d).1, q).

(** [close]: the lease is given back; nothing is published afterwards. *)
Definition close : eff jstate unit := emodify (fun s => JState (storage s) true).
End Journal.

(** ** Publication, crash and all *)

(** A property of every state a script passes through. *)
Fixpoint all_states (Q : disk -> Prop) (fault : string -> option exn) (l : list action) (d : disk) : Prop :=
  Q d /\
  match l with
  | [] => True
  | Call c :: l' => match exec c d with (d', Ok _) => all_states Q fault l' d' | (d', Err _) => Q d' end
  | Cut name :: l' => match fault name with None => all_states Q fault l' d | Some _ => True end
  | Throw _ :: _ => True
  end.

Lemma all_states_take Q fault l d k : all_states Q fault l d -> Q (run_script fault (take k l) d).1.
Proof.
  revert l d. induction k as [|k IH]; intros l d H; [by destruct l, H|].
  destruct l as [|[c|name|e] l]; cbn [take run_script]; destruct H as [Hd H]; try done.
  - destruct (exec c d) as [d' [u|e]]; [by apply IH|done].
  - destruct (fault name); [done|]. by apply IH.
Qed.

Lemma all_states_run Q fault l d : all_states Q fault l d -> Q (run_script fault l d).1.
Proof. intros H. rewrite <- (firstn_all l). by apply all_states_take. Qed.

Section Publication.
Context (e : env) (f : string -> option exn) (temp final : pystr) (encoded : bytes) (d0 : disk).
Context (Hfresh : names d0 !! temp = None).

Definition with_temp (c : bytes) (b : bool) : disk := Disk (<[temp := Regular c b]> (names d0)) (durable d0).
Definition published : gmap pystr entry := <[final := Regular encoded true]> (names d0).

(** The states of a publication: not begun, a private temporary file, or the
    whole new record under its name. *)
Definition pub_state (d : disk) : Prop :=
  d = d0 \/ (exists c b, d = with_temp c b) \/ d = Disk published (durable d0) \/ d = Disk published published.

Lemma exec_append c b data : exec (Append temp data) (with_temp c b) = (with_temp (c ++ data) false, Ok tt).
Proof. cbn [exec with_temp names durable]. rewrite lookup_insert_eq. unfold with_temp. by rewrite insert_insert_eq. Qed.

Lemma exec_sync c b : exec (SyncFile temp) (with_temp c b) = (with_temp c true, Ok tt).
Proof. cbn [exec with_temp names durable]. rewrite lookup_insert_eq. unfold with_temp. by rewrite insert_insert_eq. Qed.

Lemma exec_rename b :
  exec (Rename temp final) (with_temp encoded b) = (Disk (<[final := Regular encoded b]> (names d0)) (durable d0), Ok tt).
Proof. cbn [exec with_temp names durable]. rewrite lookup_insert_eq. by rewrite delete_insert_id. Qed.

Lemma write_states l i fuel data c b :
  (length data <= fuel)%nat ->
  (forall b', all_states pub_state f l (with_temp (c ++ data) b')) ->
  all_states pub_state f (write_script fuel (accepted e) i temp data ++ l) (with_temp c b).
Proof.
  revert i data c b. induction fuel as [|fuel IH]; intros i data c b Hl Hrest.
  { destruct data; [|simpl in Hl; lia]. rewrite app_nil_r in Hrest. apply Hrest. }
  assert (forall c b, pub_state (with_temp c b)) as Ht by (intros; right; left; eauto).
  destruct data as [|x data]; [rewrite app_nil_r in Hrest; apply Hrest|]. cbn [write_script].
  destruct (accepted e i) as [|k]; [cbn; by split|]. rewrite <- !app_comm_cons. cbn [all_states].
  split; [done|]. rewrite exec_append. split; [done|]. destruct (f "after-write"); [done|].
  apply IH; [rewrite length_drop; simpl in *; lia|]. intros b'. by rewrite <- app_assoc, take_drop.
Qed.

(** Every state a publication passes through is one of these. *)
Lemma script_states : all_states pub_state f (script e temp final encoded) d0.
Proof.
  assert (forall c b, pub_state (with_temp c b)) as Ht by (intros; right; left; eauto).
  assert (pub_state d0) as H0 by by left.
  unfold script. cbn [app all_states exec]. rewrite Hfresh. split; [done|]. destruct (f "before-open"); [done|].
  split; [done|]. split; [apply (Ht [] false)|]. destruct (f "after-open"); [done|]. apply (write_states _ _ _ _ []); [done|].
  intros b. cbn [app all_states]. split; [done|]. rewrite exec_sync. split; [done|]. destruct (f "after-file-sync"); [done|].
  split; [done|]. rewrite exec_rename. fold published. assert (pub_state (Disk published (durable d0))) as Hp by (right; right; by left).
  split; [done|]. destruct (f "after-rename"); [done|]. split; [done|]. cbn [exec names durable].
  assert (pub_state (Disk published published)) as Hq by (right; right; by right).
  split; [done|]. destruct (f "after-directory-sync"); [done|]. done.
Qed.

Lemma write_runs l i fuel data c b d x :
  (length data <= fuel)%nat ->
  run_script f (write_script fuel (accepted e) i temp data ++ l) (with_temp c b) = (d, Ok x) ->
  exists b', run_script f l (with_temp (c ++ data) b') = (d, Ok x).
Proof.
  revert i data c b. induction fuel as [|fuel IH]; intros i data c b Hl H.
  { destruct data; [|simpl in Hl; lia]. rewrite app_nil_r. eauto. }
  destruct data as [|y data]; [rewrite app_nil_r; eauto|]. cbn [write_script] in H.
  destruct (accepted e i) as [|k]; [done|]. rewrite <- !app_comm_cons in H. cbn [run_script] in H.
  rewrite exec_append in H. destruct (f "after-write"); [done|].
  apply IH in H as [b' H]; [|rewrite length_drop; simpl in *; lia]. exists b'. by rewrite <- app_assoc, take_drop in H.
Qed.

(** A publication that returns has made the record durable. *)
Lemma script_done d x : run_script f (script e temp final encoded) d0 = (d, Ok x) -> d = Disk published published.
Proof.
  unfold script. cbn [app run_script exec]. rewrite Hfresh. destruct (f "before-open"); [done|].
  destruct (f "after-open"); [done|]. intros H. apply (write_runs _ _ _ _ [] false) in H as [b H]; [|done].
  cbn [app run_script] in H. rewrite exec_sync in H. destruct (f "after-file-sync"); [done|]. rewrite exec_rename in H.
  destruct (f "after-rename"); [done|]. cbn [exec names durable] in H. destruct (f "after-directory-sync"); [done|].
  by injection H as <- _.
Qed.
End Publication.

(** *** Crashes *)

(** What is found of a name after a crash: a synced file as it was, an
    unsynced one with any content. *)
Definition survives (o o' : option entry) : Prop :=
  match o with
  | Some (Regular _ false) => exists c, o' = Some (Regular c true)
  | _ => o' = o
  end.

(** Each name is found as it was, or as it was at the last directory sync. *)
Definition crash (d : disk) (found : gmap pystr entry) : Prop :=
  forall n, survives (names d !! n) (found !! n) \/ survives (durable d !! n) (found !! n).

(** A name whose current state has reached the disk. *)
Definition stable (d : disk) (n : pystr) : Prop :=
  durable d !! n = names d !! n /\ match names d !! n with Some (Regular _ false) => False | _ => True end.

Lemma survives_stable o o' : match o with Some (Regular _ false) => False | _ => True end -> survives o o' -> o' = o.
Proof. destruct o as [[c []| |]|]; simpl; [done|done|done|done|done]. Qed.

(** C7: publication is atomic under crashes.  Stop a publication after any
    number of its system calls, with any faults injected, and crash: the
    record is found as it was before or complete, every other settled record
    is found as it was, and if the publication had returned the new record is
    found. *)
Theorem publish_crash_atomic (e : env) (final : pystr) (encoded : bytes) (d d' : disk) (k : nat) (x : res unit)
    (found : gmap pystr entry) (n : pystr) :
  temp_of e <> final -> n <> temp_of e -> stable d n ->
  run_script (fault e) (take k (script e (temp_of e) final encoded)) d = (d', x) -> crash d' found ->
  (found !! n = names d !! n \/ (n = final /\ found !! n = Some (Regular encoded true))) /\
  ((length (script e (temp_of e) final encoded) <= k)%nat -> x = Ok tt -> found !! final = Some (Regular encoded true)).
Proof.
  intros Hne Hn [Hs1 Hs2] Hrun Hc.
  destruct (names d !! temp_of e) as [old|] eqn:Hfresh.
  { assert (d' = d /\ ((length (script e (temp_of e) final encoded) <= k)%nat -> x <> Ok tt)) as [-> Hx].
    { unfold script in Hrun. destruct k as [|[|k]]; cbn [take app run_script exec] in Hrun.
      - injection Hrun as <- <-. split; [done|]. simpl. lia.
      - destruct (fault e "before-open"); injection Hrun as <- <-; (split; [done|]); simpl; lia.
      - rewrite Hfresh in Hrun. destruct (fault e "before-open"); by injection Hrun as <- <-. }
    split; [left|intros Hk ->; by destruct Hx].
    destruct (Hc n) as [H|H]; [|rewrite Hs1 in H]; by apply survives_stable in H. }
  split.
  - pose proof (all_states_take _ _ _ _ k (script_states e (fault e) (temp_of e) final encoded d Hfresh)) as Hq.
    rewrite Hrun in Hq. cbn [fst] in Hq.
    destruct (decide (n = final)) as [->|Hnf].
    + destruct (Hc final) as [H|H]; destruct Hq as [->|[(c & b & ->)|[->| ->]]]; cbn [names durable with_temp] in H;
        unfold published in H; rewrite ?lookup_insert_eq, ?lookup_insert_ne, ?Hs1 in H by done;
        first [right; by apply survives_stable in H|left; by apply survives_stable in H].
    + left. destruct (Hc n) as [H|H]; destruct Hq as [->|[(c & b & ->)|[->| ->]]]; cbn [names durable with_temp] in H;
        unfold published in H; rewrite ?lookup_insert_ne, ?Hs1 in H by done; by apply survives_stable in H.
  - intros Hk ->. rewrite take_ge in Hrun by done. apply script_done in Hrun as ->; [|done].
    destruct (Hc final) as [H|H]; cbn [names durable] in H; unfold published in H; rewrite lookup_insert_eq in H; done.
Qed.

(** ** Histories *)

Lemma dget_ddel k k' d : k <> k' -> dget k (ddel k' d) = dget k d.
Proof.
  intros Hk. unfold ddel. induction d as [|[k1 v] d IH]; [done|]. rewrite filter_cons. simpl.
  destruct (decide (k1 <> k')) as [|Hn]; simpl; [by rewrite IH|].
  rewrite bool_decide_eq_false_2; [done|]. intros ->. apply Hn. congruence.
Qed.

Lemma temp_not_file e rid : opaque_ok rid -> temp_of e <> file_of rid.
Proof.
  intros (_ & _ & Hc) E. unfold temp_of, file_of in E. destruct rid as [|c rid]; [discriminate E|].
  cbn in E. injection E as E _. apply Hc. rewrite <- E. done.
Qed.

Lemma unlink_names t d n : n <> t -> names (exec (Unlink t) d).1 !! n = names d !! n.
Proof. intros Hn. cbn. destruct (names d !! t) eqn:E; [|done]. simpl. by rewrite lookup_delete_ne. Qed.

(** A publication, whatever its outcome, leaves every name but its temporary
    one alone, or puts the whole encoded record under the record's name. *)
Lemma publish_effect e payload create s s' x :
  _publish e payload create s = (s', x) ->
  (forall n, n <> temp_of e -> names (storage s') !! n = names (storage s) !! n \/
     exists rid data, encode_record payload = Ok data /\ dget "resourceId" payload = Some (JStr rid) /\ n = file_of rid /\
       names (storage s') !! n = Some (Regular data true) /\ (create = true -> names (storage s) !! n = None)) /\
  closed s' = closed s /\ (s' <> s -> closed s = false) /\
  (x = Ok tt -> exists rid data, encode_record payload = Ok data /\ dget "resourceId" payload = Some (JStr rid) /\
     names (storage s') !! file_of rid = Some (Regular data true)).
Proof.
  unfold _publish, ebind, eget, eguard, elift. destruct (closed s) eqn:Hclosed; cbn [raise_if].
  { intros [= <- <-]. split_and!; [by left|done|done|done]. }
  destruct (encode_record payload) as [data|err] eqn:Henc; [|intros [= <- <-]; split_and!; [by left|done|done|done]].
  assert (exists rid, dget "resourceId" payload = Some (JStr rid) /\ opaque_ok rid) as (rid & Hr & Hopaque).
  { unfold encode_record in Henc. fold (signed_body payload) in Henc. apply bind_Ok in Henc as (r & Hv & _).
    destruct (validate_record_view _ _ _ Hv) as (w & (_ & _ & Hr & _) & (_ & _ & Ho & _) & _). exists (v_resource w).
    by rewrite dget_signed in Hr. }
  rewrite (getitem_dget _ _ _ Hr). cbn [rbind].
  destruct (create && bool_decide (is_Some (names (storage s) !! file_of rid))) eqn:Hdup; cbn [raise_if].
  { intros [= <- <-]. split_and!; [by left|done|done|done]. }
  assert (create = true -> names (storage s) !! file_of rid = None) as Hnew.
  { intros ->. apply bool_decide_eq_false in Hdup. destruct (names (storage s) !! file_of rid); [|done]. destruct Hdup. eauto. }
  unfold finally_unlink. destruct (run_script _ _ _) as [d r] eqn:Hrun. cbn [fst snd]. intros H.
  apply pair_equal_spec in H as [<- <-]. cbn [storage set_disk closed].
  pose proof (temp_not_file e rid Hopaque) as Hne.
  destruct (names (storage s) !! temp_of e) as [old|] eqn:Hfresh.
  - assert (d = storage s /\ r <> Ok tt) as [-> Hr'].
    { unfold script in Hrun. cbn [app run_script exec] in Hrun. rewrite Hfresh in Hrun.
      destruct (fault e "before-open"); by injection Hrun as <- <-. }
    split_and!; [|done|done|done]. intros n Hn. left. by apply unlink_names.
  - pose proof (all_states_run _ _ _ _ (script_states e (fault e) (temp_of e) (file_of rid) data _ Hfresh)) as Hq.
    rewrite Hrun in Hq. cbn [fst] in Hq. split_and!; [|done|done|].
    + intros n Hn. rewrite unlink_names by done.
      destruct Hq as [->|[(c & b & ->)|[->| ->]]]; cbn [names with_temp]; [by left|left; by rewrite lookup_insert_ne| |];
        unfold published; (destruct (decide (n = file_of rid)) as [->|Hnf];
          [right; exists rid, data; rewrite lookup_insert_eq; split_and!; done|left; by rewrite lookup_insert_ne]).
    + intros ->. apply script_done in Hrun as ->; [|done]. exists rid, data. rewrite unlink_names by done.
      cbn [names]. unfold published. by rewrite lookup_insert_eq.
Qed.

Section Histories.
Context (rec_limit : nat) (own : lease).

Lemma read_pure rid s : (read rec_limit rid s).1 = s.
Proof. done. Qed.

Lemma read_Ok rid s s' v :
  read rec_limit rid s = (s', Ok v) ->
  s' = s /\ opaque_ok rid /\ exists data d w, _read_regular_at (storage s) (file_of rid) = Ok data /\
    _decode_record rec_limit data (file_of rid) = Ok v /\ v = JObj d /\ has_view d w /\ view_ok w /\ v_resource w = rid.
Proof.
  unfold read, ebind, eget, elift. intros [= <- H]. split; [done|]. apply bind_Ok in H as (r & Ho & H).
  apply _opaque_Ok in Ho as [[= <-] Ho]. split; [done|]. apply bind_Ok in H as (data & Hd & H).
  apply try_except_Ok_inv in Hd as [Hd|(? & _ & _ & ?)]; [|done].
  destruct (decode_view _ _ _ _ H) as (d & w & -> & Hw & Hok & _ & Hn & _). exists data, d, w. split_and!; try done.
  unfold file_of in Hn. by apply app_inv_tail in Hn.
Qed.

(** One step of a record's life: the next sequence number, the same resource,
    and an allowed phase, or the cleanup intent once more. *)
Definition advances (w w' : view) : Prop :=
  v_sequence w' = (v_sequence w + 1)%Z /\ v_resource w' = v_resource w /\ v_kind w' = v_kind w /\ v_schema w' = v_schema w /\
  ((exists allowed, TRANSITIONS (v_phase w) = Some allowed /\ v_phase w' ∈ allowed) \/
   (v_phase w = "cleanup_intent" /\ v_phase w' = "cleanup_intent")).

(** What [updated] agrees with [current] on. *)
Definition updates (current updated : pydict) (seq : Z) (phase : pystr) : Prop :=
  dget "sequence" updated = Some (JInt (seq + 1)) /\ dget "phase" updated = Some (JStr phase) /\
  forall k, k ∈ strs ["schema"; "kind"; "resourceId"] -> dget k updated = dget k current.

Lemma updates_dset current updated seq phase k v :
  k ∉ strs ["sequence"; "phase"; "schema"; "kind"; "resourceId"] ->
  updates current updated seq phase -> updates current (dset k v updated) seq phase.
Proof.
  intros Hk (H1 & H2 & H3). unfold updates. rewrite !dget_dset.
  rewrite !bool_decide_eq_false_2 by (intros <-; apply Hk; by_decision). split_and!; [done|done|].
  intros k' Hk'. rewrite dget_dset, bool_decide_eq_false_2; [by apply H3|]. intros ->. apply Hk.
  elem_literal Hk'. destruct Hk' as [->|[->|[->|[]]]]; by_decision.
Qed.

Lemma next_sequence_updates current updated w phase :
  has_view current w -> next_sequence current = Ok updated ->
  updates current (dset "phase" (JStr phase) updated) (v_sequence w) phase /\
  (phase = v_phase w -> updates current updated (v_sequence w) phase).
Proof.
  intros (Hs & Hq & Hr & Hk & Hp & _) H. unfold next_sequence in H. apply bind_Ok in H as (q & Hg & H).
  rewrite (getitem_dget "sequence" _ (JInt (v_sequence w))) in Hg by (rewrite dget_ddel by discriminate; exact Hq).
  apply Ok_inj in Hg as <-. apply Ok_inj in H as <-.
  assert (forall k, k ∈ strs ["schema"; "kind"; "resourceId"] ->
    dget k (dset "sequence" (JInt (v_sequence w + 1)) (ddel "checksum" current)) = dget k current) as Hsame.
  { intros k Hin. rewrite dget_dset, bool_decide_eq_false_2, dget_ddel; [done|..];
      elem_literal Hin; destruct Hin as [->|[->|[->|[]]]]; discriminate. }
  split.
  - split_and!.
    + rewrite !dget_dset. rewrite bool_decide_eq_false_2 by discriminate. by rewrite bool_decide_eq_true_2.
    + rewrite dget_dset. by rewrite bool_decide_eq_true_2.
    + intros k Hin. rewrite dget_dset, bool_decide_eq_false_2; [by apply Hsame|].
      elem_literal Hin; destruct Hin as [->|[->|[->|[]]]]; discriminate.
  - intros ->. split_and!; [rewrite dget_dset; by rewrite bool_decide_eq_true_2| |done].
    rewrite dget_dset, bool_decide_eq_false_2, dget_ddel by discriminate. done.
Qed.

Lemma updates_view current updated w phase data :
  has_view current w -> updates current updated (v_sequence w) phase -> encode_record updated = Ok data ->
  ((exists allowed, TRANSITIONS (v_phase w) = Some allowed /\ phase ∈ allowed) \/
   (v_phase w = "cleanup_intent" /\ phase = "cleanup_intent")) ->
  exists w', has_view (signed_body updated) w' /\ view_ok w' /\ advances w w' /\ v_phase w' = phase.
Proof.
  intros (Hs & _ & Hr & Hk & _) (Hq & Hp & Hsame) Henc Hphase. unfold encode_record in Henc.
  fold (signed_body updated) in Henc. apply bind_Ok in Henc as (r & Hv & _).
  destruct (validate_record_view _ _ _ Hv) as (w' & Hw' & Hok & _). exists w'. split; [done|]. split; [done|].
  destruct Hw' as (Hs' & Hq' & Hr' & Hk' & Hp' & _). rewrite dget_signed in Hs', Hq', Hr', Hk', Hp' by discriminate.
  rewrite Hq in Hq'. rewrite Hp in Hp'. injection Hq' as Hq'. injection Hp' as Hp'.
  rewrite Hsame in Hs', Hr', Hk' by by_decision. rewrite Hs in Hs'. rewrite Hr in Hr'. rewrite Hk in Hk'.
  injection Hs' as Hs'. injection Hr' as Hr'. injection Hk' as Hk'. unfold advances.
  rewrite <- Hq', <- Hp', <- Hs', <- Hr', <- Hk'. done.
Qed.

Ltac plain_key := intros Hin; elem_literal Hin; destruct_or!; discriminate.

Lemma transition_payload_updates current phase c updated w :
  has_view current w -> transition_payload current phase c = Ok updated ->
  updates current updated (v_sequence w) phase /\
  ((exists allowed, TRANSITIONS (v_phase w) = Some allowed /\ phase ∈ allowed) \/
   (v_phase w = "cleanup_intent" /\ phase = "cleanup_intent")).
Proof.
  intros Hw H. unfold transition_payload in H. pose proof Hw as (_ & _ & _ & _ & Hp & _).
  unfold phase_of in H. rewrite (getitem_dget _ _ _ Hp) in H. cbn [rbind] in H.
  apply bind_Ok in H as (allowed & Ha & H). destruct (TRANSITIONS (v_phase w)) as [al|] eqn:Et; [|done].
  injection Ha as ->. apply bind_Ok in H as (u & Hc & H). apply raise_if_Ok, andb_false_iff in Hc.
  split.
  2:{ destruct Hc as [Hc|Hc]; bool_hyps; [left; by exists allowed|]. right. by subst. }
  clear Hc. apply bind_Ok in H as (u1 & Hn & H). destruct (next_sequence_updates _ _ _ phase Hw Hn) as [Hu _].
  apply bind_Ok in H as (u2 & H2 & H).
  assert (updates current u2 (v_sequence w) phase) as Hu2.
  { destruct (new_evidence c); [|by apply Ok_inj in H2 as <-]. inv_res. apply updates_dset; [plain_key|done]. }
  apply bind_Ok in H as (u3 & H3 & H).
  assert (updates current u3 (v_sequence w) phase) as Hu3.
  { destruct (new_identity c); [|by apply Ok_inj in H3 as <-]. apply bind_Ok in H3 as (? & _ & H3). apply bind_Ok in H3 as (? & _ & H3).
    apply Ok_inj in H3 as <-. apply updates_dset; [plain_key|done]. }
  apply bind_Ok in H as (u4 & H4 & H).
  assert (updates current (match new_retained c with None => u3 | Some r => dset "retainedRecoverable" r u3 end) (v_sequence w) phase)
    as Hr by (destruct (new_retained c); [apply updates_dset; [plain_key|done]|done]).
  assert (updates current u4 (v_sequence w) phase) as Hu4.
  { destruct (new_observation c); [|by apply Ok_inj in H4 as <-]. apply bind_Ok in H4 as (obs & _ & H4).
    destruct obs; try discriminate H4. apply Ok_inj in H4 as <-. apply updates_dset; [plain_key|done]. }
  destruct (new_target c); [|by apply Ok_inj in H as <-]. apply bind_Ok in H as (path & _ & H). apply Ok_inj in H as <-.
  apply updates_dset; [plain_key|done].
Qed.

(** *** The methods on one record, as one type *)
Inductive record_method : Type :=
  | ClaimIntent (session_id resource_id kind stage retained_recoverable : json) (schema : pystr) (identity : option pydict)
  | Transition (resource_id phase : pystr) (c : changes)
  | SetCleanupTarget (resource_id : pystr) (cleanup_target : json)
  | BeginCleanup (resource_id : pystr)
  | FinishCleanup (resource_id : pystr) (complete : bool)
  | Read (resource_id : pystr).

Definition perform_record (e : env) (m : record_method) : eff jstate json :=
  match m with
  | ClaimIntent session_id resource_id kind stage retained schema identity =>
    claim_intent rec_limit own e session_id resource_id kind stage retained schema identity
  | Transition resource_id phase c => transition rec_limit e resource_id phase c
  | SetCleanupTarget resource_id target => set_cleanup_target rec_limit e resource_id target
  | BeginCleanup resource_id => begin_cleanup rec_limit e resource_id
  | FinishCleanup resource_id complete => finish_cleanup rec_limit e resource_id complete
  | Read resource_id => read rec_limit resource_id
  end.

(** What a call may do to the file [n]: nothing, begin a record, or advance the
    record that was there. *)
Definition file_step (s s' : jstate) (n : pystr) : Prop :=
  names (storage s') !! n = names (storage s) !! n \/
  exists record data w', names (storage s') !! n = Some (Regular data true) /\ encode_record record = Ok data /\
    has_view (signed_body record) w' /\ view_ok w' /\ n = file_of (v_resource w') /\
    ((names (storage s) !! n = None /\ v_sequence w' = 1%Z /\ v_phase w' = "allocation_intent") \/
     exists current w, read rec_limit (v_resource w') s = (s, Ok (JObj current)) /\ has_view current w /\ advances w w').

Lemma file_step_same s n : file_step s s n.
Proof. by left. Qed.

(** A publication of an update followed by reading the record back. *)
Lemma publish_update e current updated w s s' x rid phase :
  read rec_limit rid s = (s, Ok (JObj current)) -> has_view current w -> v_resource w = rid ->
  updates current updated (v_sequence w) phase ->
  ((exists allowed, TRANSITIONS (v_phase w) = Some allowed /\ phase ∈ allowed) \/
   (v_phase w = "cleanup_intent" /\ phase = "cleanup_intent")) ->
  (_publish e updated false ;;* read rec_limit rid) s = (s', x) ->
  forall n, n <> temp_of e -> file_step s s' n.
Proof.
  intros Hread Hw Hrid Hup Hphase H n Hn. unfold ebind in H.
  destruct (_publish e updated false s) as [s1 r] eqn:Hpub.
  assert (s' = s1) as ->. { destruct r; [apply (f_equal fst) in H; by rewrite read_pure in H|by injection H as <- <-]. }
  destruct (publish_effect _ _ _ _ _ _ Hpub) as [Heff _]. destruct (Heff n Hn) as [E|(rid' & data & Henc & Hr & -> & Hf & _)]; [by left|].
  right. destruct (updates_view _ _ _ _ _ Hw Hup Henc Hphase) as (w' & Hw' & Hok & Hadv & _).
  exists updated, data, w'. assert (v_resource w' = rid') as Er.
  { destruct Hw' as (_ & _ & Hr' & _). rewrite dget_signed, Hr in Hr' by discriminate. congruence. }
  split_and!; try done; [by rewrite Er|]. right. exists current, w. split; [|done].
  destruct Hadv as (_ & -> & _). by rewrite Hrid.
Qed.

(** Runs the reading a method starts with. *)
Lemma read_cases rid s :
  (exists err, read rec_limit rid s = (s, Err err)) \/
  exists current w, read rec_limit rid s = (s, Ok (JObj current)) /\ has_view current w /\ view_ok w /\ v_resource w = rid.
Proof.
  destruct (read rec_limit rid s) as [s1 [v|err]] eqn:H; pose proof (f_equal fst H) as Hs; rewrite read_pure in Hs; cbn in Hs; subst s1.
  - right. apply read_Ok in H as (_ & _ & data & d & w & _ & _ & -> & Hw & Hok & Hr). eauto 6.
  - left. eauto.
Qed.

Lemma phase_of_view current w : has_view current w -> phase_of current = Ok (v_phase w).
Proof. intros (_ & _ & _ & _ & Hp & _). unfold phase_of. by rewrite (getitem_dget _ _ _ Hp). Qed.

Lemma ebind_read {B} rid (k : json -> eff jstate B) s :
  ebind (read rec_limit rid) k s = match (read rec_limit rid s).2 with Ok v => k v s | Err err => (s, Err err) end.
Proof. done. Qed.

Lemma ebind_inspect {B} (k : snapshot -> eff jstate B) s :
  ebind (inspect rec_limit) k s = match _inspect_journal_fd rec_limit (storage s) with Ok a => k a s | Err err => (s, Err err) end.
Proof. done. Qed.

(** Advances [H : m s = (s', x)] past a step that does not write; the branch
    that raises leaves the state alone. *)
Ltac same_state H := injection H as <- _; apply file_step_same.
Ltac estep H :=
  match type of H with
  | ebind eget _ _ = _ => rewrite ebind_get in H
  | ebind (inspect _) _ _ = _ => rewrite ebind_inspect in H; destruct (_inspect_journal_fd _ _); [|same_state H]
  | ebind (elift (as_dict (JObj _))) _ _ = _ => rewrite ebind_lift in H; cbn [as_dict] in H
  | ebind (elift ?m) _ _ = _ => rewrite ebind_lift in H; destruct m eqn:?; [|same_state H]
  | ebind (eguard ?b _) _ _ = _ => rewrite ebind_guard in H; destruct b eqn:?; [same_state H|]
  end.

(** The common beginning of a method on a record. *)
Ltac start_read rid s H :=
  rewrite ebind_read in H; destruct (read_cases rid s) as [[err Hr]|(current & w & Hr & Hw & Hok & Hres)];
  rewrite Hr in H; cbn [snd] in H; [same_state H|].

Lemma transition_step e rid phase c s s' x n :
  transition rec_limit e rid phase c s = (s', x) -> n <> temp_of e -> file_step s s' n.
Proof.
  unfold transition. intros H Hn. start_read rid s H. do 2 estep H.
  match goal with Hp : transition_payload _ _ _ = Ok _ |- _ => destruct (transition_payload_updates _ _ _ _ _ Hw Hp) as [Hu Hphase] end.
  by eapply publish_update.
Qed.

Lemma claim_step e session_id resource_id kind stage retained schema identity s s' x n :
  claim_intent rec_limit own e session_id resource_id kind stage retained schema identity s = (s', x) ->
  n <> temp_of e -> file_step s s' n.
Proof.
  unfold claim_intent. intros H Hn. repeat estep H.
  match type of H with context [_publish e ?r true] => set (record := r) in H end.
  unfold ebind in H. destruct (_publish e record true s) as [s1 r] eqn:Hpub.
  assert (s' = s1) as ->. { destruct r; [apply (f_equal fst) in H; by rewrite read_pure in H|by injection H as <- <-]. }
  destruct (publish_effect _ _ _ _ _ _ Hpub) as [Heff _]. destruct (Heff n Hn) as [E|(rid' & data & Henc & Hr & -> & Hf & Hnew)]; [by left|].
  right. pose proof Henc as Hv. unfold encode_record in Hv. fold (signed_body record) in Hv. apply bind_Ok in Hv as (v & Hv & _).
  destruct (validate_record_view _ _ _ Hv) as (w' & Hw' & Hok & _). exists record, data, w'.
  pose proof Hw' as (_ & Hq & Hr' & _ & Hp & _). rewrite dget_signed in Hq, Hr', Hp by discriminate.
  rewrite Hr in Hr'. injection Hr' as ->.
  change (dget "sequence" record) with (Some (JInt 1)) in Hq. change (dget "phase" record) with (Some (JStr "allocation_intent")) in Hp.
  split_and!; try done. left. split_and!; [by apply Hnew|congruence|congruence].
Qed.

Lemma perform_step e m s s' x n :
  perform_record e m s = (s', x) -> n <> temp_of e -> file_step s s' n.
Proof.
  intros H Hn. destruct m as [se re ki st rt sc id|rid phase c|rid t|rid|rid b|rid]; cbn [perform_record] in H.
  - by eapply claim_step.
  - by eapply transition_step.
  - unfold set_cleanup_target in H. start_read rid s H. estep H. rewrite ebind_lift, (phase_of_view _ _ Hw) in H. repeat estep H.
    match goal with Hx : next_sequence current = Ok _ |- _ => destruct (next_sequence_updates _ _ _ (v_phase w) Hw Hx) as [_ Hu] end.
    bool_hyps. eapply publish_update; [done..| |by right|done|done]. apply updates_dset; [plain_key|]. by apply Hu.
  - unfold begin_cleanup in H. start_read rid s H. estep H. rewrite ebind_lift, (phase_of_view _ _ Hw) in H.
    destruct (bool_decide _); [same_state H|]. repeat estep H. by eapply transition_step.
  - unfold finish_cleanup in H. start_read rid s H. estep H. rewrite ebind_lift, (phase_of_view _ _ Hw) in H.
    destruct (bool_decide _); [same_state H|]. destruct (bool_decide _); [same_state H|]. repeat estep H. by eapply transition_step.
  - apply (f_equal fst) in H. rewrite read_pure in H. cbn in H. subst. apply file_step_same.
Qed.

Definition terminal (phase : pystr) : bool := bool_decide (phase ∈ strs ["reclaimed"; "ambiguous"]).

Lemma terminal_transitions phase : terminal phase = true -> TRANSITIONS phase = Some [].
Proof.
  unfold terminal. intros H%bool_decide_eq_true. elem_literal H. destruct H as [->|[->|[]]]; reflexivity.
Qed.

Lemma read_same_file s s' rid :
  names (storage s') !! file_of rid = names (storage s) !! file_of rid ->
  (read rec_limit rid s').2 = (read rec_limit rid s).2.
Proof. intros E. unfold read, ebind, eget, elift, _read_regular_at. cbn [snd]. by rewrite E. Qed.

(** Reclaimed and ambiguous are final.  Once a record has reached one of
    them, no method that works on a record changes its file again, whatever the
    resource, and reading it gives the same record. *)
Theorem terminal_absorbing (e : env) (m : record_method) (s s' : jstate) (x : res json) (rid : pystr) (current : pydict) (w : view) :
  read rec_limit rid s = (s, Ok (JObj current)) -> has_view current w -> terminal (v_phase w) = true ->
  perform_record e m s = (s', x) ->
  names (storage s') !! file_of rid = names (storage s) !! file_of rid /\ read rec_limit rid s' = (s', Ok (JObj current)).
Proof.
  intros Hread Hw Ht Hp. pose proof Hread as (_ & Ho & data & d & w0 & Hf & _ & _)%read_Ok.
  assert (names (storage s') !! file_of rid = names (storage s) !! file_of rid) as E.
  { destruct (perform_step e m s s' x (file_of rid) Hp) as [E|(rec & data' & w' & _ & _ & _ & _ & Hn & H)]; [|done|].
    { intros E. by apply (temp_not_file e rid Ho). }
    apply app_inv_tail in Hn. rewrite <- Hn in H. destruct H as [(Hnone & _)|(cur & w1 & Hr & Hw1 & Hadv)].
    - unfold _read_regular_at in Hf. by rewrite Hnone in Hf.
    - rewrite Hread in Hr. injection Hr as <-. rewrite (has_view_fun _ _ _ Hw1 Hw) in Hadv.
      destruct Hadv as (_ & _ & _ & _ & [(allowed & Ha & Hin)|[Hci _]]).
      + rewrite (terminal_transitions _ Ht) in Ha. injection Ha as <-. by apply elem_of_nil in Hin.
      + rewrite Hci in Ht. discriminate Ht. }
  split; [exact E|]. apply read_same_file in E. rewrite Hread in E. cbn [snd] in E.
  destruct (read rec_limit rid s') as [s1 r] eqn:Hr. pose proof (f_equal fst Hr) as Hs. rewrite read_pure in Hs. cbn in Hs, E.
  by subst.
Qed.

(** ** Inspection *)

(** The record a directory entry holds, if it holds a readable one. *)
Definition well_named (name : pystr) : bool :=
  negb (starts_with ".tmp-" name) && ends_with ".json" name && (zlen name <=? MAX_STRING + 5)%Z.

Definition entry_record (d : disk) (name : pystr) : option json :=
  if well_named name then
    match (data ← _read_regular_at d name; _decode_record rec_limit data name) with Ok v => Some v | Err _ => None end
  else None.

(** The name an unreadable entry is reported under. *)
Definition shown (name : pystr) : pystr :=
  if negb (starts_with ".tmp-" name) && (negb (ends_with ".json" name) || (MAX_STRING + 5 <? zlen name)%Z)
  then take 512 name else name.

Lemma inspect_entry_Ok d snap seen name acc :
  inspect_entry rec_limit d (snap, seen) name = Ok acc ->
  (forall id, id ∈ seen -> file_of id <> name) ->
  match entry_record d name with
  | Some v => exists id, acc = (Snapshot (records snap ++ [v]) (invalid snap), seen ++ [id]) /\ file_of id = name
  | None => exists r, acc = (Snapshot (records snap) (invalid snap ++ [InvalidRecord (shown name) r]), seen)
  end.
Proof.
  unfold inspect_entry, entry_record, well_named, shown. intros H Hseen.
  destruct (starts_with ".tmp-" name); [apply Ok_inj in H as <-; cbn [negb andb]; eauto|]. cbn [negb andb].
  rewrite Z.leb_antisym.
  destruct (ends_with ".json" name); [|apply Ok_inj in H as <-; cbn [negb andb orb]; eauto]. cbn [negb andb orb] in *.
  destruct (MAX_STRING + 5 <? zlen name)%Z; [apply Ok_inj in H as <-; cbn [negb andb]; eauto|]. cbn [negb andb].
  destruct (_read_regular_at d name) as [data|err]; cbn [rbind] in *.
  2:{ destruct err; try discriminate H; apply Ok_inj in H as <-; eauto. }
  destruct (_decode_record rec_limit data name) as [v|err] eqn:Hd; cbn [rbind] in *.
  2:{ destruct err; try discriminate H; apply Ok_inj in H as <-; eauto. }
  apply decode_view in Hd as (dd & w & -> & (_ & _ & Hr & _) & _ & _ & Hn & _).
  unfold resource_of in H. rewrite (getitem_dget _ _ _ Hr) in H. cbn [rbind] in H. fold (file_of (v_resource w)) in Hn.
  rewrite bool_decide_eq_false_2 in H; [|intros Hin; by apply (Hseen _ Hin)]. apply Ok_inj in H as <-. by exists (v_resource w).
Qed.

Lemma inspect_fold d l snap seen acc :
  fold_res (inspect_entry rec_limit d) l (snap, seen) = Ok acc -> NoDup l ->
  (forall id, id ∈ seen -> file_of id ∉ l) ->
  records acc.1 = records snap ++ omap (entry_record d) l /\
  bad_name <$> invalid acc.1 = (bad_name <$> invalid snap) ++ (shown <$> filter (fun n => entry_record d n = None) l).
Proof.
  revert snap seen. induction l as [|name l IH]; intros snap seen H Hd Hs; cbn [fold_res] in H.
  { apply Ok_inj in H as <-. cbn. by rewrite !app_nil_r. }
  apply bind_Ok in H as (acc1 & H1 & H). apply list.NoDup_cons in Hd as [Hn Hd].
  apply inspect_entry_Ok in H1; [|intros id Hid <-; apply (Hs id Hid); by left]. cbn [omap list_omap]. rewrite filter_cons.
  destruct (entry_record d name) as [v|] eqn:E.
  - destruct H1 as (id & -> & Hid). apply IH in H as [-> ->]; [| done|].
    + cbn [records invalid]. rewrite <- app_assoc. destruct (decide _); done.
    + intros id' Hin. apply elem_of_app in Hin as [Hin| ->%list_elem_of_singleton].
      * intros ?. apply (Hs id' Hin). by right.
      * by rewrite Hid.
  - destruct H1 as (r & ->). apply IH in H as [-> ->]; [|done|].
    + cbn [records invalid]. destruct (decide _); [|done]. rewrite fmap_app, <- app_assoc. done.
    + intros id' Hin ?. apply (Hs id' Hin). by right.
Qed.

(** Inspection accounts for every entry of the directory.  The records it
    returns are exactly the readable ones, in name order, each decoded from
    the file named after its resource, and every other entry is reported as
    invalid; nothing is listed twice or left out. *)
Theorem inspect_accounts (d : disk) (snap : snapshot) :
  _inspect_journal_fd rec_limit d = Ok snap ->
  exists listed, listed ≡ₚ (map_to_list (names d)).*1 /\ NoDup listed /\
    records snap = omap (entry_record d) listed /\
    (bad_name <$> invalid snap) = (shown <$> filter (fun n => entry_record d n = None) listed).
Proof.
  unfold _inspect_journal_fd. intros H. apply bind_Ok in H as (u & _ & H). apply bind_Ok in H as (acc & Hf & H).
  apply Ok_inj in H as <-. exists (sort_names (map_to_list (names d)).*1).
  assert (NoDup (sort_names (map_to_list (names d)).*1)) as Hd by (rewrite sort_names_perm; apply NoDup_fst_map_to_list).
  split; [apply sort_names_perm|]. split; [done|].
  apply inspect_fold in Hf as [-> ->]; [done|done|]. intros id Hid. by apply elem_of_nil in Hid.
Qed.

(** ** Every method *)

(** [quarantine_invalid] is called with items and the random names it draws;
    [stop] is the item at which the operating system raises. *)
Inductive method : Type :=
  | OnRecord (m : record_method)
  | QuarantineInvalid (items : list (invalid_record * pystr)) (stop : option nat).

(** The second state is the quarantine directory. *)
Definition perform (e : env) (m : method) (s : jstate) (q : gmap pystr entry) : jstate * gmap pystr entry * res json :=
  match m with
  | OnRecord m => let '(s', x) := perform_record e m s in (s', q, x)
  | QuarantineInvalid items None => let '(d, q') := quarantine_invalid items (storage s) q in (set_disk d s, q', Ok JNull)
  | QuarantineInvalid items (Some k) =>
    let '(d, q') := fold_left quarantine_one (take k items) (storage s, q) in (set_disk d s, q', Err OSError)
  end.

(** The file [n] was named by an item and is now in the quarantine, as it was. *)
Definition moved_aside (items : list (invalid_record * pystr)) (before after q : gmap pystr entry) (n : pystr) : Prop :=
  exists item content synced, item ∈ items /\ bad_name item.1 = n /\ before !! n = Some (Regular content synced) /\ after !! n = None /\
    (NoDup items.*2 -> q !! (str "invalid-" ++ item.2) = Some (Regular content synced)).

Lemma quarantine_one_cases d q item :
  quarantine_one (d, q) item = (d, q) \/
  exists content synced, names d !! bad_name item.1 = Some (Regular content synced) /\
    quarantine_one (d, q) item = (Disk (delete (bad_name item.1) (names d)) (durable d), <[str "invalid-" ++ item.2 := Regular content synced]> q).
Proof.
  unfold quarantine_one. destruct (_ || _); [by left|]. destruct (names d !! bad_name item.1) as [[content synced| |]|]; try by left. right. by exists content, synced.
Qed.

Lemma quarantine_keeps items d q k : (forall item, item ∈ items -> k <> str "invalid-" ++ item.2) ->
  (fold_left quarantine_one items (d, q)).2 !! k = q !! k.
Proof.
  revert d q. induction items as [|item items IH]; intros d q Hk; [done|]. cbn [fold_left].
  destruct (quarantine_one_cases d q item) as [->|(c & b & _ & ->)]; rewrite IH by (intros; apply Hk; by right); [done|].
  apply lookup_insert_ne. intros E. by apply (Hk item); [left|].
Qed.

Lemma quarantine_moves items d q n : let '(d', q') := fold_left quarantine_one items (d, q) in
  names d' !! n = names d !! n \/ moved_aside items (names d) (names d') q' n.
Proof.
  revert d q. induction items as [|item items IH]; intros d q; [by left|]. cbn [fold_left].
  destruct (quarantine_one_cases d q item) as [->|(c & b & Hd & ->)].
  - specialize (IH d q). destruct (fold_left _ _ _) as [d' q']. destruct IH as [IH|(it & c & b & Hin & H)]; [by left|right].
    exists it, c, b. split; [by right|]. destruct H as (H1 & H2 & H3 & H4). split_and!; try done. intros [_ Hnd]%list.NoDup_cons. by apply H4.
  - set (d1 := Disk (delete (bad_name item.1) (names d)) (durable d)) in *. set (q1 := <[_ := _]> q).
    specialize (IH d1 q1). pose proof (quarantine_keeps items d1 q1 (str "invalid-" ++ item.2)) as Hkeep.
    destruct (fold_left _ _ _) as [d' q']. cbn [snd] in Hkeep. destruct IH as [IH|(it & c1 & b1 & Hin & H1 & H2 & H3 & H4)].
    + destruct (decide (bad_name item.1 = n)) as [<-|Hne]; [|left; rewrite IH; by apply lookup_delete_ne].
      right. exists item, c, b. split_and!; [by left|done|done|rewrite IH; apply lookup_delete_eq|]. intros [Hn Hnd]%list.NoDup_cons.
      etrans; [apply Hkeep|apply lookup_insert_eq]. intros it Hit E. apply app_inv_head in E. apply Hn. rewrite E. by apply (list_elem_of_fmap_2 snd).
    + right. exists it, c1, b1. split_and!; [by right|done| |done|].
      * unfold d1 in H2. cbn [names] in H2. by apply lookup_delete_Some in H2 as [_ H2].
      * intros [_ Hnd]%list.NoDup_cons. by apply H4.
Qed.

Lemma moved_aside_take k items before after q n : moved_aside (take k items) before after q n -> moved_aside items before after q n.
Proof.
  intros (it & c & b & Hin & H1 & H2 & H3 & H4). exists it, c, b. split_and!; try done.
  - rewrite <- (take_drop k items). apply elem_of_app. by left.
  - intros Hnd. apply H4. rewrite <- (take_drop k items), fmap_app in Hnd. by apply list.NoDup_app in Hnd as [Hnd _].
Qed.

Lemma perform_moves e items stop s q s' q' x n : perform e (QuarantineInvalid items stop) s q = (s', q', x) ->
  names (storage s') !! n = names (storage s) !! n \/ moved_aside items (names (storage s)) (names (storage s')) q' n.
Proof.
  destruct stop as [k|]; cbn [perform].
  - pose proof (quarantine_moves (take k items) (storage s) q n) as H. destruct (fold_left _ _ _) as [d q1]. intros [= <- <- _].
    destruct H as [H|H]; [by left|right]. by eapply moved_aside_take.
  - unfold quarantine_invalid. pose proof (quarantine_moves items (storage s) q n) as H. destruct (fold_left _ _ _) as [d q1]. by intros [= <- <- _].
Qed.

(** What [inspect] reports under a file's own name is not a readable record. *)
Lemma reported_unreadable d snap item : _inspect_journal_fd rec_limit d = Ok snap -> (forall n, n ∈ dom (names d) -> (zlen n <= 512)%Z) ->
  item ∈ invalid snap -> entry_record d (bad_name item) = None.
Proof.
  intros Hi Hlen Hin. destruct (inspect_accounts _ _ Hi) as (l & Hl & _ & _ & Hbad).
  apply (list_elem_of_fmap_2 bad_name) in Hin. rewrite Hbad in Hin. apply list_elem_of_fmap in Hin as (n & E & [Hr Hn]%list_elem_of_filter).
  rewrite Hl in Hn. apply list_elem_of_fmap in Hn as ([n' en] & -> & Hn). apply elem_of_map_to_list in Hn. cbn [fst] in *.
  rewrite E. unfold shown. destruct (_ && _); [|done]. rewrite take_ge; [done|]. specialize (Hlen n' (elem_of_dom_2 _ _ _ Hn)). unfold zlen in Hlen. lia.
Qed.

(** C8: a journal file only ever moves forward.  Whatever method is called,
    with whatever faults, and whether it returns or raises: a method on a record
    leaves every file of the journal other than its own temporary one untouched,
    or makes a fresh allocation intent where there was no file, or leaves the
    complete encoding of the record read from it with the next sequence number
    and a phase that the transition table allows, or [cleanup_intent] again (to
    fix its target or its evidence).  [quarantine_invalid] moves files its items
    name into the quarantine, as they are and each under its own name when the
    random names differ, and touches no other; given what [inspect] has reported,
    it moves no readable record, as long as no file name exceeds 512 characters. *)
Theorem journal_moves_forward (e : env) (m : method) (s s' : jstate) (q q' : gmap pystr entry) (x : res json) (n : pystr) :
  perform e m s q = (s', q', x) -> n <> temp_of e ->
  match m with
  | OnRecord _ => file_step s s' n /\ q' = q
  | QuarantineInvalid items _ =>
    names (storage s') !! n = names (storage s) !! n \/
    moved_aside items (names (storage s)) (names (storage s')) q' n /\
    forall snap, _inspect_journal_fd rec_limit (storage s) = Ok snap -> Forall (fun item => item.1 ∈ invalid snap) items ->
      (forall k, k ∈ dom (names (storage s)) -> (zlen k <= 512)%Z) -> entry_record (storage s) n = None
  end.
Proof.
  intros H Hn. destruct m as [m|items stop].
  - cbn [perform] in H. destruct (perform_record e m s) as [s1 x1] eqn:Hp. injection H as <- <- <-. split; [|done]. by eapply perform_step.
  - destruct (perform_moves _ _ _ _ _ _ _ _ n H) as [Hm|Hm]; [by left|right]. split; [exact Hm|]. intros snap Hs Hit Hlen.
    destruct Hm as (item & c & b & Hin & <- & _). rewrite list.Forall_forall in Hit. by eapply reported_unreadable, Hit.
Qed.
End Histories.

(** ** A small journal *)
Definition reclaimed_record : pydict := dset "phase" (JStr (str "reclaimed")) sample_record.
Definition reclaimed_line : bytes := match encode_record reclaimed_record with Ok b => b | Err _ => [] end.
Definition small_names : gmap pystr entry :=
  {[ str "r-1.json" := Regular reclaimed_line true; str ".tmp-ab" := Regular [] true ]}.
Definition small_disk : disk := Disk small_names small_names.
Definition small_state : jstate := JState small_disk false.
Definition small_env : env := Env (str "cd") (fun _ => 100%nat) (fun _ => None).
Definition small_lease : lease :=
  Lease (str "c0") (str "boot") 1000 [(str "device", JInt 1); (str "inode", JInt 7); (str "uid", JInt 1000)].
Definition empty_state : jstate := JState (Disk ∅ ∅) false.

Definition tiny_names : gmap pystr entry := {[ str "r.json" := Regular (str "A") true ]}.
Definition tiny_disk : disk := Disk tiny_names tiny_names.

(** The temporary file is complete but not yet renamed. *)
Definition tiny_written : disk :=
  Disk (<[str ".tmp-cd" := Regular (str "B") false]> tiny_names) tiny_names.

Lemma publish_crash_atomic_witness :
  tiny_names !! str "r.json" = names tiny_disk !! str "r.json" \/
  (str "r.json" = str "r.json" /\ tiny_names !! str "r.json" = Some (Regular (str "B") true)).
Proof.
  destruct (publish_crash_atomic small_env (str "r.json") (str "B") tiny_disk tiny_written 5 (Ok tt) tiny_names (str "r.json"))
    as [H _]; [discriminate|discriminate| | | |exact H].
  - split; [reflexivity|]. vm_compute. exact I.
  - vm_compute. reflexivity.
  - intros n. right. cbn [durable tiny_written]. unfold tiny_names. rewrite lookup_singleton.
    destruct (decide _); reflexivity.
Defined.

Definition small_claim : method :=
  OnRecord (ClaimIntent (JStr (str "s-1")) (JStr (str "r-9")) (JStr (str "filesystem")) (JStr (str "build")) (JBool false) SCHEMA None).
Definition claimed : jstate * gmap pystr entry * res json := perform 100 small_lease small_env small_claim empty_state ∅.

(** The journal reports the file that is no record, and it is moved away. *)
Definition tidied : jstate * gmap pystr entry * res json :=
  perform 100 small_lease small_env (QuarantineInvalid [(InvalidRecord (str ".tmp-ab") Incomplete, str "00")] None) small_state ∅.

Lemma tidied_gone : names (storage tidied.1.1) !! str ".tmp-ab" = None.
Proof. vm_compute. reflexivity. Qed.
Lemma small_found : names (storage small_state) !! str ".tmp-ab" = Some (Regular [] true).
Proof. vm_compute. reflexivity. Qed.

Lemma journal_moves_forward_witness :
  (is_Some (names (storage claimed.1.1) !! str "r-9.json") /\ file_step 100 empty_state claimed.1.1 (str "r-9.json") /\ claimed.1.2 = ∅) /\
  tidied.1.2 !! str "invalid-00" = Some (Regular [] true).
Proof.
  split.
  - split; [vm_compute; eexists; reflexivity|].
    apply (journal_moves_forward 100 small_lease small_env small_claim empty_state claimed.1.1 ∅ claimed.1.2 claimed.2 (str "r-9.json"));
      [vm_compute; reflexivity|discriminate].
  - destruct (journal_moves_forward 100 small_lease small_env (QuarantineInvalid [(InvalidRecord (str ".tmp-ab") Incomplete, str "00")] None)
      small_state tidied.1.1 ∅ tidied.1.2 tidied.2 (str ".tmp-ab")) as [H|[(item & c & b & Hin & _ & Hc & _ & H) _]].
    + vm_compute. reflexivity.
    + discriminate.
    + rewrite tidied_gone, small_found in H. discriminate H.
    + apply list_elem_of_singleton in Hin as ->. rewrite small_found in Hc. injection Hc as <- <-. apply H. repeat constructor. apply not_elem_of_nil.
Defined.

Definition record_or_empty (r : res json) : pydict := match r with Ok (JObj d) => d | _ => [] end.
Definition small_current : pydict := record_or_empty (read 100 (str "r-1") small_state).2.
Definition small_view : view :=
  View SCHEMA 3 (str "r-1") (str "filesystem") (str "reclaimed") false (Some (str "quarantine/reclaim-r-1")).

Lemma terminal_absorbing_witness :
  names (storage (perform_record 100 small_lease small_env (BeginCleanup (str "r-1")) small_state).1) !! file_of (str "r-1")
  = names (storage small_state) !! file_of (str "r-1").
Proof.
  apply (terminal_absorbing 100 small_lease small_env (BeginCleanup (str "r-1")) small_state _
    (perform_record 100 small_lease small_env (BeginCleanup (str "r-1")) small_state).2 (str "r-1") small_current small_view).
  - vm_compute. reflexivity.
  - vm_compute. repeat split.
  - reflexivity.
  - apply surjective_pairing.
Defined.

Definition snapshot_or_empty (r : res snapshot) : snapshot := match r with Ok s => s | Err _ => Snapshot [] [] end.
Definition small_snapshot : snapshot := snapshot_or_empty (_inspect_journal_fd 100 small_disk).

Lemma inspect_accounts_witness :
  exists listed, listed ≡ₚ (map_to_list (names small_disk)).*1 /\ NoDup listed /\
    records small_snapshot = omap (entry_record 100 small_disk) listed.
Proof.
  destruct (inspect_accounts 100 small_disk small_snapshot ltac:(vm_compute; reflexivity)) as (listed & H1 & H2 & H3 & _).
  exists listed. split; [exact H1|]. split; [exact H2|exact H3].
Defined.
End store.
