(* ===== verification/Session.v ===== *)
(** * Sessions of the orchestration controller ([supervisor/mirrorgate/orchestration.py])

    The state of one session and of its managed run, and the locked sections
    of the controller: each definition is what one [with state.lock] block of
    the source does.  [Orchestration.v] composes them into request handlers and
    threads.  An operation is an object that the session dictionary and the
    thread that runs it share: [op_objects] holds the objects by number and
    [operations] the numbers that are still keys of the dictionary, so that a
    thread can finish an operation that was evicted meanwhile. *)

From Stdlib Require Import ZArith Lia.
From stdpp Require Import base list gmap strings numbers.
From S2P Require Import Prelude PyJson JsonText Protocol ControlProtocol ControlProtocolV2 Effects.
#[local] Open Scope res_scope.
#[local] Open Scope eff_scope.

(** ** Ordered dictionaries *)
Section Alist.
Context {K V : Type} `{EqDecision K}.

Fixpoint aget (k : K) (l : list (K * V)) : option V :=
  match l with [] => None | (k', v) :: l' => if decide (k = k') then Some v else aget k l' end.

(** [d\[k\] = v]: in place, or at the end. *)
Fixpoint aset (k : K) (v : V) (l : list (K * V)) : list (K * V) :=
  match l with
  | [] => [(k, v)]
  | (k', v') :: l' => if decide (k = k') then (k', v) :: l' else (k', v') :: aset k v l'
  end.

Definition aupdate (k : K) (f : V -> V) (l : list (K * V)) : list (K * V) :=
  match aget k l with Some v => aset k (f v) l | None => l end.

Lemma aget_aset k k' v l : aget k (aset k' v l) = if decide (k = k') then Some v else aget k l.
Proof.
  induction l as [|[k1 v1] l IH]; simpl; [done|]. destruct (decide (k' = k1)) as [->|]; simpl; [by destruct (decide (k = k1))|].
  rewrite IH. destruct (decide (k = k1)) as [->|]; [|done]. by rewrite decide_False.
Qed.

Lemma aget_aset_eq k v l : aget k (aset k v l) = Some v.
Proof. rewrite aget_aset. by rewrite decide_True. Qed.

Lemma aget_aset_ne k k' v l : k <> k' -> aget k (aset k' v l) = aget k l.
Proof. intros. rewrite aget_aset. by rewrite decide_False. Qed.

Lemma aget_aupdate k k' f l :
  aget k (aupdate k' f l) = if decide (k = k') then f <$> aget k l else aget k l.
Proof.
  unfold aupdate. destruct (aget k' l) as [v|] eqn:E; [|destruct (decide _) as [->|]; [by rewrite E|done]].
  rewrite aget_aset. destruct (decide _) as [->|]; [|done]. by rewrite E.
Qed.
End Alist.

Module session.
Import v1 v2.

Definition obj (l : list (string * json)) : json := JObj (map (fun p => (str p.1, p.2)) l).
Definition opt_field (name : string) (o : option json) : list (string * json) :=
  match o with Some v => [(name, v)] | None => [] end.

(** ** Data *)

(** The phases of a session, in the order of a successful one. *)
Inductive phase_t : Type :=
  | Open | Authoring | Submitted | Preparing | Prepared | Authorized | Reserved | Starting | Running
  | Closing | Closed | CleanupFailed.
#[export] Instance phase_eq_dec : EqDecision phase_t.
Proof. solve_decision. Defined.

Definition phase_name (p : phase_t) : pystr :=
  match p with
  | Open => "open" | Authoring => "authoring" | Submitted => "submitted" | Preparing => "preparing" | Prepared => "prepared"
  | Authorized => "authorized" | Reserved => "reserved" | Starting => "starting" | Running => "running"
  | Closing => "closing" | Closed => "closed" | CleanupFailed => "cleanupFailed"
  end.

Inductive cleanup_status : Type := NotStarted | CleanupPending | CleanupSucceeded | CleanupFailure.
#[export] Instance cleanup_status_eq_dec : EqDecision cleanup_status.
Proof. solve_decision. Defined.

Definition cleanup_name (c : cleanup_status) : pystr :=
  match c with
  | NotStarted => "notStarted" | CleanupPending => "pending" | CleanupSucceeded => "succeeded" | CleanupFailure => "failed"
  end.

Record cleanup_t : Type := Cleanup { status : cleanup_status; remaining_resources : list pystr }.

Definition cleanup_json (c : cleanup_t) : json :=
  obj [("status", JStr (cleanup_name (status c))); ("remainingResources", JArr (JStr <$> remaining_resources c))]%string.

(** [OperationRecord]: the status is "pending" until there is a result.  The
    source keeps the result and the error beside the status; each is read with
    its own status only. *)
Inductive op_result : Type := Succeeded (result : json) | Failed (error : json).

Record operation : Type := OperationRecord {
  operation_id : Z; op_state : option op_result; op_cancel : bool; advertised : bool; notified : bool }.

Definition pending (o : operation) : bool := match op_state o with None => true | Some _ => false end.

Definition public (o : operation) : json :=
  match op_state o with
  | None => obj [("operationId", JInt (operation_id o)); ("status", JStr "pending")]
  | Some (Succeeded r) => obj [("operationId", JInt (operation_id o)); ("status", JStr "succeeded"); ("result", r)]
  | Some (Failed e) => obj [("operationId", JInt (operation_id o)); ("status", JStr "failed"); ("error", e)]
  end%string.

Definition set_state (x : op_result) (o : operation) : operation :=
  OperationRecord (operation_id o) (Some x) (op_cancel o) (advertised o) (notified o).
Definition set_op_cancel (o : operation) : operation :=
  OperationRecord (operation_id o) (op_state o) true (advertised o) (notified o).
Definition set_advertised (o : operation) : operation :=
  OperationRecord (operation_id o) (op_state o) (op_cancel o) true (notified o).
Definition set_notified (o : operation) : operation :=
  OperationRecord (operation_id o) (op_state o) (op_cancel o) (advertised o) true.

(** *** Managed runs *)
Inductive run_phase_t : Type := RStarting | RRunning | RSubmitting | RCleaning | RFinished.
#[export] Instance run_phase_eq_dec : EqDecision run_phase_t.
Proof. solve_decision. Defined.

Definition run_phase_name (p : run_phase_t) : pystr :=
  match p with
  | RStarting => "starting" | RRunning => "running" | RSubmitting => "submitting" | RCleaning => "cleaning"
  | RFinished => "finished"
  end.

Inductive run_outcome : Type := RSubmitted | RFailed | RCancelled | RTimedOut.
#[export] Instance run_outcome_eq_dec : EqDecision run_outcome.
Proof. solve_decision. Defined.

Definition outcome_name (o : run_outcome) : pystr :=
  match o with RSubmitted => "submitted" | RFailed => "failed" | RCancelled => "cancelled" | RTimedOut => "timedOut" end.

(** [AgentAdmission.limits]: the six limits of an admitted run. *)
Record host_limits : Type := HostLimits {
  wallMs : Z; stdoutBytes : Z; stderrBytes : Z; progressRecords : Z; progressBytes : Z; progressRecordBytes : Z }.

Definition limits_json (l : host_limits) : json :=
  obj [("wallMs", JInt (wallMs l)); ("stdoutBytes", JInt (stdoutBytes l)); ("stderrBytes", JInt (stderrBytes l));
       ("progressRecords", JInt (progressRecords l)); ("progressBytes", JInt (progressBytes l));
       ("progressRecordBytes", JInt (progressRecordBytes l))]%string.

Record progress : Type := Progress { firstSeq : Z; nextSeq : Z; truncated : bool; records : list (Z * pystr) }.

Definition progress_item (r : Z * pystr) : json := obj [("seq", JInt r.1); ("message", JStr r.2)]%string.

Definition progress_json (p : progress) : json :=
  obj [("firstSeq", JInt (firstSeq p)); ("nextSeq", JInt (nextSeq p)); ("truncated", JBool (truncated p));
       ("records", JArr (progress_item <$> records p))]%string.

Record hosted_run_t : Type := HostedRun {
  run_id : pystr; run_limits : host_limits; run_phase : run_phase_t; outcome : option run_outcome;
  run_submission : option json; run_error : option json; run_cleanup : cleanup_t; run_progress : progress;
  cancel : bool; done : bool; tool_cancel : bool; cancel_reason : option pystr; finished_notified : bool }.

Definition set_run_phase (x : run_phase_t) (r : hosted_run_t) : hosted_run_t :=
  HostedRun (run_id r) (run_limits r) x (outcome r) (run_submission r) (run_error r) (run_cleanup r) (run_progress r)
  (cancel r) (done r) (tool_cancel r) (cancel_reason r) (finished_notified r).
Definition set_outcome (x : option run_outcome) (r : hosted_run_t) : hosted_run_t :=
  HostedRun (run_id r) (run_limits r) (run_phase r) x (run_submission r) (run_error r) (run_cleanup r) (run_progress r)
  (cancel r) (done r) (tool_cancel r) (cancel_reason r) (finished_notified r).
Definition set_run_submission (x : option json) (r : hosted_run_t) : hosted_run_t :=
  HostedRun (run_id r) (run_limits r) (run_phase r) (outcome r) x (run_error r) (run_cleanup r) (run_progress r) (cancel r)
  (done r) (tool_cancel r) (cancel_reason r) (finished_notified r).
Definition set_run_error (x : option json) (r : hosted_run_t) : hosted_run_t :=
  HostedRun (run_id r) (run_limits r) (run_phase r) (outcome r) (run_submission r) x (run_cleanup r) (run_progress r)
  (cancel r) (done r) (tool_cancel r) (cancel_reason r) (finished_notified r).
Definition set_run_cleanup (x : cleanup_t) (r : hosted_run_t) : hosted_run_t :=
  HostedRun (run_id r) (run_limits r) (run_phase r) (outcome r) (run_submission r) (run_error r) x (run_progress r)
  (cancel r) (done r) (tool_cancel r) (cancel_reason r) (finished_notified r).
Definition set_run_progress (x : progress) (r : hosted_run_t) : hosted_run_t :=
  HostedRun (run_id r) (run_limits r) (run_phase r) (outcome r) (run_submission r) (run_error r) (run_cleanup r) x (cancel r)
  (done r) (tool_cancel r) (cancel_reason r) (finished_notified r).
Definition set_cancel (x : bool) (r : hosted_run_t) : hosted_run_t :=
  HostedRun (run_id r) (run_limits r) (run_phase r) (outcome r) (run_submission r) (run_error r) (run_cleanup r)
  (run_progress r) x (done r) (tool_cancel r) (cancel_reason r) (finished_notified r).
Definition set_done (x : bool) (r : hosted_run_t) : hosted_run_t :=
  HostedRun (run_id r) (run_limits r) (run_phase r) (outcome r) (run_submission r) (run_error r) (run_cleanup r)
  (run_progress r) (cancel r) x (tool_cancel r) (cancel_reason r) (finished_notified r).
Definition set_tool_cancel (x : bool) (r : hosted_run_t) : hosted_run_t :=
  HostedRun (run_id r) (run_limits r) (run_phase r) (outcome r) (run_submission r) (run_error r) (run_cleanup r)
  (run_progress r) (cancel r) (done r) x (cancel_reason r) (finished_notified r).
Definition set_cancel_reason (x : option pystr) (r : hosted_run_t) : hosted_run_t :=
  HostedRun (run_id r) (run_limits r) (run_phase r) (outcome r) (run_submission r) (run_error r) (run_cleanup r)
  (run_progress r) (cancel r) (done r) (tool_cancel r) x (finished_notified r).
Definition set_finished_notified (x : bool) (r : hosted_run_t) : hosted_run_t :=
  HostedRun (run_id r) (run_limits r) (run_phase r) (outcome r) (run_submission r) (run_error r) (run_cleanup r)
  (run_progress r) (cancel r) (done r) (tool_cancel r) (cancel_reason r) x.

Definition run_public (r : hosted_run_t) : json :=
  obj ([("runId", JStr (run_id r)); ("phase", JStr (run_phase_name (run_phase r)));
        ("cleanup", cleanup_json (run_cleanup r)); ("progress", progress_json (run_progress r));
        ("limits", limits_json (run_limits r))]%string
       ++ opt_field "outcome" ((fun o => JStr (outcome_name o)) <$> outcome r)
       ++ opt_field "submission" (run_submission r) ++ opt_field "error" (run_error r)).

(** A new run: [HostedRun(run_id, admission)]. *)
Definition new_run (id : pystr) (limits : host_limits) : hosted_run_t :=
  HostedRun id limits RStarting None None None (Cleanup NotStarted []) (Progress 1 1 false [])
    false false false None false.

(** *** Sessions *)

(** The fields fixed by [session.open]. *)
Record opened : Type := Opened {
  session_id : pystr; owner : pystr; policy_id : json; submission : json; runtime : json;
  manifest : json; manifest_hash : pystr; model_revision_id : option json }.

Record resource_counts : Type := Resources { authoringProcesses : Z; buildProcesses : Z; workers : Z; snapshots : Z }.

Definition resources_json (r : resource_counts) : json :=
  obj [("authoringProcesses", JInt (authoringProcesses r)); ("buildProcesses", JInt (buildProcesses r));
       ("workers", JInt (workers r)); ("snapshots", JInt (snapshots r))]%string.

(** [backend_submission] and [host_cleanup_complete] are the two fields of
    [state.backend_state] the controller reads or writes; [admission] is the
    identity of the backend's admission object. *)
Record session_t : Type := Session {
  info : opened; phase : phase_t; op_objects : list (Z * operation); operations : list Z; next_operation_id : Z;
  active_ordinary : option Z; cleanup_operation : option Z; cleanup_mode : option pystr; prepared : option json;
  admission : option Z; authorization_id : option pystr; authorization_used : bool; worker_id : option pystr;
  reservation : bool; output_chunks : list ((Z * pystr) * Z); resources : resource_counts; cleanup : cleanup_t;
  outcome_summary : option json; closing_reason : option pystr; closed_event_sent : bool;
  hosted_run : option hosted_run_t; backend_submission : option json; host_cleanup_complete : bool }.

Definition set_phase (x : phase_t) (s : session_t) : session_t :=
  Session (info s) x (op_objects s) (operations s) (next_operation_id s) (active_ordinary s) (cleanup_operation s)
  (cleanup_mode s) (prepared s) (admission s) (authorization_id s) (authorization_used s) (worker_id s) (reservation s)
  (output_chunks s) (resources s) (cleanup s) (outcome_summary s) (closing_reason s) (closed_event_sent s) (hosted_run s)
  (backend_submission s) (host_cleanup_complete s).
Definition set_op_objects (x : list (Z * operation)) (s : session_t) : session_t :=
  Session (info s) (phase s) x (operations s) (next_operation_id s) (active_ordinary s) (cleanup_operation s)
  (cleanup_mode s) (prepared s) (admission s) (authorization_id s) (authorization_used s) (worker_id s) (reservation s)
  (output_chunks s) (resources s) (cleanup s) (outcome_summary s) (closing_reason s) (closed_event_sent s) (hosted_run s)
  (backend_submission s) (host_cleanup_complete s).
Definition set_operations (x : list Z) (s : session_t) : session_t :=
  Session (info s) (phase s) (op_objects s) x (next_operation_id s) (active_ordinary s) (cleanup_operation s)
  (cleanup_mode s) (prepared s) (admission s) (authorization_id s) (authorization_used s) (worker_id s) (reservation s)
  (output_chunks s) (resources s) (cleanup s) (outcome_summary s) (closing_reason s) (closed_event_sent s) (hosted_run s)
  (backend_submission s) (host_cleanup_complete s).
Definition set_next_operation_id (x : Z) (s : session_t) : session_t :=
  Session (info s) (phase s) (op_objects s) (operations s) x (active_ordinary s) (cleanup_operation s) (cleanup_mode s)
  (prepared s) (admission s) (authorization_id s) (authorization_used s) (worker_id s) (reservation s) (output_chunks s)
  (resources s) (cleanup s) (outcome_summary s) (closing_reason s) (closed_event_sent s) (hosted_run s)
  (backend_submission s) (host_cleanup_complete s).
Definition set_active_ordinary (x : option Z) (s : session_t) : session_t :=
  Session (info s) (phase s) (op_objects s) (operations s) (next_operation_id s) x (cleanup_operation s) (cleanup_mode s)
  (prepared s) (admission s) (authorization_id s) (authorization_used s) (worker_id s) (reservation s) (output_chunks s)
  (resources s) (cleanup s) (outcome_summary s) (closing_reason s) (closed_event_sent s) (hosted_run s)
  (backend_submission s) (host_cleanup_complete s).
Definition set_cleanup_operation (x : option Z) (s : session_t) : session_t :=
  Session (info s) (phase s) (op_objects s) (operations s) (next_operation_id s) (active_ordinary s) x (cleanup_mode s)
  (prepared s) (admission s) (authorization_id s) (authorization_used s) (worker_id s) (reservation s) (output_chunks s)
  (resources s) (cleanup s) (outcome_summary s) (closing_reason s) (closed_event_sent s) (hosted_run s)
  (backend_submission s) (host_cleanup_complete s).
Definition set_cleanup_mode (x : option pystr) (s : session_t) : session_t :=
  Session (info s) (phase s) (op_objects s) (operations s) (next_operation_id s) (active_ordinary s) (cleanup_operation s) x
  (prepared s) (admission s) (authorization_id s) (authorization_used s) (worker_id s) (reservation s) (output_chunks s)
  (resources s) (cleanup s) (outcome_summary s) (closing_reason s) (closed_event_sent s) (hosted_run s)
  (backend_submission s) (host_cleanup_complete s).
Definition set_prepared (x : option json) (s : session_t) : session_t :=
  Session (info s) (phase s) (op_objects s) (operations s) (next_operation_id s) (active_ordinary s) (cleanup_operation s)
  (cleanup_mode s) x (admission s) (authorization_id s) (authorization_used s) (worker_id s) (reservation s)
  (output_chunks s) (resources s) (cleanup s) (outcome_summary s) (closing_reason s) (closed_event_sent s) (hosted_run s)
  (backend_submission s) (host_cleanup_complete s).
Definition set_admission (x : option Z) (s : session_t) : session_t :=
  Session (info s) (phase s) (op_objects s) (operations s) (next_operation_id s) (active_ordinary s) (cleanup_operation s)
  (cleanup_mode s) (prepared s) x (authorization_id s) (authorization_used s) (worker_id s) (reservation s)
  (output_chunks s) (resources s) (cleanup s) (outcome_summary s) (closing_reason s) (closed_event_sent s) (hosted_run s)
  (backend_submission s) (host_cleanup_complete s).
Definition set_authorization_id (x : option pystr) (s : session_t) : session_t :=
  Session (info s) (phase s) (op_objects s) (operations s) (next_operation_id s) (active_ordinary s) (cleanup_operation s)
  (cleanup_mode s) (prepared s) (admission s) x (authorization_used s) (worker_id s) (reservation s) (output_chunks s)
  (resources s) (cleanup s) (outcome_summary s) (closing_reason s) (closed_event_sent s) (hosted_run s)
  (backend_submission s) (host_cleanup_complete s).
Definition set_authorization_used (x : bool) (s : session_t) : session_t :=
  Session (info s) (phase s) (op_objects s) (operations s) (next_operation_id s) (active_ordinary s) (cleanup_operation s)
  (cleanup_mode s) (prepared s) (admission s) (authorization_id s) x (worker_id s) (reservation s) (output_chunks s)
  (resources s) (cleanup s) (outcome_summary s) (closing_reason s) (closed_event_sent s) (hosted_run s)
  (backend_submission s) (host_cleanup_complete s).
Definition set_worker_id (x : option pystr) (s : session_t) : session_t :=
  Session (info s) (phase s) (op_objects s) (operations s) (next_operation_id s) (active_ordinary s) (cleanup_operation s)
  (cleanup_mode s) (prepared s) (admission s) (authorization_id s) (authorization_used s) x (reservation s)
  (output_chunks s) (resources s) (cleanup s) (outcome_summary s) (closing_reason s) (closed_event_sent s) (hosted_run s)
  (backend_submission s) (host_cleanup_complete s).
Definition set_reservation (x : bool) (s : session_t) : session_t :=
  Session (info s) (phase s) (op_objects s) (operations s) (next_operation_id s) (active_ordinary s) (cleanup_operation s)
  (cleanup_mode s) (prepared s) (admission s) (authorization_id s) (authorization_used s) (worker_id s) x (output_chunks s)
  (resources s) (cleanup s) (outcome_summary s) (closing_reason s) (closed_event_sent s) (hosted_run s)
  (backend_submission s) (host_cleanup_complete s).
Definition set_output_chunks (x : list ((Z * pystr) * Z)) (s : session_t) : session_t :=
  Session (info s) (phase s) (op_objects s) (operations s) (next_operation_id s) (active_ordinary s) (cleanup_operation s)
  (cleanup_mode s) (prepared s) (admission s) (authorization_id s) (authorization_used s) (worker_id s) (reservation s) x
  (resources s) (cleanup s) (outcome_summary s) (closing_reason s) (closed_event_sent s) (hosted_run s)
  (backend_submission s) (host_cleanup_complete s).
Definition set_resources (x : resource_counts) (s : session_t) : session_t :=
  Session (info s) (phase s) (op_objects s) (operations s) (next_operation_id s) (active_ordinary s) (cleanup_operation s)
  (cleanup_mode s) (prepared s) (admission s) (authorization_id s) (authorization_used s) (worker_id s) (reservation s)
  (output_chunks s) x (cleanup s) (outcome_summary s) (closing_reason s) (closed_event_sent s) (hosted_run s)
  (backend_submission s) (host_cleanup_complete s).
Definition set_cleanup (x : cleanup_t) (s : session_t) : session_t :=
  Session (info s) (phase s) (op_objects s) (operations s) (next_operation_id s) (active_ordinary s) (cleanup_operation s)
  (cleanup_mode s) (prepared s) (admission s) (authorization_id s) (authorization_used s) (worker_id s) (reservation s)
  (output_chunks s) (resources s) x (outcome_summary s) (closing_reason s) (closed_event_sent s) (hosted_run s)
  (backend_submission s) (host_cleanup_complete s).
Definition set_outcome_summary (x : option json) (s : session_t) : session_t :=
  Session (info s) (phase s) (op_objects s) (operations s) (next_operation_id s) (active_ordinary s) (cleanup_operation s)
  (cleanup_mode s) (prepared s) (admission s) (authorization_id s) (authorization_used s) (worker_id s) (reservation s)
  (output_chunks s) (resources s) (cleanup s) x (closing_reason s) (closed_event_sent s) (hosted_run s)
  (backend_submission s) (host_cleanup_complete s).
Definition set_closing_reason (x : option pystr) (s : session_t) : session_t :=
  Session (info s) (phase s) (op_objects s) (operations s) (next_operation_id s) (active_ordinary s) (cleanup_operation s)
  (cleanup_mode s) (prepared s) (admission s) (authorization_id s) (authorization_used s) (worker_id s) (reservation s)
  (output_chunks s) (resources s) (cleanup s) (outcome_summary s) x (closed_event_sent s) (hosted_run s)
  (backend_submission s) (host_cleanup_complete s).
Definition set_closed_event_sent (x : bool) (s : session_t) : session_t :=
  Session (info s) (phase s) (op_objects s) (operations s) (next_operation_id s) (active_ordinary s) (cleanup_operation s)
  (cleanup_mode s) (prepared s) (admission s) (authorization_id s) (authorization_used s) (worker_id s) (reservation s)
  (output_chunks s) (resources s) (cleanup s) (outcome_summary s) (closing_reason s) x (hosted_run s) (backend_submission s)
  (host_cleanup_complete s).
Definition set_hosted_run (x : option hosted_run_t) (s : session_t) : session_t :=
  Session (info s) (phase s) (op_objects s) (operations s) (next_operation_id s) (active_ordinary s) (cleanup_operation s)
  (cleanup_mode s) (prepared s) (admission s) (authorization_id s) (authorization_used s) (worker_id s) (reservation s)
  (output_chunks s) (resources s) (cleanup s) (outcome_summary s) (closing_reason s) (closed_event_sent s) x
  (backend_submission s) (host_cleanup_complete s).
Definition set_backend_submission (x : option json) (s : session_t) : session_t :=
  Session (info s) (phase s) (op_objects s) (operations s) (next_operation_id s) (active_ordinary s) (cleanup_operation s)
  (cleanup_mode s) (prepared s) (admission s) (authorization_id s) (authorization_used s) (worker_id s) (reservation s)
  (output_chunks s) (resources s) (cleanup s) (outcome_summary s) (closing_reason s) (closed_event_sent s) (hosted_run s) x
  (host_cleanup_complete s).
Definition set_host_cleanup_complete (x : bool) (s : session_t) : session_t :=
  Session (info s) (phase s) (op_objects s) (operations s) (next_operation_id s) (active_ordinary s) (cleanup_operation s)
  (cleanup_mode s) (prepared s) (admission s) (authorization_id s) (authorization_used s) (worker_id s) (reservation s)
  (output_chunks s) (resources s) (cleanup s) (outcome_summary s) (closing_reason s) (closed_event_sent s) (hosted_run s)
  (backend_submission s) x.

Definition new_session (i : opened) (p : phase_t) : session_t :=
  Session i p [] [] 1 None None None None None None false None false [] (Resources 0 0 0 0) (Cleanup NotStarted []) None None
    false None None true.

Definition add_authoring (n : Z) (r : resource_counts) : resource_counts :=
  Resources (authoringProcesses r + n) (buildProcesses r) (workers r) (snapshots r).
(** [max(0, authoringProcesses - 1)] *)
Definition drop_authoring (r : resource_counts) : resource_counts :=
  Resources (Z.max 0 (authoringProcesses r - 1)) (buildProcesses r) (workers r) (snapshots r).
Definition set_snapshots (n : Z) (r : resource_counts) : resource_counts :=
  Resources (authoringProcesses r) (buildProcesses r) (workers r) n.
Definition set_workers (n : Z) (r : resource_counts) : resource_counts :=
  Resources (authoringProcesses r) (buildProcesses r) n (snapshots r).

(** [state.phase in ("closing", "closed", "cleanupFailed")] *)
Definition ending (p : phase_t) : bool := match p with Closing | Closed | CleanupFailed => true | _ => false end.
(** [state.phase in ("closed", "cleanupFailed")] *)
Definition ended (p : phase_t) : bool := match p with Closed | CleanupFailed => true | _ => false end.

Definition on_run (f : hosted_run_t -> hosted_run_t) (s : session_t) : session_t := set_hosted_run (f <$> hosted_run s) s.
Definition on_op (op : Z) (f : operation -> operation) (s : session_t) : session_t :=
  set_op_objects (aupdate op f (op_objects s)) s.

(** ** Operations *)
Definition add_operation (o : operation) (s : session_t) : session_t :=
  set_next_operation_id (next_operation_id s + 1)
    (set_operations (operations s ++ [operation_id o]) (set_op_objects (aset (operation_id o) o (op_objects s)) s)).

Definition _new_operation (ordinary : bool) : eff session_t Z :=
  let* s := eget in
  eguard (ending (phase s)) (_fail "STATE_INVALID" "cleanup") ;;*
  eguard (ordinary && bool_decide (is_Some (active_ordinary s))) (_fail "STATE_INVALID" "authoring") ;;*
  let op := OperationRecord (next_operation_id s) None false true false in
  emodify (add_operation op) ;;*
  emodify (fun s => if ordinary then set_active_ordinary (Some (operation_id op)) s else s) ;;*
  eret (operation_id op).

(** [operation.status, operation.result = ...] and the release of the ordinary slot. *)
Definition settle (op : Z) (x : op_result) (s : session_t) : session_t :=
  let s := on_op op (set_state x) s in
  if bool_decide (active_ordinary s = Some op) then set_active_ordinary None s else s.

(** The locked part of [_finish_event]: the data of the event, if it is due. *)
Definition _finish_event (op : Z) (s : session_t) : session_t * option json :=
  match aget op (op_objects s) with
  | Some o => if negb (advertised o) || notified o then (s, None) else (on_op op set_notified s, Some (public o))
  | None => (s, None)
  end.

Definition _session_closed_event (s : session_t) : session_t * option json :=
  if closed_event_sent s then (s, None)
  else (set_closed_event_sent true s,
        Some (obj [("phase", JStr (phase_name (phase s))); ("cleanupStatus", JStr (cleanup_name (status (cleanup s))));
                   ("remainingResources", JArr (JStr <$> remaining_resources (cleanup s)))]%string)).

Definition completed (s : session_t) (op : Z) : bool :=
  match aget op (op_objects s) with Some o => negb (pending o) | None => false end.

Fixpoint evict_loop (max_completed : Z) (complete ops : list Z) : list Z :=
  match complete with
  | [] => ops
  | op :: rest =>
    if (max_completed <? zlen complete)%Z then evict_loop max_completed rest (filter (fun k => k <> op) ops) else ops
  end.

Definition _evict (max_completed : Z) (s : session_t) : session_t :=
  set_operations (evict_loop max_completed (filter (fun op => completed s op = true) (operations s)) (operations s)) s.

(** The chunk number of the next output of an operation on a stream. *)
Definition next_chunk (op : Z) (stream : pystr) (s : session_t) : session_t * Z :=
  let number := (default 0 (aget (op, stream) (output_chunks s)) + 1)%Z in
  (set_output_chunks (aset (op, stream) number (output_chunks s)) s, number).

(** ** Managed runs *)
Definition _hosting_error_message (code : string) : pystr :=
  if bool_decide (code = "STATE_INVALID")%string then "hosting is unavailable in this session state"
  else if bool_decide (code = "HANDLE_INVALID")%string then "invalid hosted run handle"
  else if bool_decide (code = "POLICY_DENIED")%string then "hosting profile is not permitted"
  else if bool_decide (code = "AUDIT_UNAVAILABLE")%string then "approved runtime audit is unavailable"
  else if bool_decide (code = "CAPABILITY_UNAVAILABLE")%string then "required hosting capability is unavailable"
  else if bool_decide (code = "LIMIT_EXCEEDED")%string then "hosting limit exceeded"
  else if bool_decide (code = "CANCELLED")%string then "hosting cancelled"
  else if bool_decide (code = "DEADLINE_EXCEEDED")%string then "hosting deadline exceeded"
  else "managed hosting failed".

Definition host_error (code : string) (message : pystr) : json :=
  obj [("code", JStr (str code)); ("stage", JStr "hosting"); ("message", JStr message)]%string.

(** The condition of the [while] loop: the window is over one of its budgets. *)
Definition over_budget (l : host_limits) (records : list (Z * pystr)) : bool :=
  (progressRecords l <? zlen records)%Z
  || existsb (fun r => (progressRecordBytes l <? frame_size (progress_item r))%Z) records
  || (progressBytes l <? foldr (fun r n => frame_size (progress_item r) + n) 0 records)%Z.

(** The loop: the oldest record goes until the window fits. *)
Fixpoint trim (l : host_limits) (records : list (Z * pystr)) : list (Z * pystr) :=
  match records with
  | [] => []
  | _ :: rest => if over_budget l records then trim l rest else records
  end.

Definition _host_progress_locked (message : pystr) (r : hosted_run_t) : hosted_run_t :=
  let p := run_progress r in
  let next := (nextSeq p + 1)%Z in
  let kept := trim (run_limits r) (records p ++ [(nextSeq p, message)]) in
  let first := (next - zlen kept)%Z in
  set_run_progress (Progress first next (1 <? first)%Z kept) r.

(** [_host_event]: the event's name and data. *)
Definition _host_event (s : session_t) : session_t * option (pystr * json) :=
  match hosted_run s with
  | None => (s, None)
  | Some run =>
    if bool_decide (run_phase run = RFinished) then
      if finished_notified run then (s, None)
      else (on_run (set_finished_notified true) s, Some (str "agent.finished", obj [("run", run_public run)]%string))
    else (s, Some (str "agent.updated", obj [("run", run_public run)]%string))
  end.

Definition _adopt_submission_locked (s : session_t) : session_t :=
  match hosted_run s, backend_submission s with
  | Some run, Some sub =>
    if bool_decide (run_phase run = RFinished) then s
    else
      let run := set_run_submission (Some sub) run in
      let run := set_run_error None (set_outcome (Some RSubmitted) run) in
      let run := set_run_cleanup (Cleanup CleanupPending []) (set_run_phase RCleaning run) in
      let s := set_hosted_run (Some run) s in
      let s := if ending (phase s) then s else set_phase Submitted s in
      set_resources (set_snapshots (Z.max 1 (snapshots (resources s))) (resources s)) s
  | _, _ => s
  end.

Definition _cancel_host_locked (reason : pystr) (s : session_t) : session_t :=
  match hosted_run s with
  | None => s
  | Some run =>
    if bool_decide (run_phase run = RFinished) then s
    else on_run (fun run =>
           let run := match cancel_reason run with None => set_cancel_reason (Some reason) run | Some _ => run end in
           set_tool_cancel true (set_cancel true run)) (_adopt_submission_locked s)
  end.

(** [HostResult]; the exit code is not read by the controller. *)
Record host_result : Type := HostResult {
  result_reason : pystr; cleanup_complete : bool; result_remaining : list pystr }.

(** The outcome and error code of a run that ends without a submission. *)
Definition terminal_outcome (run : hosted_run_t) (reason : pystr) : run_outcome * string :=
  if bool_decide (cancel_reason run = Some (str "deadline")) || bool_decide (reason = "wall_timeout")
  then (RTimedOut, "DEADLINE_EXCEEDED"%string)
  else if bool_decide (is_Some (cancel_reason run)) || bool_decide (reason = "cancelled") then (RCancelled, "CANCELLED"%string)
  else if bool_decide (reason ∈ strs ["stdout_limit"; "stderr_limit"]) then (RFailed, "LIMIT_EXCEEDED"%string)
  else (RFailed, if bool_decide (reason = "start_failed") then "AGENT_START_FAILED"%string else "AGENT_EXITED"%string).

Definition finish_run (result : host_result) (run : hosted_run_t) : hosted_run_t :=
  let run := match outcome run with
    | Some _ => run
    | None =>
      let '(o, code) := terminal_outcome run (result_reason result) in
      set_run_error (Some (host_error code (_hosting_error_message code))) (set_outcome (Some o) run)
    end in
  let run := set_run_phase RFinished run in
  let complete := cleanup_complete result && bool_decide (result_remaining result = []) in
  let run := set_run_cleanup (Cleanup (if complete then CleanupSucceeded else CleanupFailure) (result_remaining result)) run in
  _host_progress_locked (if complete then "Hosting cleanup completed" else "Hosting cleanup unconfirmed") run.

(** The locked part of [_terminal_host]; whether the run ended just now. *)
Definition _terminal_host (result : host_result) (s : session_t) : session_t * bool :=
  match hosted_run s with
  | None => (s, false)
  | Some run =>
    if bool_decide (run_phase run = RFinished) then (s, false)
    else
      let s := on_run (finish_run result) (_adopt_submission_locked s) in
      (set_host_cleanup_complete (cleanup_complete result && bool_decide (result_remaining result = [])) s, true)
  end.

(** The guard and the reservation of [_host_execute]. *)
Definition host_execute_begin : eff session_t unit :=
  let* s := eget in
  let* run := elift (from_option_res (hosted_run s) (_fail "STATE_INVALID" "hosting")) in
  eguard (negb (bool_decide (run_phase run ∈ [RStarting; RRunning])) || cancel run || negb (bool_decide (phase s = Authoring))
          || bool_decide (is_Some (active_ordinary s))) (_fail "STATE_INVALID" "hosting") ;;*
  emodify (fun s => set_resources (add_authoring 1 (resources s))
    (on_run (set_tool_cancel false) (set_active_ordinary (Some (-1)%Z) s))).

(** [finally] of [_host_execute]. *)
Definition host_execute_end (s : session_t) : session_t :=
  set_resources (drop_authoring (resources s)) (set_active_ordinary None s).

(** The locked part of [_host_submit] before the backend is called: the
    submission already committed, or [None] with the run sealing its source. *)
Definition host_submit_begin : eff session_t (option json) :=
  emodify _adopt_submission_locked ;;*
  let* s := eget in
  let* run := elift (from_option_res (hosted_run s) (_fail "STATE_INVALID" "hosting")) in
  match run_submission run with
  | Some sub => eret (Some sub)
  | None =>
    eguard (negb (bool_decide (run_phase run ∈ [RStarting; RRunning])) || cancel run || negb (bool_decide (phase s = Authoring)))
      (_fail "STATE_INVALID" "hosting") ;;*
    emodify (on_run (fun run =>
      _host_progress_locked "Sealing submission source" (set_tool_cancel true (set_run_phase RSubmitting run)))) ;;*
    eret None
  end.

(** The locked part after the backend committed the source. *)
Definition host_submit_commit : eff session_t unit :=
  emodify _adopt_submission_locked ;;*
  let* s := eget in
  eguard (match hosted_run s with Some run => bool_decide (run_phase run = RFinished) | None => true end)
    (_fail "CANCELLED" "hosting") ;;*
  emodify (on_run (fun run => _host_progress_locked "Submission source committed" (set_cancel true run))).

(** The [except] clause of [_host_submit]. *)
Definition host_submit_failed (timed_out : bool) (s : session_t) : session_t :=
  on_run (fun run =>
    let run :=
      match outcome run with
      | Some _ => run
      | None =>
        if timed_out then
          set_run_cleanup (Cleanup CleanupPending []) (set_run_phase RCleaning
            (set_run_error (Some (host_error "DEADLINE_EXCEEDED" "hosting deadline exceeded"))
              (set_cancel_reason (Some (str "deadline")) (set_outcome (Some RTimedOut) run))))
        else if negb (cancel run) then
          set_run_cleanup (Cleanup CleanupPending []) (set_run_phase RCleaning
            (set_run_error (Some (host_error "PREPARATION_FAILED" "submission could not be frozen"))
              (set_outcome (Some RFailed) run)))
        else run
      end in
    set_cancel true run) (_adopt_submission_locked s).

(** *** Starting a run *)
Definition agent_start_guard (s : session_t) : bool :=
  negb (bool_decide (phase s = Authoring)) || bool_decide (is_Some (hosted_run s)) || bool_decide (is_Some (active_ordinary s)).

(** The second locked part of [_op_agent_start]; [expired] says that the
    connection is closed or the session deadline has passed. *)
Definition agent_start_commit (expired : bool) (id : pystr) (limits : host_limits) : eff session_t unit :=
  let* s := eget in
  eguard (agent_start_guard s || expired) (_fail "STATE_INVALID" "hosting") ;;*
  emodify (fun s => set_host_cleanup_complete false
    (set_hosted_run (Some (_host_progress_locked "Managed authoring accepted" (new_run id limits))) s)).

(** The beginning of the run's thread: whether it was cancelled before it began. *)
Definition host_begin (s : session_t) : session_t * bool :=
  match hosted_run s with
  | None => (s, true)
  | Some run =>
    if cancel run then (s, true)
    else (on_run (fun run => _host_progress_locked "Starting approved agent runtime" (set_run_phase RRunning run)) s, false)
  end.

Definition needs_cleanup (s : session_t) : bool :=
  match hosted_run s with
  | Some run => negb (bool_decide (outcome run = Some RSubmitted)) || negb (bool_decide (status (run_cleanup run) = CleanupSucceeded))
  | None => true
  end.

(** ** Preparation and authorization *)

(** [PreparedBackend]: what the backend's preparation returns. *)
Record prepared_backend : Type := PreparedBackend {
  artifact_id : pystr; artifact_hash : pystr; source_hash : option pystr; runtime_id : pystr; prepared_policy : pystr }.

Definition prepare_result (b : prepared_backend) (manifest_hash challenge : pystr) : json :=
  obj ([("preparedRevision", JInt 1); ("artifactId", JStr (artifact_id b)); ("artifactHash", JStr (artifact_hash b));
        ("manifestHash", JStr manifest_hash); ("runtime", JStr (runtime_id b)); ("policyId", JStr (prepared_policy b));
        ("challenge", JStr challenge)]%string ++ opt_field "sourceHash" (JStr <$> source_hash b)).

Definition prepare_begin : eff session_t unit :=
  let* s := eget in
  eguard (negb (bool_decide (phase s ∈ [Open; Authoring; Submitted])) || bool_decide (is_Some (active_ordinary s))
          || match hosted_run s with
             | None => false
             | Some hosted => negb (bool_decide (outcome hosted = Some RSubmitted)) || negb (bool_decide (run_phase hosted = RFinished))
                              || negb (bool_decide (status (run_cleanup hosted) = CleanupSucceeded))
             end) (_fail "STATE_INVALID" "prepare") ;;*
  emodify (set_phase Preparing).

Definition prepare_commit (b : prepared_backend) (challenge : pystr) : eff session_t json :=
  let* s := eget in
  let result := prepare_result b (manifest_hash (info s)) challenge in
  let* _ := elift (match hosted_run s with
    | None => Ok tt
    | Some run =>
      sub ← from_option_res (run_submission run) TypeError;
      expected ← getitem sub "sourceHash";
      raise_if (negb (py_eqb (match source_hash b with Some h => JStr h | None => JNull end) expected))
        (_fail "PREPARATION_FAILED" "prepare")
    end) in
  eguard (negb (bool_decide (phase s = Preparing))) (_fail "CANCELLED" "prepare") ;;*
  emodify (fun s => set_resources (set_snapshots (match source_hash b with Some _ => 2 | None => 1 end) (resources s))
    (set_prepared (Some result) (set_phase Prepared s))) ;;*
  eret result.

(** The guard of [_op_session_authorize]. *)
Definition authorize_check (args : json) (s : session_t) : res unit :=
  prepared ← match phase s, prepared s with
             | session.Prepared, Some p => Ok p
             | _, _ => Err (_fail "STATE_INVALID" "authorize")
             end;
  r ← getitem args "preparedRevision"; c ← getitem args "challenge"; challenge ← getitem prepared "challenge";
  a ← getitem args "attestation"; d ← getitem a "semanticDigest"; expected ← getitem (manifest (info s)) "interfaceDigest";
  raise_if (negb (py_eqb r (JInt 1)) || negb (py_eqb c challenge) || negb (py_eqb d expected))
    (_fail "NEGOTIATION_ATTESTATION_INVALID" "authorize").

Definition authorize_commit (a : Z) (authorization : pystr) : eff session_t unit :=
  let* s := eget in
  eguard (negb (bool_decide (phase s = session.Prepared))) (_fail "CANCELLED" "authorize") ;;*
  emodify (fun s => set_authorization_id (Some authorization) (set_admission (Some a) (set_phase Authorized s))).

(** ** Workers *)
Definition _launch_guard (o w : pystr) (a : Z) (s : session_t) : session_t * bool :=
  if negb (bool_decide (phase s = Reserved)) || negb (bool_decide (owner (info s) = o))
     || negb (bool_decide (worker_id s = Some w)) || negb (bool_decide (admission s = Some a))
  then (s, false) else (set_phase Starting s, true).

(** The locked part of [_worker_event]: whether the worker left by itself. *)
Definition worker_phase (name : pystr) (s : session_t) : session_t * bool :=
  if bool_decide (name = "worker.ready") && bool_decide (phase s = Starting) then (set_phase Running s, false)
  else (s, bool_decide (name = "worker.exited") && negb (ending (phase s))).

Definition acquire_begin (authorization : json) (token : pystr) : eff session_t unit :=
  let* s := eget in
  eguard (negb (bool_decide (phase s = Authorized))
          || negb (match authorization_id s with Some x => str_is authorization x | None => is_none authorization end)
          || authorization_used s) (_fail "HANDLE_INVALID" "attach") ;;*
  emodify (fun s => set_phase Reserved (set_worker_id (Some token) (set_authorization_used true s))).

Definition acquire_commit : eff session_t unit :=
  let* s := eget in
  eguard (negb (bool_decide (phase s = Reserved))) (_fail "CANCELLED" "attach") ;;*
  emodify (fun s => set_resources (set_workers 1 (resources s)) (set_reservation true s)).

(** ** Cleanup *)

(** Every other pending operation of the dictionary is asked to stop. *)
Definition cancel_others (op : Z) (s : session_t) : session_t :=
  set_op_objects (map (fun ko =>
    (ko.1, if bool_decide (ko.1 ∈ operations s) && negb (bool_decide (ko.1 = op)) && pending ko.2 then set_op_cancel ko.2 else ko.2))
    (op_objects s)) s.

(** The locked part of [_cleanup_operation]: the cleanup operation, whether
    this call began it, and whether its completion is still to be announced. *)
Definition begin_cleanup (reason : pystr) (advertise : bool) : eff session_t (Z * bool * bool) :=
  let* s := eget in
  match cleanup_operation s with
  | Some id =>
    let* op := elift (from_option_res (if bool_decide (id ∈ operations s) then aget id (op_objects s) else None) KeyError) in
    if advertise && negb (advertised op) then
      emodify (on_op id set_advertised) ;;* eret (id, false, negb (pending op))
    else eret (id, false, false)
  | None =>
    let op := OperationRecord (next_operation_id s) None false advertise false in
    emodify (add_operation op) ;;*
    emodify (fun s => set_closing_reason (Some reason) (set_cleanup (Cleanup CleanupPending [])
      (set_phase Closing (set_cleanup_operation (Some (operation_id op)) s)))) ;;*
    emodify (_cancel_host_locked reason) ;;*
    emodify (cancel_others (operation_id op)) ;;*
    eret (operation_id op, true, false)
  end.

(** After the run was joined: what it left behind. *)
Definition cleanup_joined (s : session_t) : list pystr * list pystr :=
  match hosted_run s with
  | Some run =>
    if bool_decide (status (run_cleanup run) = CleanupSucceeded) then ([], [])
    else (remaining_resources (run_cleanup run), [str "managed host cleanup did not complete"])
  | None => ([], [])
  end.

(** The [except] clause of the cleanup work. *)
Definition cleanup_abort (remaining : list pystr) (s : session_t) : session_t :=
  set_cleanup (Cleanup CleanupFailure remaining) (set_phase CleanupFailed s).

(** [list(dict.fromkeys(l))] *)
Definition fromkeys (l : list pystr) : list pystr :=
  fold_left (fun acc x => if bool_decide (x ∈ acc) then acc else acc ++ [x]) l [].

Definition keep_resources (retained : list pystr) (r : resource_counts) : resource_counts :=
  Resources (if bool_decide (str "authoring" ∈ retained) then authoringProcesses r else 0)
    (if bool_decide (str "build" ∈ retained) then buildProcesses r else 0)
    (if bool_decide (str "worker" ∈ retained) then workers r else 0)
    (if bool_decide (str "snapshot" ∈ retained) then snapshots r else 0).

Definition cleanup_commit (complete : bool) (remaining : list pystr) (s : session_t) : session_t :=
  set_resources (keep_resources remaining (resources s))
    (set_cleanup (Cleanup (if complete then CleanupSucceeded else CleanupFailure) (fromkeys remaining))
      (set_phase (if complete then Closed else CleanupFailed) s)).

(** The locked part of [_op_worker_release]: [true] when a cleanup is already
    under way, otherwise the session starts closing. *)
Definition release_begin (worker : json) : eff session_t bool :=
  let* s := eget in
  eguard (negb (match worker_id s with Some w => str_is worker w | None => is_none worker end)) (_fail "HANDLE_INVALID" "cleanup") ;;*
  match cleanup_operation s with
  | Some _ => eret true
  | None => emodify (set_phase Closing) ;;* eret false
  end.

(** [_op_session_status] *)
Definition status_result (counted : option resource_counts) (s : session_t) : json :=
  let r := match counted with Some r => r | None => resources s end in
  let r := match hosted_run s with
           | Some run => if bool_decide (status (run_cleanup run) = CleanupSucceeded) then r
                         else add_authoring (if done run then 0 else 1) r
           | None => r
           end in
  obj [("phase", JStr (phase_name (phase s))); ("resources", resources_json r); ("cleanup", cleanup_json (cleanup s))]%string.
End session.
