(* ===== verification/Orchestration.v ===== *)
(** * The orchestration controller ([supervisor/mirrorgate/orchestration.py])

    One controller serves one connection.  Its requests arrive one at a time on
    the server thread ([control_server.serve_stream]); every accepted operation,
    every managed run and every backend callback runs on a thread of its own.
    The threads share the session under its lock and the controller under its
    own, so a history is an interleaving of locked sections.  A thread is the
    list of the sections it still has to run ([instr]); [exec] runs the first of
    one thread, and what the backend answers to a call is part of the schedule.
    The backend ([preparation.ControlBackend]) and the agent runtime are not
    fixed: a schedule may answer anything, at any time. *)

From Stdlib Require Import ZArith Lia.
From stdpp Require Import base list gmap strings numbers.
From S2P Require Import Prelude PyJson JsonText Protocol ControlProtocol ControlProtocolV2 Canonical Effects Session.
#[local] Open Scope res_scope.
#[local] Open Scope eff_scope.

Module controller.
Import v1 v2 session.

(** ** Backend calls and their answers *)

(** What a schedule supplies for the step of a thread: nothing, or what the
    backend call at that point returns, emits or raises. *)
Inductive answer : Type :=
  | ANone
  | ARaise (e : exn)
  | ACapabilities (reports : list json) (hosting : option (list json))
  | AOpened
  | AData (stream : pystr) (data : bytes)
  | AExit (returncode : Z)
  | APrepared (b : prepared_backend)
  | AAdmission (a : Z)
  | AReserved (path token : pystr) (timeout : Z)
  | AArmed (mode : pystr)
  | ACleaned (complete : bool) (remaining failures : list pystr)
  | AAgent (limits : host_limits)
  | AClock (late : bool)
  | AHost (r : host_result)
  | ACommit (sub : json)
  | ACounts (counted : option resource_counts).

(** ** Threads *)

(** One locked section, backend call or emission of a thread. *)
Inductive instr : Type :=
  (* request handlers *)
  | IHello (id : Z) (args : json)
  | IOpen (args : json) | IOpenCall (args manifest : json) (raw : bytes) (id : pystr)
  | IOpenCommit (args manifest : json) (raw : bytes) (id : pystr) | IOpenCheck
  | IAuthoringGuard | IAuthoringStart (args : json)
  | IPrepareBegin | IPrepareStart
  | IAuthorizeCheck (args : json) | IAuthorizeCall (args : json) | IAuthorizeCommit (a : Z)
  | IAcquireBegin (args : json) | IReserve (worker : pystr) | IAcquireCommit (worker path token : pystr) (timeout : Z)
  | IReleaseBegin (args : json) | IReleaseArm (args : json) | IReleaseMode (args : json) (mode : pystr)
  | ICleanupReply (reason : pystr) (worker : option pystr) (with_mode : bool) | ICloseSummary (args : json)
  | IStatus | IOpStatus (args : json)
  | IAgentGuard | IAgentAdmit (args : json) | IAgentCommit (limits : host_limits)
  | IAgentStatus (args : json) | IAgentCancel (args : json) | IAgentResult | IReply (v : json) | IRaise (e : exn)
  (* endings *)
  | ISettle (op : Z) (x : op_result) | IFinishEvent (op : Z) | IClosedCheck (op : Z) | IClosedEvent | IEvict
  | IEmit (name : pystr) (data : json) | ICleanup (reason : pystr)
  (* the work of operations *)
  | IAuthoringWork (op : Z) (out err : Z) | IAuthoringEnd (op : Z) (r : res json)
  | IOutput (op : Z) (stage stream : pystr) (chunks : list bytes)
  | IPrepareWork (op : Z) | IPrepareCommit (op : Z) (b : prepared_backend) (challenge : pystr)
  | ICleanupWork (op : Z) (worker : option pystr) (reason : pystr) | ICleanupJoined (op : Z) (worker : option pystr)
  | ICleanupRelease (op : Z) (worker : option pystr) (remaining failures : list pystr)
  | ICleanupSession (op : Z) (remaining failures : list pystr)
  | ICleanupCommit (op : Z) (complete : bool) (remaining failures : list pystr) | ICleanupAbort (op : Z) (remaining : list pystr)
  (* managed runs *)
  | IJoinHost | ICancelHost (reason : pystr) | ITerminalHost (r : host_result) | IHostEvent
  | IHostBegin | IHostRun | IHostDone | IHostCheck
  | IHostExecute | IHostExecuteCall (out err : bytes) (overflow : bool) | IHostExecuteEnd (r : res json)
  | ISubmit | ISubmitCall | ISubmitCommit (sub : json) | ISubmitFailed (e : exn)
  (* callbacks *)
  | IExpire | IDeadline | IWorkerEvent (name : pystr) (data : pydict) | IWorkerPhase (name : pystr) (data : pydict).

(** Whose thread it is decides what an exception does. *)
Inductive role : Type := OpThread (op : Z) (cleanup_on_failure : bool) | HostThread | BrokerThread | CallbackThread.

Record thread : Type := Thread { t_session : pystr; t_role : role; t_prog : list instr }.

Record event : Type := Event { ev_v : Z; ev_seq : Z; ev_session : pystr; ev_name : pystr; ev_data : json }.

(** What the outside sees, in order: responses, events, backend calls that
    matter, the launch of a worker, replies to the agent's tools. *)
Inductive entry : Type :=
  | Response (message : json)
  | Emitted (e : event)
  | AuthorizeCalled (sid : pystr) (challenge attestation : json)
  | AuthorizeGranted (sid : pystr) (challenge attestation : json) (admission : Z)
  | ReserveCalled (sid worker : pystr)
  | Launched (sid worker : pystr)
  | ToolReply (sid : pystr) (r : res json).

(** The server thread: reading, running a request, waiting for its response to
    be queued, ending the connection session by session, gone. *)
Inductive server_t : Type :=
  | Idle
  | Busy (id : Z) (op : pystr) (sid : pystr) (prog : list instr)
  | Responded (stop : bool)
  | Broken
  | Ending (left : list pystr)
  | Gone.

Record ctl : Type := Ctl {
  sessions : list (pystr * session_t); seq : Z; last_request_id : Z; hello : bool; control_version : Z; closed : bool;
  dispatching : bool; pending_starts : list thread; pending_events : list event; threads : list thread; server : server_t;
  expired : list pystr; tokens : nat; log : list entry }.

Definition set_sessions (x : list (pystr * session_t)) (c : ctl) : ctl :=
  Ctl x (seq c) (last_request_id c) (hello c) (control_version c) (closed c) (dispatching c) (pending_starts c)
  (pending_events c) (threads c) (server c) (expired c) (tokens c) (log c).
Definition set_seq (x : Z) (c : ctl) : ctl :=
  Ctl (sessions c) x (last_request_id c) (hello c) (control_version c) (closed c) (dispatching c) (pending_starts c)
  (pending_events c) (threads c) (server c) (expired c) (tokens c) (log c).
Definition set_last_request_id (x : Z) (c : ctl) : ctl :=
  Ctl (sessions c) (seq c) x (hello c) (control_version c) (closed c) (dispatching c) (pending_starts c) (pending_events c)
  (threads c) (server c) (expired c) (tokens c) (log c).
Definition set_hello (x : bool) (c : ctl) : ctl :=
  Ctl (sessions c) (seq c) (last_request_id c) x (control_version c) (closed c) (dispatching c) (pending_starts c)
  (pending_events c) (threads c) (server c) (expired c) (tokens c) (log c).
Definition set_control_version (x : Z) (c : ctl) : ctl :=
  Ctl (sessions c) (seq c) (last_request_id c) (hello c) x (closed c) (dispatching c) (pending_starts c) (pending_events c)
  (threads c) (server c) (expired c) (tokens c) (log c).
Definition set_closed (x : bool) (c : ctl) : ctl :=
  Ctl (sessions c) (seq c) (last_request_id c) (hello c) (control_version c) x (dispatching c) (pending_starts c)
  (pending_events c) (threads c) (server c) (expired c) (tokens c) (log c).
Definition set_dispatching (x : bool) (c : ctl) : ctl :=
  Ctl (sessions c) (seq c) (last_request_id c) (hello c) (control_version c) (closed c) x (pending_starts c)
  (pending_events c) (threads c) (server c) (expired c) (tokens c) (log c).
Definition set_pending_starts (x : list thread) (c : ctl) : ctl :=
  Ctl (sessions c) (seq c) (last_request_id c) (hello c) (control_version c) (closed c) (dispatching c) x (pending_events c)
  (threads c) (server c) (expired c) (tokens c) (log c).
Definition set_pending_events (x : list event) (c : ctl) : ctl :=
  Ctl (sessions c) (seq c) (last_request_id c) (hello c) (control_version c) (closed c) (dispatching c) (pending_starts c) x
  (threads c) (server c) (expired c) (tokens c) (log c).
Definition set_threads (x : list thread) (c : ctl) : ctl :=
  Ctl (sessions c) (seq c) (last_request_id c) (hello c) (control_version c) (closed c) (dispatching c) (pending_starts c)
  (pending_events c) x (server c) (expired c) (tokens c) (log c).
Definition set_server (x : server_t) (c : ctl) : ctl :=
  Ctl (sessions c) (seq c) (last_request_id c) (hello c) (control_version c) (closed c) (dispatching c) (pending_starts c)
  (pending_events c) (threads c) x (expired c) (tokens c) (log c).
Definition set_expired (x : list pystr) (c : ctl) : ctl :=
  Ctl (sessions c) (seq c) (last_request_id c) (hello c) (control_version c) (closed c) (dispatching c) (pending_starts c)
  (pending_events c) (threads c) (server c) x (tokens c) (log c).
Definition set_tokens (x : nat) (c : ctl) : ctl :=
  Ctl (sessions c) (seq c) (last_request_id c) (hello c) (control_version c) (closed c) (dispatching c) (pending_starts c)
  (pending_events c) (threads c) (server c) (expired c) x (log c).
Definition set_log (x : list entry) (c : ctl) : ctl :=
  Ctl (sessions c) (seq c) (last_request_id c) (hello c) (control_version c) (closed c) (dispatching c) (pending_starts c)
  (pending_events c) (threads c) (server c) (expired c) (tokens c) x.

Definition initial : ctl := Ctl [] 0 0 false 1 false false [] [] [] Idle [] 0 [].

Definition logs (e : entry) (c : ctl) : ctl := set_log (log c ++ [e]) c.

(** ** Shared steps *)
Definition _event (sid name : pystr) (data : json) (c : ctl) : ctl :=
  if closed c && negb (bool_decide (name = "session.closed")) then c
  else
    let e := Event (control_version c) (seq c + 1) sid name data in
    let c := set_seq (seq c + 1) c in
    if dispatching c then set_pending_events (pending_events c ++ [e]) c else logs (Emitted e) c.

(** [thread.start()], put off while the server thread runs a request. *)
Definition start_thread (srv : bool) (t : thread) (c : ctl) : ctl :=
  if srv && dispatching c then set_pending_starts (pending_starts c ++ [t]) c else set_threads (threads c ++ [t]) c.

Definition after_response (c : ctl) : ctl :=
  let c := set_log (log c ++ map Emitted (pending_events c)) c in
  set_dispatching false (set_pending_events [] (set_pending_starts [] (set_threads (threads c ++ pending_starts c) c))).

(** The thread of an operation: its work, then [run]'s bookkeeping. *)
Definition op_thread (sid : pystr) (op : Z) (cleanup_on_failure : bool) (work : list instr) : thread :=
  Thread sid (OpThread op cleanup_on_failure) (work ++ [IFinishEvent op; IClosedCheck op; IEvict]).

(** ** Errors *)

(** A character replaced when it has no UTF-8 form. *)
Definition scalar_or_mark (c : N) : N := if is_scalar c then c else 63%N.

Fixpoint clip_loop (budget : Z) (s : pystr) : pystr :=
  match s with
  | [] => []
  | c :: s' =>
    match utf8_len [c] with
    | Some n => if (n <=? budget)%Z then c :: clip_loop (budget - n) s' else []
    | None => []
    end
  end.

(** [message.encode("utf-8", "replace")\[:1024\].decode("utf-8", "ignore")] *)
Definition clip (s : pystr) : pystr := clip_loop 1024 (map scalar_or_mark s).

(** [getattr(exc, "code", ...)] and [getattr(exc, "stage", ...)] *)
Definition exn_code (e : exn) : option string :=
  match e with
  | ProtocolError code | ControlError code _ _ | BrokerError code | BackendError code _ => Some code
  | _ => None
  end.
Definition exn_stage (e : exn) : option string :=
  match e with ControlError _ stage _ | BackendError _ stage => Some stage | _ => None end.

Definition OPERATION_ERRORS : list string :=
  ["POLICY_DENIED"; "LIMIT_EXCEEDED"; "PREPARATION_FAILED"; "BUILD_FAILED"; "BACKEND_ADMISSION_FAILED"; "ATTACHMENT_FAILED";
   "WORKER_PROTOCOL_FAILED"; "WORKER_EXITED"; "CANCELLED"; "DEADLINE_EXCEEDED"; "CLEANUP_FAILED"]%string.
Definition ADMIT_ERRORS : list string :=
  ["POLICY_DENIED"; "LIMIT_EXCEEDED"; "AUDIT_UNAVAILABLE"; "CAPABILITY_UNAVAILABLE"; "STATE_INVALID"; "ARGUMENT_INVALID";
   "DEADLINE_EXCEEDED"]%string.

(** What a step leaves to do: more sections, the rest of the request in a new
    session, an answer to the requester, or an exception. *)
Inductive next : Type :=
  | Continue (more : list instr)
  | Enter (id : pystr) (more : list instr)
  | Reply (v : json)
  | Send (message : json)
  | Raise (e : exn).

(** The effect of a step on its session: the state it leaves, the threads it
    starts, those it leaves for after the response, the event it emits, what
    it logs, and whether it drew a random token. *)
Record effect : Type := Effect {
  f_next : next; f_session : session_t; f_spawn : list thread; f_deferred : list thread;
  f_event : option (pystr * json); f_log : list entry; f_token : bool }.

Definition quiet (s : session_t) (n : next) : effect := Effect n s [] [] None [] false.
Definition with_spawn (l : list thread) (f : effect) : effect :=
  Effect (f_next f) (f_session f) l (f_deferred f) (f_event f) (f_log f) (f_token f).
Definition with_deferred (l : list thread) (f : effect) : effect :=
  Effect (f_next f) (f_session f) (f_spawn f) l (f_event f) (f_log f) (f_token f).
Definition with_event (e : option (pystr * json)) (f : effect) : effect :=
  Effect (f_next f) (f_session f) (f_spawn f) (f_deferred f) e (f_log f) (f_token f).
Definition with_log (l : list entry) (f : effect) : effect :=
  Effect (f_next f) (f_session f) (f_spawn f) (f_deferred f) (f_event f) l (f_token f).
Definition with_token (f : effect) : effect :=
  Effect (f_next f) (f_session f) (f_spawn f) (f_deferred f) (f_event f) (f_log f) true.

(** A locked section that may raise, and one that does not. *)
Definition sect {A} (m : eff session_t A) (k : A -> next) (s : session_t) : effect :=
  match m s with (s', Ok x) => quiet s' (k x) | (s', Err e) => quiet s' (Raise e) end.
Definition pure_sect {A} (f : session_t -> session_t * A) (k : A -> next) (s : session_t) : effect :=
  let '(s', x) := f s in quiet s' (k x).
Definition update (f : session_t -> session_t) (n : next) (s : session_t) : effect := quiet (f s) n.

Section Controller.
(** The bound on nested JSON, the retained completed operations, the random
    tokens, the text of an exception and lossy UTF-8 decoding. *)
Context (rec_limit : nat) (max_completed : Z) (token_hex : nat -> pystr) (text : exn -> pystr) (decode_replace : bytes -> pystr).
Context (instance_id : pystr).

Definition error_json (code stage : pystr) (message : pystr) (operation : option Z) : json :=
  obj ([("code", JStr code); ("stage", JStr stage); ("message", JStr (clip message))]%string
       ++ opt_field "operationId" (JInt <$> operation)).

Definition _success (c : ctl) (id : Z) (result : json) : json :=
  obj [("v", JInt (control_version c)); ("kind", JStr "response"); ("id", JInt id); ("ok", JBool true); ("result", result)]%string.
Definition _failure (c : ctl) (id : Z) (error : json) : json :=
  obj [("v", JInt (control_version c)); ("kind", JStr "response"); ("id", JInt id); ("ok", JBool false); ("error", error)]%string.
Definition _error (c : ctl) (id : Z) (code stage : string) (message : pystr) : json :=
  _failure c id (error_json (str code) (str stage) message None).

Definition _exception_error (e : exn) (op : Z) : json :=
  let code := default "PREPARATION_FAILED"%string (exn_code e) in
  let code := if bool_decide (code ∈ OPERATION_ERRORS) then code else "PREPARATION_FAILED"%string in
  error_json (str code) (str (default "prepare"%string (exn_stage e))) (text e) (Some op).

(** The [except] clauses of [dispatch]. *)
Definition dispatch_failure (c : ctl) (id : Z) (op : pystr) (e : exn) : json :=
  match e with
  | ControlError code stage _ =>
    _error c id code stage (if starts_with "agent." op then _hosting_error_message code else text e)
  | _ =>
    if starts_with "agent." op then _error c id "POLICY_DENIED" "hosting" "hosting admission failed"
    else _error c id (default "POLICY_DENIED"%string (exn_code e)) (default "policy"%string (exn_stage e)) (text e)
  end.

Definition fatal (e : exn) : bool := match e with ControlError _ _ f => f | _ => false end.

(** What an uncaught exception makes a thread do. *)
Definition on_raise (r : role) (e : exn) : list instr :=
  match r with
  | OpThread op cleanup_on_failure =>
    [ISettle op (Failed (_exception_error e op)); IFinishEvent op; IClosedCheck op]
    ++ (if cleanup_on_failure then [ICleanup "client-failure"] else []) ++ [IEvict]
  | HostThread => [ITerminalHost (HostResult "start_failed" false [str "agent-host"]); IHostDone]
  | BrokerThread | CallbackThread => []
  end.

(** ** The sections *)
Definition take_token (c : ctl) : ctl * pystr := (set_tokens (S (tokens c)) c, token_hex (tokens c)).

Definition operation_reply (op : Z) : json := obj [("operationId", JInt op)]%string.

(** [_hello_request] *)
Definition capability (v : json) : res (pystr * bool) :=
  i ← getitem v "id"; name ← match i with JStr s => Ok s | _ => Err TypeError end;
  Ok (name, match v with JObj d => match dget "available" d with Some x => truthy x | None => false end | _ => false end).

Definition hello_limits (version : Z) : json :=
  obj [("maxFrameBytes", JInt 1048576); ("maxJsonDepth", JInt 128); ("maxJsonNodes", JInt 16384);
       ("maxPendingOutputBytes", JInt 4194304); ("maxSessionsPerConnection", JInt 4); ("maxInflightRequestsPerConnection", JInt 16);
       ("maxCompletedOperationsPerSession", JInt max_completed); ("helloTimeoutMs", JInt 5000);
       ("requestAckTimeoutMs", JInt (if (version =? 2)%Z then 10000 else 5000)); ("workerAttachmentTimeoutMs", JInt 5000);
       ("sessionWallMs", JInt 600000); ("gracefulStopMs", JInt 1000); ("teardownMs", JInt 5000)]%string.

Definition _hello_request (id : Z) (args : json) (reports : list json) (hosting : option (list json)) (c : ctl) : ctl * next :=
  match (version ← select_control_version rec_limit
           (obj [("v", JInt 1); ("kind", JStr "request"); ("id", JInt id); ("op", JStr "hello"); ("args", args)]%string) [1; 2]%Z;
         let all := reports ++ match hosting with Some l => if (version =? 2)%Z then l else [] | None => [] end in
         named ← traverse (fun v => n ← capability v; Ok (n, v)) all;
         let kept := if (version =? 1)%Z then filter (fun p => starts_with "hosting." p.1.1 = false) named else named in
         required ← getitem args "requiredCapabilities"; names ← port._list required;
         let by_id := fold_left (fun m p => aset p.1.1 p.1.2 m) kept [] in
         raise_if (negb (forallb (fun n => match n with JStr s => default false (aget s by_id) | _ => false end) names))
           (_fail "CAPABILITY_UNAVAILABLE" "bootstrap") ;;
         Ok (version, map snd kept)) with
  | Err e => (c, Raise e)
  | Ok (version, capabilities) =>
    (set_control_version version (set_hello true c),
     Send (obj [("v", JInt 1); ("kind", JStr "response"); ("id", JInt id); ("ok", JBool true);
                ("result", obj [("controlVersion", JInt version); ("instanceId", JStr instance_id);
                                ("capabilities", JArr capabilities); ("limits", hello_limits version)])]%string))
  end.

(** [_op_session_open], up to the backend call *)
Definition active_sessions (c : ctl) : Z := zlen (filter (fun p => ended (phase p.2) = false) (sessions c)).

Definition open_begin (args : json) (c : ctl) : ctl * next :=
  match (raise_if (4 <=? active_sessions c)%Z (_fail "LIMIT_EXCEEDED" "policy") ;;
         m ← getitem args "manifestJson"; s ← match m with JStr s => Ok s | _ => Err TypeError end;
         raw ← from_option_res (utf8_encode s) UnicodeError;
         manifest ← try_except (v ← port._parse_json rec_limit raw; port.validate_manifest v) (fun _ => true)
                      (fun _ => Err (_fail "ARGUMENT_INVALID" "policy"));
         Ok (manifest, raw)) with
  | Err e => (c, Raise e)
  | Ok (manifest, raw) => let '(c, id) := take_token c in (c, Continue [IOpenCall args manifest raw id])
  end.

Definition MANIFEST_DOMAIN : bytes := str "mirrorgate.public-manifest/v1" ++ [0%N].

(** [submission.get("kind") == "source" and submission.get("authoring")] *)
Definition first_phase (submission : json) : phase_t :=
  match submission with
  | JObj d => if opt_str_is (dget "kind" d) "source" && match dget "authoring" d with Some v => truthy v | None => false end
              then Authoring else session.Open
  | _ => session.Open
  end.

(** The rest of [_op_session_open]; the session's owner is named by its id. *)
Definition open_commit (args manifest : json) (raw : bytes) (id : pystr) (c : ctl) : ctl * next :=
  match (p ← getitem args "policyId"; sub ← getitem args "submission"; r ← getitem args "runtime"; Ok (p, sub, r)) with
  | Err e => (c, Raise e)
  | Ok (policy, sub, runtime) =>
    let i := Opened id id policy sub runtime manifest (sha256_hex (MANIFEST_DOMAIN ++ raw))
               (match args with JObj d => dget "modelRevisionId" d | _ => None end) in
    if closed c then (c, Raise (_fail "CANCELLED" "cleanup"))
    else (set_sessions (aset id (new_session i (first_phase sub)) (sessions c)) c, Enter id [IOpenCheck])
  end.

(** *** Pieces of the sections *)

(** [_cleanup_operation]: a new cleanup operation gets its thread; [k] has the
    operation's number and whether its completion is still to be announced. *)
Definition _cleanup_operation (sid reason : pystr) (worker : option pystr) (advertise : bool) (k : res (Z * bool) -> next)
    (s : session_t) : effect :=
  match begin_cleanup reason advertise s with
  | (s', Ok (op, true, _)) =>
    with_spawn [op_thread sid op false [ICleanupWork op worker reason]] (quiet s' (k (Ok (op, false))))
  | (s', Ok (op, false, due)) => quiet s' (k (Ok (op, due)))
  | (s', Err e) => quiet s' (k (Err e))
  end.

(** The pieces of [_output]. *)
Definition PIECE : nat := Z.to_nat 16384.
Fixpoint pieces (fuel : nat) (data : bytes) : list bytes :=
  match fuel, data with
  | S fuel, _ :: _ => take PIECE data :: pieces fuel (drop PIECE data)
  | _, _ => []
  end.

Definition output_thread (sid : pystr) (op : Z) (stage stream : pystr) (data : bytes) : thread :=
  Thread sid CallbackThread [IOutput op stage stream (pieces (length data) data)].

Definition output_data (op : Z) (stream : pystr) (number : Z) (chunk : pystr) : json :=
  obj [("operationId", JInt op); ("stream", JStr stream); ("chunk", JInt number); ("bytesBase64", JStr chunk)]%string.

Definition arg (args : json) (k : string) : json := match getitem args (str k) with Ok v => v | Err _ => JNull end.
Definition str_arg (args : json) (k : string) : pystr := match arg args k with JStr s => s | _ => [] end.

(** The data of a worker event as it leaves [_worker_event]; [None] for an
    event that is not public. *)
Definition worker_fields (name : pystr) : option (list pystr) :=
  if bool_decide (name ∈ strs ["worker.started"; "worker.ready"]) then Some (strs ["workerId"])
  else if bool_decide (name = "worker.exited") then Some (strs ["workerId"; "reason"; "exitCode"])
  else if bool_decide (name = "worker.closing") then Some (strs ["workerId"; "reason"])
  else None.

Definition worker_data (name : pystr) (data : pydict) (s : session_t) : option pydict :=
  let data := dset "workerId" (match worker_id s with Some w => JStr w | None => JNull end) data in
  let data := match dget "returncode" data with Some v => dset "exitCode" v (ddel "returncode" data) | None => data end in
  let data :=
    if bool_decide (name = "worker.exited") then
      dset "reason" (JStr match closing_reason s with
                          | Some r => r
                          | None => if opt_str_is (dget "reason" data) "wall_timeout" then str "deadline"
                                    else if opt_str_is (dget "reason" data) "client-disconnected" then str "client-failure"
                                    else str "worker-failure"
                          end) data
    else data in
  (fun allowed => filter (fun kv => kv.1 ∈ allowed) data) <$> worker_fields name.

(** The bytes a public tool may return on one stream. *)
Definition extend (out data : bytes) : option bytes := if (65536 <? zlen out + zlen data)%Z then None else Some (out ++ data).

Definition run_of (s : session_t) (args : json) : res hosted_run_t :=
  match hosted_run s with
  | Some run => if str_is (arg args "runId") (run_id run) then Ok run else Err (_fail "HANDLE_INVALID" "hosting")
  | None => Err (_fail "HANDLE_INVALID" "hosting")
  end.

(** [_op_agent_status] *)
Definition agent_status (args : json) (s : session_t) : res json :=
  _ ← (if match args with JObj d => dmem "runId" d | _ => false end then r ← run_of s args; Ok tt else Ok tt);
  Ok (obj [("run", match hosted_run s with Some r => run_public r | None => JNull end)]%string).

(** [_op_operation_status] *)
Definition op_status_result (args : json) (s : session_t) : res json :=
  match arg args "operationId" with
  | JInt op => if bool_decide (op ∈ operations s) then from_option_res (public <$> aget op (op_objects s)) KeyError
               else Err (_fail "OPERATION_UNKNOWN" "cleanup")
  | _ => Err (_fail "OPERATION_UNKNOWN" "cleanup")
  end.

Definition reading {A} (f : session_t -> res A) : eff session_t A := fun s => (s, f s).

(** ** The sections of the request handlers *)

(** [token] is the random token a section may draw. *)
(** [_op_authoring_exec] *)
Definition request_authoring (sid : pystr) (i : instr) (s : session_t) : option effect :=
  match i with
  | IAuthoringGuard =>
    Some (sect (reading (fun s => raise_if (negb (bool_decide (phase s = Authoring)) || bool_decide (is_Some (hosted_run s)))
                                    (_fail "STATE_INVALID" "authoring"))) (fun _ => Continue []) s)
  | IAuthoringStart _ =>
    Some (match (let* op := _new_operation true in emodify (fun s => set_resources (add_authoring 1 (resources s)) s) ;;* eret op) s with
          | (s', Ok op) => with_spawn [op_thread sid op true [IAuthoringWork op 0 0]] (quiet s' (Reply (operation_reply op)))
          | (s', Err e) => quiet s' (Raise e)
          end)
  | _ => None
  end.

(** [_op_session_prepare] *)
Definition request_prepare (sid : pystr) (i : instr) (s : session_t) : option effect :=
  match i with
  | IPrepareBegin => Some (sect prepare_begin (fun _ => Continue []) s)
  | IPrepareStart =>
    Some (match _new_operation true s with
          | (s', Ok op) => with_spawn [op_thread sid op true [IPrepareWork op]] (quiet s' (Reply (operation_reply op)))
          | (s', Err e) => quiet s' (Raise e)
          end)
  | _ => None
  end.

(** [_op_session_authorize] *)
Definition request_authorize (token sid : pystr) (i : instr) (a : answer) (s : session_t) : option effect :=
  match i with
  | IAuthorizeCheck args => Some (sect (reading (authorize_check args)) (fun _ => Continue []) s)
  | IAuthorizeCall args =>
    let called n := with_log [AuthorizeCalled sid (arg args "challenge") (arg args "attestation")] (quiet s n) in
    match a with
    | AAdmission x => Some (with_log [AuthorizeCalled sid (arg args "challenge") (arg args "attestation");
                                      AuthorizeGranted sid (arg args "challenge") (arg args "attestation") x] (quiet s (Continue [IAuthorizeCommit x])))
    | ARaise e => Some (called (Continue [ICleanup "client-failure";
                    IRaise (_fail (default "BACKEND_ADMISSION_FAILED"%string (exn_code e)) "authorize")]))
    | _ => None
    end
  | IAuthorizeCommit x =>
    Some (with_token (sect (authorize_commit x token) (fun _ => Reply (obj [("authorizationId", JStr token)]%string)) s))
  | _ => None
  end.

(** [_op_worker_acquire] *)
Definition request_acquire (token sid : pystr) (i : instr) (a : answer) (s : session_t) : option effect :=
  match i with
  | IAcquireBegin args =>
    Some (with_token (sect (acquire_begin (arg args "authorizationId") token) (fun _ => Continue [IReserve token]) s))
  | IReserve worker =>
    let called n := with_log [ReserveCalled sid worker] (quiet s n) in
    match a with
    | AReserved path att timeout => Some (called (Continue [IAcquireCommit worker path att timeout]))
    | ARaise e => Some (called (Continue [ICleanup "worker-failure";
                    IRaise (_fail (default "BACKEND_ADMISSION_FAILED"%string (exn_code e)) "attach")]))
    | _ => None
    end
  | IAcquireCommit worker path att timeout =>
    Some (sect acquire_commit (fun _ => Reply (obj [("workerId", JStr worker);
      ("endpoint", obj [("kind", JStr "unix"); ("path", JStr path)]); ("attachmentToken", JStr att);
      ("attachmentTimeoutMs", JInt timeout); ("releaseMode", JStr "control-v1")]%string)) s)
  | _ => None
  end.

(** [_op_worker_release], [_op_session_cancel], [_op_session_close] *)
Definition request_release (sid : pystr) (i : instr) (a : answer) (s : session_t) : option effect :=
  match i with
  | IReleaseBegin args =>
    Some (sect (release_begin (arg args "workerId"))
      (fun existing => Continue (if existing : bool then [ICleanupReply (str_arg args "reason") None true] else [IReleaseArm args])) s)
  | IReleaseArm args =>
    match a with
    | AArmed mode => Some (quiet s (Continue [IReleaseMode args mode]))
    | ARaise e => Some (quiet s (Raise e))
    | _ => None
    end
  | IReleaseMode args mode =>
    Some (update (set_cleanup_mode (Some mode))
      (Continue [ICleanupReply (str_arg args "reason") (Some (str_arg args "workerId")) true]) s)
  | ICleanupReply reason worker with_mode =>
    Some (_cleanup_operation sid reason worker true (fun r =>
      match r with
      | Ok (op, due) =>
        let mode := default (str "terminate-only") (cleanup_mode s) in
        Continue ((if due : bool then [IFinishEvent op] else [])
          ++ [IReply (obj ([("operationId", JInt op)]%string ++ (if with_mode then [("cleanupMode"%string, JStr mode)] else [])))])
      | Err e => Raise e
      end) s)
  | ICloseSummary args =>
    Some (update (fun s => match args with
                           | JObj d => match dget "outcomeSummary" d with Some v => set_outcome_summary (Some v) s | None => s end
                           | _ => s
                           end) (Continue [ICleanupReply "normal" None false]) s)
  | _ => None
  end.

(** [_op_session_status], [_op_operation_status] *)
Definition request_status (i : instr) (a : answer) (s : session_t) : option effect :=
  match i with
  | IStatus =>
    match a with
    | ACounts counted => Some (quiet s (Reply (status_result counted s)))
    | ARaise e => Some (quiet s (Raise e))
    | _ => None
    end
  | IOpStatus args => Some (sect (reading (op_status_result args)) Reply s)
  | _ => None
  end.

(** [_op_agent_start], [_op_agent_status], [_op_agent_cancel] *)
Definition request_agent (is_closed : bool) (token sid : pystr) (i : instr) (a : answer) (s : session_t) : option effect :=
  match i with
  | IAgentGuard =>
    Some (sect (reading (fun s => raise_if (agent_start_guard s) (_fail "STATE_INVALID" "hosting"))) (fun _ => Continue []) s)
  | IAgentAdmit _ =>
    match a with
    | AAgent limits => Some (quiet s (Continue [IAgentCommit limits]))
    | ARaise e =>
      let code := default "AUDIT_UNAVAILABLE"%string (exn_code e) in
      Some (quiet s (Raise (_fail (if bool_decide (code ∈ ADMIT_ERRORS) then code else "AUDIT_UNAVAILABLE"%string) "hosting")))
    | _ => None
    end
  | IAgentCommit limits =>
    match a with
    | AClock late =>
      Some (with_token (match agent_start_commit (is_closed || late) token limits s with
        | (s', Ok _) => with_deferred [Thread sid HostThread [IHostBegin; IHostDone]]
                          (quiet s' (Reply (obj [("runId", JStr token)]%string)))
        | (s', Err e) => quiet s' (Raise e)
        end))
    | _ => None
    end
  | IAgentStatus args => Some (sect (reading (agent_status args)) Reply s)
  | IAgentCancel args =>
    Some (sect (let* _ := reading (fun s => run_of s args) in emodify (_cancel_host_locked (str_arg args "reason")))
      (fun _ => Continue [IJoinHost; IAgentResult]) s)
  | IAgentResult =>
    Some (sect (reading (fun s => run ← from_option_res (hosted_run s) (_fail "HANDLE_INVALID" "hosting");
                                  Ok (obj [("run", run_public run)]%string, bool_decide (status (run_cleanup run) = CleanupSucceeded))))
      (fun '(v, clean) => if clean : bool then Reply v else Continue [ICleanup "client-failure"; IReply v]) s)
  | _ => None
  end.

(** The sections of every request. *)
Definition exec_request (is_closed : bool) (token sid : pystr) (i : instr) (a : answer) (s : session_t) : option effect :=
  match i with
  | IAuthoringGuard | IAuthoringStart _ => request_authoring sid i s
  | IPrepareBegin | IPrepareStart => request_prepare sid i s
  | IAuthorizeCheck _ | IAuthorizeCall _ | IAuthorizeCommit _ => request_authorize token sid i a s
  | IAcquireBegin _ | IReserve _ | IAcquireCommit _ _ _ _ => request_acquire token sid i a s
  | IReleaseBegin _ | IReleaseArm _ | IReleaseMode _ _ | ICleanupReply _ _ _ | ICloseSummary _ => request_release sid i a s
  | IStatus | IOpStatus _ => request_status i a s
  | IAgentGuard | IAgentAdmit _ | IAgentCommit _ | IAgentStatus _ | IAgentCancel _ | IAgentResult => request_agent is_closed token sid i a s
  | _ => None
  end.

(** ** The sections of operations, runs and callbacks *)
Definition cleanup_failed_exn : exn := _fail "CLEANUP_FAILED" "cleanup".

Definition closed_result : json :=
  obj [("phase", JStr "closed"); ("cleanupStatus", JStr "succeeded"); ("remainingResources", JArr [])]%string.

(** The bookkeeping of [run] *)
Definition work_settle (i : instr) (s : session_t) : option effect :=
  match i with
  | ISettle op x => Some (update (settle op x) (Continue []) s)
  | _ => None
  end.

(** The work of [authoring.exec]. *)
Definition work_authoring (sid : pystr) (i : instr) (a : answer) (s : session_t) : option effect :=
  match i with
  | IAuthoringWork op out err =>
    match a with
    | AData stream data =>
      let '(out, err) := if bool_decide (stream = "stdout") then (out + zlen data, err)%Z else (out, err + zlen data)%Z in
      Some (with_spawn [output_thread sid op "authoring" stream data] (quiet s (Continue [IAuthoringWork op out err])))
    | AExit rc =>
      Some (quiet s (Continue [IAuthoringEnd op
        (Ok (obj [("exitCode", JInt rc); ("stdoutBytes", JInt out); ("stderrBytes", JInt err)]%string))]))
    | ARaise e => Some (quiet s (Continue [IAuthoringEnd op (Err e)]))
    | _ => None
    end
  | IAuthoringEnd op r =>
    Some (update (fun s => set_resources (drop_authoring (resources s)) s)
      (match r with Ok v => Continue [ISettle op (Succeeded v)] | Err e => Raise e end) s)
  | _ => None
  end.

(** The work of [session.prepare]. *)
Definition work_prepare (token sid : pystr) (i : instr) (a : answer) (s : session_t) : option effect :=
  match i with
  | IPrepareWork op =>
    match a with
    | AData stream data => Some (with_spawn [output_thread sid op "build" stream data] (quiet s (Continue [IPrepareWork op])))
    | APrepared b => Some (with_token (quiet s (Continue [IPrepareCommit op b token])))
    | ARaise e => Some (quiet s (Raise e))
    | _ => None
    end
  | IPrepareCommit op b challenge => Some (sect (prepare_commit b challenge) (fun v => Continue [ISettle op (Succeeded v)]) s)
  | _ => None
  end.

(** The work of a cleanup operation. *)
Definition work_cleanup (i : instr) (a : answer) (s : session_t) : option effect :=
  match i with
  | ICleanupWork op worker _ =>
    Some (quiet s (Continue (if bool_decide (is_Some (hosted_run s)) then [IJoinHost; ICleanupJoined op worker] else [ICleanupRelease op worker [] []])))
  | ICleanupJoined op worker =>
    let '(remaining, failures) := cleanup_joined s in Some (quiet s (Continue [ICleanupRelease op worker remaining failures]))
  | ICleanupRelease op worker remaining failures =>
    match worker, a with
    | None, _ => Some (quiet s (Continue [ICleanupSession op remaining failures]))
    | Some _, ACleaned _ r f => Some (quiet s (Continue [ICleanupSession op (remaining ++ r) (failures ++ f)]))
    | Some _, ARaise _ => Some (quiet s (Continue [ICleanupAbort op remaining]))
    | _, _ => None
    end
  | ICleanupSession op remaining failures =>
    match a with
    | ACleaned complete r f => Some (quiet s (Continue [ICleanupCommit op complete (remaining ++ r) (failures ++ f)]))
    | ARaise _ => Some (quiet s (Continue [ICleanupAbort op remaining]))
    | _ => None
    end
  | ICleanupCommit op complete remaining failures =>
    let complete := complete && bool_decide (failures = []) && bool_decide (remaining = []) in
    Some (update (cleanup_commit complete remaining)
      (if complete then Continue [ISettle op (Succeeded closed_result)] else Raise cleanup_failed_exn) s)
  | ICleanupAbort _ remaining => Some (update (cleanup_abort remaining) (Raise cleanup_failed_exn) s)
  | _ => None
  end.

(** The work of an operation, up to its settlement. *)
Definition exec_work (token sid : pystr) (i : instr) (a : answer) (s : session_t) : option effect :=
  match i with
  | ISettle _ _ => work_settle i s
  | IAuthoringWork _ _ _ | IAuthoringEnd _ _ => work_authoring sid i a s
  | IPrepareWork _ | IPrepareCommit _ _ _ => work_prepare token sid i a s
  | ICleanupWork _ _ _ | ICleanupJoined _ _ | ICleanupRelease _ _ _ _ | ICleanupSession _ _ _ | ICleanupCommit _ _ _ _ | ICleanupAbort _ _ => work_cleanup i a s
  | _ => None
  end.

(** [_join_host]; a run that is not over in time is ended on its behalf. *)
Definition host_join (i : instr) (s : session_t) : option effect :=
  match i with
  | IJoinHost =>
    Some (quiet s (Continue (match hosted_run s with
      | Some run => if done run then []
                    else [ICancelHost "client-failure"; ITerminalHost (HostResult "cancelled" false [str "agent-host"])]
      | None => []
      end)))
  | ICancelHost reason => Some (update (_cancel_host_locked reason) (Continue []) s)
  | _ => None
  end.

(** [_terminal_host] and [_host_event]. *)
Definition host_ends (i : instr) (s : session_t) : option effect :=
  match i with
  | ITerminalHost r => Some (pure_sect (_terminal_host r) (fun now => Continue (if now : bool then [IHostEvent] else [])) s)
  | IHostEvent => let '(s', e) := _host_event s in Some (with_event e (quiet s' (Continue [])))
  | _ => None
  end.

(** The thread [execute] of a managed run. *)
Definition host_runs (i : instr) (a : answer) (s : session_t) : option effect :=
  match i with
  | IHostBegin =>
    Some (pure_sect host_begin (fun cancelled =>
      Continue (if cancelled : bool then [ITerminalHost (HostResult "cancelled" true [])] else [IHostEvent; IHostRun])) s)
  | IHostRun =>
    match a with
    | AHost r => Some (quiet s (Continue [ITerminalHost r]))
    | ARaise e => Some (quiet s (Raise e))
    | _ => None
    end
  | IHostDone => Some (update (on_run (set_done true)) (Continue [IHostCheck]) s)
  | IHostCheck => Some (quiet s (Continue (if needs_cleanup s then [ICleanup "client-failure"] else [])))
  | _ => None
  end.

(** [_host_execute] *)
Definition host_tool (i : instr) (a : answer) (s : session_t) : option effect :=
  match i with
  | IHostExecute => Some (sect host_execute_begin (fun _ => Continue [IHostExecuteCall [] [] false]) s)
  | IHostExecuteCall out err overflow =>
    match a with
    | AData stream data =>
      let to_out := bool_decide (stream = "stdout") in
      match extend (if to_out then out else err) data with
      | Some new => Some (quiet s (Continue [if to_out then IHostExecuteCall new err overflow else IHostExecuteCall out new overflow]))
      | None => Some (update (on_run (set_tool_cancel true)) (Continue [IHostExecuteCall out err true]) s)
      end
    | AExit rc =>
      Some (quiet s (Continue [IHostExecuteEnd (if overflow then Err (_fail "LIMIT_EXCEEDED" "hosting")
        else Ok (obj [("returncode", JInt rc); ("stdout", JStr (decode_replace out)); ("stderr", JStr (decode_replace err))]%string))]))
    | ARaise e => Some (quiet s (Continue [IHostExecuteEnd (Err e)]))
    | _ => None
    end
  | IHostExecuteEnd r => Some (update host_execute_end (match r with Ok v => Reply v | Err e => Raise e end) s)
  | _ => None
  end.

(** [_host_submit] *)
Definition host_submits (i : instr) (a : answer) (s : session_t) : option effect :=
  match i with
  | ISubmit =>
    Some (sect host_submit_begin (fun sub => match sub with Some v => Reply v | None => Continue [IHostEvent; ISubmitCall] end) s)
  | ISubmitCall =>
    match a with
    | ACommit sub =>
      let sub := default sub (backend_submission s) in
      Some (update (set_backend_submission (Some sub)) (Continue [ISubmitCommit sub]) s)
    | ARaise e => Some (quiet s (Continue [ISubmitFailed e]))
    | _ => None
    end
  | ISubmitCommit sub =>
    Some (match host_submit_commit s with
          | (s', Ok _) => quiet s' (Continue [IHostEvent; IReply sub])
          | (s', Err e) => quiet s' (Continue [ISubmitFailed e])
          end)
  | ISubmitFailed e =>
    let timed_out := bool_decide (exn_code e = Some "DEADLINE_EXCEEDED"%string) in
    Some (update (host_submit_failed timed_out)
      (Raise (_fail (if timed_out then "DEADLINE_EXCEEDED" else "PREPARATION_FAILED") "hosting")) s)
  | _ => None
  end.

(** The threads of managed runs. *)
Definition exec_host (sid : pystr) (i : instr) (a : answer) (s : session_t) : option effect :=
  match i with
  | IJoinHost | ICancelHost _ => host_join i s
  | ITerminalHost _ | IHostEvent => host_ends i s
  | IHostBegin | IHostRun | IHostDone | IHostCheck => host_runs i a s
  | IHostExecute | IHostExecuteCall _ _ _ | IHostExecuteEnd _ => host_tool i a s
  | ISubmit | ISubmitCall | ISubmitCommit _ | ISubmitFailed _ => host_submits i a s
  | _ => None
  end.

(** The end of [run] in [_spawn]. *)
Definition after_operation (i : instr) (s : session_t) : option effect :=
  match i with
  | IFinishEvent op =>
    Some (pure_sect (_finish_event op)
      (fun data => Continue match data with Some d => [IEmit "operation.finished" d] | None => [] end) s)
  | IClosedCheck op =>
    Some (quiet s (Continue (if bool_decide (cleanup_operation s = Some op) && ended (phase s) then [IClosedEvent] else [])))
  | IClosedEvent =>
    Some (pure_sect _session_closed_event
      (fun data => Continue match data with Some d => [IEmit "session.closed" d] | None => [] end) s)
  | IEvict => Some (update (_evict max_completed) (Continue []) s)
  | _ => None
  end.

(** [_output] and [_worker_event]. *)
Definition callbacks (i : instr) (s : session_t) : option effect :=
  match i with
  | IOutput op stage stream chunks =>
    match chunks with
    | [] => Some (quiet s (Continue []))
    | chunk :: rest =>
      Some (pure_sect (next_chunk op stream) (fun number =>
        match canonical_base64 chunk with
        | Ok b => Continue [IEmit (stage ++ str ".output") (output_data op stream number b); IOutput op stage stream rest]
        | Err e => Raise e
        end) s)
    end
  | IWorkerEvent name data =>
    Some (quiet s (Continue match worker_data name data s with Some d => [IWorkerPhase name d] | None => [] end))
  | IWorkerPhase name data =>
    Some (pure_sect (worker_phase name) (fun exited =>
      Continue (IEmit name (JObj data) :: (if exited : bool then [ICleanup "worker-failure"] else []))) s)
  | _ => None
  end.

(** Endings, cleanup on behalf of the controller, and callbacks. *)
Definition exec_common (srv : bool) (sid : pystr) (i : instr) (s : session_t) : option effect :=
  match i with
  | IEmit name data => Some (with_event (Some (name, data)) (quiet s (Continue [])))
  | ICleanup reason =>
    Some (_cleanup_operation sid reason None false
      (fun r => match r with Ok _ => Continue [] | Err e => if srv then Raise e else Continue [] end) s)
  | IFinishEvent _ | IClosedCheck _ | IClosedEvent | IEvict => after_operation i s
  | IOutput _ _ _ _ | IWorkerEvent _ _ | IWorkerPhase _ _ => callbacks i s
  | _ => None
  end.

Inductive family : Type := Controller | Request | Work | Host | Common.
#[export] Instance family_eq_dec : EqDecision family.
Proof. solve_decision. Defined.

Definition family_of (i : instr) : family :=
  match i with
  | IHello _ _ | IOpen _ | IOpenCall _ _ _ _ | IOpenCommit _ _ _ _ | IOpenCheck | IReply _ | IRaise _ | IExpire | IDeadline => Controller
  | ISettle _ _ | IAuthoringWork _ _ _ | IAuthoringEnd _ _ | IPrepareWork _ | IPrepareCommit _ _ _ | ICleanupWork _ _ _
  | ICleanupJoined _ _ | ICleanupRelease _ _ _ _ | ICleanupSession _ _ _ | ICleanupCommit _ _ _ _ | ICleanupAbort _ _ => Work
  | IJoinHost | ICancelHost _ | ITerminalHost _ | IHostEvent | IHostBegin | IHostRun | IHostDone | IHostCheck | IHostExecute
  | IHostExecuteCall _ _ _ | IHostExecuteEnd _ | ISubmit | ISubmitCall | ISubmitCommit _ | ISubmitFailed _ => Host
  | IFinishEvent _ | IClosedCheck _ | IClosedEvent | IEvict | IEmit _ _ | ICleanup _ | IOutput _ _ _ _ | IWorkerEvent _ _
  | IWorkerPhase _ _ => Common
  | _ => Request
  end.

(** A step inside one session. *)
Definition exec_session (srv is_closed : bool) (token sid : pystr) (i : instr) (a : answer) (s : session_t) : option effect :=
  match family_of i with
  | Controller => None
  | Request => exec_request is_closed token sid i a s
  | Work => exec_work token sid i a s
  | Host => exec_host sid i a s
  | Common => exec_common srv sid i s
  end.

(** The steps that need no session. *)
Definition exec_controller (sid : pystr) (i : instr) (a : answer) (c : ctl) : option (ctl * next) :=
  match i with
  | IHello id args =>
    match a with ACapabilities r h => Some (_hello_request id args r h c) | ARaise e => Some (c, Raise e) | _ => None end
  | IOpen args => Some (open_begin args c)
  | IOpenCall args manifest raw id =>
    match a with AOpened => Some (c, Continue [IOpenCommit args manifest raw id]) | ARaise e => Some (c, Raise e) | _ => None end
  | IOpenCommit args manifest raw id => Some (open_commit args manifest raw id c)
  | IOpenCheck =>
    Some (c, Continue ((if bool_decide (sid ∈ expired c) then [ICleanup "deadline"] else [])
                       ++ [IReply (obj [("sessionId", JStr sid)]%string)]))
  | IReply v => Some (c, Reply v)
  | IRaise e => Some (c, Raise e)
  | IExpire => Some (set_expired (sid :: expired c) c, Continue [])
  | IDeadline => Some (c, Continue (if bool_decide (is_Some (aget sid (sessions c))) then [ICleanup "deadline"] else []))
  | _ => None
  end.

(** ** One step of a thread *)
Definition apply_state (srv : bool) (sid : pystr) (f : effect) (c : ctl) : ctl :=
  let c := set_sessions (aset sid (f_session f) (sessions c)) c in
  let c := if f_token f then set_tokens (S (tokens c)) c else c in
  let c := set_log (log c ++ f_log f) c in
  let c := fold_left (fun c t => start_thread srv t c) (f_spawn f) c in
  set_pending_starts (pending_starts c ++ f_deferred f) c.

Definition apply (srv : bool) (sid : pystr) (f : effect) (c : ctl) : ctl :=
  let c := apply_state srv sid f c in
  match f_event f with Some (name, data) => _event sid name data c | None => c end.

(** [_session] refuses an unknown handle. *)
Definition exec (srv : bool) (sid : pystr) (i : instr) (a : answer) (c : ctl) : option (ctl * next) :=
  match family_of i with
  | Controller => exec_controller sid i a c
  | _ =>
    match aget sid (sessions c) with
    | None => Some (c, Raise (_fail "HANDLE_INVALID" "policy"))
    | Some s =>
      match exec_session srv (closed c) (token_hex (tokens c)) sid i a s with
      | Some f => Some (apply srv sid f c, f_next f)
      | None => None
      end
    end
  end.

(** ** Requests *)

(** [getattr(self, "_op_" + ...)]: the sections of each handler. *)
Definition handler (id : Z) (op : pystr) (args : json) : list instr :=
  if bool_decide (op = "hello") then [IHello id args]
  else if bool_decide (op = "session.open") then [IOpen args]
  else if bool_decide (op = "authoring.exec") then [IAuthoringGuard; IAuthoringStart args]
  else if bool_decide (op = "session.prepare") then [IPrepareBegin; IPrepareStart]
  else if bool_decide (op = "session.authorize") then [IAuthorizeCheck args; IAuthorizeCall args]
  else if bool_decide (op = "worker.acquire") then [IAcquireBegin args]
  else if bool_decide (op = "worker.release") then [IReleaseBegin args]
  else if bool_decide (op = "session.cancel") then [ICleanupReply (str_arg args "reason") None false]
  else if bool_decide (op = "session.close") then [ICloseSummary args]
  else if bool_decide (op = "session.status") then [IStatus]
  else if bool_decide (op = "operation.status") then [IOpStatus args]
  else if bool_decide (op = "agent.start") then [IAgentGuard; IAgentAdmit args]
  else if bool_decide (op = "agent.status") then [IAgentStatus args]
  else if bool_decide (op = "agent.cancel") then [IAgentCancel args]
  else [IRaise KeyError].

(** [self.validate_request]: the codec of the negotiated version. *)
Definition validate (c : ctl) (message : json) : res json :=
  if (control_version c =? 2)%Z then v2.validate_request rec_limit message else v1.validate_request rec_limit message.

(** [dispatch], up to the handler. *)
Definition dispatch (request : json) (c : ctl) : ctl * server_t :=
  match (validate c request ;; i ← getitem request "id"; o ← getitem request "op"; args ← getitem request "args";
         match i, o with JInt id, JStr op => Ok (id, op, args) | _, _ => Err TypeError end) with
  | Err e => (c, Broken)
  | Ok (id, op, args) =>
    if closed c then (logs (Response (_error c id "CANCELLED" "cleanup" "connection is closing")) c, Responded (bool_decide (op = "hello")))
    else if (id <=? last_request_id c)%Z then (c, Broken)
    else
      let c := set_last_request_id id c in
      if negb (hello c) && negb ((id =? 1)%Z && bool_decide (op = "hello")) then (c, Broken)
      else if hello c && bool_decide (op = "hello") then (c, Broken)
      else (set_dispatching true c, Busy id op (str_arg args "sessionId") (handler id op args))
  end.

(** [reject_arguments], for an envelope whose arguments were refused. *)
Definition reject_arguments (raw : json) (e : exn) (c : ctl) : ctl * server_t :=
  match raw, e with
  | JObj d, ControlError code stage _ =>
    match dget "id" d with
    | Some (JInt id) =>
      if (id <? 1)%Z || (id <=? last_request_id c)%Z then (c, Broken)
      else if negb (hello c) && negb ((id =? 1)%Z && opt_str_is (dget "op" d) "hello") then (c, Broken)
      else let c := set_last_request_id id c in
           (logs (Response (_error c id code stage (text e))) c, Responded (opt_str_is (dget "op" d) "hello"))
    | _ => (c, Broken)
    end
  | _, _ => (c, Broken)
  end.

(** One turn of the loop of [serve_stream]. *)
Definition receive (data : bytes) (c : ctl) : ctl :=
  match parse_control_frame rec_limit MAX_FRAME_BYTES data with
  | Err _ => set_server Broken c
  | Ok raw =>
    let '(c', next) := match validate c raw with
                       | Ok request => dispatch request c
                       | Err e => if fatal e then (c, Broken) else reject_arguments raw e c
                       end in
    set_server next c'
  end.

(** ** Schedules *)
Inductive callback : Type := CDeadline | CWorker (name : pystr) (data : pydict) | CExecute | CSubmit.

Definition callback_thread (sid : pystr) (b : callback) : thread :=
  match b with
  | CDeadline => Thread sid CallbackThread [IExpire; IDeadline]
  | CWorker name data => Thread sid CallbackThread [IWorkerEvent name data]
  | CExecute => Thread sid BrokerThread [IHostExecute]
  | CSubmit => Thread sid BrokerThread [ISubmit]
  end.

(** Who runs next: the server thread with a frame, a section, or the response
    queued; the end of the connection; a section of a thread; a callback; the
    broker asking whether a worker may be launched. *)
Inductive choice : Type :=
  | Frame (data : bytes)
  | Serve (a : answer)
  | Queued
  | Hangup
  | Schedule (n : nat) (a : answer)
  | Callback (sid : pystr) (b : callback)
  | Launch (sid o w : pystr) (a : Z).

(** The server after a section of a request: the rest of the request, the
    response, or the end of the connection. *)
Definition serve_next (id : Z) (op sid : pystr) (rest : list instr) (n : next) (c : ctl) : ctl :=
  match n with
  | Continue more => set_server (Busy id op sid (more ++ rest)) c
  | Enter new more => set_server (Busy id op new (more ++ rest)) c
  | Reply v => set_server (Responded false) (logs (Response (_success c id v)) c)
  | Send m => set_server (Responded false) (logs (Response m) c)
  | Raise e =>
    if fatal e then set_server Broken c
    else set_server (Responded (bool_decide (op = "hello"))) (logs (Response (dispatch_failure c id op e)) c)
  end.

Definition serve (a : answer) (c : ctl) : option ctl :=
  match server c with
  | Busy id op sid (i :: rest) =>
    match exec true sid i a c with Some (c', n) => Some (serve_next id op sid rest n c') | None => None end
  | Ending (sid :: rest) =>
    match exec true sid (ICleanup "client-failure") ANone c with
    | Some (c', Continue _) => Some (set_server (Ending rest) c')
    | Some (c', _) => Some (set_server Gone c')
    | None => None
    end
  | Ending [] => Some (set_server Gone (after_response c))
  | _ => None
  end.

(** [close] begins. *)
Definition hangup (c : ctl) : option ctl :=
  match server c with
  | Idle | Responded _ | Broken => Some (set_server (Ending ((sessions c).*1)) (set_closed true c))
  | _ => None
  end.

(** What the thread that made a step still has to do, and what the agent's
    tools are told. *)
Definition thread_next (r : role) (n : next) (rest : list instr) : list instr :=
  match n with Continue more | Enter _ more => more ++ rest | Reply _ | Send _ => [] | Raise e => on_raise r e end.
Definition thread_reply (sid : pystr) (r : role) (n : next) : list entry :=
  match n, r with
  | (Reply v | Send v), _ => [ToolReply sid (Ok v)]
  | Raise e, BrokerThread => [ToolReply sid (Err e)]
  | _, _ => []
  end.

Definition run_thread (n : nat) (a : answer) (c : ctl) : option ctl :=
  match threads c !! n with
  | Some (Thread sid r (i :: rest)) =>
    match exec false sid i a c with
    | Some (c', x) => Some (set_threads (<[n := Thread sid r (thread_next r x rest)]> (threads c'))
                              (set_log (log c' ++ thread_reply sid r x) c'))
    | None => None
    end
  | _ => None
  end.

Definition launch (sid o w : pystr) (a : Z) (c : ctl) : option ctl :=
  match aget sid (sessions c) with
  | None => None
  | Some s =>
    let '(s', allowed) := _launch_guard o w a s in
    Some (set_log (log c ++ if allowed then [Launched sid w] else []) (set_sessions (aset sid s' (sessions c)) c))
  end.

(** The broker's callbacks exist while the runtime runs. *)
Definition hosting (sid : pystr) (c : ctl) : bool :=
  existsb (fun t => bool_decide (t_session t = sid)
                    && match t_role t, t_prog t with HostThread, IHostRun :: _ => true | _, _ => false end) (threads c).

Definition callback_allowed (sid : pystr) (b : callback) (c : ctl) : bool :=
  match b with CExecute | CSubmit => hosting sid c | CDeadline | CWorker _ _ => true end.

Definition step (x : choice) (c : ctl) : option ctl :=
  match x with
  | Frame data => match server c with Idle => Some (receive data c) | _ => None end
  | Serve a => serve a c
  | Queued => match server c with
              | Responded stop => Some (set_server (if stop then Broken else Idle) (after_response c))
              | _ => None
              end
  | Hangup => hangup c
  | Schedule n a => run_thread n a c
  | Callback sid b => if callback_allowed sid b c then Some (set_threads (threads c ++ [callback_thread sid b]) c) else None
  | Launch sid o w a => launch sid o w a c
  end.

(** A choice that cannot run changes nothing. *)
Fixpoint run (schedule : list choice) (c : ctl) : ctl :=
  match schedule with [] => c | x :: rest => run rest (default c (step x c)) end.
End Controller.
End controller.
