(* ===== verification/Demo.v ===== *)
(** * Concrete histories of the orchestration controller

    A connection that opens a prebuilt submission, prepares and authorizes it,
    acquires a worker, launches it and closes; and one that hosts a managed
    run.  The theorems about reachable controllers are applied to them. *)

From Stdlib Require Import ZArith Lia.
From stdpp Require Import base list gmap strings numbers.
From S2P Require Import Prelude PyJson JsonText Protocol ControlProtocol ControlProtocolV2 Canonical Effects Session Orchestration.

Module demo.
Import v1 v2 session controller.

(** Tokens of 32 characters as long as they last. *)
Definition tok (n : nat) : pystr := if decide (n < 32) then repeat 97%N (31 - n) ++ repeat 98%N (S n) else repeat 97%N (S n).

#[global] Instance tok_inj : Inj (=) (=) tok.
Proof.
  assert (forall n, length (tok n) = Nat.max 32 (S n)) as Hl
    by (intros n; unfold tok; destruct (decide _); rewrite ?length_app, !repeat_length; lia).
  assert (NoDup (tok <$> List.seq 0 32)) as Hd by (apply (bool_decide_unpack _); vm_compute; exact I).
  assert (forall n, n < 32 -> (tok <$> List.seq 0 32) !! n = Some (tok n)) as Hs.
  { intros n Hn. by rewrite list_lookup_fmap, lookup_seq_lt. }
  intros m n E. destruct (decide (m < 32)) as [Hm|Hm], (decide (n < 32)) as [Hn|Hn].
  - eapply NoDup_lookup; [exact Hd|by apply Hs|]. rewrite E. by apply Hs.
  - apply (f_equal length) in E. rewrite !Hl in E. lia.
  - apply (f_equal length) in E. rewrite !Hl in E. lia.
  - apply (f_equal length) in E. rewrite !Hl in E. lia.
Qed.

Definition frame (j : json) : bytes := match encode_control_frame MAX_FRAME_BYTES j with Ok b => b | Err _ => [] end.
Definition request (v id : Z) (op : string) (args : json) : bytes :=
  frame (obj [("v", JInt v); ("kind", JStr "request"); ("id", JInt id); ("op", JStr (str op)); ("args", args)]%string).

Definition manifest_text : pystr :=
  dumps false (obj [("schema", JStr "mirrorgate.port/v1"); ("interfaceDigest", JStr (repeat 97%N 64));
                    ("initializers", JArr [obj [("id", JStr "i"); ("inputs", JArr [])]]); ("actions", JArr []);
                    ("observations", JArr [obj [("id", JStr "o"); ("type", obj [("kind", JStr "int")])]])]%string).

Definition message (e : exn) : pystr := str "failed".
Definition play : list choice -> ctl -> ctl := run 100 128 tok message (fun b => b) (str "instance").
Definition move : choice -> ctl -> option ctl := step 100 128 tok message (fun b => b) (str "instance").

Definition hello_request : bytes :=
  request 1 1 "hello" (obj [("controlVersions", JArr [JInt 1; JInt 2]); ("requiredCapabilities", JArr [])]%string).
Definition prebuilt : json :=
  obj [("kind", JStr "prebuilt"); ("input", obj [("rootId", JStr "r"); ("relativePath", JStr ".")])]%string.
Definition source : json :=
  obj [("kind", JStr "source"); ("input", obj [("rootId", JStr "r"); ("relativePath", JStr ".")]); ("authoring", JBool true)]%string.
Definition open_request (submission : json) : bytes :=
  request 2 2 "session.open" (obj [("policyId", JStr "p"); ("submission", submission); ("runtime", JStr "node-v1");
                                   ("manifestJson", JStr manifest_text)]%string).

(** The session the first request opens. *)
Definition sid : pystr := tok 0.
Definition in_session (more : list (string * json)) : json := obj (("sessionId"%string, JStr sid) :: more).

Definition opening (submission : json) : list choice :=
  [Frame hello_request; Serve (ACapabilities [] None); Queued;
   Frame (open_request submission); Serve ANone; Serve AOpened; Serve ANone; Serve ANone; Serve ANone; Queued].

Definition prepared : prepared_backend := PreparedBackend (repeat 97%N 32) (repeat 97%N 64) None (str "node-v1") (str "p").
Definition preparing : list choice :=
  [Frame (request 2 3 "session.prepare" (in_session [])); Serve ANone; Serve ANone; Queued; Schedule 0 (APrepared prepared); Schedule 0 ANone].
Definition settling : list choice := [Schedule 0 ANone].
Definition announcing : list choice := replicate 4 (Schedule 0 ANone).

Definition attestation : json :=
  obj [("registrationId", JStr "g"); ("request", JStr "verify"); ("policy", JStr "require"); ("status", JStr "matched");
       ("descriptorSchema", JStr "mirrors.model-interface-descriptor/v1"); ("semanticDigest", JStr (repeat 97%N 64));
       ("adapterId", JStr "a"); ("targetProfile", JStr "t"); ("stateComputerContractVersion", JStr "1")]%string.
Definition authorizing : list choice :=
  [Frame (request 2 4 "session.authorize" (in_session [("preparedRevision"%string, JInt 1); ("challenge"%string, JStr (tok 1));
                                                       ("attestation"%string, attestation)]));
   Serve ANone; Serve (AAdmission 7); Serve ANone; Queued].
(** The worker: acquired with the authorization, launched by the broker, ready. *)
Definition acquiring : list choice :=
  [Frame (request 2 5 "worker.acquire" (in_session [("authorizationId"%string, JStr (tok 2))]));
   Serve ANone; Serve (AReserved (str "/run/s") (tok 9) 5000); Serve ANone; Queued].
Definition launching : list choice :=
  [Launch sid sid (tok 3) 7; Callback sid (CWorker "worker.ready" []); Schedule 1 ANone; Schedule 1 ANone; Schedule 1 ANone].
(** The session is closed by the client, its cleanup thread runs to its end. *)
Definition closing : list choice :=
  [Frame (request 2 6 "session.close" (in_session [])); Serve ANone; Serve ANone; Serve ANone; Queued;
   Schedule 2 ANone; Schedule 2 ANone; Schedule 2 (ACleaned true [] []); Schedule 2 ANone].
Definition closed_out : list choice := replicate 6 (Schedule 2 ANone).
End demo.
