(* ===== verification/Lifecycle.v ===== *)
(** * The life of a session ([supervisor/mirrorgate/orchestration.py])

    What the schedules of [Orchestration.v] can do to one session.  The first
    part projects the controller to a session: its state, the rest of the
    request that runs in it, its threads, its events and its calls.  Every step
    of the controller is, for each session, nothing or one step of a small
    transition system ([lstep]).  The invariants are proved on that system and
    hold of every reachable controller. *)

From Stdlib Require Import ZArith Lia.
From stdpp Require Import base list gmap strings numbers.
From S2P Require Import Prelude PyJson JsonText Protocol ControlProtocol ControlProtocolV2 Canonical Effects Session Orchestration.

Module lifecycle.
Import v1 v2 session controller.

(** ** One session of a controller *)
Record local : Type := Local {
  l_state : session_t; l_server : list instr; l_threads : list (role * list instr); l_events : list event; l_entries : list entry }.

Definition code (t : thread) : role * list instr := (t_role t, t_prog t).
Definition all_threads (c : ctl) : list thread := threads c ++ pending_starts c.
Definition threads_of (sid : pystr) (c : ctl) : list (role * list instr) := code <$> filter (fun t => t_session t = sid) (all_threads c).

Definition emitted (e : entry) : option event := match e with Emitted x => Some x | _ => None end.
(** The events so far: those sent and those waiting for a response. *)
Definition all_events (c : ctl) : list event := omap emitted (log c) ++ pending_events c.
Definition events_of (sid : pystr) (c : ctl) : list event := filter (fun e => ev_session e = sid) (all_events c).

Definition entry_session (e : entry) : option pystr :=
  match e with AuthorizeCalled sid _ _ | AuthorizeGranted sid _ _ _ | ReserveCalled sid _ | Launched sid _ => Some sid | _ => None end.
Definition entries_of (sid : pystr) (c : ctl) : list entry := filter (fun e => entry_session e = Some sid) (log c).

Definition server_of (sid : pystr) (c : ctl) : list instr :=
  match server c with Busy _ _ sid' prog => if decide (sid' = sid) then prog else [] | _ => [] end.

Definition project (sid : pystr) (c : ctl) (s : session_t) : local :=
  Local s (server_of sid c) (threads_of sid c) (events_of sid c) (entries_of sid c).

(** ** Proof steps *)

(** The cases of a section: which instruction, and what the schedule answered. *)
Ltac open_section H :=
  match type of H with controller.exec_session _ _ _ _ _ _ ?i ?a _ = Some _ => destruct i end;
  cbn [controller.exec_session family_of exec_request exec_work exec_host exec_common request_authoring request_prepare request_authorize
    request_acquire request_release request_status request_agent work_settle work_authoring work_prepare work_cleanup host_join host_ends host_runs
    host_tool host_submits after_operation callbacks] in H; try discriminate H;
  repeat match type of H with context [match ?x with _ => _ end] => is_var x; destruct x; try discriminate H end;
  try (apply (inj Some) in H as <-).

(** What an effect is made of. *)
Ltac open_effect :=
  unfold _cleanup_operation, sect, pure_sect, update, quiet, with_spawn, with_deferred, with_event, with_log, with_token in *;
  cbn in *; repeat (case_match; cbn in *; simplify_eq).

(** The steps of a session, by cases. *)
Ltac lstep_cases H := destruct H as
  [s prog ths ev en (? & ? & ? & ->)|s prog ths ev en|cl tok i rest a f s ths ths' ev new en Hf Hem Hp|i rest more s ths ev en Hc
  |cl tok f s ths ths' ev new en Hf Hem Hp|cl tok r i rest a f s srv ths ths1 ths' ev new en Hp1 Hf Hem Hp2
  |r i rest more s srv ths ths1 ths' ev en Hp1 Hc Hp2|r v rest s srv ths ths1 ths' ev en Hp1 Hp2|b s srv ths ths' ev en Hb Hp
  |owner0 w a s srv ths ev en|s srv ths ths' ev en Hp].

(** The monad of the locked sections. *)
Ltac open_monad :=
  unfold ebind, eget, emodify, eret, elift, eguard, eraise, raise_if, from_option_res, reading, rbind in *; cbn in *.
Ltac run_monad := open_monad; repeat (case_match; simplify_eq; open_monad).

Section Life.
Context (rec_limit : nat) (max_completed : Z) (token_hex : nat -> pystr) (text : exn -> pystr) (decode_replace : bytes -> pystr).
Context (instance_id : pystr) `{!Inj (=) (=) token_hex}.

#[local] Abbreviation exec_session := (exec_session max_completed decode_replace).
#[local] Abbreviation on_raise := (on_raise text).
#[local] Abbreviation thread_next := (thread_next text).
#[local] Abbreviation exec := (exec rec_limit max_completed token_hex decode_replace instance_id).
#[local] Abbreviation step := (step rec_limit max_completed token_hex text decode_replace instance_id).

(** What the server still has to do after a section. *)
Definition server_next (n : next) (rest : list instr) : list instr :=
  match n with Continue more => more ++ rest | _ => [] end.

(** The event of an effect, unless the connection is closed. *)
Definition emits (sid : pystr) (f : effect) (new : list event) : Prop :=
  new = [] \/ exists name data v n, f_event f = Some (name, data) /\ new = [Event v n sid name data].

Definition started (f : effect) : list (role * list instr) := code <$> (f_spawn f ++ f_deferred f).

(** The steps of a thread outside the session. *)
Definition controller_next (sid : pystr) (i : instr) (more : list instr) : Prop :=
  match i with
  | IOpenCheck => exists clean, more = (if clean : bool then [ICleanup "deadline"] else []) ++ [IReply (obj [("sessionId"%string, JStr sid)])]
  | IDeadline => more = [] \/ more = [ICleanup "deadline"]
  | IExpire => more = []
  | IOpen _ => exists args m raw id, more = [IOpenCall args m raw id]
  | IOpenCall args m raw id => more = [IOpenCommit args m raw id]
  | _ => False
  end.

Inductive lstep (sid : pystr) : local -> local -> Prop :=
  | l_request s prog ths ev en : (exists id op args, prog = handler id op args) -> lstep sid (Local s [] ths ev en) (Local s prog ths ev en)
  | l_leave s prog ths ev en : lstep sid (Local s prog ths ev en) (Local s [] ths ev en)
  | l_server_step cl tok i rest a f s ths ths' ev new en :
    exec_session true cl tok sid i a s = Some f -> emits sid f new -> ths' ≡ₚ started f ++ ths ->
    lstep sid (Local s (i :: rest) ths ev en) (Local (f_session f) (server_next (f_next f) rest) ths' (ev ++ new) (en ++ f_log f))
  | l_server_control i rest more s ths ev en :
    controller_next sid i more ->
    lstep sid (Local s (i :: rest) ths ev en) (Local s (more ++ rest) ths ev en)
  | l_end cl tok f s ths ths' ev new en :
    exec_session true cl tok sid (ICleanup "client-failure") ANone s = Some f -> emits sid f new -> ths' ≡ₚ started f ++ ths ->
    lstep sid (Local s [] ths ev en) (Local (f_session f) [] ths' (ev ++ new) (en ++ f_log f))
  | l_thread_step cl tok r i rest a f s srv ths ths1 ths' ev new en :
    ths ≡ₚ (r, i :: rest) :: ths1 -> exec_session false cl tok sid i a s = Some f -> emits sid f new ->
    ths' ≡ₚ (r, thread_next r (f_next f) rest) :: started f ++ ths1 ->
    lstep sid (Local s srv ths ev en) (Local (f_session f) srv ths' (ev ++ new) (en ++ f_log f))
  | l_thread_control r i rest more s srv ths ths1 ths' ev en :
    ths ≡ₚ (r, i :: rest) :: ths1 -> controller_next sid i more -> ths' ≡ₚ (r, more ++ rest) :: ths1 ->
    lstep sid (Local s srv ths ev en) (Local s srv ths' ev en)
  | l_thread_reply r v rest s srv ths ths1 ths' ev en :
    ths ≡ₚ (r, IReply v :: rest) :: ths1 -> ths' ≡ₚ (r, []) :: ths1 ->
    lstep sid (Local s srv ths ev en) (Local s srv ths' ev en)
  | l_callback b s srv ths ths' ev en :
    (match b with CExecute | CSubmit => exists rest, (HostThread, IHostRun :: rest) ∈ ths | _ => True end) ->
    ths' ≡ₚ code (callback_thread sid b) :: ths ->
    lstep sid (Local s srv ths ev en) (Local s srv ths' ev en)
  | l_launch o w a s srv ths ev en :
    lstep sid (Local s srv ths ev en) (Local (_launch_guard o w a s).1 srv ths ev
                                         (en ++ if (_launch_guard o w a s).2 then [Launched sid w] else []))
  | l_same s srv ths ths' ev en : ths' ≡ₚ ths -> lstep sid (Local s srv ths ev en) (Local s srv ths' ev en).

(** ** The projection of a step *)

(** The sections a thread may hold; the others belong to the server. *)
Definition thread_instr (i : instr) : bool :=
  match family_of i with
  | Work | Host | Common => true
  | Request => false
  | Controller => match i with IReply _ | IExpire | IDeadline => true | _ => false end
  end.

(** The operation a section works for. *)
Definition work_op (i : instr) : option Z :=
  match i with
  | ISettle op _ | IAuthoringWork op _ _ | IAuthoringEnd op _ | IPrepareWork op | IPrepareCommit op _ _ | ICleanupWork op _ _
  | ICleanupJoined op _ | ICleanupRelease op _ _ _ | ICleanupSession op _ _ | ICleanupCommit op _ _ _ | ICleanupAbort op _ => Some op
  | _ => None
  end.

(** The sections each kind of thread may hold. *)
Definition fits (r : role) (i : instr) : bool :=
  match r with
  | OpThread op _ =>
    match work_op i with
    | Some op' => bool_decide (op' = op)
    | None => match i with
              | IJoinHost | ICancelHost _ | ITerminalHost _ | IHostEvent | IClosedCheck _ | IClosedEvent | IEvict
              | ICleanup _ => true
              | IFinishEvent op' => bool_decide (op' = op)
              | IEmit name _ => bool_decide (name ∈ strs ["operation.finished"; "session.closed"])
              | _ => false
              end
    end
  | HostThread =>
    match i with IHostBegin | IHostRun | IHostDone | IHostCheck | ITerminalHost _ | IHostEvent | ICleanup _ => true | _ => false end
  | BrokerThread =>
    match i with
    | IHostExecute | IHostExecuteCall _ _ _ | IHostExecuteEnd _ | ISubmit | ISubmitCall | ISubmitCommit _ | ISubmitFailed _
    | IHostEvent | IReply _ => true
    | _ => false
    end
  | CallbackThread =>
    match i with
    | IExpire | IDeadline | IWorkerEvent _ _ | ICleanup _ => true
    | IWorkerPhase name _ => bool_decide (is_Some (worker_fields name))
    | IOutput _ stage _ _ => bool_decide (stage ∈ strs ["authoring"; "build"])
    | IEmit name _ => bool_decide (is_Some (worker_fields name)) || bool_decide (name ∈ strs ["authoring.output"; "build.output"])
    | _ => false
    end
  end.

Lemma fits_thread r i : fits r i = true -> thread_instr i = true.
Proof. destruct r, i; done. Qed.

Definition next_instrs (n : next) : list instr := match n with Continue more | Enter _ more => more | _ => [] end.

(** The session a request is about to open. *)
Definition open_id (i : instr) : option pystr :=
  match i with IOpenCall _ _ _ id | IOpenCommit _ _ _ id => Some id | _ => None end.

(** The request that opens a session has nothing else to do. *)
Definition opening (i : instr) : bool :=
  match i with IOpen _ | IOpenCall _ _ _ _ | IOpenCommit _ _ _ _ => true | _ => false end.
Definition single (prog : list instr) : Prop := forallb (fun i => negb (opening i)) prog = true \/ exists i, prog = [i].

Lemma op_thread_fits sid op b work :
  forallb (fits (OpThread op b)) work = true ->
  Forall (fun t => t_session t = sid /\ forallb (fits (t_role t)) (t_prog t) = true) [op_thread sid op b work].
Proof.
  intros H. repeat constructor. unfold op_thread. cbn [t_role t_prog]. rewrite forallb_app, H. cbn. by rewrite bool_decide_eq_true_2.
Qed.

(** What a section leaves to do, and the threads it starts. *)
Lemma exec_session_instrs srv cl tok sid i a s f :
  exec_session srv cl tok sid i a s = Some f ->
  (forall r, fits r i = true -> forallb (fits r) (next_instrs (f_next f)) = true) /\
  forallb (fun i => negb (opening i)) (next_instrs (f_next f)) = true /\
  Forall (fun t => t_session t = sid /\ forallb (fits (t_role t)) (t_prog t) = true) (f_spawn f ++ f_deferred f) /\
  Forall (fun e => entry_session e = Some sid /\ emitted e = None) (f_log f) /\
  (forall id more, f_next f <> Enter id more) /\ (f_deferred f = [] \/ family_of i = Request).
Proof.
  intros H. open_section H.
  all: (split; [intros role0 Hi; destruct role0; try discriminate Hi; cbn in Hi; bool_hyps|split_and!]);
    open_effect; try done; try (by repeat constructor); try (by right); try (by left).
  all: try match goal with Hi : ?x = ?y |- _ => is_var x; subst end; try (rewrite bool_decide_eq_true_2 by done; done).
  all: try (apply op_thread_fits; cbn; by rewrite bool_decide_eq_true_2).
  - elem_literal Hi. destruct Hi as [->|[->|[]]]; reflexivity.
  - cbn. by rewrite bool_decide_eq_true_2.
  - apply andb_true_iff. split; [|done]. apply bool_decide_eq_true_2. unfold worker_data in *. destruct (worker_fields name); [done|discriminate].
Qed.



(** ** Applying an effect *)
Lemma start_threads srv l c :
  fold_left (fun c t => start_thread srv t c) l c =
  if srv && dispatching c then set_pending_starts (pending_starts c ++ l) c else set_threads (threads c ++ l) c.
Proof.
  revert c. induction l as [|t l IH]; intros c; cbn [fold_left].
  { destruct (srv && dispatching c), c; cbv -[app]; by rewrite app_nil_r. }
  rewrite IH. unfold start_thread. destruct (srv && dispatching c) eqn:E.
  - change (dispatching (set_pending_starts (pending_starts c ++ [t]) c)) with (dispatching c). rewrite E.
    cbv [set_pending_starts] in *; cbn. by rewrite <- app_assoc.
  - change (dispatching (set_threads (threads c ++ [t]) c)) with (dispatching c). rewrite E.
    cbv [set_threads] in *; cbn. by rewrite <- app_assoc.
Qed.

(** Nothing waits for a response when no request runs. *)
Definition flushed (c : ctl) : Prop := dispatching c = false -> pending_events c = [] /\ pending_starts c = [].

Lemma event_effect sid name data c :
  flushed c ->
  let c' := _event sid name data c in
  (exists new, all_events c' = all_events c ++ new /\
    (new = [] /\ seq c' = seq c \/ new = [Event (control_version c) (seq c + 1) sid name data] /\ seq c' = (seq c + 1)%Z)) /\
  sessions c' = sessions c /\ threads c' = threads c /\ pending_starts c' = pending_starts c /\ server c' = server c /\
  dispatching c' = dispatching c /\ closed c' = closed c /\ tokens c' = tokens c /\
  (forall sid', entries_of sid' c' = entries_of sid' c) /\ flushed c'.
Proof.
  intros Hf. unfold _event, all_events, entries_of, flushed in *. cbn zeta.
  destruct (closed c && _); [split_and!; try done; exists []; rewrite app_nil_r; eauto|].
  change (dispatching (set_seq (seq c + 1) c)) with (dispatching c). destruct (dispatching c) eqn:Ed; cbn in *; rewrite ?Ed.
  - split_and!; try done. eexists [_]. rewrite app_assoc. split; [done|by right].
  - destruct (Hf eq_refl) as [-> Hs]. split_and!; try done.
    + eexists [_]. rewrite !app_nil_r, omap_app. cbn. split; [done|]. by right.
    + intros sid'. rewrite list.filter_app. cbn. by rewrite app_nil_r.
Qed.

Lemma session_entries sid l :
  Forall (fun e => entry_session e = Some sid /\ emitted e = None) l ->
  omap emitted l = [] /\
  forall sid', filter (fun e => entry_session e = Some sid') l = if decide (sid' = sid) then l else [].
Proof.
  induction 1 as [|e l [H1 H2] _ [IH1 IH2]]; [split; [done|intros sid'; by destruct (decide _)]|]. cbn [omap list_omap]. rewrite H2.
  split; [done|]. intros sid'. rewrite filter_cons, H1, IH2. destruct (decide (sid' = sid)) as [->|]; [by rewrite decide_True|].
  rewrite decide_False; [done|congruence].
Qed.

Lemma deferred_perm {A} (a b c d : list A) : a ++ (b ++ c) ++ d ≡ₚ (c ++ d) ++ a ++ b.
Proof. replace (a ++ (b ++ c) ++ d) with ((a ++ b) ++ c ++ d) by (by rewrite <- !app_assoc). apply Permutation_app_comm. Qed.

Lemma started_perm {A} (a b c d : list A) : (a ++ c) ++ b ++ d ≡ₚ (c ++ d) ++ a ++ b.
Proof. rewrite <- (deferred_perm a b c d), <- !app_assoc. apply Permutation_app_head, Permutation_app_swap_app. Qed.

(** A list that belongs to one session. *)
Definition tagged {A} (sid sid' : pystr) (l : list A) : list A := if decide (sid' = sid) then l else [].

Lemma tagged_eq {A} sid (l : list A) : tagged sid sid l = l.
Proof. unfold tagged. by rewrite decide_True. Qed.

Lemma tagged_ne {A} sid sid' (l : list A) : sid' <> sid -> tagged sid sid' l = [].
Proof. intros. unfold tagged. by rewrite decide_False. Qed.

Lemma filter_tagged {A} (tag : A -> pystr) (l : list A) sid sid' :
  Forall (fun x => tag x = sid) l -> filter (fun x => tag x = sid') l = if decide (sid' = sid) then l else [].
Proof.
  induction 1 as [|x l Hx _ IH]; [by destruct (decide _)|]. rewrite filter_cons, Hx, IH.
  destruct (decide (sid' = sid)) as [->|]; [by rewrite decide_True|]. rewrite decide_False; [done|congruence].
Qed.

Section Apply.
Context (srv : bool) (sid : pystr) (f : effect) (c : ctl).
Context (Hlog : Forall (fun e => entry_session e = Some sid /\ emitted e = None) (f_log f)).
Context (Hflush : flushed c) (Hdefer : dispatching c = true \/ f_deferred f = []).

Lemma apply_state_effect :
  let c' := apply_state srv sid f c in
  sessions c' = aset sid (f_session f) (sessions c) /\ all_threads c' ≡ₚ (f_spawn f ++ f_deferred f) ++ all_threads c /\
  (exists extra, threads c' = threads c ++ extra) /\ server c' = server c /\ dispatching c' = dispatching c /\ closed c' = closed c /\
  tokens c <= tokens c' /\ seq c' = seq c /\ control_version c' = control_version c /\ all_events c' = all_events c /\
  (forall sid', entries_of sid' c' = entries_of sid' c ++ if decide (sid' = sid) then f_log f else []) /\ flushed c'.
Proof.
  destruct (session_entries sid (f_log f) Hlog) as [Ho Hen].
  cbn zeta. unfold apply_state. cbn zeta. rewrite start_threads. unfold all_threads, all_events, entries_of, flushed in *.
  destruct (f_token f); cbn; destruct (srv && dispatching c) eqn:E; cbn; split_and!; try done; try lia;
    try (intros sid'; by rewrite list.filter_app, Hen); try apply deferred_perm; try apply started_perm;
    try (rewrite omap_app, Ho; by rewrite app_nil_r); try (by exists []; rewrite app_nil_r); try (by eexists);
    intros Hd; try (rewrite Hd, andb_false_r in E; discriminate E); destruct (Hflush Hd) as [? ->], Hdefer as [|Hx]; try congruence;
    by rewrite Hx.
Qed.

Lemma apply_effect :
  let c' := apply srv sid f c in
  (exists new, all_events c' = all_events c ++ new /\
    (new = [] /\ seq c' = seq c \/ exists name data, f_event f = Some (name, data) /\
       new = [Event (control_version c) (seq c + 1) sid name data] /\ seq c' = (seq c + 1)%Z)) /\
  sessions c' = aset sid (f_session f) (sessions c) /\ all_threads c' ≡ₚ (f_spawn f ++ f_deferred f) ++ all_threads c /\
  (exists extra, threads c' = threads c ++ extra) /\ server c' = server c /\ dispatching c' = dispatching c /\ closed c' = closed c /\
  tokens c <= tokens c' /\
  (forall sid', entries_of sid' c' = entries_of sid' c ++ if decide (sid' = sid) then f_log f else []) /\ flushed c'.
Proof.
  cbn zeta. destruct apply_state_effect as (E1 & E2 & E3 & E4 & E5 & E6 & E7 & E8 & E9 & E10 & E11 & E12).
  unfold apply. destruct (f_event f) as [[name data]|].
  - destruct (event_effect sid name data _ E12) as ((new & H1 & H2) & H3 & H4 & H5 & H6 & H7 & H8 & H9 & H10 & H11).
    unfold all_threads in *. rewrite H3, H4, H5, H6, H7, H8, H9. split_and!; try done.
    + exists new. rewrite H1, E10. split; [done|]. rewrite E8, E9 in H2. destruct H2 as [H2|H2]; [by left|right; eauto].
    + intros sid'. by rewrite H10.
  - split_and!; try done. exists []. rewrite app_nil_r. auto.
Qed.
End Apply.

(** The projections of an applied effect: the other sessions see nothing. *)
Lemma apply_projects srv sid f c :
  Forall (fun e => entry_session e = Some sid /\ emitted e = None) (f_log f) ->
  Forall (fun t => t_session t = sid /\ forallb (fits (t_role t)) (t_prog t) = true) (f_spawn f ++ f_deferred f) ->
  flushed c -> dispatching c = true \/ f_deferred f = [] ->
  exists new, emits sid f new /\ forall sid',
    threads_of sid' (apply srv sid f c) ≡ₚ tagged sid sid' (started f) ++ threads_of sid' c /\
    events_of sid' (apply srv sid f c) = events_of sid' c ++ tagged sid sid' new /\
    entries_of sid' (apply srv sid f c) = entries_of sid' c ++ tagged sid sid' (f_log f).
Proof.
  intros Hlog Hsp Hfl Hdef. destruct (apply_effect srv sid f c Hlog Hfl Hdef) as ((new & H1 & H2) & _ & H3 & _ & _ & _ & _ & _ & H4 & _).
  assert (emits sid f new /\ Forall (fun e => ev_session e = sid) new) as [Hem Hev].
  { destruct H2 as [[-> _]|(name & data & E & -> & _)]; (split; [|by repeat constructor]); [by left|right; by do 4 eexists]. }
  exists new. split; [done|]. intros sid'. split_and!; [| |done].
  - unfold threads_of, started. rewrite H3, list.filter_app, fmap_app. apply Permutation_app_tail.
    rewrite (filter_tagged t_session _ sid sid'); [unfold tagged; by destruct (decide _)|]. eapply list.Forall_impl; [exact Hsp|]. by intros t [? _].
  - unfold events_of. rewrite H1, list.filter_app. f_equal. by apply filter_tagged.
Qed.

(** A thread replaced in its place. *)
Lemma threads_of_middle c l1 t l2 sid' :
  threads c = l1 ++ t :: l2 ->
  threads_of sid' c ≡ₚ tagged (t_session t) sid' [code t] ++ (code <$> filter (fun t => t_session t = sid') (l1 ++ l2 ++ pending_starts c)).
Proof.
  intros E. unfold threads_of, all_threads, tagged. rewrite E, <- app_assoc, <- app_comm_cons, <- Permutation_middle, filter_cons.
  destruct (decide (t_session t = sid')) as [<-|]; [by rewrite decide_True|]. by rewrite decide_False by done.
Qed.

Lemma put_thread c n sid r prog prog' :
  threads c !! n = Some (Thread sid r prog) ->
  exists others, forall sid', threads_of sid' c ≡ₚ tagged sid sid' [(r, prog)] ++ others sid' /\
    threads_of sid' (set_threads (<[n := Thread sid r prog']> (threads c)) c) ≡ₚ tagged sid sid' [(r, prog')] ++ others sid'.
Proof.
  intros H. eexists (fun sid' => code <$> filter (fun t => t_session t = sid') (take n (threads c) ++ drop (S n) (threads c) ++ pending_starts c)).
  intros sid'. split.
  - apply (threads_of_middle c (take n (threads c)) (Thread sid r prog) (drop (S n) (threads c))). by rewrite take_drop_middle.
  - apply (threads_of_middle (set_threads _ c) (take n (threads c)) (Thread sid r prog') (drop (S n) (threads c))).
    cbn. by rewrite insert_take_drop by by eapply lookup_lt_Some.
Qed.

(** ** Invariants of the controller itself *)
Record sane (c : ctl) : Prop := Sane {
  g_flushed : flushed c;
  g_busy : match server c with Busy _ _ _ _ => dispatching c = true | _ => True end;
  g_threads : Forall (fun t => forallb (fits (t_role t)) (t_prog t) = true) (all_threads c);
  g_tokens : forall sid s, aget sid (sessions c) = Some s -> exists k, k < tokens c /\ sid = token_hex k;
  g_opening : forall id op sid prog new, server c = Busy id op sid prog -> new ∈ omap open_id prog ->
    aget new (sessions c) = None /\ exists k, k < tokens c /\ new = token_hex k;
  g_single : forall id op sid prog, server c = Busy id op sid prog -> single prog;
  g_unknown : forall sid, aget sid (sessions c) = None ->
    Forall (fun t => t.1 = CallbackThread) (threads_of sid c) /\ events_of sid c = [] /\ entries_of sid c = [] }.

Lemma sane_apply srv sid cl tok i a s f c :
  sane c -> aget sid (sessions c) = Some s -> exec_session srv cl tok sid i a s = Some f ->
  (family_of i = Request -> dispatching c = true) -> sane (apply srv sid f c).
Proof.
  intros [G1 G2 G3 G4 G5 GS G6] Hs Hf Hd. destruct (exec_session_instrs _ _ _ _ _ _ _ _ Hf) as (_ & _ & Hsp & Hlog & _ & Hdef).
  assert (dispatching c = true \/ f_deferred f = []) as Hdef' by tauto.
  destruct (apply_effect srv sid f c Hlog G1 Hdef') as (_ & E1 & E2 & _ & E3 & E4 & _ & E5 & _ & E6).
  destruct (apply_projects srv sid f c Hlog Hsp G1 Hdef') as (new & _ & Hpr).
  constructor.
  - done.
  - by rewrite E3, E4.
  - rewrite E2. apply Forall_app. split; [|done]. eapply list.Forall_impl; [exact Hsp|]. by intros t [_ ?].
  - intros sid' s'. rewrite E1, aget_aset. destruct (decide _) as [->|]; intros H.
    + destruct (G4 _ _ Hs) as (k & ? & ?). exists k. split; [lia|done].
    + destruct (G4 _ _ H) as (k & ? & ?). exists k. split; [lia|done].
  - intros id op sid' prog new' Hb Hin. rewrite E3 in Hb. destruct (G5 _ _ _ _ _ Hb Hin) as [H1 (k & ? & ?)].
    rewrite E1, aget_aset. rewrite decide_False by congruence. split; [done|]. exists k. split; [lia|done].
  - intros id op sid' prog Hb. rewrite E3 in Hb. by eapply GS.
  - intros sid' H. rewrite E1, aget_aset in H. destruct (decide (sid' = sid)) as [|Hne]; [done|].
    destruct (G6 _ H) as (H1 & H2 & H3), (Hpr sid') as (P1 & P2 & P3). 
    rewrite tagged_ne in P1 by done. rewrite tagged_ne in P2 by done. rewrite tagged_ne in P3 by done. rewrite app_nil_r in P2, P3.
    rewrite P1, P2, P3, H2, H3. done.
Qed.

Lemma sane_server c x :
  sane c -> match x with Busy _ _ _ prog => dispatching c = true /\ single prog /\ forall new, new ∈ omap open_id prog ->
    aget new (sessions c) = None /\ (exists k, k < tokens c /\ new = token_hex k) | _ => True end ->
  sane (set_server x c).
Proof.
  intros [G1 G2 G3 G4 G5 GS G6] Hx. constructor; try done.
  - destruct x; try done. by destruct Hx.
  - intros id op sid prog new Hb Hin. cbn in Hb. subst x. by apply Hx.
  - intros id op sid prog Hb. cbn in Hb. subst x. by apply Hx.
Qed.

Lemma sane_put c n sid r prog prog' :
  sane c -> threads c !! n = Some (Thread sid r prog) -> forallb (fits r) prog' = true ->
  sane (set_threads (<[n := Thread sid r prog']> (threads c)) c).
Proof.
  intros [G1 G2 G3 G4 G5 GS G6] Hn Hp. constructor; try done.
  - unfold all_threads in *. cbn. apply Forall_app in G3 as [? ?]. apply Forall_app. split; [|done]. by apply Forall_insert.
  - intros sid' H. cbn in H. destruct (G6 _ H) as (H1 & H2 & H3). split_and!; [|done|done].
    destruct (put_thread c n sid r prog prog' Hn) as (others & Ho). destruct (Ho sid') as [O1 O2].
    rewrite O2. rewrite O1 in H1. apply Forall_app in H1 as [H1 ?]. apply Forall_app. split; [|done].
    unfold tagged in *. destruct (decide _); [|done]. inversion H1; subst. by repeat constructor.
Qed.

Lemma sane_logs c e : sane c -> emitted e = None -> entry_session e = None -> sane (logs e c).
Proof.
  intros [G1 G2 G3 G4 G5 GS G6] H1 H2. constructor; try done.
  intros sid H. destruct (G6 sid H) as (U1 & U2 & U3). split_and!; [done|..].
  - unfold events_of, all_events in *. cbn. rewrite omap_app. cbn. rewrite H1. cbn. by rewrite app_nil_r.
  - unfold entries_of in *. cbn [logs log set_log]. rewrite list.filter_app, U3, filter_cons, decide_False; [done|congruence].
Qed.

Lemma project_logs sid c e s : emitted e = None -> entry_session e = None -> project sid (logs e c) s = project sid c s.
Proof.
  intros H1 H2. unfold project, events_of, all_events, entries_of, threads_of, server_of, all_threads.
  cbn [logs set_log log pending_events threads pending_starts server sessions]. rewrite omap_app, (list.filter_app _ (log c)), (filter_cons _ e).
  rewrite (decide_False (P := entry_session e = Some sid)) by congruence. cbn. rewrite H1. cbn. by rewrite !app_nil_r.
Qed.

(** ** Every step of the controller is a step of each session *)
Definition advances (c c' : ctl) : Prop := forall sid s, aget sid (sessions c) = Some s ->
  exists s', aget sid (sessions c') = Some s' /\ lstep sid (project sid c s) (project sid c' s').

(** What a projection reads besides the state. *)
Definition same_view (sid : pystr) (c c' : ctl) : Prop :=
  threads_of sid c' ≡ₚ threads_of sid c /\ events_of sid c' = events_of sid c /\ entries_of sid c' = entries_of sid c.

Lemma lstep_same sid c c' s : same_view sid c c' -> server_of sid c' = server_of sid c -> lstep sid (project sid c s) (project sid c' s).
Proof. intros (H1 & H2 & H3) H4. unfold project. rewrite H2, H3, H4. by apply l_same. Qed.

(** The server leaves a request, takes one up, or is busy elsewhere. *)
Lemma lstep_server sid c c' s :
  same_view sid c c' -> threads_of sid c' = threads_of sid c ->
  server_of sid c' = server_of sid c \/ server_of sid c' = [] \/ (server_of sid c = [] /\ exists id op args, server_of sid c' = handler id op args) ->
  lstep sid (project sid c s) (project sid c' s).
Proof.
  intros (H1 & H2 & H3) H4 H. unfold project. rewrite H2, H3, H4. destruct H as [->|[->|[-> H]]].
  - by apply l_same.
  - apply l_leave.
  - by apply l_request.
Qed.

Section ServerStep.
Context (c : ctl) (Hsane : sane c) (sid0 : pystr) (i : instr) (a : answer) (s0 : session_t) (f : effect).
Context (Hs0 : aget sid0 (sessions c) = Some s0).

(** A section of the server's request. *)
Lemma server_section id op rest c1 :
  server c = Busy id op sid0 (i :: rest) ->
  exec_session true (closed c) (token_hex (tokens c)) sid0 i a s0 = Some f ->
  sessions c1 = sessions (apply true sid0 f c) ->
  (forall sid, same_view sid (apply true sid0 f c) c1) ->
  server_of sid0 c1 = server_next (f_next f) rest -> (forall sid, sid <> sid0 -> server_of sid c1 = []) ->
  advances c c1.
Proof.
  intros Hb Hf Es Hv Hsv Hoth. pose proof Hsane as [G1 G2 _ _ _ _ _]. rewrite Hb in G2.
  destruct (exec_session_instrs _ _ _ _ _ _ _ _ Hf) as (_ & _ & Hsp & Hlog & _ & _).
  destruct (apply_effect true sid0 f c Hlog G1 (or_introl G2)) as (_ & E1 & _).
  destruct (apply_projects true sid0 f c Hlog Hsp G1 (or_introl G2)) as (new & Hem & Hpr).
  intros sid s Hs. rewrite Es, E1, aget_aset. destruct (decide (sid = sid0)) as [->|Hne].
  - rewrite Hs0 in Hs. injection Hs as <-. eexists. split; [done|]. destruct (Hv sid0) as (V1 & V2 & V3), (Hpr sid0) as (P1 & P2 & P3).
    rewrite tagged_eq in P1. rewrite tagged_eq in P2. rewrite tagged_eq in P3. unfold project. rewrite Hsv, V2, V3, P2, P3.
    assert (server_of sid0 c = i :: rest) as -> by (unfold server_of; rewrite Hb; by rewrite decide_True).
    eapply l_server_step; [exact Hf|exact Hem|]. by rewrite V1.
  - exists s. split; [done|]. destruct (Hv sid) as (V1 & V2 & V3), (Hpr sid) as (P1 & P2 & P3).
    rewrite tagged_ne in P1 by done. rewrite tagged_ne in P2 by done. rewrite tagged_ne in P3 by done. rewrite app_nil_r in P2, P3.
    apply lstep_same; [|rewrite Hoth by done; unfold server_of; rewrite Hb; by rewrite decide_False].
    split_and!; [by rewrite V1, P1|by rewrite V2, P2|by rewrite V3, P3].
Qed.

(** A cleanup the server starts while it ends the connection. *)
Lemma ending_section rest c1 :
  server c = Ending (sid0 :: rest) -> i = ICleanup "client-failure" -> a = ANone ->
  exec_session true (closed c) (token_hex (tokens c)) sid0 i a s0 = Some f ->
  sessions c1 = sessions (apply true sid0 f c) -> (forall sid, same_view sid (apply true sid0 f c) c1) ->
  (forall sid, server_of sid c1 = []) -> advances c c1.
Proof.
  intros Hb -> -> Hf Es Hv Hoth. pose proof Hsane as [G1 _ _ _ _ _ _].
  destruct (exec_session_instrs _ _ _ _ _ _ _ _ Hf) as (_ & _ & Hsp & Hlog & _ & [Hdef|]); [|done].
  destruct (apply_effect true sid0 f c Hlog G1 (or_intror Hdef)) as (_ & E1 & _).
  destruct (apply_projects true sid0 f c Hlog Hsp G1 (or_intror Hdef)) as (new & Hem & Hpr).
  assert (forall sid, server_of sid c = []) as Hc by (intros; unfold server_of; by rewrite Hb).
  intros sid s Hs. rewrite Es, E1, aget_aset. destruct (decide (sid = sid0)) as [->|Hne].
  - rewrite Hs0 in Hs. injection Hs as <-. eexists. split; [done|]. destruct (Hv sid0) as (V1 & V2 & V3), (Hpr sid0) as (P1 & P2 & P3).
    rewrite tagged_eq in P1. rewrite tagged_eq in P2. rewrite tagged_eq in P3. unfold project. rewrite Hoth, Hc, V2, V3, P2, P3.
    eapply l_end; [exact Hf|exact Hem|]. by rewrite V1.
  - exists s. split; [done|]. destruct (Hv sid) as (V1 & V2 & V3), (Hpr sid) as (P1 & P2 & P3).
    rewrite tagged_ne in P1 by done. rewrite tagged_ne in P2 by done. rewrite tagged_ne in P3 by done. rewrite app_nil_r in P2, P3.
    apply lstep_same; [|by rewrite Hoth, Hc]. split_and!; [by rewrite V1, P1|by rewrite V2, P2|by rewrite V3, P3].
Qed.

(** A section of a thread. *)
Lemma thread_section n r rest c1 :
  threads c !! n = Some (Thread sid0 r (i :: rest)) -> family_of i <> Request ->
  exec_session false (closed c) (token_hex (tokens c)) sid0 i a s0 = Some f ->
  let c' := apply false sid0 f c in
  sessions c1 = sessions c' -> server c1 = server c ->
  (forall sid, same_view sid (set_threads (<[n := Thread sid0 r (thread_next r (f_next f) rest)]> (threads c')) c') c1) ->
  advances c c1.
Proof.
  intros Hn Hfam Hf c' Es Hb Hv. pose proof Hsane as [G1 _ _ _ _ _ _].
  destruct (exec_session_instrs _ _ _ _ _ _ _ _ Hf) as (_ & _ & Hsp & Hlog & _ & [Hdef|]); [|done].
  destruct (apply_effect false sid0 f c Hlog G1 (or_intror Hdef)) as (_ & E1 & _ & [extra E2] & E3 & _).
  destruct (apply_projects false sid0 f c Hlog Hsp G1 (or_intror Hdef)) as (new & Hem & Hpr).
  assert (threads c' !! n = Some (Thread sid0 r (i :: rest))) as Hn'.
  { unfold c'. rewrite E2. rewrite lookup_app_l; [done|by eapply lookup_lt_Some]. }
  destruct (put_thread c n sid0 r _ [] Hn) as (oth & Ho). destruct (put_thread c' n sid0 r _ (thread_next r (f_next f) rest) Hn') as (oth' & Ho').
  intros sid s Hs. rewrite Es. unfold c' at 1. rewrite E1, aget_aset.
  destruct (Hv sid) as (V1 & V2 & V3), (Hpr sid) as (P1 & P2 & P3), (Ho sid) as [O1 _], (Ho' sid) as [O3 O4]. fold c' in P1, P2, P3.
  change (events_of sid (set_threads _ c')) with (events_of sid c') in V2. change (entries_of sid (set_threads _ c')) with (entries_of sid c') in V3.
  assert (server_of sid c1 = server_of sid c) as Hsv by (unfold server_of; by rewrite Hb).
  destruct (decide (sid = sid0)) as [->|Hne].
  - rewrite Hs0 in Hs. injection Hs as <-. eexists. split; [done|]. rewrite tagged_eq in P1. rewrite tagged_eq in P2. rewrite tagged_eq in P3.
    rewrite tagged_eq in O1, O3, O4. unfold project. rewrite Hsv, V2, V3, P2, P3.
    eapply l_thread_step; [exact O1|exact Hf|exact Hem|]. rewrite V1, O4. cbn [app]. apply perm_skip.
    apply (Permutation_cons_inv (a := (r, i :: rest))). change ((r, i :: rest) :: oth' sid0) with ([(r, i :: rest)] ++ oth' sid0).
    rewrite <- O3, P1, O1. cbn [app]. symmetry. apply Permutation_middle.
  - exists s. split; [done|]. rewrite tagged_ne in P1 by done. rewrite tagged_ne in P2 by done. rewrite tagged_ne in P3 by done.
    rewrite tagged_ne in O1, O3, O4 by done. rewrite app_nil_r in P2, P3. apply lstep_same; [|done].
    split_and!; [rewrite V1, O4, <- O3; by rewrite P1|by rewrite V2, P2|by rewrite V3, P3].
Qed.
End ServerStep.

(** A session that was just opened: callbacks may already know its handle. *)
Definition fresh_local (l : local) : Prop :=
  (exists i p, l_state l = new_session i p /\ p ∈ [session.Open; Authoring]) /\ l_server l = [IOpenCheck] /\
  Forall (fun t => t.1 = CallbackThread /\ forallb (fits t.1) t.2 = true) (l_threads l) /\ l_events l = [] /\ l_entries l = [].

Definition opens (c c' : ctl) : Prop := forall sid s', aget sid (sessions c) = None -> aget sid (sessions c') = Some s' ->
  fresh_local (project sid c' s').

Lemma opens_none c c' : sessions c' = sessions c -> opens c c'.
Proof. intros E sid s' H1 H2. rewrite E in H2. congruence. Qed.

Lemma opens_aset c c' sid s s1 : aget sid (sessions c) = Some s -> sessions c' = aset sid s1 (sessions c) -> opens c c'.
Proof. intros H E sid' s' H1 H2. rewrite E, aget_aset in H2. destruct (decide _); congruence. Qed.

Lemma same_view_refl sid c : same_view sid c c.
Proof. done. Qed.

(** A step that only moves the server. *)
Lemma server_moves c c' :
  sessions c' = sessions c -> (forall sid, same_view sid c c' /\ threads_of sid c' = threads_of sid c) ->
  (forall sid, server_of sid c' = server_of sid c \/ server_of sid c' = [] \/
     server_of sid c = [] /\ exists id op args, server_of sid c' = handler id op args) ->
  advances c c' /\ opens c c'.
Proof.
  intros E Hv Hs. split; [|by apply opens_none]. intros sid s H. exists s. rewrite E. split; [done|].
  destruct (Hv sid). by apply lstep_server.
Qed.

Lemma same_view_logs sid c e : emitted e = None -> entry_session e = None -> same_view sid c (logs e c).
Proof.
  intros H1 H2. pose proof (project_logs sid c e (new_session (Opened [] [] JNull JNull JNull JNull [] None) session.Open) H1 H2) as H.
  split_and!; [done|exact (f_equal l_events H)|exact (f_equal l_entries H)].
Qed.

Lemma handler_closed id op args : omap open_id (handler id op args) = [] /\ single (handler id op args).
Proof. unfold handler, single. repeat case_bool_decide; (split; [done|]); first [by left|right; by eexists]. Qed.

Lemma not_opening l : forallb (fun i => negb (opening i)) l = true -> omap open_id l = [].
Proof. induction l as [|[] l IH]; cbn; try done. Qed.

Lemma single_next i rest more :
  single (i :: rest) -> forallb (fun i => negb (opening i)) more = true \/ opening i = true /\ (exists x, more = [x]) -> single (more ++ rest).
Proof.
  unfold single. intros [H|[x [= -> ->]]] Hm.
  - cbn in H. apply andb_true_iff in H as [H1 H2]. destruct Hm as [Hm|[Hm _]]; [left; by rewrite forallb_app, Hm|by rewrite Hm in H1].
  - rewrite app_nil_r. by destruct Hm as [Hm|[_ Hm]]; [left|right].
Qed.

Definition plain_server (x : server_t) : Prop := match x with Busy _ _ _ _ => False | _ => True end.

Lemma receive_step data c :
  sane c -> server c = Idle ->
  let c' := receive rec_limit text data c in sane c' /\ advances c c' /\ opens c c'.
Proof.
  intros Hsane Hidle. cbn zeta. unfold receive.
  assert (forall sid, server_of sid c = []) as Hc by (intros; unfold server_of; by rewrite Hidle).
  assert (forall c1 x, sane c1 -> sessions c1 = sessions c -> (forall sid, same_view sid c c1 /\ threads_of sid c1 = threads_of sid c) ->
    (plain_server x \/ dispatching c1 = true /\ exists id op sid args, x = Busy id op sid (handler id op args)) ->
    sane (set_server x c1) /\ advances c (set_server x c1) /\ opens c (set_server x c1)) as Hmove.
  { intros c1 x Hs1 E Hv Hx. split.
    - apply sane_server; [done|]. destruct Hx as [Hx|(Hd & id & op & sid & args & ->)]; [by destruct x|].
      destruct (handler_closed id op args) as [Hc1 Hc2]. split_and!; [done|done|]. intros new Hin. rewrite Hc1 in Hin. by apply elem_of_nil in Hin.
    - apply server_moves; [done|done|]. intros sid. destruct Hx as [Hx|(Hd & id & op & sid1 & args & ->)].
      + right; left. unfold server_of. cbn. by destruct x.
      + unfold server_of at 1 3 5. cbn. destruct (decide _); [right; right; split; [done|by do 3 eexists]|right; by left]. }
  assert (forall e c1 b, sane c1 -> sessions c1 = sessions c -> (forall sid, same_view sid c c1 /\ threads_of sid c1 = threads_of sid c) ->
    let c2 := set_server (Responded b) (logs (Response e) c1) in sane c2 /\ advances c c2 /\ opens c c2) as Hresp.
  { intros e c1 b Hs1 E Hv. apply Hmove; [by apply sane_logs|done| |by left]. intros sid. destruct (Hv sid) as [V1 V2].
    split; [|done]. destruct (same_view_logs sid c1 (Response e) eq_refl eq_refl) as (W1 & W2 & W3), V1 as (V1 & V3 & V4).
    split_and!; [by rewrite W1|by rewrite W2|by rewrite W3]. }
  assert (sane c /\ sessions c = sessions c /\ (forall sid, same_view sid c c /\ threads_of sid c = threads_of sid c)) as (Z1 & Z2 & Z3) by done.
  destruct (parse_control_frame _ _ _) as [raw|e]; [|apply Hmove; try done; by left].
  destruct (validate _ c raw) as [request|e].
  - unfold dispatch. destruct (rbind _ _) as [[[id op] args]|e]; [|apply Hmove; try done; by left].
    destruct (closed c); [by apply Hresp|]. destruct (id <=? last_request_id c)%Z; [apply Hmove; try done; by left|].
    assert (sane (set_last_request_id id c)) as Hs1 by (destruct Hsane; by constructor).
    destruct (negb _ && _); [apply Hmove; try done; by left|]. destruct (hello _ && _); [apply Hmove; try done; by left|].
    apply Hmove; try done.
    + destruct Hs1. constructor; try done. cbn. by rewrite Hidle.
    + right. split; [done|]. by do 4 eexists.
  - destruct (fatal e); [apply Hmove; try done; by left|]. unfold reject_arguments.
    destruct raw as [| | | | | |d]; try (apply Hmove; try done; by left).
    destruct e; try (apply Hmove; try done; by left). destruct (dget "id" d) as [[]|]; try (apply Hmove; try done; by left).
    destruct (_ || _); [apply Hmove; try done; by left|]. destruct (negb _ && _); [apply Hmove; try done; by left|].
    apply Hresp; try done. destruct Hsane. by constructor.
Qed.

Lemma serve_next_view id op sid rest n c c' :
  c' = serve_next text id op sid rest n c ->
  sessions c' = sessions c /\ tokens c' = tokens c /\ (forall sid', same_view sid' c c' /\ threads_of sid' c' = threads_of sid' c) /\
  match n with
  | Continue more => c' = set_server (Busy id op sid (more ++ rest)) c
  | Enter new more => c' = set_server (Busy id op new (more ++ rest)) c
  | _ => plain_server (server c') /\ (sane c -> sane c')
  end.
Proof.
  assert (forall e b, let c' := set_server (Responded b) (logs (Response e) c) in
    sessions c' = sessions c /\ tokens c' = tokens c /\ (forall sid', same_view sid' c c' /\ threads_of sid' c' = threads_of sid' c) /\
    plain_server (server c') /\ (sane c -> sane c')) as Hr.
  { intros e b. split_and!; try done.
    - intros sid'. split; [|done]. apply (same_view_logs sid' c (Response e) eq_refl eq_refl).
    - intros H. apply sane_server; [by apply sane_logs|done]. }
  intros ->. destruct n; cbn [serve_next]; try done; try apply Hr. destruct (fatal e); [|apply Hr].
  split_and!; try done. intros H. by apply sane_server.
Qed.

Lemma plain_server_of sid c : plain_server (server c) -> server_of sid c = [].
Proof. unfold server_of. by destruct (server c). Qed.

(** A request section inside its session. *)
Lemma serve_section id op sid i rest a s f c :
  sane c -> server c = Busy id op sid (i :: rest) -> aget sid (sessions c) = Some s ->
  exec_session true (closed c) (token_hex (tokens c)) sid i a s = Some f ->
  let c' := serve_next text id op sid rest (f_next f) (apply true sid f c) in sane c' /\ advances c c' /\ opens c c'.
Proof.
  intros Hsane Hb Hs Hf c'. pose proof (sane_apply _ _ _ _ _ _ _ _ _ Hsane Hs Hf) as Ha.
  assert (dispatching c = true) as Hd by (destruct Hsane as [_ G2 _ _ _ _ _]; by rewrite Hb in G2). specialize (Ha (fun _ => Hd)).
  destruct (exec_session_instrs _ _ _ _ _ _ _ _ Hf) as (_ & Hopen & Hsp & Hlog & Hent & _).
  destruct (apply_effect true sid f c Hlog (g_flushed _ Hsane) (or_introl Hd)) as (_ & E1 & _ & _ & E3 & E4 & _ & E5 & _).
  destruct (serve_next_view id op sid rest (f_next f) (apply true sid f c) c' eq_refl) as (S1 & S2 & S3 & S4).
  split; [|split].
  - destruct (f_next f) as [more|new more|v|m|e]; try (by apply S4); [|by destruct (Hent new more)].
    rewrite S4. cbn in Hopen. apply sane_server; [done|]. split; [by rewrite E4|]. split.
    { eapply single_next; [by eapply (g_single _ Ha); rewrite E3|by left]. }
    intros new. rewrite omap_app, not_opening by done. cbn. intros Hin.
    destruct (g_opening _ Ha id op sid (i :: rest) new) as [H1 H2]; [by rewrite E3| |done].
    cbn. destruct (open_id i); [by right|done].
  - apply (server_section c Hsane sid i a s f Hs id op rest c'); try done.
    + intros sid'. by destruct (S3 sid').
    + destruct (f_next f) as [more|new more|v|m|e]; try (by apply plain_server_of, S4); [|by destruct (Hent new more)].
      rewrite S4. unfold server_of. cbn. by rewrite decide_True.
    + intros sid' Hne. destruct (f_next f) as [more|new more|v|m|e]; try (by apply plain_server_of, S4); [|by destruct (Hent new more)].
      rewrite S4. unfold server_of. cbn. by rewrite decide_False.
  - apply (opens_aset c c' sid s (f_session f)); [done|]. by rewrite S1.
Qed.

(** A step of the server that keeps every session and goes on with [more]. *)
Lemma serve_control id op sid i rest c c1 n :
  sane c -> server c = Busy id op sid (i :: rest) -> sane c1 -> sessions c1 = sessions c -> server c1 = server c ->
  dispatching c1 = dispatching c -> (forall sid', same_view sid' c c1 /\ threads_of sid' c1 = threads_of sid' c) ->
  match n with
  | Continue more => controller_next sid i more /\ (forallb (fun i => negb (opening i)) more = true \/ opening i = true /\ exists x, more = [x]) /\
      forall new, new ∈ omap open_id more -> aget new (sessions c1) = None /\ (exists k, k < tokens c1 /\ new = token_hex k)
  | Enter _ _ => False
  | _ => True
  end ->
  let c' := serve_next text id op sid rest n c1 in sane c' /\ advances c c' /\ opens c c'.
Proof.
  intros Hsane Hb Hs1 E1 E2 E3 Hv Hn c'.
  assert (dispatching c1 = true) as Hd by (rewrite E3; destruct Hsane as [_ G2 _ _ _ _ _]; by rewrite Hb in G2).
  destruct (serve_next_view id op sid rest n c1 c' eq_refl) as (S1 & S2 & S3 & S4).
  assert (forall sid', same_view sid' c c' /\ threads_of sid' c' = threads_of sid' c) as Hv'.
  { intros sid'. destruct (Hv sid') as ((V1 & V2 & V3) & V4), (S3 sid') as ((W1 & W2 & W3) & W4).
    split; [split_and!; [by rewrite W1|by rewrite W2|by rewrite W3]|by rewrite W4]. }
  destruct n as [more|new more|v|m|e]; try done.
  2-4: (split; [by apply S4|]; apply server_moves; [by rewrite S1|done|]; intros sid'; right; left; by apply plain_server_of, S4).
  destruct Hn as (Hn & Hsi & Hnew). split.
  - rewrite S4. apply sane_server; [done|]. split; [done|]. split; [eapply single_next; [by eapply (g_single _ Hs1); rewrite E2|done]|]. intros new. rewrite omap_app, elem_of_app. intros [Hin|Hin]; [by apply Hnew|].
    apply (g_opening _ Hs1 id op sid (i :: rest)); [by rewrite E2|]. cbn. destruct (open_id i); [by right|done].
  - split; [|apply opens_none; by rewrite S1]. intros sid' s Hs. exists s. rewrite S1, E1. split; [done|].
    destruct (Hv' sid') as ((V1 & V2 & V3) & V4). destruct (decide (sid' = sid)) as [->|Hne].
    + unfold project. rewrite V2, V3, V4. unfold server_of at 1. rewrite Hb. rewrite decide_True by done.
      assert (server_of sid c' = more ++ rest) as -> by (rewrite S4; unfold server_of; cbn; by rewrite decide_True).
      by apply l_server_control.
    + apply lstep_server; [done|done|]. left. rewrite S4. unfold server_of. cbn. rewrite Hb. by rewrite !decide_False by done.
Qed.

(** The new session of [session.open]. *)
Lemma open_enters id op sid args manifest raw new rest c i p :
  sane c -> server c = Busy id op sid (IOpenCommit args manifest raw new :: rest) -> p ∈ [session.Open; Authoring] ->
  let c' := serve_next text id op sid rest (Enter new [IOpenCheck]) (set_sessions (aset new (new_session i p) (sessions c)) c) in
  rest = [] -> sane c' /\ advances c c' /\ opens c c'.
Proof.
  intros Hsane Hb Hp c' ->. destruct (g_opening _ Hsane id op sid _ new Hb) as [Hnone Hk]; [cbn; by left|].
  assert (forall sid', same_view sid' c c' /\ threads_of sid' c' = threads_of sid' c) as Hv by done.
  split; [|split].
  - unfold c', serve_next. pose proof Hsane as [G1 G2 G3 G4 G5 GS G6]. constructor; try done.
    + cbn. by rewrite Hb in G2.
    + cbn. intros sid' s'. rewrite aget_aset. destruct (decide _) as [->|]; [done|apply G4].
    + cbn. intros id' op' sid' prog new' [= <- <- <- <-] Hin. by apply elem_of_nil in Hin.
    + cbn. intros id' op' sid' prog [= <- <- <- <-]. right. by eexists.
    + cbn. intros sid'. rewrite aget_aset. destruct (decide _); [done|]. apply G6.
  - intros sid' s Hs. exists s. cbn. rewrite aget_aset. rewrite decide_False by congruence. split; [done|].
    apply lstep_server; [done|done|]. unfold server_of. cbn. rewrite Hb. right; left. rewrite decide_False by congruence. done.
  - intros sid' s' H1 H2. cbn in H2. rewrite aget_aset in H2. destruct (decide (sid' = new)) as [->|]; [|congruence]. injection H2 as <-.
    destruct (g_unknown _ Hsane new Hnone) as (U1 & U2 & U3). split_and!; [by do 2 eexists| |..|done|done].
    + cbn. unfold server_of. cbn. by rewrite decide_True.
    + cbn. change (threads_of new c') with (threads_of new c). unfold threads_of in *. rewrite Forall_fmap in *.
      rewrite list.Forall_forall in U1. apply list.Forall_forall. intros t Ht. split; [by apply U1|].
      pose proof (g_threads _ Hsane) as G. rewrite list.Forall_forall in G. apply G. by apply list_elem_of_filter in Ht as [_ Ht].
Qed.

Lemma serve_busy id op sid i rest a c c1 n :
  sane c -> server c = Busy id op sid (i :: rest) -> exec true sid i a c = Some (c1, n) ->
  let c' := serve_next text id op sid rest n c1 in sane c' /\ advances c c' /\ opens c c'.
Proof.
  intros Hsane Hb He. unfold exec in He.
  assert (forall n, (match n with Continue more => controller_next sid i more /\ forallb (fun i => negb (opening i)) more = true | Enter _ _ => False | _ => True end) ->
    let c' := serve_next text id op sid rest n c in sane c' /\ advances c c' /\ opens c c') as Hkeep.
  { intros n0 Hn. apply (serve_control id op sid i rest c c n0); try done. destruct n0; try done. destruct Hn as [Hn Ho].
    split; [done|]. split; [by left|]. rewrite not_opening by done. intros new Hin. by apply elem_of_nil in Hin. }
  assert (family_of i <> Controller -> let c' := serve_next text id op sid rest n c1 in sane c' /\ advances c c' /\ opens c c') as Hnc.
  { intros Hf. assert (match aget sid (sessions c) with
      | None => Some (c, Raise (_fail "HANDLE_INVALID" "policy"))
      | Some s => match exec_session true (closed c) (token_hex (tokens c)) sid i a s with
                  | Some f => Some (apply true sid f c, f_next f) | None => None end end = Some (c1, n)) as H by (by destruct (family_of i)).
    destruct (aget sid (sessions c)) as [s|] eqn:Hs; [|injection H as <- <-; by apply Hkeep].
    destruct (exec_session _ _ _ _ _ _ _) as [f|] eqn:Hf'; [|done]. injection H as <- <-. by eapply serve_section. }
  destruct (family_of i) eqn:Hfam; try (by apply Hnc). clear Hnc. destruct i; try discriminate Hfam; cbn [exec_controller] in He.
  - destruct a as [|e|r h| | | | | | | | | | | | | ]; try discriminate He; [injection He as <- <-; by apply Hkeep|]. apply (inj Some) in He.
    unfold _hello_request in He. destruct (rbind _ _) as [[version caps]|e]; injection He as <- <-; [|by apply Hkeep].
    apply (serve_control id op sid (IHello id0 args) rest c); try done. by destruct Hsane.
  - apply (inj Some) in He. unfold open_begin in He. destruct (rbind _ _) as [[m raw]|e]; [|injection He as <- <-; by apply Hkeep].
    cbn in He. injection He as <- <-. apply (serve_control id op sid (IOpen args) rest c); try done.
    + destruct Hsane as [G1 G2 G3 G4 G5 GS G6]. constructor; try done.
      * intros sid' s' H. destruct (G4 _ _ H) as (k & ? & ?). exists k. cbn. split; [lia|done].
      * intros id' op' sid' prog new H Hin. destruct (G5 _ _ _ _ _ H Hin) as (? & k & ? & ?). split; [done|]. exists k. cbn. split; [lia|done].
    + split; [by do 4 eexists|]. split; [right; by eauto|]. cbn. intros new Hin. apply list_elem_of_singleton in Hin as ->. split.
      * destruct (aget _ (sessions c)) as [s'|] eqn:E; [|done]. destruct (g_tokens _ Hsane _ _ E) as (k & Hk & Hk'). apply (inj token_hex) in Hk'. lia.
      * exists (tokens c). split; [lia|done].
  - destruct a; try discriminate He; injection He as <- <-; [by apply Hkeep|].
    eapply (serve_control id op sid _ rest c); try done. split; [done|]. split; [right; by eauto|]. cbn. intros new Hin.
    apply list_elem_of_singleton in Hin as ->. apply (g_opening _ Hsane id op sid _ id0 Hb). cbn. by left.
  - apply (inj Some) in He. unfold open_commit in He. destruct (rbind _ _) as [[[pol sub] rt]|e]; [|injection He as <- <-; by apply Hkeep].
    destruct (closed c); [injection He as <- <-; by apply Hkeep|]. injection He as <- <-. eapply open_enters; [done|done| |].
    + unfold first_phase. destruct sub; try (by left). case_match; [by right; left|by left].
    + destruct (g_single _ Hsane _ _ _ _ Hb) as [H|[x [= _ ->]]]; [discriminate H|done].
  - injection He as <- <-. apply Hkeep. split; [by eexists|]. by destruct (bool_decide _).
  - injection He as <- <-. by apply Hkeep.
  - injection He as <- <-. by apply Hkeep.
  - injection He as <- <-. apply (serve_control id op sid IExpire rest c); try done; [by destruct Hsane|]. split; [done|]. split; [by left|]. intros new Hin. by apply elem_of_nil in Hin.
  - injection He as <- <-. apply Hkeep. destruct (bool_decide _); split; try done; [by right|by left].
Qed.

Definition step_ok (c c' : ctl) : Prop := sane c' /\ advances c c' /\ opens c c'.

(** The response is queued, or the connection has ended: waiting events and
    threads are let go. *)
Lemma flush_step c x : sane c -> plain_server x -> plain_server (server c) -> step_ok c (set_server x (after_response c)).
Proof.
  intros [G1 G2 G3 G4 G5 GS G6] Hx Hc.
  assert (forall sid, same_view sid c (set_server x (after_response c)) /\ threads_of sid (set_server x (after_response c)) = threads_of sid c) as Hv.
  { intros sid. unfold same_view, threads_of, events_of, entries_of, all_threads, all_events. cbn. rewrite !app_nil_r, omap_app, !list.filter_app.
    assert (omap emitted (map Emitted (pending_events c)) = pending_events c) as -> by (induction (pending_events c) as [|e l IH]; cbn; [done|by f_equal]).
    assert (filter (fun e => entry_session e = Some sid) (map Emitted (pending_events c)) = []) as ->
      by (induction (pending_events c) as [|e l IH]; [done|]; cbn [map]; by rewrite filter_cons_False).
    by rewrite app_nil_r. }
  split; [|apply server_moves; [done|done|]; intros sid; right; left; by apply plain_server_of].
  constructor; try done.
  - by destruct x.
  - unfold all_threads in *. cbn. by rewrite app_nil_r.
  - cbn. intros id op sid prog new ->. done.
  - cbn. intros id op sid prog ->. done.
  - intros sid H. destruct (Hv sid) as ((_ & V2 & V3) & V4). rewrite V2, V3, V4. by apply G6.
Qed.

Lemma serve_step a c c' : sane c -> serve rec_limit max_completed token_hex text decode_replace instance_id a c = Some c' -> step_ok c c'.
Proof.
  intros Hsane H. unfold serve in H. destruct (server c) as [|id op sid [|i rest]| | |[|sid rest]|] eqn:Hb; try discriminate H.
  - destruct (exec true sid i a c) as [[c1 n]|] eqn:He; [|done]. injection H as <-. by eapply serve_busy.
  - injection H as <-. apply flush_step; [done|done|by rewrite Hb].
  - unfold exec in H. cbn [family_of] in H. destruct (aget sid (sessions c)) as [s|] eqn:Hs.
    + destruct (exec_session _ _ _ _ _ _ _) as [f|] eqn:Hf; [|done].
      assert (exists x, plain_server x /\ c' = set_server x (apply true sid f c)) as (x & Hx & ->)
        by (destruct (f_next f); injection H as <-; (eexists; split; [|reflexivity]; done)).
      assert (sane (apply true sid f c)) as Ha by (by eapply sane_apply).
      destruct (exec_session_instrs _ _ _ _ _ _ _ _ Hf) as (_ & _ & Hsp & Hlog & _ & [Hdef|]); [|done].
      destruct (apply_effect true sid f c Hlog (g_flushed _ Hsane) (or_intror Hdef)) as (_ & E1 & _).
      split; [apply sane_server; [done|by destruct x]|]. split; [|by eapply opens_aset].
      eapply (ending_section c Hsane sid _ _ s f Hs rest); try done. intros sid'. by apply plain_server_of.
    + injection H as <-. split; [by apply sane_server|]. apply server_moves; [done|done|]. intros sid'. right; left. done.
Qed.

Lemma hangup_step c c' : sane c -> hangup c = Some c' -> step_ok c c'.
Proof.
  intros Hsane H. unfold hangup in H. split; [|split].
  - destruct Hsane as [G1 G2 G3 G4 G5 GS G6]. destruct (server c); try discriminate H; injection H as <-; by constructor.
  - apply server_moves; destruct (server c); try discriminate H; injection H as <-; try done; intros sid; right; by left.
  - apply opens_none. by destruct (server c); try discriminate H; injection H as <-.
Qed.

Lemma launch_step sid o w a c c' : sane c -> launch sid o w a c = Some c' -> step_ok c c'.
Proof.
  intros Hsane H. unfold launch in H. destruct (aget sid (sessions c)) as [s|] eqn:Hs; [|done].
  destruct (_launch_guard o w a s) as [s' b] eqn:Hg. injection H as <-.
  set (c' := set_log _ _). set (l := if b then [Launched sid w] else []).
  assert (Forall (fun e => entry_session e = Some sid /\ emitted e = None) l) as Hl by (unfold l; destruct b; by repeat constructor).
  destruct (session_entries sid l Hl) as [Ho Hen].
  assert (forall sid', threads_of sid' c' = threads_of sid' c /\ events_of sid' c' = events_of sid' c /\
    entries_of sid' c' = entries_of sid' c ++ tagged sid sid' l /\ server_of sid' c' = server_of sid' c) as Hv.
  { intros sid'. split_and!; try done.
    - unfold events_of, all_events. cbn. fold l. by rewrite omap_app, Ho, app_nil_r.
    - unfold entries_of. cbn. fold l. by rewrite list.filter_app, Hen. }
  split; [|split; [|by eapply (opens_aset c c' sid s s')]].
  - destruct Hsane as [G1 G2 G3 G4 G5 GS G6]. constructor; try done.
    + intros sid' s1. cbn. rewrite aget_aset. destruct (decide _) as [->|]; [intros _; by eapply G4|apply G4].
    + intros id op sid' prog new Hb Hin. destruct (G5 _ _ _ _ _ Hb Hin). split; [|done]. cbn. rewrite aget_aset. by rewrite decide_False by congruence.
    + intros sid' Hn. cbn in Hn. rewrite aget_aset in Hn. destruct (decide (sid' = sid)) as [|Hne]; [done|].
      destruct (Hv sid') as (-> & -> & -> & _). rewrite tagged_ne by done. rewrite app_nil_r. by apply G6.
  - intros sid' s1 H1. cbn. rewrite aget_aset. destruct (Hv sid') as (V1 & V2 & V3 & V4). destruct (decide (sid' = sid)) as [->|Hne].
    + rewrite Hs in H1. injection H1 as <-. exists s'. split; [done|]. unfold project. rewrite V1, V2, V3, V4, tagged_eq.
      pose proof (l_launch sid o w a s (server_of sid c) (threads_of sid c) (events_of sid c) (entries_of sid c)) as L. by rewrite Hg in L.
    + exists s1. split; [done|]. apply lstep_same; [|done]. unfold same_view. rewrite V1, V2, V3, tagged_ne by done. by rewrite app_nil_r.
Qed.

Lemma callback_step sid b c : sane c -> callback_allowed sid b c = true -> step_ok c (set_threads (threads c ++ [callback_thread sid b]) c).
Proof.
  intros Hsane Hc. set (c' := set_threads _ c).
  assert (t_session (callback_thread sid b) = sid) as Ht by (by destruct b).
  assert (forall sid', threads_of sid' c' ≡ₚ tagged sid sid' [code (callback_thread sid b)] ++ threads_of sid' c) as Hv.
  { intros sid'. unfold c'. rewrite (threads_of_middle _ (threads c) (callback_thread sid b) []) by done. rewrite Ht. done. }
  split; [|split; [|by apply opens_none]].
  - destruct Hsane as [G1 G2 G3 G4 G5 GS G6]. constructor; try done.
    + unfold all_threads in *. cbn. apply Forall_app in G3 as [? ?]. rewrite !Forall_app. split_and!; try done. repeat constructor. by destruct b.
    + intros sid' Hn. destruct (G6 sid' Hn) as (U1 & U2 & U3). split_and!; [|done|done]. rewrite (Hv sid'). apply Forall_app. split; [|done].
      unfold tagged. destruct (decide (sid' = sid)) as [->|]; [|done]. repeat constructor. destruct b; try done; exfalso; cbn in Hc; unfold hosting in Hc;
        apply existsb_exists in Hc as (t & Hin & Hc); apply andb_true_iff in Hc as [Hc1 Hc2]; apply bool_decide_eq_true in Hc1;
        rewrite list.Forall_forall in U1;
        (assert (code t ∈ threads_of sid c) as Hx by (apply list_elem_of_fmap; exists t; split; [done|]; apply list_elem_of_filter; split; [done|];
           apply elem_of_app; left; by apply list_elem_of_In));
        specialize (U1 _ Hx); cbn in U1; by rewrite U1 in Hc2.
  - intros sid' s H. exists s. split; [done|]. destruct (decide (sid' = sid)) as [->|Hne].
    + unfold project. apply (l_callback sid b); [|by rewrite (Hv sid), tagged_eq]. destruct b; try done; cbn in Hc; unfold hosting in Hc;
        apply existsb_exists in Hc as (t & Hin & Hc); apply andb_true_iff in Hc as [Hc1 Hc2]; apply bool_decide_eq_true in Hc1;
        destruct t as [ts [] [|[] rest]]; try discriminate Hc2; exists rest; apply list_elem_of_fmap; (eexists; split; [|apply list_elem_of_filter; split; [exact Hc1|];
           apply elem_of_app; left; apply list_elem_of_In; exact Hin]); done.
    + apply lstep_same; [|done]. split_and!; [|done|done]. rewrite (Hv sid'). by rewrite tagged_ne.
Qed.

Lemma on_raise_instrs r e : forallb (fits r) (on_raise r e) = true.
Proof. destruct r as [op []| | |]; cbn; rewrite ?bool_decide_eq_true_2 by done; done. Qed.

(** Replies to the agent's tools are no part of a session's view. *)
Lemma reply_view sid r n c : let c' := set_log (log c ++ thread_reply sid r n) c in
  (sane c -> sane c') /\ forall sid', same_view sid' c c'.
Proof.
  assert (Forall (fun e => emitted e = None /\ entry_session e = None) (thread_reply sid r n)) as H by (destruct n, r; by repeat constructor).
  cbn zeta. revert H. generalize (thread_reply sid r n). intros l. induction l as [|e l IH] using rev_ind; intros H.
  - split; [by rewrite app_nil_r; intros []; constructor|]. intros sid'. unfold same_view, events_of, entries_of, all_events. cbn. by rewrite app_nil_r.
  - apply Forall_app in H as [Hl He]. destruct (IH Hl) as [H1 H2]. apply list.Forall_singleton in He as [He1 He2]. rewrite app_assoc.
    change (set_log ((log c ++ l) ++ [e]) c) with (logs e (set_log (log c ++ l) c)). split; [intros Hc; apply sane_logs; auto|].
    intros sid'. destruct (same_view_logs sid' (set_log (log c ++ l) c) e He1 He2) as (V1 & V2 & V3), (H2 sid') as (W1 & W2 & W3).
    split_and!; [by rewrite V1|by rewrite V2|by rewrite V3].
Qed.

(** A step of a thread that keeps every session. *)
Lemma thread_control n sid r i rest prog c c1 :
  sane c -> threads c !! n = Some (Thread sid r (i :: rest)) -> sane c1 ->
  sessions c1 = sessions c -> server c1 = server c -> threads c1 = threads c -> (forall sid', same_view sid' c c1) ->
  (aget sid (sessions c) = None \/ (exists more, prog = more ++ rest /\ controller_next sid i more) \/ (prog = [] /\ exists v, i = IReply v)) ->
  forallb (fits r) prog = true ->
  step_ok c (set_threads (<[n := Thread sid r prog]> (threads c1)) c1).
Proof.
  intros Hsane Hn Hs1 E1 E2 E3 Hv Hp Hi. split; [|split; [|by apply opens_none]].
  { eapply sane_put; [done|by rewrite E3|done]. }
  destruct (put_thread c1 n sid r (i :: rest) prog) as (others & Ho); [by rewrite E3|].
  intros sid' s Hs. exists s. cbn. rewrite E1. split; [done|]. destruct (Ho sid') as [O1 O2], (Hv sid') as (V0 & V1 & V2). rewrite V0 in O1.
  assert (server_of sid' (set_threads (<[n:=Thread sid r prog]> (threads c1)) c1) = server_of sid' c) as Hsv by (unfold server_of; cbn; by rewrite E2).
  destruct (decide (sid' = sid)) as [->|Hne].
  - rewrite tagged_eq in O1, O2. unfold project. rewrite Hsv.
    change (events_of sid (set_threads _ c1)) with (events_of sid c1). change (entries_of sid (set_threads _ c1)) with (entries_of sid c1).
    rewrite V1, V2. destruct Hp as [Hp|[(more & -> & Hm)|(-> & v & ->)]]; [congruence|..].
    + eapply l_thread_control; [exact O1|exact Hm|exact O2].
    + eapply l_thread_reply; [exact O1|exact O2].
  - rewrite tagged_ne in O1, O2 by done. apply lstep_same; [|done]. split_and!; [by rewrite O2, O1|done|done].
Qed.

Lemma run_thread_step n a c c' :
  sane c -> run_thread rec_limit max_completed token_hex text decode_replace instance_id n a c = Some c' -> step_ok c c'.
Proof.
  intros Hsane H. unfold run_thread in H. destruct (threads c !! n) as [[sid r [|i rest]]|] eqn:Hn; try discriminate H.
  assert (fits r i = true /\ forallb (fits r) rest = true) as [Hfit Hrest].
  { pose proof (g_threads _ Hsane) as G. unfold all_threads in G. apply Forall_app in G as [G _]. rewrite Forall_lookup in G.
    specialize (G _ _ Hn). cbn in G. by apply andb_true_iff in G. }
  pose proof (fits_thread _ _ Hfit) as Hi.
  destruct (exec false sid i a c) as [[c1 x]|] eqn:He; [|done]. injection H as <-. unfold exec in He.
  destruct (reply_view sid r x c1) as [Hsr Hvr]. set (c2 := set_log _ c1) in *.
  destruct (decide (family_of i = Controller)) as [Hfam|Hfam].
  - rewrite Hfam in He. unfold thread_instr in Hi. rewrite Hfam in Hi.
    assert (sane c1 /\ sessions c1 = sessions c /\ server c1 = server c /\ threads c1 = threads c /\ (forall sid', same_view sid' c c1)) as (S1 & S2 & S3 & S4 & S5).
    { destruct i; try discriminate Hi; cbn [exec_controller] in He; injection He as <- <-; split_and!; try done. by destruct Hsane. }
    change (threads c1) with (threads c2).
    apply (thread_control n sid r i rest _ c c2); try done; [by apply Hsr| | |].
    + intros sid'. destruct (S5 sid') as (V1 & V2 & V3), (Hvr sid') as (W1 & W2 & W3). split_and!; [by rewrite W1|by rewrite W2|by rewrite W3].
    + destruct i; try discriminate Hi; cbn [exec_controller] in He; injection He as _ <-; cbn [controller.thread_next]; right.
      * right. eauto.
      * left. by exists [].
      * left. eexists. split; [done|]. destruct (bool_decide _); [by right|by left].
    + destruct i; try discriminate Hi; cbn [exec_controller] in He; injection He as _ <-; cbn [controller.thread_next]; try done.
      rewrite forallb_app, Hrest. destruct r; try discriminate Hfit. by destruct (bool_decide _).
  - assert (match aget sid (sessions c) with
      | None => Some (c, Raise (_fail "HANDLE_INVALID" "policy"))
      | Some s => match exec_session false (closed c) (token_hex (tokens c)) sid i a s with
                  | Some f => Some (apply false sid f c, f_next f) | None => None end end = Some (c1, x)) as He' by (by destruct (family_of i)).
    clear He. destruct (aget sid (sessions c)) as [s|] eqn:Hs.
    + destruct (exec_session _ _ _ _ _ _ _) as [f|] eqn:Hf; [|done]. injection He' as <- <-.
      assert (family_of i <> Request) as Hreq by (intros E; unfold thread_instr in Hi; by rewrite E in Hi).
      destruct (exec_session_instrs _ _ _ _ _ _ _ _ Hf) as (Hni & _ & Hsp & Hlog & Hent & [Hdef|]); [|done].
      destruct (apply_effect false sid f c Hlog (g_flushed _ Hsane) (or_intror Hdef)) as (_ & E1 & _ & [extra E2] & E3 & _).
      assert (sane (apply false sid f c)) as Ha by (eapply sane_apply; try done; by intros).
      assert (forallb (fits r) (thread_next r (f_next f) rest) = true) as Hprog.
      { specialize (Hni r Hfit). destruct (f_next f); cbn in *; try done; [by rewrite forallb_app, Hni|by rewrite forallb_app, Hni|apply on_raise_instrs]. }
      change (threads (apply false sid f c)) with (threads c2).
      split; [|split; [|eapply opens_aset; [done|]; exact E1]].
      * eapply sane_put; [by apply Hsr| |done]. change (threads c2) with (threads (apply false sid f c)). rewrite E2, lookup_app_l; [done|by eapply lookup_lt_Some].
      * eapply (thread_section c Hsane sid i a s f Hs n r rest); try done. intros sid'. unfold c2.
        destruct (Hvr sid') as (W1 & W2 & W3). split_and!; [done|exact W2|exact W3].
    + injection He' as <- <-. change (threads c) with (threads c2). apply (thread_control n sid r i rest _ c c2); try done; [by apply Hsr|by left|apply on_raise_instrs].
Qed.

(** Every step keeps the controller sane, is a step or nothing for each
    session, and opens only fresh sessions. *)
Lemma step_sound x c c' : sane c -> step x c = Some c' -> step_ok c c'.
Proof.
  intros Hsane H. destruct x; cbn [controller.step] in H.
  - destruct (server c) eqn:E; try discriminate H. injection H as <-. by apply receive_step.
  - by eapply serve_step.
  - destruct (server c) as [| |stop| | |] eqn:E; try discriminate H. injection H as <-.
    apply flush_step; [done|by destruct stop|by rewrite E].
  - by eapply hangup_step.
  - by eapply run_thread_step.
  - destruct (callback_allowed sid b c) eqn:E; [|done]. injection H as <-. by apply callback_step.
  - by eapply launch_step.
Qed.
End Life.
End lifecycle.
