(* ===== verification/SessionLaws.v ===== *)
(** * Laws of the orchestration controller

    Invariants of every reachable controller, proved on the per-session
    transition system of [Lifecycle.v]. *)

From Stdlib Require Import ZArith Lia.
From stdpp Require Import base list gmap strings numbers.
From S2P Require Import Prelude PyJson JsonText Protocol ControlProtocol ControlProtocolV2 Canonical Effects Session Orchestration Lifecycle Demo.

Module laws.
Import v1 v2 session controller lifecycle.

Section Laws.
Context (rec_limit : nat) (max_completed : Z) (token_hex : nat -> pystr) (text : exn -> pystr) (decode_replace : bytes -> pystr).
Context (instance_id : pystr) `{!Inj (=) (=) token_hex}.

#[local] Abbreviation exec_session := (exec_session max_completed decode_replace).
#[local] Abbreviation on_raise := (on_raise text).
#[local] Abbreviation thread_next := (thread_next text).
#[local] Abbreviation step := (step rec_limit max_completed token_hex text decode_replace instance_id).
#[local] Abbreviation run := (run rec_limit max_completed token_hex text decode_replace instance_id).
#[local] Abbreviation lstep := (lstep max_completed text decode_replace).
#[local] Abbreviation sane := (sane token_hex).

(** ** Reachable controllers *)
Inductive reachable : ctl -> Prop :=
  | reach_initial : reachable initial
  | reach_step x c c' : reachable c -> step x c = Some c' -> reachable c'.

Lemma run_reachable schedule c : reachable c -> reachable (run schedule c).
Proof.
  revert c. induction schedule as [|x l IH]; intros c H; cbn; [done|]. apply IH. destruct (step x c) as [c'|] eqn:E; cbn; [|done].
  by eapply reach_step.
Qed.

Lemma initial_sane : sane initial.
Proof. constructor; try done. Qed.

Lemma reachable_sane c : reachable c -> sane c.
Proof. induction 1 as [|x c c' _ IH H]; [apply initial_sane|]. by eapply step_sound in H as [? _]. Qed.

(** An invariant of the sessions: it holds of a fresh one and every step of a
    session keeps it. *)
Lemma local_invariant (I : pystr -> local -> Prop) :
  (forall sid l, fresh_local l -> I sid l) -> (forall sid l l', I sid l -> lstep sid l l' -> I sid l') ->
  forall c sid s, reachable c -> aget sid (sessions c) = Some s -> I sid (project sid c s).
Proof.
  intros Hfresh Hstep c sid s Hr. revert sid s. induction Hr as [|x c c' Hr IH H]; intros sid s' Hs'; [done|].
  destruct (step_sound _ _ _ _ _ _ _ _ _ (reachable_sane _ Hr) H) as (_ & Hadv & Hop).
  destruct (aget sid (sessions c)) as [s|] eqn:Hs.
  - destruct (Hadv sid s Hs) as (s1 & E & Hl). rewrite Hs' in E. injection E as <-. by eapply Hstep; [apply IH|].
  - by apply Hfresh, (Hop sid s').
Qed.

(** ** Programs *)
Definition server_fits (i : instr) : bool :=
  match family_of i with
  | Request => true
  | Controller => match i with IExpire | IDeadline => false | _ => true end
  | Work => false
  | Host => match i with IJoinHost | ICancelHost _ | ITerminalHost _ | IHostEvent => true | _ => false end
  | Common => match i with IFinishEvent _ | ICleanup _ => true | IEmit name _ => bool_decide (name = "operation.finished") | _ => false end
  end.

Definition programs (l : local) : Prop :=
  Forall (fun t => forallb (fits t.1) t.2 = true) (l_threads l) /\ forallb server_fits (l_server l) = true.

Lemma handler_fits id op args : forallb server_fits (handler id op args) = true.
Proof. unfold handler. repeat case_bool_decide; done. Qed.

Lemma server_section_fits cl tok sid i a s f rest :
  exec_session true cl tok sid i a s = Some f -> server_fits i = true -> forallb server_fits rest = true ->
  forallb server_fits (server_next (f_next f) rest) = true.
Proof.
  intros H Hi Hr. assert (forallb server_fits (next_instrs (f_next f)) = true) as Hn.
  { clear Hr rest. open_section H; try discriminate Hi; open_effect; done. }
  destruct (f_next f); cbn in *; try done. by rewrite forallb_app, Hn.
Qed.

Lemma started_fits srv cl tok sid i a s f :
  exec_session srv cl tok sid i a s = Some f -> Forall (fun t => forallb (fits t.1) t.2 = true) (started f).
Proof.
  intros H. apply exec_session_instrs in H as (_ & _ & Hsp & _). unfold started. rewrite Forall_fmap. eapply list.Forall_impl; [exact Hsp|].
  by intros t [_ ?].
Qed.

Lemma programs_step sid l l' : programs l -> lstep sid l l' -> programs l'.
Proof.
  intros [Ht Hs] H. unfold programs in *. lstep_cases H; cbn [l_threads l_server] in *.
  - split; [done|apply handler_fits].
  - done.
  - cbn in Hs. apply andb_true_iff in Hs as [Hs1 Hs2]. split; [rewrite Hp; apply Forall_app; split; [by eapply started_fits|done]|].
    by eapply server_section_fits.
  - cbn in Hs. apply andb_true_iff in Hs as [Hs1 Hs2]. split; [done|]. rewrite forallb_app, Hs2, andb_true_r.
    destruct i; try discriminate Hs1; cbn in Hc; try done.
    + destruct Hc as (? & ? & ? & ? & ->). done.
    + by subst.
    + destruct Hc as [[] ->]; done.
  - split; [|done]. rewrite Hp. apply Forall_app; split; [by eapply started_fits|done].
  - split; [|done]. rewrite Hp2. rewrite Hp1 in Ht. apply list.Forall_cons in Ht as [Hi Ht]. cbn in Hi. apply andb_true_iff in Hi as [Hi Hrest].
    constructor; [|apply Forall_app; split; [by eapply started_fits|done]]. cbn.
    apply exec_session_instrs in Hf as (Hni & _ & _ & _ & Hent & _). specialize (Hni r Hi).
    destruct (f_next f); cbn in *; try done; [by rewrite forallb_app, Hni|by rewrite forallb_app, Hni|apply on_raise_instrs].
  - split; [|done]. rewrite Hp2. rewrite Hp1 in Ht. apply list.Forall_cons in Ht as [Hi Ht]. cbn in Hi. apply andb_true_iff in Hi as [Hi Hrest].
    constructor; [|done]. cbn. rewrite forallb_app, Hrest, andb_true_r. destruct r, i; try discriminate Hi; try done; cbn in Hc.
    + by subst.
    + by destruct Hc as [->| ->].
  - split; [|done]. rewrite Hp2. rewrite Hp1 in Ht. apply list.Forall_cons in Ht as [Hi Ht]. by constructor.
  - split; [|done]. rewrite Hp. constructor; [by destruct b|done].
  - done.
  - by rewrite Hp.
Qed.

Lemma programs_fresh l : fresh_local l -> programs l.
Proof. intros (_ & E & Ht & _). split; [|by rewrite E]. eapply list.Forall_impl; [exact Ht|]. by intros t [_ ?]. Qed.

Lemma reachable_programs c sid s : reachable c -> aget sid (sessions c) = Some s -> programs (project sid c s).
Proof. apply (local_invariant (fun _ => programs)); [intros _; apply programs_fresh|apply programs_step]. Qed.

(** ** Counting sections *)
Definition b2n (b : bool) : nat := if b then 1 else 0.
Definition count (g : instr -> bool) (prog : list instr) : nat := sum_list_with (fun i => b2n (g i)) prog.
(** The sections that satisfy [g] in all threads of a session. *)
Definition tally (g : instr -> bool) (ths : list (role * list instr)) : nat := sum_list_with (fun t => count g t.2) ths.

Lemma count_app g l1 l2 : count g (l1 ++ l2) = count g l1 + count g l2.
Proof. apply sum_list_with_app. Qed.
Lemma count_cons g i l : count g (i :: l) = b2n (g i) + count g l.
Proof. done. Qed.
Lemma count_zero g prog : forallb (fun i => negb (g i)) prog = true -> count g prog = 0.
Proof. induction prog as [|i l IH]; [done|]. rewrite count_cons. cbn. intros [Hi Hl]%andb_true_iff. rewrite (IH Hl). by destruct (g i). Qed.
Lemma count_le g h prog : (forall i, g i = true -> h i = true) -> count g prog <= count h prog.
Proof.
  intros H. induction prog as [|i l IH]; [done|]. rewrite !count_cons. pose proof (H i) as Hi. clear H.
  destruct (g i), (h i); cbn [b2n]; lia || discriminate (Hi eq_refl).
Qed.
Lemma tally_app g l1 l2 : tally g (l1 ++ l2) = tally g l1 + tally g l2.
Proof. apply sum_list_with_app. Qed.
Lemma tally_cons g t l : tally g (t :: l) = count g t.2 + tally g l.
Proof. done. Qed.
Lemma tally_perm g l1 l2 : l1 ≡ₚ l2 -> tally g l1 = tally g l2.
Proof. intros H. induction H; rewrite ?tally_cons; lia. Qed.
Lemma tally_zero g l : Forall (fun t => count g t.2 = 0) l -> tally g l = 0.
Proof. induction 1 as [|t l Ht _ IH]; [done|]. rewrite tally_cons. lia. Qed.

(** ** Operations *)

(** A section that leaves the operations alone. *)
Definition ops_same (s s' : session_t) : Prop :=
  op_objects s' = op_objects s /\ operations s' = operations s /\ next_operation_id s' = next_operation_id s /\
  cleanup_operation s' = cleanup_operation s.

Ltac quiet_section := unfold ops_same; repeat (case_match; simplify_eq; cbn in *); done.

Lemma adopt_ops s : ops_same s (_adopt_submission_locked s).
Proof. unfold _adopt_submission_locked. quiet_section. Qed.

Lemma on_run_ops g s s' : ops_same s s' -> ops_same s (on_run g s').
Proof. done. Qed.

Lemma cancel_host_ops reason s : ops_same s (_cancel_host_locked reason s).
Proof. unfold _cancel_host_locked. repeat case_match; try done. apply on_run_ops, adopt_ops. Qed.

Lemma terminal_host_ops r s : ops_same s (_terminal_host r s).1.
Proof. unfold _terminal_host. repeat case_match; try done. apply adopt_ops. Qed.

Lemma submit_begin_ops s : ops_same s (host_submit_begin s).1.
Proof.
  unfold host_submit_begin. run_monad; apply adopt_ops.
Qed.

Lemma submit_commit_ops s : ops_same s (host_submit_commit s).1.
Proof. unfold host_submit_commit. run_monad; apply adopt_ops. Qed.

Lemma submit_failed_ops b s : ops_same s (host_submit_failed b s).
Proof. unfold host_submit_failed. apply on_run_ops, adopt_ops. Qed.

(** Whether an operation waits for its result, as a number. *)
Definition pend (op : Z) (s : session_t) : nat :=
  match aget op (op_objects s) with Some o => if pending o then 1 else 0 | None => 0 end.

Record ops_ok (s : session_t) : Prop := OpsOk {
  ok_key : forall op o, aget op (op_objects s) = Some o -> operation_id o = op /\ (1 <= op < next_operation_id s)%Z;
  ok_next : (1 <= next_operation_id s)%Z;
  ok_known : forall op, op ∈ operations s -> is_Some (aget op (op_objects s));
  ok_cleanup : forall op, cleanup_operation s = Some op -> is_Some (aget op (op_objects s)) }.

Lemma ops_same_ok s s' : ops_same s s' -> ops_ok s -> ops_ok s'.
Proof. intros (E1 & E2 & E3 & E4) [H1 H2 H3 H4]. constructor; rewrite ?E1, ?E2, ?E3, ?E4; done. Qed.

Lemma ops_same_pend op s s' : ops_same s s' -> pend op s' = pend op s.
Proof. intros (E1 & _). unfold pend. by rewrite E1. Qed.

Lemma pend_none op s : ops_ok s -> (next_operation_id s <= op)%Z -> pend op s = 0.
Proof. intros [H _ _ _] Hop. unfold pend. destruct (aget op (op_objects s)) as [o|] eqn:E; [|done]. apply H in E as [_ ?]. lia. Qed.

(** A change of an operation object that keeps its number. *)
Lemma on_op_ok k g s : (forall o, operation_id (g o) = operation_id o) -> ops_ok s -> ops_ok (on_op k g s).
Proof.
  intros Hg [H1 H2 H3 H4].
  assert (forall op, is_Some (aget op (op_objects s)) -> is_Some (aget op (op_objects (on_op k g s)))) as Hs.
  { intros op Hop. cbn. rewrite aget_aupdate. destruct (decide _); [by apply fmap_is_Some|done]. }
  constructor; try done; [|by intros; apply Hs, H3|by intros; apply Hs, H4]. intros op o. cbn. rewrite aget_aupdate.
  destruct (decide _) as [->|]; [|apply H1]. intros (o' & Ho & ->)%fmap_Some. rewrite Hg. by apply H1.
Qed.

Lemma on_op_pend k g op s :
  pend op (on_op k g s) = if decide (op = k) then match aget k (op_objects s) with Some o => if pending (g o) then 1 else 0 | None => 0 end
                          else pend op s.
Proof. unfold pend. cbn. rewrite aget_aupdate. destruct (decide _) as [->|]; [|done]. by destruct (aget k (op_objects s)). Qed.

Lemma on_op_pend_same k g op s : (forall o, pending (g o) = pending o) -> pend op (on_op k g s) = pend op s.
Proof. intros Hg. rewrite on_op_pend. destruct (decide _) as [->|]; [|done]. unfold pend. destruct (aget _ _); [by rewrite Hg|done]. Qed.

(** A new operation. *)
Lemma add_operation_ok o s :
  ops_ok s -> operation_id o = next_operation_id s -> pending o = true ->
  ops_ok (add_operation o s) /\ forall op, pend op (add_operation o s) = pend op s + if decide (op = next_operation_id s) then 1 else 0.
Proof.
  intros Hok Hid Hp. pose proof Hok as [H1 H2 H3 H4]. split.
  - constructor; cbn.
    + intros op o'. rewrite aget_aset, Hid. destruct (decide _) as [->|]; [intros [= <-]; lia|]. intros E%H1. lia.
    + lia.
    + intros op. rewrite elem_of_app, list_elem_of_singleton, aget_aset. intros Hop. destruct (decide _); [done|]. apply H3. naive_solver.
    + intros op Hop%H4. rewrite aget_aset. by destruct (decide _).
  - intros op. unfold pend at 1. cbn. rewrite aget_aset, Hid. destruct (decide _) as [->|]; [|unfold pend; lia].
    rewrite Hp, pend_none by (done || lia). done.
Qed.

Lemma aget_map {V} (g : Z -> V -> V) op (l : list (Z * V)) :
  aget op (map (fun ko => (ko.1, g ko.1 ko.2)) l) = g op <$> aget op l.
Proof. induction l as [|[k v] l IH]; cbn; [done|]. destruct (decide _) as [->|]; [done|apply IH]. Qed.

Lemma cancel_others_ok k s :
  ops_ok s -> ops_ok (cancel_others k s) /\ forall op, pend op (cancel_others k s) = pend op s.
Proof.
  intros [H1 H2 H3 H4]. unfold cancel_others.
  set (g := fun (k' : Z) o => if bool_decide (k' ∈ operations s) && negb (bool_decide (k' = k)) && pending o then set_op_cancel o else o).
  assert (forall op, aget op (op_objects (set_op_objects (map (fun ko => (ko.1, g ko.1 ko.2)) (op_objects s)) s)) = g op <$> aget op (op_objects s)) as Hg
    by (intros; apply aget_map).
  assert (forall op o, operation_id (g op o) = operation_id o /\ pending (g op o) = pending o) as Hgo by (intros op o; unfold g; by case_match).
  change (map _ (op_objects s)) with (map (fun ko => (ko.1, g ko.1 ko.2)) (op_objects s)). split.
  - constructor; try done.
    + intros op o. rewrite Hg. intros (o' & Ho & ->)%fmap_Some. rewrite (proj1 (Hgo _ _)). by apply H1.
    + intros op Hop. rewrite Hg. apply fmap_is_Some. by apply H3.
    + intros op Hop. rewrite Hg. apply fmap_is_Some. by apply H4.
  - intros op. unfold pend. rewrite Hg. destruct (aget op (op_objects s)); cbn; [|done]. by rewrite (proj2 (Hgo _ _)).
Qed.

(** Every operation and its result are kept. *)
Definition ops_kept (s s' : session_t) : Prop :=
  forall op o, aget op (op_objects s) = Some o -> exists o', aget op (op_objects s') = Some o' /\ op_state o' = op_state o.

Lemma ops_kept_refl s s' : op_objects s' = op_objects s -> ops_kept s s'.
Proof. intros E op o. rewrite E. eauto. Qed.
Lemma ops_kept_trans s1 s2 s3 : ops_kept s1 s2 -> ops_kept s2 s3 -> ops_kept s1 s3.
Proof. intros H1 H2 op o H. destruct (H1 _ _ H) as (o2 & E2 & <-). by apply H2. Qed.
Lemma on_op_kept k g s : (forall o, op_state (g o) = op_state o) -> ops_kept s (on_op k g s).
Proof. intros Hg op o H. cbn. rewrite aget_aupdate. destruct (decide _) as [->|]; [rewrite H; cbn; eauto|eauto]. Qed.
Lemma add_operation_kept o s : ops_ok s -> operation_id o = next_operation_id s -> ops_kept s (add_operation o s).
Proof. intros [H1 _ _ _] Hid op o' H. cbn. rewrite aget_aset, Hid, decide_False; [eauto|]. apply H1 in H. lia. Qed.
Lemma cancel_others_kept k s : ops_kept s (cancel_others k s).
Proof.
  intros op o H.
  set (g := fun (k' : Z) o => if bool_decide (k' ∈ operations s) && negb (bool_decide (k' = k)) && pending o then set_op_cancel o else o).
  exists (g op o). split; [|unfold g; by case_match]. etransitivity; [apply (aget_map g)|]. by rewrite H.
Qed.

(** A state with the operations [s] has, and one more if [o] is given. *)
Definition ops_grow (s s' : session_t) (o : option Z) : Prop :=
  ops_ok s' /\ (forall op, pend op s' = pend op s + if decide (o = Some op) then 1 else 0) /\
  (next_operation_id s <= next_operation_id s')%Z /\ (forall op, o = Some op -> op = next_operation_id s) /\ ops_kept s s'.

Ltac no_new := rewrite decide_False by done; lia.

Lemma grow_same s s' : ops_ok s -> ops_same s s' -> ops_grow s s' None.
Proof.
  intros Hok Hs. split_and!; [by eapply ops_same_ok|intros op; rewrite (ops_same_pend op _ _ Hs); no_new| |done|].
  - destruct Hs as (_ & _ & -> & _). lia.
  - destruct Hs as (E & _). by apply ops_kept_refl.
Qed.

Lemma grow_trans_same s s1 s2 o : ops_grow s s1 o -> ops_same s1 s2 -> ops_grow s s2 o.
Proof.
  intros (H1 & H2 & H3 & H4 & H5) Hs. split_and!; [by eapply ops_same_ok|intros op; by rewrite (ops_same_pend op _ _ Hs)| |done|].
  - destruct Hs as (_ & _ & -> & _). done.
  - eapply ops_kept_trans; [exact H5|]. destruct Hs as (E & _). by apply ops_kept_refl.
Qed.

Lemma new_operation_grow b s s' r :
  ops_ok s -> _new_operation b s = (s', r) ->
  match r with Ok op => ops_grow s s' (Some op) | Err _ => s' = s end.
Proof.
  intros Hok H. unfold _new_operation in H.
  destruct (add_operation_ok (OperationRecord (next_operation_id s) None false true false) s Hok eq_refl eq_refl) as [A1 A2].
  pose proof (add_operation_kept (OperationRecord (next_operation_id s) None false true false) s Hok eq_refl) as A3.
  run_monad; try done; (split_and!; [by eapply ops_same_ok; [|exact A1]|intros op; etransitivity; [apply A2|]|cbn; lia|intros op [= <-]; done|by eapply ops_kept_trans; [exact A3|apply ops_kept_refl]]);
    destruct (decide (op = next_operation_id s)) as [->|]; [by rewrite decide_True|by rewrite decide_False by congruence
      |by rewrite decide_True|by rewrite decide_False by congruence].
Qed.

Lemma begin_cleanup_grow reason adv s s' r :
  ops_ok s -> begin_cleanup reason adv s = (s', r) ->
  match r with
  | Ok (op, true, _) => ops_grow s s' (Some op) /\ cleanup_operation s = None /\ cleanup_operation s' = Some op
  | Ok (op, false, _) => ops_grow s s' None /\ cleanup_operation s = Some op /\ cleanup_operation s' = Some op
  | Err _ => s' = s
  end.
Proof.
  intros Hok H. unfold begin_cleanup in H. open_monad. destruct (cleanup_operation s) as [id|] eqn:Ec.
  - destruct (if bool_decide _ then _ else _) as [op|]; [|by injection H as <- <-].
    destruct (adv && _); injection H as <- <-; (split; [|done]).
    + split_and!; [by apply on_op_ok|intros k; rewrite on_op_pend_same by done; no_new|cbn; lia|done|by apply on_op_kept].
    + by apply grow_same.
  - injection H as <- <-.
    destruct (add_operation_ok (OperationRecord (next_operation_id s) None false adv false) s Hok eq_refl eq_refl) as [A1 A2].
    pose proof (add_operation_kept (OperationRecord (next_operation_id s) None false adv false) s Hok eq_refl) as A3.
    set (s1 := add_operation _ s) in *.
    set (s2 := _cancel_host_locked reason _).
    assert (ops_ok s2 /\ (forall op, pend op s2 = pend op s1) /\ cleanup_operation s2 = Some (next_operation_id s) /\ next_operation_id s2 = next_operation_id s1 /\ op_objects s2 = op_objects s1)
      as (B1 & B2 & B3 & B4 & B5).
    { unfold s2. match goal with |- context [_cancel_host_locked reason ?x] => pose proof (cancel_host_ops reason x) as Hc; set (s0 := x) in * end.
      assert (ops_ok s0) as H0.
      { destruct A1 as [K1 K2 K3 K4]. constructor; try done. cbn. intros op [= <-]. rewrite aget_aset_eq. done. }
      split_and!; [by eapply ops_same_ok|intros op; by rewrite (ops_same_pend op _ _ Hc)|destruct Hc as (_ & _ & _ & ->); done|destruct Hc as (_ & _ & -> & _); done|destruct Hc as (-> & _); done]. }
    destruct (cancel_others_ok (next_operation_id s) s2 B1) as [C1 C2]. split_and!; try done.
    split_and!; [done|intros op; rewrite C2, B2, A2|cbn; rewrite B4; cbn; lia|intros op [= <-]; done
      |eapply ops_kept_trans; [exact A3|]; eapply ops_kept_trans; [by apply (ops_kept_refl s1 s2)|apply cancel_others_kept]].
    destruct (decide (op = next_operation_id s)) as [->|]; [by rewrite decide_True|by rewrite decide_False by congruence].
Qed.

Lemma evict_loop_sub m complete ops k : k ∈ evict_loop m complete ops -> k ∈ ops.
Proof.
  revert ops. induction complete as [|op rest IH]; intros ops; cbn; [done|]. destruct (_ <? _)%Z; [|done].
  intros H%IH. by apply list_elem_of_filter in H as [_ ?].
Qed.

Lemma evict_grow m s : ops_ok s -> ops_grow s (_evict m s) None.
Proof.
  intros Hok. pose proof Hok as [H1 H2 H3 H4]. split_and!; [|intros op; change (pend op (_evict m s)) with (pend op s); no_new|cbn; lia|done|by apply ops_kept_refl].
  constructor; try done. cbn. intros op Hop. apply H3. by eapply evict_loop_sub.
Qed.

(** The operation a step starts. *)
Definition starts (f : effect) : option Z :=
  match f_spawn f with Thread _ (OpThread op _) _ :: _ => Some op | _ => None end.

Lemma settle_grow op x s : ops_ok s -> pend op s = 1 -> let s' := settle op x s in
  ops_ok s' /\ (next_operation_id s <= next_operation_id s')%Z /\ forall k, pend k s' = if decide (k = op) then 0 else pend k s.
Proof.
  intros Hok Hp s'. set (s1 := on_op op (set_state x) s).
  assert (ops_same s1 s') as Hs by (unfold s', settle; fold s1; by case_match).
  assert (ops_ok s1) as H1 by (by apply on_op_ok). split_and!; [by eapply ops_same_ok|destruct Hs as (_ & _ & -> & _); cbn; lia|].
  intros k. rewrite (ops_same_pend k _ _ Hs). unfold s1. rewrite on_op_pend. destruct (decide _); [|done]. by destruct (aget op _).
Qed.

Lemma finish_event_grow op s : ops_ok s -> ops_grow s (_finish_event op s).1 None.
Proof.
  intros Hok. unfold _finish_event. destruct (aget op (op_objects s)); [|by apply grow_same]. destruct (_ || _); [by apply grow_same|].
  split_and!; [by apply on_op_ok|intros k; cbn [fst]; rewrite on_op_pend_same by done; no_new|cbn; lia|done|by apply on_op_kept].
Qed.

(** The fields of the usual effects. *)
Lemma sect_session {A} (m : eff session_t A) k s : f_session (sect m k s) = (m s).1.
Proof. unfold sect. by destruct (m s) as [s' [x|e]]. Qed.
Lemma sect_starts {A} (m : eff session_t A) k s : starts (sect m k s) = None.
Proof. unfold sect, starts. by destruct (m s) as [s' [x|e]]. Qed.
Lemma pure_sect_session {A} (g : session_t -> session_t * A) k s : f_session (pure_sect g k s) = (g s).1.
Proof. unfold pure_sect. by destruct (g s). Qed.
Lemma pure_sect_starts {A} (g : session_t -> session_t * A) k s : starts (pure_sect g k s) = None.
Proof. unfold pure_sect, starts. by destruct (g s). Qed.
Lemma with_token_fields f : f_session (with_token f) = f_session f /\ starts (with_token f) = starts f /\ f_next (with_token f) = f_next f.
Proof. done. Qed.

Lemma cleanup_operation_grow sid reason worker adv k s :
  ops_ok s -> let f := _cleanup_operation sid reason worker adv k s in ops_grow s (f_session f) (starts f).
Proof.
  intros Hok. unfold _cleanup_operation. destruct (begin_cleanup reason adv s) as [s' r] eqn:E.
  pose proof (begin_cleanup_grow _ _ _ _ _ Hok E) as H. destruct r as [[[op []] due]|e]; cbn [f_session starts quiet with_spawn f_spawn] in *.
  - by destruct H.
  - by destruct H.
  - subst. by apply grow_same.
Qed.

Lemma prepare_commit_ops b ch s : ops_same s (prepare_commit b ch s).1.
Proof. unfold prepare_commit. run_monad; done. Qed.
Lemma prepare_begin_ops s : ops_same s (prepare_begin s).1.
Proof. unfold prepare_begin. run_monad; done. Qed.
Lemma authorize_commit_ops x t s : ops_same s (authorize_commit x t s).1.
Proof. unfold authorize_commit. run_monad; done. Qed.
Lemma acquire_begin_ops x t s : ops_same s (acquire_begin x t s).1.
Proof. unfold acquire_begin. run_monad; done. Qed.
Lemma acquire_commit_ops s : ops_same s (acquire_commit s).1.
Proof. unfold acquire_commit. run_monad; done. Qed.
Lemma release_begin_ops w s : ops_same s (release_begin w s).1.
Proof. unfold release_begin. run_monad; done. Qed.
Lemma execute_begin_ops s : ops_same s (host_execute_begin s).1.
Proof. unfold host_execute_begin. run_monad; done. Qed.
Lemma agent_start_ops e i l s : ops_same s (agent_start_commit e i l s).1.
Proof. unfold agent_start_commit. run_monad; done. Qed.
Lemma host_begin_ops s : ops_same s (host_begin s).1.
Proof. unfold host_begin. repeat case_match; done. Qed.
Lemma host_event_ops s : ops_same s (_host_event s).1.
Proof. unfold _host_event. repeat case_match; done. Qed.
Lemma closed_event_ops s : ops_same s (_session_closed_event s).1.
Proof. unfold _session_closed_event. by case_match. Qed.
Lemma worker_phase_ops n s : ops_same s (worker_phase n s).1.
Proof. unfold worker_phase. by case_match. Qed.
Lemma agent_cancel_ops args reason s :
  ops_same s ((let* _ := reading (fun s => run_of s args) in emodify (_cancel_host_locked reason))%eff s).1.
Proof. open_monad. destruct (run_of s args); [apply cancel_host_ops|done]. Qed.

Create HintDb sections.
#[local] Hint Resolve adopt_ops cancel_host_ops terminal_host_ops submit_begin_ops submit_commit_ops submit_failed_ops prepare_commit_ops
  prepare_begin_ops authorize_commit_ops acquire_begin_ops acquire_commit_ops release_begin_ops execute_begin_ops agent_start_ops
  host_begin_ops host_event_ops closed_event_ops worker_phase_ops agent_cancel_ops : sections.

(** Every section but a settlement keeps what is pending, except for the
    operation it starts. *)
Lemma exec_grow srv cl tok sid i a s f :
  exec_session srv cl tok sid i a s = Some f -> ops_ok s ->
  match i with
  | ISettle op x => f_session f = settle op x s /\ f_next f = Continue [] /\ started f = []
  | _ => ops_grow s (f_session f) (starts f)
  end.
Proof.
  intros H Hok. open_section H; try done.
  all: try apply cleanup_operation_grow; try apply evict_grow; try done.
  all: rewrite ?(proj1 (with_token_fields _)), ?(proj1 (proj2 (with_token_fields _))), ?sect_session, ?sect_starts, ?pure_sect_session, ?pure_sect_starts.
  all: try (apply finish_event_grow; done).
  all: try (apply grow_same; [done|]; solve [eauto with sections | done]).
  all: try (unfold update; cbn [f_session starts quiet f_spawn]; apply grow_same; [done|]; eauto with sections).
  - unfold ebind, emodify, eret. destruct (_new_operation true s) as [s' [op|e]] eqn:E; pose proof (new_operation_grow _ _ _ _ Hok E) as Hg; cbn in *;
      [eapply grow_trans_same; [exact Hg|done]|subst; by apply grow_same].
  - destruct (_new_operation true s) as [s' [op|e]] eqn:E; pose proof (new_operation_grow _ _ _ _ Hok E) as Hg; cbn in *;
      [done|subst; by apply grow_same].
  - unfold ops_same. case_match; done.
  - pose proof (agent_start_ops (cl || late) tok limits s) as Hg. destruct (agent_start_commit _ _ _ s) as [s' [x|e]]; by apply grow_same.
  - destruct (if bool_decide _ then _ else _) in H. apply (inj Some) in H as <-. by apply grow_same.
  - destruct (cleanup_joined s) in H. apply (inj Some) in H as <-. by apply grow_same.
  - pose proof (host_event_ops s) as Hg. destruct (_host_event s) as [s' e]. apply (inj Some) in H as <-. by apply grow_same.
  - destruct (extend _ _) in H; apply (inj Some) in H as <-; by apply grow_same.
  - pose proof (submit_commit_ops s) as Hg. destruct (host_submit_commit s) as [s' [x|e]]; by apply grow_same.
Qed.

(** ** Every operation is settled once *)
Definition works (op : Z) (i : instr) : bool := bool_decide (work_op i = Some op).
Definition any_work (i : instr) : bool := bool_decide (is_Some (work_op i)).
Definition settles (op : Z) (i : instr) : bool := match i with ISettle op' _ => bool_decide (op' = op) | _ => false end.
(** The threads that will settle an operation. *)
Definition owed (op : Z) (ths : list (role * list instr)) : nat := tally (works op) ths.

Lemma works_any op i : works op i = true -> any_work i = true.
Proof. unfold works, any_work. rewrite !bool_decide_eq_true. intros ->. done. Qed.

(** Only operation threads hold work, and only for their own operation. *)
Lemma fits_no_work r prog : (forall op b, r <> OpThread op b) -> forallb (fits r) prog = true -> count any_work prog = 0.
Proof.
  intros Hr H. apply count_zero. revert H. rewrite !forallb_forall. intros H i Hi. specialize (H i Hi).
  destruct r; [by edestruct Hr|..]; by destruct i.
Qed.

Lemma no_work prog op : count any_work prog = 0 -> count (works op) prog = 0.
Proof. pose proof (count_le (works op) any_work prog (works_any op)). lia. Qed.

(** What a section leaves to a thread: as much work as it had. *)
Lemma exec_debt srv cl tok sid r i a s f :
  exec_session srv cl tok sid i a s = Some f -> srv = false -> fits r i = true ->
  match f_next f with
  | Continue more => (forall op, count (works op) more + b2n (settles op i) = b2n (works op i)) /\ count any_work more <= b2n (any_work i)
  | Raise _ => match r with OpThread op _ => work_op i = Some op /\ forall op', settles op' i = false | _ => True end
  | _ => match r with OpThread _ _ => False | _ => True end
  end.
Proof.
  intros H -> Hi. open_section H; destruct r; try discriminate Hi.
  all: cbn in Hi; bool_hyps; open_effect; try done; unfold works, any_work, settles, b2n; cbn; subst;
    (split; [try intros ?|try done]); unfold b2n; repeat case_bool_decide; simplify_eq; try done; lia.
Qed.

Lemma on_raise_debt op b e op' : count (works op') (on_raise (OpThread op b) e) = b2n (bool_decide (Some op = Some op')).
Proof. unfold works. destruct b; cbn; rewrite !(bool_decide_eq_false_2 (None = Some op')) by done; unfold b2n; case_bool_decide; lia. Qed.

(** A step of a thread keeps what it owes, apart from a settlement. *)
Lemma thread_debt cl tok sid r i rest a s f :
  exec_session false cl tok sid i a s = Some f -> forallb (fits r) (i :: rest) = true -> count any_work (i :: rest) <= 1 ->
  let prog := thread_next r (f_next f) rest in
  count any_work prog <= 1 /\ forall op, count (works op) prog + b2n (settles op i) = count (works op) (i :: rest).
Proof.
  intros H Hfit Hone prog. pose proof Hfit as [Hi Hrest]%andb_true_iff. pose proof (exec_debt _ _ _ _ r _ _ _ _ H eq_refl Hi) as Hd.
  pose proof (exec_session_instrs _ _ _ _ _ _ _ _ _ _ H) as (_ & _ & _ & _ & Hent & _).
  assert ((forall op b, r <> OpThread op b) -> forallb (fits r) prog = true ->
    count any_work prog <= 1 /\ forall op, count (works op) prog + b2n (settles op i) = count (works op) (i :: rest)) as Hother.
  { intros Hr Hp. pose proof (fits_no_work r _ Hr Hp) as Hz. pose proof (fits_no_work r _ Hr Hfit) as Hz'. split; [lia|]. intros op.
    rewrite (no_work _ op Hz), (no_work _ op Hz'). by destruct i. }
  unfold prog in *. rewrite count_cons in Hone. destruct (f_next f) as [more|id more|v|v|e] eqn:En; cbn [controller.thread_next] in *.
  - destruct Hd as [H1 H2]. rewrite count_app. split; [lia|]. intros op. specialize (H1 op). rewrite count_app, count_cons. lia.
  - by edestruct Hent.
  - destruct r; [done| | |]; by apply Hother.
  - destruct r; [done| | |]; by apply Hother.
  - destruct r as [op b| | |]; try (by apply Hother). destruct Hd as [Hw Hs].
    assert (count any_work rest = 0) as Hz by (unfold any_work at 1 in Hone; rewrite Hw, bool_decide_eq_true_2 in Hone by done; cbn [b2n] in Hone; lia).
    split; [destruct b; cbn; lia|]. intros op'. rewrite count_cons, Hs, (no_work _ op' Hz). unfold works at 2. rewrite Hw.
    rewrite on_raise_debt. cbn [b2n]. lia.
Qed.

(** The operation whose thread a section starts. *)
Lemma started_debt srv cl tok sid i a s f :
  exec_session srv cl tok sid i a s = Some f ->
  Forall (fun t => count any_work t.2 <= 1) (started f) /\
  forall op, owed op (started f) = b2n (bool_decide (starts f = Some op)).
Proof.
  intros H. open_section H; open_effect; (split; [try (by constructor); (constructor; [cbn; lia|by constructor])|]); intros op'; unfold owed, works, tally, count; cbn;
    rewrite ?(bool_decide_eq_false_2 (None = Some op')) by done; unfold b2n; cbn; lia.
Qed.

(** Every pending operation has one thread that will settle it, every settled
    one has none. *)
Record accounted (l : local) : Prop := Accounted {
  a_programs : programs l;
  a_ops : ops_ok (l_state l);
  a_one : Forall (fun t => count any_work t.2 <= 1) (l_threads l);
  a_owed : forall op, owed op (l_threads l) = pend op (l_state l) }.

Lemma accounted_fresh l : fresh_local l -> accounted l.
Proof.
  intros Hf. pose proof (programs_fresh _ Hf) as Hp. destruct Hf as ((i & p & E & _) & _ & Ht & _).
  assert (Forall (fun t => count any_work t.2 = 0) (l_threads l)) as Hz.
  { eapply list.Forall_impl; [exact Ht|]. intros t [Hr Hfit]. eapply fits_no_work; [|exact Hfit]. by rewrite Hr. }
  split; [done|rewrite E; constructor; cbn; try done; by intros op ?%elem_of_nil|eapply list.Forall_impl; [exact Hz|]; intros; cbn in *; lia|].
  intros op. rewrite E. unfold owed. rewrite tally_zero; [done|]. eapply list.Forall_impl; [exact Hz|]. intros t. apply no_work.
Qed.

(** The effect of a section on the accounts. *)
Lemma exec_accounts srv cl tok sid i a s f :
  exec_session srv cl tok sid i a s = Some f -> ops_ok s -> (forall op, settles op i = true -> pend op s = 1) ->
  ops_ok (f_session f) /\ forall op, pend op (f_session f) + b2n (settles op i) = pend op s + owed op (started f).
Proof.
  intros H Hok Hone. pose proof (exec_grow _ _ _ _ _ _ _ _ H Hok) as Hg. destruct (started_debt _ _ _ _ _ _ _ _ H) as [_ Hd].
  assert (ops_grow s (f_session f) (starts f) -> (forall op, settles op i = false) -> ops_ok (f_session f) /\
    forall op, pend op (f_session f) + b2n (settles op i) = pend op s + owed op (started f)) as Hmost.
  { intros (G1 & G2 & _) Hs. split; [done|]. intros op. rewrite Hs, Hd, G2. cbn. case_bool_decide; case_decide; cbn; try done; lia. }
  destruct i; try (by apply Hmost). destruct Hg as (-> & _ & Hs0). cbn in Hone.
  specialize (Hone op (bool_decide_eq_true_2 _ eq_refl)). destruct (settle_grow op x s Hok Hone) as (G1 & _ & G2). split; [done|].
  intros op'. rewrite G2, Hs0. cbn. case_bool_decide; case_decide; subst; try done; cbn; lia.
Qed.
(** A section that settles nothing, next to threads that go on as they are. *)
Lemma accounted_section srv cl tok sid i a s f ths ths' server ev en :
  exec_session srv cl tok sid i a s = Some f -> (forall op, settles op i = false) -> ths' ≡ₚ started f ++ ths ->
  ops_ok s -> Forall (fun t => count any_work t.2 <= 1) ths -> (forall op, owed op ths = pend op s) ->
  programs (Local (f_session f) server ths' ev en) -> accounted (Local (f_session f) server ths' ev en).
Proof.
  intros Hf Hset Hp Hok Hone Howed Hp'. destruct (started_debt _ _ _ _ _ _ _ _ Hf) as [Hs _].
  destruct (exec_accounts _ _ _ _ _ _ _ _ Hf Hok) as [Hok' Hpend]; [by intros op; rewrite Hset|].
  constructor; cbn [l_state l_threads]; [done|done|rewrite Hp; by apply Forall_app|]. intros op. specialize (Hpend op).
  unfold owed in *. rewrite (tally_perm _ _ _ Hp), tally_app. rewrite Hset in Hpend. cbn [b2n] in Hpend. rewrite Howed. lia.
Qed.

Lemma accounted_replace l ths : accounted l -> programs (Local (l_state l) (l_server l) ths (l_events l) (l_entries l)) ->
  Forall (fun t => count any_work t.2 <= 1) ths -> (forall op, owed op ths = owed op (l_threads l)) ->
  accounted (Local (l_state l) (l_server l) ths (l_events l) (l_entries l)).
Proof. intros [_ Hok _ Howed] Hp Hone Hsame. constructor; try done. intros op. by rewrite Hsame. Qed.

(** A thread of no operation goes on. *)
Lemma accounted_idle r prog prog' l ths ths1 :
  accounted l -> l_threads l ≡ₚ (r, prog) :: ths1 -> ths ≡ₚ (r, prog') :: ths1 ->
  programs (Local (l_state l) (l_server l) ths (l_events l) (l_entries l)) -> (match r with OpThread _ _ => False | _ => True end) ->
  accounted (Local (l_state l) (l_server l) ths (l_events l) (l_entries l)).
Proof.
  intros Hacc H1 H2 Hp Hr. pose proof Hacc as [[Hfit _] _ Hone _]. pose proof Hp as [Hfit' _]. cbn [l_threads] in Hfit'.
  rewrite H1 in Hfit, Hone. rewrite H2 in Hfit'. apply list.Forall_cons in Hfit as [Hfit _], Hfit' as [Hfit' _], Hone as [_ Hone].
  assert (forall op b, r <> OpThread op b) as Hr' by (intros op b ->; done).
  apply (fits_no_work _ _ Hr') in Hfit, Hfit'. cbn [snd] in Hfit, Hfit'. apply (accounted_replace _ _ Hacc Hp); [rewrite H2; constructor; [cbn [snd]; lia|done]|].
  intros op. unfold owed. rewrite (tally_perm _ _ _ H1), (tally_perm _ _ _ H2), !tally_cons. cbn [snd].
  by rewrite (no_work _ op Hfit), (no_work _ op Hfit').
Qed.

Lemma accounted_step sid l l' : accounted l -> lstep sid l l' -> accounted l'.
Proof.
  intros Hacc H. pose proof Hacc as [Hp Hok Hone Howed]. pose proof (programs_step _ _ _ Hp H) as Hp'. destruct Hp as [Hfit Hsrv].
  lstep_cases H; cbn [l_state l_threads l_server] in *; try (by constructor).
  - eapply accounted_section; try done. intros op. apply andb_true_iff in Hsrv as [Hi _]. by destruct i.
  - by eapply accounted_section.
  - rewrite Hp1 in Hfit, Hone. apply list.Forall_cons in Hfit as [Hfit _], Hone as [Hone Hones]. cbn [fst snd] in Hfit, Hone.
    destruct (thread_debt _ _ _ _ _ _ _ _ _ Hf Hfit Hone) as [Hone' Hdebt]. destruct (started_debt _ _ _ _ _ _ _ _ Hf) as [Hs _].
    assert (forall op, owed op ths = count (works op) (i :: rest) + owed op ths1) as Hsum
      by (intros op; unfold owed; by rewrite (tally_perm _ _ _ Hp1), tally_cons).
    destruct (exec_accounts _ _ _ _ _ _ _ _ Hf Hok) as [Hok' Hpend].
    { intros op Hset. specialize (Howed op). rewrite Hsum in Howed. specialize (Hdebt op). rewrite Hset in Hdebt. cbn [b2n] in Hdebt.
      assert (pend op s <= 1) by (unfold pend; repeat case_match; lia). lia. }
    constructor; cbn [l_state l_threads]; [done|done|rewrite Hp2; constructor; [done|by apply Forall_app]|]. intros op.
    specialize (Hpend op). specialize (Hdebt op). specialize (Howed op). rewrite Hsum in Howed. unfold owed in *.
    rewrite (tally_perm _ _ _ Hp2), tally_cons, tally_app. cbn [snd]. lia.
  - eapply (accounted_idle r (i :: rest) _ _ _ _ Hacc); [exact Hp1|exact Hp2|done|]. rewrite Hp1 in Hfit. apply list.Forall_cons in Hfit as [Hfit _].
    destruct r; try done. apply andb_true_iff in Hfit as [Hi _]. by destruct i.
  - eapply (accounted_idle r (IReply v :: rest) _ _ _ _ Hacc); [exact Hp1|exact Hp2|done|]. rewrite Hp1 in Hfit.
    apply list.Forall_cons in Hfit as [Hfit _]. by destruct r.
  - destruct Hp' as [Hfit' Hsrv']. pose proof Hfit' as Hfit2. cbn [l_threads] in Hfit2. rewrite Hp in Hfit2. apply list.Forall_cons in Hfit2 as [Hfit2 _].
    assert (count any_work (code (callback_thread sid b)).2 = 0) as Hz by (eapply fits_no_work; [|exact Hfit2]; by destruct b).
    apply (accounted_replace _ _ Hacc); [done|rewrite Hp; constructor; [lia|done]|]. intros op. unfold owed.
    by rewrite (tally_perm _ _ _ Hp), tally_cons, (no_work _ op Hz).
  - assert (ops_same s (_launch_guard owner0 w a s).1) as Hsame by (unfold _launch_guard; destruct (_ || _); done).
    constructor; cbn [l_state l_threads]; [done|by eapply ops_same_ok|done|]. intros op. by rewrite (ops_same_pend op _ _ Hsame).
  - apply (accounted_replace _ _ Hacc); [done|by rewrite Hp|]. intros op. unfold owed. by rewrite (tally_perm _ _ _ Hp).
Qed.

Lemma reachable_accounted c sid s : reachable c -> aget sid (sessions c) = Some s -> accounted (project sid c s).
Proof. apply (local_invariant (fun _ => accounted)); [intros _; apply accounted_fresh|apply accounted_step]. Qed.

(** A settled operation keeps its result. *)
Lemma settled_kept sid l l' op o y :
  accounted l -> lstep sid l l' -> aget op (op_objects (l_state l)) = Some o -> op_state o = Some y ->
  exists o', aget op (op_objects (l_state l')) = Some o' /\ op_state o' = Some y.
Proof.
  intros [[Hfit Hsrv] Hok _ Howed] H Ho Hy. assert (pend op (l_state l) = 0) as Hz by (unfold pend, pending; by rewrite Ho, Hy).
  assert (forall srv cl tok i a f, exec_session srv cl tok sid i a (l_state l) = Some f -> settles op i = false ->
    exists o', aget op (op_objects (f_session f)) = Some o' /\ op_state o' = Some y) as Hsec.
  { intros srv cl tok i a f Hf Hset. pose proof (exec_grow _ _ _ _ _ _ _ _ Hf Hok) as Hg.
    assert (ops_grow (l_state l) (f_session f) (starts f) -> exists o', aget op (op_objects (f_session f)) = Some o' /\ op_state o' = Some y) as Hmost.
    { intros (_ & _ & _ & _ & Hk). destruct (Hk _ _ Ho) as (o' & ? & E). exists o'. by rewrite E. }
    destruct i; try (by apply Hmost). destruct Hg as (-> & _). cbn in Hset. apply bool_decide_eq_false in Hset. exists o. split; [|done].
    unfold settle. assert (aget op (op_objects (on_op op0 (set_state x) (l_state l))) = Some o) as E by (cbn; by rewrite aget_aupdate, decide_False).
    by case_match. }
  lstep_cases H; cbn [l_state l_server l_threads] in *; try (by eauto).
  - eapply Hsec; [done|]. apply andb_true_iff in Hsrv as [Hi _]. by destruct i.
  - eapply Hsec; [done|]. destruct (settles op i) eqn:E; [|done]. specialize (Howed op). unfold owed in Howed.
    rewrite (tally_perm _ _ _ Hp1), tally_cons, Hz in Howed. cbn [snd] in Howed. rewrite count_cons in Howed. destruct i; try done. cbn in E.
    apply bool_decide_eq_true in E as ->. unfold works at 1 in Howed. cbn in Howed. by rewrite bool_decide_eq_true_2 in Howed.
  - exists o. split; [|done]. unfold _launch_guard. by destruct (_ || _).
Qed.

(** C3: whatever the interleaving of requests, threads, callbacks and backend
    answers, an operation is settled exactly once: as long as it is pending
    exactly one thread holds the section that will settle it, once it has a
    result none does, and no later step changes the result. *)
Theorem operation_settled_once x c c' sid s op :
  reachable c -> step x c = Some c' -> aget sid (sessions c) = Some s ->
  owed op (threads_of sid c) = pend op s /\
  forall o r, aget op (op_objects s) = Some o -> op_state o = Some r ->
    exists s' o', aget sid (sessions c') = Some s' /\ aget op (op_objects s') = Some o' /\ op_state o' = Some r.
Proof.
  intros Hr Hx Hs. pose proof (reachable_accounted _ _ _ Hr Hs) as Hacc. split; [apply (a_owed _ Hacc)|]. intros o r Ho Hres.
  destruct (step_sound _ _ _ _ _ _ _ _ _ (reachable_sane _ Hr) Hx) as (_ & Hadv & _). destruct (Hadv _ _ Hs) as (s' & Hs' & Hl).
  destruct (settled_kept _ _ _ op o r Hacc Hl) as (o' & ? & ?); [done..|]. by exists s', o'.
Qed.
End Laws.

(** The concrete histories are reachable. *)
#[local] Abbreviation reached := (reachable 100 128 demo.tok demo.message (fun b => b) (str "instance")).
#[local] Abbreviation moves := (controller.step 100 128 demo.tok demo.message (fun b => b) (str "instance")).

Lemma play_reachable schedule : reached (demo.play schedule initial).
Proof. apply run_reachable, reach_initial. Qed.

Definition before_settling : ctl := demo.play (demo.opening demo.prebuilt ++ demo.preparing) initial.
Definition after_settling : ctl := demo.play demo.settling before_settling.

Lemma after_settling_reached : reached after_settling.
Proof. unfold after_settling, demo.play. apply run_reachable, play_reachable. Qed.

Lemma after_settling_moves :
  is_Some (moves (Schedule 0 ANone) after_settling) /\ is_Some (aget demo.sid (sessions after_settling)) /\
  owed 1 (threads_of demo.sid before_settling) = 1 /\ owed 1 (threads_of demo.sid after_settling) = 0.
Proof. vm_compute. split_and!; eauto. Qed.

Lemma operation_settled_once_witness :
  owed 1 (threads_of demo.sid before_settling) = 1 /\
  exists s, aget demo.sid (sessions after_settling) = Some s /\ pend 1 s = 0.
Proof.
  destruct after_settling_moves as ([c' E] & [s Es] & H1 & H2). split; [exact H1|]. exists s. split; [exact Es|].
  destruct (operation_settled_once _ _ _ _ _ _ _ _ _ _ s 1 after_settling_reached E Es) as [H _]. rewrite <- H. exact H2.
Defined.
End laws.
