(* ===== verification/SessionPhases.v ===== *)
(** * The phases of a session

    The order in which a session of [orchestration.py] moves through its
    phases under every interleaving, that its ends are final, that cleanup
    happens once, and what must have happened before a worker is launched. *)

From Stdlib Require Import ZArith Lia.
From stdpp Require Import base list gmap strings numbers.
From S2P Require Import Prelude PyJson JsonText Protocol ControlProtocol ControlProtocolV2 Canonical Effects Session Orchestration Lifecycle Demo SessionLaws.

Module phases.
Import v1 v2 session controller lifecycle laws.

(** ** The graph of phases *)
Definition edge (p q : phase_t) : bool :=
  match p, q with
  | (session.Open | Authoring | Submitted), Preparing | Authoring, Submitted | Preparing, session.Prepared
  | session.Prepared, Authorized | Authorized, Reserved | Reserved, Starting | Starting, Running
  | Closing, (session.Closed | CleanupFailed) => true
  | p, Closing => negb (ending p)
  | _, _ => false
  end.

Definition over (run : hosted_run_t) : bool := bool_decide (run_phase run = RFinished).

(** A managed run that has not ended, and the phases it may be in. *)
Definition unfinished (s : session_t) : bool := match hosted_run s with Some run => negb (over run) | None => false end.
Definition live (p : phase_t) : bool := match p with Authoring | Submitted | Closing | session.Closed | CleanupFailed => true | _ => false end.

(** A run that has ended has its outcome. *)
Definition run_fine (run : hosted_run_t) : Prop := over run = true -> is_Some (outcome run).
Definition runs_fine (s : session_t) : Prop := forall run, hosted_run s = Some run -> run_fine run.

Record phase_inv (s : session_t) : Prop := PhaseInv {
  pi_cleanup : is_Some (cleanup_operation s) -> ending (phase s) = true;
  pi_ended : ended (phase s) = true -> is_Some (cleanup_operation s);
  pi_run : unfinished s = true -> live (phase s) = true;
  pi_fine : runs_fine s }.

(** A run is cancelled for good, ends for good, and ends here only if [b]. *)
Definition run_step (b : bool) (run run' : hosted_run_t) : Prop :=
  (cancel run = true -> cancel run' = true) /\ (over run = true -> over run' = true) /\ (b = false -> over run' = true -> over run = true).
Definition run_kept (b : bool) (s s' : session_t) : Prop :=
  match hosted_run s, hosted_run s' with
  | Some run, Some run' => run_step b run run'
  | None, None => True
  | _, _ => False
  end.

(** What a section outside cleanup may do; one that may end the run if [b]. *)
Record follows (b : bool) (s s' : session_t) : Prop := Follows {
  fo_info : info s' = info s;
  fo_cleanup : cleanup_operation s' = cleanup_operation s;
  fo_report : cleanup s' = cleanup s;
  fo_phase : phase s' = phase s \/ edge (phase s) (phase s') = true /\ ended (phase s') = false;
  fo_authorized : phase s' = Authorized -> phase s = Authorized;
  fo_prepared : prepared s' = prepared s \/ phase s = Preparing;
  fo_run : unfinished s' = true -> live (phase s') = true;
  fo_fine : runs_fine s';
  fo_kept : run_kept b s s' }.

(** A section that leaves the phase alone. *)
Record calm (s s' : session_t) : Prop := Calm {
  ca_info : info s' = info s;
  ca_cleanup : cleanup_operation s' = cleanup_operation s;
  ca_report : cleanup s' = cleanup s;
  ca_phase : phase s' = phase s;
  ca_prepared : prepared s' = prepared s;
  ca_run : runs_fine s -> runs_fine s' /\ run_kept false s s' }.

Lemma run_step_refl b run : run_step b run run.
Proof. done. Qed.
Lemma run_kept_refl b s s' : hosted_run s' = hosted_run s -> run_kept b s s'.
Proof. unfold run_kept. intros ->. by destruct (hosted_run s). Qed.
Lemma run_kept_weaken b s s' : run_kept false s s' -> run_kept b s s'.
Proof. unfold run_kept, run_step. destruct (hosted_run s), (hosted_run s'); try done. intros (H1 & H2 & H3). auto. Qed.
Lemma run_step_trans b r1 r2 r3 : run_step b r1 r2 -> run_step false r2 r3 -> run_step b r1 r3.
Proof. intros (H1 & H2 & H3) (K1 & K2 & K3). split_and!; auto. Qed.
Lemma run_kept_trans b s1 s2 s3 : run_kept b s1 s2 -> run_kept false s2 s3 -> run_kept b s1 s3.
Proof.
  unfold run_kept. destruct (hosted_run s1), (hosted_run s2), (hosted_run s3); try done; apply run_step_trans.
Qed.

Lemma kept_unfinished s s' : run_kept false s s' -> unfinished s' = true -> unfinished s = true.
Proof.
  unfold run_kept, run_step, unfinished. destruct (hosted_run s) as [run|], (hosted_run s') as [run'|]; try done.
  intros (_ & H & _) H1. destruct (over run); [|done]. by rewrite H in H1.
Qed.

Lemma calm_same s s' :
  info s' = info s -> cleanup_operation s' = cleanup_operation s -> cleanup s' = cleanup s -> phase s' = phase s ->
  prepared s' = prepared s -> hosted_run s' = hosted_run s -> calm s s'.
Proof. intros. constructor; try done. intros Hf. split; [intros run Hr; apply Hf; by congruence|by apply run_kept_refl]. Qed.
Lemma calm_refl s : calm s s.
Proof. by apply calm_same. Qed.

Lemma calm_follows b s s' : phase_inv s -> calm s s' -> follows b s s'.
Proof.
  intros [_ _ Hr Hf] [H1 H2 HR H3 H4 H5]. destruct (H5 Hf) as (H6 & H7). constructor; try done; [by left|by rewrite H3|by left| |by apply run_kept_weaken].
  rewrite H3. intros Hu. apply Hr. by eapply kept_unfinished.
Qed.

Lemma follows_inv b s s' : phase_inv s -> follows b s s' -> phase_inv s'.
Proof.
  intros [I1 I2 I3 I4] [H1 H2 HR H3 HA H4 H5 H6 _]. constructor; rewrite ?H2; try done.
  - intros Hc%I1. destruct H3 as [->|[He Hn]]; [done|]. by destruct (phase s), (phase s').
  - destruct H3 as [->|[He Hn]]; [done|]. by rewrite Hn.
Qed.

Lemma follows_refl b s : phase_inv s -> follows b s s.
Proof. intros H. by apply calm_follows, calm_refl. Qed.

Lemma calm_trans b s1 s2 s3 : follows b s1 s2 -> calm s2 s3 -> follows b s1 s3.
Proof.
  intros [H1 H2 HR H3 HA H4 H5 H6 H7] [K1 K2 KR K3 K4 K5]. destruct (K5 H6) as (L1 & L2). constructor; rewrite ?K1, ?K2, ?KR, ?K3, ?K4; auto.
  - intros Hu. apply H5. by eapply kept_unfinished.
  - by eapply run_kept_trans.
Qed.

(** *** Managed runs *)
Definition run_change (b : bool) (g : hosted_run_t -> hosted_run_t) : Prop := forall run, run_fine run -> run_fine (g run) /\ run_step b run (g run).

Lemma on_run_calm g s : run_change false g -> calm s (on_run g s).
Proof.
  intros Hg. constructor; try done. unfold runs_fine, run_kept, on_run. cbn. intros Hf. destruct (hosted_run s) as [run|]; cbn; [|done].
  destruct (Hg run) as [H1 H2]; [by apply Hf|]. split; [by intros run' [= <-]|done].
Qed.

Lemma change_fine g :
  (forall run, outcome (g run) = outcome run /\ run_phase (g run) = run_phase run /\ (cancel run = true -> cancel (g run) = true)) -> run_change false g.
Proof.
  intros H run Hf. destruct (H run) as (H1 & H2 & H3). unfold run_fine, run_step, over in *. rewrite H1, H2. done.
Qed.

Lemma adopt_follows b s : phase_inv s -> follows b s (_adopt_submission_locked s).
Proof.
  intros Hi. pose proof Hi as [_ _ Hr Hfine]. unfold _adopt_submission_locked. destruct (hosted_run s) as [run|] eqn:E; [|by apply follows_refl].
  destruct (backend_submission s) as [sub|]; [|by apply follows_refl]. case_bool_decide as Hf; [by apply follows_refl|].
  assert (live (phase s) = true) as Hl by (apply Hr; unfold unfinished, over; rewrite E; by rewrite bool_decide_eq_false_2).
  assert (run_kept b s (set_hosted_run (Some (set_run_phase RCleaning run)) s)) as Hk.
  { unfold run_kept, run_step, over. rewrite E. cbn. by rewrite (bool_decide_eq_false_2 (run_phase run = RFinished)). }
  cbn. destruct (ending (phase s)) eqn:He; constructor; cbn; try done; try (by left); try (by intros r [= <-]); try exact Hk.
  by destruct (phase s); cbn in *; try done; [right|left].
Qed.

Lemma cancel_host_follows reason s : phase_inv s -> follows false s (_cancel_host_locked reason s).
Proof.
  intros Hi. unfold _cancel_host_locked. destruct (hosted_run s); [|by apply follows_refl]. case_bool_decide; [by apply follows_refl|].
  eapply calm_trans; [by apply adopt_follows|]. apply on_run_calm, change_fine. intros run. by destruct (cancel_reason run).
Qed.

Lemma terminal_host_follows r s : phase_inv s -> follows true s (_terminal_host r s).1.
Proof.
  intros Hi. unfold _terminal_host. destruct (hosted_run s) as [run|] eqn:E; [|by apply follows_refl]. case_bool_decide as Hf; [by apply follows_refl|].
  cbn [fst]. destruct (adopt_follows true s Hi) as [H1 H2 HR H3 HA H4 H5 H6 H7]. set (s1 := _adopt_submission_locked s) in *.
  assert (forall run, run_fine run -> run_fine (finish_run r run) /\ run_step true run (finish_run r run) /\ over (finish_run r run) = true) as Hg.
  { intros run0 Hrun. unfold finish_run, run_fine, run_step. destruct (outcome run0) eqn:Eo; [|destruct (terminal_outcome run0 _)]; split_and!; try done; cbn; rewrite ?Eo; by eauto. }
  unfold run_kept, runs_fine in H7, H6. rewrite E in H7. destruct (hosted_run s1) as [run1|] eqn:E1; [|done].
  destruct (Hg run1) as (G1 & G2 & G3); [by apply H6|].
  set (s2 := set_host_cleanup_complete _ _). assert (hosted_run s2 = Some (finish_run r run1)) as E2 by (cbn; by rewrite E1).
  set (run2 := finish_run r run1) in *. clearbody run2. constructor; try done.
  - unfold unfinished. by rewrite E2, G3.
  - intros run'. rewrite E2. by intros [= <-].
  - unfold run_kept. rewrite E, E2. destruct H7 as (K1 & K2 & _), G2 as (L1 & L2 & _). split_and!; auto. done.
Qed.

Lemma submit_begin_follows s : phase_inv s -> follows false s (host_submit_begin s).1.
Proof.
  intros Hi. pose proof (adopt_follows false s Hi) as Ha. unfold host_submit_begin. open_monad. destruct (hosted_run _) as [run|] eqn:E; [|done].
  destruct (run_submission run); [done|]. destruct (_ || _) eqn:Hg; [done|]. cbn. eapply calm_trans; [exact Ha|].
  apply orb_false_iff in Hg as [Hg _]. apply orb_false_iff in Hg as [Hg _]. apply negb_false_iff, bool_decide_eq_true in Hg.
  constructor; try done. unfold runs_fine, run_kept, on_run. cbn. rewrite E. cbn. intros _. unfold run_step, over. cbn. split_and!; try done.
  - intros r [= <-]. done.
  - rewrite bool_decide_eq_true. intros E2. rewrite E2 in Hg. set_solver.
Qed.

Lemma submit_commit_follows s : phase_inv s -> follows false s (host_submit_commit s).1.
Proof.
  intros Hi. pose proof (adopt_follows false s Hi) as Ha. unfold host_submit_commit. open_monad. destruct (match hosted_run _ with Some _ => _ | None => _ end); [done|].
  eapply calm_trans; [exact Ha|]. by apply on_run_calm, change_fine.
Qed.

Lemma submit_failed_follows b s : phase_inv s -> follows false s (host_submit_failed b s).
Proof.
  intros Hi. unfold host_submit_failed. eapply calm_trans; [by apply adopt_follows|]. apply on_run_calm. intros run Hrun. unfold run_fine, run_step, over in *.
  destruct (outcome run) eqn:Eo; [split; cbn; [rewrite Eo; done|done]|].
  assert (bool_decide (run_phase run = RFinished) = false) as Hn.
  { destruct (bool_decide _) eqn:E; [|done]. by destruct (Hrun eq_refl). }
  destruct b; [|destruct (cancel run)]; cbn; rewrite ?Hn; done.
Qed.

(** *** The other sections *)
Lemma new_operation_calm b s : calm s (_new_operation b s).1.
Proof. unfold _new_operation. run_monad; by apply calm_same. Qed.

Lemma authoring_start_calm s :
  calm s ((let* op := _new_operation true in emodify (fun s => set_resources (add_authoring 1 (resources s)) s) ;;* eret op)%eff s).1.
Proof.
  unfold ebind, emodify, eret. pose proof (new_operation_calm true s) as H. destruct (_new_operation true s) as [s' [op|e]]; [|done].
  by destruct H.
Qed.

Lemma settle_calm op x s : calm s (settle op x s).
Proof. unfold settle. case_bool_decide; by apply calm_same. Qed.

Lemma finish_event_calm op s : calm s (_finish_event op s).1.
Proof. unfold _finish_event. repeat case_match; by apply calm_same. Qed.

Lemma closed_event_calm s : calm s (_session_closed_event s).1.
Proof. unfold _session_closed_event. case_match; by apply calm_same. Qed.

Lemma execute_begin_calm s : calm s (host_execute_begin s).1.
Proof.
  unfold host_execute_begin. open_monad. destruct (hosted_run s) eqn:E; [|by apply calm_same]. destruct (_ || _); [by apply calm_same|]. cbn.
  destruct (on_run_calm (set_tool_cancel false) (set_active_ordinary (Some (-1)%Z) s)); [by apply change_fine|]. by constructor.
Qed.

Lemma host_event_calm s : calm s (_host_event s).1.
Proof.
  unfold _host_event. destruct (hosted_run s) as [run|] eqn:E; [|by apply calm_same]. repeat case_match; try (by apply calm_same); cbn.
  by apply on_run_calm, change_fine.
Qed.

Lemma host_done_calm s : calm s (on_run (set_done true) s).
Proof. by apply on_run_calm, change_fine. Qed.
Lemma tool_cancel_calm s : calm s (on_run (set_tool_cancel true) s).
Proof. by apply on_run_calm, change_fine. Qed.

(** A managed run is accepted. *)
Record hosts_run (s s' : session_t) : Prop := HostsRun {
  hr_info : info s' = info s;
  hr_cleanup : cleanup_operation s' = cleanup_operation s;
  hr_report : cleanup s' = cleanup s;
  hr_phase : phase s' = phase s;
  hr_prepared : prepared s' = prepared s;
  hr_before : hosted_run s = None;
  hr_after : exists run, hosted_run s' = Some run /\ over run = false;
  hr_inv : phase_inv s' }.

Lemma agent_start_phase e id l s :
  phase_inv s -> match agent_start_commit e id l s with (s', Ok _) => hosts_run s s' | (s', Err _) => s' = s end.
Proof.
  intros Hi. pose proof Hi as [I1 I2 I3 I4]. unfold agent_start_commit. open_monad. destruct (_ || _) eqn:Hg; [done|]. cbn.
  apply orb_false_iff in Hg as [Hg _]. unfold agent_start_guard in Hg. bool_hyps.
  assert (hosted_run s = None) as E by (destruct (hosted_run s); [|done]; match goal with H : ~ is_Some _ |- _ => by destruct H end).
  constructor; try done; [eexists; split; [reflexivity|done]|]. constructor; try done.
  - intros _. cbn. by match goal with H : phase s = _ |- _ => rewrite H end.
  - by intros r [= <-].
Qed.

Lemma host_begin_follows s :
  phase_inv s -> (forall run, hosted_run s = Some run -> over run = true -> cancel run = true) -> follows false s (host_begin s).1.
Proof.
  intros Hi Hc. unfold host_begin. destruct (hosted_run s) as [run|] eqn:E; [|by apply follows_refl].
  destruct (cancel run) eqn:Ec; [by apply follows_refl|]. cbn. apply calm_follows; [done|].
  assert (over run = false) as Ho by (destruct (over run) eqn:Eo; [|done]; rewrite (Hc run) in Ec; done).
  constructor; try done. intros _. unfold runs_fine, run_kept, run_step, on_run. cbn. rewrite E. cbn. rewrite Ho. split_and!; try done. by intros r [= <-].
Qed.

(** A phase the section may move to. *)
Lemma phase_follows p s s' :
  phase_inv s -> info s' = info s -> cleanup_operation s' = cleanup_operation s -> cleanup s' = cleanup s -> prepared s' = prepared s ->
  hosted_run s' = hosted_run s -> phase s' = p -> edge (phase s) p = true -> ended p = false -> p <> Authorized -> (unfinished s = true -> live p = true) -> follows false s s'.
Proof.
  intros [I1 I2 I3 I4] E1 E2 E3 E4 E5 E6 He Hn Ha Hl. constructor; try done.
  - right. by rewrite E6.
  - by rewrite E6.
  - by left.
  - unfold unfinished in *. by rewrite E5, E6.
  - unfold runs_fine in *. by rewrite E5.
  - by apply run_kept_refl.
Qed.

(** In a phase that is not live the run has ended. *)
Lemma not_live s : phase_inv s -> live (phase s) = false -> forall b, unfinished s = true -> b = true.
Proof. intros [_ _ H _] Hl b Hu. by rewrite H in Hl. Qed.

Lemma prepare_begin_follows s : phase_inv s -> follows false s (prepare_begin s).1.
Proof.
  intros Hi. unfold prepare_begin. open_monad. destruct (_ || _) eqn:Hg; [by apply follows_refl|]. cbn.
  apply orb_false_iff in Hg as [Hg Hr]. apply orb_false_iff in Hg as [Hg _]. apply negb_false_iff, bool_decide_eq_true in Hg.
  apply (phase_follows Preparing); try done.
  - rewrite !elem_of_cons, elem_of_nil in Hg. by destruct Hg as [->|[->|[->|[]]]].
  - unfold unfinished, over. destruct (hosted_run s) as [run|]; [|done]. apply orb_false_iff in Hr as [Hr _]. apply orb_false_iff in Hr as [_ Hr].
    by rewrite Hr.
Qed.

(** The worker is authorized. *)
Record authorizes (s s' : session_t) : Prop := Authorizes {
  au_info : info s' = info s;
  au_cleanup : cleanup_operation s' = cleanup_operation s;
  au_report : cleanup s' = cleanup s;
  au_prepared : prepared s' = prepared s;
  au_before : phase s = session.Prepared;
  au_after : phase s' = Authorized;
  au_run : hosted_run s' = hosted_run s }.

Lemma authorize_commit_phase x t s : match authorize_commit x t s with (s', Ok _) => authorizes s s' | (s', Err _) => s' = s end.
Proof. unfold authorize_commit. open_monad. by case_bool_decide as Hg; cbn. Qed.

Lemma acquire_begin_follows x t s : phase_inv s -> follows false s (acquire_begin x t s).1.
Proof.
  intros Hi. unfold acquire_begin. open_monad. destruct (_ || _) eqn:Hg; [by apply follows_refl|]. cbn. apply orb_false_iff in Hg as [Hg _].
  apply orb_false_iff in Hg as [Hg _]. apply negb_false_iff, bool_decide_eq_true in Hg.
  apply (phase_follows Reserved); try done; rewrite ?Hg; try done. by apply not_live; [|rewrite Hg].
Qed.

Lemma launch_follows o w a s : phase_inv s -> follows false s (_launch_guard o w a s).1.
Proof.
  intros Hi. unfold _launch_guard. destruct (_ || _) eqn:Hg; [by apply follows_refl|]. cbn.
  assert (phase s = Reserved) as Hp by (by bool_hyps).
  apply (phase_follows Starting); try done; rewrite ?Hp; try done. by apply not_live; [|rewrite Hp].
Qed.

Lemma worker_phase_follows n s : phase_inv s -> follows false s (worker_phase n s).1.
Proof.
  intros Hi. unfold worker_phase. destruct (_ && _) eqn:Hg; [|by apply follows_refl]. cbn. assert (phase s = Starting) as Hp by (by bool_hyps).
  apply (phase_follows Running); try done; rewrite ?Hp; try done. by apply not_live; [|rewrite Hp].
Qed.

Lemma release_begin_follows w s : phase_inv s -> follows false s (release_begin w s).1.
Proof.
  intros Hi. unfold release_begin. open_monad. destruct (match worker_id s with Some _ => _ | None => _ end); cbn; [|by apply follows_refl].
  destruct (cleanup_operation s) eqn:Ec; [by apply follows_refl|]. cbn. destruct (ending (phase s)) eqn:He.
  - assert (phase s = Closing) as Hp by (destruct Hi as [_ I _ _]; destruct (phase s); try done; by destruct (I eq_refl) as [? ?]; rewrite Ec in *).
    apply calm_follows; [done|]. by apply calm_same.
  - apply (phase_follows Closing); try done. by destruct (phase s).
Qed.

Lemma prepare_commit_follows b ch s : phase_inv s -> follows false s (prepare_commit b ch s).1.
Proof.
  intros Hi. unfold prepare_commit. open_monad. destruct (match hosted_run s with Some _ => _ | None => _ end); [|by apply follows_refl].
  case_bool_decide as Hg; cbn; [|by apply follows_refl]. pose proof Hi as [I1 I2 I3 I4].
  constructor; cbn; try done; rewrite ?Hg; try done; [by right|by right| |by apply run_kept_refl]. intros Hu. specialize (I3 Hu). by rewrite Hg in I3.
Qed.

(** *** Cleanup *)

(** Cleanup begins. *)
Record begun (s s' : session_t) : Prop := Begun {
  be_info : info s' = info s;
  be_prepared : prepared s' = prepared s;
  be_before : cleanup_operation s = None;
  be_after : is_Some (cleanup_operation s');
  be_phase : phase s' = Closing;
  be_inv : phase_inv s';
  be_kept : run_kept false s s' }.

(** Cleanup ends. *)
Record concluded (s s' : session_t) : Prop := Concluded {
  co_info : info s' = info s;
  co_prepared : prepared s' = prepared s;
  co_cleanup : cleanup_operation s' = cleanup_operation s;
  co_phase : ended (phase s') = true;
  co_run : hosted_run s' = hosted_run s }.

Lemma begin_cleanup_phase reason adv s s' r :
  phase_inv s -> begin_cleanup reason adv s = (s', r) ->
  match r with Ok (_, true, _) => begun s s' | _ => calm s s' end.
Proof.
  intros Hi H. unfold begin_cleanup in H. open_monad. destruct (cleanup_operation s) as [id|] eqn:Ec.
  - destruct (if bool_decide _ then _ else _) as [op|]; [|injection H as <- <-; by apply calm_refl].
    destruct (adv && _); injection H as <- <-; by apply calm_same.
  - injection H as <- <-. set (s1 := set_closing_reason _ _). set (s2 := _cancel_host_locked reason s1).
    assert (phase_inv s1) as H1.
    { destruct Hi as [I1 I2 I3 I4]. constructor; try done. }
    assert (ended (phase s) = false) as He.
    { destruct (ended (phase s)) eqn:E; [|done]. destruct Hi as [_ I _ _]. by destruct (I E) as [? ?]; rewrite Ec in *. }
    pose proof (cancel_host_follows reason s1 H1) as [F1 F2 FR F3 FA F4 F5 F6 F7]. fold s2 in F1, F2, FR, F3, F4, F5, F6, F7.
    assert (phase s2 = Closing) as Hp.
    { destruct F3 as [F3|[F3 F3']]; [done|]. change (phase s1) with Closing in F3. by destruct (phase s2). }
    pose proof (follows_inv _ _ _ H1 (cancel_host_follows reason s1 H1)) as H2. fold s2 in H2.
    assert (calm s2 (cancel_others (next_operation_id s) s2)) as Hc by (by apply calm_same).
    pose proof (follows_inv _ _ _ H2 (calm_follows false _ _ H2 Hc)) as H3.
    constructor; try done.
    + by destruct F4.
    + change (is_Some (cleanup_operation s2)). rewrite F2. by eexists.
Qed.

Definition cleaning (i : instr) : bool :=
  match i with
  | ICleanupWork _ _ _ | ICleanupJoined _ _ | ICleanupRelease _ _ _ _ | ICleanupSession _ _ _ | ICleanupCommit _ _ _ _ | ICleanupAbort _ _ => true
  | _ => false
  end.
Definition concludes (i : instr) : bool := match i with ICleanupCommit _ _ _ _ | ICleanupAbort _ _ => true | _ => false end.
Definition begins (i : instr) : bool := match i with ICleanup _ | ICleanupReply _ _ _ => true | _ => false end.
Definition ends_run (i : instr) : bool := match i with ITerminalHost _ => true | _ => false end.

(** A run that ended before its thread began was cancelled. *)
Definition stopped_first (s : session_t) : Prop := forall run, hosted_run s = Some run -> over run = true -> cancel run = true.

Section Phases.
Context (rec_limit : nat) (max_completed : Z) (token_hex : nat -> pystr) (text : exn -> pystr) (decode_replace : bytes -> pystr).
Context (instance_id : pystr) `{!Inj (=) (=) token_hex}.

#[local] Abbreviation exec_session := (exec_session max_completed decode_replace).
#[local] Abbreviation on_raise := (on_raise text).
#[local] Abbreviation thread_next := (thread_next text).
#[local] Abbreviation step := (step rec_limit max_completed token_hex text decode_replace instance_id).
#[local] Abbreviation run := (run rec_limit max_completed token_hex text decode_replace instance_id).
#[local] Abbreviation lstep := (lstep max_completed text decode_replace).
#[local] Abbreviation reachable := (reachable rec_limit max_completed token_hex text decode_replace instance_id).

Create HintDb phases.
Create HintDb calm.
#[local] Hint Resolve adopt_follows cancel_host_follows terminal_host_follows submit_begin_follows submit_commit_follows submit_failed_follows
  host_begin_follows prepare_begin_follows acquire_begin_follows worker_phase_follows
  release_begin_follows prepare_commit_follows follows_refl : phases.
#[local] Hint Resolve new_operation_calm authoring_start_calm settle_calm finish_event_calm closed_event_calm execute_begin_calm host_event_calm
  host_done_calm tool_cancel_calm calm_refl : calm.

Definition is_host (r : role) : bool := match r with HostThread => true | _ => false end.
Definition hosts (ths : list (role * list instr)) : nat := sum_list_with (fun t => b2n (is_host t.1)) ths.

(** What a section does to its session, and the threads it starts for it. *)
Inductive change (i : instr) (s : session_t) (f : effect) : Prop :=
  | ch_follows : follows (ends_run i) s (f_session f) -> concludes i = false -> tally cleaning (started f) = 0 /\ hosts (started f) = 0 -> change i s f
  | ch_begun : begun s (f_session f) -> concludes i = false -> tally cleaning (started f) = 1 /\ hosts (started f) = 0 -> change i s f
  | ch_concluded : concluded s (f_session f) -> concludes i = true -> tally cleaning (started f) = 0 /\ hosts (started f) = 0 -> change i s f
  | ch_hosts : hosts_run s (f_session f) -> concludes i = false -> tally cleaning (started f) = 0 /\ hosts (started f) = 1 -> change i s f
  | ch_authorizes : authorizes s (f_session f) -> concludes i = false -> (exists x, i = IAuthorizeCommit x) -> tally cleaning (started f) = 0 /\ hosts (started f) = 0 -> change i s f.

Lemma cleanup_operation_change i sid reason worker adv k s :
  phase_inv s -> concludes i = false -> change i s (_cleanup_operation sid reason worker adv k s).
Proof.
  intros Hi Hc. unfold _cleanup_operation. destruct (begin_cleanup reason adv s) as [s' r] eqn:E.
  pose proof (begin_cleanup_phase _ _ _ _ _ Hi E) as H. destruct r as [[[op []] due]|e];
    [by apply ch_begun|apply ch_follows; [by apply calm_follows|done|done]..].
Qed.

Lemma exec_change srv cl tok sid i a s f :
  exec_session srv cl tok sid i a s = Some f -> phase_inv s -> (i = IHostBegin -> stopped_first s) -> change i s f.
Proof.
  intros H Hi Hb. open_section H; try done.
  all: try (apply cleanup_operation_change; done).
  all: try lazymatch goal with |- change (IAuthorizeCommit _) _ _ => idtac | _ => apply ch_follows; [|done|open_effect; done]; cbn [ends_run] end.
  all: rewrite ?(proj1 (with_token_fields _)), ?sect_session, ?pure_sect_session.
  all: try (by constructor).
  all: try (unfold update; cbn [f_session quiet with_spawn with_log with_event]; solve [eauto with phases | apply calm_follows; [done|]; eauto with calm | apply calm_follows; [done|]; by apply calm_same]).
  - pose proof (authoring_start_calm s) as Hc. destruct (ebind _ _ s) as [s' [op|e]]; by apply calm_follows.
  - pose proof (new_operation_calm true s) as Hc. destruct (_new_operation true s) as [s' [op|e]]; by apply calm_follows.
  - unfold sect. pose proof (authorize_commit_phase a0 tok s) as Hc. destruct (authorize_commit a0 tok s) as [s' [x|e]]; [apply ch_authorizes; by eauto|].
    subst s'. by apply ch_follows; [apply follows_refl|..].
  - unfold acquire_commit. run_monad; apply calm_follows; try done; by apply calm_same.
  - apply calm_follows; [done|]. unfold update. cbn [f_session quiet]. case_match; by apply calm_same.
  - pose proof (agent_start_phase (cl || late) tok limits s Hi) as Hc. destruct (agent_start_commit _ _ _ s) as [s' [x|e]]; [by apply ch_hosts|].
    subst s'. apply ch_follows; [by apply follows_refl|done|done].
  - unfold reading. open_monad. destruct (run_of s args); [by apply cancel_host_follows|by apply follows_refl].
  - destruct (if bool_decide _ then _ else _) in H. apply (inj Some) in H as <-. by apply follows_refl.
  - destruct (cleanup_joined s) in H. apply (inj Some) in H as <-. by apply follows_refl.
  - apply ch_concluded; [|done|done]. unfold update. cbn [f_session quiet]. constructor; try done. cbn. by case_match.
  - pose proof (host_event_calm s) as Hc. destruct (_host_event s) as [s' e]. apply (inj Some) in H as <-. by apply calm_follows.
  - by apply host_begin_follows; [|apply Hb].
  - destruct (extend _ _) in H; apply (inj Some) in H as <-; [by apply follows_refl|apply calm_follows; [done|apply tool_cancel_calm]].
  - pose proof (submit_commit_follows s Hi) as Hc. by destruct (host_submit_commit s) as [s' [x|e]].
Qed.

(** A section that is no cleanup leaves no cleanup. *)
Lemma exec_cleaning sid r i a s f cl tok :
  exec_session false cl tok sid i a s = Some f -> fits r i = true ->
  match f_next f with
  | Continue more => count cleaning more + b2n (concludes i) = b2n (cleaning i)
  | Raise _ => cleaning i = concludes i
  | _ => cleaning i = false
  end.
Proof.
  intros H Hi. open_section H; destruct r; try discriminate Hi; open_effect; done.
Qed.

Lemma cleaning_work i : cleaning i = true -> any_work i = true.
Proof. by destruct i. Qed.

Lemma on_raise_cleaning r e : count cleaning (on_raise r e) = 0.
Proof. by destruct r as [op []| | |]. Qed.

(** A thread goes on cleaning until it concludes. *)
Lemma thread_cleaning cl tok sid r i rest a s f :
  exec_session false cl tok sid i a s = Some f -> forallb (fits r) (i :: rest) = true -> count any_work (i :: rest) <= 1 ->
  count cleaning (thread_next r (f_next f) rest) + b2n (concludes i) = count cleaning (i :: rest).
Proof.
  intros H Hfit Hone. pose proof Hfit as [Hi Hrest]%andb_true_iff. pose proof (exec_cleaning _ r _ _ _ _ _ _ H Hi) as Hd.
  pose proof (exec_debt _ _ _ _ _ _ r _ _ _ _ H eq_refl Hi) as Hdebt.
  pose proof (exec_session_instrs _ _ _ _ _ _ _ _ _ _ H) as (_ & _ & _ & _ & Hent & _).
  pose proof (count_le cleaning any_work rest cleaning_work) as Hle. rewrite !count_cons in *.
  assert ((forall op b, r <> OpThread op b) -> count cleaning rest = 0) as Hother by (intros Hr; pose proof (fits_no_work r _ Hr Hrest); lia).
  destruct (f_next f) as [more|id more|v|v|e] eqn:En; cbn [controller.thread_next] in *.
  - rewrite count_app. lia.
  - by edestruct Hent.
  - destruct r; [done|..]; rewrite Hother, Hd by done; by destruct i.
  - destruct r; [done|..]; rewrite Hother, Hd by done; by destruct i.
  - rewrite on_raise_cleaning. destruct r as [op b| | |]; [|rewrite Hother, Hd by done; lia..]. destruct Hdebt as [Hw _].
    unfold any_work at 1 in Hone. rewrite Hw, bool_decide_eq_true_2 in Hone by done. cbn [b2n] in Hone. rewrite Hd. lia.
Qed.

(** ** Who begins and ends a managed run *)
(** What the thread of a run may still have to do. *)
Definition host_shape (prog : list instr) : bool :=
  match prog with
  | [] | [IHostBegin; IHostDone] | [IHostEvent; IHostRun; IHostDone] | [IHostRun; IHostDone] | [ITerminalHost _; IHostDone]
  | [IHostEvent; IHostDone] | [IHostDone] | [IHostCheck] | [ICleanup _] => true
  | _ => false
  end.

(** A program that ends the run without having cancelled it. *)
Fixpoint uncovered (prog : list instr) : bool :=
  match prog with ICancelHost _ :: _ => false | ITerminalHost _ :: _ => true | _ :: rest => uncovered rest | [] => false end.

(** The run is cancelled or over. *)
Definition stopped (s : session_t) : Prop := forall run, hosted_run s = Some run -> cancel run = true \/ over run = true.

Lemma uncovered_app l1 l2 : uncovered (l1 ++ l2) = true -> uncovered l1 = true \/ uncovered l2 = true.
Proof. induction l1 as [|i l1 IH]; [by right|]. destruct i; cbn; auto. Qed.

Definition joining (i : instr) : bool := match i with ICancelHost _ | ITerminalHost _ => true | _ => false end.

Definition prog_ok (s : session_t) (prog : list instr) : Prop :=
  (existsb joining prog = true -> is_Some (hosted_run s)) /\ (uncovered prog = true -> stopped s).
Definition thread_ok (s : session_t) (t : role * list instr) : Prop :=
  if is_host t.1 then host_shape t.2 = true /\ ((exists rest, t.2 = IHostBegin :: rest) -> stopped_first s) else prog_ok s t.2.

Record hosted (l : local) : Prop := Hosted {
  h_one : hosts (l_threads l) = b2n (bool_decide (is_Some (hosted_run (l_state l))));
  h_threads : Forall (thread_ok (l_state l)) (l_threads l);
  h_server : prog_ok (l_state l) (l_server l) }.

Lemma uncovered_joining prog : uncovered prog = true -> existsb joining prog = true.
Proof. induction prog as [|i l IH]; [done|]. destruct i; cbn; auto. Qed.

Lemma stopped_kept b s s' : run_kept b s s' -> stopped s -> stopped s'.
Proof.
  unfold run_kept, stopped. intros H Hs run' E'. rewrite E' in H. destruct (hosted_run s) as [run|]; [|done]. destruct H as (H1 & H2 & _).
  destruct (Hs run eq_refl); auto.
Qed.
Lemma some_kept b s s' : run_kept b s s' -> is_Some (hosted_run s) -> is_Some (hosted_run s').
Proof. unfold run_kept. intros H [run E]. rewrite E in H. by destruct (hosted_run s'). Qed.
Lemma kept_none b s s' : run_kept b s s' -> is_Some (hosted_run s') <-> is_Some (hosted_run s).
Proof. unfold run_kept. destruct (hosted_run s), (hosted_run s'); try done; split; eauto. Qed.

Lemma change_run i s f :
  change i s f -> run_kept (ends_run i) s (f_session f) /\ hosts (started f) = 0 \/ hosts_run s (f_session f) /\ hosts (started f) = 1.
Proof.
  intros [H _ [_ ?]|H _ [_ ?]|H _ [_ ?]|H _ [_ ?]|H _ _ [_ ?]]; [left; split; [apply H|done]|left|left|by right|left].
  - split; [by apply run_kept_weaken, H|done].
  - split; [by apply run_kept_refl, H|done].
  - split; [by apply run_kept_refl, H|done].
Qed.

Lemma prog_ok_change i s f prog : change i s f -> prog_ok s prog -> prog_ok (f_session f) prog.
Proof.
  intros Hc [H1 H2]. apply change_run in Hc as [[Hk _]|[[_ _ _ _ _ Hn _ _] _]].
  - split; [intros Hj; by eapply some_kept, H1|intros Hu; by eapply stopped_kept, H2].
  - rewrite Hn in H1. split; [intros Hj|intros Hj%uncovered_joining]; by destruct (H1 Hj).
Qed.

Lemma thread_ok_change i s f t :
  change i s f -> (hosted_run s = None -> is_host t.1 = false) -> (ends_run i = true -> is_host t.1 = true -> stopped s) ->
  thread_ok s t -> thread_ok (f_session f) t.
Proof.
  intros Hc Hn He. unfold thread_ok. destruct (is_host t.1) eqn:Eh; [|by apply (prog_ok_change i)].
  intros [H1 H2]. split; [done|]. intros Hb. specialize (H2 Hb). apply change_run in Hc as [[Hk _]|[[_ _ _ _ _ E _ _] _]]; [|by specialize (Hn E)].
  unfold stopped_first, stopped, run_kept in *. destruct (hosted_run s) as [run|]; [|by specialize (Hn eq_refl)]. intros run' E'. rewrite E' in Hk.
  destruct Hk as (K1 & K2 & K3). intros Ho. destruct (ends_run i); [|by apply K1, (H2 run eq_refl), K3].
  destruct (He eq_refl eq_refl run eq_refl) as [Hx|Hx]; [by apply K1|]. by apply K1, (H2 run eq_refl).
Qed.

(** What a section leaves to a thread that is not a run's. *)
Lemma exec_more srv cl tok sid i a s f :
  exec_session srv cl tok sid i a s = Some f -> i <> IHostBegin -> i <> IHostRun ->
  uncovered (next_instrs (f_next f)) = false /\ (existsb joining (next_instrs (f_next f)) = true -> is_Some (hosted_run s)).
Proof.
  intros H H1 H2. open_section H; try done; open_effect; split; try done; intros; eauto.
Qed.

Lemma started_shape srv cl tok sid i a s f :
  exec_session srv cl tok sid i a s = Some f ->
  Forall (fun t => if is_host t.1 then t.2 = [IHostBegin; IHostDone] else existsb joining t.2 = false) (started f).
Proof. intros H. open_section H; open_effect; try done; by repeat constructor. Qed.

(** A section of a run's thread leaves it in shape. *)
Lemma exec_shape cl tok sid i rest a s f :
  exec_session false cl tok sid i a s = Some f -> host_shape (i :: rest) = true -> host_shape (thread_next HostThread (f_next f) rest) = true.
Proof.
  intros H Hs. open_section H; try discriminate Hs; open_effect; try discriminate Hs; try done.
Qed.

Lemma change_kept i s f : change i s f -> (is_Some (hosted_run s) -> is_Some (hosted_run (f_session f))) /\ (is_Some (hosted_run s) -> stopped s -> stopped (f_session f)).
Proof.
  intros [[Hk _]|[[_ _ _ _ _ E _ _] _]]%change_run; [split; [by eapply some_kept|intros _; by eapply stopped_kept]|].
  rewrite E. split; intros H; by destruct H.
Qed.

Lemma cancel_stops reason s : stopped (_cancel_host_locked reason s).
Proof.
  unfold stopped, _cancel_host_locked. destruct (hosted_run s) as [run|] eqn:E; [|by rewrite E]. case_bool_decide as Ho.
  - rewrite E. intros r [= <-]. right. by apply bool_decide_eq_true.
  - intros r. unfold on_run. cbn. destruct (hosted_run (_adopt_submission_locked s)); [|done]. intros [= <-]. by left.
Qed.

Lemma next_ok srv cl tok sid i rest a s f :
  exec_session srv cl tok sid i a s = Some f -> change i s f -> i <> IHostBegin -> i <> IHostRun -> prog_ok s (i :: rest) ->
  prog_ok (f_session f) (next_instrs (f_next f) ++ rest).
Proof.
  intros Hf Hc H1 H2 [P1 P2]. destruct (exec_more _ _ _ _ _ _ _ _ Hf H1 H2) as [M1 M2]. destruct (change_kept _ _ _ Hc) as [K1 K2]. split.
  - rewrite existsb_app. intros [Hj|Hj]%orb_true_iff; apply K1; [by apply M2|apply P1]. cbn. by rewrite Hj, orb_true_r.
  - intros [Hu|Hu]%uncovered_app; [by rewrite M1 in Hu|]. pose proof (uncovered_joining _ Hu) as Hj.
    assert (is_Some (hosted_run s)) as Hs by (apply P1; cbn; by rewrite Hj, orb_true_r).
    destruct i; try (apply K2; [done|]; apply P2; done). apply (inj Some) in Hf as <-. apply cancel_stops.
Qed.

Lemma prog_ok_nil s : prog_ok s [].
Proof. done. Qed.
Lemma prog_ok_raise s r e : is_host r = false -> prog_ok s (on_raise r e).
Proof. by destruct r as [op []| | |]. Qed.

Lemma thread_next_ok cl tok sid r i rest a s f :
  exec_session false cl tok sid i a s = Some f -> change i s f -> fits r i = true -> thread_ok s (r, i :: rest) ->
  thread_ok (f_session f) (r, thread_next r (f_next f) rest).
Proof.
  intros Hf Hc Hfit Ht. unfold thread_ok in *. cbn [fst snd] in *. destruct (is_host r) eqn:Eh.
  - destruct r; try discriminate Eh. destruct Ht as [Hs _]. split; [by eapply exec_shape|].
    intros [l E]. exfalso. clear Hc. open_section Hf; try discriminate Hs; open_effect; try discriminate Hs; try discriminate E; done.
  - assert (i <> IHostBegin /\ i <> IHostRun) as [H1 H2] by (by destruct r, i).
    pose proof (next_ok _ _ _ _ _ _ _ _ _ Hf Hc H1 H2 Ht) as Hn. destruct (f_next f); cbn in *; try done. by apply prog_ok_raise.
Qed.

(** The cleanup that is under way. *)
Definition due (s : session_t) : nat := b2n (bool_decide (is_Some (cleanup_operation s)) && negb (ended (phase s))).

(** What every step of a session respects. *)
Record moved (s s' : session_t) : Prop := Moved {
  mv_phase : phase s' = phase s \/ edge (phase s) (phase s') = true;
  mv_cleanup : forall op, cleanup_operation s = Some op -> cleanup_operation s' = Some op;
  mv_report : ended (phase s) = true -> cleanup s' = cleanup s;
  mv_info : info s' = info s;
  mv_prepared : prepared s' = prepared s \/ phase s = Preparing }.

Lemma moved_refl s : moved s s.
Proof. constructor; try done; by left. Qed.

Lemma change_moved i s f :
  change i s f -> phase_inv s -> (concludes i = true -> due s = 1) ->
  phase_inv (f_session f) /\ moved s (f_session f) /\ due (f_session f) + b2n (concludes i) = due s + tally cleaning (started f).
Proof.
  intros Hc Hi Hcl. unfold due in *. destruct Hc as [H E [Hz _]|H E [Hz _]|H E [Hz _]|H E [Hz _]|H E _ [Hz _]]; rewrite ?E, Hz; change (b2n false) with 0; change (b2n true) with 1.
  - pose proof (follows_inv _ _ _ Hi H) as Hi'. destruct H as [H1 H2 HR H3 HA H4 H5 H6 H7]. split; [done|]. rewrite H2. split.
    + constructor; try done; [destruct H3 as [|[? _]]; [by left|by right]|by rewrite H2].
    + assert (ended (phase (f_session f)) = ended (phase s)) as ->; [|lia]. destruct H3 as [->|[H3 ->]]; [done|]. by destruct (phase s), (phase (f_session f)).
  - destruct H as [H1 H2 H3 H4 H5 H6 H7]. split; [done|]. split.
    + constructor.
      * rewrite H5. destruct (ending (phase s)) eqn:He; [left|right; by destruct (phase s)].
        destruct Hi as [_ I _ _]. destruct (phase s); try done; destruct (I eq_refl); congruence.
      * intros op Hop. congruence.
      * intros He. destruct Hi as [_ I _ _]. destruct (I He). congruence.
      * done.
      * by left.
    + rewrite H3, H5. by rewrite bool_decide_eq_true_2.
  - specialize (Hcl E). destruct (ended (phase s)) eqn:He; [by rewrite andb_false_r in Hcl|]. rewrite andb_true_r in Hcl.
    case_bool_decide as Hs; [|done]. destruct H as [H1 H2 H3 H4 H5].
    assert (phase s = Closing) as Hp by (destruct Hi as [I _ _ _]; specialize (I Hs); by destruct (phase s)).
    split; [|split].
    + destruct Hi as [I1 I2 I3 I4]. constructor; rewrite ?H3; try done.
      * intros _. by destruct (phase (f_session f)).
      * intros _. by destruct (phase (f_session f)).
      * unfold runs_fine. by rewrite H5.
    + constructor; try done; [|by rewrite H3|by rewrite Hp|by left]. right. rewrite Hp. by destruct (phase (f_session f)).
    + rewrite H4. cbn. rewrite andb_false_r. done.
  - destruct H as [H1 H2 HR H3 H4 H5 H6 H7]. split; [done|]. rewrite H2, H3. split; [|lia].
    constructor; try done; [by left|by rewrite H2|by left].
  - destruct H as [H1 H2 HR H3 H4 H5 H6]. rewrite H2, H4, H5. split; [|split; [|done]].
    + destruct Hi as [I1 I2 I3 I4]. constructor; rewrite ?H2, ?H5; try done.
      * rewrite H4 in I1. done.
      * unfold unfinished in *. rewrite H6. intros Hu. specialize (I3 Hu). by rewrite H4 in I3.
      * unfold runs_fine. by rewrite H6.
    + constructor; try done; [right; by rewrite H4, H5|by rewrite H2|by left].
Qed.

(** The invariant: a session is where its phases allow, and one thread at most
    cleans it up. *)
Record phased (l : local) : Prop := Phased {
  p_accounted : accounted l;
  p_inv : phase_inv (l_state l);
  p_hosted : hosted l;
  p_cleaning : tally cleaning (l_threads l) = due (l_state l) }.

Lemma hosts_perm l1 l2 : l1 ≡ₚ l2 -> hosts l1 = hosts l2.
Proof. intros H. unfold hosts. induction H; cbn; lia. Qed.
Lemma hosts_app l1 l2 : hosts (l1 ++ l2) = hosts l1 + hosts l2.
Proof. apply sum_list_with_app. Qed.
Lemma hosts_cons r prog l : hosts ((r, prog) :: l) = b2n (is_host r) + hosts l.
Proof. done. Qed.
Lemma hosts_none l : Forall (fun t => is_host t.1 = false) l -> hosts l = 0.
Proof. induction 1 as [|[r prog] l Hr _ IH]; [done|]. cbn in Hr. by rewrite hosts_cons, Hr. Qed.
Lemma no_hosts l : hosts l = 0 -> Forall (fun t => is_host t.1 = false) l.
Proof.
  induction l as [|[r prog] l IH]; [done|]. rewrite hosts_cons. intros H. constructor; [cbn; destruct (is_host r); cbn in H; [lia|done]|apply IH; lia].
Qed.

Lemma started_ok srv cl tok sid i a s f :
  exec_session srv cl tok sid i a s = Some f -> change i s f -> Forall (thread_ok (f_session f)) (started f).
Proof.
  intros Hf Hc. pose proof (started_shape _ _ _ _ _ _ _ _ Hf) as Hs. rewrite list.Forall_forall in Hs |- *. intros t Ht. specialize (Hs t Ht).
  unfold thread_ok. destruct (is_host t.1) eqn:Eh; [|split; [by rewrite Hs|by intros Hu%uncovered_joining; rewrite Hs in Hu]].
  rewrite Hs. split; [done|]. intros _ run Hrun. apply change_run in Hc as [[_ Hz]|[[_ _ _ _ _ _ (run' & E & Ho) _] _]]; [|congruence].
  apply no_hosts in Hz. rewrite list.Forall_forall in Hz. by rewrite Hz in Eh.
Qed.

(** A section changes its session; the other threads go on. *)
Lemma phased_section i s f ths ths1 t' :
  change i s f -> phase_inv s -> Forall (thread_ok s) ths1 ->
  hosts ths1 + hosts t' = b2n (bool_decide (is_Some (hosted_run s))) ->
  (ends_run i = true -> hosts ths1 > 0 -> stopped s) ->
  tally cleaning t' + tally cleaning ths1 + b2n (concludes i) = due s ->
  Forall (thread_ok (f_session f)) (started f) -> Forall (thread_ok (f_session f)) t' ->
  ths ≡ₚ t' ++ started f ++ ths1 ->
  phase_inv (f_session f) /\ moved s (f_session f) /\
  hosts ths = b2n (bool_decide (is_Some (hosted_run (f_session f)))) /\ Forall (thread_ok (f_session f)) ths /\
  tally cleaning ths = due (f_session f).
Proof.
  intros Hc Hi Hths Hh He Hcl Hst Ht' Hp. destruct (change_moved _ _ _ Hc Hi) as (M1 & M2 & M3).
  { intros E. rewrite E in Hcl. unfold due in *. revert Hcl. destruct (_ && _); cbn; lia. }
  split; [done|]. split; [done|]. split; [|split].
  - rewrite (hosts_perm _ _ Hp), !hosts_app. apply change_run in Hc as [[Hk ->]|[[_ _ _ _ _ E (run & E' & _) _] ->]].
    + rewrite (bool_decide_ext _ _ (kept_none _ _ _ Hk)). lia.
    + rewrite E in Hh. rewrite E'. rewrite bool_decide_eq_false_2 in Hh by (by intros []). rewrite bool_decide_eq_true_2 by eauto. cbn [b2n] in *. lia.
  - rewrite Hp. rewrite !Forall_app. split_and!; [done|done|]. rewrite list.Forall_forall in Hths |- *. intros t Ht.
    assert (is_host t.1 = true -> hosts ths1 > 0) as Hpos.
    { intros Eh. destruct (decide (hosts ths1 = 0)) as [E|]; [|lia]. apply no_hosts in E. rewrite list.Forall_forall in E. by rewrite (E t Ht) in Eh. }
    eapply thread_ok_change; [exact Hc| |by auto|by apply Hths].
    intros En. destruct (is_host t.1) eqn:Eh; [|done]. specialize (Hpos eq_refl). rewrite En, bool_decide_eq_false_2 in Hh by (by intros []). cbn [b2n] in Hh. lia.
  - rewrite (tally_perm _ _ _ Hp), !tally_app. lia.
Qed.

(** The sections outside the session leave nothing that joins or cleans up. *)
Lemma control_ok sid i more rest s : controller_next sid i more -> prog_ok s (i :: rest) -> prog_ok s (more ++ rest).
Proof.
  intros Hc [P1 P2]. assert (existsb joining more = false) as Hm.
  { destruct i; cbn in Hc; try done; [by destruct Hc as (? & ? & ? & ? & ->)|by subst|by destruct Hc as ([] & ->)|by subst|by destruct Hc as [->| ->]]. }
  split.
  - rewrite existsb_app, Hm. intros Hj. apply P1. cbn in *. by rewrite Hj, orb_true_r.
  - intros [Hu%uncovered_joining|Hu]%uncovered_app; [by rewrite Hm in Hu|]. apply P2. by destruct i.
Qed.

Lemma control_cleaning sid i more rest : controller_next sid i more -> count cleaning (more ++ rest) = count cleaning (i :: rest).
Proof.
  intros Hc. rewrite count_app, count_cons.
  destruct i; cbn in Hc; try done; [by destruct Hc as (? & ? & ? & ? & ->)|by subst|by destruct Hc as ([] & ->)|by subst|by destruct Hc as [->| ->]].
Qed.

Lemma handler_ok id op args s : prog_ok s (handler id op args).
Proof.
  assert (existsb joining (handler id op args) = false) as Hj by (unfold handler; repeat case_bool_decide; done).
  split; [by rewrite Hj|]. intros Hu%uncovered_joining. by rewrite Hj in Hu.
Qed.

(** A thread that is not a run's goes on outside the session. *)
Lemma phased_idle r prog prog' s srv ths ths1 ths' ev en :
  phased (Local s srv ths ev en) -> accounted (Local s srv ths' ev en) -> ths ≡ₚ (r, prog) :: ths1 -> ths' ≡ₚ (r, prog') :: ths1 ->
  is_host r = false -> (prog_ok s prog -> prog_ok s prog') -> count cleaning prog' = count cleaning prog ->
  phased (Local s srv ths' ev en).
Proof.
  intros [_ Hi [Hh1 Hh2 Hh3] Hcl] Hacc H1 H2 Hr Hok Hc. constructor; [done|done| |]; cbn [l_state l_threads l_server] in *.
  - constructor; cbn [l_state l_threads l_server]; [|rewrite H2; rewrite H1 in Hh2; apply list.Forall_cons in Hh2 as [Hp Hh2]; constructor; [|done]|done].
    + rewrite <- Hh1, (hosts_perm _ _ H1), (hosts_perm _ _ H2). done.
    + unfold thread_ok in *. cbn [fst snd] in *. rewrite Hr in *. auto.
  - rewrite <- Hcl, (tally_perm _ _ _ H1), (tally_perm _ _ _ H2), !tally_cons. cbn [snd]. lia.
Qed.

Lemma phased_step sid l l' : phased l -> lstep sid l l' -> phased l' /\ moved (l_state l) (l_state l').
Proof.
  intros Hphased H. pose proof Hphased as [Hacc Hi Hh Hcl]. assert (accounted l') as Hacc' by (eapply accounted_step; eassumption).
  pose proof Hacc as [[Hfit Hsrv] _ Hone _]. destruct Hh as [Hh1 Hh2 Hh3].
  lstep_cases H; cbn [l_state l_threads l_server] in *.
  - split; [|apply moved_refl]. constructor; try done. constructor; try done. apply handler_ok.
  - split; [|apply moved_refl]. constructor; try done.
  - pose proof Hsrv as [Hi0 _]%andb_true_iff. assert (i <> IHostBegin /\ i <> IHostRun) as [N1 N2] by (by destruct i).
    assert (change i s f) as Hc by (eapply exec_change; [done|done|by intros ->]).
    assert (concludes i = false) as Hcon by (by destruct i).
    destruct (phased_section i s f ths' ths []) as (Q1 & Q2 & Q3 & Q4 & Q5); try done.
    + cbn. lia.
    + intros He _. apply Hh3. by destruct i.
    + rewrite Hcon. cbn. lia.
    + by eapply started_ok.
    + split; [|done]. constructor; try done. constructor; try done. cbn [l_state l_server].
      pose proof (next_ok _ _ _ _ _ _ _ _ _ Hf Hc N1 N2 Hh3) as Hn. destruct (f_next f); cbn in *; done.
  - split; [|apply moved_refl]. constructor; try done. constructor; try done. by eapply control_ok.
  - assert (change (ICleanup "client-failure") s f) as Hc by (eapply exec_change; [done|done|by intros]).
    destruct (phased_section _ s f ths' ths [] Hc) as (Q1 & Q2 & Q3 & Q4 & Q5); try done; try (cbn; lia). by eapply started_ok.
  - rewrite Hp1 in Hfit, Hh2, Hone. apply list.Forall_cons in Hfit as [Hfit _], Hh2 as [Ht Hh2], Hone as [Hone _]. cbn [fst snd] in *.
    pose proof Hfit as [Hi0 _]%andb_true_iff. rewrite (hosts_perm _ _ Hp1), hosts_cons in Hh1.
    assert (change i s f) as Hc.
    { eapply exec_change; [done|done|]. intros ->. destruct r; try discriminate Hi0. destruct Ht as [_ Ht]. apply Ht. by eexists. }
    assert (tally cleaning ths = count cleaning (i :: rest) + tally cleaning ths1) as Htally by (by rewrite (tally_perm _ _ _ Hp1), tally_cons).
    pose proof (thread_cleaning _ _ _ _ _ _ _ _ _ Hf Hfit Hone) as Hcount.
    destruct (phased_section i s f ths' ths1 [(r, thread_next r (f_next f) rest)] Hc) as (Q1 & Q2 & Q3 & Q4 & Q5); try done.
    + unfold hosts in *. cbn. lia.
    + intros He Hpos. unfold thread_ok in Ht. cbn [fst snd] in Ht. destruct (is_host r) eqn:Er; [|apply Ht; by destruct i].
      cbn [b2n] in Hh1. revert Hh1. case_bool_decide; cbn [b2n]; lia.
    + rewrite tally_cons. cbn [snd tally sum_list_with]. lia.
    + by eapply started_ok.
    + constructor; [|done]. by eapply thread_next_ok.
    + split; [|done]. constructor; try done. constructor; try done. by eapply prog_ok_change.
  - split; [|apply moved_refl]. eapply (phased_idle r _ _ _ _ _ _ _ _ _ Hphased Hacc' Hp1 Hp2).
    + rewrite Hp1 in Hfit. apply list.Forall_cons in Hfit as [Hfit _]. cbn in Hfit. apply andb_true_iff in Hfit as [Hfit _]. by destruct r, i.
    + by apply control_ok with sid.
    + by eapply control_cleaning.
  - split; [|apply moved_refl]. eapply (phased_idle r _ _ _ _ _ _ _ _ _ Hphased Hacc' Hp1 Hp2).
    + rewrite Hp1 in Hfit. apply list.Forall_cons in Hfit as [Hfit _]. cbn in Hfit. by destruct r.
    + done.
    + rewrite Hp1 in Hfit. apply list.Forall_cons in Hfit as [Hfit _]. cbn [fst snd] in Hfit.
      assert (forall op b, r <> OpThread op b) as Hr by (intros op b ->; discriminate Hfit).
      pose proof (fits_no_work r _ Hr Hfit) as Hz. pose proof (count_le cleaning any_work (IReply v :: rest) cleaning_work). change (count cleaning []) with 0. lia.
  - split; [|apply moved_refl]. constructor; try done; cbn [l_state l_threads l_server].
    + constructor; cbn [l_state l_threads l_server]; [|rewrite Hp; constructor; [|done]|done].
      * rewrite (hosts_perm _ _ Hp), <- Hh1. by destruct b.
      * by destruct b.
    + rewrite (tally_perm _ _ _ Hp), tally_cons, Hcl. by destruct b.
  - pose proof (launch_follows owner0 w a s Hi) as Hf.
    assert (change IEvict s (quiet (_launch_guard owner0 w a s).1 (Continue []))) as Hc by (by apply ch_follows).
    destruct (phased_section _ s _ ths ths [] Hc) as (Q1 & Q2 & Q3 & Q4 & Q5); try done; [cbn; lia|cbn; lia|].
    split; [|done]. constructor; try done. constructor; try done. cbn. by apply (prog_ok_change _ _ _ _ Hc).
  - split; [|apply moved_refl]. constructor; try done; cbn [l_state l_threads l_server].
    + constructor; cbn [l_state l_threads l_server]; [by rewrite (hosts_perm _ _ Hp)|by rewrite Hp|done].
    + by rewrite (tally_perm _ _ _ Hp).
Qed.

Lemma phased_fresh l : fresh_local l -> phased l.
Proof.
  intros Hf. pose proof (accounted_fresh _ Hf) as Hacc. destruct Hf as ((i & p & E & Hp) & Esrv & Ht & _).
  assert (Forall (fun t => is_host t.1 = false /\ existsb joining t.2 = false /\ count cleaning t.2 = 0) (l_threads l)) as Hz.
  { eapply list.Forall_impl; [exact Ht|]. intros [r prog] [Hr Hfit]. cbn [fst snd] in *. subst r. split; [done|].
    pose proof (fits_no_work CallbackThread prog (fun _ _ => ltac:(discriminate)) Hfit) as H0.
    pose proof (count_le cleaning any_work prog cleaning_work). split; [|lia].
    apply not_true_iff_false. rewrite existsb_exists. intros (j & Hj & Hk). rewrite forallb_forall in Hfit. specialize (Hfit j Hj). by destruct j. }
  rewrite list.Forall_forall in Hz. constructor; [done|rewrite E| |].
  - constructor; cbn; try done. intros Hend. exfalso. rewrite !elem_of_cons, elem_of_nil in Hp. by destruct Hp as [->|[->|[]]].
  - constructor; rewrite ?E, ?Esrv; cbn.
    + apply hosts_none. rewrite list.Forall_forall. intros t Hin. apply (Hz t Hin).
    + rewrite list.Forall_forall. intros t Hin. destruct (Hz t Hin) as (Z1 & Z2 & _). unfold thread_ok. rewrite Z1. split; [by rewrite Z2|].
      intros Hu%uncovered_joining. by rewrite Z2 in Hu.
    + done.
  - rewrite tally_zero; [by rewrite E|]. rewrite list.Forall_forall. intros t Hin. apply (Hz t Hin).
Qed.

Lemma reachable_phased c sid s : reachable c -> aget sid (sessions c) = Some s -> phased (project sid c s).
Proof. apply (local_invariant rec_limit max_completed token_hex text decode_replace instance_id (fun _ => phased)); [intros _; apply phased_fresh|]. intros. by eapply phased_step. Qed.

(** C2: whatever the interleaving, a session moves along the graph of phases:
    it never goes back, a phase that ends it is final together with the cleanup
    it reports, cleanup begins once, and as long as it has not ended exactly one
    thread is cleaning up; before cleanup and after it none is. *)
Theorem phases_respected x c c' sid s :
  reachable c -> step x c = Some c' -> aget sid (sessions c) = Some s ->
  tally cleaning (threads_of sid c) = b2n (bool_decide (is_Some (cleanup_operation s)) && negb (ended (phase s))) /\
  exists s', aget sid (sessions c') = Some s' /\
    (phase s' = phase s \/ edge (phase s) (phase s') = true) /\
    (ended (phase s) = true -> phase s' = phase s /\ cleanup s' = cleanup s) /\
    (forall op, cleanup_operation s = Some op -> cleanup_operation s' = Some op /\ ending (phase s) = true).
Proof.
  intros Hr Hx Hs. pose proof (reachable_phased _ _ _ Hr Hs) as Hp.
  destruct (step_sound _ _ _ _ _ _ _ _ _ (reachable_sane _ _ _ _ _ _ _ Hr) Hx) as (_ & Hadv & _). destruct (Hadv _ _ Hs) as (s' & Hs' & Hl).
  destruct (phased_step _ _ _ Hp Hl) as [_ [M1 M2 M3 _ _]]. cbn [l_state project] in *. destruct Hp as [_ [I1 _ _ _] _ Hc]. cbn [l_state l_threads project] in *.
  split; [exact Hc|]. exists s'. split_and!; try done.
  - intros He. split; [|by apply M3]. destruct M1 as [|M1]; [done|]. by destruct (phase s), (phase s').
  - intros op Hop. split; [by apply M2|apply I1; eauto].
Qed.

End Phases.
(** A history that closes its session, step by step. *)
Definition released : ctl :=
  demo.play (demo.opening demo.prebuilt ++ demo.preparing ++ demo.settling ++ demo.announcing ++ demo.authorizing ++ demo.acquiring
             ++ demo.launching ++ demo.closing) initial.

#[local] Abbreviation moves := (controller.step 100 128 demo.tok demo.message (fun b => b) (str "instance")).

Lemma released_reached : reachable 100 128 demo.tok demo.message (fun b => b) (str "instance") released.
Proof. apply play_reachable. Qed.

Lemma released_moves :
  exists c' s, moves (Schedule 2 ANone) released = Some c' /\ aget demo.sid (sessions released) = Some s /\
    phase s = session.Closed /\ status (cleanup s) = CleanupSucceeded.
Proof. vm_compute. do 2 eexists. split_and!; reflexivity. Qed.

Lemma phases_respected_witness :
  exists c' s', moves (Schedule 2 ANone) released = Some c' /\ aget demo.sid (sessions c') = Some s' /\ phase s' = session.Closed /\
    status (cleanup s') = CleanupSucceeded.
Proof.
  destruct released_moves as (c' & s & E & Es & H1 & H2). exists c'.
  destruct (phases_respected _ _ _ _ _ _ _ _ _ _ _ released_reached E Es) as (_ & s' & Es' & _ & He & _). exists s'.
  rewrite H1 in He. destruct (He eq_refl) as [-> ->]. split_and!; done.
Defined.
End phases.
