(* ===== verification/SessionLaunch.v ===== *)
(** * What precedes the launch of a worker

    The broker launches at most one worker for a session of [orchestration.py],
    and only after the backend granted the admission it was asked for with the
    challenge of the prepared submission and an attestation of the interface the
    client declared. *)

From Stdlib Require Import ZArith Lia.
From stdpp Require Import base list gmap strings numbers.
From S2P Require Import Prelude PyJson JsonText Protocol ControlProtocol ControlProtocolV2 Canonical Effects Session Orchestration Lifecycle Demo SessionLaws SessionPhases.

Module launch.
Import v1 v2 session controller lifecycle laws phases.

(** The challenge is the prepared submission's, the attestation is of the
    interface of the manifest. *)
Definition matched (s : session_t) (challenge attestation : json) : Prop :=
  exists p ch digest expected, prepared s = Some p /\ getitem p "challenge" = Ok ch /\ py_eqb challenge ch = true /\
    getitem attestation "semanticDigest" = Ok digest /\ getitem (manifest (info s)) "interfaceDigest" = Ok expected /\ py_eqb digest expected = true.

(** Phases before the preparation is complete, after the authorization, and
    before the launch. *)
Definition unprepared (p : phase_t) : bool := match p with session.Open | Authoring | Submitted | Preparing => true | _ => false end.
Definition authorized (p : phase_t) : bool := match p with Authorized | Reserved | Starting | Running => true | _ => false end.
Definition unlaunched (p : phase_t) : bool := match p with Starting | Running | Closing | session.Closed | CleanupFailed => false | _ => true end.

Definition launched (e : entry) : bool := match e with Launched _ _ => true | _ => false end.
(** The backend granted an admission; it returned [admission]. *)
Definition granted_as (admission : Z) (en : list entry) : Prop :=
  exists sid challenge attestation, AuthorizeGranted sid challenge attestation admission ∈ en.
Definition granted (en : list entry) : Prop := exists admission, granted_as admission en.
(** What the backend was asked, or granted. *)
Definition asked_with (e : entry) : option (json * json) :=
  match e with AuthorizeCalled _ challenge attestation | AuthorizeGranted _ challenge attestation _ => Some (challenge, attestation) | _ => None end.

(** The sections of [session.authorize]. *)
Definition authorizing (i : instr) : bool := match i with IAuthorizeCheck _ | IAuthorizeCall _ | IAuthorizeCommit _ => true | _ => false end.
Definition idle (prog : list instr) : bool := forallb (fun i => negb (authorizing i)) prog.

(** The rest of a request: the check comes before the call, the call before the commit. *)
Definition in_order (s : session_t) (en : list entry) (prog : list instr) : Prop :=
  match prog with
  | [IAuthorizeCheck a; IAuthorizeCall b] => a = b
  | [IAuthorizeCall args] => matched s (arg args "challenge") (arg args "attestation") /\ unprepared (phase s) = false
  | [IAuthorizeCommit admission] => granted_as admission en
  | _ => idle prog = true
  end.

Record launchable (l : local) : Prop := Launchable {
  la_phased : phased l;
  la_prog : in_order (l_state l) (l_entries l) (l_server l);
  la_called : forall e challenge attestation, e ∈ l_entries l -> asked_with e = Some (challenge, attestation) ->
    matched (l_state l) challenge attestation /\ unprepared (phase (l_state l)) = false;
  la_authorized : authorized (phase (l_state l)) = true -> granted (l_entries l);
  la_unlaunched : unlaunched (phase (l_state l)) = true -> existsb launched (l_entries l) = false;
  la_order : forall pre sid w post, l_entries l = pre ++ Launched sid w :: post -> granted pre /\ existsb launched (pre ++ post) = false }.

Lemma matched_moved s s' ch att : moved s s' -> unprepared (phase s) = false -> matched s ch att -> matched s' ch att.
Proof.
  intros [_ _ _ Hi [Hp|Hp]] Hu (p & c & d & e & H). { exists p, c, d, e. by rewrite Hi, Hp. } by rewrite Hp in Hu.
Qed.
Lemma prepared_moved s s' : moved s s' -> unprepared (phase s) = false -> unprepared (phase s') = false.
Proof. intros [[->|He] _ _ _ _]; [done|]. by destruct (phase s), (phase s'). Qed.
Lemma unlaunched_moved s s' : moved s s' -> unlaunched (phase s') = true -> unlaunched (phase s) = true.
Proof. intros [[->|He] _ _ _ _]; [done|]. by destruct (phase s), (phase s'). Qed.
Lemma granted_as_app x en en' : granted_as x en -> granted_as x (en ++ en').
Proof. intros (sid & c & a & H). exists sid, c, a. apply elem_of_app. by left. Qed.
Lemma granted_app en en' : granted en -> granted (en ++ en').
Proof. intros [x H]. exists x. by apply granted_as_app. Qed.

(** No launch among the new entries. *)
Lemma order_app (en new : list entry) :
  existsb launched new = false ->
  (forall pre sid w post, en = pre ++ Launched sid w :: post -> granted pre /\ existsb launched (pre ++ post) = false) ->
  forall pre sid w post, en ++ new = pre ++ Launched sid w :: post -> granted pre /\ existsb launched (pre ++ post) = false.
Proof.
  intros Hn H pre sid w post E. apply app_eq_app in E as (k & [[-> E]|[-> E]]).
  - destruct k as [|e k].
    + cbn in E. exfalso. subst new. cbn in Hn. done.
    + injection E as <- ->. destruct (H _ _ _ _ eq_refl) as [H1 H2]. split; [done|]. rewrite existsb_app in *. rewrite existsb_app, Hn. by rewrite orb_false_r.
  - exfalso. subst new. rewrite existsb_app in Hn. cbn in Hn. by rewrite orb_true_r in Hn.
Qed.

Section Launch.
Context (rec_limit : nat) (max_completed : Z) (token_hex : nat -> pystr) (text : exn -> pystr) (decode_replace : bytes -> pystr).
Context (instance_id : pystr) `{!Inj (=) (=) token_hex}.

#[local] Abbreviation exec_session := (exec_session max_completed decode_replace).
#[local] Abbreviation step := (step rec_limit max_completed token_hex text decode_replace instance_id).
#[local] Abbreviation lstep := (lstep max_completed text decode_replace).
#[local] Abbreviation reachable := (reachable rec_limit max_completed token_hex text decode_replace instance_id).

(** What a section logs, and what it leaves of an authorization. *)
Lemma exec_log srv cl tok sid i a s f :
  exec_session srv cl tok sid i a s = Some f ->
  existsb launched (f_log f) = false /\
  (forall e c att, e ∈ f_log f -> asked_with e = Some (c, att) -> exists args, i = IAuthorizeCall args /\ c = arg args "challenge" /\ att = arg args "attestation").
Proof.
  intros H. open_section H; open_effect; split; try done; intros en c att Hin He; rewrite ?elem_of_cons, elem_of_nil in Hin;
    destruct_or?; subst; try done; injection He as <- <-; eauto.
Qed.

Lemma exec_idle srv cl tok sid i a s f :
  exec_session srv cl tok sid i a s = Some f -> authorizing i = false -> idle (next_instrs (f_next f)) = true.
Proof. intros H Hi. open_section H; try discriminate Hi; open_effect; done. Qed.

Lemma handler_in_order id op args s en : in_order s en (handler id op args).
Proof. unfold handler. repeat case_bool_decide; done. Qed.

Lemma idle_in_order s en prog : idle prog = true -> in_order s en prog.
Proof. intros H. destruct prog as [|[] [|[] [|? ?]]]; done. Qed.

Lemma in_order_cons s en i rest : in_order s en (i :: rest) -> authorizing i = false -> idle rest = true.
Proof. intros H Hi. destruct i; try discriminate Hi; destruct rest as [|[] [|? ?]]; done. Qed.
(** A step that launches nothing. *)
Lemma launchable_move l l' new :
  launchable l -> phased l' -> moved (l_state l) (l_state l') -> l_entries l' = l_entries l ++ new -> existsb launched new = false ->
  (forall e c att, e ∈ new -> asked_with e = Some (c, att) -> matched (l_state l) c att /\ unprepared (phase (l_state l)) = false) ->
  (authorized (phase (l_state l')) = true -> authorized (phase (l_state l)) = true \/ granted (l_entries l)) ->
  in_order (l_state l') (l_entries l') (l_server l') -> launchable l'.
Proof.
  intros [_ _ Hc Ha Hu Ho] Hp Hm E Hn Hcall Hauth Hprog. constructor; try done; rewrite E.
  - intros e c att Hin He. assert (matched (l_state l) c att /\ unprepared (phase (l_state l)) = false) as [H1 H2].
    { apply elem_of_app in Hin as [Hin|Hin]; [by apply (Hc e)|by apply (Hcall e)]. }
    split; [by eapply matched_moved|by eapply prepared_moved].
  - intros H. apply granted_app. destruct (Hauth H); auto.
  - intros H. rewrite existsb_app, Hn, Hu; [done|]. by eapply unlaunched_moved.
  - by apply order_app.
Qed.

Lemma launchable_same l l' :
  launchable l -> phased l' -> l_state l' = l_state l -> l_entries l' = l_entries l -> in_order (l_state l') (l_entries l') (l_server l') -> launchable l'.
Proof.
  intros Hl Hp E1 E2 Hprog. apply (launchable_move l l' []); try done; rewrite ?E1; [apply moved_refl|by rewrite app_nil_r|by intros ??? ?%elem_of_nil|by left].
Qed.

(** Only the commit authorizes. *)
Lemma change_authorized i s f :
  change i s f -> authorized (phase (f_session f)) = true -> authorized (phase s) = true \/ exists x, i = IAuthorizeCommit x.
Proof.
  intros [[_ _ _ Hp Ha _ _ _ _] _ _|[_ _ _ _ Hp _ _] _ _|[_ _ _ Hp _] _ _|[_ _ _ Hp _ _ _ _] _ _|_ _ Hi _] H; [| | | |by right].
  - left. destruct Hp as [Hp|[Hp _]]; [by rewrite <- Hp|]. destruct (phase s), (phase (f_session f)); try done. by specialize (Ha eq_refl).
  - by rewrite Hp in H.
  - by destruct (phase (f_session f)).
  - left. by rewrite <- Hp.
Qed.

Lemma check_matched args s : authorize_check args s = Ok tt -> matched s (arg args "challenge") (arg args "attestation") /\ phase s = session.Prepared.
Proof.
  unfold authorize_check. intros H. inv_res. destruct (phase s) eqn:Ep; try done. destruct (prepared s) as [p|] eqn:Eq; [|done]. inv_res. bool_hyps.
  split; [|done]. unfold matched, arg. repeat match goal with H : getitem args _ = Ok _ |- _ => rewrite H; clear H end.
  eexists _, _, _, _. by split_and!.
Qed.

(** The server's next section. *)
Lemma server_in_order cl tok sid i rest a s f en :
  exec_session true cl tok sid i a s = Some f -> in_order s en (i :: rest) ->
  in_order (f_session f) (en ++ f_log f) (server_next (f_next f) rest).
Proof.
  intros Hf Hin. destruct (authorizing i) eqn:Ei.
  - destruct i; try discriminate Ei.
    + destruct rest as [|[] [|? ?]]; try discriminate Hin. cbn in Hin. subst args0. apply (inj Some) in Hf as <-. unfold sect, reading.
      destruct (authorize_check args s) as [[]|e] eqn:E; [|done]. cbn [f_session f_next f_log quiet server_next app].
      apply check_matched in E as [E1 E2]. split; [done|by rewrite E2].
    + destruct rest as [|? ?]; [|discriminate Hin]. cbn in Hf. destruct a; try discriminate Hf; apply (inj Some) in Hf as <-; [done|].
      cbn. eexists _, _, _. apply elem_of_app. right. apply elem_of_cons. right. by left.
    + destruct rest as [|? ?]; [|discriminate Hin]. apply (inj Some) in Hf as <-. unfold with_token, sect. by destruct (authorize_commit a0 tok s) as [s' [x|e]].
  - apply idle_in_order. pose proof (exec_idle _ _ _ _ _ _ _ _ Hf Ei) as Hn. pose proof (in_order_cons _ _ _ _ Hin Ei) as Hr.
    destruct (f_next f); cbn in *; try done. unfold idle in *. by rewrite forallb_app, Hn, Hr.
Qed.

Lemma in_order_moved s s' en new prog : moved s s' -> in_order s en prog -> in_order s' (en ++ new) prog.
Proof.
  intros Hm. destruct prog as [|[] [|[] [|? ?]]]; try done; cbn.
  - intros [H1 H2]. split; [by eapply matched_moved|by eapply prepared_moved].
  - apply granted_as_app.
Qed.

(** Threads make changes, too. *)
Lemma thread_change cl tok sid r i rest a f s srv ths ths1 ev en :
  phased (Local s srv ths ev en) -> ths ≡ₚ (r, i :: rest) :: ths1 -> exec_session false cl tok sid i a s = Some f -> change i s f /\ authorizing i = false.
Proof.
  intros [[[Hfit _] _ _ _] Hi [_ Ht _] _] Hp Hf. cbn [l_state l_threads] in *. rewrite Hp in Hfit, Ht. apply list.Forall_cons in Hfit as [Hfit _], Ht as [Ht _].
  cbn in Hfit. apply andb_true_iff in Hfit as [Hfit _]. split; [|by destruct r, i]. eapply exec_change; [done|done|]. intros ->.
  destruct r; try discriminate Hfit. destruct Ht as [_ Ht]. apply Ht. by eexists.
Qed.

Lemma no_call srv cl tok sid i a s f :
  exec_session srv cl tok sid i a s = Some f -> authorizing i = false ->
  existsb launched (f_log f) = false /\ forall e c att, e ∈ f_log f -> asked_with e = Some (c, att) -> False.
Proof.
  intros H Hi. destruct (exec_log _ _ _ _ _ _ _ _ H) as [H1 H2]. split; [done|]. intros e c att Hin He. by destruct (H2 _ _ _ Hin He) as (? & -> & _).
Qed.

Lemma launchable_step sid l l' : launchable l -> lstep sid l l' -> launchable l'.
Proof.
  intros Hl H. pose proof Hl as [Hph Hprog Hcl Ha Hu Ho]. destruct (phased_step _ _ _ _ _ _ Hph H) as [Hp' Hm].
  pose proof (p_accounted _ Hph) as [[Hfit Hsrv] _ _ _].
  lstep_cases H; cbn [l_state l_threads l_server l_entries] in *.
  - apply (launchable_same _ _ Hl); try done. apply handler_in_order.
  - by apply (launchable_same _ _ Hl).
  - destruct (exec_log _ _ _ _ _ _ _ _ Hf) as [Hlog Hcall]. pose proof (p_inv _ Hph) as Hi. apply andb_true_iff in Hsrv as [Hs _].
    assert (change i s f) as Hch by (eapply exec_change; [done|done|by intros ->]).
    apply (launchable_move _ _ (f_log f) Hl); try done; cbn [l_state l_entries l_server].
    + intros e c att Hin He. destruct (Hcall _ _ _ Hin He) as (args & -> & -> & ->). destruct rest; [done|discriminate Hprog].
    + intros Hx. destruct (change_authorized _ _ _ Hch Hx) as [|[x ->]]; [by left|right]. destruct rest; [by exists x|discriminate Hprog].
    + by eapply server_in_order.
  - apply (launchable_same _ _ Hl); try done. cbn [l_state l_entries l_server]. apply idle_in_order.
    assert (authorizing i = false) as Hi by (by destruct i). pose proof (in_order_cons _ _ _ _ Hprog Hi) as Hr.
    unfold idle in *. rewrite forallb_app, Hr, andb_true_r.
    destruct i; cbn in Hc; try done; [by destruct Hc as (? & ? & ? & ? & ->)|by subst|by destruct Hc as ([] & ->)].
  - destruct (no_call _ _ _ _ _ _ _ _ Hf eq_refl) as [Hlog Hcall]. pose proof (p_inv _ Hph) as Hi.
    assert (change (ICleanup "client-failure") s f) as Hch by (eapply exec_change; [done|done|by intros]).
    apply (launchable_move _ _ (f_log f) Hl); try done; cbn [l_state l_entries l_server].
    + intros e c att Hin He. by destruct (Hcall _ _ _ Hin He).
    + intros Hx. destruct (change_authorized _ _ _ Hch Hx) as [|[x Hx']]; [by left|discriminate Hx'].
  - destruct (thread_change _ _ _ _ _ _ _ _ _ _ _ _ _ _ Hph Hp1 Hf) as [Hch Hn]. destruct (no_call _ _ _ _ _ _ _ _ Hf Hn) as [Hlog Hcall].
    apply (launchable_move _ _ (f_log f) Hl); try done; cbn [l_state l_entries l_server].
    + intros e c att Hin He. by destruct (Hcall _ _ _ Hin He).
    + intros Hx. destruct (change_authorized _ _ _ Hch Hx) as [|[x ->]]; [by left|discriminate Hn].
    + by eapply in_order_moved.
  - by apply (launchable_same _ _ Hl).
  - by apply (launchable_same _ _ Hl).
  - by apply (launchable_same _ _ Hl).
  - unfold _launch_guard in *. destruct (_ || _) eqn:Hg; cbn [fst snd] in *; [by apply (launchable_same _ _ Hl); [| |cbn; rewrite app_nil_r|cbn; rewrite app_nil_r]|].
    assert (phase s = Reserved) as Hr by (by bool_hyps). rewrite Hr in *.
    assert (granted en) as Hcalled by (by apply Ha). assert (existsb launched en = false) as Hnone by (by apply Hu).
    constructor; try done; cbn [l_state l_entries l_server].
    + by eapply in_order_moved.
    + intros e c att [Hin|Hin]%elem_of_app He; [|apply list_elem_of_singleton in Hin; by subst e]. destruct (Hcl _ _ _ Hin He) as [H1 H2]. split; [|done].
      eapply matched_moved; [exact Hm|by rewrite Hr|done].
    + intros _. by apply granted_app.
    + intros pre sid' w' post E. apply app_eq_app in E as (k & [[-> E]|[-> E]]).
      * destruct k as [|e k]; [|exfalso; injection E as <- ->; rewrite existsb_app in Hnone; cbn in Hnone; by rewrite orb_true_r in Hnone].
        injection E as <- <- ?. subst post. by rewrite !app_nil_r in *.
      * destruct k as [|e k]; [|by destruct k]. injection E as <- <- ?. subst post. by rewrite !app_nil_r in *.
  - by apply (launchable_same _ _ Hl).
Qed.

Lemma launchable_fresh l : fresh_local l -> launchable l.
Proof.
  intros Hf. pose proof (phased_fresh l Hf) as Hp.
  destruct Hf as ((i & p & E & Hin) & Esrv & _ & _ & Een).
  constructor; rewrite ?E, ?Esrv, ?Een; try done.
  - by intros ??? ?%elem_of_nil.
  - rewrite !elem_of_cons, elem_of_nil in Hin. by destruct Hin as [->|[->|[]]].
  - intros pre sid w post Hpre. by destruct pre.
Qed.

Lemma reachable_launchable c sid s : reachable c -> aget sid (sessions c) = Some s -> launchable (project sid c s).
Proof.
  apply (local_invariant rec_limit max_completed token_hex text decode_replace instance_id (fun _ => launchable)); [intros _; apply launchable_fresh|].
  intros. by eapply launchable_step.
Qed.

(** C1: a worker is launched at most once in a session, and only after the
    backend authorized it: [authorize_admission] had returned an admission, for the
    challenge of the submission that was prepared and an attestation whose digest
    is the declared interface's.  No other challenge or attestation ever reaches
    the backend, and a call the backend refuses authorizes nothing. *)
Theorem launch_authorized c sid s pre sid' w post :
  reachable c -> aget sid (sessions c) = Some s -> entries_of sid c = pre ++ Launched sid' w :: post ->
  existsb launched (pre ++ post) = false /\
  (exists challenge attestation admission, AuthorizeGranted sid challenge attestation admission ∈ pre /\ matched s challenge attestation) /\
  forall challenge attestation, AuthorizeCalled sid challenge attestation ∈ entries_of sid c -> matched s challenge attestation.
Proof.
  intros Hr Hs E. pose proof (reachable_launchable _ _ _ Hr Hs) as [_ _ Hc _ _ Ho]. cbn [l_state l_entries project] in *.
  destruct (Ho _ _ _ _ E) as [(x & sid1 & c1 & a1 & Hin) H2]. split; [done|]. split.
  - assert (AuthorizeGranted sid1 c1 a1 x ∈ entries_of sid c) as Hx by (rewrite E; apply elem_of_app; by left).
    pose proof Hx as [[= ->] _]%list_elem_of_filter. exists c1, a1, x. split; [done|]. by apply (Hc _ _ _ Hx).
  - intros ch att Hx. by apply (Hc _ _ _ Hx).
Qed.
End Launch.
(** The worker of the concrete history. *)
Definition running : ctl :=
  demo.play (demo.opening demo.prebuilt ++ demo.preparing ++ demo.settling ++ demo.announcing ++ demo.authorizing ++ demo.acquiring
             ++ demo.launching) initial.

Lemma running_reached : reachable 100 128 demo.tok demo.message (fun b => b) (str "instance") running.
Proof. apply play_reachable. Qed.

Lemma running_entries :
  exists s pre, aget demo.sid (sessions running) = Some s /\ entries_of demo.sid running = pre ++ [Launched demo.sid (demo.tok 3)] /\
    phase s = Running.
Proof. vm_compute. eexists _, [_; _; _]. split_and!; reflexivity. Qed.

Lemma launch_authorized_witness :
  exists pre challenge attestation admission, entries_of demo.sid running = pre ++ [Launched demo.sid (demo.tok 3)] /\
    AuthorizeGranted demo.sid challenge attestation admission ∈ pre.
Proof.
  destruct running_entries as (s & pre & Es & E & _).
  destruct (launch_authorized _ _ _ _ _ _ _ _ _ _ _ _ _ running_reached Es E) as (_ & (ch & att & x & Hin & _) & _).
  exists pre, ch, att, x. split; [exact E|exact Hin].
Defined.
End launch.
