(* ===== verification/SessionProgress.v ===== *)
(** * Progress of the orchestration controller

    The threads of [orchestration.py] come to an end: every section of a thread
    that is not given more output by the backend makes a measure of all the work
    left smaller, and no thread is ever stuck, so the threads can always be
    driven to their end, and then no operation is pending. *)

From Stdlib Require Import ZArith Lia.
From stdpp Require Import base list gmap strings numbers.
From S2P Require Import Prelude PyJson JsonText Protocol ControlProtocol ControlProtocolV2 Canonical Effects Session Orchestration Lifecycle Demo SessionLaws SessionPhases.

Module progress.
Import v1 v2 session controller lifecycle laws phases.

(** ** The work left *)

(** What an exception costs a thread at most: the sections of [on_raise]. *)
Definition raise_cost (r : role) : nat :=
  match r with OpThread _ false => 7 | OpThread _ true => 31 | HostThread => 28 | BrokerThread | CallbackThread => 0 end.

(** How many sections one section stands for, with those it leaves and those
    of the thread it may start; [k] is what an exception costs. *)
Definition weight (k : nat) (i : instr) : nat :=
  match i with
  | IFinishEvent _ | IClosedEvent | ITerminalHost _ => 2
  | IClosedCheck _ => 3
  | IJoinHost => 4
  | ICleanup _ => 24
  | IHostCheck | IDeadline => 25
  | IHostDone | IWorkerPhase _ _ => 26
  | IWorkerEvent _ _ => 27
  | ICleanupAbort _ _ | IHostExecuteEnd _ | ISubmitFailed _ => k + 1
  | ICleanupCommit _ _ _ _ | IAuthoringEnd _ _ | IPrepareCommit _ _ _ | IHostExecuteCall _ _ _ => k + 2
  | ICleanupSession _ _ _ | IAuthoringWork _ _ _ | IPrepareWork _ | IHostRun | IHostExecute | ISubmitCommit _ => k + 3
  | ICleanupRelease _ _ _ _ | ISubmitCall => k + 4
  | ICleanupJoined _ _ | IHostBegin => k + 5
  | ISubmit => k + 6
  | ICleanupWork _ _ _ => k + 10
  | IOutput _ _ _ chunks => k + 1 + 2 * length chunks
  | _ => 1
  end.

Definition work (k : nat) (prog : list instr) : nat := sum_list_with (weight k) prog.
Definition burden (t : role * list instr) : nat := work (raise_cost t.1) t.2.
Definition total (c : ctl) : nat := sum_list_with (fun t => burden (code t)) (all_threads c).

(** The backend's output is not bounded by the controller. *)
Definition final (a : answer) : bool := match a with AData _ _ => false | _ => true end.

Lemma work_app k l1 l2 : work k (l1 ++ l2) = work k l1 + work k l2.
Proof. apply sum_list_with_app. Qed.
Lemma work_cons k i l : work k (i :: l) = weight k i + work k l.
Proof. done. Qed.

Section Progress.
Context (rec_limit : nat) (max_completed : Z) (token_hex : nat -> pystr) (text : exn -> pystr) (decode_replace : bytes -> pystr).
Context (instance_id : pystr) `{!Inj (=) (=) token_hex}.

#[local] Abbreviation exec_session := (exec_session max_completed decode_replace).
#[local] Abbreviation on_raise := (on_raise text).
#[local] Abbreviation thread_next := (thread_next text).
#[local] Abbreviation step := (step rec_limit max_completed token_hex text decode_replace instance_id).
#[local] Abbreviation run := (run rec_limit max_completed token_hex text decode_replace instance_id).
#[local] Abbreviation run_thread := (run_thread rec_limit max_completed token_hex text decode_replace instance_id).
#[local] Abbreviation reachable := (reachable rec_limit max_completed token_hex text decode_replace instance_id).

Lemma on_raise_work r e : work (raise_cost r) (on_raise r e) = raise_cost r.
Proof. by destruct r as [op []| | |]. Qed.

(** What a section leaves and starts is less than what it stood for. *)
Lemma exec_weight cl tok sid r i a s f :
  exec_session false cl tok sid i a s = Some f -> fits r i = true -> final a = true ->
  sum_list_with burden (started f) +
  match f_next f with Continue more | Enter _ more => work (raise_cost r) more | Raise _ => raise_cost r | _ => 0 end < weight (raise_cost r) i.
Proof.
  intros H Hi Ha. open_section H; destruct r; try discriminate Hi; try discriminate Ha.
  all: try (open_effect; unfold work, burden; cbn; lia).
Qed.

(** An answer that lets a section run. *)
Definition answer_for (i : instr) : answer :=
  match i with
  | IAuthoringWork _ _ _ | IHostExecuteCall _ _ _ => AExit 0
  | IPrepareWork _ | ICleanupRelease _ _ _ _ | ICleanupSession _ _ _ | IHostRun | ISubmitCall => ARaise KeyError
  | _ => ANone
  end.

Lemma exec_enabled cl tok sid r i s : fits r i = true -> family_of i <> Controller -> is_Some (exec_session false cl tok sid i (answer_for i) s).
Proof.
  intros Hi Hc. destruct r, i; try discriminate Hi; try done; unfold exec_session, controller.exec_session, answer_for; cbn; repeat case_match; try done; by eexists.
Qed.

Lemma total_perm c l : all_threads c ≡ₚ l -> total c = sum_list_with (fun t => burden (code t)) l.
Proof. intros H. unfold total. revert H. generalize (all_threads c). intros l0 H. induction H; cbn [sum_list_with]; lia. Qed.

Lemma burden_sum l : sum_list_with (fun t => burden (code t)) l = sum_list_with burden (code <$> l).
Proof. induction l as [|t l IH]; [done|]. rewrite fmap_cons. cbn [sum_list_with]. by rewrite IH. Qed.

Lemma weight_positive k i : 0 < weight k i.
Proof. destruct i; cbn; lia. Qed.

(** What is left of a thread after a section. *)
Lemma thread_weight cl tok sid r i rest a s f :
  exec_session false cl tok sid i a s = Some f -> fits r i = true -> final a = true ->
  sum_list_with burden (started f) + work (raise_cost r) (thread_next r (f_next f) rest) < work (raise_cost r) (i :: rest).
Proof.
  intros H Hi Ha. pose proof (exec_weight _ _ _ _ _ _ _ _ H Hi Ha) as Hw. rewrite work_cons.
  destruct (f_next f); cbn [controller.thread_next]; rewrite ?work_app; try lia; [cbn; lia|cbn; lia|]. rewrite on_raise_work. lia.
Qed.

(** One section of a thread, as the controller runs it. *)
Lemma exec_lessens sid r i rest a c c1 x :
  sane token_hex c -> Thread sid r (i :: rest) ∈ threads c -> fits r i = true -> final a = true ->
  exec rec_limit max_completed token_hex decode_replace instance_id false sid i a c = Some (c1, x) ->
  exists new extra, all_threads c1 ≡ₚ new ++ all_threads c /\ threads c1 = threads c ++ extra /\
    sum_list_with (fun t => burden (code t)) new + work (raise_cost r) (thread_next r x rest) < work (raise_cost r) (i :: rest) /\
    dispatching c1 = dispatching c /\ server c1 = server c.
Proof.
  intros Hsane Hin Hfit Ha He. pose proof (weight_positive (raise_cost r) i) as Hpos. unfold exec in He.
  destruct (decide (family_of i = Controller)) as [Hfam|Hfam].
  - rewrite Hfam in He. exists [], []. rewrite app_nil_r. cbn [app sum_list_with].
    destruct r, i; try discriminate Hfit; try discriminate Hfam; cbn [exec_controller] in He; injection He as <- <-; (split_and!; [done|done| |done|done]);
      rewrite work_cons; cbn [controller.thread_next]; rewrite ?work_app; try (cbn; lia). destruct (bool_decide _); cbn; lia.
  - assert (match aget sid (sessions c) with
      | None => Some (c, Raise (_fail "HANDLE_INVALID" "policy"))
      | Some s => match exec_session false (closed c) (token_hex (tokens c)) sid i a s with
                  | Some f => Some (apply false sid f c, f_next f) | None => None end end = Some (c1, x)) as He' by (by destruct (family_of i)).
    clear He. destruct (aget sid (sessions c)) as [s|] eqn:Hs.
    + destruct (exec_session _ _ _ _ _ _ _) as [f|] eqn:Hf; [|done]. injection He' as <- <-.
      assert (family_of i <> Request) as Hreq by (intros E; by destruct r, i).
      destruct (exec_session_instrs _ _ _ _ _ _ _ _ _ _ Hf) as (_ & _ & _ & Hlog & _ & [Hdef|]); [|done].
      destruct (apply_effect false sid f c Hlog (g_flushed _ _ Hsane) (or_intror Hdef)) as (_ & _ & E2 & [extra E3] & E4 & E5 & _).
      exists (f_spawn f ++ f_deferred f), extra. split_and!; try done. rewrite burden_sum.
      change (code <$> (f_spawn f ++ f_deferred f)) with (started f). by eapply thread_weight.
    + injection He' as <- <-. exists [], []. rewrite app_nil_r. split_and!; try done. cbn [sum_list_with controller.thread_next]. rewrite on_raise_work, work_cons.
      destruct (g_unknown _ _ Hsane sid Hs) as [Hu _]. rewrite list.Forall_forall in Hu.
      assert (code (Thread sid r (i :: rest)) ∈ threads_of sid c) as Hx.
      { apply list_elem_of_fmap. exists (Thread sid r (i :: rest)). split; [done|]. apply list_elem_of_filter. split; [done|]. apply elem_of_app. by left. }
      apply Hu in Hx. cbn in Hx. subst r. change (raise_cost CallbackThread) with 0 in *. lia.
Qed.

(** A thread's step lessens the work. *)
Lemma step_lessens n a c c' :
  sane token_hex c -> final a = true -> run_thread n a c = Some c' ->
  total c' < total c /\ dispatching c' = dispatching c /\ server c' = server c.
Proof.
  intros Hsane Ha H. unfold run_thread, controller.run_thread in H. destruct (threads c !! n) as [[sid r [|i rest]]|] eqn:Hn; try discriminate H.
  assert (fits r i = true) as Hfit.
  { pose proof (g_threads _ _ Hsane) as G. unfold all_threads in G. apply Forall_app in G as [G _]. rewrite Forall_lookup in G.
    specialize (G _ _ Hn). cbn in G. by apply andb_true_iff in G as [? _]. }
  destruct (exec _ _ _ _ _ _ _ _ _ _) as [[c1 x]|] eqn:He; [|done]. injection H as <-.
  destruct (exec_lessens _ _ _ _ _ _ _ _ Hsane (list_elem_of_lookup_2 _ _ _ Hn) Hfit Ha He) as (new & extra & E1 & E2 & E3 & E4 & E5).
  split; [|done].
  assert (threads c1 = take n (threads c1) ++ Thread sid r (i :: rest) :: drop (S n) (threads c1)) as Et.
  { symmetry. apply take_drop_middle. rewrite E2. rewrite lookup_app_l; [done|by eapply lookup_lt_Some]. }
  set (others := take n (threads c1) ++ drop (S n) (threads c1) ++ pending_starts c1).
  assert (all_threads c1 ≡ₚ Thread sid r (i :: rest) :: others) as P1.
  { unfold all_threads. rewrite Et at 1. unfold others. rewrite <- app_assoc. cbn [app]. symmetry. apply Permutation_middle. }
  set (c2 := set_threads _ _).
  assert (all_threads c2 ≡ₚ Thread sid r (thread_next r x rest) :: others) as P2.
  { unfold all_threads, c2. cbn. rewrite insert_take_drop by (rewrite E2, length_app; apply lookup_lt_Some in Hn; lia).
    unfold others. rewrite <- app_assoc. cbn [app]. symmetry. apply Permutation_middle. }
  rewrite (total_perm _ _ P2). pose proof (total_perm _ _ P1) as T1. rewrite (total_perm _ _ E1) in T1.
  rewrite sum_list_with_app in T1. fold (total c) in T1. cbn [sum_list_with code burden fst snd t_role t_prog] in *. unfold burden in *. cbn [fst snd code t_role t_prog] in *. lia.
Qed.

(** No thread is stuck. *)
Lemma step_enabled n t c :
  sane token_hex c -> threads c !! n = Some t -> t_prog t <> [] -> exists a, final a = true /\ is_Some (run_thread n a c).
Proof.
  intros Hsane Hn Hne. unfold run_thread, controller.run_thread. rewrite Hn. destruct t as [sid r [|i rest]]; [done|]. clear Hne.
  assert (fits r i = true) as Hfit.
  { pose proof (g_threads _ _ Hsane) as G. unfold all_threads in G. apply Forall_app in G as [G _]. rewrite Forall_lookup in G.
    specialize (G _ _ Hn). cbn in G. by apply andb_true_iff in G as [? _]. }
  exists (answer_for i). split; [by destruct i|]. unfold exec. destruct (decide (family_of i = Controller)) as [Hfam|Hfam].
  - rewrite Hfam. destruct r, i; try discriminate Hfit; try discriminate Hfam; cbn; by eexists.
  - destruct (aget sid (sessions c)) as [s|]; [|destruct (family_of i); try done; by eexists].
    pose proof (exec_enabled (closed c) (token_hex (tokens c)) sid r i s Hfit Hfam) as [f Hf].
    destruct (family_of i); try done; rewrite Hf; by eexists.
Qed.

(** ** Schedules of threads *)
Definition thread_choice (x : choice) : bool := match x with Schedule _ a => final a | _ => false end.

(** A schedule every choice of which can run. *)
Fixpoint steps (schedule : list choice) (c : ctl) : option ctl :=
  match schedule with [] => Some c | x :: rest => match step x c with Some c' => steps rest c' | None => None end end.

(** Every thread has come to its end, every operation has its result, and every
    cleanup that began is over. *)
Definition at_rest (c : ctl) : Prop :=
  Forall (fun t => t_prog t = []) (threads c) /\
  forall sid s, aget sid (sessions c) = Some s ->
    (forall op o, aget op (op_objects s) = Some o -> is_Some (op_state o)) /\ (is_Some (cleanup_operation s) -> ended (phase s) = true).

Lemma all_done l : Forall (fun t => t_prog t = []) l \/ exists n t, l !! n = Some t /\ t_prog t <> [].
Proof.
  induction l as [|t l [IH|(n & t' & H1 & H2)]]; [by left| |right; by exists (S n), t'].
  destruct (t_prog t) eqn:E; [left; by constructor|]. right. exists 0, t. split; [done|]. by rewrite E.
Qed.

Lemma tally_done g l : Forall (fun t => t.2 = []) l -> tally g l = 0.
Proof. intros H. apply tally_zero. eapply list.Forall_impl; [exact H|]. intros t E. cbn in E. by rewrite E. Qed.

Lemma rest_when_done c : reachable c -> dispatching c = false -> Forall (fun t => t_prog t = []) (threads c) -> at_rest c.
Proof.
  intros Hr Hd Ht. split; [done|]. intros sid s Hs. pose proof (reachable_sane _ _ _ _ _ _ _ Hr) as Hsane.
  destruct (g_flushed _ _ Hsane Hd) as [_ Hp].
  assert (Forall (fun t => t.2 = []) (threads_of sid c)) as Hz.
  { unfold threads_of, all_threads. rewrite Hp, app_nil_r. apply Forall_fmap. apply list.Forall_forall. intros t [_ Hin]%list_elem_of_filter.
    rewrite list.Forall_forall in Ht. by apply Ht. }
  pose proof (reachable_phased _ _ _ _ _ _ _ _ _ Hr Hs) as [[_ _ _ Howed] _ _ Hc]. cbn [l_state l_threads project] in *. split.
  - intros op o Ho. specialize (Howed op). unfold owed in Howed. rewrite (tally_done _ _ Hz) in Howed. unfold pend, pending in Howed. rewrite Ho in Howed.
    destruct (op_state o); [by eexists|done].
  - intros Hcl. rewrite (tally_done _ _ Hz) in Hc. unfold due in Hc. rewrite bool_decide_eq_true_2 in Hc by done. by destruct (ended (phase s)).
Qed.

Lemma steps_bounded schedule c c' :
  reachable c -> forallb thread_choice schedule = true -> steps schedule c = Some c' -> length schedule + total c' <= total c.
Proof.
  revert c. induction schedule as [|x l IH]; intros c Hr Hf H; cbn in *; [by injection H as ->|]. apply andb_true_iff in Hf as [Hx Hl].
  destruct (step x c) as [c1|] eqn:E; [|done]. specialize (IH c1 (reach_step _ _ _ _ _ _ _ _ _ Hr E) Hl H). destruct x; try discriminate Hx.
  destruct (step_lessens _ _ _ _ (reachable_sane _ _ _ _ _ _ _ Hr) Hx E). lia.
Qed.

Lemma drain m c : total c <= m -> reachable c -> dispatching c = false ->
  exists schedule c', forallb thread_choice schedule = true /\ steps schedule c = Some c' /\ at_rest c'.
Proof.
  revert c. induction m as [|m IH]; intros c Hm Hr Hd.
  all: destruct (all_done (threads c)) as [Ht|(n & t & Hn & Hne)]; [exists [], c; split_and!; [done|done|by apply rest_when_done]|].
  all: destruct (step_enabled n t c (reachable_sane _ _ _ _ _ _ _ Hr) Hn Hne) as (a & Ha & c1 & E).
  all: destruct (step_lessens _ _ _ _ (reachable_sane _ _ _ _ _ _ _ Hr) Ha E) as (Hlt & Hd' & _).
  all: try lia.
  destruct (IH c1) as (schedule & c' & F & Hs & Hrest); [lia|by eapply (reach_step _ _ _ _ _ _ (Schedule n a))|by rewrite Hd'|].
  exists (Schedule n a :: schedule), c'. split_and!; [cbn; by rewrite Ha, F| |done]. cbn. by rewrite E.
Qed.

(** C4: the threads end.  From every reachable controller between requests,
    steps of the threads alone, without more output from the backend, can only
    be taken a bounded number of times, however they interleave; and some of
    them lead to a state where every thread is over, every operation has its
    result, and every cleanup that began has ended.  No thread waits for another. *)
Theorem threads_end c :
  reachable c -> dispatching c = false ->
  (forall schedule c', forallb thread_choice schedule = true -> steps schedule c = Some c' -> length schedule <= total c) /\
  exists schedule c', forallb thread_choice schedule = true /\ steps schedule c = Some c' /\ at_rest c'.
Proof.
  intros Hr Hd. split; [|by eapply drain]. intros schedule c' Hf H. pose proof (steps_bounded _ _ _ Hr Hf H). lia.
Qed.
End Progress.

(** The history that closes its session ends. *)
Lemma released_between : dispatching released = false /\ total released = 7.
Proof. vm_compute. done. Qed.

Lemma threads_end_witness :
  exists schedule c', forallb thread_choice schedule = true /\
    steps 100 128 demo.tok demo.message (fun b => b) (str "instance") schedule released = Some c' /\ at_rest c'.
Proof. apply (threads_end _ _ _ _ _ _ _ released_reached (proj1 released_between)). Defined.
End progress.
