(* ===== verification/SessionEvents.v ===== *)
(** * The events of a connection

    The events [orchestration.py] sends are numbered from one without a gap,
    in the order in which they leave, whatever threads emit them. *)

From Stdlib Require Import ZArith Lia.
From stdpp Require Import base list gmap strings numbers.
From S2P Require Import Prelude PyJson JsonText Protocol ControlProtocol ControlProtocolV2 Canonical Effects Session Orchestration Lifecycle Demo SessionLaws SessionPhases.

Module events.
Import v1 v2 session controller lifecycle laws phases.

(** The numbers of the events so far: those sent, in the order in which they
    left, and those that wait for a response. *)
Definition numbers (c : ctl) : list Z := ev_seq <$> all_events c.
Definition numbered (c : ctl) : Prop := numbers c = seqZ 1 (seq c) /\ (0 <= seq c)%Z.

(** At most one event is added, with the next number. *)
Definition adds (c c' : ctl) : Prop :=
  (all_events c' = all_events c /\ seq c' = seq c) \/
  exists e, all_events c' = all_events c ++ [e] /\ ev_seq e = (seq c + 1)%Z /\ seq c' = (seq c + 1)%Z.

Lemma adds_numbered c c' : adds c c' -> numbered c -> numbered c'.
Proof.
  unfold numbered, numbers. intros [[-> ->]|(e & -> & He & ->)] [Hn Hs]; [done|]. split; [|lia].
  rewrite fmap_app, Hn. cbn. rewrite He, (seqZ_app 1 (seq c) 1) by lia. f_equal. rewrite seqZ_cons by lia. cbn. f_equal; lia.
Qed.

Lemma adds_nothing c c' : all_events c' = all_events c -> seq c' = seq c -> adds c c'.
Proof. by left. Qed.
Lemma adds_trans_left c1 c2 c3 : adds c1 c2 -> all_events c3 = all_events c2 -> seq c3 = seq c2 -> adds c1 c3.
Proof. unfold adds. by intros H -> ->. Qed.

(** Entries that are no events. *)
Lemma log_no_event l c : Forall (fun e => emitted e = None) l -> all_events (set_log (log c ++ l) c) = all_events c.
Proof.
  intros H. unfold all_events. cbn. rewrite omap_app. assert (omap emitted l = []) as ->; [|by rewrite app_nil_r].
  induction H as [|e l He _ IH]; [done|]. cbn. by rewrite He.
Qed.

Section Events.
Context (rec_limit : nat) (max_completed : Z) (token_hex : nat -> pystr) (text : exn -> pystr) (decode_replace : bytes -> pystr).
Context (instance_id : pystr) `{!Inj (=) (=) token_hex}.

#[local] Abbreviation exec := (exec rec_limit max_completed token_hex decode_replace instance_id).
#[local] Abbreviation step := (step rec_limit max_completed token_hex text decode_replace instance_id).
#[local] Abbreviation reachable := (reachable rec_limit max_completed token_hex text decode_replace instance_id).
#[local] Abbreviation sane := (sane token_hex).

Lemma open_begin_adds args c : adds c (open_begin rec_limit token_hex args c).1 /\ server (open_begin rec_limit token_hex args c).1 = server c.
Proof. unfold open_begin. by destruct (_ ;; _)%res as [[m raw]|e]; split; try apply adds_nothing. Qed.
Lemma open_commit_adds args m raw id c : adds c (open_commit args m raw id c).1 /\ server (open_commit args m raw id c).1 = server c.
Proof. unfold open_commit. destruct (_ ← _; _)%res as [[[p sub] r]|e]; [destruct (closed c)|]; by split; try apply adds_nothing. Qed.
Lemma hello_adds id args l h c :
  let f := _hello_request rec_limit max_completed instance_id id args l h c in adds c f.1 /\ server f.1 = server c.
Proof. unfold _hello_request. destruct (_ ← _; _)%res as [[v caps]|e]; by split; try apply adds_nothing. Qed.

Lemma controller_adds sid i a c c' x : exec_controller rec_limit max_completed token_hex instance_id sid i a c = Some (c', x) -> adds c c' /\ server c' = server c.
Proof.
  intros H. assert (forall f, Some f = Some (c', x) -> adds c f.1 /\ server f.1 = server c -> adds c c' /\ server c' = server c) as Hf
    by (intros f E Hf; injection E as ->; exact Hf).
  destruct i; try discriminate H; cbn [exec_controller] in H; try (destruct a; try discriminate H);
    (eapply Hf; [exact H|]); first [apply open_begin_adds|apply open_commit_adds|apply hello_adds|by split; [apply adds_nothing|]].
Qed.

Lemma exec_adds srv sid i a c c' x :
  sane c -> (family_of i = Request -> dispatching c = true) -> exec srv sid i a c = Some (c', x) -> adds c c' /\ server c' = server c.
Proof.
  intros Hsane Hd H. unfold controller.exec in H. destruct (decide (family_of i = Controller)) as [Hfam|Hfam].
  - rewrite Hfam in H. by eapply controller_adds.
  - assert (match aget sid (sessions c) with
      | None => Some (c, Raise (_fail "HANDLE_INVALID" "policy"))
      | Some s => match exec_session max_completed decode_replace srv (closed c) (token_hex (tokens c)) sid i a s with
                  | Some f => Some (apply srv sid f c, f_next f) | None => None end end = Some (c', x)) as He by (by destruct (family_of i)).
    clear H. destruct (aget sid (sessions c)) as [s|]; [|injection He as <- <-; by split; [apply adds_nothing|]].
    destruct (exec_session _ _ _ _ _ _ _ _ _) as [f|] eqn:Hf; [|done]. injection He as <- <-.
    destruct (exec_session_instrs _ _ _ _ _ _ _ _ _ _ Hf) as (_ & _ & _ & Hlog & _ & Hdef).
    assert (dispatching c = true \/ f_deferred f = []) as Hdef' by (destruct Hdef; auto).
    destruct (apply_effect srv sid f c Hlog (g_flushed _ _ Hsane) Hdef') as ((new & E & Hn) & _ & _ & _ & Es & _). split; [|done].
    destruct Hn as [[-> Hq]|(name & data & _ & -> & Hq)]; [left; by rewrite E, app_nil_r|right]. eexists. split_and!; [exact E|done|done].
Qed.

Lemma flush_events x c : all_events (set_server x (after_response c)) = all_events c.
Proof.
  unfold all_events. cbn. rewrite omap_app, app_nil_r. f_equal. induction (pending_events c) as [|e l IH]; cbn; [done|by f_equal].
Qed.

Lemma receive_adds data c : adds c (receive rec_limit text data c).
Proof.
  apply adds_nothing; unfold receive; destruct (parse_control_frame _ _ _); try done;
    unfold dispatch, reject_arguments, all_events, logs; repeat (case_match; simplify_eq; cbn; rewrite ?omap_app; cbn; rewrite ?app_nil_r); try done.
Qed.

Lemma serve_next_adds c0 id op sid rest n c : adds c0 c -> adds c0 (serve_next text id op sid rest n c).
Proof.
  intros H. eapply adds_trans_left; [exact H|..]; unfold serve_next; destruct n; try done;
    try (destruct (fatal e); [done|]); try done; by apply (log_no_event [_]); repeat constructor.
Qed.

(** C20: events are numbered from one, without a gap or a repetition, in the
    order in which they are sent: those already sent, followed by those that wait
    for a response, carry the numbers from 1 to the controller's counter. *)
Theorem events_numbered c : reachable c -> numbers c = seqZ 1 (seq c).
Proof.
  intros Hr. apply (proj1 (A := numbers c = seqZ 1 (seq c)) (B := (0 <= seq c)%Z)). induction Hr as [|x c c' Hr IH H]; [done|].
  apply (adds_numbered c); [|exact IH]. clear IH. pose proof (reachable_sane _ _ _ _ _ _ _ Hr) as Hsane. destruct x; cbn [controller.step] in H.
  - destruct (server c); try discriminate H. injection H as <-. apply receive_adds.
  - unfold serve in H. destruct (server c) as [|id op sid [|i rest]| | |[|sid rest]|] eqn:Hb; try discriminate H.
    + destruct (controller.exec _ _ _ _ _ _ _ _ _ _) as [[c1 n]|] eqn:He; [|done]. injection H as <-.
      apply serve_next_adds. eapply exec_adds; [exact Hsane| |exact He]. intros _. pose proof (g_busy _ _ Hsane) as Hd. by rewrite Hb in Hd.
    + injection H as <-. apply adds_nothing; [apply flush_events|done].
    + destruct (controller.exec _ _ _ _ _ _ _ _ _ _) as [[c1 n]|] eqn:He; [|done].
      assert (adds c c1) as Ha by (eapply exec_adds; [exact Hsane| |exact He]; discriminate). destruct n; injection H as <-; (eapply adds_trans_left; [exact Ha|done|done]).
  - destruct (server c); try discriminate H. injection H as <-. apply adds_nothing; [apply flush_events|done].
  - unfold hangup in H. by destruct (server c); try discriminate H; injection H as <-; apply adds_nothing.
  - unfold run_thread in H. destruct (threads c !! n) as [[sid r [|i rest]]|] eqn:Hn; try discriminate H.
    destruct (controller.exec _ _ _ _ _ _ _ _ _ _) as [[c1 x]|] eqn:He; [|done]. injection H as <-.
    assert (fits r i = true) as Hfit.
    { pose proof (g_threads _ _ Hsane) as G. unfold all_threads in G. apply Forall_app in G as [G _]. rewrite Forall_lookup in G.
      specialize (G _ _ Hn). cbn in G. by apply andb_true_iff in G as [? _]. }
    assert (adds c c1) as Ha by (eapply exec_adds; [exact Hsane| |exact He]; intros E; by destruct r, i).
    eapply adds_trans_left; [exact Ha| |done]. change (all_events (set_threads ?l ?d)) with (all_events d). apply log_no_event.
    destruct x, r; by repeat constructor.
  - destruct (callback_allowed _ _ _); [|done]. injection H as <-. by apply adds_nothing.
  - unfold controller.launch in H. destruct (aget sid (sessions c)); [|done]. destruct (_launch_guard _ _ _ _) as [s' b]. injection H as <-.
    apply adds_nothing; [|done]. change (all_events (set_log (log c ++ (if b then [Launched sid w] else [])) c) = all_events c). apply log_no_event.
    destruct b; by repeat constructor.
Qed.
End Events.

(** The released session has sent its events. *)
Lemma released_sent : length (omap emitted (log released)) = Z.to_nat (seq released) /\ (1 < seq released)%Z.
Proof. split; [vm_compute; reflexivity|vm_compute; reflexivity]. Qed.

Lemma events_numbered_witness :
  numbers released = seqZ 1 (seq released) /\ (1 < seq released)%Z.
Proof. split; [apply (events_numbered _ _ _ _ _ _ _ released_reached)|exact (proj2 released_sent)]. Defined.
End events.
