(* ===== verification/Paths.v ===== *)
(** * Paths and directories

    What the policies use of [pathlib.PurePosixPath], and [policy.checked_directory]
    over a file system that is known only by what [lstat] answers. *)

From Stdlib Require Import ZArith Lia.
From stdpp Require Import base list gmap strings numbers.
From S2P Require Import Prelude PyJson.
#[local] Open Scope res_scope.

Module paths.

(** ** [PurePosixPath] *)

(** A path is its root ("", "/" or "//") and its components. *)
Record path : Type := Path { root : pystr; tail : list pystr }.
#[export] Instance path_eq_dec : EqDecision path.
Proof. solve_decision. Defined.

Definition DOT : pystr := str ".".
Definition DOTDOT : pystr := str "..".

(** Two leading slashes are a root of their own; three are one. *)
Definition root_of (s : pystr) : pystr :=
  if starts_with (str "//") s && negb (starts_with (str "///") s) then str "//"
  else if starts_with (str "/") s then str "/" else [].

Definition parse_path (s : pystr) : path := Path (root_of s) (filter (fun p => p <> [] /\ p <> DOT) (split_on 47 s)).

Definition path_str (p : path) : pystr :=
  match root p, tail p with [], [] => DOT | r, t => r ++ join_with 47 t end.

Definition is_absolute (p : path) : bool := negb (bool_decide (root p = [])).

(** [p.parts] *)
Definition parts (p : path) : list pystr := if is_absolute p then root p :: tail p else tail p.

(** [p / part] for one component. *)
Definition join_part (p : path) (part : pystr) : path := Path (root p) (tail p ++ [part]).

(** [p / q] *)
Definition join_path (p q : path) : path := if is_absolute q then q else Path (root p) (tail p ++ tail q).

(** [x in p.parents] *)
Definition in_parents (x p : path) : bool :=
  bool_decide (root x = root p) && bool_decide (prefix (tail x) (tail p)) && negb (bool_decide (tail x = tail p)).

(** [x == p or x in p.parents or p in x.parents] *)
Definition overlap (x p : path) : bool := bool_decide (x = p) || in_parents x p || in_parents p x.

(** [Path(v)] *)
Definition path_of (v : json) : res path := match v with JStr s => Ok (parse_path s) | _ => Err TypeError end.

(** ** Canonical texts *)
Definition segment_ok (p : pystr) : Prop := p <> [] /\ p <> DOT.

Lemma filter_all {A} (P : A -> Prop) `{!forall x, Decision (P x)} l : Forall P l -> filter P l = l.
Proof. induction 1 as [|x l Hx _ IH]; [done|]. by rewrite filter_cons_True, IH. Qed.

Lemma split_on_app sep s t : ~ (sep ∈ s) -> split_on sep (s ++ sep :: t) = s :: split_on sep t.
Proof.
  induction s as [|c s IH]; intros H; cbn; [by rewrite N.eqb_refl|]. apply not_elem_of_cons in H as [Hc Hs].
  destruct (N.eqb_spec c sep) as [->|]; [done|]. rewrite IH by done. done.
Qed.

Lemma split_on_none sep s : ~ (sep ∈ s) -> split_on sep s = [s].
Proof.
  induction s as [|c s IH]; intros H; cbn; [done|]. apply not_elem_of_cons in H as [Hc Hs].
  destruct (N.eqb_spec c sep) as [->|]; [done|]. by rewrite IH.
Qed.

Lemma split_on_no_sep sep s : Forall (fun p => ~ (sep ∈ p)) (split_on sep s).
Proof.
  induction s as [|c s IH]; cbn; [constructor; [by intros ?%elem_of_nil|constructor]|]. destruct (N.eqb_spec c sep) as [->|Hc].
  - constructor; [by intros ?%elem_of_nil|done].
  - destruct (split_on sep s) as [|p ps]; [constructor; [by intros ?%list_elem_of_singleton|constructor]|].
    apply list.Forall_cons in IH as [Hp Hps]. constructor; [|done]. by intros [->|?]%elem_of_cons.
Qed.

Lemma split_join sep ps : ps <> [] -> Forall (fun p => ~ (sep ∈ p)) ps -> split_on sep (join_with sep ps) = ps.
Proof.
  intros Hne H. induction H as [|p ps Hp Hps IH]; [done|]. destruct ps as [|q ps]; [by apply split_on_none|].
  change (join_with sep (p :: q :: ps)) with (p ++ sep :: join_with sep (q :: ps)). rewrite split_on_app by done. by rewrite IH.
Qed.

(** A relative text is canonical when it is "." or its segments are all names. *)
Lemma canonical_relative s :
  root_of s = [] -> path_str (parse_path s) = s <-> s = DOT \/ (s <> [] /\ Forall segment_ok (split_on 47 s)).
Proof.
  intros Hr. unfold parse_path. rewrite Hr. unfold path_str. cbn [root tail].
  set (l := filter (fun p => p <> [] /\ p <> DOT) (split_on 47 s)).
  assert (Forall segment_ok l) as Hl by (apply list.Forall_forall; intros x Hx; by apply list_elem_of_filter in Hx as [? _]).
  assert (Forall (fun p => ~ (47%N ∈ p)) l) as Hsep.
  { apply list.Forall_forall. intros x [_ Hx]%list_elem_of_filter. pose proof (split_on_no_sep 47 s) as Hn. rewrite list.Forall_forall in Hn. auto. }
  split.
  - intros H. destruct l as [|p l'] eqn:El; [by left|]. right. cbn [app] in H. rewrite <- H at 2. rewrite split_join by done. split; [|done].
    intros E. rewrite E in H. apply list.Forall_cons in Hl as [[Hp _] _]. destruct p; [done|]. by destruct l'.
  - intros [->|[Hs Hall]]; [by vm_compute|]. unfold l. rewrite (filter_all _ _ Hall). destruct (split_on 47 s) as [|p ps] eqn:E.
    + by apply split_on_nonempty in E.
    + cbn [app]. rewrite <- E. by rewrite join_split.
Qed.

Lemma root_of_nil s : root_of s = [] <-> starts_with (str "/") s = false.
Proof.
  unfold root_of. destruct (starts_with (str "/") s) eqn:H1; [by case_match|]. rewrite andb_comm.
  destruct (starts_with (str "//") s) eqn:H2; [|by rewrite andb_false_r]. destruct s as [|c s]; [done|]. cbn in *.
  apply andb_true_iff in H2 as [H2 _]. by rewrite H2 in H1.
Qed.

(** ** The file system *)
Inductive file_kind : Type := Dir | Reg | Lnk | Special.
#[export] Instance file_kind_eq_dec : EqDecision file_kind.
Proof. solve_decision. Defined.

(** What a policy reads of [os.stat_result]. *)
Record stat_info : Type := Stat { st_kind : file_kind; st_dev : Z; st_ino : Z; st_uid : Z; st_perm : Z }.

Definition S_ISDIR (i : stat_info) : bool := bool_decide (st_kind i = Dir).
Definition S_ISREG (i : stat_info) : bool := bool_decide (st_kind i = Reg).
Definition S_ISLNK (i : stat_info) : bool := bool_decide (st_kind i = Lnk).

Definition is_os_error (e : exn) : bool := match e with OSError | FileNotFoundError => true | _ => false end.
Definition unavailable (e : exn) : bool := is_os_error e || match e with UnicodeError => true | _ => false end.

Definition SLASH : path := Path (str "/") [].

Section Directory.
Context (lstat : path -> res stat_info) (cwd : list pystr).

(** [os.path.abspath] of a path without "..". *)
Definition abspath (p : path) : path := if is_absolute p then p else Path (str "/") (cwd ++ tail p).

Fixpoint check_components (current : path) (l : list pystr) : res unit :=
  match l with
  | [] => Ok tt
  | part :: rest =>
    let current := join_part current part in
    info ← try_except (lstat current) unavailable (fun _ => Err (AdmissionError "approved directory is unavailable"));
    raise_if (negb (S_ISDIR info)) (AdmissionError "approved directory must not contain symlinks or special files") ;;
    check_components current rest
  end.

Definition checked_directory (raw : path) : res path :=
  raise_if (bool_decide (DOTDOT ∈ parts raw)) (AdmissionError "parent traversal is forbidden") ;;
  let absolute := abspath raw in
  check_components SLASH (tail absolute) ;;
  Ok absolute.

(** Every directory on the way to a path is an ordinary one. *)
Definition ordinary (p : path) : Prop :=
  forall l, l <> [] -> l `prefix_of` tail p -> exists info, lstat (Path (str "/") l) = Ok info /\ st_kind info = Dir.

Lemma check_components_Ok current l :
  check_components current l = Ok tt ->
  forall l', l' <> [] -> l' `prefix_of` l -> exists info, lstat (Path (root current) (tail current ++ l')) = Ok info /\ st_kind info = Dir.
Proof.
  revert current. induction l as [|part l IH]; intros current H l' Hne [k Hk]; [by destruct l'|]. cbn in H. inv_res.
  destruct l' as [|part' l']; [done|]. injection Hk as <- Hk.
  match goal with H : try_except _ _ _ = Ok _ |- _ => apply try_except_Ok_inv in H as [H|(e & _ & _ & H)]; [|done] end.
  destruct l' as [|y l'].
  - eexists. split; [done|]. bool_hyps. unfold S_ISDIR in *. bool_hyps. done.
  - match goal with H : check_components _ _ = Ok _ |- _ => destruct (IH _ H (y :: l')) as (i & Hi & ?); [done|by exists k|] end.
    exists i. cbn in Hi. by rewrite <- app_assoc in Hi.
Qed.

Lemma checked_directory_Ok raw p :
  checked_directory raw = Ok p -> p = abspath raw /\ ordinary p /\ DOTDOT ∉ tail raw.
Proof.
  unfold checked_directory. intros H. inv_res. bool_hyps. split; [done|]. split.
  - intros l Hne Hpre.
    match goal with H : check_components _ _ = Ok _ |- _ => exact (check_components_Ok _ _ H l Hne Hpre) end.
  - unfold parts in *. destruct (is_absolute raw); [|done]. set_solver.
Qed.
End Directory.
End paths.
