(* ===== verification/Policy.v ===== *)
(** * Sandbox configuration ([supervisor/mirrorgate/policy.py])

    The checks that separate trusted configuration from tool requests: runtime
    mounts, resource limits, tool requests and the trusted configuration of a
    sandbox.  [checked_directory] is in [Paths.v]; the file system is what
    [lstat] and [iterdir] answer. *)

From Stdlib Require Import ZArith Lia.
From stdpp Require Import base list gmap strings numbers.
From S2P Require Import Prelude PyJson Paths.
#[local] Open Scope res_scope.

Module policy.
Import paths.

Definition refuse {A} (message : string) : res A := Err (AdmissionError message).
Definition refuse_if (cond : bool) (message : string) : res unit := raise_if cond (AdmissionError message).

(** [len(s.encode("utf-8"))], a lone surrogate refused. *)
Definition encoded_size (s : pystr) (message : string) : res Z := from_option_res (utf8_len s) (AdmissionError message).

(** ** Argument lists *)

(** [type(arg) is str and arg and "\0" not in arg] *)
Definition argument_ok (v : json) : bool :=
  match v with JStr s => negb (bool_decide (s = [])) && negb (bool_decide (0%N ∈ s)) | _ => false end.

Definition text_of (v : json) : pystr := match v with JStr s => s | _ => [] end.

Fixpoint total_size (l : list pystr) : option Z :=
  match l with
  | [] => Some 0%Z
  | s :: l' => match utf8_len s, total_size l' with Some n, Some m => Some (n + m)%Z | _, _ => None end
  end.

(** ** Runtime mounts *)

(** [source] is the path given; a mount that was checked has a text for a
    destination. *)
Record RuntimeMount : Type := Mount { source : path; destination : json }.

Definition BROAD_SOURCES : list path :=
  map parse_path (strs ["/"; "/home"; "/etc"; "/proc"; "/dev"; "/sys"; "/run"; "/tmp"]).

(** [destination == "/usr"] or three parts of which the second is "runtime" *)
Definition mount_target (s : pystr) : bool :=
  bool_decide (s = str "/usr")
  || match parts (parse_path s) with
     | [_; second; third] => bool_decide (second = str "runtime") && negb (bool_decide (third ∈ [DOT; DOTDOT]))
     | _ => false
     end.

Definition system_runtime_mounts : list RuntimeMount := [Mount (parse_path (str "/usr")) (JStr (str "/usr"))].

(** ** Limits *)

(** The fields hold Python values: [validate] tells numbers from booleans. *)
Record Limits : Type := MkLimits {
  wall_seconds : json; cpu_seconds : json; address_space_bytes : json; uid_processes : json; open_files : json;
  file_bytes : json; stdout_bytes : json; stderr_bytes : json; tmp_bytes : json; scratch_bytes : json;
  eof_grace_seconds : json; aggregate_memory_bytes : json; aggregate_cpu_seconds : json; aggregate_processes : json;
  aggregate_disk_bytes : json }.

Definition default_limits : Limits :=
  MkLimits (JInt 30) (JInt 20) (JInt (4 * 1024 ^ 3)) (JInt 4096) (JInt 128) (JInt (64 * 1024 ^ 2)) (JInt (4 * 1024 ^ 2))
    (JInt (1024 ^ 2)) (JInt (64 * 1024 ^ 2)) (JInt (256 * 1024 ^ 2)) (JFloat (str "0.5")) JNull JNull JNull JNull.

(** The least integer that has no float. *)
Definition FLOAT_OVERFLOW : Z := (2 ^ 1024 - 2 ^ 970)%Z.

(** [isinstance(v, bool) or not isinstance(v, (int, float)) or not math.isfinite(v) or v <= 0];
    a float is known by its repr. *)
Definition check_seconds (v : json) (message : string) : res unit :=
  match v with
  | JInt z => raise_if (FLOAT_OVERFLOW <=? Z.abs z)%Z OverflowError ;; refuse_if (z <=? 0)%Z message
  | JFloat r => refuse_if (bool_decide (r ∈ strs ["inf"; "nan"; "0.0"]) || starts_with (str "-") r) message
  | _ => refuse message
  end.

(** [type(v) is int and 0 < v <= 2**60] *)
Definition bounded_integer (v : json) : bool := match v with JInt z => (0 <? z)%Z && (z <=? 2 ^ 60)%Z | _ => false end.

Definition validate_limits (l : Limits) : res unit :=
  for_each (fun v => refuse_if (negb (is_none v)) "bubblewrap backend cannot enforce aggregate limits")
    [aggregate_memory_bytes l; aggregate_cpu_seconds l; aggregate_processes l; aggregate_disk_bytes l] ;;
  for_each (fun v => check_seconds v "limit must be finite and positive") [wall_seconds l; eof_grace_seconds l] ;;
  for_each (fun v => refuse_if (negb (bounded_integer v)) "limit must be a positive bounded integer")
    [cpu_seconds l; address_space_bytes l; uid_processes l; open_files l; file_bytes l; stdout_bytes l; stderr_bytes l;
     tmp_bytes l; scratch_bytes l] ;;
  refuse_if (match open_files l with JInt z => (z <? 32)%Z | _ => false end)
    "open_files must allow supervisor namespace setup (at least 32)".

(** ** Tool requests *)
Record ToolRequest : Type := Tool { argv : list pystr; cwd : pystr }.

Definition check_argv (v : json) : res (list pystr) :=
  args ← match v with JArr l => Ok l | _ => refuse "argv must contain between 1 and 256 arguments" end;
  refuse_if (bool_decide (args = []) || (256 <? zlen args)%Z) "argv must contain between 1 and 256 arguments" ;;
  refuse_if (negb (forallb argument_ok args)) "arguments must be nonempty strings without NUL" ;;
  n ← from_option_res (total_size (map text_of args)) (AdmissionError "arguments must contain Unicode scalars");
  refuse_if (65535 <? n)%Z "arguments exceed the 64 KiB request bound" ;;
  Ok (map text_of args).

Definition check_cwd (v : json) : res pystr :=
  match v with
  | JStr s =>
    n ← encoded_size s "cwd must contain Unicode scalars";
    refuse_if (bool_decide (0%N ∈ s) || (1024 <? n)%Z) "cwd must be a relative directory" ;;
    let p := parse_path s in
    refuse_if (is_absolute p || bool_decide (DOTDOT ∈ parts p) || negb (bool_decide (path_str p = s)))
      "cwd must be canonical and relative to the submission" ;;
    Ok s
  | _ => refuse "cwd must be a relative directory"
  end.

Definition validate_tool (a c : json) : res ToolRequest := args ← check_argv a; dir ← check_cwd c; Ok (Tool args dir).

Definition from_dict (v : json) : res ToolRequest :=
  match v with
  | JObj d =>
    refuse_if (negb (set_sub (dkeys d) (strs ["argv"; "cwd"])) || negb (dmem (str "argv") d)) "tool requests accept only argv and cwd" ;;
    a ← getitem v "argv";
    validate_tool a (default (JStr DOT) (dget "cwd" d))
  | _ => refuse "tool requests accept only argv and cwd"
  end.

(** ** The trusted configuration *)
Section Config.
Context (lstat : path -> res stat_info) (iterdir : path -> res (list pystr)) (cwd_tail : list pystr).
#[local] Abbreviation checked_directory := (checked_directory lstat cwd_tail).

Definition mount_checked (m : RuntimeMount) : res RuntimeMount :=
  src ← checked_directory (source m);
  (match destination m with
   | JStr s =>
     n ← encoded_size s "runtime destination must contain Unicode scalars";
     refuse_if (bool_decide (0%N ∈ s) || (1024 <? n)%Z) "runtime destination must be a bounded path" ;;
     refuse_if (negb (bool_decide (path_str (parse_path s) = s)) || bool_decide (DOTDOT ∈ parts (parse_path s)))
       "runtime destination must be canonical" ;;
     refuse_if (negb (mount_target s)) "runtime mounts must target /usr or /runtime/NAME"
   | _ => refuse "runtime destination must be a bounded path"
   end) ;;
  refuse_if (bool_decide (src ∈ BROAD_SOURCES)) "broad host or management roots are not runtime trees" ;;
  Ok (Mount src (destination m)).

Record TrustedConfig : Type := Trusted {
  profile : pystr; workspace : path; output : option path; runtime_mounts : list RuntimeMount; limits : Limits;
  network : pystr; backend : pystr }.

Definition BROAD_WORKSPACES : list path :=
  map parse_path (strs ["/"; "/home"; "/usr"; "/etc"; "/tmp"; "/proc"; "/dev"; "/sys"; "/run"]).

Definition unique_destinations (mounts : list RuntimeMount) : bool :=
  negb (has_dup (map (fun m => text_of (destination m)) mounts)).

Definition config_checked (c : TrustedConfig) : res TrustedConfig :=
  refuse_if (negb (bool_decide (profile c ∈ strs ["authoring"; "build"; "execution"]))) "unknown sandbox profile" ;;
  refuse_if (negb (bool_decide (backend c = "linux-bubblewrap-v1")) || negb (bool_decide (network c = "isolated")))
    "unsupported backend or networking capability" ;;
  validate_limits (limits c) ;;
  ws ← checked_directory (workspace c);
  refuse_if (bool_decide (ws ∈ BROAD_WORKSPACES)) "workspace must be a dedicated public submission tree" ;;
  out ← match output c with Some o => o' ← checked_directory o; Ok (Some o') | None => Ok None end;
  refuse_if (negb (bool_decide (profile c = "build")) && bool_decide (is_Some out)) "only build can request an output mount" ;;
  refuse_if (match out with Some o => overlap o ws | None => false end) "build output must be separate from submitted source" ;;
  mounts ← traverse mount_checked (runtime_mounts c);
  refuse_if (bool_decide (mounts = []) || negb (unique_destinations mounts)) "runtime mounts must have unique destinations" ;;
  refuse_if (negb (existsb (fun m => str_is (destination m) (str "/usr")) mounts))
    "this backend requires an approved /usr with Python 3 bootstrap" ;;
  for_each (fun m =>
    refuse_if (overlap (source m) ws) "runtime and submission roots must not overlap" ;;
    refuse_if (match out with Some o => overlap (source m) o | None => false end) "runtime and build output roots must not overlap")
    mounts ;;
  (match out with
   | Some o => names ← iterdir o; refuse_if (negb (bool_decide (names = []))) "build output must be empty and supervisor-owned"
   | None => Ok tt
   end) ;;
  Ok (Trusted (profile c) ws out mounts (limits c) (network c) (backend c)).

(** ** What an accepted configuration keeps apart *)

(** The directory with components [dir] is that of [x] or lies under it. *)
Definition inside (x : path) (dir : list pystr) : Prop := tail x `prefix_of` dir.
(** Two paths have a directory in common only when they are written with
    different roots: with one leading slash and with two. *)
Definition separate (x p : path) : Prop := forall dir, inside x dir -> inside p dir -> root x <> root p.

Lemma apart x p : overlap x p = false -> separate x p.
Proof.
  unfold overlap, in_parents. intros H dir Hx Hp Hr. bool_hyps. assert (x <> p) as Hne by done.
  assert (tail x <> tail p) as Ht by (intros E; apply Hne; destruct x, p; cbn in *; congruence).
  destruct (prefix_weak_total (tail x) (tail p) dir) as [Hpre|Hpre]; [done|done| |].
  - rewrite (bool_decide_eq_true_2 (root x = root p)), (bool_decide_eq_true_2 (tail x `prefix_of` tail p)),
      (bool_decide_eq_false_2 (tail x = tail p)) in * by done. done.
  - rewrite (bool_decide_eq_true_2 (root p = root x)), (bool_decide_eq_true_2 (tail p `prefix_of` tail x)),
      (bool_decide_eq_false_2 (tail p = tail x)) in * by done. done.
Qed.

Lemma mount_checked_Ok m m' :
  mount_checked m = Ok m' ->
  destination m' = destination m /\ ordinary lstat (source m') /\ (source m' ∉ BROAD_SOURCES)
  /\ exists s, destination m = JStr s /\ mount_target s = true.
Proof.
  unfold mount_checked, refuse_if, refuse. intros H. inv_res. bool_hyps. cbn.
  match goal with H : paths.checked_directory _ _ _ = Ok _ |- _ => apply checked_directory_Ok in H as (_ & Ho & _) end.
  split_and!; try done. destruct (destination m) as [| | | |s| |]; try done. exists s. split; [done|]. inv_res. by bool_hyps.
Qed.

(** C18: what an accepted configuration keeps apart.  The submission, the build
    output and the source of each runtime are ordinary directories on every step
    of their paths.  The submission has no directory in common with the output,
    nor a runtime with either of them, unless one of the two is written with two
    leading slashes and the other with one ([pathlib] takes them for different
    roots, see [double_slash_root]).  Runtimes have different destinations, /usr
    among them; whether their sources overlap is not checked.  The output is empty
    and only a build has one. *)
Theorem config_separated c c' :
  config_checked c = Ok c' ->
  ordinary lstat (workspace c') /\ (workspace c' ∉ BROAD_WORKSPACES)
  /\ (forall o, output c' = Some o -> profile c' = str "build" /\ ordinary lstat o /\ iterdir o = Ok [] /\ separate o (workspace c'))
  /\ (exists m, m ∈ runtime_mounts c' /\ destination m = JStr (str "/usr"))
  /\ NoDup (map (fun m => text_of (destination m)) (runtime_mounts c'))
  /\ forall m, m ∈ runtime_mounts c' ->
       ordinary lstat (source m) /\ (source m ∉ BROAD_SOURCES) /\ separate (source m) (workspace c')
       /\ forall o, output c' = Some o -> separate (source m) o.
Proof.
  unfold config_checked, refuse_if. intros H. inv_res. bool_hyps. cbn [workspace output runtime_mounts profile].
  match goal with H : paths.checked_directory _ _ (workspace c) = Ok _ |- _ => apply checked_directory_Ok in H as (_ & Hw & _) end.
  match goal with H : traverse _ _ = Ok _ |- _ => apply traverse_Ok in H; rename H into Hm end.
  match goal with H : for_each _ _ = Ok _ |- _ => apply for_each_Ok in H; rename H into Hs end.
  rewrite list.Forall_forall in Hs.
  split_and!; try done.
  - intros o ->. cbn in *. split_and!.
    + match goal with H : _ && _ = false |- _ => apply andb_false_iff in H as [H|H]; bool_hyps; done end.
    + destruct (output c) as [o0|]; [|done]. inv_res.
      match goal with H : paths.checked_directory _ _ o0 = Ok _ |- _ => by apply checked_directory_Ok in H as (_ & Ho & _) end.
    + inv_res. bool_hyps. by subst.
    + by apply apart.
  - match goal with H : existsb _ _ = true |- _ => apply existsb_exists in H as (m & Hin & E) end.
    exists m. split; [by apply list_elem_of_In|]. by apply str_is_true.
  - unfold unique_destinations in *. bool_hyps. by apply has_dup_false.
  - intros m Hin. specialize (Hs m Hin). cbn in Hs. inv_res.
    apply list_elem_of_lookup in Hin as [i Hi]. destruct (Forall2_lookup_r _ _ _ _ _ Hm Hi) as (m0 & _ & Hc).
    apply mount_checked_Ok in Hc as (_ & Ho & Hb & _). split_and!; [done|done|by apply apart|].
    intros o ->. cbn in *. by apply apart.
Qed.
End Config.

(** A host where every path is a directory. *)
Definition directories (p : path) : res stat_info := Ok (Stat Dir 1 1 0 493).
Definition empty_directory (p : path) : res (list pystr) := Ok [].

Definition sample_config (mounts : list RuntimeMount) : TrustedConfig :=
  Trusted "build" (parse_path "/srv/submission") (Some (parse_path "/srv/output")) mounts default_limits "isolated" "linux-bubblewrap-v1".

Definition sample_checked : TrustedConfig := sample_config system_runtime_mounts.

Lemma sample_accepted : config_checked directories empty_directory [] (sample_config system_runtime_mounts) = Ok sample_checked.
Proof. vm_compute. reflexivity. Qed.

Lemma config_separated_witness :
  config_checked directories empty_directory [] (sample_config system_runtime_mounts) = Ok sample_checked
  /\ ordinary directories (parse_path "/srv/submission")
  /\ forall o, output sample_checked = Some o -> separate o (parse_path "/srv/submission").
Proof.
  split; [exact sample_accepted|]. destruct (config_separated directories empty_directory [] _ _ sample_accepted) as (H & _ & Ho & _).
  split; [exact H|]. intros o E. apply (Ho o E).
Defined.

(** The comparison with the broad roots is textual: POSIX lets a path start
    with exactly two slashes, and [Path("//etc") != Path("/etc")]. *)
Example double_slash_root :
  mount_checked directories [] (Mount (parse_path "/etc") (JStr "/runtime/etc")) = refuse "broad host or management roots are not runtime trees"
  /\ is_ok (mount_checked directories [] (Mount (parse_path "//etc") (JStr "/runtime/etc"))) = true
  /\ is_ok (config_checked directories empty_directory []
       (sample_config (Mount (parse_path "//srv/submission") (JStr "/runtime/node") :: system_runtime_mounts))) = true.
Proof. vm_compute. done. Qed.

(** The target of a mount is judged by its components, so a relative one of
    three components passes for [/runtime/NAME]. *)
Example relative_mount_target : mount_target "x/runtime/node" = true /\ is_absolute (parse_path "x/runtime/node") = false.
Proof. vm_compute. done. Qed.
End policy.
