(* ===== verification/PolicyFields.v ===== *)
(** * The field checks of the policy catalog ([supervisor/mirrorgate/control_policy.py], first part)

    Closed objects, arrays, identifiers, relative paths, commands and unique
    lists: what the parsers of [ControlPolicy.v], [AgentPolicy.v] and
    [SourceView.v] share.  A name the code interpolates into a message is left
    out of the message. *)

From Stdlib Require Import ZArith Lia.
From stdpp Require Import base list gmap strings numbers.
From S2P Require Import Prelude PyJson ControlProtocol Paths Policy.
#[local] Open Scope res_scope.

Module fields.
Import paths policy.

Definition MAX_SAFE_INTEGER : Z := 9007199254740991.

Definition _object (v : json) (names : list pystr) : res pydict :=
  match v with
  | JObj d => refuse_if (negb (set_eq (dkeys d) names)) "fields do not match the control policy schema" ;; Ok d
  | _ => refuse "fields do not match the control policy schema"
  end.

Definition _array (v : json) (nonempty : bool) : res (list json) :=
  match v with
  | JArr l => refuse_if (nonempty && bool_decide (l = [])) "must be an array" ;; Ok l
  | _ => refuse "must be an array"
  end.

(** [CATALOG_ID.fullmatch] *)
Definition CATALOG_ID : pystr -> bool := match_identifier.

Definition _id (v : json) : res pystr :=
  match v with
  | JStr s => refuse_if (negb (CATALOG_ID s)) "is not a valid catalog ID" ;; Ok s
  | _ => refuse "is not a valid catalog ID"
  end.

Definition _opaque_ascii (v : json) : res pystr :=
  match v with
  | JStr s =>
    refuse_if (bool_decide (s = []) || negb (forallb (fun c => (c <? 128)%N) s) || (128 <? zlen s)%Z
               || existsb (fun c => (c <? 33)%N || (126 <? c)%N) s) "must be bounded printable ASCII" ;;
    Ok s
  | _ => refuse "must be bounded printable ASCII"
  end.

Definition checked_relative_path (v : json) : res pystr :=
  match v with
  | JStr s =>
    n ← encoded_size s "must contain Unicode scalars";
    refuse_if (bool_decide (0%N ∈ s) || (1024 <? n)%Z) "must be a bounded UTF-8 relative path" ;;
    let p := parse_path s in
    refuse_if (is_absolute p || bool_decide (DOTDOT ∈ parts p) || negb (bool_decide (path_str p = s)) || bool_decide (s = []))
      "must be canonical and relative" ;;
    Ok s
  | _ => refuse "must be a bounded UTF-8 relative path"
  end.

Definition _command (v : json) : res (list pystr) :=
  items ← _array v true;
  refuse_if ((256 <? zlen items)%Z || negb (forallb argument_ok items)) "contains invalid arguments" ;;
  n ← from_option_res (total_size (map text_of items)) (AdmissionError "must contain Unicode scalars");
  refuse_if (65535 <? n)%Z "exceeds the argument byte limit" ;;
  refuse_if (match map text_of items with s :: _ => negb (is_absolute (parse_path s)) | [] => true end)
    "executable must be an absolute sandbox path" ;;
  Ok (map text_of items).

(** A dictionary by id, in order. *)
Definition _unique {A} (id : A -> pystr) (items : list A) : res (list (pystr * A)) :=
  fold_res (fun result item =>
    refuse_if (bool_decide (id item ∈ result.*1)) "duplicate ID" ;; Ok (result ++ [(id item, item)])) items [].

Fixpoint find_id {A} (k : pystr) (l : list (pystr * A)) : option A :=
  match l with [] => None | (k', x) :: l' => if bool_decide (k = k') then Some x else find_id k l' end.

(** ** Laws *)

(** A canonical relative path: "." or names, none of them a dot. *)
Definition relative_path (s : pystr) : Prop :=
  s = DOT \/ (s <> [] /\ Forall (fun p => p <> [] /\ p <> DOT /\ p <> DOTDOT) (split_on 47 s)).

Lemma split_head s : starts_with (str "/") s = true -> exists l, split_on 47 s = [] :: l.
Proof. intros [t ->]%starts_with_spec. cbn. eauto. Qed.

Lemma relative_path_tail s : relative_path s -> parse_path s = Path [] (if bool_decide (s = DOT) then [] else split_on 47 s).
Proof.
  intros [->|[Hs H]]; [by vm_compute|]. assert (root_of s = []) as Hr.
  { apply root_of_nil. destruct (starts_with _ s) eqn:E; [|done]. apply split_head in E as [l E]. rewrite E in H.
    apply list.Forall_cons in H as [(H & _) _]. done. }
  unfold parse_path. rewrite Hr. case_bool_decide as Hd.
  - subst. apply list.Forall_cons in H as [(_ & H & _) _]. done.
  - f_equal. apply filter_all. eapply list.Forall_impl; [exact H|]. naive_solver.
Qed.

Lemma relative_path_spec s :
  (negb (is_absolute (parse_path s)) && negb (bool_decide (DOTDOT ∈ parts (parse_path s)))
   && bool_decide (path_str (parse_path s) = s) && negb (bool_decide (s = []))) = true <-> relative_path s.
Proof.
  split.
  - intros [[[Ha Hd]%andb_true_iff Hc]%andb_true_iff He]%andb_true_iff.
    assert (root_of s = []) as Hr by (unfold is_absolute in Ha; by bool_hyps). bool_hyps.
    apply (canonical_relative s Hr) in Hc as [->|[_ Hall]]; [by left|]. right. split; [done|].
    unfold parts, is_absolute in Hd. cbn [root parse_path] in Hd. rewrite Hr in Hd. cbn in Hd.
    rewrite list.Forall_forall in Hall |- *. intros p Hp. destruct (Hall p Hp) as [H1 H2]. split_and!; try done.
    intros ->. apply Hd. apply list_elem_of_filter. done.
  - intros H. pose proof (relative_path_tail s H) as E. rewrite E. destruct H as [->|[Hs H]]; [by vm_compute|].
    assert (s <> DOT) as Hd by (intros ->; apply list.Forall_cons in H as [(_ & H & _) _]; done).
    rewrite (bool_decide_eq_false_2 _ Hd).
    change (is_absolute (Path [] (split_on 47 s))) with false. change (parts (Path [] (split_on 47 s))) with (split_on 47 s).
    rewrite (bool_decide_eq_false_2 (s = [])) by done.
    rewrite bool_decide_eq_false_2; [|intros Hin; rewrite list.Forall_forall in H; by destruct (H _ Hin) as (_ & _ & ?)].
    rewrite bool_decide_eq_true_2; [done|]. unfold path_str. cbn [root tail]. destruct (split_on 47 s) as [|p ps] eqn:Es; [by apply split_on_nonempty in Es|].
    cbn [app]. by rewrite <- Es, join_split.
Qed.

Lemma relative_path_refused s :
  is_absolute (parse_path s) || bool_decide (DOTDOT ∈ parts (parse_path s)) || negb (bool_decide (path_str (parse_path s) = s))
  || bool_decide (s = []) = false <-> relative_path s.
Proof.
  rewrite <- relative_path_spec. destruct (is_absolute _), (bool_decide (DOTDOT ∈ _)), (bool_decide (path_str _ = _)), (bool_decide (s = [])); done.
Qed.

(** What [checked_relative_path] accepts. *)
Lemma relative_path_accepted v s :
  checked_relative_path v = Ok s <-> v = JStr s /\ relative_path s /\ ~ (0%N ∈ s) /\ exists n, utf8_len s = Some n /\ (n <= 1024)%Z.
Proof.
  unfold checked_relative_path, encoded_size, refuse_if. split.
  - destruct v as [| | | |s'| |]; try done. intros H. destruct (utf8_len s') as [n|] eqn:En; [|done]. inv_res.
    match goal with H : _ || _ || _ || _ = false |- _ => apply relative_path_refused in H end. bool_hyps.
    split_and!; try done. exists n. split; [done|]. match goal with H : from_option_res _ _ = Ok _ |- _ => cbn in H; injection H as <- end. done.
  - intros (-> & Hr & Hn & n & Hl & Hle). rewrite Hl. cbn [from_option_res rbind]. rewrite (bool_decide_eq_false_2 _ Hn).
    destruct (Z.ltb_spec 1024 n); [lia|]. cbn [raise_if orb rbind]. apply relative_path_refused in Hr. by rewrite Hr.
Qed.

Lemma _unique_Ok {A} (id : A -> pystr) items l :
  _unique id items = Ok l -> l = map (fun x => (id x, x)) items /\ NoDup (map id items).
Proof.
  unfold _unique. assert (forall acc l, fold_res (fun result item => refuse_if (bool_decide (id item ∈ result.*1)) "duplicate ID" ;;
      Ok (result ++ [(id item, item)])) items acc = Ok l -> NoDup acc.*1 ->
      l = acc ++ map (fun x => (id x, x)) items /\ NoDup (acc.*1 ++ map id items)) as H.
  { induction items as [|x items IH]; intros acc l0 H Hnd; cbn in H; [injection H as <-; by rewrite !app_nil_r|]. inv_res.
    unfold refuse_if in *. inv_res. bool_hyps.
    match goal with H : fold_res _ _ _ = Ok _ |- _ => apply IH in H as [-> H] end.
    - rewrite fmap_app in *. cbn in *. by rewrite <- !app_assoc in *.
    - rewrite fmap_app. cbn. apply list.NoDup_app. split_and!; [done| |apply NoDup_singleton]. intros y Hy ->%list_elem_of_singleton. done. }
  intros Hl. apply H in Hl as [-> Hn]; [done|constructor].
Qed.

Lemma find_id_In {A} k (l : list (pystr * A)) x : find_id k l = Some x -> (k, x) ∈ l.
Proof. induction l as [|[k' y] l IH]; cbn; [done|]. case_bool_decide as E; [subst; intros [= ->]; by left|]. right. auto. Qed.

Lemma find_id_is_Some {A} k (l : list (pystr * A)) : k ∈ l.*1 -> is_Some (find_id k l).
Proof.
  induction l as [|[k' y] l IH]; cbn; [by intros ?%elem_of_nil|]. case_bool_decide as E; [done|]. intros [?|?]%elem_of_cons; [done|auto].
Qed.
End fields.
