(* ===== verification/SourceView.v ===== *)
(** * Source-view selectors ([supervisor/mirrorgate/source_view.py], first part)

    The include manifest of a filtered source view: how it is parsed, its
    digest, and the checks made again before it is used.  The copy itself is in
    [ViewCopy.v]. *)

From Stdlib Require Import ZArith Lia Sorted.
From stdpp Require Import base list gmap strings numbers.
From S2P Require Import Prelude PyJson JsonText ControlProtocol Canonical Paths Policy PolicyFields.
#[local] Open Scope res_scope.

Module view.
Import paths policy fields.

Definition SOURCE_VIEW_SCHEMA : pystr := "mirrorgate.source-view/v1".
Definition SELECTOR_DOMAIN : bytes := str "mirrorgate.source-view-selector/v1".
Definition MAX_INCLUDE_PATHS : Z := 1024.
Definition MAX_SELECTOR_BYTES : Z := 65535.
Definition MAX_RELATIVE_PATH_BYTES : Z := 1024.
Definition SUPERVISOR_DIRECTORY_MODE : Z := 448.

Record SourceViewPolicy : Type := ViewPolicy {
  schema : pystr; workspace_root : path; workspace_identity : Z * Z; include_paths : list pystr; selector : pystr }.

(** [json.dumps(..., sort_keys=True, ensure_ascii=False).encode("utf-8")] under the domain. *)
Definition selector_sha256 (paths : list pystr) : res pystr :=
  canonical ← from_option_res (utf8_encode (dumps false (JObj [(str "includePaths", JArr (JStr <$> paths))]))) UnicodeError;
  Ok (sha256_hex (SELECTOR_DOMAIN ++ [0%N] ++ canonical)).

Definition _checked_include_path (v : json) : res pystr :=
  match v with
  | JStr s =>
    n ← encoded_size s "source view include path must contain Unicode scalars";
    refuse_if (bool_decide (0%N ∈ s) || (MAX_RELATIVE_PATH_BYTES <? n)%Z) "source view include path must be a bounded UTF-8 relative path" ;;
    let p := parse_path s in
    refuse_if (is_absolute p || bool_decide (DOTDOT ∈ parts p) || negb (bool_decide (path_str p = s))
               || bool_decide (s ∈ [[]; DOT])) "source view include path must be canonical and relative" ;;
    Ok s
  | _ => refuse "source view include path must be a bounded UTF-8 relative path"
  end.

(** [any("/".join(parts\[:index\]) in known for index in range(1, len(parts)))] *)
Definition overlaps (known : list pystr) (p : pystr) : bool :=
  let ps := split_on 47 p in
  existsb (fun index => bool_decide (join_with 47 (take index ps) ∈ known)) (seq 1 (length ps - 1)).

Definition _checked_include_set (l : list pystr) : res (list pystr) :=
  let paths := sort_names l in
  refuse_if (existsb (overlaps paths) paths) "source view include paths must not overlap" ;;
  Ok paths.

Definition _normalized_include_paths (v : json) : res (list pystr) :=
  l ← match v with
      | JArr [] => refuse "source view includePaths must be a nonempty array"
      | JArr l => Ok l
      | _ => refuse "source view includePaths must be a nonempty array"
      end;
  refuse_if (MAX_INCLUDE_PATHS <? zlen l)%Z "source view includePaths exceeds the path count limit" ;;
  items ← traverse (fun item => p ← _checked_include_path item; n ← from_option_res (utf8_len p) UnicodeError; Ok (p, n)) l;
  refuse_if (MAX_SELECTOR_BYTES <? foldr Z.add 0 items.*2)%Z "source view includePaths exceeds the selector byte limit" ;;
  normalized ← _checked_include_set items.*1;
  refuse_if (has_dup normalized || negb (length normalized =? length items)) "source view includePaths must not contain duplicates" ;;
  Ok normalized.

Section Workspace.
Context (lstat : path -> res stat_info) (cwd : list pystr) (geteuid : Z).

(** The condition on the workspace directory besides its identity. *)
Definition supervisor_directory (info : stat_info) : bool :=
  negb (S_ISLNK info) && S_ISDIR info && (st_uid info =? geteuid)%Z && (st_perm info =? SUPERVISOR_DIRECTORY_MODE)%Z.

Definition _checked_workspace_root (v : json) : res (path * (Z * Z)) :=
  match v with
  | JStr s =>
    refuse_if (bool_decide (s = []) || bool_decide (0%N ∈ s) || negb (starts_with (str "/") s))
      "source view workspaceRoot must be an absolute directory path" ;;
    p ← checked_directory lstat cwd (parse_path s);
    info ← try_except (lstat p) unavailable (fun _ => refuse "source view workspaceRoot is unavailable");
    refuse_if (S_ISLNK info || negb (S_ISDIR info)) "source view workspaceRoot must be an ordinary directory" ;;
    refuse_if (negb (st_uid info =? geteuid)%Z) "source view workspaceRoot must be owned by the supervisor" ;;
    refuse_if (negb (st_perm info =? SUPERVISOR_DIRECTORY_MODE)%Z) "source view workspaceRoot must be mode 0700" ;;
    Ok (p, (st_dev info, st_ino info))
  | _ => refuse "source view workspaceRoot must be an absolute directory path"
  end.

Definition _recheck_workspace_root (p : path) (identity : Z * Z) : res unit :=
  info ← try_except (lstat p) unavailable (fun _ => refuse "source view workspaceRoot changed during materialization");
  refuse_if (S_ISLNK info || negb (S_ISDIR info) || negb (bool_decide ((st_dev info, st_ino info) = identity))
             || negb (st_uid info =? geteuid)%Z || negb (st_perm info =? SUPERVISOR_DIRECTORY_MODE)%Z)
    "source view workspaceRoot changed during materialization".

Definition parse_view (v : json) : res SourceViewPolicy :=
  match v with
  | JObj d =>
    refuse_if (negb (set_eq (dkeys d) (strs ["schema"; "workspaceRoot"; "includePaths"])))
      "source view fields do not match the frozen schema" ;;
    s ← getitem v "schema"; refuse_if (negb (str_is s SOURCE_VIEW_SCHEMA)) "source view schema is not approved" ;;
    i ← getitem v "includePaths"; include ← _normalized_include_paths i;
    w ← getitem v "workspaceRoot"; root ← _checked_workspace_root w;
    digest ← selector_sha256 include;
    Ok (ViewPolicy SOURCE_VIEW_SCHEMA root.1 root.2 include digest)
  | _ => refuse "source view fields do not match the frozen schema"
  end.

(** The checks made again on a policy object before it is used. *)
Definition validated (p : SourceViewPolicy) : res SourceViewPolicy :=
  refuse_if (negb (bool_decide (schema p = SOURCE_VIEW_SCHEMA))) "source view policy is not a validated selector" ;;
  refuse_if ((workspace_identity p).1 <? 0)%Z "source view workspace identity is malformed" ;;
  refuse_if ((workspace_identity p).2 <? 0)%Z "source view workspace identity is malformed" ;;
  for_each (fun s => _checked_include_path (JStr s) ;; Ok tt) (include_paths p) ;;
  checked ← _checked_include_set (include_paths p);
  refuse_if (negb (bool_decide (checked = include_paths p))) "source view include paths must be sorted and unique" ;;
  digest ← selector_sha256 checked;
  refuse_if (negb (bool_decide (selector p = digest))) "source view selector digest is inconsistent" ;;
  _recheck_workspace_root (workspace_root p) (workspace_identity p) ;;
  Ok p.
End Workspace.

(** ** The selector *)

(** [p] is above [q]: its components begin those of [q]. *)
Definition above (p q : pystr) : Prop := exists k, k <> [] /\ split_on 47 q = split_on 47 p ++ k.

Lemma split_on_inj sep s t : split_on sep s = split_on sep t -> s = t.
Proof. intros H. by rewrite <- (join_split sep s), H, join_split. Qed.

Lemma overlaps_spec known q : overlaps known q = true <-> exists p, p ∈ known /\ above p q.
Proof.
  unfold overlaps. rewrite existsb_exists. split.
  - intros (i & [Hi1 Hi2]%in_seq & H). bool_hyps. eexists. split; [exact H|]. exists (drop i (split_on 47 q)). split.
    + intros E. apply (f_equal length) in E. rewrite length_drop in E. cbn in E. lia.
    + rewrite split_join; [by rewrite take_drop| |].
      * intros E. apply (f_equal length) in E. rewrite length_take in E. cbn in E. lia.
      * apply Forall_take, split_on_no_sep.
  - intros (p & Hp & k & Hk & E). exists (length (split_on 47 p)). assert (split_on 47 p <> []) as Hne by apply split_on_nonempty.
    assert (length (split_on 47 p) <> 0 /\ length k <> 0) as [? ?] by (split; by intros ?%nil_length_inv).
    split; [apply in_seq; rewrite E, length_app; lia|]. rewrite E, take_app_length, join_split. by apply bool_decide_eq_true.
Qed.

(** A set of include paths is refused exactly when one of them is above another. *)
Lemma _checked_include_set_Ok l l' :
  _checked_include_set l = Ok l' <-> l' = sort_names l /\ forall p q, p ∈ l -> q ∈ l -> ~ above p q.
Proof.
  unfold _checked_include_set, refuse_if. assert (forall x, x ∈ sort_names l <-> x ∈ l) as Hin by (intros; by rewrite sort_names_perm).
  assert (existsb (overlaps (sort_names l)) (sort_names l) = true <-> exists p q, p ∈ l /\ q ∈ l /\ above p q) as H.
  { rewrite existsb_exists. split.
    - intros (q & Hq%list_elem_of_In%Hin & (p & Hp%Hin & Ha)%overlaps_spec). by exists p, q.
    - intros (p & q & Hp & Hq & Ha). exists q. split; [by apply list_elem_of_In, Hin|]. apply overlaps_spec. exists p. split; [by apply Hin|done]. }
  destruct (existsb _ _).
  - split; [done|]. intros [_ Hno]. destruct H as [(p & q & Hp & Hq & Ha) _]; [done|]. by destruct (Hno p q).
  - cbn. split; [intros [= <-]; split; [done|]|by intros [-> _]]. intros p q Hp Hq Ha. destruct H as [_ H]. discriminate H; eauto 6.
Qed.

Lemma _checked_include_path_Ok v s :
  _checked_include_path v = Ok s <-> v = JStr s /\ relative_path s /\ s <> DOT /\ ~ (0%N ∈ s) /\ exists n, utf8_len s = Some n /\ (n <= 1024)%Z.
Proof.
  unfold _checked_include_path, encoded_size, refuse_if. assert (forall s : pystr, bool_decide (s ∈ [[]; DOT]) = bool_decide (s = []) || bool_decide (s = DOT)) as Hin.
  { intros x. rewrite <- bool_decide_or. apply bool_decide_ext. set_solver. }
  split.
  - destruct v as [| | | |s'| |]; try done. intros H. destruct (utf8_len s') as [n|] eqn:En; [|done]. cbn [from_option_res rbind] in H. inv_res.
    match goal with H : _ || _ || _ || _ = false |- _ => rewrite Hin, orb_assoc in H; apply orb_false_iff in H as [H Hd]; apply relative_path_refused in H end.
    bool_hyps. split_and!; try done. by exists n.
  - intros (-> & Hr & Hd & Hn & n & Hl & Hle). rewrite Hl. cbn [from_option_res rbind]. rewrite (bool_decide_eq_false_2 _ Hn). unfold MAX_RELATIVE_PATH_BYTES.
    destruct (Z.ltb_spec 1024 n); [lia|]. cbn [raise_if orb rbind]. apply relative_path_refused in Hr.
    cbv zeta. rewrite Hin, orb_assoc. rewrite Hr. by rewrite (bool_decide_eq_false_2 _ Hd).
Qed.

(** What an include manifest is. *)
Record manifest_ok (l : list pystr) : Prop := ManifestOk {
  m_count : l <> [] /\ (zlen l <= MAX_INCLUDE_PATHS)%Z;
  m_sorted : StronglySorted name_le l;
  m_nodup : NoDup l;
  m_relative : Forall (fun p => relative_path p /\ p <> DOT) l;
  m_disjoint : forall p q, p ∈ l -> q ∈ l -> ~ above p q }.

Lemma include_items l items :
  traverse (fun item => p ← _checked_include_path item; n ← from_option_res (utf8_len p) UnicodeError; Ok (p, n)) l = Ok items ->
  l = JStr <$> items.*1 /\ Forall (fun p => _checked_include_path (JStr p) = Ok p) items.*1.
Proof.
  intros H. apply traverse_Ok in H. induction H as [|v [p n] l items H _ [IH1 IH2]]; [done|]. cbv beta in H. inv_res.
  match goal with H : _checked_include_path v = Ok _ |- _ => pose proof H as Hv; apply _checked_include_path_Ok in H as (-> & _) end.
  split; [done|]. by constructor.
Qed.

Lemma _normalized_include_paths_Ok v l :
  _normalized_include_paths v = Ok l -> manifest_ok l /\ Forall (fun p => _checked_include_path (JStr p) = Ok p) l /\ _checked_include_set l = Ok l.
Proof.
  unfold _normalized_include_paths, refuse_if. intros H. apply bind_Ok in H as (items0 & Hl & H).
  assert (items0 <> []) as Hne by (destruct v as [| | | | |[|x m]|]; try done; injection Hl as <-; done).
  inv_res. bool_hyps. match goal with H : traverse _ _ = Ok ?items |- _ => apply include_items in H as [-> Hall]; rename items into its end.
  match goal with H : _checked_include_set _ = Ok _ |- _ => apply _checked_include_set_Ok in H as [-> Hno] end.
  match goal with H : has_dup _ = false |- _ => apply has_dup_false in H as Hnd end.
  assert (forall x, x ∈ sort_names its.*1 <-> x ∈ its.*1) as Hin by (intros; by rewrite sort_names_perm).
  assert (Forall (fun p => _checked_include_path (JStr p) = Ok p) (sort_names its.*1)) as Hc by (by rewrite sort_names_perm).
  split; [constructor|split; [done|]].
  - split; [intros E; apply Hne; apply (f_equal length) in E; rewrite sort_names_perm in E; by destruct its|].
    unfold zlen in *. rewrite sort_names_perm, length_fmap.
    match goal with H : (Z.of_nat (length (JStr <$> _)) <= _)%Z |- _ => by rewrite !length_fmap in H end.
  - apply sort_names_sorted.
  - done.
  - eapply list.Forall_impl; [exact Hc|]. intros p Hp. by apply _checked_include_path_Ok in Hp as (_ & ? & ? & _).
  - intros p q Hp%Hin Hq%Hin. auto.
  - apply _checked_include_set_Ok. split; [by rewrite (sort_names_id _ (sort_names_sorted _))|]. intros p q Hp%Hin Hq%Hin. auto.
Qed.

Section Parsed.
Context (lstat : path -> res stat_info) (cwd : list pystr) (geteuid : Z).

Lemma _checked_workspace_root_Ok v root identity :
  (forall q i, lstat q = Ok i -> (0 <= st_dev i /\ 0 <= st_ino i)%Z) ->
  _checked_workspace_root lstat cwd geteuid v = Ok (root, identity) ->
  _recheck_workspace_root lstat geteuid root identity = Ok tt /\ (0 <= identity.1)%Z /\ (0 <= identity.2)%Z.
Proof.
  intros Hpos H. unfold _checked_workspace_root, _recheck_workspace_root, refuse_if, refuse in *. destruct v; try done. inv_res. bool_hyps.
  match goal with H : try_except (lstat _) _ _ = Ok _ |- _ => apply try_except_Ok_inv in H as [H|(e & _ & _ & H)]; [|done]; pose proof (Hpos _ _ H); rewrite H end.
  cbn [try_except rbind fst snd]. split; [|done].
  repeat match goal with H : ?b = _ |- context [?b] => rewrite H end. rewrite bool_decide_eq_true_2 by done.
  repeat match goal with H : st_uid _ = _ |- _ => rewrite H | H : st_perm _ = _ |- _ => rewrite H end. by rewrite !Z.eqb_refl.
Qed.

(** C33: a selector that was parsed stays valid.  On an unchanged file system
    the policy [parse_view] returns passes the later [validated] check as it is,
    and its include manifest is nonempty, bounded, sorted, without duplicates,
    made of proper relative names, none of which is above another. *)
Theorem parsed_view_valid (v : json) (p : SourceViewPolicy) :
  (forall q i, lstat q = Ok i -> (0 <= st_dev i /\ 0 <= st_ino i)%Z) ->
  parse_view lstat cwd geteuid v = Ok p ->
  validated lstat geteuid p = Ok p /\ manifest_ok (include_paths p) /\ selector_sha256 (include_paths p) = Ok (selector p).
Proof.
  intros Hpos H. unfold parse_view in H. destruct v as [| | | | | |d]; try done. unfold refuse_if in H. inv_res.
  match goal with H : _normalized_include_paths _ = Ok _ |- _ => apply _normalized_include_paths_Ok in H as (Hm & Hc & Hs) end.
  match goal with H : _checked_workspace_root _ _ _ _ = Ok ?x |- _ => destruct x as [root identity]; apply _checked_workspace_root_Ok in H as (Hrec & Hdev & Hino); [|done] end.
  cbn [include_paths selector]. split; [|done]. unfold validated, refuse_if. cbn [schema workspace_identity include_paths selector workspace_root fst snd].
  rewrite (bool_decide_eq_true_2 (SOURCE_VIEW_SCHEMA = _)) by done. cbn [negb raise_if rbind].
  destruct (Z.ltb_spec identity.1 0), (Z.ltb_spec identity.2 0); try lia. cbn [raise_if rbind].
  match goal with |- context [for_each ?f ?l] => assert (for_each f l = Ok tt) as -> end.
  { apply for_each_Ok. eapply list.Forall_impl; [exact Hc|]. intros s ->. done. }
  rewrite Hs. cbn [rbind]. rewrite bool_decide_eq_true_2 by done. cbn [negb raise_if rbind].
  match goal with H : selector_sha256 _ = Ok _ |- _ => rewrite H end. cbn [rbind]. rewrite bool_decide_eq_true_2 by done. cbn [negb raise_if rbind].
  by rewrite Hrec.
Qed.
End Parsed.

(** A workspace every directory of which is the supervisor's. *)
Definition sample_lstat (p : path) : res stat_info := Ok (Stat Dir 1 2 1000 448).
Definition sample_view : json :=
  JObj [(str "schema", JStr SOURCE_VIEW_SCHEMA); (str "workspaceRoot", JStr (str "/srv/work"));
        (str "includePaths", JArr [JStr (str "src/b"); JStr (str "README.md"); JStr (str "src/a.py")])].

Lemma sample_view_parses : exists p, parse_view sample_lstat [] 1000 sample_view = Ok p.
Proof. vm_compute. by eexists. Qed.

Lemma parsed_view_valid_witness :
  exists p, parse_view sample_lstat [] 1000 sample_view = Ok p /\ validated sample_lstat 1000 p = Ok p.
Proof.
  destruct sample_view_parses as [p Hp]. exists p. split; [exact Hp|].
  assert (forall q i, sample_lstat q = Ok i -> (0 <= st_dev i /\ 0 <= st_ino i)%Z) as Hpos by (intros q i [= <-]; cbn; lia).
  exact (proj1 (parsed_view_valid sample_lstat [] 1000 sample_view p Hpos Hp)).
Defined.
End view.
