(* ===== verification/AgentPolicy.v ===== *)
(** * Managed-agent profiles ([supervisor/mirrorgate/agent_policy.py])

    The limits an operator grants and a request may tighten, the public task of
    a run, and the profile of an approved agent.  Reading and hashing files is
    not modelled. *)

From Stdlib Require Import ZArith Lia.
From stdpp Require Import base list gmap strings numbers.
From S2P Require Import Prelude PyJson ControlProtocol ControlProtocolV2 Paths Policy PolicyFields.
#[local] Open Scope res_scope.

Module agents.
Import paths policy fields.

(** ** Limits *)
Definition LIMIT_CEILINGS : pydict :=
  [(str "wallMs", JInt 300000); (str "stdoutBytes", JInt 1048576); (str "stderrBytes", JInt 1048576);
   (str "progressRecords", JInt 256); (str "progressBytes", JInt 262144); (str "progressRecordBytes", JInt 16384)].

(** [type(number) is int and 1 <= number <= ceilings\[key\]] *)
Definition within (ceiling : option json) (number : json) : bool :=
  match ceiling, number with Some (JInt c), JInt n => (1 <=? n)%Z && (n <=? c)%Z | _, _ => false end.

Definition agent_limits (v : json) (ceilings : pydict) (partial : bool) : res pydict :=
  match v with
  | JObj d =>
    refuse_if (negb (set_sub (dkeys d) (dkeys ceilings)) || (negb partial && negb (set_eq (dkeys d) (dkeys ceilings))))
      "agent limits fields are invalid" ;;
    fold_res (fun result kv =>
      refuse_if (negb (within (dget kv.1 ceilings) kv.2)) "agent limits may only tighten operator ceilings" ;;
      Ok (dset kv.1 kv.2 result)) d ceilings
  | _ => refuse "agent limits fields are invalid"
  end.

(** ** Public tasks *)
Definition check_text (v : json) (limit : Z) : res Z :=
  match v with
  | JStr s =>
    refuse_if (bool_decide (0%N ∈ s)) "public task text exceeds its bound" ;;
    n ← encoded_size s "public task contains invalid Unicode";
    refuse_if (limit <? n)%Z "public task text exceeds its bound" ;;
    Ok n
  | _ => refuse "public task text exceeds its bound"
  end.

(** One of the paths is a directory of the other. *)
Definition conflict (path old : pystr) : bool := starts_with (old ++ str "/") path || starts_with (path ++ str "/") old.

Fixpoint task_files (files : list json) (paths : list pystr) (total : Z) : res (list json) :=
  match files with
  | [] => Ok []
  | item :: rest =>
    _object item (strs ["path"; "text"]) ;;
    p ← getitem item "path"; path ← checked_relative_path p;
    refuse_if (bool_decide (path = DOT) || match split_on 47 path with first :: _ => bool_decide (first = str ".mirrorgate") | [] => false end
               || bool_decide (path ∈ paths)) "public task path is reserved or duplicated" ;;
    refuse_if (existsb (conflict path) paths) "public task paths conflict" ;;
    text ← getitem item "text"; n ← check_text text 262144;
    refuse_if (262144 <? total + n)%Z "public task files exceed their byte bound" ;;
    more ← task_files rest (path :: paths) (total + n)%Z;
    Ok (JObj [(str "path", JStr path); (str "text", text)] :: more)
  end.

Definition public_task (v : json) : res json :=
  _object v (strs ["instructions"; "files"]) ;;
  i ← getitem v "instructions"; check_text i 65536 ;;
  f ← getitem v "files";
  match f with
  | JArr l =>
    refuse_if (128 <? zlen l)%Z "public task files exceed their bound" ;;
    files ← task_files l [] 0;
    Ok (JObj [(str "instructions", i); (str "files", JArr files)])
  | _ => refuse "public task files exceed their bound"
  end.

(** ** Profiles *)
Record AgentProfile : Type := Profile {
  id : pystr; runtime : pystr; executable : path; version : pystr; model : pystr; model_catalog : path; credential_file : path;
  audit_receipt : path; audit_max_age_seconds : Z; credential_revision : pystr; limits : pydict }.

Definition operator_path (v : json) : res path :=
  match v with
  | JStr s =>
    refuse_if (negb (is_absolute (parse_path s)) || bool_decide (0%N ∈ s)) "agent profile paths must be absolute operator selections" ;;
    Ok (parse_path s)
  | _ => refuse "agent profile paths must be absolute operator selections"
  end.

Definition parse_profile (v : json) : res AgentProfile :=
  _object v (strs ["id"; "runtime"; "executable"; "version"; "model"; "modelCatalog"; "credentialFile"; "auditReceipt";
                   "auditMaxAgeSeconds"; "credentialRevision"; "limits"]) ;;
  r ← getitem v "runtime"; ver ← getitem v "version";
  refuse_if (negb (str_is r (str "codex")) || negb (str_is ver (str "codex-cli 0.153.4"))) "unsupported managed agent runtime" ;;
  m ← getitem v "model"; model ← _id m; c ← getitem v "credentialRevision"; revision ← _id c;
  e ← getitem v "executable"; executable ← operator_path e; mc ← getitem v "modelCatalog"; catalog ← operator_path mc;
  cf ← getitem v "credentialFile"; credential ← operator_path cf; ar ← getitem v "auditReceipt"; receipt ← operator_path ar;
  a ← getitem v "auditMaxAgeSeconds";
  age ← match a with
        | JInt n => refuse_if (negb ((1 <=? n) && (n <=? 86400)))%Z "agent audit age must not exceed 24 hours" ;; Ok n
        | _ => refuse "agent audit age must not exceed 24 hours"
        end;
  i ← getitem v "id"; id ← _id i;
  l ← getitem v "limits"; granted ← agent_limits l LIMIT_CEILINGS false;
  Ok (Profile id (str "codex") executable (str "codex-cli 0.153.4") model catalog credential receipt age revision granted).

(** ** Limits are only tightened *)

(** [r] has the fields of [ceilings], none of them larger; one that differs is positive. *)
Definition tightens (ceilings r : pydict) : Prop :=
  dkeys r = dkeys ceilings /\
  forall k c, dget k ceilings = Some (JInt c) -> exists n, dget k r = Some (JInt n) /\ (n <= c)%Z /\ (n = c \/ 1 <= n)%Z.

Lemma tightens_refl r : tightens r r.
Proof. split; [done|]. intros k c H. exists c. split; [done|]. lia. Qed.

Lemma tightens_trans a b c : tightens a b -> tightens b c -> tightens a c.
Proof.
  intros [H1 H2] [K1 K2]. split; [congruence|]. intros k z Hz. destruct (H2 _ _ Hz) as (n & Hn & ? & ?).
  destruct (K2 _ _ Hn) as (m & ? & ? & ?). exists m. split; [done|]. lia.
Qed.

Lemma within_spec c v : within c v = true -> exists z n, c = Some (JInt z) /\ v = JInt n /\ (1 <= n <= z)%Z.
Proof. unfold within. destruct c as [[| |z| | | |]|]; try done. destruct v as [| |n| | | |]; try done. intros H. bool_hyps. eauto 6. Qed.

Lemma agent_limits_Ok v ceilings partial r : agent_limits v ceilings partial = Ok r -> tightens ceilings r.
Proof.
  unfold agent_limits. destruct v as [| | | | | |d]; try done. intros H. apply bind_Ok in H as (_ & _ & H).
  assert (forall d acc, tightens ceilings acc -> fold_res (fun result kv =>
      refuse_if (negb (within (dget kv.1 ceilings) kv.2)) "agent limits may only tighten operator ceilings" ;;
      Ok (dset kv.1 kv.2 result)) d acc = Ok r -> tightens ceilings r) as Hfold.
  { clear. intros d. induction d as [|[k v] d IH]; intros acc Ha H; cbn in H; [by injection H as <-|]. unfold refuse_if in *. inv_res.
    match goal with H : negb (within _ _) = false |- _ => apply negb_false_iff, within_spec in H as (z & n & Hz & -> & Hn) end.
    eapply IH; [|eassumption]. destruct Ha as [H1 H2]. split.
    - rewrite dkeys_dset_known; [done|]. rewrite H1. apply dget_elem. eauto.
    - intros k' c Hc. rewrite dget_dset. case_bool_decide as E; [|by apply H2]. subst. exists n. split; [done|]. rewrite Hz in Hc.
      injection Hc as ->. lia. }
  by apply (Hfold d ceilings (tightens_refl _)).
Qed.

(** No request obtains more than the operator granted.  The limits of an
    approved profile, and of a run admitted under it, have exactly the six known
    fields, each no larger than the profile's, which is no larger than the fixed
    ceiling; a field that was changed is positive. *)
Theorem agent_limits_only_tighten (profile_limits request : json) (partial : bool) (granted effective : pydict) :
  agent_limits profile_limits LIMIT_CEILINGS false = Ok granted -> agent_limits request granted partial = Ok effective ->
  tightens LIMIT_CEILINGS granted /\ tightens granted effective /\ tightens LIMIT_CEILINGS effective.
Proof.
  intros H1%agent_limits_Ok H2%agent_limits_Ok. split; [done|]. split; [done|]. by eapply tightens_trans.
Qed.

Lemma agent_limits_only_tighten_witness :
  tightens LIMIT_CEILINGS (dset (str "wallMs") (JInt 10) (dset (str "wallMs") (JInt 60000) LIMIT_CEILINGS)).
Proof.
  destruct (agent_limits_only_tighten (JObj (dset (str "wallMs") (JInt 60000) LIMIT_CEILINGS)) (JObj [(str "wallMs", JInt 10)]) true
    (dset (str "wallMs") (JInt 60000) LIMIT_CEILINGS) (dset (str "wallMs") (JInt 10) (dset (str "wallMs") (JInt 60000) LIMIT_CEILINGS)))
    as (_ & _ & H); [vm_compute; reflexivity|vm_compute; reflexivity|exact H].
Defined.

(** ** The task of the protocol *)

(** The texts of a task hold no NUL. *)
Definition plain_text (v : json) : Prop := match v with JStr s => ~ (0%N ∈ s) | _ => True end.
Definition plain_file (item : json) : Prop := forall d v, item = JObj d -> dget (str "text") d = Some v -> plain_text v.

(** A file of a task as admission writes it. *)
Definition normal_file (item : json) : json :=
  match item with
  | JObj d => JObj [(str "path", default JNull (dget (str "path") d)); (str "text", default JNull (dget (str "text") d))]
  | _ => item
  end.

Lemma closed_fields v names d :
  v1._object v names [] = Ok d -> v = JObj d /\ _object v names = Ok d.
Proof.
  unfold v1._object, _object, refuse_if. destruct v as [| | | | | |d']; try done. intros H. inv_res. bool_hyps. split; [done|].
  rewrite app_nil_r in *. unfold set_eq. by repeat match goal with H : set_sub _ _ = true |- _ => rewrite H; clear H end.
Qed.

Lemma scalar_text v limit b s : v1._scalar_string v limit b = Ok s -> v = JStr s /\ exists n, utf8_len s = Some n /\ (n <= limit)%Z.
Proof.
  unfold v1._scalar_string. destruct v as [| | | |s'| |]; try done. intros H. destruct (utf8_len s') as [n|] eqn:E; [|by inv_res].
  cbn [from_option_res rbind] in H. inv_res. bool_hyps. split; [done|]. by exists n.
Qed.

Lemma check_text_Ok s n limit : utf8_len s = Some n -> (n <= limit)%Z -> ~ (0%N ∈ s) -> check_text (JStr s) limit = Ok n.
Proof.
  intros Hl Hn Hz. unfold check_text, refuse_if, encoded_size. rewrite (bool_decide_eq_false_2 _ Hz), Hl. cbn.
  destruct (Z.ltb_spec limit n); [lia|done].
Qed.

Lemma public_path path :
  v2.bad_public_path path = false -> relative_path path /\ path <> DOT /\ ~ (0%N ∈ path) /\
  match split_on 47 path with first :: _ => bool_decide (first = str ".mirrorgate") | [] => false end = false.
Proof.
  intros H. apply v2.good_path in H as (H1 & H2 & H3 & H4). unfold v2.segments in *. split_and!; try done.
  - right. split; [by intros ->; apply list.Forall_cons in H1 as [(? & _) _]|done].
  - intros ->. by apply list.Forall_cons in H1 as [(_ & ? & _) _].
  - destruct (split_on 47 path) as [|p ps]; [done|]. apply bool_decide_eq_false. intros ->. by apply H2.
Qed.

Lemma getitem_dget' d k v : getitem (JObj d) k = Ok v -> dget k d = Some v.
Proof. unfold getitem. destruct (dget k d); [by intros [= ->]|done]. Qed.

Lemma no_collision path paths : existsb (v2.collides path) paths = false -> ~ (path ∈ paths) /\ existsb (conflict path) paths = false.
Proof.
  intros H. assert (forall p, p ∈ paths -> v2.collides path p = false) as Hall.
  { intros p Hp. destruct (v2.collides path p) eqn:E; [|done]. apply not_true_iff_false in H. destruct H. apply existsb_exists.
    exists p. split; [by apply list_elem_of_In|done]. }
  split.
  - intros Hp%Hall. unfold v2.collides in Hp. by rewrite bool_decide_eq_true_2 in Hp.
  - apply not_true_iff_false. rewrite existsb_exists. intros (p & Hp%list_elem_of_In & Hc). apply Hall in Hp. unfold v2.collides, conflict in *.
    apply orb_false_iff in Hp as [Hp1 Hp2]. apply orb_false_iff in Hp1 as [_ Hp1]. by rewrite Hp1, Hp2 in Hc.
Qed.

Lemma public_files_admitted files paths total :
  v2.public_files paths total files = Ok tt -> Forall plain_file files ->
  task_files files paths total = Ok (normal_file <$> files).
Proof.
  revert paths total. induction files as [|item files IH]; intros paths total H Hp; [done|]. cbn [v2.public_files] in H.
  apply list.Forall_cons in Hp as [Hplain Hp]. inv_res. cbn [task_files].
  match goal with H : v1._object _ _ _ = Ok _ |- _ => apply closed_fields in H as [-> Ho]; rewrite Ho end. cbn [rbind].
  match goal with H : _object (JObj ?x) _ = _ |- _ => rename x into d end.
  match goal with H : v1._scalar_string ?p ?a true = Ok _ |- _ => apply scalar_text in H as (-> & n & Hn & Hle) end.
  match goal with H : v2.bad_public_path _ = false |- _ => apply public_path in H as (Hr & Hd & Hz & Hm) end.
  match goal with H : v1._scalar_string ?p ?a false = Ok _ |- _ => apply scalar_text in H as (-> & m & Hm' & Hle') end.
  match goal with H : from_option_res (utf8_len ?s) _ = Ok _ |- _ => rename s into text; rewrite Hm' in H; cbn in H; injection H as <- end.
  repeat match goal with H : getitem (JObj d) _ = Ok _ |- _ => pose proof (getitem_dget' _ _ _ H); rewrite H; clear H end. cbn [rbind].
  match goal with H : dget (str "path") d = Some (JStr ?s) |- _ => rename s into path; rename H into Gp end.
  match goal with H : dget (str "text") d = Some _ |- _ => rename H into Gt end.
  rewrite (proj2 (relative_path_accepted (JStr path) path)) by (split_and!; eauto). cbn [rbind]. rewrite (bool_decide_eq_false_2 _ Hd), Hm.
  match goal with H : existsb (v2.collides path) paths = false |- _ => destruct (no_collision _ _ H) as [Hin Hc] end.
  rewrite (bool_decide_eq_false_2 _ Hin), Hc. cbn [orb refuse_if raise_if rbind].
  rewrite (check_text_Ok text m); [|done|done|exact (Hplain d (JStr text) eq_refl Gt)]. cbn [rbind].
  unfold v2.MAX_PUBLIC_FILE_BYTES in *. destruct (Z.ltb_spec 262144 (total + m)); [done|]. cbn [refuse_if raise_if rbind].
  erewrite IH by eassumption. cbn [rbind]. rewrite fmap_cons. cbn [normal_file]. by rewrite Gp, Gt.
Qed.

(** A task the control protocol lets through is admitted.  If
    [validate_public_task] accepts a task whose texts hold no NUL, then
    [public_task], which parses it again before a run starts, accepts it too and
    keeps its instructions and files; the two layers disagree on NUL only. *)
Theorem protocol_task_admitted (v w : json) (d : pydict) (files : list json) :
  v2.validate_public_task v = Ok w -> v = JObj d -> dget (str "files") d = Some (JArr files) ->
  (forall i, dget (str "instructions") d = Some i -> plain_text i) -> Forall plain_file files ->
  exists i, dget (str "instructions") d = Some i /\
    public_task v = Ok (JObj [(str "instructions", i); (str "files", JArr (normal_file <$> files))]).
Proof.
  unfold v2.validate_public_task. intros H -> Hf Hi Hp. inv_res.
  match goal with H : v1._object _ _ _ = Ok _ |- _ => apply closed_fields in H as [_ Ho] end.
  match goal with H : getitem _ (str "files") = Ok ?f |- _ => pose proof H as Hg; apply getitem_dget' in H; rewrite Hf in H; injection H as <- end.
  match goal with H : getitem _ (str "instructions") = Ok ?f |- _ => pose proof H as Hgi; apply getitem_dget' in H as Hdi end.
  match goal with H : v1._scalar_string _ _ true = Ok _ |- _ => apply scalar_text in H as (-> & n & Hn & Hle) end. inv_res. bool_hyps.
  eexists. split; [exact Hdi|]. unfold public_task. rewrite Ho. cbn [rbind]. rewrite Hgi. cbn [rbind].
  rewrite (check_text_Ok _ n); [|done|done|exact (Hi _ Hdi)]. cbn [rbind]. rewrite Hg. cbn [rbind]. unfold v2.MAX_PUBLIC_FILES in *.
  match goal with |- context [(128 <? ?n)%Z] => destruct (Z.ltb_spec 128 n); [lia|] end. cbn [refuse_if raise_if rbind].
  match goal with H : v2.public_files _ _ _ = Ok _ |- _ => rewrite (public_files_admitted _ _ _ H Hp) end. done.
Qed.

Definition sample_task : pydict :=
  [(str "instructions", JStr (str "build it"));
   (str "files", JArr [JObj [(str "text", JStr (str "one")); (str "path", JStr (str "src/a.txt"))]])].

Lemma protocol_task_admitted_witness :
  public_task (JObj sample_task) = Ok (JObj [(str "instructions", JStr (str "build it"));
    (str "files", JArr [JObj [(str "path", JStr (str "src/a.txt")); (str "text", JStr (str "one"))]])]).
Proof.
  destruct (protocol_task_admitted (JObj sample_task) (JObj sample_task) sample_task
    [JObj [(str "text", JStr (str "one")); (str "path", JStr (str "src/a.txt"))]]) as (i & Hi & H).
  - vm_compute. reflexivity.
  - reflexivity.
  - reflexivity.
  - intros i [= <-]. exact (bool_decide_unpack (~ (0%N ∈ str "build it")) I).
  - constructor; [|constructor]. intros d v [= <-] [= <-]. exact (bool_decide_unpack (~ (0%N ∈ str "one")) I).
  - injection Hi as <-. exact H.
Defined.
End agents.
