(* ===== verification/ControlPolicy.v ===== *)
(** * The policy catalog ([supervisor/mirrorgate/control_policy.py])

    What an operator approves: roots, build plans, tools, runtimes and limits,
    collected in a catalog requests select from by id.  The file system is what
    [lstat] and [stat] answer; the fixtures at the end of the source file are
    not modelled. *)

From Stdlib Require Import ZArith Lia.
From stdpp Require Import base list gmap strings numbers.
From S2P Require Import Prelude PyJson JsonText ControlProtocol Canonical Paths Policy PolicyFields SourceView AgentPolicy.
#[local] Open Scope res_scope.

Module catalog.
Import paths policy fields.

Definition CATALOG_SCHEMA : pystr := "mirrorgate.control-policy/v1".
Definition GROUP_CATALOG_SCHEMA : pystr := "mirrorgate.control-policy/v2".
Definition CGROUP_CATALOG_SCHEMA : pystr := "mirrorgate.control-policy/v3".

(** ** Limits *)
Record ControlLimits : Type := Control {
  session_wall_ms : Z; execution_wall_ms : Z; command_cpu_seconds : Z; address_space_bytes : Z; uid_processes : Z; open_files : Z;
  file_bytes : Z; stdout_bytes : Z; stderr_bytes : Z; snapshot_files : Z; snapshot_bytes : Z; tmp_bytes : Z; scratch_bytes : Z }.

Definition as_wire (l : ControlLimits) : pydict :=
  [(str "sessionWallMs", JInt (session_wall_ms l)); (str "executionWallMs", JInt (execution_wall_ms l));
   (str "commandCpuSeconds", JInt (command_cpu_seconds l)); (str "addressSpaceBytes", JInt (address_space_bytes l));
   (str "uidProcesses", JInt (uid_processes l)); (str "openFiles", JInt (open_files l)); (str "fileBytes", JInt (file_bytes l));
   (str "stdoutBytes", JInt (stdout_bytes l)); (str "stderrBytes", JInt (stderr_bytes l));
   (str "snapshotFiles", JInt (snapshot_files l)); (str "snapshotBytes", JInt (snapshot_bytes l));
   (str "tmpBytes", JInt (tmp_bytes l)); (str "scratchBytes", JInt (scratch_bytes l))].

Definition CONTROL_LIMIT_FIELDS : list pystr :=
  strs ["sessionWallMs"; "executionWallMs"; "commandCpuSeconds"; "addressSpaceBytes"; "uidProcesses"; "openFiles"; "fileBytes";
        "stdoutBytes"; "stderrBytes"; "snapshotFiles"; "snapshotBytes"; "tmpBytes"; "scratchBytes"].

(** [type(item) is int and 1 <= item <= MAX_SAFE_INTEGER] *)
Definition bounded_limit (v : json) : bool := match v with JInt z => (1 <=? z)%Z && (z <=? MAX_SAFE_INTEGER)%Z | _ => false end.

Definition int_field (d : pydict) (k : string) : res Z :=
  match dget (str k) d with Some (JInt z) => Ok z | _ => Err KeyError end.

Definition parse_limits (v : json) : res ControlLimits :=
  raw ← _object v CONTROL_LIMIT_FIELDS;
  for_each (fun kv => refuse_if (negb (bounded_limit kv.2)) "must be a positive bounded integer") raw ;;
  o ← int_field raw "openFiles"; refuse_if (o <? 32)%Z "openFiles must be at least 32" ;;
  a ← int_field raw "sessionWallMs"; b ← int_field raw "executionWallMs"; c ← int_field raw "commandCpuSeconds";
  d ← int_field raw "addressSpaceBytes"; e ← int_field raw "uidProcesses"; f ← int_field raw "fileBytes";
  g ← int_field raw "stdoutBytes"; h ← int_field raw "stderrBytes"; i ← int_field raw "snapshotFiles";
  j ← int_field raw "snapshotBytes"; k ← int_field raw "tmpBytes"; l ← int_field raw "scratchBytes";
  Ok (Control a b c d e o f g h i j k l).

(** [type(item) is not int or item <= 0 or item > current\[name\]] refuses. *)
Definition no_looser (current : option json) (item : json) : bool :=
  match current, item with Some (JInt c), JInt n => (0 <? n)%Z && (n <=? c)%Z | _, _ => false end.

Definition tighten (l : ControlLimits) (requested : option json) : res ControlLimits :=
  match requested with
  | None => Ok l
  | Some (JObj d) =>
    refuse_if (negb (set_sub (dkeys d) CONTROL_LIMIT_FIELDS)) "tightened limits contain unknown fields" ;;
    current ← fold_res (fun current kv =>
      refuse_if (negb (no_looser (dget kv.1 current) kv.2)) "must be positive and no looser than policy" ;;
      Ok (dset kv.1 kv.2 current)) d (as_wire l);
    parse_limits (JObj current)
  | Some _ => refuse "tightened limits contain unknown fields"
  end.

(** ** Build plans and tools *)
Record BuildPlan : Type := Build {
  plan_id : pystr; plan_command : list pystr; plan_cwd : pystr; artifact_path : pystr; plan_profile : pystr;
  source_files : list pystr; runtime_sha256 : option pystr; dependencies : list (pystr * pystr * pystr); entry_point : option pystr }.

Definition digest (v : json) : res pystr :=
  match v with
  | JStr s => refuse_if (negb (match_hex 64 s)) "Node content identity must be lowercase SHA256" ;; Ok s
  | _ => refuse "Node content identity must be lowercase SHA256"
  end.

Definition ends_with (suffix s : pystr) : bool := starts_with (rev suffix) (rev s).

Definition parse_dependency (v : json) : res (pystr * pystr * pystr) :=
  _object v (strs ["rootId"; "relativePath"; "sha256"]) ;;
  r ← getitem v "rootId"; root ← _id r; p ← getitem v "relativePath"; path ← checked_relative_path p;
  s ← getitem v "sha256"; sha ← digest s;
  Ok (root, path, sha).

Definition parse_node_plan (v : json) : res BuildPlan :=
  _object v (strs ["id"; "profile"; "entryPoint"; "sourceFiles"; "runtimeSha256"; "dependencies"]) ;;
  pr ← getitem v "profile"; refuse_if (negb (str_is pr (str "node-esm/v1"))) "unsupported preparation profile" ;;
  e ← getitem v "entryPoint"; entry ← checked_relative_path e;
  sf ← getitem v "sourceFiles"; items ← _array sf true; files ← traverse checked_relative_path items;
  refuse_if ((1024 <? zlen files)%Z || has_dup files || negb (bool_decide (entry ∈ files)) || negb (ends_with (str ".mjs") entry))
    "Node source selection must uniquely include an ESM entry" ;;
  refuse_if (existsb (fun p => bool_decide (p = DOT) || bool_decide (p = str "node_modules") || starts_with (str "node_modules/") p) files)
    "Node dependencies require an approved dependency root" ;;
  ds ← getitem v "dependencies"; l ← _array ds false;
  refuse_if (1 <? zlen l)%Z "Node profile permits one approved node_modules tree" ;;
  deps ← traverse parse_dependency l;
  i ← getitem v "id"; id ← _id i; rs ← getitem v "runtimeSha256"; sha ← digest rs;
  Ok (Build id [] DOT DOT (str "node-esm/v1") files (Some sha) deps (Some entry)).

Definition parse_build (allow_node_esm : bool) (v : json) : res BuildPlan :=
  if match v with JObj d => dmem (str "profile") d | _ => false end then
    refuse_if (negb allow_node_esm) "Node preparation requires control policy v2" ;;
    parse_node_plan v
  else
    _object v (strs ["id"; "command"; "cwd"; "artifactPath"]) ;;
    i ← getitem v "id"; id ← _id i; c ← getitem v "command"; command ← _command c;
    w ← getitem v "cwd"; cwd ← checked_relative_path w; a ← getitem v "artifactPath"; artifact ← checked_relative_path a;
    Ok (Build id command cwd artifact (str "custom-build/v1") [] None [] None).

Record ToolPlan : Type := ToolP { tool_id : pystr; tool_command : list pystr; argument_mode : pystr }.

Definition parse_tool (v : json) : res ToolPlan :=
  _object v (strs ["id"; "command"; "argumentMode"]) ;;
  m ← getitem v "argumentMode";
  refuse_if (negb (str_in m (strs ["none"; "append"]))) "tool argumentMode must be none or append" ;;
  i ← getitem v "id"; id ← _id i; c ← getitem v "command"; command ← _command c;
  Ok (ToolP id command (text_of m)).

(** [ToolPlan.argv] *)
Definition tool_argv (t : ToolPlan) (arguments : json) : res (list pystr) :=
  l ← match arguments with JArr l => Ok l | _ => refuse "tool arguments must be a bounded array" end;
  refuse_if (256 <? zlen l)%Z "tool arguments must be a bounded array" ;;
  refuse_if (negb (forallb argument_ok l)) "tool arguments contain invalid values" ;;
  n ← from_option_res (total_size (map text_of l)) (AdmissionError "tool arguments must contain Unicode scalars");
  refuse_if (65535 <? n)%Z "tool arguments exceed the byte limit" ;;
  refuse_if (bool_decide (argument_mode t = str "none") && negb (bool_decide (l = []))) "this tool does not accept request arguments" ;;
  Ok (tool_command t ++ map text_of l).

(** ** Over the file system *)
Section Catalog.
Context (lstat stat : path -> res stat_info) (cwd : list pystr) (geteuid : Z).
#[local] Abbreviation checked_directory := (checked_directory lstat cwd).

(** *** Roots *)
Record ApprovedRoot : Type := Root {
  root_id : pystr; root_path : path; kinds : list pystr; allowed_uids : list Z; root_identity : Z * Z;
  source_view : option view.SourceViewPolicy }.

Definition natural_uid (v : json) : bool := match v with JInt z => (0 <=? z)%Z | _ => false end.
Definition int_of (v : json) : Z := match v with JInt z => z | _ => 0 end.

Definition parse_root (allow_source_view : bool) (v : json) : res ApprovedRoot :=
  let viewed := match v with JObj d => dmem (str "sourceView") d | _ => false end in
  refuse_if (viewed && negb allow_source_view) "source views require the control policy v2 catalog" ;;
  _object v (strs ["id"; "path"; "kinds"; "allowedUids"] ++ (if viewed then strs ["sourceView"] else [])) ;;
  i ← getitem v "id"; id ← _id i;
  p ← getitem v "path"; raw ← path_of p; path ← checked_directory raw;
  k ← getitem v "kinds"; kinds ← _array k true;
  refuse_if (negb (forallb (fun x => str_in x (strs ["prebuilt"; "source"])) kinds) || has_dup (map text_of kinds))
    "root kinds must be unique prebuilt/source values" ;;
  u ← getitem v "allowedUids"; uids ← _array u true;
  refuse_if (negb (forallb natural_uid uids) || has_dup (map int_of uids)) "allowedUids must contain unique nonnegative integers" ;;
  view ← (if viewed then
            refuse_if (negb (set_eq (map text_of kinds) (strs ["source"]))) "source views require a source-only root" ;;
            s ← getitem v "sourceView"; x ← view.parse_view lstat cwd geteuid s; Ok (Some x)
          else Ok None);
  info ← stat path;
  Ok (Root id path (map text_of kinds) (map int_of uids) (st_dev info, st_ino info) view).

(** The loop of [resolve] over the components. *)
Fixpoint walk (current : path) (l : list pystr) : res path :=
  match l with
  | [] => Ok current
  | part :: rest =>
    let current := join_part current part in
    info ← try_except (lstat current) is_os_error (fun _ => refuse "approved input is unavailable");
    let last := bool_decide (rest = []) in
    refuse_if (S_ISLNK info || (negb last && negb (S_ISDIR info))) "approved input path contains a symlink or non-directory component" ;;
    refuse_if (last && negb (S_ISDIR info || S_ISREG info)) "approved input must be a regular file or directory" ;;
    walk current rest
  end.

Definition resolve (r : ApprovedRoot) (principal_uid : Z) (relative : json) (kind : pystr) : res path :=
  refuse_if (negb (bool_decide (principal_uid ∈ allowed_uids r)) || negb (bool_decide (kind ∈ kinds r)))
    "principal is not allowed to use this input root" ;;
  relative ← checked_relative_path relative;
  info ← stat (root_path r);
  refuse_if (negb (bool_decide ((st_dev info, st_ino info) = root_identity r))) "approved input root identity changed" ;;
  if bool_decide (relative = DOT) then Ok (root_path r) else walk (root_path r) (parts (parse_path relative)).

(** *** Runtimes *)
Record NodeShimPlan : Type := Shim { shim_root : path; worker_path : pystr; protocol_path : pystr }.

Definition parse_shim (v : json) : res NodeShimPlan :=
  _object v (strs ["root"; "workerPath"; "protocolPath"]) ;;
  r ← getitem v "root"; raw ← path_of r; root ← checked_directory raw;
  w ← getitem v "workerPath"; worker ← checked_relative_path w; p ← getitem v "protocolPath"; protocol ← checked_relative_path p;
  Ok (Shim root worker protocol).

Record RuntimePlan : Type := Runtime {
  runtime_id : pystr; runtime_kind : pystr; mounts : list RuntimeMount; runtime_command : list pystr; artifact_entry : pystr;
  node_shim : option NodeShimPlan; descriptor_schema : pystr; adapter_id : pystr; target_profile : pystr;
  state_computer_contract_version : pystr }.

Definition parse_mount (v : json) : res RuntimeMount :=
  _object v (strs ["source"; "destination"]) ;;
  s ← getitem v "source"; d ← getitem v "destination"; raw ← path_of s;
  mount_checked lstat cwd (Mount raw d).

Definition artifact_sandbox_path (entry : pystr) : pystr :=
  if bool_decide (entry = DOT) then str "/artifact" else str "/artifact/" ++ entry.
Definition manifest_path : pystr := "/runtime/mirrorgate-manifest/port.json".
Definition shim_entry (shim : NodeShimPlan) : pystr := str "/runtime/mirrorgate-node-shim/" ++ worker_path shim.

Definition parse_runtime (v : json) : res RuntimePlan :=
  let raw := match v with JObj d => d | _ => [] end in
  let kind := dget (str "kind") raw in
  let node := opt_str_is kind (str "node") in
  _object (JObj raw) (strs ["id"; "kind"; "runtimeMounts"; "command"; "artifactEntry"; "descriptorSchema"; "adapterId"; "targetProfile";
                            "stateComputerContractVersion"] ++ (if node then strs ["nodeShim"] else [])) ;;
  refuse_if (negb (node || opt_str_is kind (str "rust"))) "runtime kind must be node or rust" ;;
  m ← getitem v "runtimeMounts"; items ← _array m true; mounts ← traverse parse_mount items;
  refuse_if (negb (unique_destinations mounts) || negb (existsb (fun m => str_is (destination m) (str "/usr")) mounts))
    "runtime mounts must be unique and include /usr" ;;
  c ← getitem v "command"; command ← _command c;
  e ← getitem v "artifactEntry"; entry ← checked_relative_path e;
  refuse_if (negb node && negb (bool_decide (hd_error command = Some (artifact_sandbox_path entry))))
    "rust launch must start at the fixed artifact entry" ;;
  refuse_if (node && negb (bool_decide (artifact_sandbox_path entry ∈ command))) "node launch must name the fixed adapter entry" ;;
  refuse_if (negb (bool_decide (manifest_path ∈ command))) "runtime command must use the frozen public manifest mount" ;;
  shim ← (if node then s ← getitem v "nodeShim"; x ← parse_shim s; Ok (Some x) else Ok None);
  refuse_if (match shim with
             | Some x => match command with
                         | first :: second :: _ => negb (bool_decide (second = shim_entry x)) || starts_with (str "/artifact") first
                         | _ => true
                         end
             | None => false
             end) "node launch must start the trusted shim through an approved runtime" ;;
  ds ← getitem v "descriptorSchema"; schema ← _opaque_ascii ds; ad ← getitem v "adapterId"; adapter ← _opaque_ascii ad;
  tp ← getitem v "targetProfile"; target ← _opaque_ascii tp;
  sc ← getitem v "stateComputerContractVersion"; contract ← _opaque_ascii sc;
  i ← getitem v "id"; id ← _id i;
  refuse_if (negb (bool_decide (id = (if node then str "node" else str "rust") ++ str "-v1"))) "runtime ID must match the frozen worker profile" ;;
  Ok (Runtime id (if node then str "node" else str "rust") mounts command entry shim schema adapter target contract).

(** *** Policies *)
Record AggregateLimits : Type := Aggregate { pids_max : Z; memory_max : Z; cpu_quota_us : Z; cpu_period_us : Z }.

Record ControlPolicy : Type := Policy {
  policy_id : pystr; roots : list (pystr * ApprovedRoot); build_plans : list (pystr * BuildPlan); tools : list (pystr * ToolPlan);
  runtimes : list (pystr * RuntimePlan); limits : ControlLimits; agent_profile_ids : list pystr; aggregate_limits : option AggregateLimits }.

Definition parse_policy (allow_source_view : bool) (v : json) : res ControlPolicy :=
  _object v (strs ["id"; "roots"; "buildPlans"; "tools"; "runtimes"; "limits"]) ;;
  r ← getitem v "roots"; rl ← _array r true; rs ← traverse (parse_root allow_source_view) rl; roots ← _unique root_id rs;
  b ← getitem v "buildPlans"; bl ← _array b false; bs ← traverse (parse_build allow_source_view) bl; builds ← _unique plan_id bs;
  t ← getitem v "tools"; tl ← _array t false; ts ← traverse parse_tool tl; tools ← _unique tool_id ts;
  u ← getitem v "runtimes"; ul ← _array u true; us ← traverse parse_runtime ul; runtimes ← _unique runtime_id us;
  i ← getitem v "id"; id ← _id i; l ← getitem v "limits"; limits ← parse_limits l;
  Ok (Policy id roots builds tools runtimes limits [] None).

(** *** The catalog *)
Record PolicyCatalog : Type := Catalog { policies : list (pystr * ControlPolicy); agent_profiles : list (pystr * agents.AgentProfile) }.

Definition parse_aggregate (v : json) : res AggregateLimits :=
  raw ← _object v (strs ["pidsMax"; "memoryMax"; "cpuQuotaMicros"; "cpuPeriodMicros"]);
  refuse_if (negb (forallb (fun kv => bounded_limit kv.2) raw)) "aggregate limits must be positive bounded integers" ;;
  p ← int_field raw "pidsMax"; m ← int_field raw "memoryMax"; q ← int_field raw "cpuQuotaMicros"; period ← int_field raw "cpuPeriodMicros";
  refuse_if (period * 1024 <? q)%Z "aggregate CPU quota exceeds supported bound" ;;
  Ok (Aggregate p m q period).

(** The profiles a policy may refer to. *)
Definition profile_ids (profiles : list (pystr * agents.AgentProfile)) (v : json) : res (list pystr) :=
  ids ← _array v false;
  refuse_if (negb (forallb (fun k => str_in k profiles.*1) ids) || has_dup (map text_of ids))
    "policy agent profile references must be unique approved IDs" ;;
  Ok (map text_of ids).

Definition without (names : list pystr) (v : json) : json :=
  match v with JObj d => JObj (filter (fun kv => kv.1 ∉ names) d) | _ => v end.

(** A policy of the v2 and v3 catalogs; only the latter has aggregate limits. *)
Definition parse_group_policy (cgroup : bool) (profiles : list (pystr * agents.AgentProfile)) (v : json) : res ControlPolicy :=
  _object v (strs ["id"; "roots"; "buildPlans"; "tools"; "runtimes"; "limits"; "agentProfileIds"]
             ++ (if cgroup then strs ["aggregateLimits"] else [])) ;;
  i ← getitem v "agentProfileIds"; ids ← profile_ids profiles i;
  aggregate ← (if cgroup then a ← getitem v "aggregateLimits"; x ← parse_aggregate a; Ok (Some x) else Ok None);
  p ← parse_policy true (without (strs ["agentProfileIds"; "aggregateLimits"]) v);
  Ok (Policy (policy_id p) (roots p) (build_plans p) (tools p) (runtimes p) (limits p) ids aggregate).

Definition from_group_document (cgroup : bool) (v : json) : res PolicyCatalog :=
  _object v (strs ["schema"; "policies"; "agentProfiles"]) ;;
  a ← getitem v "agentProfiles"; al ← _array a false; ps ← traverse agents.parse_profile al; profiles ← _unique agents.id ps;
  p ← getitem v "policies"; pl ← _array p true; parsed ← traverse (parse_group_policy cgroup profiles) pl;
  policies ← _unique policy_id parsed;
  Ok (Catalog policies profiles).

Definition from_document (v : json) : res PolicyCatalog :=
  let schema := match v with JObj d => dget (str "schema") d | _ => None end in
  if opt_str_is schema CGROUP_CATALOG_SCHEMA then from_group_document true v
  else if opt_str_is schema GROUP_CATALOG_SCHEMA then from_group_document false v
  else
    _object v (strs ["schema"; "policies"]) ;;
    s ← getitem v "schema"; refuse_if (negb (str_is s CATALOG_SCHEMA)) "unsupported control policy schema" ;;
    p ← getitem v "policies"; pl ← _array p true; parsed ← traverse (parse_policy false) pl; policies ← _unique policy_id parsed;
    Ok (Catalog policies []).

(** [from_file]: [text] is what reading the file as UTF-8 gives. *)
Definition catalog_hooks : json_hooks := {|
  object_pairs_hook := unique_pairs (AdmissionError "duplicate control policy field");
  parse_int := int_token;
  parse_float := fun t => Ok (JFloat t);
  parse_constant := fun _ => Err (AdmissionError "nonfinite policy number") |}.

Definition from_file (rec_limit : nat) (text : res pystr) : res PolicyCatalog :=
  value ← try_except (s ← text; loads catalog_hooks rec_limit s)
    (fun e => unavailable e || match e with JSONDecodeError => true | _ => false end)
    (fun _ => refuse "control policy file is not strict UTF-8 JSON");
  from_document value.

Definition select (c : PolicyCatalog) (v : json) : res ControlPolicy :=
  id ← _id v;
  from_option_res (find_id id (policies c)) (AdmissionError "requested policy is not approved").

Definition agent_profile (c : PolicyCatalog) (policy profile : json) : res agents.AgentProfile :=
  p ← select c policy;
  refuse_if (negb (str_in profile (agent_profile_ids p))) "agent profile is not approved by this policy" ;;
  from_option_res (find_id (text_of profile) (agent_profiles c)) KeyError.

(** ** What a catalog promises *)

(** [resolve] follows ordinary directories below the approved root. *)
Lemma walk_Ok current l p :
  walk current l = Ok p ->
  p = Path (root current) (tail current ++ l)
  /\ (forall l1 l2, l = l1 ++ l2 -> l1 <> [] ->
        exists info, lstat (Path (root current) (tail current ++ l1)) = Ok info
          /\ (st_kind info = Dir \/ (l2 = [] /\ st_kind info = Reg))).
Proof.
  revert current. induction l as [|part l IH]; intros current H; cbn in H.
  { inv_res. rewrite app_nil_r. split; [by destruct p|]. intros l1 l2 E Hne. by destruct l1. }
  unfold refuse_if in H. inv_res. match goal with H : walk _ _ = Ok _ |- _ => apply IH in H as [-> Hrest] end. cbn [join_part root tail] in *.
  rewrite <- !app_assoc in *. split; [done|]. intros [|y l1] l2 E Hne; [done|]. injection E as <- El.
  match goal with H : try_except _ _ _ = Ok _ |- _ => apply try_except_Ok_inv in H as [Hst|(e & _ & _ & H)]; [|done] end.
  destruct l1 as [|z l1].
  - cbn in El. subst l2. eexists. split; [done|]. bool_hyps. unfold S_ISLNK, S_ISDIR, S_ISREG in *.
    destruct l; destruct (st_kind _); cbn in *; auto; done.
  - destruct (Hrest (z :: l1) l2 El) as (i & Hi & ?); [done|]. exists i. rewrite <- app_assoc in Hi. done.
Qed.

(** C9: an input a request names is the approved root itself or lies below it
    through directories that are not links, the last component a regular file
    or a directory; the root is the one approved at start-up and the principal
    and the kind are its own. *)
Theorem resolve_confined r uid v kind p :
  resolve r uid v kind = Ok p ->
  uid ∈ allowed_uids r /\ kind ∈ kinds r
  /\ (exists info, stat (root_path r) = Ok info /\ (st_dev info, st_ino info) = root_identity r)
  /\ exists s, v = JStr s /\ relative_path s
      /\ let below := if bool_decide (s = DOT) then [] else split_on 47 s in
         p = Path (root (root_path r)) (tail (root_path r) ++ below)
         /\ forall l1 l2, below = l1 ++ l2 -> l1 <> [] ->
              exists info, lstat (Path (root (root_path r)) (tail (root_path r) ++ l1)) = Ok info
                /\ (st_kind info = Dir \/ (l2 = [] /\ st_kind info = Reg)).
Proof.
  unfold resolve, refuse_if. intros H. inv_res. bool_hyps. split_and!; [done|done|eauto|].
  match goal with H : checked_relative_path _ = Ok ?s |- _ => apply relative_path_accepted in H as (-> & Hrel & _); exists s end.
  split; [done|]. split; [done|]. cbv zeta. pose proof (relative_path_tail _ Hrel) as Hp. case_bool_decide as Hd.
  - inv_res. rewrite app_nil_r. split; [by destruct (root_path r)|]. intros l1 l2 E Hne. by destruct l1.
  - match goal with H : walk _ _ = Ok _ |- _ => rewrite Hp in H; apply walk_Ok in H end. done.
Qed.

(** C26: an accepted runtime has one mount per destination, among them
    [/usr], hands the frozen manifest to its command, and starts what it is
    meant to: a rust worker the artifact entry, a node worker the trusted shim
    under an executable that is not the submission's. *)
Theorem runtime_starts_trusted v r :
  parse_runtime v = Ok r ->
  manifest_path ∈ runtime_command r /\ runtime_id r = runtime_kind r ++ str "-v1"
  /\ NoDup (map (fun m => text_of (destination m)) (mounts r)) /\ (exists m, m ∈ mounts r /\ destination m = JStr "/usr")
  /\ (forall m, m ∈ mounts r -> ordinary lstat (source m) /\ (source m ∉ BROAD_SOURCES))
  /\ ((runtime_kind r = "rust" /\ node_shim r = None /\ hd_error (runtime_command r) = Some (artifact_sandbox_path (artifact_entry r)))
      \/ (runtime_kind r = "node" /\ artifact_sandbox_path (artifact_entry r) ∈ runtime_command r
          /\ exists shim first rest, node_shim r = Some shim /\ ordinary lstat (shim_root shim)
             /\ runtime_command r = first :: shim_entry shim :: rest /\ starts_with "/artifact" first = false)).
Proof.
  unfold parse_runtime, refuse_if. set (node := opt_str_is _ _). intros H. inv_res. bool_hyps.
  cbn [mounts runtime_command runtime_id runtime_kind node_shim artifact_entry].
  match goal with H : traverse _ _ = Ok _ |- _ => apply traverse_Ok in H; rename H into Hm end.
  match goal with H : existsb _ _ = true |- _ => apply existsb_exists in H as (m & Hin & E) end.
  split_and!; [done|done| | | |].
  - unfold unique_destinations in *. bool_hyps. by apply has_dup_false.
  - exists m. split; [by apply list_elem_of_In|by apply str_is_true].
  - intros m' Hm'. apply list_elem_of_lookup in Hm' as [i Hi]. destruct (Forall2_lookup_r _ _ _ _ _ Hm Hi) as (m0 & _ & Hc).
    unfold parse_mount in Hc. inv_res. match goal with H : mount_checked _ _ _ = Ok _ |- _ => by apply mount_checked_Ok in H as (_ & ? & ? & _) end.
  - destruct node; cbn [negb andb] in *; bool_hyps; inv_res; [right|left; by bool_hyps].
    split_and!; [done|done|].
    match goal with H : parse_shim _ = Ok ?x |- _ => exists x; unfold parse_shim in H; rename H into Hshim end. inv_res.
    match goal with H : paths.checked_directory _ _ _ = Ok _ |- _ => apply checked_directory_Ok in H as (_ & Ho & _) end.
    match goal with H : match ?c with [] => true | _ => _ end = false |- _ => destruct c as [|first [|second rest]]; try done; bool_hyps end.
    subst. by exists first, rest.
Qed.

(** The profiles policies refer to exist. *)
Definition closed (c : PolicyCatalog) : Prop :=
  (forall k p i, (k, p) ∈ policies c -> i ∈ agent_profile_ids p -> i ∈ (agent_profiles c).*1)
  /\ forall k x, (k, x) ∈ agent_profiles c -> agents.id x = k.

Lemma unique_by_id {A} (id : A -> pystr) items l k x : _unique id items = Ok l -> (k, x) ∈ l -> x ∈ items /\ id x = k.
Proof.
  intros H Hin. apply _unique_Ok in H as [-> _]. apply list_elem_of_fmap in Hin as (y & E & Hy). by injection E as -> ->.
Qed.

Lemma parse_policy_profiles b v p : parse_policy b v = Ok p -> agent_profile_ids p = [].
Proof. unfold parse_policy. intros H. inv_res. done. Qed.

Lemma parse_group_policy_profiles cgroup profiles v p i :
  parse_group_policy cgroup profiles v = Ok p -> i ∈ agent_profile_ids p -> i ∈ profiles.*1.
Proof.
  unfold parse_group_policy, profile_ids, refuse_if. intros H Hi. inv_res. cbn [agent_profile_ids] in Hi. bool_hyps.
  apply list_elem_of_fmap in Hi as (v' & -> & Hv). match goal with H : forallb _ _ = true |- _ => rewrite forallb_forall in H; apply list_elem_of_In, H in Hv end.
  apply str_in_true in Hv as (s & -> & Hs). done.
Qed.

Lemma from_group_document_closed cgroup v c : from_group_document cgroup v = Ok c -> closed c.
Proof.
  unfold from_group_document. intros H. inv_res. split; cbn [policies agent_profiles].
  - intros k p i Hin Hi. match goal with H : _unique policy_id _ = Ok _ |- _ => apply (unique_by_id _ _ _ _ _ H) in Hin as [Hin _] end.
    match goal with H : traverse (parse_group_policy _ _) _ = Ok _ |- _ => apply traverse_Ok in H; rename H into Ht end.
    apply list_elem_of_lookup in Hin as [n Hn]. destruct (Forall2_lookup_r _ _ _ _ _ Ht Hn) as (w & _ & Hw).
    by eapply parse_group_policy_profiles.
  - intros k y Hin. by match goal with H : _unique agents.id _ = Ok _ |- _ => apply (unique_by_id _ _ _ _ _ H) in Hin as [_ ?] end.
Qed.

Lemma from_document_closed v c : from_document v = Ok c -> closed c.
Proof.
  unfold from_document. set (schema := match v with JObj _ => _ | _ => _ end). destruct (opt_str_is schema CGROUP_CATALOG_SCHEMA); [apply from_group_document_closed|].
  destruct (opt_str_is schema GROUP_CATALOG_SCHEMA); [apply from_group_document_closed|]. intros H'. inv_res. split; cbn [policies agent_profiles]; [|by intros ? ? ?%elem_of_nil]. intros k p i Hin Hi.
  match goal with H : _unique policy_id _ = Ok _ |- _ => apply (unique_by_id _ _ _ _ _ H) in Hin as [Hin _] end.
  match goal with H : traverse _ _ = Ok _ |- _ => apply traverse_Ok in H; rename H into Ht end.
  apply list_elem_of_lookup in Hin as [n Hn]. destruct (Forall2_lookup_r _ _ _ _ _ Ht Hn) as (w & _ & Hw).
  apply parse_policy_profiles in Hw. rewrite Hw in Hi. by apply elem_of_nil in Hi.
Qed.

Lemma _id_raises v : raises (fun e => exists m, e = AdmissionError m) (_id v).
Proof. unfold _id, refuse_if, refuse. destruct v as [| | | |s| |]; cbn; eauto. destruct (CATALOG_ID s); cbn; eauto. Qed.

Lemma select_Ok c v p : select c v = Ok p -> exists k, v = JStr k /\ (k, p) ∈ policies c.
Proof.
  unfold select. intros H. inv_res. destruct (find_id _ _) as [p'|] eqn:E; [|done].
  match goal with H : from_option_res _ _ = Ok _ |- _ => injection H as -> end. apply find_id_In in E.
  unfold _id, refuse_if, refuse in *. destruct v; try done. inv_res. eauto.
Qed.

(** C34: in a catalog that was loaded, every reference resolves.  Asking for a
    profile through a policy gives the profile of that id, one the policy
    lists, or is refused; it never fails on the profile table, whose lookup the
    code leaves unguarded. *)
Theorem profiles_resolve doc c policy profile :
  from_document doc = Ok c ->
  match agent_profile c policy profile with
  | Ok x => exists p, select c policy = Ok p /\ profile = JStr (agents.id x) /\ agents.id x ∈ agent_profile_ids p
  | Err e => exists m, e = AdmissionError m
  end.
Proof.
  intros [Hids Hname]%from_document_closed. unfold agent_profile, refuse_if.
  destruct (select c policy) as [p|e] eqn:Hs; cbn [rbind].
  - destruct (str_in profile (agent_profile_ids p)) eqn:Hp; cbn [negb raise_if rbind]; [|by eexists].
    apply str_in_true in Hp as (s & -> & Hin). cbn [text_of]. destruct (select_Ok _ _ _ Hs) as (k & _ & Hk).
    destruct (find_id_is_Some s (agent_profiles c)) as [x Hx]; [by eapply Hids|]. rewrite Hx. cbn [from_option_res].
    apply find_id_In, Hname in Hx. subst s. by exists p.
  - unfold select in Hs. apply bind_Err in Hs as [Hs|(k & _ & Hs)].
    + pose proof (_id_raises policy) as Hr. by rewrite Hs in Hr.
    + destruct (find_id _ _); cbn in Hs; [done|]. injection Hs as <-. by eexists.
Qed.
End Catalog.

(** *** Limits *)

(** The limit of a wire name. *)
Definition limit (l : ControlLimits) (k : pystr) : option Z := match dget k (as_wire l) with Some (JInt n) => Some n | _ => None end.

(** What [parse_limits] accepts. *)
Definition admissible (l : ControlLimits) : Prop :=
  Forall (fun kv => bounded_limit kv.2 = true) (as_wire l) /\ (32 <= open_files l)%Z.

Lemma as_wire_keys l : dkeys (as_wire l) = CONTROL_LIMIT_FIELDS.
Proof. by vm_compute. Qed.

Lemma next_key d k ks :
  dkeys d = k :: ks -> Forall (fun kv => exists n, kv.2 = JInt n) d ->
  exists n d', d = (k, JInt n) :: d' /\ dkeys d' = ks /\ Forall (fun kv => exists n, kv.2 = JInt n) d'.
Proof.
  intros Hk Hd. destruct d as [|[k' v] d]; [done|]. injection Hk as -> Hk. apply list.Forall_cons in Hd as [[n Hn] Hd].
  cbn in Hn. subst. eauto.
Qed.

(** A dictionary of integers with the keys of the wire form is a wire form. *)
Lemma as_wire_of d :
  dkeys d = CONTROL_LIMIT_FIELDS -> Forall (fun kv => exists n, kv.2 = JInt n) d -> exists l, d = as_wire l.
Proof.
  intros Hk Hd. unfold CONTROL_LIMIT_FIELDS, strs in Hk. cbn [map] in Hk.
  do 13 (let n := fresh "n" in let d' := fresh "d" in destruct (next_key _ _ _ Hk Hd) as (n & d' & -> & Hk' & Hd'); clear Hk Hd; rename Hk' into Hk, Hd' into Hd).
  match type of Hd with Forall _ ?d => destruct d; [|done] end. eexists (Control _ _ _ _ _ _ _ _ _ _ _ _ _). reflexivity.
Qed.

Lemma parse_as_wire l l' : parse_limits (JObj (as_wire l)) = Ok l' <-> l' = l /\ admissible l.
Proof.
  unfold parse_limits, _object, refuse_if, admissible. rewrite as_wire_keys.
  replace (set_eq CONTROL_LIMIT_FIELDS CONTROL_LIMIT_FIELDS) with true by (by vm_compute). cbn [negb raise_if rbind].
  destruct (for_each _ _) as [[]|e] eqn:Hf; cbn [rbind].
  - apply for_each_Ok in Hf. change (int_field (as_wire l) "openFiles") with (Ok (open_files l)). cbn [rbind].
    destruct (Z.ltb_spec (open_files l) 32); cbn [raise_if rbind]; [split; [done|intros [_ [_ ?]]; lia]|].
    match goal with |- ?m = Ok l' <-> _ => replace m with (Ok l) by (by destruct l) end.
    split; [|by intros [-> _]]. intros [= <-]. split_and!; [done| |done]. eapply list.Forall_impl; [exact Hf|]. cbn. intros kv Hkv.
    apply raise_if_Ok in Hkv. by bool_hyps.
  - split; [done|]. intros [_ [H _]]. exfalso. assert (for_each (fun kv : pystr * json => raise_if (negb (bounded_limit kv.2))
      (AdmissionError "must be a positive bounded integer")) (as_wire l) = Ok tt) as E; [|congruence].
    apply for_each_Ok. eapply list.Forall_impl; [exact H|]. cbn. by intros kv ->.
Qed.

(** One field after the other. *)
Definition replace_all (current d : pydict) : pydict := foldl (fun current kv => dset kv.1 kv.2 current) current d.

Lemma dget_replace_all k d current : NoDup (dkeys d) ->
  dget k (replace_all current d) = match dget k d with Some v => Some v | None => dget k current end.
Proof.
  unfold replace_all. revert current. induction d as [|[k' v] d IH]; intros current Hnd; cbn; [done|].
  apply list.NoDup_cons in Hnd as [Hk Hnd]. cbn in Hk. rewrite IH, dget_dset by done. case_bool_decide as E.
  - subst. apply dget_None in Hk. by rewrite Hk.
  - done.
Qed.

Lemma tighten_loop d current current' : NoDup (dkeys d) ->
  fold_res (fun current kv => refuse_if (negb (no_looser (dget kv.1 current) kv.2)) "must be positive and no looser than policy" ;;
    Ok (dset kv.1 kv.2 current)) d current = Ok current'
  <-> current' = replace_all current d /\ Forall (fun kv => no_looser (dget kv.1 current) kv.2 = true) d.
Proof.
  unfold replace_all. revert current. induction d as [|[k v] d IH]; intros current Hnd; cbn [fold_res foldl dkeys map].
  - split; [intros [= <-]; by split|]. by intros [-> _].
  - apply list.NoDup_cons in Hnd as [Hk Hnd]. unfold refuse_if at 1. cbn [fst snd]. rewrite list.Forall_cons. cbn [fst snd].
    destruct (no_looser (dget k current) v) eqn:E; cbn [negb raise_if rbind]; [|split; [done|naive_solver]].
    rewrite IH by done. f_equiv. rewrite !list.Forall_forall. split.
    + intros H. split; [done|]. intros [k' v'] Hin. specialize (H _ Hin). cbn in *. rewrite dget_dset in H. case_bool_decide; [|done].
      subst. exfalso. apply Hk. by apply list_elem_of_fmap_2 with (f := fst) in Hin.
    + intros [_ H] [k' v'] Hin. specialize (H _ Hin). cbn in *. rewrite dget_dset. case_bool_decide; [|done].
      subst. exfalso. apply Hk. by apply list_elem_of_fmap_2 with (f := fst) in Hin.
Qed.

Lemma wire_int l k v : dget k (as_wire l) = Some v -> exists n, v = JInt n.
Proof.
  intros [n Hn]%dget_Some_in%list_elem_of_lookup. unfold as_wire in Hn.
  do 13 (destruct n as [|n]; [injection Hn as <- <-; by eexists|]). done.
Qed.

Lemma wire_equal l l' : (forall k, limit l k = limit l' k) -> l = l'.
Proof.
  intros H. assert (forall k f, (forall l, limit l (str k) = Some (f l)) -> f l = f l') as Hf.
  { intros k f Hf. specialize (H (str k)). rewrite !Hf in H. by injection H. }
  pose proof (Hf "sessionWallMs" session_wall_ms (fun _ => eq_refl)). pose proof (Hf "executionWallMs" execution_wall_ms (fun _ => eq_refl)).
  pose proof (Hf "commandCpuSeconds" command_cpu_seconds (fun _ => eq_refl)). pose proof (Hf "addressSpaceBytes" address_space_bytes (fun _ => eq_refl)).
  pose proof (Hf "uidProcesses" uid_processes (fun _ => eq_refl)). pose proof (Hf "openFiles" open_files (fun _ => eq_refl)).
  pose proof (Hf "fileBytes" file_bytes (fun _ => eq_refl)). pose proof (Hf "stdoutBytes" stdout_bytes (fun _ => eq_refl)).
  pose proof (Hf "stderrBytes" stderr_bytes (fun _ => eq_refl)). pose proof (Hf "snapshotFiles" snapshot_files (fun _ => eq_refl)).
  pose proof (Hf "snapshotBytes" snapshot_bytes (fun _ => eq_refl)). pose proof (Hf "tmpBytes" tmp_bytes (fun _ => eq_refl)).
  pose proof (Hf "scratchBytes" scratch_bytes (fun _ => eq_refl)). clear H Hf. destruct l, l'. cbn in *. congruence.
Qed.

Lemma dkeys_replace_all current d : dkeys d ⊆ dkeys current -> dkeys (replace_all current d) = dkeys current.
Proof.
  unfold replace_all. revert current. induction d as [|[k v] d IH]; intros current H; cbn; [done|].
  assert (dkeys (dset k v current) = dkeys current) as E by (apply dkeys_dset_known; apply H; by left).
  rewrite IH, E; [done|]. rewrite E. intros x Hx. apply H. by right.
Qed.

(** The dictionary [tighten] ends with is the wire form of some limits. *)
Lemma tightened l d :
  NoDup (dkeys d) -> Forall (fun kv => no_looser (dget kv.1 (as_wire l)) kv.2 = true) d ->
  dkeys d ⊆ CONTROL_LIMIT_FIELDS /\ exists l', replace_all (as_wire l) d = as_wire l'
    /\ forall k, limit l' k = match dget k d with Some (JInt n) => Some n | _ => limit l k end.
Proof.
  intros Hnd Hd. rewrite list.Forall_forall in Hd.
  assert (forall k v, dget k d = Some v -> no_looser (dget k (as_wire l)) v = true) as Hv by (intros k v Hk; by apply dget_Some_in, Hd in Hk).
  assert (dkeys d ⊆ CONTROL_LIMIT_FIELDS) as Hk.
  { intros k (v & Hkv)%dget_elem. apply Hv in Hkv. rewrite <- (as_wire_keys l). apply dget_elem. destruct (dget k (as_wire l)); [eauto|done]. }
  assert (dkeys (replace_all (as_wire l) d) = CONTROL_LIMIT_FIELDS) as Hkeys by (rewrite dkeys_replace_all; by rewrite as_wire_keys).
  split; [done|]. destruct (as_wire_of (replace_all (as_wire l) d)) as [l' Hl'].
  - done.
  - rewrite list.Forall_forall. intros [k v] Hin. cbn [fst snd]. apply dget_nodup in Hin.
    + rewrite dget_replace_all in Hin by done. destruct (dget k d) as [w|] eqn:E; [|by apply wire_int in Hin].
      injection Hin as ->. apply Hv in E. unfold no_looser in E. destruct (dget k (as_wire l)) as [[]|]; try done. destruct v; try done. eauto.
    + rewrite Hkeys. by_decision.
  - exists l'. split; [done|]. intros k. unfold limit. rewrite <- Hl', dget_replace_all by done.
    destruct (dget k d) as [w|] eqn:E; [|done]. apply Hv in E. unfold no_looser in E. destruct (dget k (as_wire l)) as [[]|]; try done. by destruct w.
Qed.

Lemma tighten_Ok l d l' :
  NoDup (dkeys d) ->
  tighten l (Some (JObj d)) = Ok l' <->
  Forall (fun kv => no_looser (dget kv.1 (as_wire l)) kv.2 = true) d /\ replace_all (as_wire l) d = as_wire l' /\ admissible l'.
Proof.
  intros Hnd. unfold tighten. split.
  - unfold refuse_if at 1. intros H. inv_res. match goal with H : fold_res _ _ _ = Ok _ |- _ => apply tighten_loop in H as [-> Hd]; [|done] end.
    destruct (tightened l d Hnd Hd) as (_ & l2 & E & _). rewrite E in *.
    match goal with H : parse_limits _ = Ok _ |- _ => by apply parse_as_wire in H as [-> ?] end.
  - intros (Hd & E & Ha). destruct (tightened l d Hnd Hd) as [Hk _]. apply set_sub_spec in Hk. rewrite Hk. cbn [negb refuse_if raise_if rbind].
    assert (fold_res (fun current kv => refuse_if (negb (no_looser (dget kv.1 current) kv.2)) "must be positive and no looser than policy" ;;
      Ok (dset kv.1 kv.2 current)) d (as_wire l) = Ok (as_wire l')) as -> by (by apply tighten_loop). cbn [rbind]. by apply parse_as_wire.
Qed.

(** C25: limits a request tightens are no looser than the policy's, field by
    field, and the fields it does not name keep their value; exactly the
    requests for which that can be are accepted. *)
Theorem tighten_spec l d l' :
  admissible l -> NoDup (dkeys d) ->
  tighten l (Some (JObj d)) = Ok l' <->
  (forall k v, dget k d = Some v -> exists n c, v = JInt n /\ limit l k = Some c /\ (0 < n <= c)%Z)
  /\ (forall k, limit l' k = match dget k d with Some (JInt n) => Some n | _ => limit l k end)
  /\ (32 <= open_files l')%Z.
Proof.
  intros [Hb Ho] Hnd. rewrite tighten_Ok by done. rewrite list.Forall_forall in Hb. split.
  - intros (Hd & E & [_ Ho']). destruct (tightened l d Hnd Hd) as (_ & l2 & E2 & Hlim). rewrite list.Forall_forall in Hd.
    assert (l2 = l') as <- by (apply wire_equal; intros k; unfold limit; by rewrite <- E2, <- E).
    split_and!; [|exact Hlim|done]. intros k v Hk. apply dget_Some_in, Hd in Hk. cbn [fst snd] in Hk. unfold no_looser in Hk. unfold limit.
    destruct (dget k (as_wire l)) as [[]|]; try done. destruct v; try done. bool_hyps. eexists _, _. split; [done|]. split; [done|]. lia.
  - intros (Hd & Hlim & Ho'). assert (Forall (fun kv => no_looser (dget kv.1 (as_wire l)) kv.2 = true) d) as Hn.
    { rewrite list.Forall_forall. intros [k v] Hin. cbn [fst snd]. apply dget_nodup in Hin; [|done]. destruct (Hd k v Hin) as (n & c & -> & Hc & ?).
      unfold limit in Hc. unfold no_looser. destruct (dget k (as_wire l)) as [[]|]; try done. injection Hc as ->. lia. }
    split; [done|]. destruct (tightened l d Hnd Hn) as (_ & l2 & E2 & Hlim2).
    assert (l2 = l') as -> by (apply wire_equal; intros k; by rewrite Hlim, Hlim2). split; [done|]. split; [|done].
    rewrite list.Forall_forall. intros [k v] Hin. cbn [fst snd]. apply dget_nodup in Hin; [|rewrite as_wire_keys; by_decision].
    destruct (wire_int _ _ _ Hin) as [n ->]. specialize (Hlim k). unfold limit at 1 in Hlim. rewrite Hin in Hlim.
    assert (forall c, limit l k = Some c -> bounded_limit (JInt c) = true) as Hc.
    { intros c Hc. unfold limit in Hc. destruct (dget k (as_wire l)) as [[]|] eqn:E; try done. injection Hc as ->. by apply dget_Some_in, Hb in E. }
    destruct (dget k d) as [w|] eqn:E; [|by apply Hc]. destruct (Hd k w E) as (m & c & -> & Hl & ?). injection Hlim as ->.
    apply Hc in Hl. cbn in *. bool_hyps. lia.
Qed.

(** ** A catalog *)
Definition texts (l : list string) : json := JArr (map (fun s => JStr (str s)) l).
Definition field (k : string) (v : json) : pystr * json := (str k, v).
Definition text (k v : string) : pystr * json := (str k, JStr (str v)).

Definition sample_limits : ControlLimits :=
  Control 600000 30000 20 (4 * 1024 ^ 3) 4096 128 (64 * 1024 ^ 2) (4 * 1024 ^ 2) (1024 ^ 2) 10000 (512 * 1024 ^ 2) (64 * 1024 ^ 2) (256 * 1024 ^ 2).

Definition sample_root : json :=
  JObj [text "id" "submission"; text "path" "/srv/submissions"; field "kinds" (texts ["source"; "prebuilt"]); field "allowedUids" (JArr [JInt 1000])].

Definition sample_runtime : json :=
  JObj [text "id" "rust-v1"; text "kind" "rust"; field "runtimeMounts" (JArr [JObj [text "source" "/usr"; text "destination" "/usr"]]);
        field "command" (texts ["/artifact/worker"; "--manifest"; "/runtime/mirrorgate-manifest/port.json"]); text "artifactEntry" "worker";
        text "descriptorSchema" "mirrors.model-interface-descriptor/v1"; text "adapterId" "mirrorgate/rust-v1";
        text "targetProfile" "rust-v1"; text "stateComputerContractVersion" "mirrors.state-computer/v1"].

Definition sample_profile : json :=
  JObj [text "id" "codex.main"; text "runtime" "codex"; text "executable" "/opt/codex"; text "version" "codex-cli 0.153.4"; text "model" "gpt-5";
        text "modelCatalog" "/opt/models.json"; text "credentialFile" "/etc/codex/key"; text "auditReceipt" "/var/audit.json";
        field "auditMaxAgeSeconds" (JInt 3600); text "credentialRevision" "r1"; field "limits" (JObj agents.LIMIT_CEILINGS)].

Definition sample_document : json :=
  JObj [field "schema" (JStr CGROUP_CATALOG_SCHEMA); field "agentProfiles" (JArr [sample_profile]);
        field "policies" (JArr [JObj [text "id" "test.rust"; field "roots" (JArr [sample_root]); field "buildPlans" (JArr []); field "tools" (JArr []);
          field "runtimes" (JArr [sample_runtime]); field "limits" (JObj (as_wire sample_limits)); field "agentProfileIds" (texts ["codex.main"]);
          field "aggregateLimits" (JObj [field "pidsMax" (JInt 512); field "memoryMax" (JInt 1073741824); field "cpuQuotaMicros" (JInt 200000);
            field "cpuPeriodMicros" (JInt 100000)])]])].

(** A host where paths that end in "worker" are files and the others directories. *)
Definition sample_host (p : path) : res stat_info :=
  Ok (Stat (if bool_decide (list.last (tail p) = Some (str "worker")) then Reg else Dir) 1 7 0 493).

Definition approved_root : ApprovedRoot := Root (str "submission") (parse_path "/srv/submissions") (strs ["source"; "prebuilt"]) [1000%Z] (1, 7)%Z None.

Example sample_root_parses : parse_root sample_host sample_host [] 1000 false sample_root = Ok approved_root.
Proof. vm_compute. reflexivity. Qed.

Lemma resolve_confined_witness :
  exists p, resolve sample_host sample_host approved_root 1000 (JStr "team/worker") "prebuilt" = Ok p /\ exists info, sample_host (root_path approved_root) = Ok info.
Proof.
  exists (parse_path "/srv/submissions/team/worker").
  assert (resolve sample_host sample_host approved_root 1000 (JStr "team/worker") "prebuilt" = Ok (parse_path "/srv/submissions/team/worker")) as H
    by (vm_compute; reflexivity).
  split; [exact H|]. destruct (resolve_confined sample_host sample_host _ _ _ _ _ H) as (_ & _ & (info & Hi & _) & _). by exists info.
Defined.

(** A link on the way is refused, and so is a root that was replaced. *)
Example resolve_refuses_link :
  resolve (fun p => Ok (Stat Lnk 1 7 0 493)) sample_host approved_root 1000 (JStr "team/worker") "prebuilt"
    = refuse "approved input path contains a symlink or non-directory component"
  /\ resolve sample_host (fun p => Ok (Stat Dir 1 8 0 493)) approved_root 1000 (JStr "team/worker") "prebuilt"
    = refuse "approved input root identity changed"
  /\ resolve sample_host sample_host approved_root 1000 (JStr "../worker") "prebuilt" = refuse "must be canonical and relative".
Proof. vm_compute. done. Qed.

Lemma sample_runtime_parses : exists r, parse_runtime sample_host [] sample_runtime = Ok r.
Proof. vm_compute. by eexists. Qed.

Lemma runtime_starts_trusted_witness :
  exists r, parse_runtime sample_host [] sample_runtime = Ok r /\ manifest_path ∈ runtime_command r.
Proof.
  destruct sample_runtime_parses as [r Hr]. exists r. split; [exact Hr|]. exact (proj1 (runtime_starts_trusted sample_host [] _ _ Hr)).
Defined.

Lemma sample_document_loads : exists c, from_document sample_host sample_host [] 1000 sample_document = Ok c.
Proof. vm_compute. by eexists. Qed.

Lemma profiles_resolve_witness :
  exists c, match agent_profile c (JStr "test.rust") (JStr "codex.main") with
            | Ok x => exists p, select c (JStr "test.rust") = Ok p /\ JStr "codex.main" = JStr (agents.id x) /\ agents.id x ∈ agent_profile_ids p
            | Err e => exists m, e = AdmissionError m
            end.
Proof.
  destruct sample_document_loads as [c Hc]. exists c. exact (profiles_resolve sample_host sample_host [] 1000 _ _ _ _ Hc).
Defined.

Lemma sample_limits_admissible : admissible sample_limits.
Proof. split; [|by vm_compute]. repeat constructor. Qed.

Lemma tighten_spec_witness :
  admissible sample_limits /\ exists l', tighten sample_limits (Some (JObj [field "openFiles" (JInt 64)])) = Ok l' /\ limit l' "openFiles" = Some 64%Z.
Proof.
  split; [exact sample_limits_admissible|].
  assert (exists l', tighten sample_limits (Some (JObj [field "openFiles" (JInt 64)])) = Ok l') as [l' Hl] by (vm_compute; by eexists).
  exists l'. split; [exact Hl|].
  assert (NoDup (dkeys [field "openFiles" (JInt 64)])) as Hn by by_decision.
  apply (tighten_spec _ _ _ sample_limits_admissible Hn) in Hl as (_ & Hlim & _). rewrite Hlim. reflexivity.
Defined.

(** Looser, zero and unknown limits are refused, and so is an [openFiles] below 32. *)
Example tighten_refuses :
  forallb (fun d => negb (is_ok (tighten sample_limits (Some (JObj d)))))
    [[field "openFiles" (JInt 129)]; [field "openFiles" (JInt 31)]; [field "tmpBytes" (JInt 0)]; [field "tmpBytes" (JBool true)]; [field "wallMs" (JInt 1)]]
  = true.
Proof. vm_compute. reflexivity. Qed.
End catalog.
