(* ===== verification/Recovery.v ===== *)
(** * Offline recovery ([supervisor/mirrorgate/recovery.py])

    A recoverer holds the journal's lease, classifies every claim a dead
    supervisor left, and removes the directory trees it can prove to own.  It
    runs over the journal of [RecoveryJournal.v] and a tree of files below the
    state root; any system call may fail, any deadline may pass, and every
    injected fault may fire ([world]).  Nothing else changes the tree while the
    recoverer runs.  The kernel's answers about a control group are parameters. *)

From Stdlib Require Import ZArith Lia.
From stdpp Require Import base list gmap strings numbers.
From S2P Require Import Prelude PyJson JsonText Protocol Canonical RecoveryReceipt JournalRecord Effects Paths RecoveryJournal.
#[local] Open Scope res_scope.
#[local] Open Scope eff_scope.

Module recovery.
Import paths journal store.

(** ** What recovery says of a claim *)

(** Records come from [_decode_record], which accepts none without these
    fields, so they are read without a failure case. *)
Definition text (k : string) (r : pydict) : pystr := match dget k r with Some (JStr s) => s | _ => [] end.
Definition fields (k : string) (r : pydict) : pydict := match dget k r with Some (JObj d) => d | _ => [] end.
Definition items (k : string) (r : pydict) : list json := match dget k r with Some (JArr l) => l | _ => [] end.
Definition flag (k : string) (r : pydict) : bool := match dget k r with Some (JBool b) => b | _ => false end.
Definition number (k : string) (r : pydict) : Z := match dget k r with Some (JInt z) => z | _ => 0%Z end.
Definition opt_text (k : string) (r : pydict) : option pystr := match dget k r with Some (JStr s) => Some s | _ => None end.

Record RecoveryItem : Type := RItem {
  resource_id : pystr; session_id : pystr; kind : pystr; item_phase : pystr; disposition : pystr; reason_code : option pystr }.

Definition public (i : RecoveryItem) : json :=
  JObj ([(str "resourceId", JStr (resource_id i)); (str "sessionId", JStr (session_id i)); (str "kind", JStr (kind i));
         (str "phase", JStr (item_phase i)); (str "disposition", JStr (disposition i))]
        ++ match reason_code i with Some c => [(str "reasonCode", JStr c)] | None => [] end).

(** The item of a record, with a disposition. *)
Definition item_of (r : pydict) (disposition : string) (reason : option string) : RecoveryItem :=
  RItem (text "resourceId" r) (text "sessionId" r) (text "kind" r) (text "phase" r) (str disposition) (str <$> reason).

Definition _classify (r : pydict) (live : bool) : RecoveryItem :=
  let phase := text "phase" r in
  if live && negb (bool_decide (phase ∈ strs ["reclaimed"; "ambiguous"])) then item_of r "live" (Some "live_owner")
  else if bool_decide (phase = "reclaimed") then item_of r "reclaimed" None
  else if bool_decide (phase = "retained_by_policy") && negb (flag "retainedRecoverable" r) then
    item_of r "retained" (Some "retained_by_policy")
  else if bool_decide (phase = "ambiguous") then item_of r "ambiguous" (Some "ownership_ambiguous")
  else if bool_decide (phase = "cleanup_failed") then item_of r "failed" (Some "prior_cleanup_failed")
  else if bool_decide (text "kind" r ∈ strs ["process"; "cgroup"]) then
    item_of r "ambiguous" (Some "post_restart_identity_unavailable")
  else item_of r "abandoned" None.

Definition DISPOSITIONS : list pystr := strs ["live"; "abandoned"; "retained"; "reclaimed"; "failed"; "ambiguous"].

Definition _counts (dispositions : list pystr) (n_invalid : Z) : pydict :=
  map (fun name => (name, JInt (zlen (filter (fun d => d = name) dispositions)))) DISPOSITIONS ++ [(str "invalid", JInt n_invalid)].

(** [live] is what [_owner_busy] answers. *)
Definition inspect (rec_limit : nat) (live : bool) (d : disk) : res json :=
  snap ← _inspect_journal_fd rec_limit d;
  claims ← traverse (fun v => r ← as_dict v; Ok (_classify r live)) (records snap);
  Ok (JObj [(str "schema", JStr (str "mirrorgate.recovery-inspection/v1")); (str "claims", JArr (public <$> claims));
            (str "invalidRecords", JArr ((fun i => JObj [(str "record", JStr (bad_name i)); (str "reasonCode", JStr (str "record_invalid"))])
                                           <$> invalid snap));
            (str "counts", JObj (_counts (disposition <$> claims) (zlen (invalid snap))))]).

Definition _record_path (r : pydict) : option pystr := opt_text "relativePath" (fields "identity" r).

Definition _record_belongs_to_root (own : lease) (r : pydict) : bool :=
  (number "principalUid" r =? principal_uid own)%Z && py_eqb (JObj (fields "stateRoot" r)) (JObj (state_root_identity own)).

(** ** The files below the state root *)

Definition S_IFDIR : Z := 16384.

(** A path is the list of its components below the root. *)
Record node : Type := Node { n_device : Z; n_inode : Z; n_fmt : Z; n_uid : Z; n_token : option bytes }.
Abbreviation files := (gmap (list pystr) node).

Definition is_dir (n : node) : bool := (n_fmt n =? S_IFDIR)%Z.

(** [os.open(..., O_DIRECTORY | O_NOFOLLOW)] *)
Definition opendir (p : list pystr) (t : files) : files * res node :=
  (t, match t !! p with None => Err FileNotFoundError | Some n => if is_dir n then Ok n else Err OSError end).
(** [os.dup], [os.fchmod]: no effect the model has. *)
Definition succeed (t : files) : files * res unit := (t, Ok tt).
Definition getxattr (n : node) (t : files) : files * res bytes := (t, from_option_res (n_token n) OSError).
Definition lstat_at (p : list pystr) (t : files) : files * res node := (t, from_option_res (t !! p) FileNotFoundError).
Definition is_child (p q : list pystr) : bool := bool_decide (removelast q = p) && negb (bool_decide (q = [])).
Definition listdir (p : list pystr) (t : files) : files * res (list (list pystr)) :=
  (t, Ok (filter (fun q => is_child p q = true) (map_to_list t).*1)).

(** [q] is [p] or lies below it. *)
Definition below (p q : list pystr) : bool := bool_decide (p `prefix_of` q).
Definition has_below (p : list pystr) (t : files) : bool :=
  existsb (fun q => below p q && negb (bool_decide (q = p))) (map_to_list t).*1.

Definition unlink_at (p : list pystr) (t : files) : files * res unit :=
  match t !! p with
  | None => (t, Err FileNotFoundError)
  | Some n => if is_dir n then (t, Err OSError) else (delete p t, Ok tt)
  end.
Definition rmdir_at (p : list pystr) (t : files) : files * res unit :=
  match t !! p with
  | None => (t, Err FileNotFoundError)
  | Some n => if negb (is_dir n) || has_below p t then (t, Err OSError) else (delete p t, Ok tt)
  end.

(** A directory moves with everything below it; only an empty directory is
    replaced, and nothing moves below itself. *)
Definition moved (src dst : list pystr) (t : files) : files :=
  filter (fun kn => below src kn.1 = false /\ kn.1 <> dst) t ∪
  list_to_map ((fun kn => (dst ++ drop (length src) kn.1, kn.2)) <$> filter (fun kn => below src kn.1 = true) (map_to_list t)).
Definition rename_at (src dst : list pystr) (t : files) : files * res unit :=
  match t !! src with
  | None => (t, Err FileNotFoundError)
  | Some n =>
    if bool_decide (src = dst) then (t, Ok tt)
    else if below src dst || has_below dst t
            || match t !! dst with Some m => negb (is_dir n) || negb (is_dir m) | None => false end
    then (t, Err OSError) else (moved src dst t, Ok tt)
  end.

(** ** The recoverer *)

(** What the outside decides: the environment of each publication, which
    system calls fail, when the removal deadline has passed, the faults injected
    at the cuts, and the random tokens. *)
Record world : Type := World {
  publication : nat -> env; fails : nat -> bool; late : nat -> bool; cut_at : string -> option exn;
  quarantine_token : nat -> pystr }.

Record rstate : Type := RState {
  jnl : jstate; quarantined : gmap pystr entry; tree : files; publications : nat; syscalls : nat }.

(** The kernel's answers about control groups below the delegated parent:
    opening one with its identity, its limits, what [CgroupSession.cleanup]
    observes once it killed the group and saw it empty, its removal, and what
    [observe] reads. *)
Record delegation : Type := Delegation {
  parent_identity : json; group_open : pystr -> res (Z * Z * Z); group_settings : pystr -> res pydict;
  group_quiesce : pystr -> res pydict; group_remove : pystr -> res unit; group_observe : pystr -> res pydict }.

Definition is_journal_error (e : exn) : bool := match e with JournalError _ => true | _ => false end.

Section Recovery.
Context (rec_limit : nat) (own : lease) (w : world).

(** A journal method, with the environment of its publication. *)
Definition with_journal {A} (m : env -> eff jstate A) : eff rstate A := fun s =>
  let '(j, x) := m (publication w (publications s)) (jnl s) in
  (RState j (quarantined s) (tree s) (S (publications s)) (syscalls s), x).
Definition method (m : env -> eff jstate json) : eff rstate pydict := let* v := with_journal m in elift (as_dict v).

(** A system call on the tree. *)
Definition os {A} (call : files -> files * res A) : eff rstate A := fun s =>
  if fails w (syscalls s) then (RState (jnl s) (quarantined s) (tree s) (publications s) (S (syscalls s)), Err OSError)
  else let '(t, x) := call (tree s) in (RState (jnl s) (quarantined s) t (publications s) (S (syscalls s)), x).

Definition cut (name : string) : eff rstate unit := elift match cut_at w name with Some e => Err e | None => Ok tt end.
Definition passed : eff rstate bool := fun s => (s, Ok (late w (syscalls s))).

(** *** Locating the object of a claim *)

Fixpoint open_dirs (base parts : list pystr) : eff rstate unit :=
  match parts with
  | [] => eret tt
  | part :: rest => os (opendir (base ++ [part])) ;;* open_dirs (base ++ [part]) rest
  end.

(** [PurePosixPath(checked_relative_path(relative)).parts] *)
Definition components (relative : pystr) : list pystr := parts (parse_path relative).

(** The parent is opened component by component; the result is the object's
    path. *)
Definition _open_parent (relative : pystr) : eff rstate (list pystr) :=
  let* path := elift (checked_relative_path (JStr relative)) in
  let p := components path in
  open_dirs [] (removelast p) ;;* eret p.

(** Opening the object: its [fstat] and its ownership token. *)
Definition observe (p : list pystr) : eff rstate (node * pystr) :=
  let* n := os (opendir p) in let* raw := os (getxattr n) in let* token := elift (ascii_decode raw) in eret (n, token).

Definition attempt {A} (m : eff rstate A) : eff rstate (res A) := fun s => let '(s', x) := m s in (s', Ok x).

Definition identity_matches (identity : pydict) (n : node) (token : pystr) : bool :=
  bool_decide (dget "device" identity = Some (JInt (n_device n))) && bool_decide (dget "inode" identity = Some (JInt (n_inode n)))
  && bool_decide (dget "mode" identity = Some (JInt (n_fmt n))) && bool_decide (dget "ownershipToken" identity = Some (JStr token)).

(** The loop over the candidate paths: a reason to refuse, or the one path. *)
Fixpoint check_candidates (identity : pydict) (candidates matches : list pystr) : eff rstate (pystr + pystr) :=
  match candidates with
  | [] =>
    eret match matches with
         | [] => inl (str "object_missing_unconfirmed")
         | [relative] => inr relative
         | _ => inl (str "duplicate_object_identity")
         end
  | relative :: rest =>
    let* seen := attempt (let* p := _open_parent relative in observe p) in
    match seen with
    | Err FileNotFoundError => check_candidates identity rest matches
    | Err e => if is_os_error e || is_journal_error e then eret (inl (str "path_validation_failed")) else eraise e
    | Ok (n, token) =>
      if negb (is_dir n) then eret (inl (str "object_type_changed"))
      else if identity_matches identity n token then check_candidates identity rest (matches ++ [relative])
      else eret (inl (str "object_identity_changed"))
    end
  end.

Definition _validate_filesystem (r : pydict) : eff rstate (pystr + pystr) :=
  let identity := fields "identity" r in
  if bool_decide (identity = []) then eret (inl (str "identity_incomplete"))
  else
    let* original := elift (checked_relative_path (or_none (dget "relativePath" identity))) in
    if negb (starts_with "resources/" original) then eret (inl (str "path_outside_resources"))
    else
      let* target := elift match opt_text "cleanupTarget" r with
                           | Some p => path ← checked_relative_path (JStr p); Ok [path]
                           | None => Ok []
                           end in
      check_candidates identity (original :: target) [].

(** *** Removing a tree *)

Definition exceeded : exn := OSError.

(** [levels] is the number of levels still allowed, [entries] the budget used. *)
Fixpoint _remove_tree_at (device uid : Z) (levels : nat) (p : list pystr) (entries : Z) : eff rstate Z :=
  match levels with
  | O => eraise exceeded
  | S levels =>
    let* over := passed in
    eguard ((10000 <? entries)%Z || over) exceeded ;;*
    let* opened := os (opendir p) in
    eguard (negb (n_device opened =? device)%Z || negb (n_uid opened =? uid)%Z) OSError ;;*
    os succeed ;;*
    let* names := os (listdir p) in
    let* entries :=
      (fix children (names : list (list pystr)) (entries : Z) : eff rstate Z :=
         match names with
         | [] => eret entries
         | child :: names =>
           let entries := (entries + 1)%Z in
           let* over := passed in
           eguard ((10000 <? entries)%Z || over) exceeded ;;*
           let* info := os (lstat_at child) in
           eguard (negb (n_device info =? device)%Z || negb (n_uid info =? uid)%Z) OSError ;;*
           let* entries :=
             (if is_dir info then _remove_tree_at device uid levels child entries
              else os (unlink_at child) ;;* eret entries) in
           children names entries
         end) names entries in
    os (rmdir_at p) ;;* eret entries
  end.

(** *** Recording what happened *)

Definition observation (attempt_id : pystr) (status : string) (reason : option pystr) : pydict :=
  [(str "attemptId", JStr attempt_id); (str "status", JStr (str status)); (str "reasonCode", receipt.opt_json reason)].

Definition transition_to (rid : pystr) (phase : string) (c : changes) : eff rstate pydict :=
  method (fun e => transition rec_limit e rid (str phase) c).
Definition observed (o : pydict) : changes := Changes None None (Some o) None None.
Definition targeted (target : pystr) : changes := Changes None None None (Some (JStr target)) None.

Definition _mark_ambiguous (r : pydict) (attempt_id reason : pystr) : eff rstate RecoveryItem :=
  let* r := (if bool_decide (text "phase" r ∈ strs ["ambiguous"; "reclaimed"]) then eret r
             else transition_to (text "resourceId" r) "ambiguous" (observed (observation attempt_id "ambiguous" (Some reason)))) in
  eret (RItem (text "resourceId" r) (text "sessionId" r) (text "kind" r) (text "phase" r) (str "ambiguous") (Some reason)).

(** *** Reclaiming a directory *)

Definition quarantine_name (r : pydict) : pystr := str "reclaim-" ++ text "resourceId" r.
Definition quarantine_path (r : pydict) : list pystr := [str "quarantine"; quarantine_name r].
Definition cleanup_target (r : pydict) : pystr := str "quarantine/" ++ quarantine_name r.

(** The record under a durable intent to clean up, or why not. *)
Definition intend (r : pydict) (attempt_id : pystr) : eff rstate (RecoveryItem + pydict) :=
  let phase := text "phase" r in
  if negb (bool_decide (phase = "cleanup_intent")) then
    if bool_decide (phase ∈ strs ["cleanup_failed"; "allocation_intent"; "durable_owned"; "active"])
       || bool_decide (phase = "retained_by_policy") && flag "retainedRecoverable" r
    then let* r := transition_to (text "resourceId" r) "cleanup_intent" (targeted (cleanup_target r)) in eret (inr r)
    else let* i := _mark_ambiguous r attempt_id (str "transition_invalid") in eret (inl i)
  else if bool_decide (opt_text "cleanupTarget" r = None) then
    let* r := method (fun e => set_cleanup_target rec_limit e (text "resourceId" r) (JStr (cleanup_target r))) in eret (inr r)
  else eret (inr r).

Definition failed_item (r : pydict) (attempt_id : pystr) (reason : string) : eff rstate RecoveryItem :=
  let* failed := transition_to (text "resourceId" r) "cleanup_failed" (observed (observation attempt_id "failed" (Some (str reason)))) in
  eret (item_of failed "failed" (Some reason)).

(** The body of the [try]: an item when it returns early. *)
Definition move_and_remove (r : pydict) (attempt_id relative : pystr) (p : list pystr) : eff rstate (option RecoveryItem) :=
  let identity := fields "identity" r in
  let* seen := observe p in
  if negb (identity_matches identity seen.1 seen.2) then
    let* i := _mark_ambiguous r attempt_id (str "object_identity_changed") in eret (Some i)
  else
    let* moved :=
      (if bool_decide (relative = cleanup_target r) then eret None
       else
         cut "before-rename" ;;*
         let* refused := etry (os (rename_at p (quarantine_path r)) ;;* eret None) is_os_error
                           (fun _ => let* i := failed_item r attempt_id "rename_failed" in eret (Some i)) in
         match refused with Some i => eret (Some i) | None => cut "after-rename" ;;* eret None end) in
    match moved with
    | Some i => eret (Some i)
    | None =>
      let* n := os (lstat_at (quarantine_path r)) in
      if negb (bool_decide (dget "device" identity = Some (JInt (n_device n))) && bool_decide (dget "inode" identity = Some (JInt (n_inode n)))
               && bool_decide (dget "mode" identity = Some (JInt (n_fmt n)))) then
        let* i := _mark_ambiguous r attempt_id (str "quarantine_identity_changed") in eret (Some i)
      else
        _remove_tree_at (number "device" identity) (number "principalUid" r) 65 (quarantine_path r) 0 ;;*
        cut "after-remove" ;;* eret None
    end.

Definition _reclaim_filesystem (r : pydict) (attempt_id : pystr) : eff rstate RecoveryItem :=
  let* valid := _validate_filesystem r in
  match valid with
  | inl reason => _mark_ambiguous r attempt_id reason
  | inr _ =>
    let* intended := intend r attempt_id in
    match intended with
    | inl i => eret i
    | inr current =>
      cut "after-cleanup-intent" ;;*
      let* valid := _validate_filesystem current in
      match valid with
      | inl reason => _mark_ambiguous current attempt_id reason
      | inr relative =>
        let* p := _open_parent relative in
        os succeed ;;*
        let* ended := etry (move_and_remove current attempt_id relative p) is_os_error
                        (fun _ => let* i := failed_item current attempt_id "removal_failed" in eret (Some i)) in
        match ended with
        | Some i => eret i
        | None =>
          let* terminal := transition_to (text "resourceId" current) "reclaimed" (observed (observation attempt_id "recovered" None)) in
          cut "after-terminal-record" ;;*
          eret (item_of terminal "reclaimed" None)
        end
      end
    end
  end.
(** *** Processes and control groups *)

(** The record of the control group that covers a process. *)
Definition covering_group (r : pydict) : eff rstate pydict :=
  let identity := fields "identity" r in
  let* rid := elift (getitem (JObj identity) "cgroupResourceId") in
  let* group := method (fun _ => read rec_limit (str_of rid)) in
  let same k := py_eqb (or_none (dget k r)) (or_none (dget k group)) in
  let same_owner := forallb same (strs ["stateRoot"; "sessionId"; "controllerInstance"; "bootId"; "principalUid"]) in
  let* digest := elift (getitem (JObj identity) "cgroupIdentityDigest") in
  eguard (bool_decide (text "phase" r = "allocation_intent") || negb (dmem "pid" identity)
          || negb (bool_decide (text "bootId" r = boot_id own)) || negb (bool_decide (opt_text "bootId" identity = Some (boot_id own)))
          || negb (bool_decide (text "kind" group = "cgroup")) || negb (bool_decide (text "schema" group = GROUP_SCHEMA)) || negb same_owner
          || negb (str_is digest (cgroup_identity_digest (JObj (fields "identity" group)))))
    (JournalError "process group ownership is unconfirmed") ;;*
  eret group.

Definition seen_empty (o : json) : bool :=
  match o with JObj d => bool_decide (text "status" d = "recovered") && bool_decide (text "reasonCode" d = "owned_cgroup_empty") | _ => false end.

Definition _reclaim_group_process (r : pydict) (attempt_id : pystr) : eff rstate RecoveryItem :=
  let* group := attempt (covering_group r) in
  match group with
  | Err e =>
    if is_journal_error e || is_os_error e || match e with KeyError => true | _ => false end
    then _mark_ambiguous r attempt_id (str "process_group_link_unconfirmed") else eraise e
  | Ok group =>
    if bool_decide (text "phase" group = "ambiguous") then _mark_ambiguous r attempt_id (str "covering_cgroup_ambiguous")
    else if negb (bool_decide (text "phase" group = "reclaimed")) then
      method (fun e => begin_cleanup rec_limit e (text "resourceId" r)) ;;*
      let* failed := method (fun e => finish_cleanup rec_limit e (text "resourceId" r) false) in
      eret (RItem (text "resourceId" r) (text "sessionId" r) (str "process") (text "phase" failed) (str "failed")
              (Some (str "covering_cgroup_not_reclaimed")))
    else if negb (existsb seen_empty (items "observations" group)) then
      _mark_ambiguous r attempt_id (str "covering_cgroup_empty_unconfirmed")
    else
      method (fun e => begin_cleanup rec_limit e (text "resourceId" r)) ;;*
      let* terminal := transition_to (text "resourceId" r) "reclaimed"
                         (observed (observation attempt_id "recovered" (Some (str "covered_by_owned_cgroup")))) in
      eret (RItem (text "resourceId" r) (text "sessionId" r) (str "process") (text "phase" terminal) (str "reclaimed") None)
  end.

Definition cgroup_observation (r : pydict) (settings counters : pydict) : json :=
  JObj [(str "resourceId", JStr (text "resourceId" r)); (str "settings", JObj settings); (str "counters", JObj counters)].

Definition blank_settings : pydict :=
  map (fun k => (k, JNull)) (strs ["pids.max"; "memory.max"; "memory.swap.max"; "cpu.max"]).

Definition is_group_record (r : pydict) : bool := bool_decide (text "schema" r = GROUP_SCHEMA).

(** [**evidence] *)
Definition with_evidence (r evidence : pydict) : json :=
  JObj (fold_left (fun d kv => dset kv.1 kv.2 d) evidence [(str "resourceId", JStr (text "resourceId" r))]).

(** The first [try]: opening the group under its recorded identity. *)
Definition open_group (dlg : delegation) (r : pydict) (name : pystr) : res pydict :=
  let identity := fields "identity" r in
  raise_if (negb (bool_decide (text "bootId" r = boot_id own))) (JournalError "cgroup belongs to another boot") ;;
  raise_if (is_group_record r && negb (py_eqb (or_none (dget "delegation" identity)) (parent_identity dlg)))
    (JournalError "cgroup delegation changed") ;;
  actual ← group_open dlg name;
  raise_if (negb (bool_decide (actual = (number "device" identity, number "inode" identity, number "mode" identity))))
    (JournalError "cgroup identity changed") ;;
  group_settings dlg name.

(** [CgroupSession.cleanup]: [before] runs between the observation and the
    removal. *)
Definition group_cleanup (dlg : delegation) (name : pystr) (before : pydict -> eff rstate unit) : eff rstate pydict :=
  let* counters := elift (group_quiesce dlg name) in before counters ;;* elift (group_remove dlg name) ;;* eret counters.

Definition evidence_of (settings counters : pydict) : json :=
  JObj [(str "settings", JObj settings); (str "counters", JObj counters)].

Definition is_admission_error (e : exn) : bool := match e with AdmissionError _ => true | _ => false end.

Definition empty_observed (attempt_id : pystr) (evidence : option json) : changes :=
  Changes None None (Some (observation attempt_id "recovered" (Some (str "owned_cgroup_empty")))) None evidence.

(** A group that is gone: only an earlier durable observation that it was
    empty permits the claim to be closed. *)
Definition group_absent (r : pydict) (attempt_id : pystr) : eff rstate (RecoveryItem * json) :=
  match dget "cleanupEvidence" r with
  | Some (JObj evidence) =>
    if is_group_record r && bool_decide (text "phase" r ∈ strs ["cleanup_intent"; "cleanup_failed"]) then
      method (fun e => begin_cleanup rec_limit e (text "resourceId" r)) ;;*
      let* terminal := transition_to (text "resourceId" r) "reclaimed" (empty_observed attempt_id None) in
      eret (RItem (text "resourceId" r) (text "sessionId" r) (str "cgroup") (text "phase" terminal) (str "reclaimed") None,
            with_evidence r evidence)
    else
      let* i := _mark_ambiguous r attempt_id (str "cgroup_identity_unconfirmed") in eret (i, cgroup_observation r blank_settings [])
  | _ => let* i := _mark_ambiguous r attempt_id (str "cgroup_identity_unconfirmed") in eret (i, cgroup_observation r blank_settings [])
  end.

Definition _reclaim_cgroup (dlg : delegation) (r : pydict) (attempt_id : pystr) : eff rstate (RecoveryItem * json) :=
  let unconfirmed := let* i := _mark_ambiguous r attempt_id (str "cgroup_identity_unconfirmed") in
                     eret (i, cgroup_observation r blank_settings []) in
  match opt_text "relativePath" (fields "identity" r) with
  | None => unconfirmed
  | Some name =>
    match open_group dlg r name with
    | Err FileNotFoundError => group_absent r attempt_id
    | Err e => if is_os_error e || is_journal_error e || is_admission_error e then unconfirmed else eraise e
    | Ok settings =>
      method (fun e => begin_cleanup rec_limit e (text "resourceId" r)) ;;*
      let before counters :=
        if is_group_record r
        then transition_to (text "resourceId" r) "cleanup_intent" (Changes None None None None (Some (evidence_of settings counters))) ;;* eret tt
        else eret tt in
      let* cleaned := etry (let* c := group_cleanup dlg name before in eret (inr c)) (fun e => is_os_error e || is_admission_error e)
        (fun _ =>
           let* counters := elift (try_except (group_observe dlg name) (fun e => is_os_error e || is_admission_error e) (fun _ => Ok [])) in
           let* failed := method (fun e => finish_cleanup rec_limit e (text "resourceId" r) false) in
           eret (inl (item_of failed "failed" (Some "cgroup_cleanup_failed"), cgroup_observation r settings counters))) in
      match cleaned with
      | inl result => eret result
      | inr counters =>
        let* terminal := transition_to (text "resourceId" r) "reclaimed"
          (empty_observed attempt_id (if is_group_record r then Some (evidence_of settings counters) else None)) in
        eret (item_of terminal "reclaimed" None, cgroup_observation r settings counters)
      end
    end
  end.

(** *** Which claims to remove *)

(** What the first pass collects: results, the claims whose trees must stay
    (with their path, or everything of their session), the plans (path and
    record), and the observations of control groups. *)
Record pass : Type := Pass {
  results : list RecoveryItem; protected : list (option pystr * pydict); plans : list (pystr * pydict);
  observations : pydict }.

Definition add_result (i : RecoveryItem) (a : pass) : pass := Pass (results a ++ [i]) (protected a) (plans a) (observations a).
Definition protect (path : option pystr) (r : pydict) (a : pass) : pass :=
  Pass (results a) (protected a ++ [(path, r)]) (plans a) (observations a).
Definition add_plan (relative : pystr) (r : pydict) (a : pass) : pass :=
  Pass (results a) (protected a) (plans a ++ [(relative, r)]) (observations a).
Definition add_observation (r : pydict) (o : json) (a : pass) : pass :=
  Pass (results a) (protected a) (plans a) (dset (text "resourceId" r) o (observations a)).

(** The latest record of a claim that is not reclaimed stays protected. *)
Definition keep_unless_reclaimed (r : pydict) (i : RecoveryItem) (a : pass) : eff rstate pass :=
  if bool_decide (disposition i = "reclaimed") then eret a
  else let* latest := method (fun _ => read rec_limit (text "resourceId" r)) in eret (protect None latest a).

Definition consider (dlg : option delegation) (attempt_id : pystr) (a : pass) (r : pydict) : eff rstate pass :=
  let i := _classify r false in
  let kind := text "kind" r in
  let ambiguous reason path := let* i := _mark_ambiguous r attempt_id (str reason) in eret (protect path r (add_result i a)) in
  if negb (_record_belongs_to_root own r) then ambiguous "foreign_root_or_uid"%string (_record_path r)
  else if bool_decide (disposition i = "reclaimed") then
    if bool_decide (kind = "cgroup") then
      match dget "cleanupEvidence" r with
      | Some (JObj evidence) => eret (add_result i (add_observation r (with_evidence r evidence) a))
      | _ => eret (add_result (item_of r "unconfirmed" (Some "terminal_counters_not_retained")) a)
      end
    else eret (add_result i a)
  else if bool_decide (disposition i = "retained") then eret (protect (_record_path r) r (add_result i a))
  else if bool_decide (text "phase" r = "ambiguous") then eret (protect (_record_path r) r (add_result i a))
  else if negb (bool_decide (kind ∈ strs ["filesystem"; "retained_source"])) then
    if bool_decide (kind = "process") && is_group_record r then
      let* i := _reclaim_group_process r attempt_id in keep_unless_reclaimed r i (add_result i a)
    else
      match (if bool_decide (kind = "cgroup") then dlg else None) with
      | Some dlg =>
        let* io := _reclaim_cgroup dlg r attempt_id in
        keep_unless_reclaimed r io.1 (add_result io.1 (add_observation r io.2 a))
      | None =>
        if bool_decide (kind = "cgroup") && bool_decide (text "phase" r = "cleanup_failed")
        then eret (protect None r (add_result (item_of r "failed" (Some "prior_cleanup_failed")) a))
        else ambiguous "post_restart_identity_unavailable"%string None
      end
  else
    let* valid := _validate_filesystem r in
    match valid with
    | inl reason =>
      let* i := _mark_ambiguous r attempt_id reason in eret (protect (_record_path r) r (add_result i a))
    | inr _ => eret (add_plan (text "relativePath" (fields "identity" r)) r a)
    end.

(** A protected claim blocks every tree that holds it; one without a path
    blocks its session's and the controller's. *)
Definition blocks (candidate : path) (r : pydict) (p : option pystr * pydict) : bool :=
  match p.1 with
  | Some path => bool_decide (candidate = parse_path path) || in_parents candidate (parse_path path)
  | None => bool_decide (text "sessionId" r = text "sessionId" p.2) || bool_decide (text "sessionId" r = "controller")
  end.

Definition sieve (attempt_id : pystr) (protected : list (option pystr * pydict)) (acc : list RecoveryItem * list pydict)
    (plan : pystr * pydict) : eff rstate (list RecoveryItem * list pydict) :=
  let '(relative, r) := plan in
  let blockers := filter (fun p => blocks (parse_path relative) r p = true) protected in
  if bool_decide (blockers = []) then eret (acc.1, acc.2 ++ [r])
  else if forallb (fun p => bool_decide (text "phase" p.2 = "cleanup_failed")) blockers then
    method (fun e => begin_cleanup rec_limit e (text "resourceId" r)) ;;*
    let* failed := method (fun e => finish_cleanup rec_limit e (text "resourceId" r) false) in
    eret (acc.1 ++ [RItem (text "resourceId" r) (text "sessionId" r) (text "kind" r) (text "phase" failed) (str "failed")
                      (Some (str "descendant_cleanup_failed"))], acc.2)
  else
    let* i := _mark_ambiguous r attempt_id (str "protected_descendant") in eret (acc.1 ++ [i], acc.2).
(** *** Groups *)

Definition logical (r : pydict) : path := parse_path (text "relativePath" (fields "identity" r)).
Definition depth (r : pydict) : nat := length (parts (logical r)).

(** [sorted(safe_plans, key=depth)], stable. *)
Fixpoint insert_plan (r : pydict) (l : list pydict) : list pydict :=
  match l with [] => [r] | q :: l' => if (depth r <=? depth q)%nat then r :: l else q :: insert_plan r l' end.
Definition by_depth (l : list pydict) : list pydict := foldr insert_plan [] l.

(** A claim joins the first group whose root holds it, or starts one. *)
Fixpoint join_group (r : pydict) (groups : list (pydict * list pydict)) : list (pydict * list pydict) :=
  match groups with
  | [] => [(r, [])]
  | (root, descendants) :: rest =>
    if in_parents (logical root) (logical r) then (root, descendants ++ [r]) :: rest else (root, descendants) :: join_group r rest
  end.
Definition grouped (l : list pydict) : list (pydict * list pydict) := fold_left (fun g r => join_group r g) (by_depth l) [].

(** [(group_target / suffix).as_posix()] *)
Definition desired_target (root r : pydict) : pystr :=
  path_str (Path [] (quarantine_path root ++ drop (length (tail (logical root))) (tail (logical r)))).

(** Each descendant with its target, unless one already has another. *)
Definition desired (root : pydict) (descendants : list pydict) : option (list (pydict * pystr)) :=
  if forallb (fun r => match opt_text "cleanupTarget" r with Some p => bool_decide (p = desired_target root r) | None => true end) descendants
  then Some (map (fun r => (r, desired_target root r)) descendants) else None.

(** The descendants under a durable intent; [None] when one has another target. *)
Fixpoint prepare (l : list (pydict * pystr)) : eff rstate (option (list pydict)) :=
  match l with
  | [] => eret (Some [])
  | (r, target) :: l =>
    let* prepared :=
      (if negb (bool_decide (text "phase" r = "cleanup_intent")) then
         let* r := transition_to (text "resourceId" r) "cleanup_intent" (targeted target) in eret (Some r)
       else match opt_text "cleanupTarget" r with
            | None => let* r := method (fun e => set_cleanup_target rec_limit e (text "resourceId" r) (JStr target)) in eret (Some r)
            | Some p => eret (if bool_decide (p = target) then Some r else None)
            end) in
    match prepared with
    | None => eret None
    | Some r => let* rest := prepare l in eret (cons r <$> rest)
    end
  end.

Fixpoint close_descendants (attempt_id : pystr) (l : list pydict) : eff rstate (list RecoveryItem) :=
  match l with
  | [] => eret []
  | r :: l =>
    let* terminal := transition_to (text "resourceId" r) "reclaimed"
                       (observed (observation attempt_id "recovered" (Some (str "ancestor_reclaimed")))) in
    let* rest := close_descendants attempt_id l in
    eret (item_of terminal "reclaimed" None :: rest)
  end.

Definition reclaim_group (attempt_id : pystr) (acc : list RecoveryItem) (group : pydict * list pydict) : eff rstate (list RecoveryItem) :=
  let '(root, descendants) := group in
  let* prepared := match desired root descendants with Some l => prepare l | None => eret None end in
  match prepared with
  | None => let* i := _mark_ambiguous root attempt_id (str "group_cleanup_target_conflict") in eret (acc ++ [i])
  | Some current =>
    let* i := _reclaim_filesystem root attempt_id in
    if bool_decide (disposition i = "reclaimed") then
      let* rest := close_descendants attempt_id current in eret (acc ++ [i] ++ rest)
    else eret (acc ++ [i])
  end.

(** *** The attempt *)

Fixpoint efold {S A B} (f : A -> B -> eff S A) (l : list B) (a : A) : eff S A :=
  match l with [] => eret a | x :: l => let* a := f a x in efold f l a end.

(** [os.scandir(quarantine_fd)]: files set aside earlier, and trees. *)
Definition quarantine_names (s : rstate) : list pystr :=
  (map_to_list (quarantined s)).*1
  ++ omap (fun q : list pystr => match q with [d; name] => if bool_decide (d = str "quarantine") then Some name else None | _ => None end) (map_to_list (tree s)).*1.

Definition set_aside (bad : list invalid_record) : eff rstate unit := fun s =>
  let '(d, q) := quarantine_invalid (zip bad (map (quarantine_token w) (List.seq 0 (length bad)))) (storage (jnl s)) (quarantined s) in
  (RState (set_disk d (jnl s)) q (tree s) (publications s) (syscalls s), Ok tt).

Definition cgroups_first (l : list pydict) : list pydict :=
  filter (fun r => text "kind" r = "cgroup") l ++ filter (fun r => text "kind" r <> "cgroup") l.

(** The body of [with RecoveryJournal(...)]: the results, the observations and
    whether a record has the second schema. *)
Definition recover (dlg : option delegation) (attempt_id : pystr) : eff rstate (list RecoveryItem * pydict * bool) :=
  let* s := eget in
  eguard (existsb (starts_with "invalid-") (quarantine_names s)) (JournalError "quarantined journal records require manual intervention") ;;*
  let* snap := with_journal (fun _ => store.inspect rec_limit) in
  (if bool_decide (invalid snap = []) then eret tt
   else set_aside (invalid snap) ;;* eraise (JournalError "invalid journal records require manual intervention")) ;;*
  let* claims := elift (traverse as_dict (records snap)) in
  let* a := efold (consider dlg attempt_id) (cgroups_first claims) (Pass [] [] [] []) in
  let* sieved := efold (sieve attempt_id (protected a)) (plans a) (results a, []) in
  let* results := efold (reclaim_group attempt_id) (grouped sieved.2) sieved.1 in
  eret (results, observations a, existsb is_group_record claims).

Definition receipt_result (i : RecoveryItem) : json :=
  JObj [(str "resourceId", JStr (resource_id i)); (str "sessionId", JStr (session_id i)); (str "kind", JStr (kind i));
        (str "result", JStr (disposition i)); (str "reasonCode", receipt.opt_json (reason_code i))].

(** [cgroup_observations\[id\]], blank when the group was not observed. *)
Definition observation_or_blank (observations : pydict) (i : RecoveryItem) : json :=
  default (JObj [(str "resourceId", JStr (resource_id i)); (str "settings", JObj blank_settings); (str "counters", JObj [])])
    (dget (resource_id i) observations).

Definition unresolved (i : RecoveryItem) : bool := bool_decide (disposition i ∈ strs ["ambiguous"; "failed"; "unconfirmed"]).

Definition receipt_of (attempt_id : pystr) (original : json) (results : list RecoveryItem) (observations : pydict) (group : bool)
    : receipt.receipt_args :=
  receipt.Args (JStr attempt_id) (JStr (str "offline_reclaim")) original (JArr (receipt_result <$> results))
    (Some ((fun i => JStr (resource_id i)) <$> filter (fun i => unresolved i = true) results))
    (Some ((fun i => JStr (disposition i)) <$> results))
    (Some (observation_or_blank observations <$> filter (fun i => kind i = "cgroup") results))
    (JStr (if group then GROUP_SCHEMA else SCHEMA)) (JStr (controller_instance own)) (JStr (boot_id own)) (JInt (principal_uid own)) None.

(** The journal is closed when the block is left, however it is left. *)
Definition leave {A} (m : eff rstate A) : eff rstate A := fun s =>
  let '(s', x) := m s in
  (RState (store.close (jnl s')).1 (quarantined s') (tree s') (publications s') (syscalls s'), x).

Definition reclaim (dlg : option delegation) (attempt_id : pystr) (original : json) : eff rstate json :=
  let* found := leave (recover dlg attempt_id) in
  let '(results, observations, group) := found in
  let* receipt := elift (receipt.create_receipt (receipt_of attempt_id original results observations group)) in
  eret (JObj [(str "schema", JStr (str "mirrorgate.recovery-result/v1")); (str "attemptId", JStr attempt_id);
              (str "results", JArr (public <$> results)); (str "counts", JObj (_counts (disposition <$> results) 0));
              (str "receipt", receipt)]).
End Recovery.
End recovery.
