(* ===== verification/RecoveryDemo.v ===== *)
(** * A state root left behind by a supervisor that died

    Two claims: a directory to remove, with a file and a directory in it, and a
    retained source.  The theorems about recovery are applied to it. *)

From Stdlib Require Import ZArith Lia.
From stdpp Require Import base list gmap strings numbers.
From S2P Require Import Prelude PyJson JsonText Protocol Canonical RecoveryReceipt JournalRecord Effects Paths RecoveryJournal Recovery.

Module ruin.
Import paths journal store recovery.

Definition hex (c : N) : pystr := replicate 64 c.

(** The claim [id] of the directory [path] with inode [inode]. *)
Definition claim (id path kind phase : string) (inode : Z) : pydict :=
  [(str "schema", JStr SCHEMA); (str "sequence", JInt 3); (str "controllerInstance", JStr (str "c0"));
   (str "bootId", JStr (str "boot")); (str "principalUid", JInt 1000); (str "sessionId", JStr (str "s-1"));
   (str "resourceId", JStr (str id)); (str "kind", JStr (str kind)); (str "phase", JStr (str phase)); (str "stage", JStr (str "build"));
   (str "identity", JObj [(str "relativePath", JStr (str path)); (str "device", JInt 1); (str "inode", JInt inode);
                          (str "mode", JInt 16384); (str "ctimeNs", JInt 5); (str "ownershipToken", JStr (hex (48 + Z.to_N inode)))]);
   (str "retainedRecoverable", JBool false); (str "observations", JArr []);
   (str "stateRoot", JObj [(str "device", JInt 1); (str "inode", JInt 7); (str "uid", JInt 1000)]); (str "cleanupTarget", JNull)].

Definition line (r : pydict) : bytes := match encode_record r with Ok b => b | Err _ => [] end.
Definition left_behind : list pydict :=
  [claim "r-1" "resources/a" "filesystem" "active" 1; claim "r-4" "resources/d" "retained_source" "retained_by_policy" 4].
Definition record_files : gmap pystr entry := list_to_map ((fun r => (file_of (text "resourceId" r), Regular (line r) true)) <$> left_behind).

Definition dir (inode : Z) : node := Node 1 inode S_IFDIR 1000 (Some (hex (48 + Z.to_N inode))).
Definition file (inode : Z) : node := Node 1 inode 32768 1000 None.
Definition at_path (s : string) : list pystr := split_on 47 (str s).
Definition trees : files := list_to_map
  [(at_path "resources", dir 20); (at_path "resources/a", dir 1); (at_path "resources/a/x", file 11); (at_path "resources/a/sub", dir 12);
   (at_path "resources/d", dir 4); (at_path "quarantine", dir 21)].

Definition start : rstate := RState (JState (Disk record_files record_files) false) ∅ trees 0 0.
Definition recoverer : lease :=
  Lease (str "c1") (str "boot-2") 1000 [(str "device", JInt 1); (str "inode", JInt 7); (str "uid", JInt 1000)].
Definition calm : world :=
  World (fun n => Env (str "t") (fun _ => 2000%nat) (fun _ => None)) (fun _ => false) (fun _ => false) (fun _ => None) (fun _ => str "q").
Definition attempt : pystr := str "attempt".

(** *** An attempt interrupted after its rename *)
Definition moved_claim : pydict :=
  dset "cleanupTarget" (JStr (str "quarantine/reclaim-r-1")) (claim "r-1" "resources/a" "filesystem" "cleanup_intent" 1).
Definition moved_files : gmap pystr entry := {[ file_of (str "r-1") := Regular (line moved_claim) true ]}.
Definition moved_trees : files := list_to_map
  [(at_path "resources", dir 20); (at_path "quarantine", dir 21); (at_path "quarantine/reclaim-r-1", dir 1);
   (at_path "quarantine/reclaim-r-1/x", file 11); (at_path "quarantine/reclaim-r-1/sub", dir 12)].
Definition interrupted : rstate := RState (JState (Disk moved_files moved_files) false) ∅ moved_trees 0 0.

(** *** A control group whose ownership is ambiguous

    The first pass over a group that is ambiguous, as an attempt interrupted
    after that transition leaves it, and over an active directory of the same
    session.  The group's name is protected as if it were a path of the tree, so
    the directory is not blocked, although the group's processes may still live. *)
Definition group_claim : pydict :=
  dset "identity" (JObj [(str "relativePath", JStr (str "mirrorgate-group")); (str "device", JInt 1); (str "inode", JInt 9);
                         (str "mode", JInt 16384)]) (claim "g-1" "mirrorgate-group" "cgroup" "ambiguous" 9).
Definition first_pass : res pass :=
  (efold (consider 100 recoverer calm None attempt) [group_claim; claim "r-1" "resources/a" "filesystem" "active" 1] (Pass [] [] [] []) start).2.
Definition to_remove : res (list pystr) :=
  match first_pass with
  | Ok a => match (efold (sieve 100 calm attempt (protected a)) (plans a) (results a, []) start).2 with
            | Ok s => Ok (text "resourceId" <$> s.2) | Err e => Err e end
  | Err e => Err e
  end.

Example ambiguous_group_does_not_protect : to_remove = Ok [str "r-1"].
Proof. vm_compute. reflexivity. Qed.
End ruin.
