(* ===== verification/JournalIdentity.v ===== *)
(** * What an update leaves of a journal record

    The recoverer works from the records it read at the start and updates them
    through the journal's methods.  Reading an updated record gives the same
    identity: no method it calls changes what a claim says its object is, or where. *)

From Stdlib Require Import ZArith Lia.
From stdpp Require Import base list gmap strings numbers.
From S2P Require Import Prelude PyJson JsonText Protocol Canonical RecoveryReceipt JournalRecord Effects Paths RecoveryJournal Recovery.
#[local] Open Scope res_scope.
#[local] Open Scope eff_scope.

Module identity.
Import paths journal store recovery.

(** ** Values that survive their canonical text *)

Definition sound (n : Z) (v : json) : Prop := Forall (node_rt record_hooks) (subvalues v) /\ (json_depth v <= n)%Z.

Lemma sound_children n v : (0 <= n)%Z -> sound (n + 1) v <-> node_rt record_hooks v /\ Forall (sound n) (children v).
Proof.
  intros Hn. unfold sound. rewrite subvalues_children, list.Forall_cons, json_depth_le by lia. split.
  - intros [[Hv Hc] Hd]. split; [done|]. apply nodes_flat_map in Hc as [_ Hc]. rewrite list.Forall_forall in Hd |- *.
    intros c Hin. specialize (Hd c Hin). simpl in Hd. split; [by apply Hc|lia].
  - intros [Hv Hc]. split; [split; [done|]|].
    + apply list.Forall_forall. intros x Hx. apply list_elem_of_In, in_flat_map in Hx as (c & Hc1 & Hx).
      rewrite list.Forall_forall in Hc. destruct (Hc c) as [Hs _]; [by apply list_elem_of_In|].
      rewrite list.Forall_forall in Hs. apply Hs. by apply list_elem_of_In.
    + eapply Forall_impl; [|exact Hc]. intros c [_ Hd]. lia.
Qed.

Lemma sound_obj n d : (0 <= n)%Z ->
  sound (n + 1) (JObj d) <-> (NoDup (dkeys d) /\ Forall scalars (dkeys d)) /\ Forall (fun kv => sound n kv.2) d.
Proof. intros Hn. rewrite sound_children by done. cbn [node_rt children]. by rewrite Forall_fmap. Qed.

Lemma sound_arr n l : (0 <= n)%Z -> sound (n + 1) (JArr l) <-> Forall (sound n) l.
Proof. intros Hn. rewrite sound_children by done. cbn [node_rt children]. tauto. Qed.

Lemma sound_str n s : (0 <= n)%Z -> scalars s -> sound n (JStr s).
Proof. intros Hn Hs. split; [by repeat constructor|done]. Qed.
Lemma sound_null n : (0 <= n)%Z -> sound n JNull.
Proof. intros Hn. split; [by repeat constructor|done]. Qed.
Lemma sound_int n z : (0 <= n)%Z -> (Z.abs z < 2 ^ 64)%Z -> sound n (JInt z).
Proof. intros Hn Hz. split; [|done]. repeat constructor. by apply int_token_repr. Qed.
Lemma sound_mono n m v : (n <= m)%Z -> sound n v -> sound m v.
Proof. intros Hn [H1 H2]. split; [done|lia]. Qed.

Definition sound_dict (d : pydict) : Prop := sound 10 (JObj d).

Lemma dkeys_dset k v d : NoDup (dkeys d) -> NoDup (dkeys (dset k v d)) /\ forall x, x ∈ dkeys (dset k v d) -> x = k \/ x ∈ dkeys d.
Proof.
  intros Hn. destruct (decide (k ∈ dkeys d)) as [Hk|Hk].
  - rewrite dkeys_dset_known by done. split; [done|by right].
  - rewrite dkeys_dset_new by done. unfold dkeys in *. rewrite fmap_app. cbn [fmap list_fmap fst]. split.
    + apply list.NoDup_app. split_and!; [done| |apply NoDup_singleton]. intros x Hx ->%list_elem_of_singleton. done.
    + intros x [Hx| ->%list_elem_of_singleton]%elem_of_app; auto.
Qed.

Lemma elem_dset k v d kv : kv ∈ dset k v d -> kv.2 = v \/ kv ∈ d.
Proof.
  induction d as [|[k' x] d IH]; cbn [dset].
  - intros ->%list_elem_of_singleton. by left.
  - case_bool_decide; intros [->|Hin]%elem_of_cons; [by left|right; by right|right; by left|]. destruct (IH Hin); [by left|right; by right].
Qed.

Lemma sound_dset n k v d : (0 <= n)%Z -> scalars k -> sound n v -> sound (n + 1) (JObj d) -> sound (n + 1) (JObj (dset k v d)).
Proof.
  intros Hn Hk Hv [[Hd Hs] Hf]%sound_obj; [|done]. apply sound_obj; [done|]. destruct (dkeys_dset k v d Hd) as [Hd' Hin].
  rewrite list.Forall_forall in Hs. rewrite list.Forall_forall in Hf. split; [split; [done|]|].
  - apply list.Forall_forall. intros x [->|Hx]%Hin; [done|by apply Hs].
  - apply list.Forall_forall. intros kv [->|Hx]%elem_dset; [done|by apply Hf].
Qed.

Lemma sound_ddel n k d : (0 <= n)%Z -> sound (n + 1) (JObj d) -> sound (n + 1) (JObj (ddel k d)).
Proof.
  intros Hn [[Hd Hs] Hf]%sound_obj; [|done]. apply sound_obj; [done|]. rewrite dkeys_ddel. split; [split|].
  - by apply list.NoDup_filter.
  - rewrite list.Forall_forall in Hs |- *. intros x [_ Hx]%list_elem_of_filter. by apply Hs.
  - unfold ddel. rewrite list.Forall_forall in Hf |- *. intros x [_ Hx]%list_elem_of_filter. by apply Hf.
Qed.

Lemma dget_child k d v : dget k d = Some v -> v ∈ children (JObj d).
Proof.
  cbn [children]. induction d as [|[k' x] d IH]; [done|]. cbn [dget fmap list_fmap snd].
  destruct (bool_decide (k = k')); [intros [= ->]; by left|]. intros Hd. right. by apply IH.
Qed.

Lemma sound_dget n k d v : (0 <= n)%Z -> sound (n + 1) (JObj d) -> dget k d = Some v -> sound n v.
Proof.
  intros Hn Hs Hd%dget_child. apply sound_children in Hs as [_ Hf]; [|done]. rewrite list.Forall_forall in Hf. by apply Hf.
Qed.

(** What is read is within the reader's bounds. *)
Lemma decode_sound rec_limit data name d :
  _decode_record rec_limit data name = Ok (JObj d) ->
  sound_dict d /\ forall k z, dget k d = Some (JInt z) -> (Z.abs z <= 2 ^ 63 - 1)%Z.
Proof.
  intros H. pose proof H as (d' & w & [= <-] & _ & _ & Hwf & _ & _)%decode_view. unfold _decode_record in H.
  apply bind_Ok in H as (u & _ & H). apply bind_Ok in H as (x & _ & H). apply bind_Ok in H as (n & Hb & H).
  pose proof (validate_record_same _ _ _ H) as <-. apply (bounded_json_Ok _ 0%Z ltac:(lia)) in Hb as ((_ & _ & Hdepth) & Hf).
  split; [split; [by apply fits_rt|lia]|]. intros k z Hz%dget_child. rewrite subvalues_children in Hf.
  apply list.Forall_cons in Hf as [_ Hf]. apply nodes_flat_map in Hf as [Hf _]. rewrite list.Forall_forall in Hf. by apply (Hf _ Hz).
Qed.

(** Reading the text of a sound record gives its fields. *)
Lemma reread rec_limit payload data name v :
  (10 < rec_limit)%nat -> sound_dict payload -> encode_record payload = Ok data -> _decode_record rec_limit data name = Ok v ->
  v = sort_json (JObj (signed_body payload)).
Proof.
  intros Hl Hs Henc H. unfold encode_record in Henc. fold (signed_body payload) in Henc.
  apply bind_Ok in Henc as (r & _ & Henc). apply bind_Ok in Henc as (u & _ & Henc). apply Ok_inj in Henc as <-.
  assert (sound 10 (JObj (signed_body payload))) as [Hrt Hd].
  { apply (sound_dset 9); [lia| |apply sound_str; [lia|]|done]; [by repeat constructor|].
    pose proof (sha256_hex_match (_canonical (JObj payload))) as Hm. apply match_hex_scalars in Hm. exact Hm. }
  unfold _decode_record in H. apply bind_Ok in H as (u1 & _ & H). apply bind_Ok in H as (x & Hx & H). apply bind_Ok in H as (n & _ & H).
  apply validate_record_same in H as <-. apply try_except_Ok_inv in Hx as [Hx|(? & _ & _ & ?)]; [|done].
  rewrite decode_json_ascii in Hx.
  2:{ apply Forall_app. split; [|repeat constructor]. eapply Forall_impl; [|apply canonical_printable].
      - unfold printable. simpl. lia.
      - eapply Forall_impl; [|exact Hrt]. intros y Hy. destruct y; cbn in *; try done. by destruct Hy. }
  cbn [from_option_res rbind] in Hx.
  assert (loads record_hooks rec_limit (canonical (JObj (signed_body payload)) ++ [10]%N) = Ok (sort_json (JObj (signed_body payload)))) as E.
  { apply loads_dumps_then; [apply unique_pairs_nodup| |by apply sort_json_rt|by do 3 right; left|done].
    assert (json_depth (sort_json (JObj (signed_body payload))) <= 10)%Z; [by apply sort_json_depth|lia]. }
  change (canonical (JObj (signed_body payload))) with (_canonical (JObj (signed_body payload))) in E. rewrite E in Hx. by injection Hx as <-.
Qed.
(** ** What a record claims *)

(** A number or a text of the identity. *)
Definition leaf (k : pystr) (d : pydict) : option json :=
  match dget k (fields "identity" d) with Some (JStr s) => Some (JStr s) | Some (JInt z) => Some (JInt z) | _ => None end.
Definition same_identity (d d' : pydict) : Prop := forall k, leaf k d = leaf k d'.

Lemma leaf_path d : _record_path d = match leaf (str "relativePath") d with Some (JStr s) => Some s | _ => None end.
Proof. unfold _record_path, leaf, opt_text. by destruct (dget "relativePath" (fields "identity" d)) as [[| | | | | |]|]. Qed.
Lemma same_path d d' : same_identity d d' -> _record_path d = _record_path d'.
Proof. intros H. by rewrite !leaf_path, H. Qed.

Lemma leaf_matches k d v : match v with JStr _ | JInt _ => True | _ => False end -> dget k (fields "identity" d) = Some v <-> leaf k d = Some v.
Proof. intros Hv. unfold leaf. destruct (dget k (fields "identity" d)) as [[| | | | | |]|]; split; try done; by intros [= <-]. Qed.

Lemma same_matches d d' n token : same_identity d d' -> identity_matches (fields "identity" d) n token = identity_matches (fields "identity" d') n token.
Proof.
  intros H. unfold identity_matches. repeat f_equal; apply bool_decide_ext; by rewrite !leaf_matches, H.
Qed.

Lemma leaf_sort d k : NoDup (dkeys d) -> (forall i, dget "identity" d = Some (JObj i) -> NoDup (dkeys i)) ->
  leaf k (sorted_dict d) = leaf k d.
Proof.
  intros Hd Hi. unfold leaf, fields, sorted_dict. rewrite (dget_sort_json (str "identity") d Hd).
  destruct (dget "identity" d) as [[| | | | | |i]|] eqn:E; try done. cbn [fmap option_fmap option_map sort_json].
  rewrite (dget_sort_json k i) by by apply Hi. by destruct (dget k i) as [[| | | | | |]|].
Qed.

Lemma signed_identity payload : same_identity (signed_body payload) payload.
Proof. intros k. unfold leaf, fields. by rewrite dget_signed by discriminate. Qed.

Section Identity.
Context (rec_limit : nat) (Hlimit : (10 < rec_limit)%nat).

#[local] Abbreviation read := (read rec_limit).

(** Every record readable now was readable before, with the same identity. *)
Definition traces (j j' : jstate) : Prop :=
  forall rid d', (read rid j').2 = Ok (JObj d') -> exists d, (read rid j).2 = Ok (JObj d) /\ same_identity d d'.

Lemma traces_refl j : traces j j.
Proof. intros rid d' H. by exists d'. Qed.
Lemma traces_trans j1 j2 j3 : traces j1 j2 -> traces j2 j3 -> traces j1 j3.
Proof. intros H1 H2 rid d' H. apply H2 in H as (d2 & H & E). apply H1 in H as (d1 & H & E1). exists d1. split; [done|].
  intros k. by rewrite E1. Qed.

(** An update of what was read that leaves the identity alone. *)
Definition sound_update (current updated : pydict) : Prop :=
  sound_dict updated /\ dget "resourceId" updated = dget "resourceId" current /\ dget "identity" updated = dget "identity" current.

Lemma read_sound rid j d : (read rid j).2 = Ok (JObj d) ->
  opaque_ok rid /\ (sound_dict d /\ forall k z, dget k d = Some (JInt z) -> (Z.abs z <= 2 ^ 63 - 1)%Z) /\
  (exists w, has_view d w /\ view_ok w /\ v_resource w = rid).
Proof.
  intros H. assert (read rid j = (j, Ok (JObj d))) as H'.
  { rewrite <- H. by destruct (read rid j) as [j1 r] eqn:E; pose proof (f_equal fst E) as E1; rewrite read_pure in E1; cbn in E1; subst. }
  apply read_Ok in H' as (_ & Ho & data & d1 & w & _ & Hd & [= <-] & Hw & Hok & Hr). split; [done|]. split; [by eapply decode_sound|].
  by exists w.
Qed.

(** Reading a file that was written gives the record's fields. *)
Lemma read_written rid j updated data synced d :
  sound_dict updated -> encode_record updated = Ok data -> names (storage j) !! file_of rid = Some (Regular data synced) ->
  (read rid j).2 = Ok (JObj d) -> d = sorted_dict (signed_body updated).
Proof.
  intros Hs Henc Hf H. unfold store.read, ebind, eget, elift in H. cbn [snd] in H. apply bind_Ok in H as (r0 & Ho & H).
  apply _opaque_Ok in Ho as [[= <-] _]. apply bind_Ok in H as (data' & Hd & H).
  apply try_except_Ok_inv in Hd as [Hd|(? & _ & _ & ?)]; [|done]. unfold _read_regular_at in Hd. rewrite Hf in Hd.
  apply bind_Ok in Hd as (u & _ & Hd). apply Ok_inj in Hd as <-. pose proof (reread _ _ _ _ _ Hlimit Hs Henc H) as E. by injection E as E.
Qed.

Lemma publish_traces e current updated rid j j' x :
  (read rid j).2 = Ok (JObj current) -> sound_update current updated ->
  (_publish e updated false ;;* read rid) j = (j', x) -> traces j j' /\ (forall v, x = Ok v -> (read rid j').2 = Ok v).
Proof.
  intros Hread (Hs & Hrid & Hid) H. unfold ebind in H. destruct (_publish e updated false j) as [j1 r] eqn:Hpub.
  assert (j' = j1 /\ (forall v, x = Ok v -> (read rid j').2 = Ok v)) as [-> Hx].
  { destruct r as [u|err]; [|injection H as <- <-; by split]. pose proof (f_equal fst H) as E. rewrite read_pure in E. cbn in E. subst j1.
    split; [done|]. intros v ->. by rewrite H. }
  split; [|exact Hx]. clear H Hx. intros rid' d' H. destruct (read_sound _ _ _ H) as (Ho & _ & w' & Hw' & _ & Hr').
  destruct (publish_effect _ _ _ _ _ _ Hpub) as [Heff _].
  destruct (Heff (file_of rid')) as [E|(rid0 & data & Henc & Hr0 & Hn & Hf & _)]; [intros E; by apply (temp_not_file e rid')| |].
  - exists d'. split; [|done]. rewrite <- H. symmetry. by apply read_same_file.
  - apply app_inv_tail in Hn as <-. destruct (read_sound _ _ _ Hread) as (Ho1 & [Hcs _] & w & (_ & _ & Hrw & _) & _ & Hr1).
    rewrite Hrid, Hrw in Hr0. injection Hr0 as Hr0. rewrite Hr1 in Hr0. subst rid'. exists current. split; [rewrite <- Hr0; exact Hread|].
    pose proof (read_written _ _ _ _ _ _ Hs Henc Hf H) as ->.
    apply (sound_obj 9) in Hs as [[Hnd _] _]; [|lia].
    assert (forall i, dget "identity" (signed_body updated) = Some (JObj i) -> NoDup (dkeys i)) as Hi.
    { intros i Hi. rewrite dget_signed, Hid in Hi by discriminate. apply (sound_dget 9) in Hi; [|lia|exact Hcs].
      by apply (sound_obj 8) in Hi as [[? _] _]; [|lia]. }
    intros k. change (leaf k current = leaf k (sorted_dict (signed_body updated))).
    rewrite leaf_sort; [|exact (proj1 (dkeys_dset _ _ _ Hnd))|exact Hi]. rewrite signed_identity.
    unfold leaf, fields. by rewrite Hid.
Qed.

(** The target of the record that is read back is the one that was published. *)
Lemma published_target e current updated rid j j' d :
  (read rid j).2 = Ok (JObj current) -> sound_update current updated ->
  (_publish e updated false ;;* read rid) j = (j', Ok (JObj d)) -> opt_text "cleanupTarget" d = opt_text "cleanupTarget" updated.
Proof.
  intros Hread (Hs & Hrid & _) H. unfold ebind in H. destruct (_publish e updated false j) as [j1 [[]|err]] eqn:Hpub; [|done].
  destruct (publish_effect _ _ _ _ _ _ Hpub) as (_ & _ & _ & Hdone). destruct (Hdone eq_refl) as (rid0 & data & Henc & Hr0 & Hf).
  destruct (read_sound _ _ _ Hread) as (_ & _ & w & (_ & _ & Hrw & _) & _ & Hr1).
  rewrite Hrid, Hrw in Hr0. injection Hr0 as Hr0. rewrite Hr1 in Hr0. subst rid0.
  pose proof (read_written rid j1 updated data true d Hs Henc Hf (f_equal snd H)) as ->.
  apply (sound_obj 9) in Hs as [[Hnd _] _]; [|lia]. unfold opt_text, sorted_dict.
  rewrite (dget_sort_json (str "cleanupTarget")) by exact (proj1 (dkeys_dset _ _ _ Hnd)). rewrite dget_signed by discriminate.
  by destruct (dget (str "cleanupTarget") updated) as [[| | | | | |]|].
Qed.

(** What an update may bring: texts that can be written, and no identity. *)
Definition sound_changes (c : changes) : Prop :=
  new_identity c = None /\ new_retained c = None /\
  match new_observation c with Some o => sound 8 (JObj o) | None => True end /\
  match new_evidence c with Some v => sound 9 v | None => True end.

Lemma sound_update_dset current updated k v :
  k ∉ strs ["resourceId"; "identity"] -> scalars k -> sound 9 v -> sound_update current updated -> sound_update current (dset k v updated).
Proof.
  intros Hk Hs Hv (H1 & H2 & H3). split_and!; [by apply (sound_dset 9)|..]; rewrite dget_dset, bool_decide_eq_false_2; try done;
    intros <-; apply Hk; by_decision.
Qed.

Lemma next_sequence_sound current updated :
  sound_dict current -> (forall k z, dget k current = Some (JInt z) -> (Z.abs z <= 2 ^ 63 - 1)%Z) ->
  next_sequence current = Ok updated -> sound_update current updated.
Proof.
  intros Hs Hz H. unfold next_sequence in H. apply bind_Ok in H as (q & Hq & H). destruct q as [| |z| | | |]; try discriminate H.
  apply Ok_inj in H as <-. apply port.getitem_Ok in Hq as (d & [= <-] & Hq). rewrite dget_ddel in Hq by discriminate. apply Hz in Hq.
  apply sound_update_dset; [intros Hin; elem_literal Hin; destruct_or!; discriminate|by repeat constructor|apply sound_int; lia|].
  split_and!; [by apply (sound_ddel 9)|..]; by rewrite dget_ddel by discriminate.
Qed.

Lemma checked_path_scalars v s : checked_relative_path v = Ok s -> scalars s.
Proof.
  intros [_ ((_ & n & Hn & _) & _)]%checked_relative_path_Ok. apply utf8_encode_Some. unfold utf8_len in Hn.
  destruct (utf8_encode s); [eauto|done].
Qed.

Ltac other_key := intros Hin; elem_literal Hin; destruct_or!; discriminate.

Lemma transition_payload_sound current phase c updated :
  sound_dict current -> (forall k z, dget k current = Some (JInt z) -> (Z.abs z <= 2 ^ 63 - 1)%Z) ->
  scalars phase -> sound_changes c -> transition_payload current phase c = Ok updated -> sound_update current updated.
Proof.
  intros Hs Hz Hp (Hi & Hr & Ho & He) H. unfold transition_payload in H. rewrite Hi, Hr in H.
  apply bind_Ok in H as (old & _ & H). apply bind_Ok in H as (al & _ & H). apply bind_Ok in H as (u & _ & H).
  apply bind_Ok in H as (u1 & H1 & H). apply next_sequence_sound in H1; [|done|done].
  apply bind_Ok in H as (u2 & H2 & H).
  assert (sound_update current u2) as Hu2.
  { apply (sound_update_dset _ _ (str "phase") (JStr phase)) in H1; [|other_key|by repeat constructor|by apply sound_str].
    destruct (new_evidence c); [|by apply Ok_inj in H2 as <-]. inv_res. apply sound_update_dset; [other_key|by repeat constructor|done|done]. }
  cbn [rbind] in H. apply bind_Ok in H as (u4 & H4 & H).
  assert (sound_update current u4) as Hu4.
  { destruct (new_observation c) as [o|]; [|by apply Ok_inj in H4 as <-]. apply bind_Ok in H4 as (l & Hl & H4).
    destruct l as [| | | | |l|]; try discriminate H4. apply Ok_inj in H4 as <-.
    apply sound_update_dset; [other_key|by repeat constructor| |done]. apply port.getitem_Ok in Hl as (d & [= <-] & Hl).
    destruct Hu2 as (Hs2 & _). apply (sound_dget 9) in Hl; [|lia|done]. apply (sound_arr 8) in Hl; [|lia]. apply (sound_arr 8); [lia|].
    apply Forall_app. split; [done|]. constructor; [exact Ho|constructor]. }
  destruct (new_target c); [|by apply Ok_inj in H as <-]. apply bind_Ok in H as (path & Hpath & H). apply Ok_inj in H as <-.
  apply sound_update_dset; [other_key|by repeat constructor|apply sound_str; [lia|by eapply checked_path_scalars]|done].
Qed.

(** A method of the journal as the recoverer uses it. *)
Definition faithful (rid : pystr) (m : eff jstate json) : Prop :=
  forall j j' x, m j = (j', x) -> traces j j' /\ (forall v, x = Ok v -> (read rid j').2 = Ok v).

Lemma faithful_read rid : faithful rid (read rid).
Proof.
  intros j j' x H. pose proof (f_equal fst H) as E. rewrite read_pure in E. cbn in E. subst j'. split; [apply traces_refl|].
  intros v ->. by rewrite H.
Qed.

(** The beginning every method shares. *)
Lemma faithful_start rid (k : json -> eff jstate json) :
  (forall j current, (read rid j).2 = Ok (JObj current) -> forall j' x, k (JObj current) j = (j', x) ->
     traces j j' /\ (forall v, x = Ok v -> (read rid j').2 = Ok v)) ->
  faithful rid (ebind (read rid) k).
Proof.
  intros Hk j j' x H. rewrite ebind_read in H. destruct (read rid j).2 as [v|err] eqn:E.
  - assert (exists d, v = JObj d) as [d ->].
    { destruct (read rid j) as [j1 r] eqn:Hr. cbn in E. subst r. by apply read_Ok in Hr as (_ & _ & data & d & w & _ & _ & -> & _); exists d. }
    by apply (Hk j d).
  - injection H as <- <-. split; [apply traces_refl|done].
Qed.

Lemma faithful_transition e rid phase c : scalars phase -> sound_changes c -> faithful rid (transition rec_limit e rid phase c).
Proof.
  intros Hp Hc. apply faithful_start. intros j current Hr j' x H. rewrite ebind_lift in H. cbn [as_dict] in H. rewrite ebind_lift in H.
  destruct (read_sound _ _ _ Hr) as (_ & [Hs Hz] & _).
  destruct (transition_payload current phase c) as [updated|err] eqn:Hu; [|injection H as <- <-; split; [apply traces_refl|done]].
  eapply publish_traces; [exact Hr| |exact H]. by eapply transition_payload_sound.
Qed.

Lemma transition_target e rid phase c target j j' d : scalars phase -> sound_changes c -> new_target c = Some (JStr target) ->
  transition rec_limit e rid phase c j = (j', Ok (JObj d)) -> opt_text "cleanupTarget" d = Some target.
Proof.
  intros Hp Hc Ht H. unfold transition in H. rewrite ebind_read in H. destruct (read rid j).2 as [v|err] eqn:Hr; [|done].
  rewrite ebind_lift in H. destruct v as [| | | | | |current]; try done. cbn [as_dict] in H. rewrite ebind_lift in H.
  destruct (read_sound _ _ _ Hr) as (_ & [Hs Hz] & _). destruct (transition_payload current phase c) as [updated|err] eqn:Hu; [|done].
  rewrite (published_target _ _ _ _ _ _ _ Hr (transition_payload_sound _ _ _ _ Hs Hz Hp Hc Hu) H).
  unfold transition_payload in Hu. rewrite Ht in Hu. do 7 apply bind_Ok in Hu as (? & _ & Hu). apply bind_Ok in Hu as (path & Hpath & Hu).
  apply checked_relative_path_Ok in Hpath as [[= <-] _]. apply Ok_inj in Hu as <-. unfold opt_text. by rewrite dget_dset, bool_decide_eq_true_2.
Qed.

Lemma set_target_target e rid target j j' d :
  set_cleanup_target rec_limit e rid (JStr target) j = (j', Ok (JObj d)) -> opt_text "cleanupTarget" d = Some target.
Proof.
  intros H. unfold set_cleanup_target in H. rewrite ebind_read in H. destruct (read rid j).2 as [v|err] eqn:Hr; [|done].
  rewrite ebind_lift in H. destruct v as [| | | | | |current]; try done. cbn [as_dict] in H. rewrite ebind_lift in H.
  destruct (read_sound _ _ _ Hr) as (_ & [Hs Hz] & _). destruct (phase_of current) as [phase|]; [|done]. rewrite ebind_lift in H.
  destruct (getitem _ _) as [old|]; [|done]. rewrite ebind_guard in H. destruct (_ || _); [done|]. rewrite ebind_lift in H.
  destruct (next_sequence current) as [updated|] eqn:Hu; [|done]. rewrite ebind_lift in H.
  destruct (checked_relative_path (JStr target)) as [path|] eqn:Hp; [|done]. pose proof (checked_path_scalars _ _ Hp) as Hsc.
  apply checked_relative_path_Ok in Hp as [[= <-] _]. erewrite published_target; [|exact Hr| |exact H].
  - unfold opt_text. by rewrite dget_dset, bool_decide_eq_true_2.
  - apply sound_update_dset; [other_key|by repeat constructor|by apply sound_str; [lia|]|by apply next_sequence_sound].
Qed.

Lemma faithful_set_target e rid target : faithful rid (set_cleanup_target rec_limit e rid target).
Proof.
  apply faithful_start. intros j current Hr j' x H. destruct (read_sound _ _ _ Hr) as (_ & [Hs Hz] & _).
  assert (forall err, (j', x) = (j, Err err) -> traces j j' /\ (forall v, x = Ok v -> (read rid j').2 = Ok v)) as Hsame
    by (intros err [= -> ->]; split; [apply traces_refl|done]).
  rewrite ebind_lift in H. cbn [as_dict] in H. rewrite ebind_lift in H.
  destruct (phase_of current) as [phase|err]; [|symmetry in H; by apply Hsame in H]. rewrite ebind_lift in H.
  destruct (getitem _ _) as [old|err]; [|symmetry in H; by apply Hsame in H]. rewrite ebind_guard in H.
  destruct (_ || _); [symmetry in H; by apply Hsame in H|]. rewrite ebind_lift in H.
  destruct (next_sequence current) as [updated|err] eqn:Hu; [|symmetry in H; by apply Hsame in H]. rewrite ebind_lift in H.
  destruct (checked_relative_path target) as [path|err] eqn:Hp; [|symmetry in H; by apply Hsame in H].
  eapply publish_traces; [exact Hr| |exact H]. apply sound_update_dset; [other_key|by repeat constructor| |by apply next_sequence_sound].
  apply sound_str; [lia|by eapply checked_path_scalars].
Qed.

Lemma no_changes_sound : sound_changes no_changes.
Proof. by split_and!. Qed.

Lemma faithful_begin_cleanup e rid : faithful rid (begin_cleanup rec_limit e rid).
Proof.
  apply faithful_start. intros j current Hr j' x H. rewrite ebind_lift in H. cbn [as_dict] in H. rewrite ebind_lift in H.
  destruct (phase_of current) as [phase|err]; [|injection H as <- <-; split; [apply traces_refl|done]].
  destruct (bool_decide _); [injection H as <- <-; split; [apply traces_refl|by intros v [= <-]]|]. rewrite ebind_lift in H.
  destruct (from_option_res _ _) as [al|err]; [|injection H as <- <-; split; [apply traces_refl|done]]. rewrite ebind_guard in H.
  destruct (negb _); [injection H as <- <-; split; [apply traces_refl|done]|].
  eapply faithful_transition; [|exact no_changes_sound|exact H]. by repeat constructor.
Qed.

Lemma faithful_finish_cleanup e rid complete : faithful rid (finish_cleanup rec_limit e rid complete).
Proof.
  apply faithful_start. intros j current Hr j' x H. rewrite ebind_lift in H. cbn [as_dict] in H. rewrite ebind_lift in H.
  destruct (phase_of current) as [phase|err]; [|injection H as <- <-; split; [apply traces_refl|done]].
  destruct (bool_decide _); [injection H as <- <-; split; [apply traces_refl|by intros v [= <-]]|].
  destruct (bool_decide _); [injection H as <- <-; split; [apply traces_refl|by intros v [= <-]]|]. rewrite ebind_guard in H.
  destruct (negb _); [injection H as <- <-; split; [apply traces_refl|done]|].
  eapply faithful_transition; [|exact no_changes_sound|exact H]. destruct complete; by repeat constructor.
Qed.
End Identity.
End identity.
