(* ===== verification/RecoveryFrame.v ===== *)
(** * What offline recovery touches

    Whatever fails while [recovery.reclaim] runs, it only changes the trees of
    claims it owns and may reclaim, and its own quarantine; the object of a
    claim it must keep, and every directory above it, stay where they are. *)

From Stdlib Require Import ZArith Lia.
From stdpp Require Import base list gmap strings numbers.
From S2P Require Import Prelude PyJson JsonText Protocol Canonical RecoveryReceipt JournalRecord Effects Paths RecoveryJournal Recovery RecoveryDemo JournalIdentity.
#[local] Open Scope res_scope.
#[local] Open Scope eff_scope.

Module frame.
Import paths journal store recovery identity.

(** ** Paths *)

(** Where recovery moves what it removes. *)
Definition reserved (q : list pystr) : bool :=
  match q with d :: name :: _ => bool_decide (d = str "quarantine") && starts_with "reclaim-" name | _ => false end.

Lemma below_spec p q : below p q = true <-> p `prefix_of` q.
Proof. apply bool_decide_eq_true. Qed.
Lemma below_app p q r : below (p ++ r) q = true -> below p q = true.
Proof. rewrite !below_spec. intros [k ->]. exists (r ++ k). by rewrite app_assoc. Qed.

Lemma below_both p q r : below p r = true -> below q r = true -> below p q = true \/ below q p = true.
Proof. rewrite !below_spec. intros H1 H2. by destruct (prefix_weak_total _ _ _ H1 H2); [left|right]. Qed.

Lemma below_same p : below p p = true.
Proof. by apply below_spec. Qed.

Lemma split_on_prefix sep a s h t : ~ (sep ∈ a) -> split_on sep s = h :: t -> split_on sep (a ++ s) = (a ++ h) :: t.
Proof.
  intros Ha Hs. induction a as [|c a IH]; [done|]. apply not_elem_of_cons in Ha as [Hc Ha]. cbn [app split_on].
  destruct (N.eqb_spec c sep) as [->|]; [done|]. by rewrite IH.
Qed.

Lemma split_on_cons sep s : exists h t, split_on sep s = h :: t.
Proof.
  induction s as [|c s (h & t & E)]; cbn [split_on]; [by eexists _, _|]. destruct (N.eqb c sep); [by eexists _, _|]. rewrite E. by eexists _, _.
Qed.

Lemma relative_components s : path_ok s -> components s = split_on 47 s.
Proof.
  intros (_ & Hs & Hp). unfold components, parts, is_absolute, parse_path, root_of. cbn [root tail].
  destruct s as [|c s]; [by apply list.Forall_cons in Hp as [[] _]; left|].
  assert (starts_with "/" (c :: s) = false) as E by done.
  assert (starts_with (str "//") (c :: s) = false) as ->.
  { destruct (starts_with (str "//") (c :: s)) eqn:E2; [|done]. apply starts_with_spec in E2 as [r E2]. by rewrite E2 in E. }
  cbn [andb]. rewrite E. rewrite bool_decide_eq_true_2 by done. cbn [negb]. apply filter_all. eapply Forall_impl; [|exact Hp].
  intros p Hn. split; intros ->; apply Hn; by_decision.
Qed.

Lemma target_reserved s q : path_ok s -> starts_with "quarantine/reclaim-" s = true -> below (components s) q = true -> reserved q = true.
Proof.
  intros Hs Hq Hb. rewrite relative_components in Hb by done. apply starts_with_spec in Hq as [r ->].
  change (str "quarantine/reclaim-") with (str "quarantine" ++ 47%N :: str "reclaim-") in Hb. rewrite <- app_assoc in Hb.
  change ((47%N :: str "reclaim-") ++ r) with (47%N :: (str "reclaim-" ++ r)) in Hb.
  rewrite split_on_app in Hb by (refine (bool_decide_eq_false_1 _ _); vm_compute; reflexivity).
  destruct (split_on_cons 47 r) as (h & t & E).
  rewrite (split_on_prefix 47 (str "reclaim-") r h t) in Hb; [|refine (bool_decide_eq_false_1 _ _); vm_compute; reflexivity|done].
  apply below_spec in Hb as [k ->]. cbn. by rewrite bool_decide_eq_true_2.
Qed.

Lemma quarantine_reserved r q : below (quarantine_path r) q = true -> reserved q = true.
Proof. intros [k ->]%below_spec. cbn. by rewrite bool_decide_eq_true_2. Qed.

Lemma opaque_no_slash s : opaque_ok s -> ~ (47%N ∈ s).
Proof.
  intros (_ & H & _) Hin. rewrite forallb_forall in H. specialize (H 47%N (proj1 (list_elem_of_In _ _) Hin)). discriminate H.
Qed.

Lemma cleanup_target_components r : opaque_ok (text "resourceId" r) -> path_ok (cleanup_target r) -> components (cleanup_target r) = quarantine_path r.
Proof.
  intros Ho Hp. rewrite relative_components by done. unfold cleanup_target, quarantine_path.
  change (str "quarantine/" ++ quarantine_name r) with (str "quarantine" ++ 47%N :: quarantine_name r).
  rewrite split_on_app by (refine (bool_decide_eq_false_1 _ _); vm_compute; reflexivity). f_equal. apply split_on_none.
  unfold quarantine_name. rewrite elem_of_app. intros [H|H]; [|by apply (opaque_no_slash _ Ho)]. revert H.
  refine (bool_decide_eq_false_1 _ _). vm_compute. reflexivity.
Qed.

(** ** System calls outside a path *)
Lemma moved_lookup src dst t q : below src q = false -> below dst q = false -> moved src dst t !! q = t !! q.
Proof.
  intros Hs Hd. unfold moved. destruct (t !! q) as [n|] eqn:E.
  - apply lookup_union_Some_l, map_lookup_filter_Some. split; [done|]. cbn [fst]. split; [done|]. intros ->.
    apply not_true_iff_false in Hd. by apply Hd, below_spec.
  - apply lookup_union_None. split; [apply map_lookup_filter_None; by left|]. apply not_elem_of_list_to_map_1.
    intros (kn & -> & Hin)%list_elem_of_fmap. apply list_elem_of_fmap in Hin as (kn0 & -> & _). cbn in Hd.
    apply not_true_iff_false in Hd. apply Hd, below_spec. by eexists.
Qed.

Lemma rename_lookup src dst t q : below src q = false -> below dst q = false -> (rename_at src dst t).1 !! q = t !! q.
Proof. intros Hs Hd. unfold rename_at. repeat case_match; try done; by apply moved_lookup. Qed.

Lemma unlink_lookup p t q : below p q = false -> (unlink_at p t).1 !! q = t !! q.
Proof.
  intros Hp. unfold unlink_at. repeat case_match; try done. cbn. apply lookup_delete_ne. intros ->.
  apply not_true_iff_false in Hp. by apply Hp, below_spec.
Qed.
Lemma rmdir_lookup p t q : below p q = false -> (rmdir_at p t).1 !! q = t !! q.
Proof.
  intros Hp. unfold rmdir_at. repeat case_match; try done. cbn. apply lookup_delete_ne. intros ->.
  apply not_true_iff_false in Hp. by apply Hp, below_spec.
Qed.

Lemma child_below p q : is_child p q = true -> below p q = true.
Proof.
  unfold is_child. intros [<-%bool_decide_eq_true Hq]%andb_true_iff. apply below_spec. apply negb_true_iff, bool_decide_eq_false in Hq.
  rewrite (app_removelast_last [] Hq) at 2. by eexists.
Qed.

(** ** Steps of the recoverer

    [ok m R]: from every state that satisfies the invariant, [m] leaves one
    that does, whatever happens, and what it returns satisfies [R]. *)
Section Frame.
Context (rec_limit : nat) (Hlimit : (10 < rec_limit)%nat) (own : lease) (w : world).
Context (attempt_id : pystr) (Hattempt : scalars attempt_id).
Context (s0 : rstate) (K : list pystr -> Prop).

#[local] Abbreviation read := (read rec_limit).

Definition Inv (s : rstate) : Prop := traces rec_limit (jnl s0) (jnl s) /\ forall q, K q -> tree s !! q = tree s0 !! q.

Definition ok {A} (m : eff rstate A) (R : A -> Prop) : Prop :=
  forall s, Inv s -> Inv (m s).1 /\ forall a, (m s).2 = Ok a -> R a.

Definition any {A} (a : A) : Prop := True.

Lemma ok_ret {A} (a : A) (R : A -> Prop) : R a -> ok (eret a) R.
Proof. intros Ha s Hs. split; [done|]. by intros ? [= <-]. Qed.
Lemma ok_raise {A} e (R : A -> Prop) : ok (eraise e) R.
Proof. intros s Hs. by split. Qed.
Lemma ok_lift {A} (m : res A) (R : A -> Prop) : (forall a, m = Ok a -> R a) -> ok (elift m) R.
Proof. intros Hm s Hs. by split. Qed.
Lemma ok_guard b e : ok (eguard b e) any.
Proof. by apply ok_lift. Qed.
Lemma ok_bind {A B} (m : eff rstate A) (f : A -> eff rstate B) (P : A -> Prop) (R : B -> Prop) :
  ok m P -> (forall a, P a -> ok (f a) R) -> ok (ebind m f) R.
Proof.
  intros Hm Hf s Hs. unfold ebind. destruct (Hm s Hs) as [H1 H2]. destruct (m s) as [s' [a|e]]; cbn in *; [|done].
  apply Hf; [by apply H2|done].
Qed.
Lemma ok_weaken {A} (m : eff rstate A) (P R : A -> Prop) : ok m P -> (forall a, P a -> R a) -> ok m R.
Proof. intros Hm H s Hs. destruct (Hm s Hs) as [H1 H2]. split; [done|]. intros a Ha. by apply H, H2. Qed.
Lemma ok_etry {A} (m : eff rstate A) caught h (R : A -> Prop) : ok m R -> (forall e, ok (h e) R) -> ok (etry m caught h) R.
Proof.
  intros Hm Hh s Hs. unfold etry. destruct (Hm s Hs) as [H1 H2]. destruct (m s) as [s' [a|e]]; cbn in *; [by split|].
  destruct (caught e); [by apply Hh|by split].
Qed.
Lemma ok_attempt {A} (m : eff rstate A) (R : A -> Prop) : ok m R -> ok (attempt m) (fun x => forall a, x = Ok a -> R a).
Proof.
  intros Hm s Hs. unfold attempt. destruct (Hm s Hs) as [H1 H2]. destruct (m s) as [s' x]; cbn in *. split; [done|].
  intros y [= <-]. exact H2.
Qed.

Lemma ok_os {A} (call : files -> files * res A) (R : A -> Prop) :
  (forall t q, K q -> (call t).1 !! q = t !! q) -> (forall t a, (call t).2 = Ok a -> R a) -> ok (os w call) R.
Proof.
  intros Hc Hr s [Ht Hk]. unfold os. destruct (fails w (syscalls s)); [by split|].
  destruct (call (tree s)) as [t x] eqn:E. cbn. split; [split; [done|]|].
  - intros q Hq. cbn. rewrite <- (Hk q Hq), <- (Hc (tree s) q Hq). by rewrite E.
  - intros a ->. apply (Hr (tree s)). by rewrite E.
Qed.
Lemma ok_look {A} (call : files -> files * res A) : (forall t, (call t).1 = t) -> ok (os w call) any.
Proof. intros Hc. apply ok_os; [|done]. intros t q _. by rewrite Hc. Qed.
Lemma ok_cut name : ok (cut w name) any.
Proof. by apply ok_lift. Qed.
Lemma ok_passed : ok (passed w) any.
Proof. intros s Hs. by split. Qed.

Lemma ok_opendir p : ok (os w (opendir p)) any.
Proof. by apply ok_look. Qed.
Lemma ok_succeed : ok (os w succeed) any.
Proof. by apply ok_look. Qed.
Lemma ok_getxattr n : ok (os w (getxattr n)) any.
Proof. by apply ok_look. Qed.
Lemma ok_lstat p : ok (os w (lstat_at p)) any.
Proof. by apply ok_look. Qed.

(** *** The journal *)

(** What an update of the claim [rid] leaves: the same resource, a target in
    the quarantine, and the identity the claim had at the start. *)
Record current (rid : pystr) (d : pydict) : Prop := Current {
  c_resource : text "resourceId" d = rid;
  c_target : forall p, opt_text "cleanupTarget" d = Some p -> path_ok p /\ starts_with "quarantine/reclaim-" p = true;
  c_origin : exists d0, (read rid (jnl s0)).2 = Ok (JObj d0) /\ same_identity d0 d }.

Lemma read_current rid d j : traces rec_limit (jnl s0) j -> (read rid j).2 = Ok (JObj d) -> current rid d.
Proof.
  intros Ht Hr. destruct (read_sound _ _ _ _ Hr) as (_ & _ & v & Hv & Hok & Hres). destruct Hv as (_ & _ & Hv & _ & _ & _ & Hvt). split.
  - unfold text. by rewrite Hv.
  - unfold opt_text. rewrite Hvt. destruct Hok as (_ & _ & _ & _ & _ & Ho & _). destruct (v_target v) as [p0|]; cbn; [|done].
    intros p [= <-]. done.
  - apply Ht in Hr as (d0 & H0 & E). by exists d0.
Qed.

Lemma ok_method_with rid (R : pydict -> Prop) m : (forall e, faithful rec_limit rid (m e)) ->
  (forall e j j' d, m e j = (j', Ok (JObj d)) -> R d) -> ok (method w m) (fun d => current rid d /\ R d).
Proof.
  intros Hm HR s [Ht Hk]. unfold method, with_journal, ebind. destruct (m _ (jnl s)) as [j x] eqn:E.
  destruct (Hm _ _ _ _ E) as [Htr Hx]. assert (traces rec_limit (jnl s0) j) as Hj by by eapply traces_trans.
  destruct x as [v|err]; cbn; [|by split]. split; [by split|]. intros d Hd. specialize (Hx v eq_refl).
  destruct v; try discriminate Hd. injection Hd as ->. split; [by apply (read_current _ _ j)|by eapply HR].
Qed.
Lemma ok_method rid m : (forall e, faithful rec_limit rid (m e)) -> ok (method w m) (current rid).
Proof. intros Hm. eapply ok_weaken; [by apply (ok_method_with rid any)|]. by intros d [? _]. Qed.

Lemma ok_read rid : ok (method w (fun _ => read rid)) (current rid).
Proof. apply ok_method. intros e. apply faithful_read. Qed.
Lemma ok_begin rid : ok (method w (fun e => begin_cleanup rec_limit e rid)) (current rid).
Proof. apply ok_method. intros e. by apply faithful_begin_cleanup. Qed.
Lemma ok_finish rid b : ok (method w (fun e => finish_cleanup rec_limit e rid b)) (current rid).
Proof. apply ok_method. intros e. by apply faithful_finish_cleanup. Qed.
Lemma ok_set_target rid v : ok (method w (fun e => set_cleanup_target rec_limit e rid v)) (current rid).
Proof. apply ok_method. intros e. by apply faithful_set_target. Qed.
Lemma ok_transition rid (phase : string) c : scalars phase -> sound_changes c -> ok (transition_to rec_limit w rid phase c) (current rid).
Proof. intros Hp Hc. apply ok_method. intros e. by apply faithful_transition. Qed.

(** Setting a target leaves that target. *)
Definition aimed (target : pystr) (d : pydict) : Prop := opt_text "cleanupTarget" d = Some target.
Lemma ok_aim rid target : ok (method w (fun e => set_cleanup_target rec_limit e rid (JStr target))) (fun d => current rid d /\ aimed target d).
Proof. apply ok_method_with; [intros e; by apply faithful_set_target|]. intros e j j' d H. by eapply set_target_target. Qed.
Lemma ok_transition_aim rid (phase : string) target : scalars phase ->
  ok (transition_to rec_limit w rid phase (targeted target)) (fun d => current rid d /\ aimed target d).
Proof.
  intros Hp. assert (sound_changes (targeted target)) as Hc by by split_and!. apply ok_method_with; [intros e; by apply faithful_transition|].
  intros e j j' d H. by eapply transition_target.
Qed.

(** *** Looking *)
Ltac bind_ok lemma := eapply ok_bind; [apply lemma|intros ? ?].

Lemma ok_open_dirs base parts : ok (open_dirs w base parts) any.
Proof. revert base. induction parts as [|part rest IH]; intros base; [by apply ok_ret|]. cbn [open_dirs]. bind_ok ok_opendir. apply IH. Qed.

Lemma ok_open_parent relative : ok (_open_parent w relative) (fun p => p = components relative).
Proof.
  unfold _open_parent. eapply ok_bind; [apply (ok_lift _ (fun p => p = relative))|].
  - intros p [[= <-] _]%checked_relative_path_Ok. done.
  - intros p ->. bind_ok ok_open_dirs. by apply ok_ret.
Qed.

Lemma ok_observe p : ok (observe w p) any.
Proof.
  unfold observe. bind_ok ok_opendir. bind_ok ok_getxattr. eapply ok_bind; [by apply (ok_lift _ any)|]. intros token _. by apply ok_ret.
Qed.

Lemma ok_check_candidates identity candidates matches :
  ok (check_candidates w identity candidates matches) (fun r => match r with inl reason => scalars reason | inr p => p ∈ matches ++ candidates end).
Proof.
  revert matches. induction candidates as [|relative rest IH]; intros matches; cbn [check_candidates].
  { apply ok_ret. destruct matches as [|p [|]]; [by repeat constructor|by left|by repeat constructor]. }
  eapply ok_bind; [apply (ok_attempt _ any)|].
  - eapply ok_bind; [apply ok_open_parent|]. intros p _. apply ok_observe.
  - intros [[n token]|e] _.
    + destruct (negb (is_dir n)); [apply ok_ret; by repeat constructor|].
      destruct (identity_matches identity n token); [|apply ok_ret; by repeat constructor].
      eapply ok_weaken; [apply IH|]. intros [reason|p]; [done|]. by rewrite <- app_assoc.
    + assert (ok (if is_os_error e || is_journal_error e then eret (inl (str "path_validation_failed")) else eraise e)
        (fun r : pystr + pystr => match r with inl reason => scalars reason | inr p => p ∈ matches ++ relative :: rest end)) as Hrest
        by (destruct (_ || _); [apply ok_ret; by repeat constructor|apply ok_raise]).
      destruct e; try exact Hrest. eapply ok_weaken; [apply IH|]. intros [reason|p]; [done|]. rewrite !elem_of_app, elem_of_cons. tauto.
Qed.

(** Where a claim's object may be found: at its own path, below the
    directory of resources, or where an earlier attempt moved it. *)
Definition located (r : pydict) (p : pystr) : Prop :=
  _record_path r = Some p \/ opt_text "cleanupTarget" r = Some p.

Lemma ok_validate r :
  ok (_validate_filesystem w r) (fun v => match v with
    | inl reason => scalars reason
    | inr p => located r p /\ exists q, _record_path r = Some q /\ path_ok q /\ starts_with "resources/" q = true end).
Proof.
  unfold _validate_filesystem. destruct (bool_decide _); [apply ok_ret; by repeat constructor|].
  eapply ok_bind; [apply (ok_lift _ (fun p => _record_path r = Some p /\ path_ok p))|].
  { intros p [H Hp]%checked_relative_path_Ok. split; [|done]. unfold _record_path, opt_text.
    destruct (dget "relativePath" (fields "identity" r)) as [v|]; cbn in H; [|discriminate H]. by subst v. }
  intros original [Horig Hpath]. destruct (starts_with "resources/" original) eqn:Hres; cbn [negb]; [|apply ok_ret; by repeat constructor].
  eapply ok_bind; [apply (ok_lift _ (fun l => forall p, p ∈ l -> opt_text "cleanupTarget" r = Some p))|].
  { intros l H. destruct (opt_text "cleanupTarget" r) as [p|]; [|injection H as <-; by intros p ?%elem_of_nil].
    apply bind_Ok in H as (p' & [[= <-] _]%checked_relative_path_Ok & H). injection H as <-. by intros p' ->%list_elem_of_singleton. }
  intros l Hl. eapply ok_weaken; [apply ok_check_candidates|]. intros [reason|p]; [done|]. cbn [app]. intros [->|Hp]%elem_of_cons.
  - split; [by left|]. by exists original.
  - split; [right; by apply Hl|]. by exists original.
Qed.

(** *** Removing *)
Lemma ok_listdir p : ok (os w (listdir p)) (fun l => forall q, q ∈ l -> below p q = true).
Proof.
  apply ok_os; [done|]. intros t l H q Hq. cbn in H. injection H as <-. apply list_elem_of_filter in Hq as [Hq _]. by apply child_below.
Qed.

Lemma prefix_outside p c : (forall q, K q -> below p q = false) -> below p c = true -> forall q, K q -> below c q = false.
Proof.
  intros Hp [k ->]%below_spec q Hq. specialize (Hp q Hq). apply not_true_iff_false in Hp. apply not_true_iff_false. intros Hb. by apply Hp, (below_app _ _ k).
Qed.

Lemma ok_remove device uid levels : forall p entries, (forall q, K q -> below p q = false) ->
  ok (_remove_tree_at w device uid levels p entries) any.
Proof.
  induction levels as [|levels IH]; intros p entries Hp; cbn [_remove_tree_at]; [apply ok_raise|].
  bind_ok ok_passed. bind_ok ok_guard. bind_ok ok_opendir. bind_ok ok_guard. bind_ok ok_succeed.
  eapply ok_bind; [apply ok_listdir|]. intros names Hnames.
  eapply (ok_bind _ _ any).
  - revert entries. induction names as [|child names IHn]; intros entries; [by apply ok_ret|].
    assert (below p child = true) as Hc by (apply Hnames; by left).
    bind_ok ok_passed. bind_ok ok_guard. bind_ok ok_lstat. bind_ok ok_guard. eapply (ok_bind _ _ any).
    + destruct (is_dir _); [apply IH; by eapply prefix_outside|]. eapply (ok_bind _ _ any); [|intros; by apply ok_ret].
      apply ok_os; [|done]. intros t q Hq. apply unlink_lookup. by apply (prefix_outside p child).
    + intros n _. apply IHn. intros q Hq. apply Hnames. by right.
  - intros n _. eapply (ok_bind _ _ any); [|intros; by apply ok_ret]. apply ok_os; [|done]. intros t q Hq. apply rmdir_lookup. by apply Hp.
Qed.

(** *** Recording *)
Lemma str_scalars (s : string) : bool_decide (scalars (str s)) = true -> scalars (str s).
Proof. apply bool_decide_eq_true_1. Qed.

Lemma observation_sound (status : string) reason n :
  (0 <= n)%Z -> scalars (str status) -> (forall x, reason = Some x -> scalars x) -> sound (n + 1) (JObj (observation attempt_id status reason)).
Proof.
  intros Hn Hs Hr. apply sound_obj; [done|]. split; [split; [by_decision|repeat constructor]|]. unfold observation.
  repeat apply list.Forall_cons_2; cbn [snd]; [by apply sound_str|by apply sound_str| |constructor].
  destruct reason as [x|]; [apply sound_str; [done|by apply Hr]|by apply sound_null].
Qed.

Lemma observed_sound (status : string) reason :
  scalars (str status) -> (forall x, reason = Some x -> scalars x) -> sound_changes (observed (observation attempt_id status reason)).
Proof. intros Hs Hr. split_and!; try done. by apply (observation_sound status reason 7). Qed.

Lemma targeted_sound p : sound_changes (targeted p).
Proof. by split_and!. Qed.

Lemma ok_marked r reason : scalars reason -> ok (_mark_ambiguous rec_limit w r attempt_id reason) (fun i => disposition i = "ambiguous").
Proof.
  intros Hr. unfold _mark_ambiguous. eapply (ok_bind _ _ any); [|intros; by apply ok_ret]. destruct (bool_decide _); [by apply ok_ret|].
  eapply ok_weaken; [apply ok_transition; [by repeat constructor|]|done]. apply observed_sound; [by repeat constructor|]. by intros x [= <-].
Qed.

Lemma ok_mark r reason : scalars reason -> ok (_mark_ambiguous rec_limit w r attempt_id reason) any.
Proof. intros Hr. by eapply ok_weaken; [apply ok_marked|]. Qed.

Lemma ok_failed_item r (reason : string) :
  scalars (str reason) -> ok (failed_item rec_limit w r attempt_id reason) (fun i => disposition i = "failed").
Proof.
  intros Hr. unfold failed_item. eapply ok_bind; [apply ok_transition; [by repeat constructor|]|intros; by apply ok_ret].
  apply observed_sound; [by repeat constructor|]. by intros x [= <-].
Qed.

(** *** One claim *)

(** [r] is what the journal held of a claim when the attempt began. *)
Definition claimed (r : pydict) : Prop := (read (text "resourceId" r) (jnl s0)).2 = Ok (JObj r).

Lemma claimed_current r : claimed r -> current (text "resourceId" r) r.
Proof. intros H. eapply read_current; [apply traces_refl|exact H]. Qed.

Lemma current_identity r d : claimed r -> current (text "resourceId" r) d -> same_identity r d.
Proof. intros Hr [_ _ (d0 & H0 & E)]. unfold claimed in Hr. rewrite Hr in H0. by injection H0 as ->. Qed.

(** The places of a claim: its object's path, its place in the quarantine, and
    where an earlier attempt said it would be moved. *)
Definition place (r : pydict) (p : list pystr) : Prop :=
  (exists path, _record_path r = Some path /\ p = components path) \/ p = quarantine_path r \/
  (exists target, opt_text "cleanupTarget" r = Some target /\ p = components target).

(** Everything the attempt must leave alone is outside the claim's places. *)
Definition clear (r : pydict) : Prop := forall p q, place r p -> K q -> below p q = false.

Lemma located_clear r p : clear r -> located r p -> forall q, K q -> below (components p) q = false.
Proof. intros Hclear [Hp|Hp] q; apply Hclear; [left|right; right]; by exists p. Qed.
Lemma quarantine_clear r q : clear r -> K q -> below (quarantine_path r) q = false.
Proof. intros Hc. apply Hc. right. by left. Qed.

(** The claim under its durable intent has the same places. *)
Definition intended (r d : pydict) : Prop := d = r \/ current (text "resourceId" r) d /\ aimed (cleanup_target r) d.
Lemma intended_current r d : claimed r -> intended r d -> current (text "resourceId" r) d.
Proof. intros Hr [->|[Hd _]]; [by apply claimed_current|done]. Qed.
Lemma intended_clear r d : claimed r -> clear r -> intended r d -> clear d.
Proof.
  intros Hr Hc [->|[Hd Ht]]; [done|]. pose proof (read_sound _ _ _ _ Hr) as (Ho & _).
  assert (quarantine_path d = quarantine_path r) as Hq by (unfold quarantine_path, quarantine_name; by rewrite (c_resource _ _ Hd)).
  intros p q Hp. apply Hc. destruct Hp as [(path & Hpath & ->)|[->|(target & Htarget & ->)]].
  - left. exists path. split; [|done]. rewrite <- Hpath. apply same_path. by apply current_identity.
  - right. left. done.
  - right. left. unfold aimed in Ht. rewrite Ht in Htarget. injection Htarget as <-. apply cleanup_target_components; [done|].
    by apply (c_target _ _ Hd).
Qed.

Lemma ok_intend r :
  ok (intend rec_limit w r attempt_id) (fun v => match v with inl i => disposition i = "ambiguous" | inr d => intended r d end).
Proof.
  unfold intend. destruct (negb _).
  - destruct (_ || _).
    + eapply ok_bind; [apply ok_transition_aim; by repeat constructor|]. intros d Hd. apply ok_ret. by right.
    + eapply ok_bind; [apply ok_marked; by repeat constructor|]. intros i Hi. by apply ok_ret.
  - destruct (bool_decide _); [|by apply ok_ret; left].
    eapply ok_bind; [apply ok_aim|]. intros d Hd. apply ok_ret. by right.
Qed.

(** What ends early is not reclaimed. *)
Definition early (o : option RecoveryItem) : Prop := forall i, o = Some i -> disposition i <> "reclaimed".
Lemma early_item i : disposition i = "ambiguous" \/ disposition i = "failed" -> early (Some i).
Proof. intros H ? [= <-]. by destruct H as [->| ->]. Qed.
Lemma early_none : early None.
Proof. by intros i. Qed.

Lemma ok_mark_early r reason : scalars reason ->
  ok (let* i := _mark_ambiguous rec_limit w r attempt_id reason in eret (Some i)) early.
Proof. intros Hr. eapply ok_bind; [by apply ok_marked|]. intros i Hi. apply ok_ret, early_item. by left. Qed.
Lemma ok_failed_early r (reason : string) : scalars (str reason) ->
  ok (let* i := failed_item rec_limit w r attempt_id reason in eret (Some i)) early.
Proof. intros Hr. eapply ok_bind; [by apply ok_failed_item|]. intros i Hi. apply ok_ret, early_item. by right. Qed.

Lemma ok_move_and_remove r relative p :
  (forall q, K q -> below p q = false) -> (forall q, K q -> below (quarantine_path r) q = false) ->
  ok (move_and_remove rec_limit w r attempt_id relative p) early.
Proof.
  intros Hp Hquar. unfold move_and_remove. bind_ok ok_observe. destruct (negb _); [apply ok_mark_early; by repeat constructor|].
  eapply (ok_bind _ _ early).
  - destruct (bool_decide _); [apply ok_ret, early_none|]. bind_ok ok_cut. eapply (ok_bind _ _ early).
    + apply ok_etry.
      * eapply (ok_bind _ _ any); [|intros; apply ok_ret, early_none]. apply ok_os; [|done]. intros t q Hq.
        apply rename_lookup; [by apply Hp|by apply Hquar].
      * intros e. apply ok_failed_early. by repeat constructor.
    + intros [i|] Hi; [by apply ok_ret|]. bind_ok ok_cut. apply ok_ret, early_none.
  - intros [i|] Hi; [by apply ok_ret|]. bind_ok ok_lstat. destruct (negb _); [apply ok_mark_early; by repeat constructor|].
    eapply ok_bind; [by apply ok_remove|]. intros n _. bind_ok ok_cut. apply ok_ret, early_none.
Qed.

Lemma ok_reclaim_filesystem r : claimed r -> clear r -> ok (_reclaim_filesystem rec_limit w r attempt_id) any.
Proof.
  intros Hr Hclear. unfold _reclaim_filesystem. eapply ok_bind; [apply ok_validate|]. intros [reason|p0] Hv; [by apply ok_mark|].
  eapply ok_bind; [apply ok_intend|]. intros [i|d] Hd; [by apply ok_ret|].
  pose proof (intended_current _ _ Hr Hd) as Hcur. pose proof (intended_clear _ _ Hr Hclear Hd) as Hcd.
  bind_ok ok_cut. eapply ok_bind; [apply ok_validate|]. intros [reason|relative] Hv'; [by apply ok_mark|].
  destruct Hv' as [Hloc _]. eapply ok_bind; [apply ok_open_parent|]. intros p ->. bind_ok ok_succeed.
  eapply (ok_bind _ _ early).
  - apply ok_etry; [apply ok_move_and_remove; [by eapply located_clear|intros q; by apply quarantine_clear]|]. intros e. apply ok_failed_early. by repeat constructor.
  - intros [i|] _; [by apply ok_ret|]. eapply ok_bind; [apply ok_transition; [by repeat constructor|]|].
    + by apply observed_sound; [repeat constructor|].
    + intros d' _. bind_ok ok_cut. by apply ok_ret.
Qed.

(** *** Processes and control groups *)
Lemma ok_covering_group r : ok (covering_group rec_limit own w r) any.
Proof.
  unfold covering_group. eapply ok_bind; [by apply (ok_lift _ any)|]. intros rid _. eapply ok_bind; [apply ok_read|]. intros group _.
  eapply ok_bind; [by apply (ok_lift _ any)|]. intros digest _. bind_ok ok_guard. by apply ok_ret.
Qed.

Lemma ok_group_process r : ok (_reclaim_group_process rec_limit own w r attempt_id) any.
Proof.
  unfold _reclaim_group_process. eapply ok_bind; [apply ok_attempt, ok_covering_group|]. intros [group|e] _.
  - destruct (bool_decide _); [apply ok_mark; by repeat constructor|]. destruct (negb _).
    { eapply ok_bind; [apply ok_begin|]. intros d _. eapply ok_bind; [apply ok_finish|]. intros d' _. by apply ok_ret. }
    destruct (negb _); [apply ok_mark; by repeat constructor|]. eapply ok_bind; [apply ok_begin|]. intros d _.
    eapply ok_bind; [apply ok_transition; [by repeat constructor|]|intros; by apply ok_ret].
    apply observed_sound; [by repeat constructor|]. intros x [= <-]. by repeat constructor.
  - destruct (_ || _); [apply ok_mark; by repeat constructor|apply ok_raise].
Qed.

(** The kernel's tables are dictionaries of texts. *)
Definition texts (d : pydict) : Prop :=
  (NoDup (dkeys d) /\ Forall scalars (dkeys d)) /\
  Forall (fun kv => match kv.2 with JNull => True | JStr s => scalars s | _ => False end) d.
Definition honest (dlg : delegation) : Prop :=
  (forall name d, group_settings dlg name = Ok d -> texts d) /\ (forall name d, group_quiesce dlg name = Ok d -> texts d).

Lemma texts_sound n d : (0 <= n)%Z -> texts d -> sound (n + 1) (JObj d).
Proof.
  intros Hn [Hk Hv]. apply sound_obj; [done|]. split; [done|]. eapply Forall_impl; [|exact Hv]. intros [k v] H. cbn in *.
  destruct v; try done; [by apply sound_null|by apply sound_str].
Qed.

Lemma evidence_sound settings counters : texts settings -> texts counters -> sound 9 (evidence_of settings counters).
Proof.
  intros Hs Hc. apply (sound_obj 8); [lia|]. split; [split; [by_decision|by repeat constructor]|].
  repeat apply list.Forall_cons_2; cbn [snd]; [by apply (texts_sound 7)|by apply (texts_sound 7)|constructor].
Qed.

Lemma empty_observed_sound evidence :
  match evidence with Some v => sound 9 v | None => True end -> sound_changes (empty_observed attempt_id evidence).
Proof.
  intros He. split_and!; try done. cbn. apply (observation_sound "recovered" (Some (str "owned_cgroup_empty")) 7); [lia|by repeat constructor|].
  intros x [= <-]. by repeat constructor.
Qed.

Lemma open_group_texts dlg r name d : honest dlg -> open_group own dlg r name = Ok d -> texts d.
Proof. intros [Hs _] H. unfold open_group in H. inv_res. by eapply Hs. Qed.

Lemma ok_unconfirmed r :
  ok (let* i := _mark_ambiguous rec_limit w r attempt_id (str "cgroup_identity_unconfirmed") in eret (i, cgroup_observation r blank_settings [])) any.
Proof. eapply ok_bind; [apply ok_mark; by repeat constructor|]. intros i _. by apply ok_ret. Qed.

Lemma ok_group_absent r : ok (group_absent rec_limit w r attempt_id) any.
Proof.
  unfold group_absent. destruct (dget "cleanupEvidence" r) as [[| | | | | |ev]|]; try apply ok_unconfirmed. destruct (_ && _); [|apply ok_unconfirmed].
  eapply ok_bind; [apply ok_begin|]. intros d _. eapply ok_bind; [apply ok_transition; [by repeat constructor|by apply empty_observed_sound]|].
  intros d' _. by apply ok_ret.
Qed.

Lemma ok_cgroup dlg r : honest dlg -> ok (_reclaim_cgroup rec_limit own w dlg r attempt_id) any.
Proof.
  intros Hd. unfold _reclaim_cgroup. destruct (opt_text _ _) as [name|]; [|apply ok_unconfirmed].
  destruct (open_group own dlg r name) as [settings|e] eqn:Hopen.
  2:{ assert (ok (if is_os_error e || is_journal_error e || is_admission_error e
          then let* i := _mark_ambiguous rec_limit w r attempt_id (str "cgroup_identity_unconfirmed") in eret (i, cgroup_observation r blank_settings [])
          else eraise e) any) as Hrest by (destruct (_ || _); [apply ok_unconfirmed|apply ok_raise]).
      destruct e; try exact Hrest. apply ok_group_absent. }
  pose proof (open_group_texts _ _ _ _ Hd Hopen) as Hs. eapply ok_bind; [apply ok_begin|]. intros d _.
  eapply (ok_bind _ _ (fun c => match c with inr counters => texts counters | inl _ => True end)).
  - apply ok_etry.
    + eapply ok_bind; [|intros c Hc; apply ok_ret; exact Hc]. unfold group_cleanup.
      eapply ok_bind; [apply (ok_lift _ texts); intros c; apply (proj2 Hd)|]. intros counters Hc. eapply (ok_bind _ _ any).
      * destruct (is_group_record r); [|by apply ok_ret]. eapply ok_bind; [apply ok_transition; [by repeat constructor|]|intros; by apply ok_ret].
        split_and!; try done. by apply evidence_sound.
      * intros _ _. eapply ok_bind; [by apply (ok_lift _ any)|]. intros _ _. by apply ok_ret.
    + intros e. eapply ok_bind; [by apply (ok_lift _ any)|]. intros c _. eapply ok_bind; [apply ok_finish|]. intros d' _. by apply ok_ret.
  - intros [result|counters] Hc; [by apply ok_ret|]. eapply ok_bind; [apply ok_transition; [by repeat constructor|]|intros; by apply ok_ret].
    apply empty_observed_sound. destruct (is_group_record r); [by apply evidence_sound|done].
Qed.

(** *** The passes *)

(** A claim whose object must stay: another root's or user's, retained, or of
    ambiguous ownership. *)
Definition kept (r : pydict) : bool :=
  negb (_record_belongs_to_root own r) || bool_decide (disposition (_classify r false) = "retained") || bool_decide (text "phase" r = "ambiguous").

(** A claim whose object may be removed. *)
Definition reclaimable (r : pydict) : bool :=
  _record_belongs_to_root own r && bool_decide (text "kind" r ∈ strs ["filesystem"; "retained_source"])
  && negb (bool_decide (disposition (_classify r false) ∈ strs ["reclaimed"; "retained"])) && negb (bool_decide (text "phase" r = "ambiguous")).

Definition planned (l : list pydict) (a : pass) : Prop :=
  (forall p, p ∈ plans a -> p.2 ∈ l /\ reclaimable p.2 = true /\ _record_path p.2 = Some p.1 /\ path_ok p.1) /\
  (forall r, r ∈ l -> kept r = true -> (_record_path r, r) ∈ protected a).

Lemma planned_step l r a a' :
  planned l a -> plans a' = plans a -> (forall p, p ∈ protected a -> p ∈ protected a') ->
  (kept r = true -> (_record_path r, r) ∈ protected a') -> planned (l ++ [r]) a'.
Proof.
  intros [H1 H2] E Hp Hk. split; [rewrite E|].
  - intros p Hin. destruct (H1 p Hin) as (? & ?). split; [|done]. apply elem_of_app. by left.
  - intros r' [Hin| ->%list_elem_of_singleton]%elem_of_app Hr'; [by apply Hp, H2|by apply Hk].
Qed.

Lemma planned_protect l r i a : planned l a -> planned (l ++ [r]) (protect (_record_path r) r (add_result i a)).
Proof.
  intros H. eapply planned_step; [exact H|done|..]; cbn [protected protect add_result]; intros; apply elem_of_app; [by left|right; by left].
Qed.
Lemma planned_more l r a a' : planned l a -> kept r = false -> plans a' = plans a -> protected a `prefix_of` protected a' -> planned (l ++ [r]) a'.
Proof.
  intros H Hk E [more Hp]. eapply planned_step; [exact H|done|..]; rewrite Hp; [|by rewrite Hk]. intros p Hin. apply elem_of_app. by left.
Qed.

Lemma ok_efold {B C} (f : B -> C -> eff rstate B) (P : list C -> B -> Prop) l a :
  P [] a -> (forall l1 x a, x ∈ l -> P l1 a -> ok (f a x) (P (l1 ++ [x]))) -> ok (efold f l a) (P l).
Proof.
  intros Ha Hf. assert (forall l2 l1 a, (forall x, x ∈ l2 -> x ∈ l) -> P l1 a -> ok (efold f l2 a) (P (l1 ++ l2))) as H; [|by apply (H l [] a)].
  clear a Ha. induction l2 as [|x l2 IH]; intros l1 a Hin Ha; cbn [efold].
  { rewrite app_nil_r. by apply ok_ret. }
  eapply ok_bind; [apply Hf; [apply Hin; by left|exact Ha]|]. intros a' Ha'. rewrite cons_middle, app_assoc. apply IH; [|done].
  intros y Hy. apply Hin. by right.
Qed.

Lemma ok_keep_unless l r i a a0 :
  planned l a0 -> kept r = false -> plans a = plans a0 -> protected a = protected a0 ->
  ok (keep_unless_reclaimed rec_limit w r i a) (planned (l ++ [r])).
Proof.
  intros Hl Hk Ep Epr. unfold keep_unless_reclaimed. destruct (bool_decide _).
  { apply ok_ret. eapply planned_more; [exact Hl|done|done|by rewrite Epr]. }
  eapply ok_bind; [apply ok_read|]. intros latest _. apply ok_ret. eapply planned_more; [exact Hl|done|done|].
  cbn [protected protect]. rewrite Epr. by apply prefix_app_r.
Qed.

Lemma ok_consider dlg l r a :
  (forall d, dlg = Some d -> honest d) -> planned l a -> ok (consider rec_limit own w dlg attempt_id a r) (planned (l ++ [r])).
Proof.
  intros Hdlg Ha. unfold consider. cbv zeta. destruct (_record_belongs_to_root own r) eqn:Hb; cbn [negb].
  2:{ eapply ok_bind; [apply ok_mark; by repeat constructor|]. intros i _. apply ok_ret. by apply planned_protect. }
  destruct (bool_decide (disposition (_classify r false) = "reclaimed")) eqn:Hrec.
  { assert (kept r = false) as Hk.
    { unfold kept. rewrite Hb. apply bool_decide_eq_true in Hrec. cbn [negb orb]. apply orb_false_iff.
      split; apply bool_decide_eq_false; [by rewrite Hrec|]. intros E. revert Hrec. unfold _classify. rewrite E. cbn. done. }
    destruct (bool_decide (text "kind" r = str "cgroup")); [|apply ok_ret; (eapply planned_more; [exact Ha|exact Hk|done|reflexivity])].
    destruct (dget "cleanupEvidence" r) as [[| | | | | |]|]; apply ok_ret; (eapply planned_more; [exact Ha|exact Hk|done|reflexivity]). }
  destruct (bool_decide (disposition (_classify r false) = "retained")) eqn:Hret; [apply ok_ret; by apply planned_protect|].
  destruct (bool_decide (text "phase" r = "ambiguous")) eqn:Hamb; [apply ok_ret; by apply planned_protect|].
  assert (kept r = false) as Hk by (unfold kept; by rewrite Hb, Hret, Hamb).
  destruct (negb (bool_decide (text "kind" r ∈ _))) eqn:Hkind.
  - destruct (_ && is_group_record r).
    { eapply ok_bind; [apply ok_group_process|]. intros i _. by eapply ok_keep_unless. }
    destruct (if bool_decide (text "kind" r = "cgroup") then dlg else None) as [d|] eqn:Hd.
    + assert (honest d) as Hh by (revert Hd; case_match; [by apply Hdlg|done]). eapply ok_bind; [by apply ok_cgroup|].
      intros io _. by eapply ok_keep_unless.
    + destruct (_ && _).
      * apply ok_ret. eapply planned_more; [exact Ha|done|done|]. by apply prefix_app_r.
      * eapply ok_bind; [apply ok_mark; by repeat constructor|]. intros i _. apply ok_ret.
        eapply planned_more; [exact Ha|done|done|]. by apply prefix_app_r.
  - eapply ok_bind; [apply ok_validate|]. intros [reason|p] Hv.
    { eapply ok_bind; [by apply ok_mark|]. intros i _. apply ok_ret. by apply planned_protect. }
    destruct Hv as (_ & path & Hpath & Hok & _). apply ok_ret. destruct Ha as [H1 H2]. split.
    + intros q [Hq| ->%list_elem_of_singleton]%elem_of_app.
      * destruct (H1 q Hq) as (? & ?). split; [|done]. apply elem_of_app. by left.
      * cbn [fst snd]. assert (text "relativePath" (fields "identity" r) = path) as ->.
        { unfold _record_path, opt_text in Hpath. unfold text. destruct (dget "relativePath" _) as [[| | | | | |]|]; try done. by injection Hpath as ->. }
        split_and!; try done; [apply elem_of_app; right; by left|]. unfold reclaimable. apply negb_false_iff in Hkind. rewrite Hb, Hkind, Hamb.
        cbn [andb negb]. rewrite andb_true_r. apply negb_true_iff, bool_decide_eq_false. intros Hin. elem_literal Hin.
        apply bool_decide_eq_false in Hrec, Hret. by destruct Hin as [?|[?|[]]].
    + intros r' [Hin| ->%list_elem_of_singleton]%elem_of_app Hr'; [by apply H2|]. by rewrite Hk in Hr'.
Qed.

Lemma sieve_spec protected plans acc :
  ok (efold (sieve rec_limit w attempt_id protected) plans (acc, []))
    (fun a => forall r, r ∈ a.2 -> exists path, (path, r) ∈ plans /\ forall p, p ∈ protected -> blocks (parse_path path) r p = false).
Proof.
  apply (ok_efold _ (fun l a => forall r, r ∈ a.2 -> exists path, (path, r) ∈ l /\ forall p, p ∈ protected -> blocks (parse_path path) r p = false)).
  { by intros r ?%elem_of_nil. }
  intros l [relative r] [results safe] Hin H. cbn [snd] in H.
  assert (forall r', r' ∈ safe -> exists path, (path, r') ∈ l ++ [(relative, r)] /\ forall p, p ∈ protected -> blocks (parse_path path) r' p = false) as Hold.
  { intros r' Hr'. destruct (H r' Hr') as (path & Hl & Hb). exists path. split; [|done]. apply elem_of_app. by left. }
  unfold sieve. destruct (bool_decide _) eqn:Hb.
  - apply ok_ret. cbn [snd]. intros r' [Hr'| ->%list_elem_of_singleton]%elem_of_app; [by apply Hold|]. exists relative.
    split; [apply elem_of_app; right; by left|]. intros p Hp. apply not_true_iff_false. intros Hbl. apply bool_decide_eq_true in Hb.
    assert (p ∈ filter (fun p => blocks (parse_path relative) r p = true) protected) as Hf by by apply list_elem_of_filter.
    rewrite Hb in Hf. by apply elem_of_nil in Hf.
  - destruct (forallb _ _).
    + eapply ok_bind; [apply ok_begin|]. intros d _. eapply ok_bind; [apply ok_finish|]. intros d' _. apply ok_ret. exact Hold.
    + eapply ok_bind; [apply ok_mark; by repeat constructor|]. intros i _. apply ok_ret. exact Hold.
Qed.

Lemma ok_prepare l : ok (prepare rec_limit w l) any.
Proof.
  induction l as [|[r target] l IH]; [by apply ok_ret|]. cbn [prepare]. eapply (ok_bind _ _ any).
  - destruct (negb _).
    + eapply ok_bind; [apply ok_transition; [by repeat constructor|apply targeted_sound]|intros; by apply ok_ret].
    + destruct (opt_text _ _); [by apply ok_ret|]. eapply ok_bind; [apply ok_set_target|intros; by apply ok_ret].
  - intros [d|] _; [|by apply ok_ret]. eapply ok_bind; [apply IH|]. intros rest _. by apply ok_ret.
Qed.

Lemma ok_close_descendants l : ok (close_descendants rec_limit w attempt_id l) any.
Proof.
  induction l as [|r l IH]; [by apply ok_ret|]. cbn [close_descendants].
  eapply ok_bind; [apply ok_transition; [by repeat constructor|]|].
  - apply observed_sound; [by repeat constructor|]. intros x [= <-]. by repeat constructor.
  - intros d _. eapply ok_bind; [apply IH|]. intros rest _. by apply ok_ret.
Qed.

Lemma ok_reclaim_group acc group : claimed group.1 -> clear group.1 -> ok (reclaim_group rec_limit w attempt_id acc group) any.
Proof.
  destruct group as [root descendants]. cbn [fst]. intros Hr Hc. unfold reclaim_group. eapply (ok_bind _ _ any).
  - destruct (desired _ _); [apply ok_prepare|by apply ok_ret].
  - intros [current|] _.
    + eapply ok_bind; [by apply ok_reclaim_filesystem|]. intros i _. destruct (bool_decide _); [|by apply ok_ret].
      eapply ok_bind; [apply ok_close_descendants|]. intros rest _. by apply ok_ret.
    + eapply ok_bind; [apply ok_mark; by repeat constructor|]. intros i _. by apply ok_ret.
Qed.
End Frame.

(** ** Groups *)
Lemma insert_plan_perm r l : insert_plan r l ≡ₚ r :: l.
Proof. induction l as [|q l IH]; [done|]. cbn [insert_plan]. destruct (_ <=? _)%nat; [done|]. rewrite IH. by rewrite Permutation_swap. Qed.
Lemma by_depth_perm l : by_depth l ≡ₚ l.
Proof. induction l as [|r l IH]; [done|]. cbn [by_depth foldr]. rewrite insert_plan_perm. by constructor. Qed.

Definition members (groups : list (pydict * list pydict)) : list pydict := flat_map (fun g => g.1 :: g.2) groups.

Lemma join_group_members r groups : members (join_group r groups) ≡ₚ r :: members groups.
Proof.
  induction groups as [|[root ds] rest IH]; [done|]. cbn [join_group]. destruct (in_parents _ _); unfold members in *; cbn [flat_map fst snd].
  - cbn. rewrite <- !app_assoc. cbn [app]. rewrite <- (Permutation_middle ds). apply Permutation_swap.
  - rewrite IH. cbn. rewrite <- (Permutation_middle ds). apply Permutation_swap.
Qed.

Lemma grouped_members l : members (grouped l) ≡ₚ l.
Proof.
  unfold grouped. assert (forall g, members (fold_left (fun g r => join_group r g) (by_depth l) g) ≡ₚ by_depth l ++ members g) as H.
  { induction (by_depth l) as [|r l' IH]; intros g; [done|]. cbn [fold_left]. rewrite IH, join_group_members. cbn. by rewrite Permutation_middle. }
  rewrite H. unfold members. cbn. rewrite app_nil_r. apply by_depth_perm.
Qed.

(** ** The whole attempt *)
Lemma contains_blocks path path' r r' :
  path_ok path -> below (components path) (components path') = true -> blocks (parse_path path) r (Some path', r') = true.
Proof.
  intros Hp Hb. rewrite (relative_components _ Hp) in Hb. pose proof (relative_components _ Hp) as Hc. pose proof Hp as (_ & Hs & Hparts).
  assert (root (parse_path path) = []) as Hroot.
  { unfold parse_path. cbn [root]. unfold root_of. destruct (starts_with (str "//") path) eqn:E2; [|by rewrite Hs].
    apply starts_with_spec in E2 as [k ->]. discriminate Hs. }
  assert (tail (parse_path path) = split_on 47 path) as Htail.
  { unfold components, parts, is_absolute in Hc. rewrite Hroot in Hc. by rewrite bool_decide_eq_true_2 in Hc. }
  assert (root (parse_path path') = []) as Hroot'.
  { unfold components, parts, is_absolute in Hb. destruct (root (parse_path path')) as [|c l] eqn:E; [done|].
    rewrite bool_decide_eq_false_2 in Hb by done. cbn [negb] in Hb. apply below_spec in Hb. destruct (split_on_cons 47 path) as (h & k & Eh).
    rewrite Eh in Hb. destruct Hb as [k' Hb]. cbn in Hb. injection Hb as Hb _. pose proof (split_on_no_sep 47 path) as Hn. rewrite Eh in Hn.
    apply list.Forall_cons in Hn as [Hn _]. exfalso. apply Hn. rewrite <- Hb. unfold parse_path, root_of in E. cbn [root] in E.
    destruct (starts_with _ path' && _); [injection E as <- <-; by left|]. destruct (starts_with _ path'); [injection E as <- <-; by left|done]. }
  unfold components, parts, is_absolute in Hb. rewrite Hroot', bool_decide_eq_true_2 in Hb by done. cbn [negb] in Hb.
  unfold blocks. cbn [fst]. unfold in_parents.
  rewrite (bool_decide_eq_true_2 (root (parse_path path) = root (parse_path path'))) by congruence. rewrite Htail. cbn [andb].
  destruct (decide (split_on 47 path = tail (parse_path path'))) as [E|Hne].
  - rewrite bool_decide_eq_true_2; [done|]. destruct (parse_path path), (parse_path path'); cbn in *. congruence.
  - rewrite (bool_decide_eq_false_2 (split_on 47 path = _)) by done. unfold below in Hb. rewrite Hb. by rewrite orb_true_r.
Qed.

Section Reclaim.
Context (rec_limit : nat) (Hlimit : (10 < rec_limit)%nat) (own : lease) (w : world).
Context (attempt_id : pystr) (Hattempt : scalars attempt_id) (dlg : option delegation) (Hdlg : forall d, dlg = Some d -> honest d).

(** The readable claims of the journal. *)
Definition claims (s : rstate) : list json :=
  match _inspect_journal_fd rec_limit (storage (jnl s)) with Ok snap => records snap | Err _ => [] end.

(** No kept claim's object lies in the tree at [path]. *)
Definition unblocked (s : rstate) (path : pystr) : Prop := forall r' path', JObj r' ∈ claims s -> kept own r' = true ->
  _record_path r' = Some path' -> below (components path) (components path') = false.

(** A path outside every place of every claim that may be removed. *)
Definition untouchable (s : rstate) (q : list pystr) : Prop :=
  forall r path p, JObj r ∈ claims s -> reclaimable own r = true -> _record_path r = Some path -> unblocked s path -> place r p -> below p q = false.

Lemma claims_claimed s snap r :
  _inspect_journal_fd rec_limit (storage (jnl s)) = Ok snap -> JObj r ∈ records snap -> claimed rec_limit s r.
Proof.
  intros H Hr. destruct (inspect_accounts rec_limit _ _ H) as (l & _ & _ & E & _). rewrite E in Hr.
  apply list_elem_of_omap in Hr as (name & _ & Hn). unfold entry_record in Hn. destruct (well_named name); [|done].
  destruct (_read_regular_at _ name) as [data|] eqn:Hd; cbn [rbind] in Hn; [|done].
  destruct (_decode_record rec_limit data name) as [v|] eqn:Hv; [|done]. injection Hn as ->.
  pose proof Hv as (d & v & [= <-] & (_ & _ & Hres & _) & (_ & _ & Ho & _) & _ & -> & _)%decode_view. unfold claimed, text. rewrite Hres.
  unfold store.read, ebind, eget, elift. cbn [snd]. rewrite (proj2 (_opaque_Ok _ _ _) (conj eq_refl Ho)). cbn [rbind]. unfold file_of. rewrite Hd. exact Hv.
Qed.

Lemma recover_frame s q : untouchable s q -> tree (recover rec_limit own w dlg attempt_id s).1 !! q = tree s !! q.
Proof.
  intros Hq. unfold recover. rewrite ebind_get, ebind_guard. destruct (existsb _ _); [done|].
  unfold ebind at 1. unfold with_journal at 1. unfold store.inspect. rewrite ebind_get. unfold elift at 1.
  destruct (_inspect_journal_fd rec_limit (storage (jnl s))) as [snap|e] eqn:Hsnap; [|done].
  set (s1 := RState _ _ _ _ _). destruct (bool_decide (invalid snap = [])).
  2:{ unfold ebind, set_aside, eraise. destruct (quarantine_invalid _ _ _). done. }
  assert (Inv rec_limit s (untouchable s) s1) as Hs1 by (split; [apply traces_refl|done]).
  match goal with |- context [tree (?m s1).1] => assert (ok rec_limit s (untouchable s) m any) as H;
    [|exact (proj2 (proj1 (H s1 Hs1)) q Hq)] end.
  clear s1 Hs1 q Hq.
  eapply ok_bind; [by apply (ok_lift _ _ _ _ any)|]. intros _ _.
  eapply ok_bind; [apply (ok_lift _ _ _ _ (fun l => records snap = JObj <$> l))|].
  { intros l Hl. apply traverse_Ok in Hl. induction Hl as [|v r vs rs Hv _ IH]; [done|]. destruct v; try discriminate Hv. injection Hv as ->.
    cbn. by rewrite IH. }
  intros l Hl. assert (forall r, JObj r ∈ claims s <-> r ∈ l) as Hclaims.
  { intros r. unfold claims. rewrite Hsnap, Hl, list_elem_of_fmap. split; [by intros (? & [= <-] & ?)|by exists r]. }
  assert (cgroups_first l ≡ₚ l) as Hperm by apply filter_app_complement.
  eapply ok_bind; [apply (ok_efold _ _ _ _ (planned own))|].
  { split; [by intros p ?%elem_of_nil|by intros r ?%elem_of_nil]. }
  { intros l1 r a _ Ha. by apply ok_consider. }
  intros a [Hplans Hkept]. eapply ok_bind; [by apply sieve_spec|]. intros sieved Hsieve. eapply ok_bind; [|intros ? _; by apply ok_ret].
  apply (ok_efold _ _ _ _ (fun _ => any)); [done|]. intros _ group acc Hg _.
  assert (group.1 ∈ sieved.2) as Hroot.
  { rewrite <- (grouped_members sieved.2). unfold members. apply list_elem_of_In, in_flat_map. exists group. split; [by apply list_elem_of_In|by left]. }
  destruct (Hsieve _ Hroot) as (path & Hplan & Hblocks). destruct (Hplans _ Hplan) as (Hin & Hrec & Hpath & Hok). cbn [fst snd] in *.
  rewrite Hperm in Hin. apply Hclaims in Hin. apply ok_reclaim_group; try done.
  - eapply claims_claimed; [exact Hsnap|]. unfold claims in Hin. by rewrite Hsnap in Hin.
  - intros p q Hp Hq. apply (Hq (group.1) path); try done.
    intros r' path' Hr' Hk' Hp'. apply not_true_iff_false. intros Hb. apply Hclaims in Hr'. rewrite <- Hperm in Hr'.
    specialize (Hkept r' Hr' Hk'). rewrite Hp' in Hkept. specialize (Hblocks _ Hkept). by rewrite (contains_blocks _ _ group.1 r' Hok Hb) in Hblocks.
Qed.

(** Outside the recovery's part of the quarantine the places are the paths. *)
Lemma untouchable_path s q : reserved q = false ->
  (forall r path, JObj r ∈ claims s -> reclaimable own r = true -> _record_path r = Some path -> unblocked s path -> below (components path) q = false) ->
  untouchable s q.
Proof.
  intros Hq H r path p Hr Hrec Hpath Hu [(path' & Hp' & ->)|[->|(target & Ht & ->)]].
  - rewrite Hpath in Hp'. injection Hp' as <-. by apply (H r).
  - apply not_true_iff_false. intros Hb%quarantine_reserved. by rewrite Hq in Hb.
  - assert (claimed rec_limit s r) as Hc.
    { unfold claims in Hr. destruct (_inspect_journal_fd _ _) as [snap|] eqn:Hs; [by eapply claims_claimed|by apply elem_of_nil in Hr]. }
    destruct (c_target _ _ _ _ (claimed_current _ _ _ Hc) _ Ht) as [H1 H2]. apply not_true_iff_false. intros Hb.
    pose proof (target_reserved _ _ H1 H2 Hb) as E. by rewrite Hq in E.
Qed.

End Reclaim.

(** ** What a reclaimed claim leaves *)

Lemma os_Ok {A} (w : world) (call : files -> files * res A) s s' a : os w call s = (s', Ok a) -> call (tree s) = (tree s', Ok a) /\ jnl s' = jnl s.
Proof. unfold os. destruct (fails w (syscalls s)); [done|]. destruct (call (tree s)) as [t x] eqn:E. intros [= <- ->]. done. Qed.

(** No file at or below a path. *)
Definition gone (p : list pystr) (t : files) : Prop := forall q, below p q = true -> t !! q = None.

Lemma has_below_false p t : has_below p t = false -> forall q, below p q = true -> q <> p -> t !! q = None.
Proof.
  intros H q Hb Hne. destruct (t !! q) as [n|] eqn:E; [|done]. exfalso. apply not_true_iff_false in H. apply H. apply existsb_exists. exists q.
  split; [apply list_elem_of_In, list_elem_of_fmap; exists (q, n); split; [done|]; by apply elem_of_map_to_list|]. by rewrite Hb, bool_decide_eq_false_2.
Qed.

Lemma rmdir_gone p t t' : rmdir_at p t = (t', Ok tt) -> gone p t'.
Proof.
  unfold rmdir_at. destruct (t !! p) as [n|]; [|done]. destruct (negb (is_dir n) || has_below p t) eqn:E; [done|]. intros [= <-] q Hq.
  apply orb_false_iff in E as [_ E]. destruct (decide (q = p)) as [->|Hne]; [apply lookup_delete_eq|].
  rewrite lookup_delete_ne by done. by apply (has_below_false p).
Qed.

Lemma remove_gone (w : world) device uid levels p entries s s' n : _remove_tree_at w device uid levels p entries s = (s', Ok n) -> gone p (tree s').
Proof.
  destruct levels as [|levels]; cbn [_remove_tree_at]; [done|]. intros H. do 6 apply ebind_Ok in H as (? & ? & _ & H).
  apply ebind_Ok in H as (s1 & m & _ & H). apply ebind_Ok in H as (s2 & u & H & H2). injection H2 as <- _. destruct u.
  apply os_Ok in H as [H _]. by eapply rmdir_gone.
Qed.

Lemma rename_gone src dst t t' : rename_at src dst t = (t', Ok tt) -> src <> dst -> forall q, below src q = true -> below dst q = true \/ t' !! q = None.
Proof.
  intros H Hne q Hq. unfold rename_at in H. destruct (t !! src) as [n|] eqn:Hsrc; [|done]. rewrite bool_decide_eq_false_2 in H by done.
  destruct (_ || _ || _); [done|]. injection H as <-. destruct (below dst q) eqn:Hd; [by left|right]. unfold moved. apply lookup_union_None. split.
  - apply map_lookup_filter_None. right. intros m _ [Hf _]. cbn in Hf. by rewrite Hq in Hf.
  - apply not_elem_of_list_to_map_1. intros (kn & -> & Hin)%list_elem_of_fmap. apply list_elem_of_fmap in Hin as (kn0 & -> & _). cbn in Hd.
    apply not_true_iff_false in Hd. apply Hd, below_spec. by eexists.
Qed.

(** A directory that could be renamed was not above its destination. *)
Lemma rename_apart src dst t t' : rename_at src dst t = (t', Ok tt) -> src <> dst -> below src dst = false /\ below dst src = false.
Proof.
  intros H Hne. unfold rename_at in H. destruct (t !! src) as [n|] eqn:Hsrc; [|done]. rewrite bool_decide_eq_false_2 in H by done.
  destruct (_ || _ || _) eqn:E; [done|]. apply orb_false_iff in E as [E _]. apply orb_false_iff in E as [E1 E2]. split; [done|].
  apply not_true_iff_false. intros Hb. by rewrite (has_below_false _ _ E2 src Hb Hne) in Hsrc.
Qed.

Section Gone.
Context (rec_limit : nat) (Hlimit : (10 < rec_limit)%nat) (w : world) (attempt_id : pystr) (Hattempt : scalars attempt_id).

Lemma observe_Ok p s s' n token : observe w p s = (s', Ok (n, token)) ->
  tree s' = tree s /\ tree s !! p = Some n /\ is_dir n = true /\ n_token n = Some token.
Proof.
  intros H. unfold observe in H. apply ebind_Ok in H as (s1 & n1 & H1 & H). apply os_Ok in H1 as [H1 _].
  apply ebind_Ok in H as (s2 & raw & H2 & H). apply os_Ok in H2 as [H2 _]. apply ebind_Ok in H as (s3 & tk & H3 & H).
  injection H as <- <- <-. injection H3 as <- H3. unfold opendir in H1. unfold getxattr in H2. injection H2 as H2 Hraw. injection H1 as H1 Hn.
  unfold ascii_decode in H3. destruct (forallb _ raw); [injection H3 as <-|discriminate H3].
  rewrite <- H2, <- H1. destruct (tree s !! p) as [m|]; [|done]. destruct (is_dir m) eqn:Hd; [|done]. injection Hn as ->.
  split_and!; try done. by destruct (n_token n1) as [b|]; [injection Hraw as ->|].
Qed.

Lemma move_and_remove_done r relative p s s' :
  (relative = cleanup_target r -> p = quarantine_path r) ->
  move_and_remove rec_limit w r attempt_id relative p s = (s', Ok None) ->
  (exists n token, tree s !! p = Some n /\ n_token n = Some token /\ identity_matches (fields "identity" r) n token = true) /\
  gone (quarantine_path r) (tree s') /\ gone p (tree s').
Proof.
  intros Hrel H. unfold move_and_remove in H. apply ebind_Ok in H as (s1 & [n token] & Ho & H). apply observe_Ok in Ho as (Ht & Hn & _ & Htok).
  cbn [fst snd] in H. destruct (identity_matches _ n token) eqn:Hid; cbn [negb] in H.
  2:{ by apply ebind_Ok in H as (s2 & i & _ & ?). }
  split; [by exists n, token|]. apply ebind_Ok in H as (s2 & [i|] & Hmove & H); [done|].
  apply ebind_Ok in H as (s3 & n3 & Hst & H). apply os_Ok in Hst as [Hst _]. injection Hst as Hst _.
  destruct (negb _); [by apply ebind_Ok in H as (s4 & i & _ & ?)|]. apply ebind_Ok in H as (s4 & entries & Hrem & H).
  apply ebind_Ok in H as (s5 & u & Hc & H). injection H as <-. injection Hc as <- _. pose proof (remove_gone _ _ _ _ _ _ _ _ _ Hrem) as Hq.
  split; [exact Hq|]. destruct (bool_decide (relative = cleanup_target r)) eqn:Hb; [apply bool_decide_eq_true in Hb; by rewrite (Hrel Hb)|].
  apply ebind_Ok in Hmove as (s6 & u1 & Hc & Hmove). injection Hc as <- _. apply ebind_Ok in Hmove as (s7 & [i|] & Hren & Hmove); [done|].
  apply ebind_Ok in Hmove as (s8 & u2 & Hc & Hmove). injection Hmove as <-. injection Hc as <- _.
  unfold etry in Hren. destruct ((os w (rename_at p (quarantine_path r)) ;;* eret None) s1) as [s8 [o|e]] eqn:Hr.
  2:{ destruct (is_os_error e); [|done]. by apply ebind_Ok in Hren as (s9 & i & _ & ?). }
  injection Hren as <- ->. apply ebind_Ok in Hr as (s9 & u3 & Hr & Hx). injection Hx as <-. destruct u3. apply os_Ok in Hr as [Hr _].
  destruct (decide (p = quarantine_path r)) as [->|Hne]; [done|]. destruct (rename_apart _ _ _ _ Hr Hne) as [Ha1 Ha2].
  intros q Hbq. assert (below (quarantine_path r) q = false) as Hnq.
  { apply not_true_iff_false. intros Hb2. destruct (below_both _ _ _ Hbq Hb2) as [E|E]; by rewrite E in *. }
  assert (ok rec_limit s3 (fun q => below (quarantine_path r) q = false)
    (_remove_tree_at w (number "device" (fields "identity" r)) (number "principalUid" r) 65 (quarantine_path r) 0) any) as Hok by by apply ok_remove.
  destruct (Hok s3) as [[_ Hk] _]; [split; [apply traces_refl|done]|]. rewrite Hrem in Hk. cbn [fst] in Hk. rewrite (Hk q Hnq), <- Hst.
  destruct (rename_gone _ _ _ _ Hr Hne q Hbq) as [E|E]; [by rewrite E in Hnq|done].
Qed.

Lemma ok_run {A} s K (m : eff rstate A) R s1 s2 a :
  ok rec_limit s K m R -> Inv rec_limit s K s1 -> m s1 = (s2, Ok a) -> Inv rec_limit s K s2 /\ R a.
Proof. intros Hm Hs H. destruct (Hm s1 Hs) as [H1 H2]. rewrite H in *. split; [done|by apply H2]. Qed.

(** C11: a claim is reported as reclaimed only when its object is gone.  The
    object that was removed was a directory with the device, the inode, the type
    and the ownership token the claim recorded, found at the claim's path or
    where an earlier attempt had moved it, and afterwards nothing is left at or
    below that path, nor at the claim's place in the quarantine. *)
Theorem reclaimed_gone r s s' i :
  claimed rec_limit s r -> _reclaim_filesystem rec_limit w r attempt_id s = (s', Ok i) -> disposition i = "reclaimed" ->
  exists relative n token,
    (_record_path r = Some relative \/ starts_with "quarantine/reclaim-" relative = true) /\
    tree s !! components relative = Some n /\ n_token n = Some token /\ identity_matches (fields "identity" r) n token = true /\
    gone (components relative) (tree s') /\ gone (quarantine_path r) (tree s').
Proof.
  intros Hr H Hi. set (K := fun _ : list pystr => True). assert (Inv rec_limit s K s) as H0 by (split; [apply traces_refl|done]).
  pose proof (read_sound _ _ _ _ Hr) as (Hopaque & _). unfold _reclaim_filesystem in H.
  apply ebind_Ok in H as (s1 & [reason|p0] & Hv & H); destruct (ok_run _ _ _ _ _ _ _ (ok_validate rec_limit w s K r) H0 Hv) as [H1 Hp0].
  { destruct (ok_run _ _ _ _ _ _ _ (ok_marked rec_limit Hlimit w attempt_id Hattempt s K r reason Hp0) H1 H) as [_ E]. by rewrite Hi in E. }
  clear Hv Hp0. apply ebind_Ok in H as (s2 & [j|d] & Hint & H);
    destruct (ok_run _ _ _ _ _ _ _ (ok_intend rec_limit Hlimit w attempt_id Hattempt s K r) H1 Hint) as [H2 Hd].
  { injection H as _ <-. by rewrite Hi in Hd. }
  assert (current rec_limit s (text "resourceId" r) d) as Hcur by by eapply intended_current.
  clear Hint Hd. apply ebind_Ok in H as (s3 & u & Hc & H). injection Hc as <- _.
  apply ebind_Ok in H as (s4 & [reason|relative] & Hv & H); destruct (ok_run _ _ _ _ _ _ _ (ok_validate rec_limit w s K d) H2 Hv) as [H4 Hp].
  { destruct (ok_run _ _ _ _ _ _ _ (ok_marked rec_limit Hlimit w attempt_id Hattempt s K d reason Hp) H4 H) as [_ E]. by rewrite Hi in E. }
  destruct Hp as [Hloc (q & Hq & Hqok & _)]. apply ebind_Ok in H as (s5 & p & Hop & H).
  destruct (ok_run _ _ _ _ _ _ _ (ok_open_parent rec_limit w s K relative) H4 Hop) as [H5 ->].
  apply ebind_Ok in H as (s6 & u1 & Hdup & H). destruct (ok_run _ _ _ _ _ _ _ (ok_succeed rec_limit w s K) H5 Hdup) as [H6 _].
  apply ebind_Ok in H as (s7 & [j|] & Hmove & H).
  { injection H as _ <-. exfalso. revert Hi. assert (ok rec_limit s (fun q => False) (etry (move_and_remove rec_limit w d attempt_id relative (components relative))
      is_os_error (fun _ => let* i := failed_item rec_limit w d attempt_id "removal_failed" in eret (Some i))) early) as Hok.
    { apply ok_etry; [by apply ok_move_and_remove|]. intros e. apply ok_failed_early; try done. by repeat constructor. }
    destruct (ok_run _ _ _ _ _ _ _ Hok (conj (proj1 H6) (fun q (F : False) => match F with end)) Hmove) as [_ E]. by apply E. }
  unfold etry in Hmove. destruct (move_and_remove _ _ _ _ _ _ s6) as [s8 [o|e]] eqn:Hm.
  2:{ destruct (is_os_error e); [|done]. by apply ebind_Ok in Hmove as (s9 & j & _ & ?). }
  injection Hmove as <- ->.
  assert (path_ok relative /\ (_record_path r = Some relative \/ starts_with "quarantine/reclaim-" relative = true)) as [Hrok Hrel].
  { destruct Hloc as [Hl|Hl]; [|by destruct (c_target _ _ _ _ Hcur _ Hl); split; [|right]].
    rewrite Hq in Hl. injection Hl as <-. split; [done|]. left. rewrite <- Hq. apply same_path. by eapply current_identity. }
  assert (quarantine_path d = quarantine_path r) as Hqp by (unfold quarantine_path, quarantine_name; by rewrite (c_resource _ _ _ _ Hcur)).
  apply move_and_remove_done in Hm as ((n & token & Hn & Htok & Hid) & Hg1 & Hg2).
  2:{ intros E. rewrite E in *. apply cleanup_target_components; [|done]. by rewrite (c_resource _ _ _ _ Hcur). }
  exists relative, n, token. assert (tree s' = tree s8) as ->.
  { apply ebind_Ok in H as (s9 & terminal & Ht & H). apply ebind_Ok in H as (s10 & u2 & Hc & H). injection H as <- _. injection Hc as <- _.
    unfold transition_to, method, with_journal, ebind in Ht. destruct (transition _ _ _ _ _ _) as [jj [v|]]; [|done].
    unfold elift in Ht. by injection Ht as <- _. }
  split_and!; try done.
  - rewrite <- Hn. symmetry. by apply (proj2 H6).
  - rewrite (same_matches r d); [exact Hid|by eapply current_identity].
  - by rewrite <- Hqp.
Qed.
End Gone.

(** ** The two claims *)
Definition pending_claim : pydict := record_or_empty (store.read 100 (str "r-1") (jnl ruin.interrupted)).2.
Definition attempted : rstate * res RecoveryItem := _reclaim_filesystem 100 ruin.calm pending_claim ruin.attempt ruin.interrupted.

Lemma attempt_scalars : scalars ruin.attempt.
Proof. by repeat constructor. Qed.
Lemma no_delegation : forall d : delegation, None = Some d -> honest d.
Proof. done. Qed.

Definition retained_at (path : pystr) (v : json) : bool :=
  match v with JObj r => kept ruin.recoverer r && bool_decide (_record_path r = Some path) | _ => false end.
Lemma retained_listed : existsb (retained_at (str "resources/d")) (claims 100 ruin.start) = true.
Proof. vm_compute. reflexivity. Qed.
Lemma retained_at_claim path v : retained_at path v = true -> exists r, v = JObj r /\ kept ruin.recoverer r = true /\ _record_path r = Some path.
Proof.
  destruct v as [| | | | | |r]; [done..|]. unfold retained_at. intros [Hk Hp]%andb_true_iff. exists r. split_and!; [done..|].
  exact (bool_decide_eq_true_1 _ Hp).
Qed.
Lemma retained_claim : exists r, JObj r ∈ claims 100 ruin.start /\ kept ruin.recoverer r = true /\ _record_path r = Some (str "resources/d").
Proof.
  pose proof retained_listed as H. apply existsb_exists in H as (v & Hv & H).
  apply retained_at_claim in H as (r & -> & Hk & Hp). exists r. split_and!; [|exact Hk|exact Hp]. apply list_elem_of_In, Hv.
Qed.

Definition found (x : res json) (id : pystr) : bool := match x with Ok (JObj d) => bool_decide (text "resourceId" d = id) | _ => false end.
Lemma pending_found : found (store.read 100 (str "r-1") (jnl ruin.interrupted)).2 (str "r-1") = true.
Proof. vm_compute. reflexivity. Qed.
Lemma found_ok x id : found x id = true -> x = Ok (JObj (record_or_empty x)) /\ text "resourceId" (record_or_empty x) = id.
Proof. destruct x as [[| | | | | |d]|]; try discriminate. intros H. by apply bool_decide_eq_true in H. Qed.
Lemma pending_claimed : claimed 100 ruin.interrupted pending_claim.
Proof.
  destruct (found_ok _ _ pending_found) as [H1 H2]. unfold claimed, pending_claim.
  rewrite H2. exact H1.
Qed.
Definition ended (x : res RecoveryItem) (d : string) : bool := match x with Ok i => bool_decide (disposition i = d) | Err _ => false end.
Lemma ended_ok {S} (p : S * res RecoveryItem) d : ended p.2 d = true -> exists i, p = (p.1, Ok i) /\ disposition i = d.
Proof. destruct p as [s [i|e]]; [|discriminate]. intros H. apply bool_decide_eq_true in H. by exists i. Qed.
Lemma attempted_reclaimed : ended attempted.2 "reclaimed" = true.
Proof. vm_compute. reflexivity. Qed.
Lemma attempted_Ok : exists i, attempted = (attempted.1, Ok i) /\ disposition i = "reclaimed".
Proof. exact (ended_ok attempted _ attempted_reclaimed). Qed.


Lemma reclaimed_gone_witness : gone (quarantine_path pending_claim) (tree attempted.1).
Proof.
  destruct attempted_Ok as (i & Ha & Hi).
  destruct (reclaimed_gone 100 ltac:(lia) ruin.calm ruin.attempt attempt_scalars pending_claim ruin.interrupted attempted.1 i
    pending_claimed Ha Hi) as (relative & n & token & _ & _ & _ & _ & _ & H). exact H.
Defined.
End frame.
