(* ===== verification/Cgroup.v ===== *)
(** * Aggregate control groups ([supervisor/mirrorgate/cgroup.py])

    The delegated parent, the group of a session, and its removal.  The kernel
    answers every system call as it likes ([kernel]); what the code did with
    those answers is the log of its calls.  A descriptor carries, besides its
    number, what it was opened as. *)

From Stdlib Require Import ZArith Lia.
From stdpp Require Import base list gmap strings numbers.
From S2P Require Import Prelude PyJson JsonText RecoveryReceipt Effects Paths AgentPolicy ControlPolicy.
#[local] Open Scope res_scope.
#[local] Open Scope eff_scope.

Module cgroup.
Import paths.

(** ** Text of the kernel's files *)

Definition is_space (c : N) : bool := in_range 9 13 c || in_range 28 32 c.

(** [s.strip()] of ASCII text *)
Fixpoint lstrip (s : pystr) : pystr := match s with c :: s' => if is_space c then lstrip s' else s | [] => [] end.
Definition strip (s : pystr) : pystr := rev (lstrip (rev (lstrip s))).

(** [s.split()] of ASCII text *)
Fixpoint split_from (word : pystr) (s : pystr) : list pystr :=
  match s with
  | [] => if bool_decide (word = []) then [] else [rev word]
  | c :: s => if is_space c then (if bool_decide (word = []) then [] else [rev word]) ++ split_from [] s else split_from (c :: word) s
  end.
Definition words (s : pystr) : list pystr := split_from [] s.

Fixpoint lstrip_plus (s : pystr) : pystr := match s with c :: s' => if (c =? 43)%N then lstrip_plus s' else s | [] => [] end.

(** A line [populated 0] of [cgroup.events]. *)
Definition says_empty (events : pystr) : bool :=
  existsb (fun line => bool_decide (words line = strs ["populated"; "0"])) (receipt.splitlines events).

(** ** System calls *)

Record desc : Type := Desc { number : Z; parent : Z; name : pystr }.
#[export] Instance desc_eq_dec : EqDecision desc.
Proof. solve_decision. Defined.

(** The calls that succeeded, and every attempt to remove a group. *)
Inductive event : Type :=
  | Opened (d : desc) | Closed (d : desc) | Got (d : desc) (data : bytes) | Put (d : desc) (data : bytes)
  | Made (dir : Z) (n : pystr) | Removing (dir : Z) (n : pystr) | Removed (dir : Z) (n : pystr) | Slept | Persisted (observed : pydict).

(** The kernel's answer to each call, by the number of the call; [elapsed] is
    the time it takes, in microseconds. *)
Record kernel : Type := Kernel {
  open_at : nat -> Z -> pystr -> res Z; fstat : nat -> desc -> res stat_info; stat_at : nat -> Z -> pystr -> res stat_info;
  read : nat -> desc -> Z -> res bytes; write : nat -> desc -> bytes -> res Z;
  mkdir : nat -> Z -> pystr -> res unit; rmdir : nat -> Z -> pystr -> res unit;
  is_cgroup2 : nat -> desc -> res bool; geteuid : Z; token_hex : nat -> pystr; elapsed : nat -> nat }.

Record sys : Type := Sys { calls : nat; log : list event; now : Z }.

Section Kernel.
Context (k : kernel).

Definition call {A} (answer : nat -> res A) (note : A -> list event) : eff sys A := fun s =>
  let after l := Sys (S (calls s)) (log s ++ l) (now s + Z.of_nat (elapsed k (calls s))) in
  match answer (calls s) with Ok a => (after (note a), Ok a) | Err e => (after [], Err e) end.
Definition silent {A} (_ : A) : list event := [].

Definition open_file (dir : Z) (n : pystr) : eff sys desc :=
  call (fun i => fd ← open_at k i dir n; Ok (Desc fd dir n)) (fun d => [Opened d]).
(** Closing is taken not to fail. *)
Definition close (d : desc) : eff sys unit := call (fun _ => Ok tt) (fun _ => [Closed d]).
(** The attempt is noted whether or not the kernel removes the group. *)
Definition rmdir_at (dir : Z) (n : pystr) : eff sys unit := fun s =>
  call (fun i => rmdir k i dir n) (fun _ => [Removed dir n]) (Sys (calls s) (log s ++ [Removing dir n]) (now s)).
Definition sleep (micros : Z) : eff sys unit := fun s =>
  call (fun _ => Ok tt) (fun _ => [Slept]) (Sys (calls s) (log s) (now s + micros)).
Definition monotonic : eff sys Z := fun s => (s, Ok (now s)).

Definition _read_at (fd : Z) (n : pystr) (maximum : Z) : eff sys pystr :=
  let* item := open_file fd n in
  efinally
    (let* info := call (fun i => fstat k i item) silent in
     eguard (negb (S_ISREG info)) (AdmissionError "cgroup controller is not regular") ;;*
     let* data := call (fun i => read k i item (maximum + 1)) (fun data => [Got item data]) in
     eguard (maximum <? zlen data)%Z (AdmissionError "cgroup controller exceeds bound") ;;*
     let* text := elift (ascii_decode data) in eret (strip text))
    (close item).

Definition _write_at (fd : Z) (n : pystr) (value : pystr) : eff sys unit :=
  let* item := open_file fd n in
  efinally
    (let* info := call (fun i => fstat k i item) silent in
     eguard (negb (S_ISREG info)) (AdmissionError "cgroup controller is not regular") ;;*
     let data := value ++ [10]%N in
     let* written := call (fun i => write k i item data) (fun _ => [Put item data]) in
     eguard (negb (written =? zlen data)%Z) (AdmissionError "short cgroup controller write"))
    (close item).

Definition _exists_at (fd : Z) (n : pystr) : eff sys bool :=
  etry (let* _ := call (fun i => stat_at k i fd n) silent in eret true) (fun e => bool_decide (e = FileNotFoundError)) (fun _ => eret false).

Definition MAXIMUM : Z := 65536.
Definition read_control (fd : Z) (n : string) : eff sys pystr := _read_at fd (str n) MAXIMUM.

(** ** The delegated parent *)

Definition REQUIRED_CONTROLLERS : list pystr := strs ["cpu"; "memory"; "pids"].
Definition REQUIRED_CHILD_FILES : list pystr :=
  strs ["cgroup.procs"; "cgroup.events"; "cgroup.kill"; "cpu.max"; "cpu.stat"; "memory.max"; "memory.current"; "memory.events";
        "pids.max"; "pids.current"; "pids.events"].

Record CgroupDelegation : Type := Delegated { d_path : path; d_desc : option desc; d_identity : Z * Z }.
(** [self.fd], -1 once closed *)
Definition d_fd (d : CgroupDelegation) : Z := match d_desc d with Some f => number f | None => -1 end.

Definition AT_FDCWD : Z := -100.

(** Every directory of the path is opened below the one before it. *)
Fixpoint descend (fd : desc) (parts : list pystr) : eff sys desc :=
  match parts with
  | [] => eret fd
  | part :: rest =>
    let* nxt := eonerror (open_file (number fd) part) (close fd) in close fd ;;* descend nxt rest
  end.

(** The parent is a cgroup-v2 directory of the serving user, with the
    controllers available and enabled. *)
Definition check_delegation (parent : path) (require_cgroupfs : bool) (fd : desc) : eff sys CgroupDelegation :=
  let* info := call (fun i => fstat k i fd) silent in
  let* foreign := (if negb (st_uid info =? geteuid k)%Z then eret true
                   else if require_cgroupfs then let* own := call (fun i => is_cgroup2 k i fd) silent in eret (negb own) else eret false) in
  eguard foreign (AdmissionError "cgroup parent is not a serving-UID cgroup-v2 delegation") ;;*
  let* controllers := read_control (number fd) "cgroup.controllers" in
  let* enabled := read_control (number fd) "cgroup.subtree_control" in
  eguard (negb (set_sub REQUIRED_CONTROLLERS (words controllers)) || negb (set_sub REQUIRED_CONTROLLERS (lstrip_plus <$> words enabled)))
    (AdmissionError "delegated cgroup lacks enabled cpu/memory/pids controllers") ;;*
  eret (Delegated parent (Some fd) (st_dev info, st_ino info)).

Definition open_delegation (parent : path) (require_cgroupfs : bool) : eff sys CgroupDelegation :=
  eguard (negb (is_absolute parent)) (AdmissionError "cgroup parent must be absolute") ;;*
  let* slash := open_file AT_FDCWD (str "/") in
  let* fd := descend slash (tail parent) in
  eonerror (check_delegation parent require_cgroupfs fd) (close fd).

(** [os.fstat(self.fd)]: a closed descriptor is refused. *)
Definition fstat_of (d : option desc) : eff sys stat_info :=
  match d with Some f => call (fun i => fstat k i f) silent | None => eraise OSError end.

Definition validate_delegation (d : CgroupDelegation) : eff sys unit :=
  let* info := fstat_of (d_desc d) in
  eguard (negb (bool_decide ((st_dev info, st_ino info) = d_identity d))) (AdmissionError "delegation identity changed").

Definition close_delegation (d : CgroupDelegation) : eff sys CgroupDelegation :=
  match d_desc d with
  | Some f => close f ;;* eret (Delegated (d_path d) None (d_identity d))
  | None => eret d
  end.

(** ** The group of a session *)

Record CgroupSession : Type := Group {
  g_name : pystr; g_session : pystr; g_limits : catalog.AggregateLimits; g_desc : option desc; g_identity : Z * Z;
  g_observed : option pydict }.

Definition open_group (n session_id : pystr) (limits : catalog.AggregateLimits) (fd : desc) : eff sys CgroupSession :=
  let* info := call (fun i => fstat k i fd) silent in eret (Group n session_id limits (Some fd) (st_dev info, st_ino info) None).

Definition validate_group (d : CgroupDelegation) (g : CgroupSession) : eff sys unit :=
  let* info := fstat_of (g_desc g) in
  let* current := call (fun i => stat_at k i (d_fd d) (g_name g)) silent in
  eguard (negb (bool_decide ((st_dev info, st_ino info) = (st_dev current, st_ino current)))
          || negb (bool_decide ((st_dev info, st_ino info) = g_identity g)))
    (AdmissionError "cgroup session identity changed").

Definition g_fd (g : CgroupSession) : Z := match g_desc g with Some f => number f | None => -1 end.

(** [{n: (_read_at(fd, n) if _exists_at(fd, n) else None) for n in names}] *)
Fixpoint read_all (fd : Z) (names : list string) : eff sys pydict :=
  match names with
  | [] => eret []
  | n :: names =>
    let* there := _exists_at fd (str n) in
    let* v := (if there then let* text := read_control fd n in eret (JStr text) else eret JNull) in
    let* rest := read_all fd names in
    eret ((str n, v) :: rest)
  end.

Definition observe (d : CgroupDelegation) (g : CgroupSession) : eff sys pydict :=
  validate_group d g ;;*
  read_all (g_fd g) ["pids.current"; "pids.events"; "memory.current"; "memory.peak"; "memory.events"; "cpu.stat"; "cgroup.events"].

Definition settings (d : CgroupDelegation) (g : CgroupSession) : eff sys pydict :=
  validate_group d g ;;* read_all (g_fd g) ["pids.max"; "memory.max"; "memory.swap.max"; "cpu.max"].

Definition join (d : CgroupDelegation) (g : CgroupSession) (pid : Z) : eff sys unit :=
  validate_group d g ;;* _write_at (g_fd g) (str "cgroup.procs") (int_repr pid).

(** The three limits and the text each is written as. *)
Definition wanted (l : catalog.AggregateLimits) : list (string * pystr) :=
  [("pids.max"%string, int_repr (catalog.pids_max l)); ("memory.max"%string, int_repr (catalog.memory_max l));
   ("cpu.max"%string, int_repr (catalog.cpu_quota_us l) ++ 32%N :: int_repr (catalog.cpu_period_us l))].

(** [\[n for n in names if not _exists_at(fd, n)\]] *)
Fixpoint missing (fd : Z) (names : list pystr) : eff sys (list pystr) :=
  match names with
  | [] => eret []
  | n :: names => let* there := _exists_at fd n in let* rest := missing fd names in eret (if there then rest else n :: rest)
  end.

Definition set_limit (fd : Z) (nv : string * pystr) : eff sys unit := _write_at fd (str nv.1) nv.2.
Definition check_limit (fd : Z) (nv : string * pystr) : eff sys unit :=
  let* applied := read_control fd nv.1 in
  eguard (negb (bool_decide (applied = nv.2))) (AdmissionError "kernel did not apply the requested aggregate limit").

(** The body of the [try] of [create]. *)
Definition set_up (d : CgroupDelegation) (n session_id : pystr) (limits : catalog.AggregateLimits) : eff sys CgroupSession :=
  let* child := open_file (d_fd d) n in
  let* absent := missing (number child) REQUIRED_CHILD_FILES in
  eguard (negb (bool_decide (absent = []))) (AdmissionError "delegated child lacks required controllers") ;;*
  efor (set_limit (number child)) (wanted limits) ;;*
  efor (check_limit (number child)) (wanted limits) ;;*
  open_group n session_id limits child.

Definition create (d : CgroupDelegation) (session_id : pystr) (limits : catalog.AggregateLimits) : eff sys CgroupSession :=
  validate_delegation d ;;*
  eguard (bool_decide (session_id = []) || negb (forallb (fun c => is_alnum c || bool_decide (c ∈ [46; 95; 45]%N)) session_id))
    (AdmissionError "invalid cgroup session identity") ;;*
  let* suffix := call (fun i => Ok (token_hex k i)) silent in
  let n := str "mirrorgate-" ++ suffix in
  call (fun i => mkdir k i (d_fd d) n) (fun _ => [Made (d_fd d) n]) ;;*
  eonerror (set_up d n session_id limits) (etry (rmdir_at (d_fd d) n) is_os_error (fun _ => eret tt)).

(** ** Removing a group *)

Definition kill_value : pystr := str "1".

(** The loop: [None] when [polls] were not enough. *)
Fixpoint await_empty (polls : nat) (deadline : Z) (d : CgroupDelegation) (g : CgroupSession) (before_remove : option (pydict -> res unit))
    : eff sys (option (CgroupSession * pydict)) :=
  match polls with
  | O => eret None
  | S polls =>
    let* time := monotonic in
    if (deadline <=? time)%Z then eraise (AdmissionError "cgroup population did not become empty before deadline")
    else
      let* events := read_control (g_fd g) "cgroup.events" in
      if says_empty events then
        let* result := observe d g in
        match before_remove with Some f => call (fun _ => f result) (fun _ => [Persisted result]) | None => eret tt end ;;*
        rmdir_at (d_fd d) (g_name g) ;;*
        match g_desc g with Some f => close f | None => eret tt end ;;*
        eret (Some (Group (g_name g) (g_session g) (g_limits g) None (g_identity g) (Some result), result))
      else sleep 20000 ;;* await_empty polls deadline d g before_remove
  end.

Definition cleanup (polls : nat) (timeout : Z) (d : CgroupDelegation) (g : CgroupSession) (before_remove : option (pydict -> res unit))
    : eff sys (option (CgroupSession * pydict)) :=
  match g_desc g with
  | None => eret (Some (g, default [] (g_observed g)))
  | Some _ =>
    validate_group d g ;;*
    _write_at (g_fd g) (str "cgroup.kill") kill_value ;;*
    let* time := monotonic in
    await_empty polls (time + Z.max 0 timeout) d g before_remove
  end.

(** [probe] with the limits it tries. *)
Definition probe (polls : nat) (d : CgroupDelegation) : eff sys unit :=
  let* child := create d (str "probe") (catalog.Aggregate 1 (16 * 1024 * 1024) 1000 100000) in
  cleanup polls 200000 d child None ;;* eret tt.
End Kernel.

(** ** What a computation adds to the log

    [spec m P]: whatever the kernel answers, [m] appends to the log a list of
    events that [P] relates to its result, and time does not run backwards. *)
Definition spec {A} (m : eff sys A) (P : list event -> res A -> Prop) : Prop :=
  forall s, exists l, log (m s).1 = log s ++ l /\ (now s <= now (m s).1)%Z /\ P l (m s).2.

Section Spec.
Context (k : kernel).

Lemma spec_weaken {A} (m : eff sys A) P Q : spec m P -> (forall l x, P l x -> Q l x) -> spec m Q.
Proof. intros Hm H s. destruct (Hm s) as (l & E & Ht & HP). exists l. split_and!; [done..|by apply H]. Qed.

Lemma spec_ret {A} (a : A) : spec (eret a) (fun l x => l = [] /\ x = Ok a).
Proof. intros s. exists []. rewrite app_nil_r. split_and!; done. Qed.

Lemma spec_lift {A} (m : res A) : spec (elift m) (fun l x => l = [] /\ x = m).
Proof. intros s. exists []. rewrite app_nil_r. split_and!; done. Qed.

Lemma spec_monotonic : spec monotonic (fun l x => l = [] /\ exists t, x = Ok t).
Proof. intros s. exists []. rewrite app_nil_r. split_and!; try done. by exists (now s). Qed.

Lemma spec_call {A} (answer : nat -> res A) note :
  spec (call k answer note) (fun l x => match x with Ok a => l = note a | Err _ => l = [] end).
Proof. intros s. unfold call. destruct (answer (calls s)); cbn; eexists; (split_and!; [done|lia|done]). Qed.

Lemma spec_bind {A B} (m : eff sys A) (f : A -> eff sys B) P (Q : A -> list event -> res B -> Prop) :
  spec m P -> (forall a, spec (f a) (Q a)) ->
  spec (ebind m f) (fun l x => (exists e, x = Err e /\ P l (Err e)) \/ exists l1 l2 a, l = l1 ++ l2 /\ P l1 (Ok a) /\ Q a l2 x).
Proof.
  intros Hm Hf s. destruct (Hm s) as (l1 & E1 & T1 & H1). unfold ebind. destruct (m s) as [s1 [a|e]]; cbn in *.
  - destruct (Hf a s1) as (l2 & E2 & T2 & H2). exists (l1 ++ l2). split_and!; [by rewrite E2, E1, app_assoc|lia|].
    right. exists l1, l2, a. split_and!; done.
  - exists l1. split_and!; [done|lia|]. left. by exists e.
Qed.

Lemma spec_finally {A} (m : eff sys A) c P (Q : list event -> Prop) :
  spec m P -> spec c (fun l x => x = Ok tt /\ Q l) ->
  spec (efinally m c) (fun l x => exists l1 l2, l = l1 ++ l2 /\ P l1 x /\ Q l2).
Proof.
  intros Hm Hc s. destruct (Hm s) as (l1 & E1 & T1 & H1). unfold efinally. destruct (m s) as [s1 x]; cbn in *.
  destruct (Hc s1) as (l2 & E2 & T2 & Hx & H2). destruct (c s1) as [s2 y]; cbn in *. rewrite Hx. exists (l1 ++ l2).
  split_and!; cbn; [by rewrite E2, E1, app_assoc|lia|]. by exists l1, l2.
Qed.

Lemma spec_onerror {A} (m : eff sys A) c P (Q : list event -> Prop) :
  spec m P -> spec c (fun l x => Q l) ->
  spec (eonerror m c) (fun l x => match x with Ok a => P l (Ok a) | Err _ => exists l1 l2 e, l = l1 ++ l2 /\ P l1 (Err e) /\ Q l2 end).
Proof.
  intros Hm Hc s. destruct (Hm s) as (l1 & E1 & T1 & H1). unfold eonerror. destruct (m s) as [s1 [a|e]]; cbn in *.
  { exists l1. by split_and!. }
  destruct (Hc s1) as (l2 & E2 & T2 & H2). destruct (c s1) as [s2 y]; cbn in *. exists (l1 ++ l2).
  destruct y; (split_and!; [cbn; by rewrite E2, E1, app_assoc|cbn; lia|by exists l1, l2, e]).
Qed.

Lemma spec_try {A} (m : eff sys A) caught h P Q :
  spec m P -> (forall e, spec (h e) (Q e)) ->
  spec (etry m caught h) (fun l x => P l x \/ exists e l1 l2, caught e = true /\ l = l1 ++ l2 /\ P l1 (Err e) /\ Q e l2 x).
Proof.
  intros Hm Hh s. destruct (Hm s) as (l1 & E1 & T1 & H1). unfold etry. destruct (m s) as [s1 [a|e]]; cbn in *.
  { exists l1. split_and!; [done..|by left]. }
  destruct (caught e) eqn:Hc.
  - destruct (Hh e s1) as (l2 & E2 & T2 & H2). exists (l1 ++ l2). split_and!; [by rewrite E2, E1, app_assoc|lia|].
    right. by exists e, l1, l2.
  - exists l1. split_and!; [done..|by left].
Qed.

(** A property of every event added, whatever the result. *)
Definition only {A} (Q : event -> Prop) (m : eff sys A) : Prop := spec m (fun l _ => Forall Q l).

Lemma only_bind {A B} Q (m : eff sys A) (f : A -> eff sys B) : only Q m -> (forall a, only Q (f a)) -> only Q (ebind m f).
Proof.
  intros Hm Hf. eapply spec_weaken; [exact (spec_bind m f _ (fun _ l _ => Forall Q l) Hm Hf)|].
  intros l x [(e & _ & H)|(l1 & l2 & a & -> & H1 & H2)]; [done|]. by apply Forall_app.
Qed.
Lemma only_pure {A} Q (m : res A) : only Q (elift m).
Proof. eapply spec_weaken; [apply spec_lift|]. intros l x [-> _]. constructor. Qed.
Lemma only_ret {A} Q (a : A) : only Q (eret a).
Proof. exact (only_pure Q (Ok a)). Qed.
Lemma only_raise {A} Q e : only Q (eraise (A:=A) e).
Proof. exact (only_pure Q (Err e)). Qed.
Lemma only_call {A} (Q : event -> Prop) (answer : nat -> res A) note : (forall a, Forall Q (note a)) -> only Q (call k answer note).
Proof. intros H. eapply spec_weaken; [apply spec_call|]. intros l [a|e] ->; [done|constructor]. Qed.
Lemma only_silent {A} Q (answer : nat -> res A) : only Q (call k answer silent).
Proof. apply only_call. constructor. Qed.
Lemma spec_close d : spec (close k d) (fun l x => x = Ok tt /\ l = [Closed d]).
Proof. intros s. exists [Closed d]. split_and!; [done|cbn; lia|done|done]. Qed.
Lemma only_finally {A} Q (m : eff sys A) d : only Q m -> Q (Closed d) -> only Q (efinally m (close k d)).
Proof.
  intros Hm Hd. eapply spec_weaken; [apply (spec_finally _ _ _ (fun l => l = [Closed d]) Hm)|].
  - apply spec_close.
  - intros l x (l1 & l2 & -> & H1 & ->). apply Forall_app. split; [done|]. by repeat constructor.
Qed.
Lemma only_weaken {A} (Q R : event -> Prop) (m : eff sys A) : only Q m -> (forall e, Q e -> R e) -> only R m.
Proof. intros Hm H. eapply spec_weaken; [exact Hm|]. intros l x. by apply Forall_impl. Qed.
End Spec.

(** A step whose events all have a property, before the rest. *)
Lemma spec_after {A B} (Q : event -> Prop) (m : eff sys A) (f : A -> eff sys B) P :
  only Q m -> (forall a, spec (f a) P) -> (forall l1 l2 x, Forall Q l1 -> P l2 x -> P (l1 ++ l2) x) ->
  (forall l1 e, Forall Q l1 -> P l1 (Err e)) -> spec (ebind m f) P.
Proof.
  intros Hm Hf Hp He. eapply spec_weaken; [exact (spec_bind m f _ (fun _ => P) Hm Hf)|].
  intros l x [(e & -> & H)|(l1 & l2 & a & -> & H1 & H2)]; [by apply He|by apply Hp].
Qed.

(** ** The calls of each operation *)
Section Operations.
Context (k : kernel).

Definition looking (e : event) : Prop := match e with Opened _ | Closed _ | Got _ _ => True | _ => False end.
Definition writing (e : event) : Prop := match e with Opened _ | Closed _ | Put _ _ => True | _ => False end.
(** No group is made or removed, nothing is persisted. *)
Definition quiet (e : event) : Prop := match e with Made _ _ | Removing _ _ | Removed _ _ | Persisted _ => False | _ => True end.

Lemma looking_quiet e : looking e -> quiet e.
Proof. by destruct e. Qed.
Lemma writing_quiet e : writing e -> quiet e.
Proof. by destruct e. Qed.

Ltac step := first [apply only_bind; [|intros ?]|apply only_pure|apply only_ret|apply only_raise|apply only_silent|apply only_finally; [|done]
                   |apply only_call; intros ?; by repeat constructor].

Lemma only_read fd n m : only looking (_read_at k fd n m).
Proof. unfold _read_at, open_file, eguard. repeat step. Qed.
Lemma only_write fd n v : only writing (_write_at k fd n v).
Proof. unfold _write_at, open_file, eguard. repeat step. Qed.
Lemma only_exists fd n : only looking (_exists_at k fd n).
Proof.
  unfold _exists_at. eapply spec_weaken; [apply (spec_try _ _ _ (fun l _ => l = []) (fun _ l _ => l = []))|].
  - eapply spec_weaken; [apply (spec_bind _ _ _ (fun _ l _ => l = []) (spec_call k _ _))|].
    + intros a. eapply spec_weaken; [apply spec_ret|]. by intros l x [-> _].
    + by intros l x [(e & -> & ->)|(l1 & l2 & a & -> & -> & ->)].
  - intros e. eapply spec_weaken; [apply spec_ret|]. by intros l x [-> _].
  - intros l x [->|(e & l1 & l2 & _ & -> & -> & ->)]; constructor.
Qed.

Lemma only_set_limit fd nv : only writing (set_limit k fd nv).
Proof. apply only_write. Qed.
Lemma only_check_limit fd nv : only looking (check_limit k fd nv).
Proof. unfold check_limit, eguard. step; [apply only_read|]. apply only_pure. Qed.
Lemma only_efor {A} Q (body : A -> eff sys unit) l : (forall x, only Q (body x)) -> only Q (efor body l).
Proof. intros H. induction l as [|x l IH]; cbn [efor]; [apply only_ret|]. by apply only_bind. Qed.
Lemma only_missing fd names : only looking (missing k fd names).
Proof. induction names as [|n names IH]; cbn [missing]; [apply only_ret|]. step; [apply only_exists|]. step; [done|]. apply only_ret. Qed.
Lemma only_read_all fd names : only looking (read_all k fd names).
Proof.
  induction names as [|n names IH]; cbn [read_all]; [apply only_ret|]. step; [apply only_exists|]. step; [|step; [done|apply only_ret]].
  destruct a; [step; [apply only_read|]|]; apply only_ret.
Qed.
Lemma only_fstat_of Q d : only Q (fstat_of k d).
Proof. destruct d; [apply only_silent|apply only_raise]. Qed.
Lemma only_validate Q d g : only Q (validate_group k d g).
Proof. unfold validate_group, eguard. step; [apply only_fstat_of|]. repeat step. Qed.
Lemma only_observe d g : only looking (observe k d g).
Proof. unfold observe. step; [apply only_validate|]. apply only_read_all. Qed.
Lemma only_set_up d n sid limits : only quiet (set_up k d n sid limits).
Proof.
  unfold set_up, open_file, open_group, eguard. step; [step|]. step; [apply (only_weaken looking); [apply only_missing|apply looking_quiet]|].
  step; [step|]. step; [apply (only_weaken writing); [apply only_efor; intros; apply only_set_limit|apply writing_quiet]|].
  step; [apply (only_weaken looking); [apply only_efor; intros; apply only_check_limit|apply looking_quiet]|]. repeat step.
Qed.

(** *** What an operation that ended well did *)
Lemma only_run {A} Q (m : eff sys A) s s' x : only Q m -> m s = (s', x) -> exists l, log s' = log s ++ l /\ Forall Q l.
Proof. intros Hm E. destruct (Hm s) as (l & H & _ & HQ). rewrite E in H. by exists l. Qed.

Lemma call_Ok {A} (answer : nat -> res A) note s s' a : call k answer note s = (s', Ok a) -> log s' = log s ++ note a.
Proof. unfold call. destruct (answer (calls s)); [|done]. by intros [= <- <-]. Qed.
Lemma close_Ok d s s' u : close k d s = (s', Ok u) -> log s' = log s ++ [Closed d].
Proof. apply (call_Ok (fun _ => Ok tt)). Qed.
Lemma open_file_Ok dir n s s' d : open_file k dir n s = (s', Ok d) -> parent d = dir /\ name d = n /\ log s' = log s ++ [Opened d].
Proof.
  unfold open_file. intros H. pose proof (call_Ok _ _ _ _ _ H) as Hl. unfold call in H.
  destruct (open_at k (calls s) dir n); [|done]. cbn in H. injection H as <- <-. done.
Qed.

Lemma read_at_Ok fd n m s s' text : _read_at k fd n m s = (s', Ok text) ->
  exists item data, parent item = fd /\ name item = n /\ strip data = text /\ log s' = log s ++ [Opened item; Got item data; Closed item].
Proof.
  intros H. apply ebind_Ok in H as (s1 & item & Ho & H). apply open_file_Ok in Ho as (Hp & Hn & Hl1).
  apply efinally_Ok in H as (s2 & u & H & Hc). apply close_Ok in Hc as Hl6.
  apply ebind_Ok in H as (s3 & info & Hi & H). apply call_Ok in Hi as Hl2.
  apply ebind_Ok in H as (s4 & u1 & Hg & H). apply eguard_Ok in Hg as [_ ->].
  apply ebind_Ok in H as (s5 & data & Hd & H). apply call_Ok in Hd as Hl4.
  apply ebind_Ok in H as (s6 & u2 & Hg & H). apply eguard_Ok in Hg as [_ ->].
  apply ebind_Ok in H as (s7 & text' & Ha & H). injection Ha as <- Ha. injection H as <- <-.
  unfold ascii_decode in Ha. destruct (forallb _ data); [injection Ha as <-|done].
  exists item, data. split_and!; try done. rewrite Hl6, Hl4, Hl2, Hl1. unfold silent. by rewrite app_nil_r, <- !app_assoc.
Qed.

Lemma write_Ok fd n v s s' u : _write_at k fd n v s = (s', Ok u) ->
  exists item, parent item = fd /\ name item = n /\ log s' = log s ++ [Opened item; Put item (v ++ [10]%N); Closed item].
Proof.
  intros H. apply ebind_Ok in H as (s1 & item & Ho & H). apply open_file_Ok in Ho as (Hp & Hn & Hl1).
  apply efinally_Ok in H as (s2 & u0 & H & Hc). apply close_Ok in Hc as Hl6.
  apply ebind_Ok in H as (s3 & info & Hi & H). apply call_Ok in Hi as Hl2.
  apply ebind_Ok in H as (s4 & u1 & Hg & H). apply eguard_Ok in Hg as [_ ->].
  apply ebind_Ok in H as (s5 & written & Hd & H). apply call_Ok in Hd as Hl4. apply eguard_Ok in H as [_ ->].
  exists item. split_and!; try done. rewrite Hl6, Hl4, Hl2, Hl1. unfold silent. by rewrite app_nil_r, <- !app_assoc.
Qed.

Lemma exists_Ok fd n s s' b : _exists_at k fd n s = (s', Ok b) -> log s' = log s.
Proof.
  intros H. unfold _exists_at, etry, ebind, call, silent, eret in H.
  destruct (stat_at k (calls s) fd n) as [i|e]; [|case_bool_decide]; injection H as <- _; cbn; by rewrite app_nil_r.
Qed.
Lemma missing_Ok fd names s s' l : missing k fd names s = (s', Ok l) -> log s' = log s.
Proof.
  revert s l. induction names as [|n names IH]; cbn [missing]; intros s l H; [by injection H as <- _|].
  apply ebind_Ok in H as (s1 & b & H1 & H). apply ebind_Ok in H as (s2 & r & H2 & H). injection H as <- _.
  apply exists_Ok in H1. apply IH in H2. congruence.
Qed.

(** The calls of writing, or reading back, each control in turn. *)
Lemma efor_Ok {A} (body : A -> eff sys unit) (Q : event -> Prop) (R : A -> event -> Prop) l s s' u :
  (forall x s s' u, body x s = (s', Ok u) -> exists l, log s' = log s ++ l /\ Forall Q l /\ Exists (R x) l) ->
  efor body l s = (s', Ok u) -> exists l', log s' = log s ++ l' /\ Forall Q l' /\ forall x, x ∈ l -> Exists (R x) l'.
Proof.
  intros Hb. revert s. induction l as [|x l IH]; cbn [efor]; intros s H.
  { injection H as <- _. exists []. rewrite app_nil_r. split_and!; [done|constructor|]. by intros x ?%elem_of_nil. }
  apply ebind_Ok in H as (s1 & u1 & H1 & H). apply Hb in H1 as (l1 & E1 & Q1 & R1). apply IH in H as (l2 & E2 & Q2 & R2).
  exists (l1 ++ l2). split_and!; [by rewrite E2, E1, app_assoc|by apply Forall_app|].
  intros y [->|Hy]%elem_of_cons; apply Exists_app; [by left|right; by apply R2].
Qed.

Definition written (fd : Z) (nv : string * pystr) (e : event) : Prop :=
  exists item, e = Put item (nv.2 ++ [10]%N) /\ parent item = fd /\ name item = str nv.1.
Definition read_back (fd : Z) (nv : string * pystr) (e : event) : Prop :=
  exists item data, e = Got item data /\ parent item = fd /\ name item = str nv.1 /\ strip data = nv.2.

Lemma set_limit_Ok fd nv s s' u : set_limit k fd nv s = (s', Ok u) -> exists l, log s' = log s ++ l /\ Forall writing l /\ Exists (written fd nv) l.
Proof.
  intros H. apply write_Ok in H as (item & Hp & Hn & Hl). eexists. split_and!; [exact Hl|by repeat constructor|].
  apply Exists_cons_tl, Exists_cons_hd. by exists item.
Qed.
Lemma check_limit_Ok fd nv s s' u : check_limit k fd nv s = (s', Ok u) -> exists l, log s' = log s ++ l /\ Forall looking l /\ Exists (read_back fd nv) l.
Proof.
  intros H. apply ebind_Ok in H as (s1 & text & Hr & H). apply eguard_Ok in H as [Hg ->]. apply negb_false_iff, bool_decide_eq_true in Hg.
  apply read_at_Ok in Hr as (item & data & Hp & Hn & Ht & Hl). eexists. split_and!; [exact Hl|by repeat constructor|].
  apply Exists_cons_tl, Exists_cons_hd. exists item, data. by rewrite Ht, Hg.
Qed.
End Operations.

(** ** What each operation promises *)
Section Promises.
Context (k : kernel).

(** C17: a group is handed to a session only once its limits are in force.  When
    [create] succeeds it made one group below the delegated parent, opened that
    group, wrote the three limits through it, and afterwards read each of them
    back as the text of the limit the policy asked for. *)
Theorem limits_applied d session_id limits s s' g :
  create k d session_id limits s = (s', Ok g) ->
  exists child set back,
    g_desc g = Some child /\ parent child = d_fd d /\ name child = g_name g /\
    log s' = log s ++ Made (d_fd d) (g_name g) :: Opened child :: set ++ back /\
    Forall writing set /\ Forall looking back /\
    forall nv, nv ∈ wanted limits -> Exists (written (number child) nv) set /\ Exists (read_back (number child) nv) back.
Proof.
  intros H. apply ebind_Ok in H as (s1 & u1 & Hv & H). assert (log s1 = log s) as L1.
  { apply ebind_Ok in Hv as (s0 & info & Hf & Hg). apply eguard_Ok in Hg as [_ ->]. unfold fstat_of in Hf.
    destruct (d_desc d); [|done]. apply call_Ok in Hf. unfold silent in Hf. by rewrite app_nil_r in Hf. }
  apply ebind_Ok in H as (s2 & u2 & Hg & H). apply eguard_Ok in Hg as [_ ->].
  apply ebind_Ok in H as (s3 & suffix & Ht & H). apply call_Ok in Ht as L3.
  apply ebind_Ok in H as (s4 & u4 & Hm & H). apply call_Ok in Hm as L4.
  apply eonerror_Ok in H. set (n := str "mirrorgate-" ++ suffix) in *.
  apply ebind_Ok in H as (s5 & child & Ho & H). apply open_file_Ok in Ho as (Hp & Hn & L5).
  apply ebind_Ok in H as (s6 & absent & Hmi & H). apply missing_Ok in Hmi as L6.
  apply ebind_Ok in H as (s7 & u7 & Hg & H). apply eguard_Ok in Hg as [_ ->].
  apply ebind_Ok in H as (s8 & u8 & Hs & H). apply (efor_Ok _ writing (written (number child))) in Hs as (set & L8 & Ws & Hset); [|by intros; eapply set_limit_Ok].
  apply ebind_Ok in H as (s9 & u9 & Hb & H). apply (efor_Ok _ looking (read_back (number child))) in Hb as (back & L9 & Wb & Hback); [|by intros; eapply check_limit_Ok].
  apply ebind_Ok in H as (s10 & info & Hi & H). apply call_Ok in Hi as L10. injection H as <- <-.
  exists child, set, back. split_and!; try done; [|by intros nv Hin; split; [apply Hset|apply Hback]].
  rewrite L10, L9, L8, L6, L5, L4, L3, L1. unfold silent. cbn [g_name]. by rewrite !app_nil_r, <- !app_assoc.
Qed.

(** The events of removing one group. *)
Definition removing (dir : Z) (n : pystr) (l : list event) : Prop := l = [Removing dir n] \/ l = [Removing dir n; Removed dir n].

Lemma spec_rmdir dir n :
  spec (rmdir_at k dir n) (fun l x => match x with Ok _ => l = [Removing dir n; Removed dir n] | Err _ => l = [Removing dir n] end).
Proof.
  intros s. unfold rmdir_at, call. cbn. destruct (rmdir k (calls s) dir n); cbn; eexists; (split_and!; [by rewrite <- app_assoc|lia|done]).
Qed.

Lemma spec_discard dir n : spec (etry (rmdir_at k dir n) is_os_error (fun _ => eret tt)) (fun l _ => removing dir n l).
Proof.
  eapply spec_weaken; [apply (spec_try _ _ _ (fun l _ => removing dir n l) (fun _ l _ => l = []))|].
  - eapply spec_weaken; [apply spec_rmdir|]. intros l [u|e]; [by right|by left].
  - intros e. eapply spec_weaken; [apply spec_ret|]. by intros l x [-> _].
  - intros l x [H|(e & l1 & l2 & _ & -> & H & ->)]; [done|]. by rewrite app_nil_r.
Qed.

Definition made_removed {A} (l : list event) (x : res A) : Prop := forall e dir n, x = Err e -> Made dir n ∈ l -> Removing dir n ∈ l.

Lemma quiet_not_made l dir n : Forall quiet l -> Made dir n ∈ l -> False.
Proof. intros H Hin. by destruct (proj1 (list.Forall_forall _ _) H _ Hin). Qed.

Lemma made_after {A B} (m : eff sys A) (f : A -> eff sys B) : only quiet m -> (forall a, spec (f a) made_removed) -> spec (ebind m f) made_removed.
Proof.
  intros Hm Hf. apply (spec_after quiet); try done.
  - intros l1 l2 x Hq HP e dir n He. rewrite !elem_of_app. intros [Hin|Hin]; [by destruct (quiet_not_made _ _ _ Hq Hin)|right; by eapply HP].
  - intros l1 e Hq e' dir n _ Hin. by destruct (quiet_not_made _ _ _ Hq Hin).
Qed.

Lemma spec_create d session_id limits : spec (create k d session_id limits) made_removed.
Proof.
  apply made_after; [|intros _]. { unfold validate_delegation, eguard. apply only_bind; [apply only_fstat_of|intros; apply only_pure]. }
  apply made_after; [apply only_pure|intros _]. apply made_after; [apply only_silent|intros suffix]. set (g := str "mirrorgate-" ++ suffix).
  eapply spec_weaken; [apply (spec_bind _ _ _ (fun _ l x => forall e, x = Err e ->
      exists l1 l2, l = l1 ++ l2 /\ Forall quiet l1 /\ removing (d_fd d) g l2) (spec_call k _ _))|].
  - intros _. eapply spec_weaken; [apply (spec_onerror _ _ (fun l _ => Forall quiet l) (removing (d_fd d) g))|].
    + apply only_set_up.
    + apply spec_discard.
    + intros l [x|e] H e'; [done|]. intros _. destruct H as (l1 & l2 & e1 & -> & H1 & H2). by exists l1, l2.
  - cbn. intros l x [(e & -> & ->)|(l1 & l2 & u & -> & -> & H)] e' dir n He; [by intros ?%elem_of_nil|].
    destruct (H _ He) as (l3 & l4 & -> & Hq & Hr). cbn. rewrite !elem_of_cons, !elem_of_app. intros [[= -> ->]|[Hin|Hin]].
    + right. right. destruct Hr as [-> | ->]; set_solver.
    + by destruct (quiet_not_made _ _ _ Hq Hin).
    + exfalso. destruct Hr as [-> | ->]; set_solver.
Qed.

(** C99: no group outlives a creation that failed: whatever went wrong after the
    group was made, its removal was asked for. *)
Theorem failed_group_removed d session_id limits s s' e dir n l :
  create k d session_id limits s = (s', Err e) -> log s' = log s ++ l -> Made dir n ∈ l -> Removing dir n ∈ l.
Proof.
  intros H Hl Hm. destruct (spec_create d session_id limits s) as (l' & E & _ & HP). rewrite H in E, HP. cbn in E.
  rewrite Hl in E. apply app_inv_head in E as <-. by apply (HP e).
Qed.

(** *** Removing a group *)
Definition kills (g : CgroupSession) (e : event) : Prop :=
  exists item, e = Put item (kill_value ++ [10]%N) /\ parent item = g_fd g /\ name item = str "cgroup.kill".
Definition sees_empty (g : CgroupSession) (e : event) : Prop :=
  exists item data, e = Got item data /\ parent item = g_fd g /\ name item = str "cgroup.events" /\ says_empty (strip data) = true.

Definition not_removal (e : event) : Prop := match e with Removing _ _ => False | _ => True end.
Lemma quiet_not_removal e : quiet e -> not_removal e.
Proof. by destruct e. Qed.

Lemma removal_after l l0 dir n l1 l2 : Forall not_removal l0 -> l0 ++ l = l1 ++ Removing dir n :: l2 ->
  exists l1', l1 = l0 ++ l1' /\ l = l1' ++ Removing dir n :: l2.
Proof.
  revert l1. induction l0 as [|e l0 IH]; intros l1 H E; [by exists l1|]. apply list.Forall_cons in H as [He H]. destruct l1 as [|e1 l1].
  { injection E as -> _. done. }
  cbn in E. injection E as <- E. apply IH in E as (l1' & -> & ->); [|done]. by exists l1'.
Qed.

(** What precedes the removal of a group: someone saw it empty, and the caller's
    hook, if any, was run with what was observed. *)
Definition emptied (d : CgroupDelegation) (g : CgroupSession) (hook : bool) {A} (l : list event) (x : res A) : Prop :=
  forall l1 dir n l2, l = l1 ++ Removing dir n :: l2 ->
    dir = d_fd d /\ n = g_name g /\ Exists (sees_empty g) l1 /\ (hook = true -> exists o, Persisted o ∈ l1).

Lemma emptied_after {A B} d g hook (m : eff sys A) (f : A -> eff sys B) :
  only not_removal m -> (forall a, spec (f a) (emptied d g hook)) -> spec (ebind m f) (emptied d g hook).
Proof.
  intros Hm Hf. apply (spec_after not_removal); try done.
  - intros l l' x Hq HP l1 dir n l2 E. apply removal_after in E as (l3 & -> & ->); [|done].
    destruct (HP l3 dir n l2 eq_refl) as (-> & -> & H1 & H2). split_and!; [done..|apply Exists_app; by right|].
    intros Hh. destruct (H2 Hh) as [o Ho]. exists o. apply elem_of_app. by right.
  - intros l e Hq l1 dir n l2 ->. apply Forall_app in Hq as [_ Hq]. by apply list.Forall_cons in Hq as [? _].
Qed.

(** The end of a removal: nothing is removed but the group. *)
Definition removed_last (d : CgroupDelegation) (g : CgroupSession) {A} (l : list event) (x : res A) : Prop :=
  exists l', l = Removing (d_fd d) (g_name g) :: l' /\ Forall not_removal l' /\ (is_ok x = true -> Removed (d_fd d) (g_name g) ∈ l').

Lemma spec_remove_end {A} d g f (r : A) :
  spec (rmdir_at k (d_fd d) (g_name g) ;;* match f with Some f => close k f | None => eret tt end ;;* eret r) (removed_last d g).
Proof.
  assert (only not_removal (match f with Some f => close k f | None => eret tt end ;;* eret r)) as Hend.
  { apply only_bind; [|intros; apply only_ret]. destruct f; [apply only_call; by repeat constructor|apply only_ret]. }
  eapply spec_weaken; [apply (spec_bind _ _ _ (fun _ l _ => Forall not_removal l) (spec_rmdir _ _))|]; [by intros _|].
  intros l x [(e & -> & ->)|(l1 & l2 & u & -> & -> & H)]; [by eexists|]. eexists. split_and!; [done|by constructor|]. intros _. set_solver.
Qed.

Lemma spec_read fd n m : spec (_read_at k fd n m) (fun l x => Forall looking l /\ forall text, x = Ok text ->
  Exists (fun e => exists item data, e = Got item data /\ parent item = fd /\ name item = n /\ strip data = text) l).
Proof.
  intros s. destruct (only_read k fd n m s) as (l & E & T & H). exists l. split_and!; try done. intros text Hx.
  destruct (_read_at k fd n m s) as [s' x] eqn:Hr. cbn in *. subst x. apply read_at_Ok in Hr as (item & data & Hp & Hn & Ht & Hl).
  rewrite Hl in E. apply app_inv_head in E as <-. apply Exists_cons_tl, Exists_cons_hd. by exists item, data.
Qed.

Definition hooked (before_remove : option (pydict -> res unit)) : bool := match before_remove with Some _ => true | None => false end.

(** Once the group was seen empty. *)
Lemma spec_remove d g before_remove :
  spec (let* result := observe k d g in
        match before_remove with Some f => call k (fun _ => f result) (fun _ => [Persisted result]) | None => eret tt end ;;*
        rmdir_at k (d_fd d) (g_name g) ;;*
        match g_desc g with Some f => close k f | None => eret tt end ;;*
        eret (Some (Group (g_name g) (g_session g) (g_limits g) None (g_identity g) (Some result), result)))
    (fun l x => forall l1 dir n l2, l = l1 ++ Removing dir n :: l2 ->
       dir = d_fd d /\ n = g_name g /\ (hooked before_remove = true -> exists o, Persisted o ∈ l1)).
Proof.
  apply (spec_after looking); [apply only_observe|intros o| |].
  2:{ intros l l' x Hq HP l1 dir n l2 E. apply removal_after in E as (l3 & -> & ->); [|eapply Forall_impl; [|exact Hq]; by intros []].
      destruct (HP l3 dir n l2 eq_refl) as (-> & -> & H). split_and!; [done..|]. intros Hh. destruct (H Hh) as [o Ho]. exists o.
      apply elem_of_app. by right. }
  2:{ intros l e Hq l1 dir n l2 ->. apply Forall_app in Hq as [_ Hq]. by apply list.Forall_cons in Hq as [? _]. }
  eapply spec_weaken; [apply (spec_bind _ _ (fun l x => Forall not_removal l /\ (is_ok x && hooked before_remove = true -> l = [Persisted o]))
    (fun _ => removed_last d g))|].
  - destruct before_remove as [f|]; [|eapply spec_weaken; [apply spec_ret|]; intros l x [-> ->]; split; [constructor|done]].
    eapply spec_weaken; [apply spec_call|]. intros l [u|e] ->; (split; [by repeat constructor|done]).
  - intros _. apply spec_remove_end.
  - intros l x [(e & -> & Hq & _)|(l3 & l4 & u & -> & [Hn Hp] & (l5 & -> & H5 & _))] l1 dir n l2 E.
    + exfalso. subst l. apply Forall_app in Hq as [_ Hq]. by apply list.Forall_cons in Hq as [? _].
    + apply removal_after in E as (l6 & -> & E); [|done]. destruct l6 as [|e6 l6].
      * injection E as <- <- <-. split_and!; [done..|]. intros Hh. rewrite (Hp Hh). exists o. set_solver.
      * exfalso. injection E as _ ->. apply Forall_app in H5 as [_ H5]. by apply list.Forall_cons in H5 as [? _].
Qed.

Lemma spec_await polls deadline d g before_remove : spec (await_empty k polls deadline d g before_remove) (emptied d g (hooked before_remove)).
Proof.
  assert (forall (m : res (option (CgroupSession * pydict))), spec (elift m) (emptied d g (hooked before_remove))) as Hpure.
  { intros m. eapply spec_weaken; [apply spec_lift|]. intros l x [-> _] [|] ? ? ? ?; done. }
  induction polls as [|polls IH]; cbn [await_empty]; [apply (Hpure (Ok None))|].
  apply emptied_after; [eapply spec_weaken; [apply spec_monotonic|]; intros l x [-> _]; constructor|]. intros time.
  destruct (deadline <=? time)%Z; [apply (Hpure (Err _))|].
  eapply spec_weaken; [apply (spec_bind _ _ _ (fun events l x => if says_empty events
      then forall l1 dir n l2, l = l1 ++ Removing dir n :: l2 -> dir = d_fd d /\ n = g_name g /\ (hooked before_remove = true -> exists o, Persisted o ∈ l1)
      else emptied d g (hooked before_remove) l x) (spec_read _ _ _))|].
  - intros events. destruct (says_empty events); [apply spec_remove|].
    apply emptied_after; [|done]. intros s. unfold sleep, call. cbn. eexists. split_and!; [done|lia|by repeat constructor].
  - intros l x [(e & -> & Hq & _)|(l3 & l4 & events & -> & [Hq Hg] & H)].
    + intros l1 dir n l2 ->. apply Forall_app in Hq as [_ Hq]. by apply list.Forall_cons in Hq as [? _].
    + specialize (Hg events eq_refl). intros l1 dir n l2 E.
      apply removal_after in E as (l5 & -> & ->); [|eapply Forall_impl; [|exact Hq]; by intros []]. destruct (says_empty events) eqn:Hs.
      * destruct (H l5 dir n l2 eq_refl) as (-> & -> & Hp). split_and!; [done..| |].
        -- apply Exists_app. left. eapply Exists_impl; [|exact Hg]. intros e (item & data & -> & Hi & Hn & <-). by exists item, data.
        -- intros Hh. destruct (Hp Hh) as [o Ho]. exists o. apply elem_of_app. by right.
      * destruct (H l5 dir n l2 eq_refl) as (-> & -> & He & Hp). split_and!; [done..|apply Exists_app; by right|].
        intros Hh. destruct (Hp Hh) as [o Ho]. exists o. apply elem_of_app. by right.
Qed.

(** C16: a group is removed only when it is empty.  Whenever [cleanup] asks the
    kernel to remove a group, the group is the session's own, its processes had
    been killed through it, after that [cgroup.events] said that it holds none,
    and the caller's hook had been run with what was observed. *)
Theorem removed_when_empty polls timeout d g before_remove s l l1 dir n l2 :
  log (cleanup k polls timeout d g before_remove s).1 = log s ++ l -> l = l1 ++ Removing dir n :: l2 ->
  dir = d_fd d /\ n = g_name g /\
  (exists killing rest, l1 = killing ++ rest /\ Exists (kills g) killing /\ Exists (sees_empty g) rest) /\
  (hooked before_remove = true -> exists o, Persisted o ∈ l1).
Proof.
  intros Hl ->. unfold cleanup in Hl. destruct (g_desc g) as [f|] eqn:Hf.
  2:{ cbn in Hl. symmetry in Hl. rewrite <- (app_nil_r (log s)) in Hl at 2. apply app_inv_head in Hl. by destruct l1. }
  destruct (only_validate k not_removal d g s) as (l0 & E0 & _ & H0). unfold ebind at 1 in Hl.
  destruct (validate_group k d g s) as [s0 [u|e]]; cbn in E0.
  2:{ exfalso. cbn in Hl. rewrite E0 in Hl. apply app_inv_head in Hl. subst l0. apply Forall_app in H0 as [_ H0]. by apply list.Forall_cons in H0 as [? _]. }
  destruct (only_write k (g_fd g) (str "cgroup.kill") kill_value s0) as (lw & Ew & _ & Hw). unfold ebind at 1 in Hl.
  destruct (_write_at k (g_fd g) (str "cgroup.kill") kill_value s0) as [s1 [u1|e]] eqn:Hwr; cbn in Ew.
  2:{ exfalso. cbn in Hl. rewrite Ew, E0, <- app_assoc in Hl. apply app_inv_head in Hl. apply removal_after in Hl as (l3 & _ & Hl); [|done].
      subst lw. apply Forall_app in Hw as [_ Hw]. by apply list.Forall_cons in Hw as [? _]. }
  apply write_Ok in Hwr as (item & Hp & Hn & Hlw). rewrite Hlw in Ew. apply app_inv_head in Ew as <-.
  cbn in Hl. destruct (spec_await polls (now s1 + Z.max 0 timeout) d g before_remove s1) as (la & Ea & _ & Ha).
  rewrite Ea, Hlw, E0, <- !app_assoc in Hl. apply app_inv_head in Hl.
  rewrite app_assoc in Hl. apply removal_after in Hl as (l3 & -> & ->).
  2:{ apply Forall_app. split; [done|]. by repeat constructor. }
  destruct (Ha l3 dir n l2 eq_refl) as (-> & -> & He & Hh). split_and!; try done.
  - eexists _, _. split_and!; [done| |done]. apply Exists_app. right. apply Exists_cons_tl, Exists_cons_hd. by exists item.
  - intros Hk. destruct (Hh Hk) as [o Ho]. exists o. apply elem_of_app. by right.
Qed.

Lemma answered_bind {A B} (m : eff sys A) (f : A -> eff sys (option B)) s :
  (forall a s', (f a s').2 <> Ok None) -> (ebind m f s).2 <> Ok None.
Proof. intros H. unfold ebind. by destruct (m s) as [s' [a|e]]; [apply H|]. Qed.

(** C35: waiting for a group to become empty ends.  A poll that finds processes
    sleeps for twenty milliseconds, so that the deadline passes after a number of
    polls the timeout bounds, whatever the kernel answers and however long it takes. *)
Theorem cleanup_ends polls timeout d g before_remove s :
  (Z.max 0 timeout <= 20000 * Z.of_nat polls)%Z -> (cleanup k (S polls) timeout d g before_remove s).2 <> Ok None.
Proof.
  intros Hpolls.
  assert (forall polls deadline s, (deadline - now s <= 20000 * Z.of_nat polls)%Z ->
    (await_empty k (S polls) deadline d g before_remove s).2 <> Ok None) as Hawait.
  2:{ unfold cleanup. destruct (g_desc g); [|done]. apply answered_bind. intros _ s0. apply answered_bind. intros _ s1.
      apply Hawait. cbn. lia. }
  clear. induction polls as [|polls IH]; intros deadline s Hd.
  { cbn. rewrite (proj2 (Z.leb_le deadline (now s))) by lia. done. }
  remember (S polls) as p. cbn [await_empty]. unfold monotonic at 1, ebind at 1. destruct (Z.leb_spec deadline (now s)); [done|].
  unfold ebind at 1. destruct (only_read k (g_fd g) (str "cgroup.events") MAXIMUM s) as (l & _ & Ht & _). unfold read_control.
  destruct (_read_at _ _ _ _ s) as [s1 [events|e]]; [|done]. destruct (says_empty events).
  - repeat (apply answered_bind; intros ? ?). done.
  - unfold ebind at 1, sleep, call. subst p. apply IH. cbn in *. lia.
Qed.
End Promises.

(** ** Descriptors *)
Fixpoint remove_first (d : desc) (h : list desc) : list desc :=
  match h with [] => [] | x :: h => if bool_decide (x = d) then h else x :: remove_first d h end.
(** The descriptors open after some events. *)
Fixpoint held (l : list event) (h : list desc) : list desc :=
  match l with
  | [] => h
  | Opened d :: l => held l (d :: h)
  | Closed d :: l => held l (remove_first d h)
  | _ :: l => held l h
  end.

Lemma held_app l1 l2 h : held (l1 ++ l2) h = held l2 (held l1 h).
Proof. revert h. induction l1 as [|[] l1 IH]; intros h; cbn; done. Qed.

Section Descriptors.
Context (k : kernel).

Definition neutral (e : event) : Prop := match e with Opened _ | Closed _ => False | _ => True end.
Lemma held_neutral l h : Forall neutral l -> held l h = h.
Proof. intros H. induction H as [|[] l He _ IH]; done. Qed.

(** Descriptors are as before, whatever the result. *)
Definition balanced {A} (m : eff sys A) : Prop := spec m (fun l _ => forall h, held l h = h).
Lemma balanced_bind {A B} (m : eff sys A) (f : A -> eff sys B) : balanced m -> (forall a, balanced (f a)) -> balanced (ebind m f).
Proof.
  intros Hm Hf. eapply spec_weaken; [exact (spec_bind m f _ (fun _ l _ => forall h, held l h = h) Hm Hf)|].
  intros l x [(e & _ & H)|(l1 & l2 & a & -> & H1 & H2)]; [done|]. intros h. by rewrite held_app, H1, H2.
Qed.
Lemma balanced_only {A} (m : eff sys A) : only neutral m -> balanced m.
Proof. intros H. eapply spec_weaken; [exact H|]. intros l x Hl h. by apply held_neutral. Qed.

Lemma balanced_file {A} dir n (m : desc -> eff sys A) : (forall item, only neutral (m item)) ->
  balanced (let* item := open_file k dir n in efinally (m item) (close k item)).
Proof.
  intros Hm. eapply spec_weaken; [apply (spec_bind _ _ _ (fun item l x => exists l1, l = l1 ++ [Closed item] /\ Forall neutral l1) (spec_call k _ _))|].
  - intros item. eapply spec_weaken; [apply (spec_finally _ _ _ (fun l => l = [Closed item]) (Hm item)), spec_close|].
    intros l x (l1 & l2 & -> & H1 & ->). by exists l1.
  - cbn. intros l x [(e & -> & ->)|(l1 & l2 & item & -> & -> & (l3 & -> & Hn))] h; [done|]. cbn. rewrite held_app, (held_neutral l3) by done.
    cbn. by rewrite bool_decide_eq_true_2.
Qed.

Lemma balanced_read fd n m : balanced (_read_at k fd n m).
Proof.
  apply balanced_file. intros item. unfold eguard.
  repeat first [apply only_bind; [|intros ?]|apply only_pure|apply only_ret|apply only_silent|apply only_call; intros; by repeat constructor].
Qed.

Lemma spec_descend fd parts :
  spec (descend k fd parts) (fun l x => forall h, held l (fd :: h) = match x with Ok f => f :: h | Err _ => h end).
Proof.
  revert fd. induction parts as [|part parts IH]; intros fd; cbn [descend].
  { eapply spec_weaken; [apply spec_ret|]. by intros l x [-> ->]. }
  eapply spec_weaken; [apply (spec_bind _ _ (fun l x => match x with Ok nxt => l = [Opened nxt] | Err _ => l = [Closed fd] end)
    (fun nxt l x => forall h, held l (nxt :: fd :: h) = match x with Ok f => f :: h | Err _ => h end))|].
  - eapply spec_weaken; [apply (spec_onerror _ _ (fun l x => match x with Ok nxt => l = [Opened nxt] | Err _ => l = [] end) (fun l => l = [Closed fd]))|].
    + apply spec_call.
    + eapply spec_weaken; [apply spec_close|]. by intros l x [_ ->].
    + intros l [nxt|e]; [done|]. by intros (l1 & l2 & e1 & -> & -> & ->).
  - intros nxt. eapply spec_weaken; [apply (spec_bind _ _ _ _ (spec_close k fd) (fun _ => IH nxt))|].
    intros l x [(e & -> & [? _])|(l1 & l2 & u & -> & [_ ->] & H)] h; [done|]. cbn. case_bool_decide as E; [by rewrite <- E, H|].
    by rewrite bool_decide_eq_true_2, H.
  - intros l x [(e & -> & ->)|(l1 & l2 & nxt & -> & -> & H)] h; cbn; [by rewrite bool_decide_eq_true_2|apply H].
Qed.

Lemma spec_check parent require fd :
  spec (check_delegation k parent require fd) (fun l x => (forall h, held l h = h) /\ forall d, x = Ok d -> d_desc d = Some fd).
Proof.
  intros s. assert (balanced (check_delegation k parent require fd)) as Hb.
  { apply balanced_bind; [apply balanced_only, only_silent|intros info]. apply balanced_bind.
    { apply balanced_only. destruct (negb _); [apply only_ret|]. destruct require; [|apply only_ret].
      apply only_bind; [apply only_silent|intros; apply only_ret]. }
    intros foreign. unfold eguard. do 4 (apply balanced_bind; [first [apply balanced_only, only_pure|apply balanced_read]|intros ?]).
    apply balanced_only, only_ret. }
  destruct (Hb s) as (l & E & T & H). exists l. split_and!; [done..|]. intros d Hd.
  destruct (check_delegation k parent require fd s) as [s' x] eqn:Hm. cbn in Hd. subst x.
  do 6 (apply ebind_Ok in Hm as (? & ? & _ & Hm)). by injection Hm as _ <-.
Qed.

(** Opening a delegation leaves one descriptor open when it succeeds, that of the
    parent, and none when it fails. *)
Theorem delegation_descriptors parent require :
  spec (open_delegation k parent require) (fun l x => forall h,
    held l h = match x with Ok d => match d_desc d with Some f => f :: h | None => h end | Err _ => h end).
Proof.
  set (P := fun (l : list event) (x : res CgroupDelegation) => forall h,
    held l h = match x with Ok d => match d_desc d with Some f => f :: h | None => h end | Err _ => h end).
  apply (spec_after (fun _ => False) _ _ P); [apply only_pure|intros _|intros l1 l2 x H; by destruct H|intros l1 e H; by destruct H].
  eapply spec_weaken; [apply (spec_bind _ _ _ (fun slash l x => forall h, held l (slash :: h) =
    match x with Ok d => match d_desc d with Some f => f :: h | None => h end | Err _ => h end) (spec_call k _ _))|].
  2:{ cbn. intros l x [(e & -> & ->)|(l1 & l2 & slash & -> & -> & H)] h; [done|apply H]. }
  intros slash. eapply spec_weaken; [apply (spec_bind _ _ _ (fun fd l x => forall h, held l (fd :: h) =
    match x with Ok d => match d_desc d with Some f => f :: h | None => h end | Err _ => h end) (spec_descend _ _))|].
  2:{ intros l x [(e & -> & H)|(l1 & l2 & fd & -> & H1 & H2)] h; [by rewrite H|]. by rewrite held_app, H1, H2. }
  intros fd. eapply spec_weaken; [apply (spec_onerror _ _ (fun l x => (forall h, held l h = h) /\ forall d, x = Ok d -> d_desc d = Some fd) (fun l => l = [Closed fd]))|].
  - apply spec_check.
  - eapply spec_weaken; [apply spec_close|]. by intros l x [_ ->].
  - intros l [d|e]; [intros [H Hd] h; by rewrite (Hd d eq_refl), H|]. intros (l1 & l2 & e1 & -> & [H _] & ->) h.
    rewrite held_app, H. cbn. by rewrite bool_decide_eq_true_2.
Qed.
End Descriptors.

(** ** A group of one session *)
Definition content (n : pystr) : bytes :=
  if bool_decide (n = str "pids.max") then str "10" ++ [10]%N
  else if bool_decide (n = str "memory.max") then str "4096" ++ [10]%N
  else if bool_decide (n = str "cpu.max") then str "1000 100000" ++ [10]%N
  else if bool_decide (n = str "cgroup.events") then str "populated 0" ++ [10]%N ++ str "frozen 0" ++ [10]%N
  else str "0" ++ [10]%N.
(** A kernel that does what it is asked; [short] makes every write fall short. *)
Definition obliging (short : bool) : kernel :=
  Kernel (fun i _ _ => Ok (Z.of_nat i)) (fun _ _ => Ok (Stat Reg 1 2 1000 384)) (fun _ _ _ => Ok (Stat Reg 1 2 1000 384))
    (fun _ d _ => Ok (content (name d))) (fun _ _ data => Ok (if short then 0 else zlen data)%Z)
    (fun _ _ _ => Ok tt) (fun _ _ _ => Ok tt) (fun _ _ => Ok true) 1000 (fun _ => str "00") (fun _ => 1%nat).
Definition delegation : CgroupDelegation := Delegated (parse_path (str "/sys/fs/cgroup/mirrors")) (Some (Desc 3 0 (str "mirrors"))) (1, 2)%Z.
Definition four : catalog.AggregateLimits := catalog.Aggregate 10 4096 1000 100000.
Definition session_group : CgroupSession :=
  Group (str "mirrorgate-00") (str "s-1") four (Some (Desc 4 3 (str "mirrorgate-00"))) (1, 2)%Z None.

Lemma created : exists s' g, create (obliging false) delegation (str "s-1") four (Sys 0 [] 0) = (s', Ok g).
Proof. eexists _, _. vm_compute. reflexivity. Qed.

Lemma limits_applied_witness : exists g child data item,
  (create (obliging false) delegation (str "s-1") four (Sys 0 [] 0)).2 = Ok g /\ g_desc g = Some child /\
  Got item data ∈ log (create (obliging false) delegation (str "s-1") four (Sys 0 [] 0)).1 /\
  parent item = number child /\ name item = str "memory.max" /\ strip data = str "4096".
Proof.
  destruct created as (s' & g & H).
  destruct (limits_applied (obliging false) delegation (str "s-1") four (Sys 0 [] 0) s' g H) as (child & set & back & Hg & _ & _ & Hl & _ & _ & Hw).
  destruct (Hw ("memory.max"%string, str "4096")) as [_ Hb]; [apply list_elem_of_further, list_elem_of_here|].
  apply list.Exists_exists in Hb as (e & Hin & item & data & -> & Hp & Hn & Hs). exists g, child, data, item. rewrite H. cbn [fst snd]. clear H.
  split_and!; [reflexivity|exact Hg| |exact Hp|exact Hn|exact Hs]. rewrite Hl. apply elem_of_app. right. apply list_elem_of_further, list_elem_of_further, elem_of_app. by right.
Defined.

Definition swept : list event := log (cleanup (obliging false) 10 1000 delegation session_group (Some (fun _ => Ok tt)) (Sys 0 [] 0)).1.
Lemma swept_split : swept = take 28 swept ++ Removing 3 (str "mirrorgate-00") :: drop 29 swept.
Proof. vm_compute. reflexivity. Qed.

Lemma removed_when_empty_witness : Exists (sees_empty session_group) swept /\ exists o, Persisted o ∈ swept.
Proof.
  destruct (removed_when_empty (obliging false) 10 1000 delegation session_group (Some (fun _ => Ok tt)) (Sys 0 [] 0)
    swept _ _ _ _ eq_refl swept_split) as (_ & _ & (killing & rest & E & _ & He) & Hh).
  rewrite swept_split, E. split; [apply Exists_app; left; apply Exists_app; by right|].
  destruct (Hh eq_refl) as [o Ho]. exists o. rewrite E in Ho. apply elem_of_app. by left.
Defined.

Lemma cleanup_ends_witness : (cleanup (obliging false) 251 5000000 delegation session_group None (Sys 0 [] 0)).2 <> Ok None.
Proof. apply (cleanup_ends (obliging false) 250 5000000). lia. Defined.

(** A write that falls short leaves the descriptor of the group open, although
    the group is removed. *)
Example failed_creation_leaks : exists child,
  held (log (create (obliging true) delegation (str "s-1") four (Sys 0 [] 0)).1) [] = [child] /\ name child = str "mirrorgate-00".
Proof. eexists. vm_compute. split; reflexivity. Qed.
End cgroup.
