(* ===== verification/Copying.v ===== *)
(** * Copying out of a directory nobody trusts

    Snapshots ([artifacts.py]) and source views ([source_view.py]) copy files out
    of a tree that may change at any moment, into a directory only the supervisor
    writes.  The source answers every call as it likes; an answer is tied to the
    inode a descriptor pins and to the number of the call.  The destination is a
    tree of its own, in which a call fails or does what it says. *)

From Stdlib Require Import ZArith Lia.
From stdpp Require Import base list gmap strings numbers.
From S2P Require Import Prelude PyJson JsonText Canonical Effects Paths.
#[local] Open Scope res_scope.
#[local] Open Scope eff_scope.

Module copying.
Import paths.

(** What the copies read of [os.stat_result]. *)
Record stat_result : Type := SR {
  f_kind : file_kind; f_dev : Z; f_ino : Z; f_perm : Z; f_nlink : Z; f_size : Z; f_mtime : Z; f_ctime : Z }.

Definition _identity (i : stat_result) : Z * Z * (file_kind * Z) * Z * Z * Z * Z :=
  (f_dev i, f_ino i, (f_kind i, f_perm i), f_nlink i, f_size i, f_mtime i, f_ctime i).
Definition same_file (i j : stat_result) : bool := bool_decide (_identity i = _identity j).
Definition is_kind (k : file_kind) (i : stat_result) : bool := bool_decide (f_kind i = k).

(** A destination node; a path is the list of its components below the directory
    the supervisor owns, which is [\[\]]. *)
Record dnode : Type := DNode { d_dir : bool; d_ino : Z; d_perm : Z; d_data : bytes }.
Abbreviation dtree := (gmap (list pystr) dnode).

(** [None] is an [OSError].  [chunks] is what reading a file to its end gives. *)
Record world : Type := World {
  root_inode : Z; info : nat -> Z -> option stat_result; entry : nat -> Z -> pystr -> option Z;
  listing : nat -> Z -> option (list pystr); chunks : nat -> Z -> option (list bytes);
  dst_fails : nat -> bool; remains : nat -> list pystr -> bool }.

(** An entry of the manifest. *)
Inductive item : Type :=
  | IDir (path : pystr)
  | IFile (path : pystr) (size : Z) (sha256 : pystr) (executable : bool).

#[export] Instance item_eq_dec : EqDecision item.
Proof. solve_decision. Defined.

Definition item_path (i : item) : pystr := match i with IDir p => p | IFile p _ _ _ => p end.
Definition item_size (i : item) : Z := match i with IDir _ => 0 | IFile _ n _ _ => n end.
Definition item_json (i : item) : json :=
  match i with
  | IDir p => JObj [(str "path", JStr p); (str "kind", JStr (str "directory"))]
  | IFile p n d x => JObj [(str "path", JStr p); (str "kind", JStr (str "file")); (str "size", JInt n); (str "sha256", JStr d);
                           (str "executable", JBool x)]
  end.

(** [sha256(json.dumps(manifest, sort_keys=True, ensure_ascii=False).encode("utf-8"))] *)
Definition manifest_sha256 (m : list item) : res pystr :=
  encoded ← from_option_res (utf8_encode (dumps false (sort_json (JArr (item_json <$> m))))) UnicodeError; Ok (sha256_hex encoded).

(** [f"{relative}/{name}" if relative else name] *)
Definition child_path (relative name : pystr) : pystr :=
  if bool_decide (relative = []) then name else relative ++ 47%N :: name.

Definition executable_perm (perm : Z) : bool := negb (Z.land perm 73 =? 0)%Z.

(** The state: how many calls were made, the destination, the next inode number
    and what the copy keeps ([X]). *)
Record st (X : Type) : Type := St { clk : nat; dst : dtree; inodes : Z; ext : X }.
Arguments St {_} _ _ _ _.
Arguments clk {_} _.
Arguments dst {_} _.
Arguments inodes {_} _.
Arguments ext {_} _.

Definition below (p q : list pystr) : bool := bool_decide (p `prefix_of` q).

Section Calls.
Context {X : Type} (w : world).

Definition src {A} (answer : nat -> option A) : eff (st X) A := fun s =>
  (St (S (clk s)) (dst s) (inodes s) (ext s), from_option_res (answer (clk s)) OSError).

Definition fstat (fd : Z) : eff (st X) stat_result := src (fun n => info w n fd).
Definition stat_at (fd : Z) (name : pystr) : eff (st X) stat_result := src (fun n => i ← entry w n fd name; info w n i)%stdpp.
(** [O_DIRECTORY | O_NOFOLLOW], and [O_NOFOLLOW] alone. *)
Definition open_dir (fd : Z) (name : pystr) : eff (st X) Z :=
  src (fun n => match entry w n fd name with
                | Some i => match info w n i with Some r => if is_kind Dir r then Some i else None | None => None end
                | None => None end).
Definition open_file (fd : Z) (name : pystr) : eff (st X) Z :=
  src (fun n => match entry w n fd name with
                | Some i => match info w n i with Some r => if is_kind Lnk r then None else Some i | None => None end
                | None => None end).
Definition read_all (fd : Z) : eff (st X) (list bytes) := src (fun n => chunks w n fd).

(** [sorted] names of [os.scandir], at most [bound] of them. *)
Definition scandir (fd : Z) (bound : Z) (message : string) : eff (st X) (list pystr) :=
  let* names := src (fun n => listing w n fd) in
  eguard (bound <? zlen names)%Z (AdmissionError message) ;;* eret (sort_names names).

(** [_open_directory]: every directory below the one before it. *)
Fixpoint walk (fd : Z) (parts : list pystr) : eff (st X) Z :=
  match parts with [] => eret fd | part :: rest => let* nxt := open_dir fd part in walk nxt rest end.

Definition get : eff (st X) X := fun s => (s, Ok (ext s)).
Definition put (f : X -> X) : eff (st X) unit := fun s => (St (clk s) (dst s) (inodes s) (f (ext s)), Ok tt).

(** A call on the destination. *)
Definition dcall {A} (f : dtree -> dtree * option A) : eff (st X) A := fun s =>
  if dst_fails w (clk s) then (St (S (clk s)) (dst s) (inodes s) (ext s), Err OSError)
  else let '(t, x) := f (dst s) in (St (S (clk s)) t (inodes s) (ext s), from_option_res x OSError).

Definition is_directory (t : dtree) (p : list pystr) : bool := match t !! p with Some n => d_dir n | None => false end.

(** [mkdir], or [open] with [O_CREAT | O_EXCL]: [false] when the name is taken. *)
Definition make (p : list pystr) (dir : bool) (perm : Z) : eff (st X) bool := fun s =>
  let '(s', x) := dcall (fun t => if negb (is_directory t (removelast p)) then (t, None)
                                  else match t !! p with
                                       | Some _ => (t, Some false)
                                       | None => (<[p := DNode dir (inodes s) perm []]> t, Some true)
                                       end) s in
  (St (clk s') (dst s') (inodes s' + 1) (ext s'), x).

Definition update (p : list pystr) (f : dnode -> dnode) : eff (st X) unit :=
  dcall (fun t => match t !! p with Some n => (<[p := f n]> t, Some tt) | None => (t, None) end).
Definition chmod (p : list pystr) (perm : Z) : eff (st X) unit := update p (fun n => DNode (d_dir n) (d_ino n) perm (d_data n)).
Definition write (p : list pystr) (chunk : bytes) : eff (st X) unit :=
  update p (fun n => DNode (d_dir n) (d_ino n) (d_perm n) (d_data n ++ chunk)).
Definition dstat (p : list pystr) : eff (st X) dnode := dcall (fun t => (t, t !! p)).
(** [os.rmdir] *)
Definition unlink_dir (p : list pystr) : eff (st X) unit :=
  dcall (fun t => if is_directory t p && negb (existsb (fun q => below p q && negb (bool_decide (q = p))) (map_to_list t).*1)
                  then (delete p t, Some tt) else (t, None)).

(** [remove_snapshot] removes the whole tree, or fails and leaves any part. *)
Definition remove_snapshot (p : list pystr) : eff (st X) unit := fun s =>
  match dst s !! p with
  | None => (s, Ok tt)
  | Some _ =>
    if dst_fails w (clk s)
    then (St (S (clk s)) (filter (fun kn => below p kn.1 = false \/ remains w (clk s) kn.1 = true) (dst s)) (inodes s) (ext s), Err OSError)
    else (St (S (clk s)) (filter (fun kn => below p kn.1 = false) (dst s)) (inodes s) (ext s), Ok tt)
  end.
End Calls.

(** ** Trees *)

(** Whatever has a name lies in a directory. *)
Definition closed (t : dtree) : Prop := forall p x, is_Some (t !! (p ++ [x])) -> is_directory t p = true.

Lemma below_parts p q : below p q = true <-> exists k, q = p ++ k.
Proof. unfold below. rewrite bool_decide_eq_true. done. Qed.
Lemma below_refl p : below p p = true.
Proof. apply below_parts. exists []. by rewrite app_nil_r. Qed.
Lemma below_trans p q r : below p q = true -> below q r = true -> below p r = true.
Proof. rewrite !below_parts. intros [k ->] [k' ->]. exists (k ++ k'). by rewrite app_assoc. Qed.
Lemma below_snoc p x q : below (p ++ [x]) q = true -> below p q = true /\ q <> p.
Proof.
  rewrite !below_parts. intros [k ->]. rewrite <- app_assoc. split; [by eexists|]. intros E. apply (f_equal length) in E.
  rewrite !length_app in E. cbn in E. lia.
Qed.

Lemma is_directory_some t p : is_directory t p = true -> is_Some (t !! p).
Proof. unfold is_directory. by destruct (t !! p). Qed.

(** A tree has nothing below a name that is free. *)
Lemma closed_none t p q : closed t -> t !! p = None -> below p q = true -> t !! q = None.
Proof.
  intros Ht Hp [k ->]%below_parts. revert Hp. induction k as [|x k IH] using rev_ind; intros Hp; [by rewrite app_nil_r|].
  apply eq_None_not_Some. intros H. rewrite app_assoc in H. apply Ht, is_directory_some in H. rewrite IH in H by done. by destruct H.
Qed.

Lemma closed_insert t p n : closed t -> d_dir n = true \/ t !! p = None \/ (exists m, t !! p = Some m /\ d_dir m = d_dir n) ->
  (forall x q, p = q ++ [x] -> is_directory t q = true) -> closed (<[p := n]> t).
Proof.
  intros Ht Hn Hp q x H. assert (is_directory t q = true) as Hq.
  { destruct (decide (p = q ++ [x])) as [E|Hne]; [by eapply Hp|]. rewrite lookup_insert_ne in H by done. by eapply Ht. }
  unfold is_directory in *. destruct (decide (p = q)) as [->|Hne]; [|by rewrite lookup_insert_ne].
  rewrite lookup_insert_eq. destruct Hn as [Hn|[Hn|(m & Hm & Hn)]]; [done|by rewrite Hn in Hq|]. by rewrite Hm, Hn in Hq.
Qed.

(** ** Names *)
Definition good_name (x : pystr) : Prop := x <> [] /\ ~ (47%N ∈ x) /\ scalars x.

Lemma join_with_snoc ps x : ps <> [] -> join_with 47 (ps ++ [x]) = join_with 47 ps ++ 47%N :: x.
Proof.
  induction ps as [|p ps IH]; intros H; [done|]. destruct ps as [|q ps]; [done|]. cbn [app join_with] in *.
  rewrite <- app_assoc. cbn [app]. f_equal. f_equal. by apply IH.
Qed.

Lemma join_with_nil ps : Forall good_name ps -> join_with 47 ps = [] -> ps = [].
Proof. intros H E. destruct H as [|p ps [Hp _] H]; [done|]. destruct ps; cbn in E; [done|]. by destruct p. Qed.

Lemma child_path_join ps x : Forall good_name ps -> child_path (join_with 47 ps) x = join_with 47 (ps ++ [x]).
Proof.
  intros H. unfold child_path. case_bool_decide as E; [by rewrite (join_with_nil ps)|]. rewrite join_with_snoc; [done|]. by intros ->.
Qed.

Lemma split_path ps : ps <> [] -> Forall good_name ps -> split_on 47 (join_with 47 ps) = ps.
Proof. intros Hne H. apply split_join; [done|]. by eapply Forall_impl; [|exact H]; intros x (_ & ? & _). Qed.

Lemma join_scalars ps : Forall good_name ps -> scalars (join_with 47 ps).
Proof.
  intros H. induction H as [|p ps (_ & _ & Hp) H IH]; [constructor|]. destruct ps as [|q ps]; [done|].
  change (join_with 47 (p :: q :: ps)) with (p ++ 47%N :: join_with 47 (q :: ps)). apply Forall_app. split; [done|]. by constructor.
Qed.

Lemma encodes_scalars s : utf8_encode s <> None -> scalars s.
Proof. intros H. apply utf8_encode_Some. destruct (utf8_encode s); [by eexists|done]. Qed.

(** A manifest always has a digest. *)
Definition item_text (i : item) : Prop := scalars (item_path i) /\ match i with IFile _ _ d _ => scalars d | IDir _ => True end.
Lemma manifest_encodes m : Forall item_text m -> exists d, manifest_sha256 m = Ok d.
Proof.
  intros H. unfold manifest_sha256. destruct (dumps_encodes false (sort_json (JArr (item_json <$> m)))) as [bs ->]; [|by eexists].
  rewrite subvalues_children. constructor; [done|]. cbn [sort_json children]. induction H as [|i m [Hp Hd] H IH]; [constructor|].
  cbn [fmap list_fmap map flat_map]. apply Forall_app. split; [|exact IH].
  destruct i; cbn in *; repeat constructor; done.
Qed.

(** ** What a call that succeeded did *)
Section Succeeded.
Context {X : Type} (w : world).
Implicit Types s : st X.

(** The destination and what the copy keeps are as they were. *)
Definition looked (s s' : st X) : Prop := dst s' = dst s /\ ext s' = ext s.
Lemma looked_trans s1 s2 s3 : looked s1 s2 -> looked s2 s3 -> looked s1 s3.
Proof. intros [] []. split; congruence. Qed.

Lemma src_Ok {A} (f : nat -> option A) s s' a : src f s = (s', Ok a) -> f (clk s) = Some a /\ looked s s'.
Proof. unfold src. destruct (f (clk s)) as [b|]; [|done]. by intros [= <- <-]. Qed.

Lemma scandir_Ok fd bound m s s' l : scandir w fd bound m s = (s', Ok l) ->
  exists names, listing w (clk s) fd = Some names /\ l = sort_names names /\ looked s s'.
Proof.
  intros H. apply ebind_Ok in H as (s1 & names & H1 & H). apply src_Ok in H1 as [Hl Hs]. apply ebind_Ok in H as (s2 & u & H2 & H).
  apply eguard_Ok in H2 as [_ ->]. injection H as <- <-. by exists names.
Qed.

Lemma get_Ok s s' (x : X) : get s = (s', Ok x) -> s' = s /\ x = ext s.
Proof. by intros [= <- <-]. Qed.

Lemma make_Ok p dir perm s s' : make w p dir perm s = (s', Ok true) ->
  dst s !! p = None /\ is_directory (dst s) (removelast p) = true /\ ext s' = ext s /\
  dst s' = <[p := DNode dir (inodes s) perm []]> (dst s).
Proof.
  unfold make, dcall. destruct (dst_fails w (clk s)); [done|]. destruct (is_directory (dst s) (removelast p)) eqn:Hd; [|done]. cbn [negb].
  destruct (dst s !! p) eqn:Hp; [done|]. cbn. by intros [= <-].
Qed.

Lemma update_Ok p f s s' u : update w p f s = (s', Ok u) -> exists n, dst s !! p = Some n /\ ext s' = ext s /\ dst s' = <[p := f n]> (dst s).
Proof.
  unfold update, dcall. destruct (dst_fails w (clk s)); [done|]. destruct (dst s !! p) as [n|]; [|done]. intros [= <- _]. by exists n.
Qed.
End Succeeded.

(** ** What any call leaves alone *)
Section Frame.
Context {X : Type} (w : world) (t0 : dtree) (K : list pystr -> Prop).

(** The tree is well formed, and the names in [K] are as in [t0]. *)
Definition framed (s : st X) : Prop := closed (dst s) /\ forall q, K q -> dst s !! q = t0 !! q.

Lemma framed_same (s s' : st X) : dst s' = dst s -> framed s -> framed s'.
Proof. intros E H. unfold framed. by rewrite E. Qed.

Lemma frame_src {A} (f : nat -> option A) : preserves framed (src (X:=X) f).
Proof. intros s. by apply framed_same. Qed.
Lemma frame_put f : preserves framed (put (X:=X) f).
Proof. intros s. by apply framed_same. Qed.
Lemma frame_get : preserves framed (get (X:=X)).
Proof. by intros s. Qed.
Lemma frame_lift {A} (m : res A) : preserves framed (elift (S:=st X) m).
Proof. by intros s. Qed.
Lemma frame_ret {A} (a : A) : preserves framed (eret (S:=st X) a).
Proof. by intros s. Qed.
Lemma frame_raise {A} e : preserves framed (eraise (S:=st X) (A:=A) e).
Proof. by intros s. Qed.
Lemma frame_efor {A} (body : A -> eff (st X) unit) l : (forall x, preserves framed (body x)) -> preserves framed (efor body l).
Proof. intros H. induction l as [|x l IH]; [apply frame_ret|]. cbn. by apply preserves_bind. Qed.

Lemma frame_make p dir perm : ~ K p -> preserves framed (make (X:=X) w p dir perm).
Proof.
  intros Hp s [Hc HK]. unfold make, dcall. destruct (dst_fails w (clk s)); [done|].
  destruct (is_directory (dst s) (removelast p)) eqn:Hd; [|done]. cbn [negb]. destruct (dst s !! p) eqn:E; [done|]. cbn. split.
  - apply closed_insert; [done|by right; left|]. intros x q ->. by rewrite removelast_last in Hd.
  - intros q Hq. rewrite <- HK by done. apply lookup_insert_ne. by intros ->.
Qed.

Lemma frame_update p f : ~ K p -> (forall n, d_dir (f n) = d_dir n) -> preserves framed (update (X:=X) w p f).
Proof.
  intros Hp Hf s [Hc HK]. unfold update, dcall. destruct (dst_fails w (clk s)); [done|]. destruct (dst s !! p) as [n|] eqn:E; [|done]. cbn. split.
  - apply closed_insert; [done|right; right; by exists n|]. intros x q ->. apply (Hc q x). by rewrite E.
  - intros q Hq. rewrite <- HK by done. apply lookup_insert_ne. by intros ->.
Qed.

Lemma frame_walk fd parts : preserves framed (walk (X:=X) w fd parts).
Proof. revert fd. induction parts as [|part parts IH]; intros fd; [apply frame_ret|]. apply preserves_bind; [apply frame_src|done]. Qed.

Lemma frame_scandir fd bound m : preserves framed (scandir (X:=X) w fd bound m).
Proof. apply preserves_bind; [apply frame_src|intros names]. apply preserves_bind; [apply frame_lift|intros _; apply frame_ret]. Qed.

Lemma frame_unlink p : ~ K p -> preserves framed (unlink_dir (X:=X) w p).
Proof.
  intros Hp s [Hc HK]. unfold unlink_dir, dcall. destruct (dst_fails w (clk s)); [done|]. destruct (_ && _) eqn:E; [|done]. unfold framed. cbn [fst dst].
  apply andb_true_iff in E as [_ E]. apply negb_true_iff in E. split.
  - intros q x H. assert (q ++ [x] <> p) as Hne by (intros <-; rewrite lookup_delete_eq in H; by destruct H).
    rewrite lookup_delete_ne in H by done. pose proof (Hc q x H) as Hq. unfold is_directory in *.
    rewrite lookup_delete_ne; [done|]. intros ->. apply not_true_iff_false in E. apply E. apply existsb_exists. exists (q ++ [x]). split.
    + destruct H as [n Hn]. apply list_elem_of_In, list_elem_of_fmap. exists (q ++ [x], n). split; [done|]. by apply elem_of_map_to_list.
    + rewrite (bool_decide_eq_false_2 (q ++ [x] = q)) by done. rewrite andb_true_r. apply below_parts. by eexists.
  - intros q Hq. rewrite <- HK by done. apply lookup_delete_ne. by intros ->.
Qed.

Lemma frame_try {A} (m : eff (st X) A) caught h : preserves framed m -> (forall e, preserves framed (h e)) -> preserves framed (etry m caught h).
Proof.
  intros Hm Hh s Hs. specialize (Hm s Hs). unfold etry. destruct (m s) as [s1 [a|e]]; [done|]. destruct (caught e); [by apply Hh|done].
Qed.

Lemma frame_look {A} (f : dtree -> option A) : preserves framed (dcall (X:=X) w (fun t => (t, f t))).
Proof. intros s Hs. unfold dcall. by destruct (dst_fails w (clk s)). Qed.
End Frame.
(** ** Manifests and trees *)

(** The entries of a manifest with the bytes of its files. *)
Abbreviation content := (item * bytes)%type.

(** The bytes of the files. *)
Definition sizes (l : list content) : Z := foldr Z.add 0%Z (item_size <$> l.*1).
Lemma sizes_app l l' : sizes (l ++ l') = (sizes l + sizes l')%Z.
Proof. unfold sizes. rewrite !fmap_app, foldr_app. induction l.*1 as [|x m IH]; cbn; [done|]. rewrite IH. lia. Qed.

(** Where an entry lies below a destination. *)
Definition key (base : list pystr) (i : item) : list pystr := base ++ split_on 47 (item_path i).

Section Covers.
(** What must lie at the place of an entry. *)
Context (sealed : dnode -> content -> Prop).

(** In the region [R] the tree is what the entries say, and nothing else. *)
Definition covers (base : list pystr) (R : list pystr -> Prop) (t : dtree) (l : list content) : Prop :=
  (forall c, c ∈ l -> R (key base c.1) /\ exists n, t !! key base c.1 = Some n /\ sealed n c) /\
  (forall q, R q -> is_Some (t !! q) -> exists c, c ∈ l /\ key base c.1 = q) /\
  NoDup (key base <$> l.*1).

Lemma covers_nil base (R : list pystr -> Prop) t : (forall q, R q -> t !! q = None) -> covers base R t [].
Proof.
  intros H. split_and!; [by intros c ?%elem_of_nil| |constructor]. intros q Hq [n Hn]. by rewrite H in Hn.
Qed.

Lemma covers_add base (R : list pystr -> Prop) (T : list pystr -> bool) t t' l l' :
  covers base R t l -> (forall q, T q = true -> R q /\ t !! q = None) -> (forall q, T q = false -> t' !! q = t !! q) ->
  covers base (fun q => T q = true) t' l' -> covers base R t' (l ++ l').
Proof.
  intros (H1 & H2 & H3) HT Hsame (H1' & H2' & H3'). assert (forall c, c ∈ l -> T (key base c.1) = false) as Hout.
  { intros c Hc. apply not_true_iff_false. intros HTc. destruct (H1 c Hc) as [_ (n & Hn & _)]. apply HT in HTc as [_ HN]. by rewrite HN in Hn. }
  split_and!.
  - intros c [Hc|Hc]%elem_of_app; [|destruct (H1' c Hc) as [HR Hn]; split; [by apply HT|done]].
    destruct (H1 c Hc) as [HR Hn]. split; [done|]. by rewrite Hsame by by apply Hout.
  - intros q Hq Hs. destruct (T q) eqn:E.
    + destruct (H2' q E Hs) as (c & Hc & E'). exists c. split; [apply elem_of_app; by right|done].
    + rewrite Hsame in Hs by done. destruct (H2 q Hq Hs) as (c & Hc & E'). exists c. split; [apply elem_of_app; by left|done].
  - rewrite !fmap_app. apply list.NoDup_app. split_and!; [done| |done]. intros q (i & -> & (c & -> & Hc)%list_elem_of_fmap)%list_elem_of_fmap.
    intros (i & E & (c' & -> & Hc')%list_elem_of_fmap)%list_elem_of_fmap. destruct (H1' c' Hc') as [HT' _]. rewrite <- E, Hout in HT' by done. done.
Qed.

End Covers.

Definition strictly (p q : list pystr) : bool := below p q && negb (bool_decide (q = p)).
Lemma strictly_spec p q : strictly p q = true <-> below p q = true /\ q <> p.
Proof. unfold strictly. by rewrite andb_true_iff, negb_true_iff, bool_decide_eq_false. Qed.

Lemma key_join base ps i : ps <> [] -> Forall good_name ps -> item_path i = join_with 47 ps -> key base i = base ++ ps.
Proof. intros Hne H E. unfold key. by rewrite E, split_path. Qed.

Lemma strictly_child out x q : below (out ++ [x]) q = true -> strictly out q = true.
Proof. intros H. apply strictly_spec. by apply below_snoc in H. Qed.

(** ** The reference: what a source that does not change holds *)
Section Reference.
Context (r_info : Z -> option stat_result) (r_entry : Z -> pystr -> option Z) (r_list : Z -> option (list pystr)) (r_chunks : Z -> option (list bytes)).

Definition gather {A B} (f : A -> option (list B)) (l : list A) : option (list B) :=
  foldr (fun x acc => match f x, acc with Some a, Some b => Some (a ++ b) | _, _ => None end) (Some []) l.

Definition file_content (rel : pystr) (r : stat_result) (l : list bytes) : content :=
  (IFile rel (zlen (concat l)) (sha256_hex (concat l)) (executable_perm (f_perm r)), concat l).

Definition entry_contents (rec : Z -> pystr -> option (list content)) (fd : Z) (relative name : pystr) : option (list content) :=
  match r_entry fd name with
  | Some i => match r_info i with
              | Some r => let rel := child_path relative name in
                          if is_kind Dir r then cons (IDir rel, []) <$> rec i rel
                          else if is_kind Reg r && (f_nlink r =? 1)%Z then match r_chunks i with Some l => Some [file_content rel r l] | None => None end
                          else None
              | None => None
              end
  | None => None
  end.

(** The contents of a directory, names in order. *)
Fixpoint dir_contents (fuel : nat) (fd : Z) (relative : pystr) : option (list content) :=
  match fuel with
  | O => None
  | S fuel => match r_list fd with
              | Some names => gather (entry_contents (dir_contents fuel) fd relative) (sort_names names)
              | None => None
              end
  end.

Fixpoint find_dir (fd : Z) (parts : list pystr) : option Z :=
  match parts with [] => Some fd | part :: rest => match r_entry fd part with Some i => find_dir i rest | None => None end end.

(** The source stands still. *)
Definition still (w : world) : Prop := forall n,
  (forall i, info w n i = r_info i) /\ (forall i x, entry w n i x = r_entry i x) /\
  (forall i, listing w n i = r_list i) /\ (forall i, chunks w n i = r_chunks i).
End Reference.

Lemma descent_Ok {X : Type} (w : world) r_info r_entry r_list r_chunks fd parts (s s' : st X) fd' :
  walk w fd parts s = (s', Ok fd') -> looked s s' /\ (still r_info r_entry r_list r_chunks w -> find_dir r_entry fd parts = Some fd').
Proof.
  revert fd s. induction parts as [|part parts IH]; cbn [walk]; intros fd s H; [by injection H as <- <-|].
  apply ebind_Ok in H as (s1 & nxt & Ho & H). apply src_Ok in Ho as [Ho L1]. apply IH in H as [L2 Hf]. split; [by eapply looked_trans|].
  intros Hs. cbn. destruct (entry w (clk s) fd part) as [i|] eqn:He; [|done]. destruct (info w (clk s) i) as [r|]; [|done].
  destruct (is_kind Dir r); [|done]. injection Ho as ->. destruct (Hs (clk s)) as (_ & Hen & _ & _). rewrite <- Hen, He. by apply Hf.
Qed.

(** Going through a computation call by call; [known] closes what it knows. *)
Ltac frames_using known := repeat first
  [known|apply preserves_bind; [|intros ?]|apply frame_src|apply frame_put|apply frame_get|apply frame_ret|apply frame_raise|apply frame_scandir
  |apply frame_make; by rewrite ?not_false_iff_true|apply frame_update; [by rewrite ?not_false_iff_true|done]
  |apply frame_unlink; by rewrite ?not_false_iff_true|apply frame_look|apply frame_try; [|intros ?]
  |apply frame_lift|apply frame_walk|case_match].

(** Undoing a copy. *)
Lemma undone {X : Type} (w : world) (t0 : dtree) (out : list pystr) (s s1 : st X) u :
  closed t0 -> t0 !! out = None -> framed t0 (fun q => below out q = false) s ->
  remove_snapshot w out s = (s1, Ok u) -> dst s1 = t0.
Proof.
  intros Hc Hn [Hc1 HK] H. apply map_eq. intros q. destruct (below out q) eqn:Hq.
  - rewrite (closed_none t0 out q) by done. unfold remove_snapshot in H. destruct (dst s !! out) as [n|] eqn:E.
    + destruct (dst_fails w (clk s)); [done|]. injection H as <- _. apply map_lookup_filter_None. right. intros m _. cbn. by rewrite Hq.
    + injection H as <- _. by apply (closed_none _ out).
  - rewrite <- HK by done. unfold remove_snapshot in H. destruct (dst s !! out) as [n|]; [|by injection H as <- _].
    destruct (dst_fails w (clk s)); [done|]. injection H as <- _. cbn. destruct (dst s !! q) as [m|] eqn:E.
    + by apply map_lookup_filter_Some.
    + by apply map_lookup_filter_None; left.
Qed.
End copying.
