(* ===== verification/Snapshot.v ===== *)
(** * Snapshots of a submission ([supervisor/mirrorgate/artifacts.py])

    [freeze_tree] copies a directory into one the supervisor owns, with a
    manifest and its digest. *)

From Stdlib Require Import ZArith Lia.
From stdpp Require Import base list gmap strings numbers.
From S2P Require Import Prelude PyJson JsonText Canonical Effects Paths Copying.
#[local] Open Scope res_scope.
#[local] Open Scope eff_scope.

Module snapshot.
Import paths copying.

Record progress : Type := Progress { entries : list item; total : Z }.
Record FrozenArtifact : Type := Frozen { a_path : list pystr; a_digest : pystr; a_manifest : list item }.

Definition add_entry (i : item) (p : progress) : progress := Progress (entries p ++ [i]) (total p).
Definition add_total (n : Z) (p : progress) : progress := Progress (entries p) (total p + n).

Section Freeze.
Context (w : world) (lstat : path -> res stat_info) (cwd : list pystr) (max_files max_bytes : Z).
Abbreviation snap := (eff (st progress)).

Definition names_in (fd : Z) : snap (list pystr) := scandir w fd max_files "artifact directory has too many entries".

(** Writing what was read, chunk by chunk, under the byte limit. *)
Definition copy_chunk (target : list pystr) (chunk : bytes) : snap unit :=
  put (add_total (zlen chunk)) ;;*
  let* p := get in
  eguard (max_bytes <? total p)%Z (AdmissionError "artifact exceeds snapshot byte limit") ;;*
  write w target chunk.

(** The verifying read stops when the file turned out to be longer. *)
Fixpoint verify (size limit : Z) (l : list bytes) : res unit :=
  match l with
  | [] => Ok tt
  | chunk :: l => raise_if (limit <? size + zlen chunk)%Z (AdmissionError "artifact changed during verification") ;; verify (size + zlen chunk) limit l
  end.

Definition copy_file (fd : Z) (name : pystr) (target : list pystr) (rel : pystr) (info : stat_result) : snap unit :=
  let* item := open_file w fd name in
  let* opened := fstat w item in
  eguard (negb (same_file info opened) || negb (is_kind Reg opened) || negb (f_nlink opened =? 1)%Z)
    (AdmissionError "artifact file changed during snapshot") ;;*
  let* p := get in
  eguard (max_bytes <? f_size opened + total p)%Z (AdmissionError "artifact exceeds snapshot byte limit") ;;*
  let* fresh := make w target false 420 in
  eguard (negb fresh) OSError ;;*
  let* data := read_all w item in
  efor (copy_chunk target) data ;;*
  let* again := fstat w item in
  let size := zlen (concat data) in
  eguard (negb (same_file opened again) || negb (size =? f_size opened)%Z) (AdmissionError "artifact file changed during copying") ;;*
  let* second := read_all w item in
  elift (verify 0 (f_size opened) second) ;;*
  let digest := sha256_hex (concat data) in
  let* last := (if bool_decide (sha256_hex (concat second) = digest) then fstat w item else eret opened) in
  eguard (negb (bool_decide (sha256_hex (concat second) = digest)) || negb (same_file opened last))
    (AdmissionError "artifact changed during verification") ;;*
  let executable := executable_perm (f_perm opened) in
  chmod w target (if executable then 320 else 256) ;;*
  put (add_entry (IFile rel size digest executable)).

Definition checked_name (name : pystr) : snap unit :=
  eguard (bool_decide (name ∈ [DOT; DOTDOT]) || bool_decide (47%N ∈ name) || bool_decide (0%N ∈ name)) (AdmissionError "invalid artifact name") ;;*
  eguard (bool_decide (utf8_encode name = None)) (AdmissionError "artifact names must be UTF-8").

(** One name of a directory; [descend] copies a directory below it. *)
Definition copy_entry (descend : Z -> list pystr -> pystr -> snap unit) (fd : Z) (out : list pystr) (relative name : pystr) : snap unit :=
  checked_name name ;;*
  let* p := get in
  eguard (max_files <=? zlen (entries p))%Z (AdmissionError "artifact has too many entries") ;;*
  let* info := stat_at w fd name in
  let rel := child_path relative name in
  let target := out ++ [name] in
  if is_kind Dir info then
    let* child := open_dir w fd name in
    let* opened := fstat w child in
    eguard (negb (same_file info opened)) (AdmissionError "artifact directory changed during snapshot") ;;*
    let* fresh := make w target true 448 in
    eguard (negb fresh) OSError ;;*
    put (add_entry (IDir rel)) ;;*
    descend child target rel ;;*
    chmod w target 320
  else if is_kind Reg info && (f_nlink info =? 1)%Z then copy_file fd name target rel info
  else eraise (AdmissionError "artifacts contain regular unlinked files and directories only").

Definition MAX_DEPTH : Z := 64.

(** [fuel] bounds the nesting; the depth does so before it runs out. *)
Fixpoint copy_dir (fuel : nat) (depth : Z) (fd : Z) (out : list pystr) (relative : pystr) : snap unit :=
  match fuel with
  | O => eraise RecursionError
  | S fuel =>
    eguard (MAX_DEPTH <? depth)%Z (AdmissionError "artifact directory nesting exceeds 64 levels") ;;*
    let* before := fstat w fd in
    let* names := names_in fd in
    efor (copy_entry (copy_dir fuel (depth + 1)) fd out relative) names ;;*
    let* after := fstat w fd in
    eguard (negb (same_file before after)) (AdmissionError "artifact directory changed during copying") ;;*
    let* now := names_in fd in
    eguard (negb (bool_decide (names = now))) (AdmissionError "artifact directory changed during copying")
  end.
Definition FUEL : nat := 66.

Definition is_value_error (e : exn) : bool := match e with AdmissionError _ | ValueError | UnicodeError => true | _ => false end.

(** The body of the [try]. *)
Definition copy_tree (source_path : path) (out : list pystr) : snap FrozenArtifact :=
  let* fd := walk w (root_inode w) (tail source_path) in
  copy_dir FUEL 0 fd out [] ;;*
  let* p := get in
  let* digest := elift (manifest_sha256 (entries p)) in
  chmod w out 320 ;;*
  eret (Frozen out digest (entries p)).

(** [parent] is the directory the destination lies in. *)
Definition freeze_tree (source owned_parent : path) (destination : pystr) : snap FrozenArtifact :=
  let* source_path := elift (checked_directory lstat cwd source) in
  let* parent := elift (checked_directory lstat cwd owned_parent) in
  eguard (overlap source_path parent) (AdmissionError "snapshot parent must be separate from the source tree") ;;*
  eguard (negb (starts_with "artifact-" destination) || bool_decide (47%N ∈ destination)) (AdmissionError "invalid artifact destination") ;;*
  let out := [destination] in
  let* fresh := make w out true 448 in
  eguard (negb fresh) OSError ;;*
  put (fun _ => Progress [] 0) ;;*
  etry (copy_tree source_path out)
    (fun e => is_os_error e || is_value_error e)
    (fun e => remove_snapshot w out ;;*
              eraise match e with AdmissionError m => AdmissionError m | _ => AdmissionError "artifact could not be safely snapshotted" end).
End Freeze.

(** ** Failing *)
Section Failing.
Context (w : world) (lstat : path -> res stat_info) (cwd : list pystr) (max_files max_bytes : Z).

Ltac frames := frames_using fail.

Section Below.
Context (t0 : dtree) (top : list pystr).
#[local] Abbreviation kept := (framed (X:=progress) t0 (fun q => below top q = false)).

Lemma frame_chunk target chunk : below top target = true -> preserves kept (copy_chunk w max_bytes target chunk).
Proof. intros H. unfold copy_chunk, eguard, write. frames. Qed.

Lemma frame_file fd name target rel i : below top target = true -> preserves kept (copy_file w max_bytes fd name target rel i).
Proof.
  intros H. unfold copy_file, eguard, chmod, open_file, fstat, read_all.
  frames_using ltac:(apply frame_efor; intros chunk; by apply frame_chunk).
Qed.

Lemma frame_entry descend fd out relative name : below top out = true ->
  (forall child o rel, below top o = true -> preserves kept (descend child o rel)) ->
  preserves kept (copy_entry w max_files max_bytes descend fd out relative name).
Proof.
  intros H Hd. assert (below top (out ++ [name]) = true) as Ht. { eapply below_trans; [exact H|]. apply below_parts. by eexists. }
  unfold copy_entry, checked_name, eguard, chmod, stat_at, open_dir, fstat.
  frames_using ltac:(first [by apply frame_file|by apply Hd]).
Qed.

Lemma frame_dir fuel : forall depth fd out relative, below top out = true -> preserves kept (copy_dir w max_files max_bytes fuel depth fd out relative).
Proof.
  induction fuel as [|fuel IH]; intros depth fd out relative H; cbn [copy_dir]; [apply frame_raise|].
  unfold eguard, fstat, names_in. frames_using ltac:(apply frame_efor; intros name; apply frame_entry; [done|]; intros; by apply IH).
Qed.
End Below.

(** Everything the copy raises is handled: the depth runs out before the fuel. *)
Definition handled (e : exn) : bool := is_os_error e || is_value_error e.
Definition raises_handled {A} (m : eff (st progress) A) : Prop := forall s, match (m s).2 with Err e => handled e = true | Ok _ => True end.
Lemma rh_bind {A B} (m : eff (st progress) A) (f : A -> eff (st progress) B) :
  raises_handled m -> (forall a, raises_handled (f a)) -> raises_handled (ebind m f).
Proof. intros Hm Hf s. specialize (Hm s). unfold ebind. destruct (m s) as [s' [a|e]]; [apply Hf|done]. Qed.
Lemma rh_src {A} (f : nat -> option A) : raises_handled (src f).
Proof. intros s. unfold src. by destruct (f (clk s)). Qed.
Lemma rh_guard cond e : handled e = true -> raises_handled (eguard cond e).
Proof. intros H s. by destruct cond. Qed.
Lemma rh_ret {A} (a : A) : raises_handled (eret a).
Proof. by intros s. Qed.
Lemma rh_put f : raises_handled (put f).
Proof. by intros s. Qed.
Lemma rh_get : raises_handled get.
Proof. by intros s. Qed.
Lemma rh_raise {A} e : handled e = true -> raises_handled (eraise (A:=A) e).
Proof. intros H s. exact H. Qed.
Lemma rh_make p dir perm : raises_handled (make w p dir perm).
Proof. intros s. unfold make, dcall. destruct (dst_fails w (clk s)); [done|]. destruct (negb _); [done|]. by destruct (dst s !! p). Qed.
Lemma rh_update p f : raises_handled (update w p f).
Proof. intros s. unfold update, dcall. destruct (dst_fails w (clk s)); [done|]. by destruct (dst s !! p). Qed.
Lemma rh_efor {A} (body : A -> eff (st progress) unit) l : (forall x, raises_handled (body x)) -> raises_handled (efor body l).
Proof. intros H. induction l as [|x l IH]; [apply rh_ret|]. cbn. by apply rh_bind. Qed.

Lemma rh_verify size limit l : raises_handled (elift (verify size limit l)).
Proof.
  intros s. cbn. revert size. induction l as [|c l IH]; intros size; [done|]. cbn. unfold raise_if.
  destruct (limit <? size + zlen c)%Z; [done|apply IH].
Qed.

Ltac rh_using known := repeat first
  [known|apply rh_bind; [|intros ?]|apply rh_src|apply rh_guard; reflexivity|apply rh_ret|apply rh_put|apply rh_get|apply rh_raise; reflexivity|apply rh_make|apply rh_update
  |apply rh_verify|apply rh_efor; intros ?|case_match].

Lemma rh_walk fd parts : raises_handled (walk w fd parts).
Proof. revert fd. induction parts as [|part parts IH]; intros fd; [apply rh_ret|]. apply rh_bind; [apply rh_src|done]. Qed.

Lemma rh_chunk target chunk : raises_handled (copy_chunk w max_bytes target chunk).
Proof. unfold copy_chunk, write. rh_using fail. Qed.
Lemma rh_file fd name target rel i : raises_handled (copy_file w max_bytes fd name target rel i).
Proof. unfold copy_file, chmod, open_file, fstat, read_all. rh_using ltac:(apply rh_chunk). Qed.
Lemma rh_entry descend fd out relative name : (forall child o rel, raises_handled (descend child o rel)) ->
  raises_handled (copy_entry w max_files max_bytes descend fd out relative name).
Proof.
  intros H. unfold copy_entry, checked_name, chmod, stat_at, open_dir, fstat. rh_using ltac:(first [apply rh_file|apply H]).
Qed.

Lemma rh_dir fuel : forall depth fd out relative, (66 <= depth + Z.of_nat fuel)%Z -> (depth <= 65)%Z ->
  raises_handled (copy_dir w max_files max_bytes fuel depth fd out relative).
Proof.
  induction fuel as [|fuel IH]; intros depth fd out relative Hf Hd; [lia|]. cbn [copy_dir].
  destruct (Z.ltb_spec MAX_DEPTH depth) as [H|H]; unfold MAX_DEPTH in H; [by intros s|].
  unfold fstat, names_in, scandir. rh_using ltac:(apply rh_entry; intros; apply IH; lia).
Qed.

Lemma rh_body source_path out : raises_handled (copy_tree w max_files max_bytes source_path out).
Proof.
  unfold copy_tree. apply rh_bind; [apply rh_walk|intros fd]. apply rh_bind; [by apply rh_dir|intros _].
  apply rh_bind; [by intros s|intros p]. apply rh_bind; [|intros digest; unfold chmod; rh_using fail].
  intros s. unfold manifest_sha256, from_option_res. cbn. by destruct (utf8_encode _).
Qed.

Lemma frame_body t0 source_path out : preserves (framed t0 (fun q => below out q = false)) (copy_tree w max_files max_bytes source_path out).
Proof.
  pose proof (below_refl out). unfold copy_tree, chmod. frames_using ltac:(by apply frame_dir).
Qed.

(** C37: a snapshot is all or nothing.  When [freeze_tree] refuses, the directory
    it copies into is as it was; the only other failure it can end with is that
    of a system call that made the directory or removed what was copied. *)
Theorem refused_leaves_nothing source parent name s s' e :
  closed (dst s) -> (forall p e, lstat p = Err e -> unavailable e = true) ->
  freeze_tree w lstat cwd max_files max_bytes source parent name s = (s', Err e) ->
  is_os_error e = true \/ exists m, e = AdmissionError m /\ dst s' = dst s.
Proof.
  intros Hc Hl H. unfold freeze_tree in H.
  assert (forall raw e, checked_directory lstat cwd raw = Err e -> exists m, e = AdmissionError m) as Hcd.
  { clear H. intros raw e0. unfold checked_directory, raise_if. case_match; [by intros [= <-]; eexists|]. cbn.
    generalize SLASH. induction (tail (abspath cwd raw)) as [|x l IH]; intros c; [done|]. cbn. unfold try_except.
    destruct (lstat (join_part c x)) as [i|e1] eqn:E; cbn.
    - unfold raise_if. destruct (negb (S_ISDIR i)); [by intros [= <-]; eexists|]. apply IH.
    - rewrite (Hl _ _ E). cbn. intros [= <-]. by eexists. }
  rewrite ebind_lift in H. destruct (checked_directory lstat cwd source) as [src_p|e1] eqn:E1.
  2:{ injection H as <- <-. destruct (Hcd _ _ E1) as [m ->]. right. by exists m. }
  rewrite ebind_lift in H. destruct (checked_directory lstat cwd parent) as [par_p|e1] eqn:E2.
  2:{ injection H as <- <-. destruct (Hcd _ _ E2) as [m ->]. right. by exists m. }
  rewrite ebind_guard in H. destruct (overlap src_p par_p); [injection H as <- <-; right; by eexists|].
  rewrite ebind_guard in H. destruct (negb _ || _); [injection H as <- <-; right; by eexists|].
  unfold ebind at 1 in H. destruct (make w [name] true 448 s) as [s1 [fresh|e1]] eqn:Hm.
  2:{ left. injection H as <- <-. pose proof (rh_make [name] true 448 s) as Hr. rewrite Hm in Hr. revert Hm. unfold make, dcall.
      destruct (dst_fails w (clk s)); [by intros [= _ <-]|]. destruct (negb _); [by intros [= _ <-]|]. by destruct (dst s !! [name]). }
  rewrite ebind_guard in H. destruct fresh; [|by injection H as <- <-; left]. cbn [negb] in H.
  assert (framed (dst s) (fun q => below [name] q = false) s1) as Hf.
  { pose proof (frame_make (X:=progress) w (dst s) (fun q => below [name] q = false) [name] true 448) as Hp. specialize (Hp ltac:(cbn beta; rewrite below_refl; discriminate) s).
    rewrite Hm in Hp. by apply Hp. }
  pose proof (make_Ok _ _ _ _ _ _ Hm) as (Hnone & _).
  unfold ebind at 1, put in H. set (s2 := St (clk s1) (dst s1) (inodes s1) (Progress [] 0)) in H.
  assert (framed (dst s) (fun q => below [name] q = false) (copy_tree w max_files max_bytes src_p [name] s2).1) as Hf2 by by apply frame_body.
  pose proof (rh_body src_p [name] s2) as Hr. unfold etry in H. destruct (copy_tree w max_files max_bytes src_p [name] s2) as [s3 [a|e1]]; [done|]. cbn in Hr, Hf2.
  unfold handled in Hr. rewrite Hr in H. unfold ebind in H. destruct (remove_snapshot w [name] s3) as [s4 [u|e2]] eqn:Hrm.
  - right. assert (dst s4 = dst s) as Hd by exact (undone _ _ _ _ _ _ Hc Hnone Hf2 Hrm). destruct e1; injection H as <- <-; (eexists; split; [reflexivity|exact Hd]).
  - left. injection H as <- <-. unfold remove_snapshot in Hrm. destruct (dst s3 !! [name]); [|done].
    destruct (dst_fails w (clk s3)); [|done]. by injection Hrm as _ <-.
Qed.
End Failing.

(** ** What a snapshot holds *)

(** What must lie at the place of an entry. *)
Definition sealed (n : dnode) (c : content) : Prop :=
  match c.1 with
  | IDir _ => d_dir n = true /\ d_perm n = 320%Z
  | IFile _ size sha x =>
    d_dir n = false /\ d_perm n = (if x then 320 else 256)%Z /\ d_data n = c.2 /\ size = zlen c.2 /\ sha = sha256_hex c.2
  end.

(** ** The copy *)
Section Faithful.
Context (w : world) (lstat : path -> res stat_info) (cwd : list pystr) (max_files max_bytes : Z).
(** The system never lists an empty name. *)
Hypothesis Hnames : forall n fd l, listing w n fd = Some l -> [] ∉ l.
Context (r_info : Z -> option stat_result) (r_entry : Z -> pystr -> option Z) (r_list : Z -> option (list pystr)) (r_chunks : Z -> option (list bytes)).
Implicit Types s : st progress.
#[local] Abbreviation covers := (covers sealed).
#[local] Abbreviation still := (still r_info r_entry r_list r_chunks w).
#[local] Opaque sha256_hex.

(** The manifest grew by some entries, within the bounds. *)
Definition grew (l : list content) s s' : Prop :=
  entries (ext s') = entries (ext s) ++ l.*1 /\ total (ext s') = (total (ext s) + sizes l)%Z /\
  (zlen (entries (ext s)) <= max_files -> zlen (entries (ext s')) <= max_files)%Z /\
  (total (ext s) <= max_bytes -> total (ext s') <= max_bytes)%Z.

Lemma grew_nil s s' : ext s' = ext s -> grew [] s s'.
Proof. intros E. unfold grew. rewrite E. cbn. rewrite app_nil_r. split_and!; [done|lia|done|done]. Qed.
Lemma grew_trans l l' s1 s2 s3 : grew l s1 s2 -> grew l' s2 s3 -> grew (l ++ l') s1 s3.
Proof.
  intros (E1 & T1 & F1 & B1) (E2 & T2 & F2 & B2). unfold grew. rewrite E2, T2, E1, T1, fmap_app, sizes_app, app_assoc.
  split_and!; [done|lia| |]; intros H; [rewrite <- E1, <- E2|rewrite <- T1, <- T2]; auto.
Qed.
Lemma grew_looked l s s0 s' : looked s s0 -> grew l s0 s' -> grew l s s'.
Proof. intros [_ E]. unfold grew. by rewrite E. Qed.

Lemma chunks_Ok target l s s' u n : efor (copy_chunk w max_bytes target) l s = (s', Ok u) -> dst s !! target = Some n ->
  dst s' = <[target := DNode (d_dir n) (d_ino n) (d_perm n) (d_data n ++ concat l)]> (dst s) /\
  entries (ext s') = entries (ext s) /\ total (ext s') = (total (ext s) + zlen (concat l))%Z /\
  (total (ext s) <= max_bytes -> total (ext s') <= max_bytes)%Z.
Proof.
  revert s n. induction l as [|c l IH]; cbn [efor]; intros s n H Hn.
  { injection H as <- _. cbn. rewrite app_nil_r, insert_id by (rewrite Hn; by destruct n). split_and!; [done|done|unfold zlen; cbn; lia|done]. }
  apply ebind_Ok in H as (s1 & u1 & H1 & H). apply ebind_Ok in H1 as (s2 & u2 & Hp & H1). injection Hp as <- _.
  apply ebind_Ok in H1 as (s3 & p & Hg & H1). apply get_Ok in Hg as [-> ->]. apply ebind_Ok in H1 as (s4 & u4 & Hgd & H1).
  apply eguard_Ok in Hgd as [Hle ->]. apply update_Ok in H1 as (n1 & Hn1 & He & Hd). cbn in Hn1, He, Hd, Hle. rewrite Hn in Hn1. injection Hn1 as <-.
  eapply IH in H as (Hd' & He' & Ht' & Hb'); [|rewrite Hd; apply lookup_insert_eq]. cbn in *. rewrite Hd, insert_insert_eq in Hd'.
  rewrite Hd', He', Ht', He. cbn. rewrite <- app_assoc. split_and!; [done|done|unfold zlen; rewrite length_app; lia|].
  intros _. rewrite He in Hb'. cbn in Hb'. rewrite Ht', He in Hb'. cbn in Hb'. apply Hb'. apply Z.ltb_ge in Hle. lia.
Qed.

(** A file that was copied: what was read is what lies at its place. *)
Lemma file_Ok fd name target rel i s s' u : copy_file w max_bytes fd name target rel i s = (s', Ok u) ->
  (zlen (entries (ext s)) < max_files)%Z ->
  exists n1 n2 n3 inode opened l n,
    entry w n1 fd name = Some inode /\ info w n2 inode = Some opened /\ chunks w n3 inode = Some l /\
    is_kind Reg opened = true /\ f_nlink opened = 1%Z /\ same_file i opened = true /\
    dst s !! target = None /\ is_directory (dst s) (removelast target) = true /\
    dst s' = <[target := n]> (dst s) /\ d_dir n = false /\ sealed n (file_content rel opened l) /\ grew [file_content rel opened l] s s'.
Proof.
  intros H Hlt. apply ebind_Ok in H as (s1 & inode & Ho & H). apply src_Ok in Ho as [Hopen L1].
  destruct (entry w (clk s) fd name) as [inode'|] eqn:Hentry; [|done]. destruct (info w (clk s) inode') as [r0|]; [|done].
  destruct (is_kind Lnk r0); [done|]. injection Hopen as ->.
  apply ebind_Ok in H as (s2 & opened & Hf & H). apply src_Ok in Hf as [Hinfo L2].
  apply ebind_Ok in H as (s3 & u3 & Hg & H). apply eguard_Ok in Hg as [Hsame ->]. apply orb_false_iff in Hsame as [Hsame Hnl].
  apply orb_false_iff in Hsame as [Hsame Hreg]. apply negb_false_iff in Hsame, Hreg, Hnl. apply Z.eqb_eq in Hnl.
  apply ebind_Ok in H as (s4 & p & Hg & H). apply get_Ok in Hg as [-> ->].
  apply ebind_Ok in H as (s5 & u5 & Hg & H). apply eguard_Ok in Hg as [_ ->].
  apply ebind_Ok in H as (s6 & fresh & Hm & H). apply ebind_Ok in H as (s7 & u7 & Hg & H). apply eguard_Ok in Hg as [Hfr ->].
  apply negb_false_iff in Hfr as ->. apply make_Ok in Hm as (Hnone & Hdir & He6 & Hd6).
  apply ebind_Ok in H as (s8 & l & Hr & H). apply src_Ok in Hr as [Hl [Ld8 Le8]].
  apply ebind_Ok in H as (s9 & u9 & Hc & H). apply chunks_Ok with (n := DNode false (inodes s2) 420 []) in Hc as (Hd9 & He9 & Ht9 & Hb9);
    [|rewrite Ld8, Hd6; apply lookup_insert_eq].
  apply ebind_Ok in H as (s10 & again & Hf & H). apply src_Ok in Hf as [_ [Ld10 Le10]].
  apply ebind_Ok in H as (s11 & u11 & Hg & H). apply eguard_Ok in Hg as [_ ->].
  apply ebind_Ok in H as (s12 & second & Hr & H). apply src_Ok in Hr as [_ [Ld12 Le12]].
  apply ebind_Ok in H as (s13 & u13 & Hv & H). injection Hv as <- _.
  apply ebind_Ok in H as (s14 & last & Hla & H). assert (looked s12 s14) as [Ld14 Le14].
  { case_bool_decide; [by apply src_Ok in Hla as [_ ?]|]. by injection Hla as <- _. }
  apply ebind_Ok in H as (s15 & u15 & Hg & H). apply eguard_Ok in Hg as [_ ->].
  apply ebind_Ok in H as (s16 & u16 & Hch & H). apply update_Ok in Hch as (n & Hn & He16 & Hd16). injection H as <- _.
  destruct L1 as [Ld1 Le1], L2 as [Ld2 Le2].
  rewrite Ld14, Ld12, Ld10, Hd9, lookup_insert_eq in Hn. injection Hn as <-. cbn [d_dir d_ino d_perm d_data app] in *.
  exists (clk s), (clk s1), (clk s6), inode, opened, l.
  eexists. split_and!; try done.
  - by rewrite <- Ld1, <- Ld2.
  - by rewrite <- Ld1, <- Ld2.
  - cbn. rewrite Hd16, Ld14, Ld12, Ld10, Hd9, Ld8, Hd6, Ld2, Ld1, !insert_insert_eq. reflexivity.
  - done.
  - unfold sealed. cbn. by split_and!.
  - assert (ext s14 = ext s9) as E14 by congruence. assert (ext s8 = ext s) as E8 by congruence.
    unfold grew, add_entry, sizes. cbn. rewrite He16, E14, He9, Ht9, E8. split_and!; [done|lia| |].
    + intros _. unfold zlen. rewrite length_app. cbn. unfold zlen in Hlt. lia.
    + intros Hb. rewrite <- E8 in Hb. apply Hb9 in Hb. rewrite Ht9, E8 in Hb. lia.
Qed.

(** What a part of the copy did: the entries [l] were added, and in the region
    [R] lies what they say; outside nothing changed. *)
Definition placed (base : list pystr) (R : list pystr -> bool) s s' (l : list content) : Prop :=
  grew l s s' /\ covers base (fun q => R q = true) (dst s') l /\ closed (dst s') /\ (forall q, R q = false -> dst s' !! q = dst s !! q).

Abbreviation reference := (dir_contents r_info r_entry r_list r_chunks).
Abbreviation reference_entry := (entry_contents r_info r_entry r_chunks).

(** A directory is copied into an empty one. *)
Definition copies (descend : Z -> list pystr -> pystr -> eff (st progress) unit) (rec : Z -> pystr -> option (list content)) : Prop :=
  forall base fd ps s s' u, Forall good_name ps -> descend fd (base ++ ps) (join_with 47 ps) s = (s', Ok u) ->
    closed (dst s) -> is_directory (dst s) (base ++ ps) = true -> (forall q, strictly (base ++ ps) q = true -> dst s !! q = None) ->
    exists l, placed base (strictly (base ++ ps)) s s' l /\ (still -> rec fd (join_with 47 ps) = Some l).

Lemma new_dir_covers base target rel t l ino :
  key base (IDir rel) = target -> covers base (fun q => strictly target q = true) t l -> t !! target = Some (DNode true ino 320 []) ->
  covers base (fun q => below target q = true) t ((IDir rel, []) :: l).
Proof.
  intros Hk (H1 & H2 & H3) Ht. split_and!.
  - intros c [->|Hc]%elem_of_cons.
    + cbn. rewrite Hk. split; [apply below_refl|]. eexists. split; [exact Ht|done].
    + destruct (H1 c Hc) as [HR Hn]. apply strictly_spec in HR as [HR _]. done.
  - intros q Hq Hs. destruct (decide (q = target)) as [->|Hne].
    + exists (IDir rel, []). split; [apply list_elem_of_here|done].
    + destruct (H2 q) as (c & Hc & E); [by apply strictly_spec|done|]. exists c. split; [by apply list_elem_of_further|done].
  - rewrite !fmap_cons. cbn. apply list.NoDup_cons. split; [|done]. rewrite Hk. intros (i & E & (c & -> & Hc)%list_elem_of_fmap)%list_elem_of_fmap.
    destruct (H1 c Hc) as [HR _]. apply strictly_spec in HR as [_ HR]. congruence.
Qed.

Lemma entry_Ok descend rec base fd ps name s s' u :
  copies descend rec -> Forall good_name ps -> name <> [] -> closed (dst s) ->
  copy_entry w max_files max_bytes descend fd (base ++ ps) (join_with 47 ps) name s = (s', Ok u) ->
  exists l, dst s !! (base ++ ps ++ [name]) = None /\ placed base (below (base ++ ps ++ [name])) s s' l /\
    (still -> reference_entry rec fd (join_with 47 ps) name = Some l).
Proof.
  intros Hdesc Hps Hne Hc H. apply ebind_Ok in H as (s1 & u1 & Hn & H). apply ebind_Ok in Hn as (s0 & u0 & Hn1 & Hn2).
  apply eguard_Ok in Hn1 as [Hn1 ->]. apply eguard_Ok in Hn2 as [Henc ->]. apply bool_decide_eq_false, encodes_scalars in Henc.
  apply orb_false_iff in Hn1 as [Hn1 _]. apply orb_false_iff in Hn1 as [_ Hslash]. apply bool_decide_eq_false in Hslash.
  assert (Forall good_name (ps ++ [name])) as Hps' by (apply Forall_app; split; [done|]; by repeat constructor).
  apply ebind_Ok in H as (s2 & p & Hg & H). apply get_Ok in Hg as [-> ->].
  apply ebind_Ok in H as (s3 & u3 & Hg & H). apply eguard_Ok in Hg as [Hlt ->]. apply Z.leb_gt in Hlt.
  apply ebind_Ok in H as (s4 & i & Hst & H). apply src_Ok in Hst as [Hst [Ld4 Le4]].
  destruct (entry w (clk s) fd name) as [inode|] eqn:Hentry; [|done]. cbn in Hst.
  rewrite child_path_join in H by done. rewrite <- app_assoc in H. set (target := base ++ ps ++ [name]) in *.
  assert (forall rel, item_path rel = join_with 47 (ps ++ [name]) -> key base rel = target) as Hkey.
  { intros rel E. apply key_join; [|done|done]. intros E'. by apply app_nil in E' as [_ ?]. }
  destruct (is_kind Dir i) eqn:Hkind.
  - apply ebind_Ok in H as (s5 & child & Ho & H). apply src_Ok in Ho as [Hopen [Ld5 Le5]].
    apply ebind_Ok in H as (s6 & opened & Hf & H). apply src_Ok in Hf as [Hf [Ld6 Le6]].
    apply ebind_Ok in H as (s7 & u7 & Hg & H). apply eguard_Ok in Hg as [Hsame ->].
    apply ebind_Ok in H as (s8 & fresh & Hm & H). apply ebind_Ok in H as (s9 & u9 & Hg & H). apply eguard_Ok in Hg as [Hfr ->].
    apply negb_false_iff in Hfr as ->. apply make_Ok in Hm as (Hnone & Hdir & He8 & Hd8). rewrite Ld6, Ld5, Ld4 in *.
    apply ebind_Ok in H as (s10 & u10 & Hp & H). injection Hp as <- _.
    apply ebind_Ok in H as (s11 & u11 & Hd & H). apply update_Ok in H as (n & Hn & He12 & Hd12).
    destruct (Hdesc base child (ps ++ [name]) _ _ _ Hps' Hd) as (l & (Hgrew & Hcov & Hcl & Hframe) & Href).
    { cbn. rewrite Hd8. apply closed_insert; [done|by left|]. intros x q E. by rewrite E, removelast_last in Hdir. }
    { cbn. rewrite Hd8. unfold is_directory. fold target. by rewrite lookup_insert_eq. }
    { cbn. rewrite Hd8. intros q [Hq Hne']%strictly_spec. fold target in Hq, Hne'. rewrite lookup_insert_ne by done. by eapply closed_none. }
    fold target in Hcov, Hframe. assert (strictly target target = false) as Hirr by (unfold strictly; by rewrite bool_decide_eq_true_2, andb_false_r).
    rewrite Hframe in Hn by done. cbn in Hn. rewrite Hd8, lookup_insert_eq in Hn. injection Hn as <-. cbn in Hd12.
    exists ((IDir (join_with 47 (ps ++ [name])), []) :: l). split_and!; [done|split_and!|].
    + change ((IDir (join_with 47 (ps ++ [name])), []) :: l) with ([(IDir (join_with 47 (ps ++ [name])), [])] ++ l : list content).
      eapply grew_trans; [|unfold grew; rewrite He12; exact Hgrew]. unfold grew, add_entry, sizes. cbn. rewrite He8, Le6, Le5, Le4.
      split_and!; [done|lia| |done]. intros _. unfold zlen in *. rewrite length_app. cbn. lia.
    + eapply new_dir_covers; [by apply Hkey| |by rewrite Hd12; apply lookup_insert_eq].
      destruct Hcov as (H1 & H2 & H3). split_and!; [| |done].
      * intros c Hcin. destruct (H1 c Hcin) as [HR Hn]. split; [done|]. apply strictly_spec in HR as [_ HR]. by rewrite Hd12, lookup_insert_ne.
      * intros q Hq. rewrite Hd12. pose proof (proj1 (strictly_spec _ _) Hq) as [_ Hqn]. rewrite lookup_insert_ne by done. by apply H2.
    + rewrite Hd12. apply closed_insert; [done|by left|]. intros x q E. apply (Hcl q x). rewrite <- E, Hframe by done. cbn. rewrite Hd8, lookup_insert_eq. done.
    + intros q Hq. rewrite Hd12. assert (q <> target) as Hqt by (intros ->; by rewrite below_refl in Hq).
      rewrite lookup_insert_ne by done. rewrite Hframe by (unfold strictly; by rewrite Hq). cbn. rewrite Hd8. by rewrite lookup_insert_ne.
    + intros Hstill. destruct (Hstill (clk s)) as (Hi & He & _ & _). unfold entry_contents. rewrite <- He, Hentry, <- Hi, Hst, Hkind, child_path_join by done.
      destruct (entry w (clk s4) fd name) as [child'|] eqn:Hentry'; [|done]. destruct (info w (clk s4) child') as [r0|]; [|done].
      destruct (is_kind Dir r0); [|done]. injection Hopen as ->. destruct (Hstill (clk s4)) as (_ & He' & _ & _). rewrite He', <- He, Hentry in Hentry'. injection Hentry' as <-.
      exact (f_equal (fmap (cons _)) (Href Hstill)).
  - destruct (is_kind Reg i && (f_nlink i =? 1)%Z) eqn:Hreg; [|done].
    apply file_Ok in H as (n1 & n2 & n3 & inode' & opened & l & n & He & Hi & Hl & Hro & Hno & Hsame & Hnone & Hdir & Hd & Hnd & Hsealed & Hgrew); [|by rewrite Le4].
    rewrite Ld4 in Hnone, Hdir, Hd.
    exists [file_content (join_with 47 (ps ++ [name])) opened l]. split_and!; [done|split_and!|].
    + eapply grew_looked; [|exact Hgrew]. done.
    + split_and!.
      * intros c ->%list_elem_of_singleton. rewrite Hkey by done. split; [apply below_refl|]. exists n. by rewrite Hd, lookup_insert_eq.
      * intros q Hq Hs. exists (file_content (join_with 47 (ps ++ [name])) opened l). split; [apply list_elem_of_here|]. rewrite Hkey by done.
        destruct (decide (q = target)) as [->|Hqt]; [done|]. rewrite Hd, lookup_insert_ne in Hs by done. rewrite (closed_none (dst s) target q) in Hs by done. by destruct Hs.
      * apply NoDup_singleton.
    + rewrite Hd. apply closed_insert; [done|by right; left|]. intros x q E. by rewrite E, removelast_last in Hdir.
    + intros q Hq. rewrite Hd. apply lookup_insert_ne. intros <-. by rewrite below_refl in Hq.
    + intros Hstill. destruct (Hstill (clk s)) as (Hi0 & He0 & _ & _). destruct (Hstill n1) as (_ & He1 & _ & _). destruct (Hstill n2) as (Hi1 & _ & _ & _).
      destruct (Hstill n3) as (_ & _ & _ & Hc3). rewrite He1, <- He0, Hentry in He. injection He as <-.
      unfold entry_contents. rewrite <- He0, Hentry, <- Hi0, Hst, Hkind, child_path_join by done. rewrite Hi1, <- Hi0, Hst in Hi. injection Hi as <-.
      cbn zeta. by rewrite Hreg, <- Hc3, Hl.
Qed.

(** The names of a directory, one after the other. *)
Lemma names_Ok descend rec base fd ps names old s s' u :
  copies descend rec -> Forall good_name ps -> [] ∉ names -> closed (dst s) -> is_directory (dst s) (base ++ ps) = true ->
  covers base (fun q => strictly (base ++ ps) q = true) (dst s) old ->
  efor (copy_entry w max_files max_bytes descend fd (base ++ ps) (join_with 47 ps)) names s = (s', Ok u) ->
  exists l, grew l s s' /\ covers base (fun q => strictly (base ++ ps) q = true) (dst s') (old ++ l) /\ closed (dst s') /\
    (forall q, strictly (base ++ ps) q = false -> dst s' !! q = dst s !! q) /\
    (still -> gather (reference_entry rec fd (join_with 47 ps)) names = Some l).
Proof.
  intros Hdesc Hps. revert old s. induction names as [|name names IH]; intros old s Hne Hc Hdir Hcov H; cbn [efor] in H.
  { injection H as <- _. exists []. rewrite app_nil_r. split_and!; try done. by apply grew_nil. }
  apply not_elem_of_cons in Hne as [Hn Hne]. apply ebind_Ok in H as (s1 & u1 & H1 & H).
  apply (entry_Ok _ rec) in H1 as (l1 & Hnone & (Hg1 & Hcov1 & Hc1 & Hf1) & Hr1); [|done..]. rewrite app_assoc in *.
  assert (strictly (base ++ ps) (base ++ ps) = false) as Hirr by (unfold strictly; by rewrite bool_decide_eq_true_2, andb_false_r).
  apply (IH (old ++ l1)) in H as (l2 & Hg2 & Hcov2 & Hc2 & Hf2 & Hr2); try done.
  - exists (l1 ++ l2). split_and!; [by eapply grew_trans|by rewrite app_assoc|done| |].
    + intros q Hq. rewrite Hf2 by done. apply Hf1. apply not_true_iff_false. intros Hb. apply strictly_child in Hb. by rewrite Hb in Hq.
    + intros Hs. specialize (Hr1 Hs). specialize (Hr2 Hs). unfold gather in *. cbn [foldr]. rewrite Hr1, Hr2. done.
  - unfold is_directory in *. rewrite Hf1; [done|]. apply not_true_iff_false. intros Hb%strictly_child. by rewrite Hb in Hirr.
  - eapply covers_add; [exact Hcov| |exact Hf1|exact Hcov1]. intros q Hq. split; [by apply strictly_child in Hq|]. by eapply closed_none.
Qed.

Lemma dir_Ok fuel : forall depth, copies (copy_dir w max_files max_bytes fuel depth) (reference fuel).
Proof.
  induction fuel as [|fuel IH]; intros depth base fd ps s s' u Hps H Hc Hdir Hempty; [done|]. cbn [copy_dir] in H.
  apply ebind_Ok in H as (s1 & u1 & Hg & H). apply eguard_Ok in Hg as [_ ->].
  apply ebind_Ok in H as (s2 & before & Hf & H). apply src_Ok in Hf as [_ [Ld2 Le2]].
  apply ebind_Ok in H as (s3 & sorted & Hl & H). apply scandir_Ok in Hl as (names & Hlist & -> & [Ld3 Le3]).
  apply ebind_Ok in H as (s4 & u4 & Hn & H). apply ebind_Ok in H as (s5 & after & Hf & H). apply src_Ok in Hf as [_ [Ld5 Le5]].
  apply ebind_Ok in H as (s6 & u6 & Hg & H). apply eguard_Ok in Hg as [_ ->].
  apply ebind_Ok in H as (s7 & now & Hl & H). apply scandir_Ok in Hl as (names' & _ & -> & [Ld7 Le7]). apply eguard_Ok in H as [_ ->].
  apply (names_Ok _ (reference fuel) _ _ _ _ []) in Hn as (l & Hgr & Hcov & Hc4 & Hf4 & Hr); [|apply IH|done| | | |].
  - exists l. assert (dst s7 = dst s4) as E by congruence. split; [split_and!|].
    + unfold grew. rewrite Le7, Le5, <- Le2, <- Le3. exact Hgr.
    + rewrite E. exact Hcov.
    + by rewrite E.
    + intros q Hq. rewrite E, Hf4 by done. by rewrite Ld3, Ld2.
    + intros Hs. cbn [dir_contents]. destruct (Hs (clk s2)) as (_ & _ & Hll & _). rewrite <- Hll, Hlist. by apply Hr.
  - rewrite sort_names_perm. by eapply Hnames.
  - by rewrite Ld3, Ld2.
  - by rewrite Ld3, Ld2.
  - apply covers_nil. intros q Hq. rewrite Ld3, Ld2. by apply Hempty.
Qed.

(** What a snapshot promises of its directory [base]. *)
Record faithful (base : list pystr) (t : dtree) (m : list item) (digest : pystr) (l : list content) : Prop := {
  f_manifest : m = l.*1;
  f_covers : covers base (fun q => strictly base q = true) t l;
  f_root : exists n, t !! base = Some n /\ d_dir n = true /\ d_perm n = 320%Z;
  f_paths : NoDup (item_path <$> m);
  f_digest : manifest_sha256 m = Ok digest;
  f_entries : (zlen m <= max_files)%Z;
  f_bytes : (sizes l <= max_bytes)%Z }.

(** The destination was just made. *)
Lemma copied p out s s' a :
  (0 <= max_files)%Z -> (0 <= max_bytes)%Z -> closed (dst s) -> ext s = Progress [] 0 ->
  (exists ino, dst s !! out = Some (DNode true ino 448 [])) -> (forall q, strictly out q = true -> dst s !! q = None) ->
  copy_tree w max_files max_bytes p out s = (s', Ok a) ->
  exists l, a_path a = out /\ faithful out (dst s') (a_manifest a) (a_digest a) l /\
    (forall q, strictly out q = false -> q <> out -> dst s' !! q = dst s !! q) /\
    (still -> exists fd, find_dir r_entry (root_inode w) (tail p) = Some fd /\ reference FUEL fd [] = Some l).
Proof.
  intros Hf Hb Hc Hext [ino Hout] Hempty H. apply ebind_Ok in H as (s1 & fd & Hw & H). apply (descent_Ok w r_info r_entry r_list r_chunks) in Hw as [[Ld1 Le1] Hfind].
  apply ebind_Ok in H as (s2 & u2 & Hd & H). rewrite <- (app_nil_r out) in Hd.
  destruct (dir_Ok FUEL 0 out fd [] _ _ _ ltac:(constructor) Hd) as (l & ((He & Ht & Hlen & Htot) & Hcov & Hcl & Hfr) & Href).
  { by rewrite Ld1. } { rewrite Ld1, app_nil_r. unfold is_directory. by rewrite Hout. } { rewrite Ld1, app_nil_r. exact Hempty. }
  rewrite app_nil_r in *. clear Hd. assert (strictly out out = false) as Hirr by (unfold strictly; by rewrite bool_decide_eq_true_2, andb_false_r).
  apply ebind_Ok in H as (s3 & q & Hg & H). apply get_Ok in Hg as [-> ->].
  apply ebind_Ok in H as (s4 & digest & Hdg & H). injection Hdg as <- Hdg. apply ebind_Ok in H as (s5 & u5 & Hch & H).
  apply update_Ok in Hch as (n & Hn & He5 & Hd5). injection H as <- <-. cbn [a_path a_manifest a_digest].
  rewrite Hfr, Ld1, Hout in Hn by done. injection Hn as <-. cbn in Hd5. rewrite Le1, Hext in He, Ht, Hlen, Htot. cbn in He, Ht, Hlen, Htot.
  exists l. split_and!; [done| | |].
  - destruct Hcov as (H1 & H2 & H3). rewrite He. split.
    + done.
    + split_and!; [| |done].
      * intros c Hcin. destruct (H1 c Hcin) as [HR Hn]. split; [done|]. apply strictly_spec in HR as [_ HR]. by rewrite Hd5, lookup_insert_ne.
      * intros q Hq. pose proof (proj1 (strictly_spec _ _) Hq) as [_ Hqn]. rewrite Hd5, lookup_insert_ne by done. by apply H2.
    + eexists. rewrite Hd5, lookup_insert_eq. done.
    + apply (NoDup_fmap_1 (fun x => out ++ split_on 47 x)). by rewrite <- list_fmap_compose.
    + by rewrite <- He.
    + rewrite <- He. apply Hlen. unfold zlen. cbn. lia.
    + lia.
  - intros q Hq Hqn. rewrite Hd5, lookup_insert_ne by done. by rewrite Hfr, Ld1.
  - intros Hs. exists fd. split; [by apply Hfind|by apply Href].
Qed.

Lemma freeze_Ok source parent name s s' a :
  (0 <= max_files)%Z -> (0 <= max_bytes)%Z -> closed (dst s) ->
  freeze_tree w lstat cwd max_files max_bytes source parent name s = (s', Ok a) ->
  a_path a = [name] /\ (forall q, below [name] q = false -> dst s' !! q = dst s !! q) /\
  exists l p, checked_directory lstat cwd source = Ok p /\ faithful [name] (dst s') (a_manifest a) (a_digest a) l /\
    (still -> exists fd, find_dir r_entry (root_inode w) (tail p) = Some fd /\ reference FUEL fd [] = Some l).
Proof.
  intros Hf Hb Hc H. apply ebind_Ok in H as (s1 & p & Hp & H). injection Hp as <- Hp.
  apply ebind_Ok in H as (s2 & pp & Hpp & H). injection Hpp as <- _.
  do 2 (apply ebind_Ok in H as (? & ? & Hg & H); apply eguard_Ok in Hg as [_ ->]).
  apply ebind_Ok in H as (s3 & fresh & Hm & H). apply ebind_Ok in H as (s4 & u4 & Hg & H). apply eguard_Ok in Hg as [Hfr ->].
  apply negb_false_iff in Hfr as ->. apply make_Ok in Hm as (Hnone & Hroot & He3 & Hd3). cbn in Hroot.
  apply ebind_Ok in H as (s5 & u5 & Hput & H). injection Hput as <- _. unfold etry in H.
  destruct (copy_tree w max_files max_bytes p [name] _) as [s6 [a6|e6]] eqn:Hcopy.
  2:{ destruct (_ || _); [|done]. by apply ebind_Ok in H as (? & ? & _ & H). }
  injection H as <- <-. cbn in Hcopy.
  apply copied in Hcopy as (l & H1 & H2 & H3 & H4); [|done|done|cbn; rewrite Hd3|done|exists (inodes s); cbn; by rewrite Hd3, lookup_insert_eq|cbn; rewrite Hd3].
  - split_and!; [done| |by exists l, p]. intros q Hq. rewrite H3; [|by unfold strictly; rewrite Hq|intros ->; by rewrite below_refl in Hq].
    cbn. rewrite Hd3. apply lookup_insert_ne. intros <-. by rewrite below_refl in Hq.
  - apply closed_insert; [done|by left|]. intros x q E. destruct q as [|y q]; [done|by destruct q].
  - intros q [Hq Hqn]%strictly_spec. rewrite lookup_insert_ne by done. by eapply closed_none.
Qed.

End Faithful.

Section Claims.
Context (w : world) (lstat : path -> res stat_info) (cwd : list pystr) (max_files max_bytes : Z).
(** The system never lists an empty name. *)
Hypothesis Hnames : forall n fd l, listing w n fd = Some l -> [] ∉ l.

(** C12: a snapshot is what its manifest says, and its digest is the digest of
    that manifest.  When [freeze_tree] succeeds, the destination holds exactly the
    entries of the manifest, each path once: directories, and files with the size,
    the hash and the executable bit that are recorded, all of them read-only; the
    manifest is within the limits on entries and bytes; and outside the
    destination nothing changed.  The source may change at any moment. *)
Theorem snapshot_faithful source parent name s s' a :
  (0 <= max_files)%Z -> (0 <= max_bytes)%Z -> closed (dst s) ->
  freeze_tree w lstat cwd max_files max_bytes source parent name s = (s', Ok a) ->
  a_path a = [name] /\ (forall q, below [name] q = false -> dst s' !! q = dst s !! q) /\
  exists l, faithful max_files max_bytes [name] (dst s') (a_manifest a) (a_digest a) l.
Proof.
  intros Hf Hb Hc H. 
  destruct (freeze_Ok w lstat cwd max_files max_bytes Hnames (fun _ => None) (fun _ _ => None) (fun _ => None) (fun _ => None) _ _ _ _ _ _ Hf Hb Hc H)
    as (Ha & Hs & l & p & _ & Hl & _). split_and!; [done..|]. by exists l.
Qed.

(** C36: of a source that stands still, a snapshot is an exact copy.  The manifest
    is the one the reference definition reads off the source, directory by
    directory with the names in order, and every file holds the bytes of its
    source. *)
Theorem snapshot_exact r_info r_entry r_list r_chunks source parent name s s' a :
  still r_info r_entry r_list r_chunks w -> (0 <= max_files)%Z -> (0 <= max_bytes)%Z -> closed (dst s) ->
  freeze_tree w lstat cwd max_files max_bytes source parent name s = (s', Ok a) ->
  exists p fd l, checked_directory lstat cwd source = Ok p /\ find_dir r_entry (root_inode w) (tail p) = Some fd /\
    dir_contents r_info r_entry r_list r_chunks FUEL fd [] = Some l /\ a_manifest a = l.*1 /\
    forall c, c ∈ l -> exists n, dst s' !! key [name] c.1 = Some n /\ sealed n c.
Proof.
  intros Hst Hf Hb Hc H.
  destruct (freeze_Ok w lstat cwd max_files max_bytes Hnames r_info r_entry r_list r_chunks _ _ _ _ _ _ Hf Hb Hc H) as (_ & _ & l & p & Hp & [Hm (H1 & _) _ _ _ _ _] & Href).
  destruct (Href Hst) as (fd & Hfd & Hl). exists p, fd, l. split_and!; [done..|]. intros c Hcin. by apply H1.
Qed.
End Claims.

(** ** A submission of one directory and one file *)
Definition sample_info (inode : Z) : option stat_result :=
  if (inode =? 4)%Z then Some (SR Reg 1 4 493 1 1 7 7) else if (inode <=? 3)%Z then Some (SR Dir 1 inode 493 2 0 7 7) else None.
Definition sample_entry (inode : Z) (name : pystr) : option Z :=
  if bool_decide ((inode, name) = (1%Z, str "src")) then Some 2%Z
  else if bool_decide ((inode, name) = (2%Z, str "a")) then Some 3%Z
  else if bool_decide ((inode, name) = (3%Z, str "f")) then Some 4%Z else None.
Definition sample_list (inode : Z) : option (list pystr) :=
  if (inode =? 2)%Z then Some [str "a"] else if (inode =? 3)%Z then Some [str "f"] else Some [].
Definition sample_chunks (inode : Z) : option (list bytes) := Some [str "x"].
Definition sample : world :=
  World 1 (fun _ => sample_info) (fun _ => sample_entry) (fun _ => sample_list) (fun _ => sample_chunks) (fun _ => false) (fun _ _ => false).
Definition ordinary_lstat (p : path) : res stat_info := Ok (Stat Dir 1 1 1000 448).
Definition owned : st progress := St 0 {[ [] := DNode true 1 448 [] ]} 10 (Progress [] 0).
Definition freezing (max_files : Z) : st progress * res FrozenArtifact :=
  freeze_tree sample ordinary_lstat [] max_files 100 (parse_path (str "/src")) (parse_path (str "/own")) (str "artifact-1") owned.

Definition finished {A B} (p : A * res B) : bool := match p.2 with Ok _ => true | Err _ => false end.
Lemma finished_Ok {A B} (p : A * res B) : finished p = true -> exists a, p = (p.1, Ok a).
Proof. destruct p as [x [b|e]]; [by exists b|done]. Qed.
Lemma freezing_finished : finished (freezing 10) = true.
Proof. vm_compute. reflexivity. Qed.

Lemma owned_closed : closed (dst owned).
Proof.
  intros p x [n H]. unfold owned in H. cbn in H. rewrite lookup_singleton_ne in H; [done|]. intros E. by destruct p.
Qed.
Lemma sample_names : forall n fd l, listing sample n fd = Some l -> [] ∉ l.
Proof.
  intros n fd l. cbn. unfold sample_list. destruct (fd =? 2)%Z; [|destruct (fd =? 3)%Z]; intros [= <-];
    refine (bool_decide_eq_false_1 _ _); vm_compute; reflexivity.
Qed.

Lemma snapshot_faithful_witness : exists a l, faithful 10 100 [str "artifact-1"] (dst (freezing 10).1) (a_manifest a) (a_digest a) l.
Proof.
  destruct (finished_Ok _ freezing_finished) as [a Ha].
  destruct (snapshot_faithful sample ordinary_lstat [] 10 100 sample_names
    (parse_path (str "/src")) (parse_path (str "/own")) (str "artifact-1") owned (freezing 10).1 a ltac:(lia) ltac:(lia) owned_closed Ha) as (_ & _ & l & Hl).
  exists a, l. exact Hl.
Defined.

Lemma snapshot_exact_witness : exists a l,
  dir_contents sample_info sample_entry sample_list sample_chunks FUEL 2 [] = Some l /\ a_manifest a = l.*1 /\ (freezing 10).2 = Ok a.
Proof.
  destruct (finished_Ok _ freezing_finished) as [a Ha].
  destruct (snapshot_exact sample ordinary_lstat [] 10 100 sample_names sample_info sample_entry sample_list sample_chunks
    (parse_path (str "/src")) (parse_path (str "/own")) (str "artifact-1") owned (freezing 10).1 a) as (p & fd & l & Hp & Hfd & Hl & Hm & _);
    [intros n; split_and!; reflexivity|lia|lia|exact owned_closed|exact Ha|].
  exists a, l. injection Hp as <-. injection Hfd as <-. split_and!; [exact Hl|exact Hm|]. exact (f_equal snd Ha).
Defined.

(** Too many entries: nothing is left. *)
Definition refused (p : st progress * res FrozenArtifact) (m : string) : bool :=
  match p.2 with Err (AdmissionError m') => bool_decide (m' = m) | _ => false end.
Lemma refused_Err p m : refused p m = true -> p = (p.1, Err (AdmissionError m)).
Proof. destruct p as [s [a|[]]]; try done. cbn. intros H. by apply bool_decide_eq_true in H as ->. Qed.
Lemma freezing_refused : refused (freezing 1) "artifact has too many entries" = true.
Proof. vm_compute. reflexivity. Qed.

Lemma refused_leaves_nothing_witness : dst (freezing 1).1 = dst owned.
Proof.
  destruct (refused_leaves_nothing sample ordinary_lstat [] 1 100 (parse_path (str "/src")) (parse_path (str "/own")) (str "artifact-1")
    owned _ _ owned_closed (fun p e (H : Ok _ = Err e) => match H with end) (refused_Err _ _ freezing_refused)) as [H|(m & _ & H)]; [discriminate H|exact H].
Defined.
End snapshot.
