(* ===== verification/ViewCopy.v ===== *)
(** * Materializing a source view ([supervisor/mirrorgate/source_view.py])

    The copy of the included paths of a source tree into a directory of the
    workspace that is made for it, and what is undone when it fails. *)

From Stdlib Require Import ZArith Lia.
From stdpp Require Import base list gmap strings numbers.
From S2P Require Import Prelude PyJson JsonText Canonical Effects Paths SourceView Copying.
#[local] Open Scope res_scope.
#[local] Open Scope eff_scope.

Module materialize.
Import paths copying view.

Definition MAX_DIRECTORY_DEPTH : Z := 64.

(** [_CopyState]: [directories] and [files] map a relative path to what was made
    there, [children] a directory to its names. *)
Record CopyState : Type := Copying {
  entries : Z; bytes_copied : Z; manifest : list item; directories : gmap pystr Z;
  files : gmap pystr (Z * Z * Z * pystr); children : gmap pystr (list pystr) }.

Definition add_entry (c : CopyState) : CopyState :=
  Copying (entries c + 1) (bytes_copied c) (manifest c) (directories c) (files c) (children c).
Definition add_size (n : Z) (c : CopyState) : CopyState :=
  Copying (entries c) (bytes_copied c + n) (manifest c) (directories c) (files c) (children c).
Definition add_item (i : item) (c : CopyState) : CopyState :=
  Copying (entries c) (bytes_copied c) (manifest c ++ [i]) (directories c) (files c) (children c).
Definition add_directory (relative : pystr) (ino : Z) (c : CopyState) : CopyState :=
  Copying (entries c) (bytes_copied c) (manifest c) (<[relative := ino]> (directories c)) (files c) (children c).
Definition add_file (relative : pystr) (f : Z * Z * Z * pystr) (c : CopyState) : CopyState :=
  Copying (entries c) (bytes_copied c) (manifest c) (directories c) (<[relative := f]> (files c)) (children c).
(** [relative.rpartition("/")]: the parent and the name. *)
Definition parent_path (relative : pystr) : pystr := join_with 47 (removelast (split_on 47 relative)).
Definition last_name (relative : pystr) : pystr := default [] (list.last (split_on 47 relative)).
Definition record_child (relative : pystr) (c : CopyState) : CopyState :=
  let names := default [] (children c !! parent_path relative) in
  Copying (entries c) (bytes_copied c) (manifest c) (directories c) (files c)
    (<[parent_path relative := if bool_decide (last_name relative ∈ names) then names else last_name relative :: names]> (children c)).

Definition refused (message : string) : exn := AdmissionError message.
Definition CHANGED : exn := refused "source view input changed during materialization".
Definition DESTINATION_CHANGED : exn := refused "source view destination changed during materialization".
(** [SourceViewCleanupError] *)
Definition ROLLBACK : exn := refused "source view rollback failed".

Section View.
(** [look] is [path.lstat()] with every field; the device of the workspace and
    the identity of its root are those of the policy. *)
Context (w : world) (lstat : path -> res stat_info) (look : nat -> path -> option stat_result) (cwd : list pystr) (geteuid : Z).
Context (max_files max_bytes : Z) (workspace_id : Z * Z).
Abbreviation copy := (eff (st CopyState)).

(** [try: m except OSError: raise AdmissionError(message)] *)
Definition or_refuse {A} (m : copy A) (e : exn) : copy A := etry m is_os_error (fun _ => eraise e).

Definition reserve_entry : copy unit :=
  let* c := get in
  eguard (max_files <=? entries c)%Z (refused "source view exceeds the snapshot file bound") ;;* put add_entry.
Definition add_bytes (n : Z) : copy unit :=
  put (add_size n) ;;* let* c := get in
  eguard (max_bytes <? bytes_copied c)%Z (refused "source view exceeds the snapshot byte bound").

Definition _listed_names (fd : Z) : copy (list pystr) := scandir w fd max_files "source view directory has too many entries".
Definition _checked_name (name : pystr) : copy unit :=
  eguard (bool_decide (name ∈ [[]; DOT; DOTDOT]) || bool_decide (47%N ∈ name) || bool_decide (0%N ∈ name)) (refused "source view input name is invalid") ;;*
  match utf8_len name with
  | None => eraise (refused "source view input names must be UTF-8")
  | Some n => eguard (255 <? n)%Z (refused "source view input name exceeds the name bound")
  end.

Definition _open_source_root (p : path) : copy (Z * stat_result) :=
  let* i := or_refuse (src (fun n => look n p)) (refused "source view root is unavailable") in
  eguard (is_kind Lnk i || negb (is_kind Dir i)) (refused "source view root must be an ordinary directory") ;;*
  let* fd := walk w (root_inode w) (tail p) in
  let* opened := fstat w fd in
  eguard (negb (same_file i opened)) (refused "source view root changed during materialization") ;;*
  eret (fd, opened).

Definition _recheck_source_root (p : path) (identity : stat_result) : copy unit :=
  let e := refused "source view root changed during materialization" in
  let* i := or_refuse (src (fun n => look n p)) e in
  eguard (is_kind Lnk i || negb (is_kind Dir i) || negb (bool_decide ((f_dev i, f_ino i) = (f_dev identity, f_ino identity)))) e.

Definition _open_workspace_root (p : path) (identity : Z * Z) : copy Z :=
  let* opened := _open_source_root p in
  eguard (negb (bool_decide ((f_dev opened.2, f_ino opened.2) = identity))) (refused "source view workspaceRoot changed during materialization") ;;*
  eret opened.1.

Definition _open_directory_component (fd : Z) (name : pystr) : copy Z :=
  let* i := or_refuse (stat_at w fd name) (refused "source view include path is unavailable") in
  eguard (is_kind Lnk i || negb (is_kind Dir i)) (refused "source view include path components must be ordinary directories") ;;*
  eguard (bool_decide ((f_dev i, f_ino i) = workspace_id)) (refused "source view selected path contains the workspace root") ;;*
  let* child := or_refuse (open_dir w fd name) (refused "source view include path components must be ordinary directories") in
  let* opened := fstat w child in
  eguard (negb (same_file i opened)) CHANGED ;;* eret child.

(** *** The destination *)

Definition MODE : Z := SUPERVISOR_DIRECTORY_MODE.

(** [os.open] of what was made, and [fchmod]; if either fails the directory is
    removed again, whether or not that succeeds. *)
Definition adopt (p : list pystr) (message : string) : copy Z :=
  etry (let* n := dstat w p in chmod w p MODE ;;* eret (d_ino n)) is_os_error
    (fun _ => etry (unlink_dir w p) is_os_error (fun _ => eret tt) ;;* eraise (refused message)).

Definition make_directory (p : list pystr) (taken message : string) : copy Z :=
  let* fresh := or_refuse (make w p true MODE) (refused message) in
  eguard (negb fresh) (refused taken) ;;* adopt p message.

Definition _create_destination (name : pystr) : copy Z :=
  make_directory [name] "source view destination collides with an existing entry" "source view destination could not be published".

Definition _create_directory (out : list pystr) (name relative : pystr) : copy (list pystr) :=
  let child := out ++ [name] in
  reserve_entry ;;*
  make_directory child "source view destination collides with an existing entry" "source view destination entry could not be created" ;;*
  let* n := dstat w child in
  put (fun c => add_item (IDir relative) (record_child relative (add_directory relative (d_ino n) c))) ;;*
  eret child.

Definition still_directory (n : dnode) (ino : Z) : bool := d_dir n && (d_perm n =? MODE)%Z && (d_ino n =? ino)%Z.

Definition _open_destination_directory (out : list pystr) (name : pystr) (ino : Z) : copy (list pystr) :=
  let child := out ++ [name] in
  let e := refused "source view destination directory changed" in
  let* n := or_refuse (dstat w child) e in
  let* opened := dstat w child in
  eguard (negb (still_directory n ino) || negb (still_directory opened ino)) e ;;* eret child.

Definition _ensure_directory (out : list pystr) (name relative : pystr) : copy (list pystr) :=
  let* c := get in
  match directories c !! relative with
  | Some ino => _open_destination_directory out name ino
  | None => _create_directory out name relative
  end.

(** *** The copy *)

Definition copy_chunk (target : list pystr) (chunk : bytes) : copy unit := add_bytes (zlen chunk) ;;* write w target chunk.

Definition _copy_file (fd : Z) (name : pystr) (out : list pystr) (relative : pystr) (i : stat_result) : copy unit :=
  let target := out ++ [name] in
  let* item := or_refuse (open_file w fd name) (refused "source view input is unavailable") in
  let* opened := fstat w item in
  eguard (negb (is_kind Reg opened) || negb (f_nlink opened =? 1)%Z || negb (same_file i opened)) CHANGED ;;*
  let* c := get in
  eguard (max_bytes <? f_size opened + bytes_copied c)%Z (refused "source view exceeds the snapshot byte bound") ;;*
  reserve_entry ;;*
  let* fresh := or_refuse (make w target false 384) (refused "source view destination entry could not be created") in
  eguard (negb fresh) (refused "source view destination collides with an existing entry") ;;*
  let executable := executable_perm (f_perm opened) in
  let perm := if executable then 448%Z else 384%Z in
  let* data := read_all w item in
  efor (copy_chunk target) data ;;*
  chmod w target perm ;;*
  let* written := dstat w target in
  let size := zlen (concat data) in
  let digest := sha256_hex (concat data) in
  let* again := fstat w item in
  eguard (negb (same_file opened again) || negb (size =? f_size opened)%Z) CHANGED ;;*
  let* second := read_all w item in
  let same := (zlen (concat second) =? size)%Z && bool_decide (sha256_hex (concat second) = digest) in
  let* last := (if same then fstat w item else eret opened) in
  eguard (negb same || negb (same_file opened last)) CHANGED ;;*
  let* output := dstat w target in
  eguard (negb (zlen (d_data output) =? size)%Z || negb (bool_decide (sha256_hex (d_data output) = digest))
          || negb (d_ino written =? d_ino output)%Z) DESTINATION_CHANGED ;;*
  put (fun c => add_item (IFile relative size digest executable) (record_child relative (add_file relative (d_ino written, size, perm, digest) c))).

(** One name of a directory; [descend] copies a directory below it. *)
Definition copy_name (descend : Z -> list pystr -> pystr -> copy unit) (fd : Z) (out : list pystr) (relative name : pystr) : copy unit :=
  _checked_name name ;;*
  let rel := child_path relative name in
  match utf8_len rel with
  | None => eraise UnicodeError
  | Some n => eguard (MAX_RELATIVE_PATH_BYTES <? n)%Z (refused "source view exceeds the path length bound")
  end ;;*
  let* i := stat_at w fd name in
  eguard (is_kind Lnk i) (refused "source view inputs must not contain links") ;;*
  if is_kind Dir i then
    let* child := _open_directory_component fd name in
    let* target := _create_directory out name rel in
    descend child target rel
  else if is_kind Reg i then
    eguard (negb (f_nlink i =? 1)%Z) (refused "source view inputs must not contain hard links") ;;* _copy_file fd name out rel i
  else eraise (refused "source view inputs must be ordinary files and directories").

(** [fuel] bounds the nesting; the depth does so before it runs out. *)
Fixpoint _copy_directory (fuel : nat) (depth : Z) (fd : Z) (out : list pystr) (relative : pystr) : copy unit :=
  match fuel with
  | O => eraise RecursionError
  | S fuel =>
    eguard (MAX_DIRECTORY_DEPTH <? depth)%Z (refused "source view exceeds the directory depth bound") ;;*
    let* before := fstat w fd in
    let* names := _listed_names fd in
    efor (copy_name (_copy_directory fuel (depth + 1)) fd out relative) names ;;*
    let* after := fstat w fd in
    eguard (negb (same_file before after)) CHANGED ;;*
    let* now := _listed_names fd in
    eguard (negb (bool_decide (names = now))) CHANGED
  end.

(** The parts of an include path, [index] of them behind. *)
Fixpoint include_parts (fuel : nat) (index : Z) (fd : Z) (out : list pystr) (relative : pystr) (parts : list pystr) : copy unit :=
  match parts with
  | [] => eret tt
  | name :: rest =>
    _checked_name name ;;*
    let rel := child_path relative name in
    match rest with
    | _ :: _ =>
      eguard (MAX_DIRECTORY_DEPTH <? index + 1)%Z (refused "source view exceeds the directory depth bound") ;;*
      let* child := _open_directory_component fd name in
      let* target := _ensure_directory out name rel in
      include_parts fuel (index + 1) child target rel rest
    | [] =>
      let* i := or_refuse (stat_at w fd name) (refused "source view include path is unavailable") in
      eguard (is_kind Lnk i) (refused "source view inputs must not contain links") ;;*
      if is_kind Dir i then
        let* child := _open_directory_component fd name in
        let* target := _create_directory out name rel in
        _copy_directory fuel (index + 1) child target rel
      else if is_kind Reg i then
        eguard (negb (f_nlink i =? 1)%Z) (refused "source view inputs must not contain hard links") ;;* _copy_file fd name out rel i
      else eraise (refused "source view inputs must be ordinary files and directories")
    end
  end.

(** Enough for every include path: the depth is bounded by 65. *)
Definition FUEL : nat := 66.
Definition _materialize_include (root_fd : Z) (destination : list pystr) (include : pystr) : copy unit :=
  include_parts FUEL 0 root_fd destination [] (split_on 47 include).

(** *** The destination is read back *)

Definition destination_names (p : list pystr) : copy (list pystr) :=
  let* names := dcall w (fun t => (t, Some (omap (fun q : list pystr => if bool_decide (removelast q = p) then list.last q else None) (map_to_list t).*1))) in
  eguard (max_files <? zlen names)%Z (refused "source view directory has too many entries") ;;* eret (sort_names names).

Fixpoint _recheck_destination_contents (fuel : nat) (p : list pystr) (relative : pystr) : copy unit :=
  match fuel with
  | O => eraise RecursionError
  | S fuel =>
    let* n := dstat w p in
    eguard (negb (d_dir n) || negb (d_perm n =? MODE)%Z) DESTINATION_CHANGED ;;*
    let* names := destination_names p in
    let* c := get in
    eguard (negb (bool_decide (names = sort_names (default [] (children c !! relative))))) DESTINATION_CHANGED ;;*
    efor (fun name =>
      let rel := child_path relative name in
      let* c := get in
      match directories c !! rel with
      | Some ino => let* child := _open_destination_directory p name ino in _recheck_destination_contents fuel child rel
      | None =>
        match files c !! rel with
        | None => eraise DESTINATION_CHANGED
        | Some (ino, size, perm, digest) =>
          let* n := or_refuse (dstat w (p ++ [name])) DESTINATION_CHANGED in
          eguard (d_dir n || negb (bool_decide ((d_ino n, zlen (d_data n), d_perm n) = (ino, size, perm)))) DESTINATION_CHANGED ;;*
          eguard (negb (bool_decide (sha256_hex (d_data n) = digest))) DESTINATION_CHANGED
        end
      end) names
  end.

Definition _recheck_destination (name : pystr) (ino : Z) : copy unit :=
  let* n := or_refuse (dstat w [name]) DESTINATION_CHANGED in
  eguard (negb (still_directory n ino)) DESTINATION_CHANGED.

(** The entries of the workspace are looked at until one has the identity. *)
Fixpoint find_identity (ino : Z) (names : list pystr) : copy (option pystr) :=
  match names with
  | [] => eret None
  | name :: rest => let* n := dstat w [name] in if d_dir n && (d_ino n =? ino)%Z then eret (Some name) else find_identity ino rest
  end.
Definition workspace_names (t : dtree) : list pystr := omap (fun q : list pystr => match q with [x] => Some x | _ => None end) (map_to_list t).*1.

Definition _remove_pinned_destination (ino : Z) : copy unit :=
  let* names := dcall w (fun t => (t, Some (workspace_names t))) in
  let* found := find_identity ino names in
  match found with
  | None => eraise (refused "source view destination identity is no longer reachable")
  | Some name => remove_snapshot w [name]
  end.

(** *** The whole *)

Record SourceViewMaterialization : Type := Materialized { m_path : pystr; m_sha256 : pystr; m_manifest : list item }.

Fixpoint parts_leb (a b : list pystr) : bool :=
  match a, b with
  | [], _ => true
  | _ :: _, [] => false
  | x :: a, y :: b => if bool_decide (x = y) then parts_leb a b else str_leb x y
  end.
Fixpoint insert_include (x : pystr) (l : list pystr) : list pystr :=
  match l with [] => [x] | y :: l' => if parts_leb (split_on 47 x) (split_on 47 y) then x :: l else y :: insert_include x l' end.
Definition by_parts (l : list pystr) : list pystr := foldr insert_include [] l.

Definition recheck_workspace (policy : SourceViewPolicy) : copy unit :=
  elift (_recheck_workspace_root lstat geteuid (workspace_root policy) (workspace_identity policy)).

(** The body of the [try] once the destination exists. *)
Definition fill (policy : SourceViewPolicy) (source_path : path) (root_fd : Z) (root_identity : stat_result) (name : pystr) (ino : Z) : copy unit :=
  efor (_materialize_include root_fd [name]) (by_parts (include_paths policy)) ;;*
  let* again := fstat w root_fd in
  eguard (negb (same_file again root_identity)) CHANGED ;;*
  _recheck_source_root source_path root_identity ;;*
  recheck_workspace policy ;;*
  _recheck_destination_contents FUEL [name] [] ;;*
  _recheck_destination name ino.

Definition bounded (v : Z) : bool := ((0 <? v) && (v <=? 2 ^ 60))%Z.

Definition materialize_source_view (source destination : path) (policy : SourceViewPolicy) : copy SourceViewMaterialization :=
  let* policy := elift (validated lstat geteuid policy) in
  eguard (negb (bounded max_files)) (refused "max_files must be a positive bounded integer") ;;*
  eguard (negb (bounded max_bytes)) (refused "max_bytes must be a positive bounded integer") ;;*
  let name := default [] (list.last (tail destination)) in
  eguard (negb (is_absolute destination) || negb (bool_decide (Path (root destination) (removelast (tail destination)) = workspace_root policy))
          || bool_decide (name ∈ [[]; DOT; DOTDOT])) (refused "source view destination is outside the approved workspace") ;;*
  let* source_path := elift (checked_directory lstat cwd source) in
  eguard (bool_decide (source_path = workspace_root policy) || in_parents (workspace_root policy) source_path)
    (refused "source view source root overlaps the approved workspace") ;;*
  eguard (existsb (fun include => overlap (join_path source_path (parse_path include)) (workspace_root policy)) (include_paths policy))
    (refused "source view selected path overlaps the workspace root") ;;*
  recheck_workspace policy ;;*
  let* root := _open_source_root source_path in
  _open_workspace_root (workspace_root policy) (workspace_identity policy) ;;*
  put (fun _ => Copying 0 0 [] ∅ ∅ ∅) ;;*
  let* ino := _create_destination name in
  etry
    (fill policy source_path root.1 root.2 name ino)
    (fun _ => true)
    (fun e => etry (_remove_pinned_destination ino) (fun _ => true) (fun _ => eraise ROLLBACK) ;;* eraise e) ;;*
  let* c := get in
  let* digest := elift (manifest_sha256 (manifest c)) in
  eret (Materialized name digest (manifest c)).
End View.

(** ** What a view holds *)

(** What must lie at the place of an entry. *)
Definition sealed (n : dnode) (c : content) : Prop :=
  match c.1 with
  | IDir _ => d_dir n = true /\ d_perm n = 448%Z
  | IFile _ size sha x =>
    d_dir n = false /\ d_perm n = (if x then 448 else 384)%Z /\ d_data n = c.2 /\ size = zlen c.2 /\ sha = sha256_hex c.2
  end.

Section Faithful.
Context (w : world) (lstat : path -> res stat_info) (look : nat -> path -> option stat_result) (cwd : list pystr) (geteuid : Z).
Context (max_files max_bytes : Z) (workspace_id : Z * Z) (top : list pystr).
Context (r_info : Z -> option stat_result) (r_entry : Z -> pystr -> option Z) (r_list : Z -> option (list pystr)) (r_chunks : Z -> option (list bytes)).
Implicit Types s : st CopyState.
#[local] Opaque sha256_hex.
#[local] Abbreviation covered := (covers sealed top (fun q => strictly top q = true)).
#[local] Abbreviation still := (still r_info r_entry r_list r_chunks w).

(** The entries [l] were added, to the manifest and to the tree. *)
Record extends (l : list content) s s' : Prop := {
  x_manifest : manifest (ext s') = manifest (ext s) ++ l.*1;
  x_entries : entries (ext s') = (entries (ext s) + zlen l)%Z;
  x_bytes : bytes_copied (ext s') = (bytes_copied (ext s) + sizes l)%Z;
  x_files_bound : (entries (ext s) <= max_files -> entries (ext s') <= max_files)%Z;
  x_bytes_bound : (bytes_copied (ext s) <= max_bytes -> bytes_copied (ext s') <= max_bytes)%Z;
  x_directories : forall rel, is_Some (directories (ext s') !! rel) <-> is_Some (directories (ext s) !! rel) \/ IDir rel ∈ l.*1;
  x_closed : closed (dst s) -> closed (dst s');
  x_covers : forall old, covered (dst s) old -> covered (dst s') (old ++ l);
  x_frame : forall q, strictly top q = false -> dst s' !! q = dst s !! q }.

Lemma extends_looked s s' : looked s s' -> extends [] s s'.
Proof.
  intros [Hd He]. split; rewrite ?Hd, ?He; try done.
  - by rewrite app_nil_r.
  - unfold zlen. cbn. lia.
  - cbn. lia.
  - intros rel. rewrite elem_of_nil. naive_solver.
  - intros old. by rewrite app_nil_r.
Qed.

Lemma extends_trans l l' s1 s2 s3 : extends l s1 s2 -> extends l' s2 s3 -> extends (l ++ l') s1 s3.
Proof.
  intros [M1 E1 B1 FB1 BB1 D1 C1 V1 F1] [M2 E2 B2 FB2 BB2 D2 C2 V2 F2]. split.
  - by rewrite M2, M1, fmap_app, app_assoc.
  - rewrite E2, E1. unfold zlen. rewrite length_app. lia.
  - rewrite B2, B1, sizes_app. lia.
  - auto.
  - auto.
  - intros rel. rewrite D2, D1, fmap_app, elem_of_app. tauto.
  - auto.
  - intros old H. rewrite app_assoc. auto.
  - intros q Hq. by rewrite F2, F1.
Qed.

Lemma extends_after l s s1 s' : looked s s1 -> extends l s1 s' -> extends l s s'.
Proof. intros H1 H2. apply (extends_trans [] l _ s1); [by apply extends_looked|done]. Qed.
Lemma extends_before l s s1 s' : extends l s s1 -> looked s1 s' -> extends l s s'.
Proof. intros H1 H2. rewrite <- (app_nil_r l). eapply extends_trans; [done|by apply extends_looked]. Qed.

(** A new entry at a free place. *)
Lemma covers_new target t n c old :
  covered t old -> t !! target = None -> strictly top target = true -> key top c.1 = target -> sealed n c ->
  covered (<[target := n]> t) (old ++ [c]).
Proof.
  intros Hcov Hn Hs Hk Hseal. eapply (covers_add sealed top _ (fun q => bool_decide (q = target))); [exact Hcov| | |].
  - intros q Hq%bool_decide_eq_true. by subst q.
  - intros q Hq%bool_decide_eq_false. by apply lookup_insert_ne.
  - split_and!.
    + intros c' ->%list_elem_of_singleton. rewrite Hk, bool_decide_eq_true_2 by done. split; [done|]. exists n. by rewrite lookup_insert_eq.
    + intros q Hq%bool_decide_eq_true _. exists c. split; [apply list_elem_of_here|]. by rewrite Hk.
    + apply NoDup_singleton.
Qed.

(** *** Steps *)
Lemma or_refuse_Ok {A} (m : eff (st CopyState) A) e s s' a : or_refuse m e s = (s', Ok a) -> m s = (s', Ok a).
Proof. unfold or_refuse, etry. destruct (m s) as [s1 [b|e1]]; [by intros [= <- <-]|]. by destruct (is_os_error e1). Qed.

Lemma dstat_Ok p s s' n : dstat w p s = (s', Ok n) -> looked s s' /\ dst s !! p = Some n.
Proof. unfold dstat, dcall. destruct (dst_fails w (clk s)); [done|]. destruct (dst s !! p) as [m|]; [|done]. by intros [= <- <-]. Qed.

Lemma reserve_Ok s s' u : reserve_entry max_files s = (s', Ok u) ->
  (entries (ext s) < max_files)%Z /\ dst s' = dst s /\ ext s' = add_entry (ext s).
Proof.
  intros H. apply ebind_Ok in H as (s1 & c & Hg & H). apply get_Ok in Hg as [-> ->]. apply ebind_Ok in H as (s2 & u2 & Hg & H).
  apply eguard_Ok in Hg as [Hlt ->]. apply Z.leb_gt in Hlt. by injection H as <- _.
Qed.

Lemma name_Ok name s s' u : _checked_name name s = (s', Ok u) -> s' = s /\ good_name name.
Proof.
  intros H. apply ebind_Ok in H as (s1 & u1 & Hg & H). apply eguard_Ok in Hg as [Hg ->]. apply orb_false_iff in Hg as [Hg _].
  apply orb_false_iff in Hg as [Hg Hs]. apply bool_decide_eq_false in Hg, Hs. split.
  - destruct (utf8_len name); [|done]. by apply eguard_Ok in H as [_ ->].
  - split_and!; [|done|]; [intros ->; apply Hg, list_elem_of_here|]. apply encodes_scalars. unfold utf8_len in H. by destruct (utf8_encode name).
Qed.

Lemma make_directory_Ok p t m s s' ino : make_directory w p t m s = (s', Ok ino) ->
  dst s !! p = None /\ is_directory (dst s) (removelast p) = true /\ ext s' = ext s /\ dst s' = <[p := DNode true ino 448 []]> (dst s).
Proof.
  intros H. apply ebind_Ok in H as (s1 & fresh & Hm & H). apply or_refuse_Ok in Hm. apply ebind_Ok in H as (s2 & u & Hg & H).
  apply eguard_Ok in Hg as [Hf ->]. apply negb_false_iff in Hf as ->. apply make_Ok in Hm as (Hn & Hd & He & Hi). unfold adopt, etry in H.
  destruct ((let* n := dstat w p in chmod w p MODE ;;* eret (d_ino n)) s1) as [s3 [i|e]] eqn:Ha.
  2:{ destruct (is_os_error e); [|done]. by apply ebind_Ok in H as (? & ? & _ & H). }
  injection H as <- <-. apply ebind_Ok in Ha as (s4 & n & Hst & Ha). apply dstat_Ok in Hst as [[Ld4 Le4] Hn4].
  apply ebind_Ok in Ha as (s5 & u5 & Hc & Ha). apply update_Ok in Hc as (n' & Hn' & He5 & Hd5). injection Ha as <- <-.
  rewrite Hi, lookup_insert_eq in Hn4. injection Hn4 as <-. rewrite Ld4, Hi, lookup_insert_eq in Hn'. injection Hn' as <-.
  split_and!; [done|done|congruence|]. by rewrite Hd5, Ld4, Hi, insert_insert_eq.
Qed.

Lemma strictly_path ps : ps <> [] -> strictly top (top ++ ps) = true.
Proof.
  intros H. apply strictly_spec. split; [apply below_parts; by eexists|]. intros E. apply (f_equal length) in E. rewrite length_app in E.
  destruct ps; cbn in *; [done|lia].
Qed.

Lemma closed_new (target : list pystr) (n : dnode) (t : dtree) : closed t -> t !! target = None -> is_directory t (removelast target) = true -> closed (<[target := n]> t).
Proof. intros Hc Hn Hd. apply closed_insert; [done|by right; left|]. intros x q ->. by rewrite removelast_last in Hd. Qed.

Lemma create_Ok ps name s s' child : Forall good_name (ps ++ [name]) ->
  _create_directory w max_files (top ++ ps) name (join_with 47 (ps ++ [name])) s = (s', Ok child) ->
  child = top ++ ps ++ [name] /\ extends [(IDir (join_with 47 (ps ++ [name])), [])] s s'.
Proof.
  intros Hps H. unfold _create_directory in H. rewrite <- app_assoc in H. set (target := top ++ ps ++ [name]) in *.
  apply ebind_Ok in H as (s1 & u1 & Hr & H). apply reserve_Ok in Hr as (Hlt & Hd1 & He1).
  apply ebind_Ok in H as (s2 & ino & Hm & H). apply make_directory_Ok in Hm as (Hn & Hdir & He2 & Hd2).
  apply ebind_Ok in H as (s3 & n & Hst & H). apply dstat_Ok in Hst as [[Ld3 Le3] _]. apply ebind_Ok in H as (s4 & u4 & Hp & H).
  injection Hp as <- _. injection H as <- <-. split; [done|]. rewrite Hd1 in *.
  assert (ps ++ [name] <> []) as Hne by (intros E; by apply app_nil in E as [_ ?]).
  assert (key top (IDir (join_with 47 (ps ++ [name]))) = target) as Hk by by apply key_join.
  split; cbn; rewrite ?Le3, ?He2, ?He1, ?Ld3, ?Hd2; cbn.
  - done.
  - done.
  - cbn. lia.
  - lia.
  - done.
  - intros rel. rewrite list_elem_of_singleton. destruct (decide (rel = join_with 47 (ps ++ [name]))) as [->|Hrel].
    + rewrite lookup_insert_eq. naive_solver.
    + rewrite lookup_insert_ne by done. split; [by left|]. by intros [?|[= ->]].
  - intros Hc. by apply closed_new.
  - intros old Hold. by apply covers_new; [..|by apply strictly_path| |].
  - intros q Hq. apply lookup_insert_ne. intros <-. unfold target in Hq. by rewrite strictly_path in Hq.
Qed.

Lemma view_chunks_Ok target l s s' u n : efor (copy_chunk w max_bytes target) l s = (s', Ok u) -> dst s !! target = Some n ->
  dst s' = <[target := DNode (d_dir n) (d_ino n) (d_perm n) (d_data n ++ concat l)]> (dst s) /\
  manifest (ext s') = manifest (ext s) /\ entries (ext s') = entries (ext s) /\ directories (ext s') = directories (ext s) /\
  bytes_copied (ext s') = (bytes_copied (ext s) + zlen (concat l))%Z /\
  (bytes_copied (ext s) <= max_bytes -> bytes_copied (ext s') <= max_bytes)%Z.
Proof.
  revert s n. induction l as [|c l IH]; cbn [efor]; intros s n H Hn.
  { injection H as <- _. cbn. rewrite app_nil_r, insert_id by (rewrite Hn; by destruct n). split_and!; try done. unfold zlen; cbn; lia. }
  apply ebind_Ok in H as (s1 & u1 & H1 & H). apply ebind_Ok in H1 as (s2 & u2 & Hadd & H1).
  apply ebind_Ok in Hadd as (s3 & u3 & Hp & Hadd). injection Hp as <- _. apply ebind_Ok in Hadd as (s4 & p & Hg & Hadd).
  apply get_Ok in Hg as [-> ->]. apply eguard_Ok in Hadd as [Hle ->]. cbn in Hle. apply Z.ltb_ge in Hle.
  apply update_Ok in H1 as (n1 & Hn1 & He & Hd). cbn in Hn1, He, Hd. rewrite Hn in Hn1. injection Hn1 as <-.
  eapply IH in H as (Hd' & Hm' & He' & Hdir' & Hb' & Hbb'); [|rewrite Hd; apply lookup_insert_eq]. cbn in *. rewrite Hd, insert_insert_eq in Hd'.
  rewrite He in *. cbn in *. rewrite Hd', Hm', He', Hdir', Hb', <- app_assoc. split_and!; try done.
  - unfold zlen. rewrite length_app. lia.
  - intros _. rewrite Hb' in Hbb'. auto.
Qed.

Lemma view_file_Ok ps fd name i s s' u : Forall good_name (ps ++ [name]) ->
  _copy_file w max_files max_bytes fd name (top ++ ps) (join_with 47 (ps ++ [name])) i s = (s', Ok u) ->
  exists n1 n2 n3 inode opened l,
    entry w n1 fd name = Some inode /\ info w n2 inode = Some opened /\ chunks w n3 inode = Some l /\
    extends [file_content (join_with 47 (ps ++ [name])) opened l] s s'.
Proof.
  intros Hps H. unfold _copy_file in H. rewrite <- app_assoc in H. set (target := top ++ ps ++ [name]) in *. set (rel := join_with 47 (ps ++ [name])) in *.
  apply ebind_Ok in H as (s1 & inode & Ho & H). apply or_refuse_Ok, src_Ok in Ho as [Hopen [Ld1 Le1]].
  destruct (entry w (clk s) fd name) as [inode'|] eqn:Hentry; [|done]. destruct (info w (clk s) inode') as [r0|]; [|done].
  destruct (is_kind Lnk r0); [done|]. injection Hopen as ->.
  apply ebind_Ok in H as (s2 & opened & Hf & H). apply src_Ok in Hf as [Hinfo [Ld2 Le2]].
  apply ebind_Ok in H as (s3 & u3 & Hg & H). apply eguard_Ok in Hg as [_ ->].
  apply ebind_Ok in H as (s4 & p & Hg & H). apply get_Ok in Hg as [-> ->].
  apply ebind_Ok in H as (s5 & u5 & Hg & H). apply eguard_Ok in Hg as [_ ->].
  apply ebind_Ok in H as (s6 & u6 & Hr & H). apply reserve_Ok in Hr as (Hlt & Hd6 & He6).
  apply ebind_Ok in H as (s7 & fresh & Hm & H). apply or_refuse_Ok in Hm. apply ebind_Ok in H as (s8 & u8 & Hg & H). apply eguard_Ok in Hg as [Hfr ->].
  apply negb_false_iff in Hfr as ->. apply make_Ok in Hm as (Hnone & Hdir & He7 & Hd7). rewrite Hd6, Ld2, Ld1 in *. rewrite Le2, Le1 in Hlt.
  apply ebind_Ok in H as (s9 & l & Hr & H). apply src_Ok in Hr as [Hl [Ld9 Le9]].
  apply ebind_Ok in H as (s10 & u10 & Hc & H).
  apply view_chunks_Ok with (n := DNode false (inodes s6) 384 []) in Hc as (Hd10 & Hm10 & He10 & Hdi10 & Hb10 & Hbb10); [|rewrite Ld9, Hd7; apply lookup_insert_eq].
  apply ebind_Ok in H as (s11 & u11 & Hch & H). apply update_Ok in Hch as (n & Hn & He11 & Hd11).
  rewrite Hd10, lookup_insert_eq in Hn. injection Hn as <-. cbn [d_dir d_ino d_perm d_data app] in *.
  apply ebind_Ok in H as (s12 & written & Hst & H). apply dstat_Ok in Hst as [[Ld12 Le12] _].
  apply ebind_Ok in H as (s13 & again & Hf & H). apply src_Ok in Hf as [_ [Ld13 Le13]].
  apply ebind_Ok in H as (s14 & u14 & Hg & H). apply eguard_Ok in Hg as [_ ->].
  apply ebind_Ok in H as (s15 & second & Hr & H). apply src_Ok in Hr as [_ [Ld15 Le15]].
  apply ebind_Ok in H as (s16 & last & Hla & H). assert (looked s15 s16) as [Ld16 Le16].
  { destruct (_ && _); [by apply src_Ok in Hla as [_ ?]|]. by injection Hla as <- _. }
  apply ebind_Ok in H as (s17 & u17 & Hg & H). apply eguard_Ok in Hg as [_ ->].
  apply ebind_Ok in H as (s18 & output & Hst & H). apply dstat_Ok in Hst as [[Ld18 Le18] _].
  apply ebind_Ok in H as (s19 & u19 & Hg & H). apply eguard_Ok in Hg as [_ ->]. injection H as <- _.
  exists (clk s), (clk s1), (clk s7), inode, opened, l. split_and!; [done..|].
  assert (ext s18 = ext s10) as E18 by congruence. assert (ext s9 = add_entry (ext s)) as E9 by congruence.
  rewrite E9 in Hm10, He10, Hdi10, Hb10, Hbb10. cbn in Hm10, He10, Hdi10, Hb10, Hbb10.
  assert (dst s18 = <[target := DNode false (inodes s6) (if executable_perm (f_perm opened) then 448 else 384)%Z (concat l)]> (dst s)) as D18.
  { rewrite Ld18, Ld16, Ld15, Ld13, Ld12, Hd11, Hd10, Ld9, Hd7, !insert_insert_eq. reflexivity. }
  assert (ps ++ [name] <> []) as Hne by (intros E; by apply app_nil in E as [_ ?]).
  assert (key top (IFile rel (zlen (concat l)) (sha256_hex (concat l)) (executable_perm (f_perm opened))) = target) as Hk by by apply key_join.
  split; cbn; rewrite ?E18, ?D18, ?Hm10, ?He10, ?Hdi10, ?Hb10; cbn.
  - done.
  - done.
  - lia.
  - lia.
  - intros Hb. rewrite <- Hb10. by apply Hbb10.
  - intros r. rewrite list_elem_of_singleton. naive_solver.
  - intros Hc. by apply closed_new.
  - intros old Hold. apply covers_new; [done|done|by apply strictly_path|done|]. unfold sealed. cbn. by split_and!.
  - intros q Hq. apply lookup_insert_ne. intros <-. unfold target in Hq. by rewrite strictly_path in Hq.
Qed.

Lemma component_Ok fd name s s' child : _open_directory_component w workspace_id fd name s = (s', Ok child) ->
  looked s s' /\ exists n, entry w n fd name = Some child.
Proof.
  intros H. apply ebind_Ok in H as (s1 & i & Hst & H). apply or_refuse_Ok, src_Ok in Hst as [_ L1].
  do 2 (apply ebind_Ok in H as (? & ? & Hg & H); apply eguard_Ok in Hg as [_ ->]).
  apply ebind_Ok in H as (s2 & child' & Ho & H). apply or_refuse_Ok, src_Ok in Ho as [Ho L2].
  apply ebind_Ok in H as (s3 & opened & Hf & H). apply src_Ok in Hf as [_ L3]. apply ebind_Ok in H as (s4 & u4 & Hg & H).
  apply eguard_Ok in Hg as [_ ->]. injection H as <- <-. split; [by do 2 (eapply looked_trans; [done|])|].
  destruct (entry w (clk s1) fd name) as [x|] eqn:E; [|done]. destruct (info w (clk s1) x) as [r|]; [|done]. destruct (is_kind Dir r); [|done].
  injection Ho as ->. by exists (clk s1).
Qed.

Lemma stat_at_Ok fd name s s' i : stat_at w fd name s = (s', Ok i) ->
  looked s s' /\ exists n inode, entry w n fd name = Some inode /\ info w n inode = Some i.
Proof.
  intros H. apply src_Ok in H as [H L]. split; [done|]. destruct (entry w (clk s) fd name) as [x|] eqn:E; [|done]. cbn in H.
  exists (clk s), x. done.
Qed.

(** *** Directories *)
Abbreviation reference := (dir_contents r_info r_entry r_list r_chunks).
Abbreviation reference_entry := (entry_contents r_info r_entry r_chunks).

(** Every entry lies at or below a place. *)
Definition within (ps : list pystr) (l : list content) : Prop :=
  Forall (fun c => exists ks, Forall good_name (ps ++ ks) /\ item_path c.1 = join_with 47 (ps ++ ks)) l.

Definition copies (descend : Z -> list pystr -> pystr -> eff (st CopyState) unit) (rec : Z -> pystr -> option (list content)) : Prop :=
  forall fd ps s s' u, ps <> [] -> Forall good_name ps -> descend fd (top ++ ps) (join_with 47 ps) s = (s', Ok u) ->
    exists l, extends l s s' /\ within ps l /\ (still -> rec fd (join_with 47 ps) = Some l).

Lemma within_weaken ps ks l : within (ps ++ ks) l -> within ps l.
Proof. intros H. eapply Forall_impl; [|exact H]. intros c (ks' & Hg & E). exists (ks ++ ks'). by rewrite app_assoc. Qed.

(** An entry that is copied, after the checks of its name. *)
Lemma kind_Ok descend rec ps fd name i s s' u n0 inode :
  copies descend rec -> Forall good_name (ps ++ [name]) -> entry w n0 fd name = Some inode -> info w n0 inode = Some i ->
  (if is_kind Dir i then
     let* child := _open_directory_component w workspace_id fd name in
     let* target := _create_directory w max_files (top ++ ps) name (join_with 47 (ps ++ [name])) in
     descend child target (join_with 47 (ps ++ [name]))
   else if is_kind Reg i then
     eguard (negb (f_nlink i =? 1)%Z) (refused "source view inputs must not contain hard links") ;;*
     _copy_file w max_files max_bytes fd name (top ++ ps) (join_with 47 (ps ++ [name])) i
   else eraise (refused "source view inputs must be ordinary files and directories")) s = (s', Ok u) ->
  exists l, extends l s s' /\ within (ps ++ [name]) l /\
    (still -> Forall good_name ps -> reference_entry rec fd (join_with 47 ps) name = Some l).
Proof.
  intros Hdesc Hps He Hi H. assert (ps ++ [name] <> []) as Hne by (intros E; by apply app_nil in E as [_ ?]). destruct (is_kind Dir i) eqn:Hk.
  - apply ebind_Ok in H as (s1 & child & Hc & H). apply component_Ok in Hc as [L1 (n1 & He1)].
    apply ebind_Ok in H as (s2 & target & Hm & H). apply create_Ok in Hm as [-> X2]; [|done].
    destruct (Hdesc child (ps ++ [name]) _ _ _ Hne Hps H) as (l & X3 & Hw & Hr).
    exists ([(IDir (join_with 47 (ps ++ [name])), [])] ++ l). split_and!.
    + eapply extends_after; [exact L1|]. by eapply extends_trans.
    + apply Forall_app. split; [|done]. constructor; [|constructor]. exists []. by rewrite app_nil_r.
    + intros Hs Hg. destruct (Hs n0) as (Ri & Re & _ & _). destruct (Hs n1) as (_ & Re1 & _ & _). rewrite Re in He. rewrite Re1, He in He1. injection He1 as ->.
      unfold entry_contents. rewrite He, <- Ri, Hi, Hk, child_path_join by done. cbn zeta. exact (f_equal (fmap (cons _)) (Hr Hs)).
  - destruct (is_kind Reg i) eqn:Hreg; [|done]. apply ebind_Ok in H as (s1 & u1 & Hg & H). apply eguard_Ok in Hg as [Hnl ->]. apply negb_false_iff in Hnl.
    apply view_file_Ok in H as (n1 & n2 & n3 & inode' & opened & l & He1 & Hi2 & Hc & X); [|done].
    eexists. split_and!; [exact X| |].
    + constructor; [|constructor]. exists []. by rewrite app_nil_r.
    + intros Hs Hg. destruct (Hs n0) as (Ri & Re & _ & _). destruct (Hs n1) as (_ & Re1 & _ & _). destruct (Hs n2) as (Ri2 & _ & _ & _).
      destruct (Hs n3) as (_ & _ & _ & Rc). rewrite Re in He. rewrite Re1, He in He1. injection He1 as <-. rewrite Ri in Hi. rewrite Ri2, Hi in Hi2. injection Hi2 as <-.
      unfold entry_contents. rewrite He, Hi, Hk, child_path_join by done. cbn zeta. by rewrite Hreg, Hnl, <- Rc, Hc.
Qed.

Lemma copy_name_Ok descend rec ps fd name s s' u :
  copies descend rec -> Forall good_name ps -> copy_name w max_files max_bytes workspace_id descend fd (top ++ ps) (join_with 47 ps) name s = (s', Ok u) ->
  exists l, extends l s s' /\ within ps l /\ (still -> reference_entry rec fd (join_with 47 ps) name = Some l).
Proof.
  intros Hdesc Hps H. apply ebind_Ok in H as (s1 & u1 & Hn & H). apply name_Ok in Hn as [-> Hn].
  assert (Forall good_name (ps ++ [name])) as Hps' by (apply Forall_app; split; [done|]; by constructor).
  rewrite child_path_join in H by done. apply ebind_Ok in H as (s2 & u2 & Hl & H).
  assert (s2 = s) as -> by (destruct (utf8_len _); [by apply eguard_Ok in Hl as [_ ->]|done]).
  apply ebind_Ok in H as (s3 & i & Hst & H). apply stat_at_Ok in Hst as [L3 (n0 & inode & He & Hi)].
  apply ebind_Ok in H as (s4 & u4 & Hg & H). apply eguard_Ok in Hg as [_ ->].
  apply (kind_Ok _ rec _ _ _ _ _ _ _ n0 inode) in H as (l & X & Hw & Hr); [|done..].
  exists l. split_and!; [by eapply extends_after|by apply within_weaken in Hw|]. intros Hs. by apply Hr.
Qed.

Lemma view_names_Ok descend rec ps fd names s s' u :
  copies descend rec -> Forall good_name ps ->
  efor (copy_name w max_files max_bytes workspace_id descend fd (top ++ ps) (join_with 47 ps)) names s = (s', Ok u) ->
  exists l, extends l s s' /\ within ps l /\ (still -> gather (reference_entry rec fd (join_with 47 ps)) names = Some l).
Proof.
  intros Hdesc Hps. revert s. induction names as [|name names IH]; cbn [efor]; intros s H.
  { injection H as <- _. exists []. split_and!; [by apply extends_looked|constructor|done]. }
  apply ebind_Ok in H as (s1 & u1 & H1 & H). apply (copy_name_Ok _ rec) in H1 as (l1 & X1 & W1 & R1); [|done..].
  apply IH in H as (l2 & X2 & W2 & R2). exists (l1 ++ l2). split_and!; [by eapply extends_trans|by apply Forall_app|].
  intros Hs. specialize (R1 Hs). specialize (R2 Hs). unfold gather in *. cbn [foldr]. by rewrite R1, R2.
Qed.

Lemma directory_Ok fuel : forall depth, copies (_copy_directory w max_files max_bytes workspace_id fuel depth) (reference fuel).
Proof.
  induction fuel as [|fuel IH]; intros depth fd ps s s' u Hne Hps H; [done|]. cbn [_copy_directory] in H.
  apply ebind_Ok in H as (s1 & u1 & Hg & H). apply eguard_Ok in Hg as [_ ->].
  apply ebind_Ok in H as (s2 & before & Hf & H). apply src_Ok in Hf as [_ L2].
  apply ebind_Ok in H as (s3 & sorted & Hl & H). apply scandir_Ok in Hl as (names & Hlist & -> & L3).
  apply ebind_Ok in H as (s4 & u4 & Hn & H). apply ebind_Ok in H as (s5 & after & Hf & H). apply src_Ok in Hf as [_ L5].
  apply ebind_Ok in H as (s6 & u6 & Hg & H). apply eguard_Ok in Hg as [_ ->].
  apply ebind_Ok in H as (s7 & now & Hl & H). apply scandir_Ok in Hl as (names' & _ & -> & L7). apply eguard_Ok in H as [_ ->].
  apply (view_names_Ok _ (reference fuel)) in Hn as (l & X & W & R); [|by apply IH|done]. exists l. split_and!; [|done|].
  - eapply extends_after; [by eapply looked_trans|]. eapply extends_before; [exact X|]. by eapply looked_trans.
  - intros Hs. cbn [dir_contents]. destruct (Hs (clk s2)) as (_ & _ & Hll & _). rewrite <- Hll, Hlist. by apply R.
Qed.

(** *** Include paths *)

(** An entry is above, at or below an include path. *)
Definition touches (parts : list pystr) (c : content) : Prop :=
  exists qs, Forall good_name qs /\ item_path c.1 = join_with 47 qs /\ (qs `prefix_of` parts \/ parts `prefix_of` qs).

Lemma within_touches ps l : within ps l -> Forall (touches ps) l.
Proof. apply Forall_impl. intros c (ks & Hg & E). exists (ps ++ ks). split_and!; [done..|]. right. by eexists. Qed.

(** The reference: entries [acc] are there already. *)
Fixpoint include_reference (acc : list content) (fd : Z) (relative : pystr) (parts : list pystr) : option (list content) :=
  match parts with
  | [] => Some acc
  | name :: rest =>
    match rest with
    | [] => app acc <$> reference_entry (reference FUEL) fd relative name
    | _ :: _ =>
      let rel := child_path relative name in
      match r_entry fd name with
      | Some i => include_reference (if bool_decide (IDir rel ∈ acc.*1) then acc else acc ++ [(IDir rel, [])]) i rel rest
      | None => None
      end
    end
  end.
Fixpoint view_reference (root : Z) (includes : list pystr) (acc : list content) : option (list content) :=
  match includes with
  | [] => Some acc
  | i :: rest => match include_reference acc root [] (split_on 47 i) with Some acc => view_reference root rest acc | None => None end
  end.

(** The directories made so far are those of the manifest. *)
Definition known s (acc : list content) : Prop := forall rel, is_Some (directories (ext s) !! rel) <-> IDir rel ∈ acc.*1.
Lemma known_extends l s s' acc : known s acc -> extends l s s' -> known s' (acc ++ l).
Proof. intros H X rel. rewrite (x_directories _ _ _ X), fmap_app, elem_of_app. by rewrite (H rel). Qed.

Lemma ensure_Ok ps name s s' child acc : Forall good_name (ps ++ [name]) -> known s acc ->
  _ensure_directory w max_files (top ++ ps) name (join_with 47 (ps ++ [name])) s = (s', Ok child) ->
  child = top ++ ps ++ [name] /\ exists l, extends l s s' /\ Forall (fun c => c = (IDir (join_with 47 (ps ++ [name])), [])) l /\
    acc ++ l = (if bool_decide (IDir (join_with 47 (ps ++ [name])) ∈ acc.*1) then acc else acc ++ [(IDir (join_with 47 (ps ++ [name])), [])]).
Proof.
  intros Hps Hk H. apply ebind_Ok in H as (s1 & c & Hg & H). apply get_Ok in Hg as [-> ->].
  pose proof (Hk (join_with 47 (ps ++ [name]))) as Hrel. destruct (directories (ext s) !! _) as [ino|] eqn:E.
  - apply ebind_Ok in H as (s1 & n & Hd & H). apply or_refuse_Ok, dstat_Ok in Hd as [L1 _]. apply ebind_Ok in H as (s2 & n2 & Hd & H).
    apply dstat_Ok in Hd as [L2 _]. apply ebind_Ok in H as (s3 & u3 & Hg & H). apply eguard_Ok in Hg as [_ ->]. injection H as <- <-.
    split; [by rewrite app_assoc|]. exists []. rewrite app_nil_r, bool_decide_eq_true_2 by by apply Hrel. split_and!; [|constructor|done].
    apply extends_looked. by eapply looked_trans.
  - apply create_Ok in H as [-> X]; [|done]. split; [done|]. eexists. rewrite bool_decide_eq_false_2; [|by intros Hin; apply Hrel in Hin as [? ?]].
    split_and!; [exact X|by repeat constructor|done].
Qed.

Lemma include_Ok fuel_ok index fd ps parts s s' u acc : fuel_ok = FUEL -> parts <> [] -> Forall good_name ps -> known s acc ->
  include_parts w max_files max_bytes workspace_id fuel_ok index fd (top ++ ps) (join_with 47 ps) parts s = (s', Ok u) ->
  exists l, extends l s s' /\ Forall (touches (ps ++ parts)) l /\ (still -> include_reference acc fd (join_with 47 ps) parts = Some (acc ++ l)).
Proof.
  intros ->. revert index fd ps s acc. induction parts as [|name rest IH]; intros index fd ps s acc Hne Hps Hk H; [done|]. cbn [include_parts] in H.
  apply ebind_Ok in H as (s1 & u1 & Hn & H). apply name_Ok in Hn as [-> Hn].
  assert (Forall good_name (ps ++ [name])) as Hps' by (apply Forall_app; split; [done|]; by constructor).
  rewrite child_path_join in H by done. destruct rest as [|name2 rest].
  - apply ebind_Ok in H as (s2 & i & Hst & H). apply or_refuse_Ok, stat_at_Ok in Hst as [L2 (n0 & inode & He & Hi)].
    apply ebind_Ok in H as (s3 & u3 & Hg & H). apply eguard_Ok in Hg as [_ ->].
    apply (kind_Ok _ (reference FUEL) _ _ _ _ _ _ _ n0 inode) in H as (l & X & Hw & Hr); [|by apply directory_Ok|done..].
    exists l. split_and!; [by eapply extends_after|by apply within_touches|]. intros Hs. cbn [include_reference]. by rewrite Hr.
  - apply ebind_Ok in H as (s2 & u2 & Hg & H). apply eguard_Ok in Hg as [_ ->].
    apply ebind_Ok in H as (s3 & child & Hc & H). apply component_Ok in Hc as [L3 (n3 & He)].
    apply ebind_Ok in H as (s4 & target & Hm & H). apply (ensure_Ok _ _ _ _ _ acc) in Hm as [-> (l1 & X1 & Hl1 & Eacc)]; [|done|].
    2:{ destruct L3 as [_ Le]. unfold known. by rewrite Le. }
    apply (IH _ _ (ps ++ [name]) _ (acc ++ l1)) in H as (l2 & X2 & T2 & R2); [|done|done|].
    2:{ eapply known_extends; [|exact X1]. destruct L3 as [_ Le]. unfold known. by rewrite Le. }
    rewrite <- app_assoc in T2. exists (l1 ++ l2). split_and!.
    + eapply extends_after; [exact L3|]. by eapply extends_trans.
    + apply Forall_app. split; [|exact T2]. eapply Forall_impl; [|exact Hl1]. intros c ->. exists (ps ++ [name]). split_and!; [done..|].
      left. exists (name2 :: rest). by rewrite <- app_assoc.
    + intros Hs. destruct (Hs n3) as (_ & Re & _ & _). rewrite Re in He. cbn [include_reference]. rewrite He, child_path_join, <- Eacc by done.
      rewrite app_assoc. by apply R2.
Qed.

Lemma includes_Ok root includes s s' u acc : known s acc ->
  efor (_materialize_include w max_files max_bytes workspace_id root top) includes s = (s', Ok u) ->
  exists l, extends l s s' /\ Forall (fun c => exists i, i ∈ includes /\ touches (split_on 47 i) c) l /\
    (still -> view_reference root includes acc = Some (acc ++ l)).
Proof.
  revert s acc. induction includes as [|i includes IH]; intros s acc Hk H; cbn [efor] in H.
  { injection H as <- _. exists []. split_and!; [by apply extends_looked|constructor|by rewrite app_nil_r]. }
  apply ebind_Ok in H as (s1 & u1 & H1 & H). unfold _materialize_include in H1. rewrite <- (app_nil_r top) in H1.
  apply (include_Ok FUEL _ _ [] _ _ _ _ acc) in H1 as (l1 & X1 & T1 & R1); [|done|apply split_on_nonempty|constructor|done].
  apply (IH _ (acc ++ l1)) in H as (l2 & X2 & T2 & R2); [|by eapply known_extends]. exists (l1 ++ l2). split_and!.
  - by eapply extends_trans.
  - apply Forall_app. split; [eapply Forall_impl; [|exact T1]; intros c Hc; exists i; split; [apply list_elem_of_here|done]|].
    eapply Forall_impl; [|exact T2]. intros c (j & Hj & Hc). exists j. split; [by apply list_elem_of_further|done].
  - intros Hs. cbn [view_reference]. specialize (R1 Hs). cbn [join_with] in R1. rewrite R1, app_assoc. by apply R2.
Qed.

(** *** The last checks change nothing *)
Lemma dcall_looked {A} (f : dtree -> option A) s s' a : dcall w (fun t => (t, f t)) s = (s', Ok a) -> looked s s'.
Proof. unfold dcall. destruct (dst_fails w (clk s)); [done|]. destruct (f (dst s)); [|done]. by intros [= <- _]. Qed.

Lemma efor_looked {A} (body : A -> eff (st CopyState) unit) l s s' u :
  (forall x s s' u, body x s = (s', Ok u) -> looked s s') -> efor body l s = (s', Ok u) -> looked s s'.
Proof.
  intros Hb. revert s. induction l as [|x l IH]; cbn [efor]; intros s H; [by injection H as <- _|].
  apply ebind_Ok in H as (s1 & u1 & H1 & H). eapply looked_trans; [by eapply Hb|by apply IH].
Qed.

Lemma recheck_source_looked p identity s s' u : _recheck_source_root look p identity s = (s', Ok u) -> looked s s'.
Proof.
  intros H. apply ebind_Ok in H as (s1 & i & Hl & H). apply or_refuse_Ok, src_Ok in Hl as [_ L]. by apply eguard_Ok in H as [_ ->].
Qed.

Lemma recheck_contents_looked fuel : forall p relative s s' u, _recheck_destination_contents w max_files fuel p relative s = (s', Ok u) -> looked s s'.
Proof.
  induction fuel as [|fuel IH]; intros p relative s s' u H; [done|]. cbn [_recheck_destination_contents] in H.
  apply ebind_Ok in H as (s1 & n & Hd & H). apply dstat_Ok in Hd as [L1 _]. apply ebind_Ok in H as (s2 & u2 & Hg & H).
  apply eguard_Ok in Hg as [_ ->]. apply ebind_Ok in H as (s3 & names & Hn & H).
  apply ebind_Ok in Hn as (s4 & l & Hdc & Hn). apply dcall_looked in Hdc. apply ebind_Ok in Hn as (s5 & u5 & Hg & Hn). apply eguard_Ok in Hg as [_ ->].
  injection Hn as <- _. apply ebind_Ok in H as (s6 & c & Hg & H). apply get_Ok in Hg as [-> ->]. apply ebind_Ok in H as (s7 & u7 & Hg & H).
  apply eguard_Ok in Hg as [_ ->]. eapply looked_trans; [exact L1|]. eapply looked_trans; [exact Hdc|]. eapply efor_looked; [|exact H].
  clear -IH. intros name s s' u H. apply ebind_Ok in H as (s1 & c & Hg & H). apply get_Ok in Hg as [-> ->].
  destruct (directories (ext s) !! child_path relative name) as [ino|].
  - apply ebind_Ok in H as (s2 & child & Ho & H). apply IH in H. eapply looked_trans; [|exact H].
    apply ebind_Ok in Ho as (s3 & n & Hd & Ho). apply or_refuse_Ok, dstat_Ok in Hd as [L3 _]. apply ebind_Ok in Ho as (s4 & n4 & Hd & Ho).
    apply dstat_Ok in Hd as [L4 _]. apply ebind_Ok in Ho as (s5 & u5 & Hg & Ho). apply eguard_Ok in Hg as [_ ->]. injection Ho as <- _.
    by eapply looked_trans.
  - destruct (files (ext s) !! child_path relative name) as [[[[ino size] perm] digest]|]; [|done].
    apply ebind_Ok in H as (s3 & n & Hd & H). apply or_refuse_Ok, dstat_Ok in Hd as [L3 _]. apply ebind_Ok in H as (s4 & u4 & Hg & H).
    apply eguard_Ok in Hg as [_ ->]. by apply eguard_Ok in H as [_ ->].
Qed.

(** What a view promises of its directory. *)
Record faithful (t : dtree) (m : list item) (digest : pystr) (includes : list pystr) (l : list content) : Prop := {
  f_manifest : m = l.*1;
  f_covers : covered t l;
  f_root : exists n, t !! top = Some n /\ d_dir n = true /\ d_perm n = 448%Z;
  f_paths : NoDup (item_path <$> m);
  f_digest : manifest_sha256 m = Ok digest;
  f_selected : Forall (fun c => exists i, i ∈ includes /\ touches (split_on 47 i) c) l;
  f_entries : (zlen m <= max_files)%Z;
  f_bytes : (sizes l <= max_bytes)%Z }.

Lemma insert_include_in x l y : y ∈ insert_include x l <-> y = x \/ y ∈ l.
Proof. induction l as [|z l IH]; cbn; [set_solver|]. case_match; rewrite !elem_of_cons; [done|]. rewrite IH. tauto. Qed.
Lemma by_parts_in l y : y ∈ by_parts l <-> y ∈ l.
Proof. induction l as [|x l IH]; [done|]. cbn. rewrite insert_include_in, elem_of_cons, IH. done. Qed.

Lemma fill_Ok policy source_path root_fd identity name ino s s' u :
  top = [name] -> (0 <= max_files)%Z -> (0 <= max_bytes)%Z -> ext s = Copying 0 0 [] ∅ ∅ ∅ -> closed (dst s) ->
  dst s !! top = Some (DNode true ino 448 []) -> (forall q, strictly top q = true -> dst s !! q = None) ->
  fill w lstat look geteuid max_files max_bytes workspace_id policy source_path root_fd identity name ino s = (s', Ok u) ->
  exists l, manifest (ext s') = l.*1 /\ covered (dst s') l /\ dst s' !! top = Some (DNode true ino 448 []) /\
    Forall (fun c => exists i, i ∈ include_paths policy /\ touches (split_on 47 i) c) l /\
    (zlen l <= max_files)%Z /\ (sizes l <= max_bytes)%Z /\ (forall q, strictly top q = false -> dst s' !! q = dst s !! q) /\
    (still -> view_reference root_fd (by_parts (include_paths policy)) [] = Some l).
Proof.
  intros Htop Hf Hb Hext Hc Hout Hempty H. unfold fill in H. rewrite <- Htop in H.
  apply ebind_Ok in H as (s1 & u1 & Hi & H). apply (includes_Ok _ _ _ _ _ []) in Hi as (l & X & T & R).
  2:{ intros rel. rewrite Hext. cbn. rewrite lookup_empty, elem_of_nil. split; [by intros [? ?]|done]. }
  apply ebind_Ok in H as (s2 & again & Hs & H). apply src_Ok in Hs as [_ [Ld2 Le2]]. apply ebind_Ok in H as (s3 & u3 & Hg & H).
  apply eguard_Ok in Hg as [_ ->]. apply ebind_Ok in H as (s4 & u4 & Hr & H). apply recheck_source_looked in Hr as [Ld4 Le4].
  apply ebind_Ok in H as (s5 & u5 & Hr & H). injection Hr as <- _. apply ebind_Ok in H as (s6 & u6 & Hr & H).
  apply recheck_contents_looked in Hr as [Ld6 Le6]. apply ebind_Ok in H as (s7 & n & Hd & H). apply or_refuse_Ok, dstat_Ok in Hd as [[Ld7 Le7] _].
  apply eguard_Ok in H as [_ ->]. assert (dst s7 = dst s1) as D by congruence. assert (ext s7 = ext s1) as E by congruence.
  destruct X as [M En B FB BB _ _ V F]. rewrite Hext in M, En, B, FB, BB. cbn in M, En, B, FB, BB. exists l. rewrite E, D. split_and!; try done.
  - apply (V []). by apply covers_nil.
  - rewrite F; [done|]. unfold strictly. by rewrite bool_decide_eq_true_2, andb_false_r.
  - eapply Forall_impl; [|exact T]. intros c (i & Hin & Hc'). exists i. split; [by apply by_parts_in|done].
  - specialize (FB Hf). lia.
  - specialize (BB Hb). lia.
Qed.
End Faithful.

(** ** The whole *)
Section Whole.
Context (w : world) (lstat : path -> res stat_info) (look : nat -> path -> option stat_result) (cwd : list pystr) (geteuid : Z).
Context (max_files max_bytes : Z) (workspace_id : Z * Z).
Implicit Types s : st CopyState.

Lemma validated_id policy p : validated lstat geteuid policy = Ok p -> p = policy.
Proof. unfold validated, rbind. repeat (case_match; try done). by intros [= ->]. Qed.

Lemma source_root_Ok p s s' r r_info r_entry r_list r_chunks : _open_source_root w look p s = (s', Ok r) ->
  looked s s' /\ (still r_info r_entry r_list r_chunks w -> find_dir r_entry (root_inode w) (tail p) = Some r.1).
Proof.
  intros H. apply ebind_Ok in H as (s1 & i & Hl & H). apply or_refuse_Ok, src_Ok in Hl as [_ L1].
  apply ebind_Ok in H as (s2 & u2 & Hg & H). apply eguard_Ok in Hg as [_ ->].
  apply ebind_Ok in H as (s3 & fd & Hw & H). apply (descent_Ok w r_info r_entry r_list r_chunks) in Hw as [L3 Hfd].
  apply ebind_Ok in H as (s4 & opened & Hf & H). apply src_Ok in Hf as [_ L4]. apply ebind_Ok in H as (s5 & u5 & Hg & H).
  apply eguard_Ok in Hg as [_ ->]. injection H as <- <-. split; [|exact Hfd]. by do 2 (eapply looked_trans; [done|]).
Qed.

Lemma materialize_Ok r_info r_entry r_list r_chunks source destination policy s s' m :
  closed (dst s) ->
  materialize_source_view w lstat look cwd geteuid max_files max_bytes workspace_id source destination policy s = (s', Ok m) ->
  (forall q, below [m_path m] q = false -> dst s' !! q = dst s !! q) /\
  exists l p, checked_directory lstat cwd source = Ok p /\
    faithful max_files max_bytes [m_path m] (dst s') (m_manifest m) (m_sha256 m) (include_paths policy) l /\
    (still r_info r_entry r_list r_chunks w -> exists fd, find_dir r_entry (root_inode w) (tail p) = Some fd /\
       view_reference r_info r_entry r_list r_chunks fd (by_parts (include_paths policy)) [] = Some l).
Proof.
  intros Hc H. unfold materialize_source_view in H.
  apply ebind_Ok in H as (s1 & pol & Hv & H). injection Hv as <- Hv. apply validated_id in Hv as ->.
  apply ebind_Ok in H as (s2 & u2 & Hg & H). apply eguard_Ok in Hg as [Hf ->]. apply ebind_Ok in H as (s3 & u3 & Hg & H). apply eguard_Ok in Hg as [Hb ->].
  unfold bounded in Hf, Hb. apply negb_false_iff, andb_true_iff in Hf as [Hf _]. apply negb_false_iff, andb_true_iff in Hb as [Hb _].
  apply ebind_Ok in H as (s4 & u4 & Hg & H). apply eguard_Ok in Hg as [_ ->]. apply ebind_Ok in H as (s5 & p & Hp & H). injection Hp as <- Hp.
  do 2 (apply ebind_Ok in H as (? & ? & Hg & H); apply eguard_Ok in Hg as [_ ->]). apply ebind_Ok in H as (s6 & u6 & Hr & H). injection Hr as <- _.
  apply ebind_Ok in H as (s7 & r & Hr & H). apply (source_root_Ok _ _ _ _ r_info r_entry r_list r_chunks) in Hr as [[Ld7 Le7] Hroot].
  apply ebind_Ok in H as (s8 & wfd & Hr & H). apply ebind_Ok in Hr as (s9 & wr & Hr & Hr2).
  apply (source_root_Ok _ _ _ _ r_info r_entry r_list r_chunks) in Hr as [[Ld9 Le9] _]. apply ebind_Ok in Hr2 as (s10 & u10 & Hg & Hr2).
  apply eguard_Ok in Hg as [_ ->]. injection Hr2 as <- _. apply ebind_Ok in H as (s11 & u11 & Hput & H). injection Hput as <- _.
  set (name := default [] (list.last (tail destination))) in *.
  apply ebind_Ok in H as (s12 & ino & Hm & H). apply make_directory_Ok in Hm as (Hn & Hdir & He & Hd). cbn [dst ext] in Hn, Hdir, He, Hd.
  apply ebind_Ok in H as (s13 & u13 & Hfill & H). unfold etry in Hfill.
  destruct (fill _ _ _ _ _ _ _ policy p r.1 r.2 name ino s12) as [s14 [u14|e]] eqn:Hf14.
  2:{ exfalso. apply ebind_Ok in Hfill as (? & ? & _ & ?). done. }
  injection Hfill as <- _. assert (dst s9 = dst s) as D9 by congruence. rewrite D9 in *.
  eapply (fill_Ok w lstat look geteuid max_files max_bytes workspace_id [name] r_info r_entry r_list r_chunks) in Hf14
    as (l & Hman & Hcov & Hout & Hsel & Hlen & Hsz & Hfr & Href); [|done|lia|lia|done| | |].
  2:{ rewrite Hd. by apply closed_new. }
  2:{ rewrite Hd. apply lookup_insert_eq. }
  2:{ intros q [Hq Hqn]%strictly_spec. rewrite Hd, lookup_insert_ne by done. by eapply closed_none. }
  apply ebind_Ok in H as (s15 & c & Hg & H). apply get_Ok in Hg as [-> ->]. apply ebind_Ok in H as (s16 & digest & Hdg & H).
  injection Hdg as <- Hdg. injection H as <- <-. cbn [m_path m_manifest m_sha256]. split.
  - intros q Hq. cbn [m_path] in Hq. assert (strictly [name] q = false) as Hq' by (unfold strictly; apply andb_false_iff; left; exact Hq).
    rewrite Hfr by exact Hq'. rewrite Hd. apply lookup_insert_ne. intros <-. by rewrite below_refl in Hq.
  - exists l, p. split_and!; [done| |].
    + rewrite Hman in *. split; try done; [by eexists| |].
      * destruct Hcov as (_ & _ & Hnd). apply (NoDup_fmap_1 (fun x => [name] ++ split_on 47 x)). by rewrite <- list_fmap_compose.
      * unfold zlen. by rewrite length_fmap.
    + intros Hs. exists r.1. split; [by apply Hroot|by apply Href].
Qed.

(** C13: a source view holds what its manifest says and nothing that was not
    selected.  When [materialize_source_view] succeeds, the new directory holds
    exactly the entries of the manifest, each path once, with their sizes and
    hashes; each of them lies above, at or below an included path; the limits on
    entries and bytes hold, the digest is that of the manifest, and nothing else
    in the workspace changed.  The source may change at any moment. *)
Theorem view_selected source destination policy s s' m :
  closed (dst s) ->
  materialize_source_view w lstat look cwd geteuid max_files max_bytes workspace_id source destination policy s = (s', Ok m) ->
  (forall q, below [m_path m] q = false -> dst s' !! q = dst s !! q) /\
  exists l, faithful max_files max_bytes [m_path m] (dst s') (m_manifest m) (m_sha256 m) (include_paths policy) l.
Proof.
  intros Hc H. destruct (materialize_Ok (fun _ => None) (fun _ _ => None) (fun _ => None) (fun _ => None) _ _ _ _ _ _ Hc H) as (Hfr & l & p & _ & Hl & _).
  split; [done|]. by exists l.
Qed.

(** C38: of a source that stands still, a view is an exact copy of what was
    selected: the manifest is the one the reference definition reads off the
    source, include path by include path, and every file holds its bytes. *)
Theorem view_exact r_info r_entry r_list r_chunks source destination policy s s' m :
  closed (dst s) -> still r_info r_entry r_list r_chunks w ->
  materialize_source_view w lstat look cwd geteuid max_files max_bytes workspace_id source destination policy s = (s', Ok m) ->
  exists p fd l, checked_directory lstat cwd source = Ok p /\ find_dir r_entry (root_inode w) (tail p) = Some fd /\
    view_reference r_info r_entry r_list r_chunks fd (by_parts (include_paths policy)) [] = Some l /\ m_manifest m = l.*1 /\
    forall c, c ∈ l -> exists n, dst s' !! key [m_path m] c.1 = Some n /\ sealed n c.
Proof.
  intros Hc Hs H. destruct (materialize_Ok r_info r_entry r_list r_chunks _ _ _ _ _ _ Hc H) as (_ & l & p & Hp & [Hm (H1 & _) _ _ _ _ _ _] & Href).
  destruct (Href Hs) as (fd & Hfd & Hl). exists p, fd, l. split_and!; [done..|]. intros c Hcin. by apply H1.
Qed.
End Whole.
End materialize.
