(* ===== verification/ViewRollback.v ===== *)
(** * A source view that fails ([supervisor/mirrorgate/source_view.py])

    What [materialize_source_view] undoes, and a small view to run it on. *)

From Stdlib Require Import ZArith Lia.
From stdpp Require Import base list gmap strings numbers.
From S2P Require Import Prelude PyJson JsonText Canonical Effects Paths SourceView Copying ViewCopy.
#[local] Open Scope res_scope.
#[local] Open Scope eff_scope.

Module rollback.
Import paths copying view materialize.

(** A sequence whose first step returns only certain values. *)
Lemma preserves_bind_post {S A B} (P : S -> Prop) (Q : A -> Prop) (m : eff S A) (f : A -> eff S B) :
  preserves P m -> (forall s s' a, m s = (s', Ok a) -> Q a) -> (forall a, Q a -> preserves P (f a)) -> preserves P (ebind m f).
Proof.
  intros Hm HQ Hf s Hs. specialize (Hm s Hs). specialize (HQ s). unfold ebind. destruct (m s) as [s' [a|e]]; [|done].
  apply Hf; [by eapply HQ|done].
Qed.

Lemma ebind_Err {S A B} (m : eff S A) (f : A -> eff S B) (s s' : S) e : ebind m f s = (s', Err e) ->
  m s = (s', Err e) \/ exists s1 a, m s = (s1, Ok a) /\ f a s1 = (s', Err e).
Proof. unfold ebind. destruct (m s) as [s1 [a|e1]]; [right; by exists s1, a|]. intros [= -> ->]. by left. Qed.

Section Failing.
Context (w : world) (lstat : path -> res stat_info) (look : nat -> path -> option stat_result) (cwd : list pystr) (geteuid : Z).
Context (max_files max_bytes : Z) (workspace_id : Z * Z).
Implicit Types s : st CopyState.

Lemma create_at out name relative s s' child : _create_directory w max_files out name relative s = (s', Ok child) -> child = out ++ [name].
Proof.
  intros H. do 4 (apply ebind_Ok in H as (? & ? & _ & H)). by injection H as _ <-.
Qed.

Lemma ensure_at out name relative s s' child : _ensure_directory w max_files out name relative s = (s', Ok child) -> child = out ++ [name].
Proof.
  intros H. apply ebind_Ok in H as (s1 & c & _ & H). destruct (directories c !! relative) as [ino|]; [|by eapply create_at].
  do 3 (apply ebind_Ok in H as (? & ? & _ & H)). by injection H as _ <-.
Qed.

(** ** Only what lies below the destination changes *)
Section Below.
Context (t0 : dtree) (top : list pystr).
#[local] Abbreviation kept := (framed (X:=CopyState) t0 (fun q => below top q = false)).

Lemma view_frame_chunk target chunk : below top target = true -> preserves kept (copy_chunk w max_bytes target chunk).
Proof. intros H. unfold copy_chunk, add_bytes, eguard, write. frames_using fail. Qed.

Lemma frame_make_directory p t m : below top p = true -> preserves kept (make_directory w p t m).
Proof. intros H. unfold make_directory, adopt, or_refuse, eguard, dstat, chmod. frames_using fail. Qed.

Lemma view_frame_file fd name out relative i : below top (out ++ [name]) = true ->
  preserves kept (_copy_file w max_files max_bytes fd name out relative i).
Proof.
  intros H. unfold _copy_file, or_refuse, reserve_entry, eguard, chmod, dstat, open_file, fstat, read_all.
  frames_using ltac:(apply frame_efor; intros chunk; by apply view_frame_chunk).
Qed.

Lemma frame_create out name relative : below top (out ++ [name]) = true -> preserves kept (_create_directory w max_files out name relative).
Proof.
  intros H. unfold _create_directory, reserve_entry, eguard, dstat. frames_using ltac:(by apply frame_make_directory).
Qed.

Lemma frame_component fd name : preserves kept (_open_directory_component w workspace_id fd name).
Proof. unfold _open_directory_component, or_refuse, eguard, stat_at, open_dir, fstat. frames_using fail. Qed.

Lemma below_child out name : below top out = true -> below top (out ++ [name]) = true.
Proof. intros H. eapply below_trans; [exact H|]. apply below_parts. by eexists. Qed.

Lemma frame_checked_name name : preserves kept (_checked_name name).
Proof. unfold _checked_name, eguard. frames_using fail. Qed.

Lemma frame_copy_name descend fd out relative name : below top out = true ->
  (forall child o rel, below top o = true -> preserves kept (descend child o rel)) ->
  preserves kept (copy_name w max_files max_bytes workspace_id descend fd out relative name).
Proof.
  intros H Hd. pose proof (below_child out name H) as Ht. unfold copy_name.
  apply preserves_bind; [apply frame_checked_name|intros _]. apply preserves_bind; [unfold eguard; frames_using fail|intros _].
  apply preserves_bind; [apply frame_src|intros i]. apply preserves_bind; [apply frame_lift|intros _].
  destruct (is_kind Dir i).
  - apply preserves_bind; [apply frame_component|intros child]. eapply preserves_bind_post; [by apply frame_create|intros ???; apply create_at|].
    intros target ->. by apply Hd.
  - unfold eguard. frames_using ltac:(by apply view_frame_file).
Qed.

Lemma frame_copy_directory fuel : forall depth fd out relative, below top out = true ->
  preserves kept (_copy_directory w max_files max_bytes workspace_id fuel depth fd out relative).
Proof.
  induction fuel as [|fuel IH]; intros depth fd out relative H; cbn [_copy_directory]; [apply frame_raise|].
  unfold eguard, fstat, _listed_names. frames_using ltac:(apply frame_efor; intros name; apply frame_copy_name; [done|]; intros; by apply IH).
Qed.

Lemma frame_ensure out name relative : below top (out ++ [name]) = true -> preserves kept (_ensure_directory w max_files out name relative).
Proof.
  intros H. unfold _ensure_directory, _open_destination_directory, or_refuse, eguard, dstat. frames_using ltac:(by apply frame_create).
Qed.

Lemma frame_include fuel parts : forall index fd out relative, below top out = true ->
  preserves kept (include_parts w max_files max_bytes workspace_id fuel index fd out relative parts).
Proof.
  induction parts as [|name rest IH]; intros index fd out relative H; cbn [include_parts]; [apply frame_ret|].
  pose proof (below_child out name H) as Ht. apply preserves_bind; [apply frame_checked_name|intros _]. destruct rest as [|name2 rest].
  - apply preserves_bind; [unfold or_refuse, stat_at; frames_using fail|intros i]. apply preserves_bind; [apply frame_lift|intros _].
    destruct (is_kind Dir i).
    + apply preserves_bind; [apply frame_component|intros child]. eapply preserves_bind_post; [by apply frame_create|intros ???; apply create_at|].
      intros target ->. by apply frame_copy_directory.
    + unfold eguard. frames_using ltac:(by apply view_frame_file).
  - apply preserves_bind; [apply frame_lift|intros _]. apply preserves_bind; [apply frame_component|intros child].
    eapply preserves_bind_post; [by apply frame_ensure|intros ???; apply ensure_at|]. intros target ->. by apply IH.
Qed.

Lemma frame_contents fuel : forall p relative, preserves kept (_recheck_destination_contents w max_files fuel p relative).
Proof.
  induction fuel as [|fuel IH]; intros p relative; cbn [_recheck_destination_contents]; [apply frame_raise|].
  unfold destination_names, _open_destination_directory, or_refuse, eguard, dstat. frames_using ltac:(first [apply IH|apply frame_efor; intros name]).
Qed.

End Below.

Lemma frame_fill t0 policy p fd identity name ino :
  preserves (framed t0 (fun q => below [name] q = false)) (fill w lstat look geteuid max_files max_bytes workspace_id policy p fd identity name ino).
Proof.
  unfold fill, _materialize_include, _recheck_source_root, recheck_workspace, _recheck_destination, or_refuse, eguard, fstat, dstat.
  frames_using ltac:(first [apply frame_contents|apply frame_efor; intros i; apply frame_include; apply below_refl]).
Qed.

(** ** Before the destination is made *)

(** Nothing is changed. *)
Definition rest (t0 : dtree) (i0 : Z) s : Prop := dst s = t0 /\ inodes s = i0.

Lemma preserves_try {S A} (P : S -> Prop) (m : eff S A) caught h : preserves P m -> (forall e, preserves P (h e)) -> preserves P (etry m caught h).
Proof.
  intros Hm Hh s Hs. specialize (Hm s Hs). unfold etry. destruct (m s) as [s1 [a|e]]; [done|]. destruct (caught e); [by apply Hh|done].
Qed.

Lemma rest_walk t0 i0 fd parts : preserves (rest t0 i0) (walk w fd parts).
Proof. revert fd. induction parts as [|part parts IH]; intros fd; [by intros s|]. apply preserves_bind; [by intros s|done]. Qed.

Lemma rest_source_root t0 i0 p : preserves (rest t0 i0) (_open_source_root w look p).
Proof.
  apply preserves_bind; [apply preserves_try; by intros ? s|intros i]. apply preserves_bind; [by intros s|intros _].
  apply preserves_bind; [apply rest_walk|intros fd]. apply preserves_bind; [by intros s|intros opened]. apply preserves_bind; by intros ? s.
Qed.

Lemma rest_workspace_root t0 i0 p i : preserves (rest t0 i0) (_open_workspace_root w look p i).
Proof. apply preserves_bind; [apply rest_source_root|intros opened]. apply preserves_bind; by intros ? s. Qed.

(** ** Making the destination *)
Lemma make_still p dir perm s s1 x : make w p dir perm s = (s1, x) -> x <> Ok true -> dst s1 = dst s /\ inodes s1 = (inodes s + 1)%Z.
Proof.
  unfold make, dcall. destruct (dst_fails w (clk s)); [by intros [= <- <-]|]. destruct (negb (is_directory _ _)); [by intros [= <- <-]|].
  destruct (dst s !! p); intros [= <- <-]; done.
Qed.

(** Either the name was given back or the empty directory is there. *)
Lemma make_directory_Err p t m s s' e : make_directory w p t m s = (s', Err e) ->
  dst s' = dst s \/ dst s' = <[p := DNode true (inodes s) 448 []]> (dst s) /\ e = refused m.
Proof.
  intros H. apply ebind_Err in H as [H|(s1 & fresh & Hm & H)].
  - left. unfold or_refuse, etry in H. destruct (make w p true MODE s) as [s1 [a|e1]] eqn:Hm; [done|]. apply make_still in Hm as [Hm _]; [|done].
    destruct (is_os_error e1); by injection H as <- _.
  - apply or_refuse_Ok in Hm. rewrite ebind_guard in H. destruct fresh.
    2:{ apply make_still in Hm as [Hm _]; [|done]. injection H as <- _. by left. }
    pose proof Hm as (Hn & _ & _ & Hd)%make_Ok. cbn [negb] in H. unfold adopt, etry in H.
    destruct ((let* n := dstat w p in chmod w p MODE ;;* eret (d_ino n)) s1) as [s3 [i|e3]] eqn:Ha; [done|].
    assert (dst s3 = dst s1 /\ e3 = OSError) as [D3 ->].
    { clear -Ha. apply ebind_Err in Ha as [Ha|(s4 & n & Hst & Ha)].
      - unfold dstat, dcall in Ha. by destruct (dst_fails w (clk s1)); [|destruct (dst s1 !! p); [done|]]; injection Ha as <- <-.
      - apply dstat_Ok in Hst as [[<- _] _]. apply ebind_Err in Ha as [Ha|(? & ? & _ & Ha)]; [|done]. unfold chmod, update, dcall in Ha.
        destruct (dst_fails w (clk s4)); [by injection Ha as <- <-|]. destruct (dst s4 !! p); [done|]. by injection Ha as <- <-. }
    assert (e = refused m /\ (dst s' = dst s3 \/ dst s' = delete p (dst s3))) as [-> [E|E]].
    { clear -H. cbn [is_os_error] in H. unfold ebind at 1, unlink_dir, dcall in H. destruct (dst_fails w (clk s3)); [cbn in H; injection H as <- <-; split; [done|by left]|].
      destruct (_ && _); cbn in H; injection H as <- <-; (split; [done|]); [by right|by left]. }
    + right. by rewrite E, D3, Hd.
    + left. rewrite E, D3, Hd. apply delete_insert_id. exact Hn.
Qed.

(** ** Removing it by its identity *)
Lemma find_identity_only ino name names s s' r :
  (forall x n, x <> name -> dst s !! [x] = Some n -> d_ino n <> ino) ->
  find_identity w ino names s = (s', r) -> dst s' = dst s /\ forall x, r = Ok (Some x) -> x = name.
Proof.
  revert s. induction names as [|x names IH]; intros s Hino H; cbn [find_identity] in H; [by injection H as <- <-|].
  unfold ebind, dstat, dcall in H. destruct (dst_fails w (clk s)); [by injection H as <- <-|]. destruct (dst s !! [x]) as [n|] eqn:E; [|by injection H as <- <-].
  cbn in H. destruct (d_dir n && _) eqn:Ei; [|apply IH in H; [|done]; exact H].
  injection H as <- <-. split; [done|]. intros y [= <-]. destruct (decide (x = name)) as [|Hne]; [done|].
  exfalso. apply andb_true_iff in Ei as [_ Ei%Z.eqb_eq]. by apply (Hino x n).
Qed.

Lemma remove_pinned t0 name ino s s' u :
  closed t0 -> t0 !! [name] = None -> framed t0 (fun q => below [name] q = false) s ->
  (forall x n, t0 !! [x] = Some n -> d_ino n <> ino) ->
  _remove_pinned_destination w ino s = (s', Ok u) -> dst s' = t0.
Proof.
  intros Hc Hn Hf Hino H. apply ebind_Ok in H as (s1 & names & Hl & H). apply dcall_looked in Hl as [L1 _].
  apply ebind_Ok in H as (s2 & found & Hfi & H). apply (find_identity_only _ name) in Hfi as [L2 Hx].
  - destruct found as [x|]; [|done]. rewrite (Hx x) in H by done.
    eapply undone; [exact Hc|exact Hn| |exact H]. by eapply framed_same; [|exact Hf]; congruence.
  - rewrite L1. intros x n Hne. destruct Hf as [_ HK]. rewrite HK; [apply Hino|]. apply not_true_iff_false. intros [k [= Hk _]]%below_parts. done.
Qed.

(** The body of the [try] that fails, and what is undone. *)
Lemma undo_Err t0 name ino s s' e (A : Type) (m : eff (st CopyState) A) :
  closed t0 -> t0 !! [name] = None -> (forall x n, t0 !! [x] = Some n -> d_ino n <> ino) ->
  preserves (framed t0 (fun q => below [name] q = false)) m -> framed t0 (fun q => below [name] q = false) s ->
  etry m (fun _ => true) (fun e => etry (_remove_pinned_destination w ino) (fun _ => true) (fun _ => eraise ROLLBACK) ;;* eraise e) s = (s', Err e) ->
  dst s' = t0 \/ e = ROLLBACK.
Proof.
  intros Hc Hn Hino Hm Hs H. specialize (Hm s Hs). unfold etry at 1 in H. destruct (m s) as [s1 [a|e1]]; [done|]. cbn [fst] in Hm.
  apply ebind_Err in H as [H|(s2 & u & H2 & H)].
  - right. unfold etry in H. destruct (_remove_pinned_destination w ino s1) as [s2 [u|e2]]; [done|]. by injection H as _ <-.
  - left. injection H as <- _. unfold etry in H2. destruct (_remove_pinned_destination w ino s1) as [s3 [u3|e3]] eqn:Hr; [|done].
    injection H2 as <- _. exact (remove_pinned _ _ _ _ _ _ Hc Hn Hm Hino Hr).
Qed.

Lemma make_directory_ino p t m s s' ino : make_directory w p t m s = (s', Ok ino) -> ino = inodes s.
Proof.
  intros H. apply ebind_Ok in H as (s1 & fresh & Hm & H). apply or_refuse_Ok in Hm. apply ebind_Ok in H as (s2 & u & Hg & H).
  apply eguard_Ok in Hg as [Hf ->]. apply negb_false_iff in Hf as ->. apply make_Ok in Hm as (_ & _ & _ & Hd). unfold adopt, etry in H.
  destruct ((let* n := dstat w p in chmod w p MODE ;;* eret (d_ino n)) s1) as [s3 [i|e]] eqn:Ha.
  2:{ destruct (is_os_error e); [|done]. by apply ebind_Ok in H as (? & ? & _ & H). }
  injection H as <- <-. apply ebind_Ok in Ha as (s4 & n & Hst & Ha). apply dstat_Ok in Hst as [_ Hn4].
  apply ebind_Ok in Ha as (s5 & u5 & _ & Ha). injection Ha as <- <-. rewrite Hd, lookup_insert_eq in Hn4. by injection Hn4 as <-.
Qed.

(** The directory is made; filling it fails and is undone, or succeeds, and then
    the manifest has a digest. *)
Lemma filled_Err t0 policy p fd identity name s s' e :
  closed t0 -> (forall x n, t0 !! [x] = Some n -> (d_ino n < inodes s)%Z) ->
  bounded max_files = true -> bounded max_bytes = true -> dst s = t0 -> ext s = Copying 0 0 [] ∅ ∅ ∅ ->
  (let* ino := _create_destination w name in
   etry (fill w lstat look geteuid max_files max_bytes workspace_id policy p fd identity name ino) (fun _ => true)
     (fun e => etry (_remove_pinned_destination w ino) (fun _ => true) (fun _ => eraise ROLLBACK) ;;* eraise e) ;;*
   let* c := get in let* digest := elift (manifest_sha256 (manifest c)) in eret (Materialized name digest (manifest c))) s = (s', Err e) ->
  dst s' = t0 \/ e = ROLLBACK \/
  exists name ino, dst s' = <[[name] := DNode true ino 448 []]> t0 /\ e = refused "source view destination could not be published".
Proof.
  intros Hc Hino Hf Hb <- Hext H. unfold bounded in Hf, Hb. apply andb_true_iff in Hf as [Hf _]. apply andb_true_iff in Hb as [Hb _].
  apply ebind_Err in H as [H|(s1 & ino & Hm & H)].
  { apply make_directory_Err in H as [H|[H E]]; [by left|]. right. right. by exists name, (inodes s). }
  pose proof (make_directory_ino _ _ _ _ _ _ Hm) as Ei. apply make_directory_Ok in Hm as (Hn & Hroot & He & Hd).
  assert (closed (dst s1)) as Hc1 by (rewrite Hd; by apply closed_new).
  assert (framed (dst s) (fun q => below [name] q = false) s1) as Hf1.
  { split; [done|]. intros q Hq. rewrite Hd. apply lookup_insert_ne. intros <-. by rewrite below_refl in Hq. }
  apply ebind_Err in H as [H|(s2 & u & Hfill & H)].
  { apply (undo_Err (dst s) name ino) in H as [H|H]; [by left|by right; left|done|done| |by apply frame_fill|done].
    intros x n Hx%Hino. lia. }
  exfalso. unfold etry in Hfill. destruct (fill _ _ _ _ _ _ _ policy p fd identity name ino s1) as [s3 [u3|e3]] eqn:Hf3.
  2:{ by apply ebind_Ok in Hfill as (? & ? & _ & ?). }
  injection Hfill as <- _.
  eapply (fill_Ok w lstat look geteuid max_files max_bytes workspace_id [name] (fun _ => None) (fun _ _ => None) (fun _ => None) (fun _ => None)) in Hf3
    as (l & Hman & Hcov & _ & Hsel & _); [|done|lia|lia|by rewrite He|done|rewrite Hd; apply lookup_insert_eq|].
  2:{ intros q [Hq Hqn]%strictly_spec. rewrite Hd, lookup_insert_ne by done. by eapply closed_none. }
  apply ebind_Err in H as [H|(s4 & c & Hg & H)]; [done|]. apply get_Ok in Hg as [-> ->].
  destruct (manifest_encodes (manifest (ext s3))) as [digest Hdg]; [|by rewrite ebind_lift, Hdg in H].
  rewrite Hman. apply list.Forall_forall. intros i (c & -> & Hc')%list_elem_of_fmap. rewrite list.Forall_forall in Hsel.
  destruct (Hsel c Hc') as (_ & _ & qs & Hqs & E & _). split; [rewrite E; by apply join_scalars|].
  destruct Hcov as (H1 & _). destruct (H1 c Hc') as (_ & n & _ & Hs). unfold sealed in Hs. destruct c.1; [done|].
  destruct Hs as (_ & _ & _ & _ & ->). eapply match_hex_scalars, sha256_hex_match.
Qed.

(** The tree has a directory above every entry, and no inode of it is free. *)
Definition well_numbered (s : st CopyState) : Prop := closed (dst s) /\ forall p n, dst s !! p = Some n -> (d_ino n < inodes s)%Z.

(** C39: a source view that fails leaves nothing behind, or says so.  When
    [materialize_source_view] raises, the workspace is as it was; otherwise the
    error is the one that says the rollback failed, or the new directory could
    neither be opened nor removed again, and it is still empty. *)
Theorem failed_view_undone source destination policy s s' e :
  well_numbered s ->
  materialize_source_view w lstat look cwd geteuid max_files max_bytes workspace_id source destination policy s = (s', Err e) ->
  dst s' = dst s \/ e = ROLLBACK \/
  exists name ino, dst s' = <[[name] := DNode true ino 448 []]> (dst s) /\ e = refused "source view destination could not be published".
Proof.
  intros [Hc Hino] H. unfold materialize_source_view in H.
  rewrite ebind_lift in H. destruct (validated lstat geteuid policy) as [pol|e1]; [|injection H as <- _; by left].
  rewrite ebind_guard in H. destruct (bounded max_files) eqn:Hf; cbn [negb] in H; [|injection H as <- _; by left].
  rewrite ebind_guard in H. destruct (bounded max_bytes) eqn:Hb; cbn [negb] in H; [|injection H as <- _; by left].
  rewrite ebind_guard in H. destruct (_ || _) in H; [injection H as <- _; by left|].
  rewrite ebind_lift in H. destruct (checked_directory lstat cwd source) as [p|e1]; [|injection H as <- _; by left].
  rewrite ebind_guard in H. destruct (_ || _) in H; [injection H as <- _; by left|].
  rewrite ebind_guard in H. destruct (existsb _ _) in H; [injection H as <- _; by left|].
  unfold recheck_workspace at 1 in H. rewrite ebind_lift in H. destruct (_recheck_workspace_root _ _ _ _) as [u|e1] in H; [|injection H as <- _; by left].
  assert (rest (dst s) (inodes s) s) as Hr by done. pose proof (rest_source_root _ _ p _ Hr) as Hr1.
  apply ebind_Err in H as [H|(s1 & r & H1 & H)]; [rewrite H in Hr1; left; apply Hr1|]. rewrite H1 in Hr1. cbn [fst] in Hr1.
  pose proof (rest_workspace_root _ _ (workspace_root pol) (workspace_identity pol) _ Hr1) as Hr2.
  apply ebind_Err in H as [H|(s2 & wfd & H2 & H)]; [rewrite H in Hr2; left; apply Hr2|]. rewrite H2 in Hr2. destruct Hr2 as [D2 I2]. cbn [fst] in D2, I2.
  apply ebind_Err in H as [H|(s3 & u3 & H3 & H)]; [done|]. injection H3 as <- _.
  eapply filled_Err in H; [exact H|done| |done|done|exact D2|done]. cbn [inodes]. rewrite I2. intros x n. apply Hino.
Qed.
End Failing.

(** ** A view of one file of a source of two *)
Definition small_info (inode : Z) : option stat_result :=
  if (inode =? 4)%Z then Some (SR Reg 1 4 493 1 1 7 7)
  else if (inode =? 5)%Z then Some (SR Dir 1 5 448 2 0 7 7)
  else if (inode =? 6)%Z then Some (SR Reg 1 6 420 1 1 7 7)
  else Some (SR Dir 1 inode 493 2 0 7 7).
Definition small_entry (inode : Z) (name : pystr) : option Z :=
  if bool_decide ((inode, name) = (1%Z, str "src")) then Some 2%Z
  else if bool_decide ((inode, name) = (1%Z, str "ws")) then Some 5%Z
  else if bool_decide ((inode, name) = (2%Z, str "a")) then Some 3%Z
  else if bool_decide ((inode, name) = (2%Z, str "secret")) then Some 6%Z
  else if bool_decide ((inode, name) = (3%Z, str "f")) then Some 4%Z else None.
Definition small_list (inode : Z) : option (list pystr) :=
  if (inode =? 2)%Z then Some [str "secret"; str "a"] else if (inode =? 3)%Z then Some [str "f"] else Some [].
Definition small_chunks (inode : Z) : option (list bytes) := Some [str "x"].
Definition small : world :=
  World 1 (fun _ => small_info) (fun _ => small_entry) (fun _ => small_list) (fun _ => small_chunks) (fun _ => false) (fun _ _ => false).
Definition small_lstat (p : path) : res stat_info :=
  Ok (if bool_decide (p = parse_path (str "/ws")) then Stat Dir 1 5 1000 448 else Stat Dir 1 1 1000 493).
Definition small_look (_ : nat) (p : path) : option stat_result :=
  if bool_decide (p = parse_path (str "/ws")) then small_info 5 else small_info 2.
Definition small_policy : SourceViewPolicy :=
  ViewPolicy SOURCE_VIEW_SCHEMA (parse_path (str "/ws")) (1, 5)%Z [str "a/f"] match selector_sha256 [str "a/f"] with Ok d => d | Err _ => [] end.
Definition workspace : st CopyState := St 0 {[ [] := DNode true 5 448 [] ]} 10 (Copying 0 0 [] ∅ ∅ ∅).
Definition viewing (max_files : Z) : st CopyState * res SourceViewMaterialization :=
  materialize_source_view small small_lstat small_look [] 1000 max_files 100 (1, 5)%Z (parse_path (str "/src")) (parse_path (str "/ws/view")) small_policy workspace.

Lemma workspace_closed : closed (dst workspace).
Proof. intros p x [n H]. cbn in H. rewrite lookup_singleton_ne in H; [done|]. intros E. by destruct p. Qed.
Lemma workspace_fresh p n : dst workspace !! p = Some n -> (d_ino n < inodes workspace)%Z.
Proof. cbn. intros [_ <-]%lookup_singleton_Some. cbn. lia. Qed.

Definition shown (p : st CopyState * res SourceViewMaterialization) : option (pystr * list item) :=
  match p.2 with Ok m => Some (m_path m, m_manifest m) | Err _ => None end.
Lemma shown_Ok p x : shown p = Some x -> exists m, p = (p.1, Ok m) /\ m_path m = x.1 /\ m_manifest m = x.2.
Proof. destruct p as [s [m|e]]; [|done]. intros [= <-]. by exists m. Qed.
Lemma viewing_shown : shown (viewing 10) = Some (str "view", [IDir (str "a"); IFile (str "a/f") 1 (sha256_hex (str "x")) true]).
Proof. vm_compute. reflexivity. Qed.

Lemma view_selected_witness : exists m l, (viewing 10).2 = Ok m /\
  faithful 10 100 [str "view"] (dst (viewing 10).1) (m_manifest m) (m_sha256 m) [str "a/f"] l.
Proof.
  destruct (shown_Ok _ _ viewing_shown) as (m & Hm & Hp & _).
  destruct (view_selected small small_lstat small_look [] 1000 10 100 (1, 5)%Z (parse_path (str "/src")) (parse_path (str "/ws/view")) small_policy
    workspace (viewing 10).1 m workspace_closed Hm) as (_ & l & Hl).
  exists m, l. rewrite Hp in Hl. exact (conj (f_equal snd Hm) Hl).
Defined.

Lemma view_exact_witness : exists l,
  view_reference small_info small_entry small_list small_chunks 2 [str "a/f"] [] = Some l /\
  l.*1 = [IDir (str "a"); IFile (str "a/f") 1 (sha256_hex (str "x")) true].
Proof.
  destruct (shown_Ok _ _ viewing_shown) as (m & Hm & Hp & Hman).
  destruct (view_exact small small_lstat small_look [] 1000 10 100 (1, 5)%Z small_info small_entry small_list small_chunks
    (parse_path (str "/src")) (parse_path (str "/ws/view")) small_policy workspace (viewing 10).1 m workspace_closed) as (p & fd & l & Hp' & Hfd & Hl & Hm' & _);
    [intros n; split_and!; reflexivity|exact Hm|].
  exists l. injection Hp' as <-. injection Hfd as <-. split; [exact Hl|]. rewrite <- Hm'. exact Hman.
Defined.

(** Too many entries: the workspace is as it was. *)
Definition view_refused (p : st CopyState * res SourceViewMaterialization) (m : string) : bool :=
  match p.2 with Err (AdmissionError m') => bool_decide (m' = m) | _ => false end.
Lemma view_refused_Err p m : view_refused p m = true -> p = (p.1, Err (AdmissionError m)).
Proof. destruct p as [s [a|[]]]; try done. cbn. intros H. by apply bool_decide_eq_true in H as ->. Qed.
Lemma viewing_refused : view_refused (viewing 1) "source view exceeds the snapshot file bound" = true.
Proof. vm_compute. reflexivity. Qed.

Lemma failed_view_undone_witness : dst (viewing 1).1 = dst workspace.
Proof.
  destruct (failed_view_undone small small_lstat small_look [] 1000 1 100 (1, 5)%Z (parse_path (str "/src")) (parse_path (str "/ws/view")) small_policy
    workspace _ _ (conj workspace_closed workspace_fresh) (view_refused_Err _ _ viewing_refused)) as [H|[H|(name & ino & _ & H)]].
  - exact H.
  - discriminate H.
  - discriminate H.
Defined.
End rollback.
