(* ===== verification/FreezePath.v ===== *)
(** * Freezing a path ([supervisor/mirrorgate/artifacts.py], [freeze_path])

    A directory is snapshot as it is; a file is first copied into a directory of
    its own, made in the directory the snapshots lie in. *)

From Stdlib Require Import ZArith Lia.
From stdpp Require Import base list gmap strings numbers.
From S2P Require Import Prelude PyJson JsonText Canonical Effects Paths Copying Snapshot.
#[local] Open Scope res_scope.
#[local] Open Scope eff_scope.

Module single.
Import paths copying snapshot.

(** [look] is [raw.lstat()] with every field. *)
Section Path.
Context (w : world) (lstat : path -> res stat_info) (look : nat -> path -> option stat_result) (cwd : list pystr) (max_files max_bytes : Z).
Abbreviation snap := (eff (st progress)).

(** [raw.name] and [raw.parent] *)
Definition path_name (p : path) : pystr := default [] (list.last (tail p)).
Definition path_parent (p : path) : path := Path (root p) (removelast (tail p)).

(** The chunks are written under the byte limit; [size] is what was read. *)
Fixpoint stage_chunks (target : list pystr) (size : Z) (l : list bytes) : snap Z :=
  match l with
  | [] => eret size
  | chunk :: l =>
    let size := (size + zlen chunk)%Z in
    eguard (max_bytes <? size)%Z (AdmissionError "artifact exceeds snapshot byte limit") ;;*
    write w target chunk ;;*
    stage_chunks target size l
  end.

(** The file is copied into [staging]. *)
Definition stage_file (parent : path) (name : pystr) (staging : list pystr) (info : stat_result) : snap unit :=
  let target := staging ++ [name] in
  let* source_fd := walk w (root_inode w) (tail parent) in
  let* item := open_file w source_fd name in
  let* opened := fstat w item in
  eguard (negb (same_file info opened) || negb (is_kind Reg opened) || negb (f_nlink opened =? 1)%Z)
    (AdmissionError "artifact file changed before snapshot") ;;*
  eguard (max_bytes <? f_size opened)%Z (AdmissionError "artifact exceeds snapshot byte limit") ;;*
  let* fresh := make w target false 420 in
  eguard (negb fresh) OSError ;;*
  let* data := read_all w item in
  let* size := stage_chunks target 0 data in
  let* again := (if (size =? f_size opened)%Z then fstat w item else eret opened) in
  eguard (negb (size =? f_size opened)%Z || negb (same_file opened again)) (AdmissionError "artifact file changed during snapshot") ;;*
  let* second := read_all w item in
  let same := bool_decide (sha256_hex (concat second) = sha256_hex (concat data)) in
  let* last := (if same then fstat w item else eret opened) in
  eguard (negb same || negb (same_file opened last)) (AdmissionError "artifact file changed during verification") ;;*
  chmod w target (if executable_perm (f_perm opened) then 448 else 384).

(** [staged] is the name [mkdtemp] finds. *)
Definition freeze_path (raw owned_parent : path) (staged destination : pystr) : snap FrozenArtifact :=
  eguard (bool_decide (path_name raw ∈ [[]; DOT; DOTDOT]) || bool_decide (DOTDOT ∈ parts raw)) (AdmissionError "artifact path is invalid") ;;*
  let* info := etry (src (fun n => look n raw)) is_os_error (fun _ => eraise (AdmissionError "artifact input is unavailable")) in
  if is_kind Dir info then freeze_tree w lstat cwd max_files max_bytes raw owned_parent destination
  else
    eguard (negb (is_kind Reg info) || negb (f_nlink info =? 1)%Z) (AdmissionError "artifact input must be a regular unlinked file or directory") ;;*
    let* parent := elift (checked_directory lstat cwd (path_parent raw)) in
    let* owned := elift (checked_directory lstat cwd owned_parent) in
    let staging := [staged] in
    let* fresh := make w staging true 448 in
    eguard (negb fresh) OSError ;;*
    efinally (stage_file parent (path_name raw) staging info ;;*
              freeze_tree w lstat cwd max_files max_bytes (join_part owned staged) owned_parent destination)
             (remove_snapshot w staging).

(** A directory lies apart from everything that lies in it. *)
Lemma overlap_child p x : overlap (join_part p x) p = true.
Proof.
  unfold overlap, in_parents, join_part. cbn. rewrite (bool_decide_eq_true_2 (root p = root p)) by done.
  rewrite (bool_decide_eq_true_2 (tail p `prefix_of` tail p ++ [x])) by by eexists.
  rewrite (bool_decide_eq_false_2 (tail p = tail p ++ [x])); [by rewrite orb_true_r|].
  intros E. apply (f_equal length) in E. rewrite length_app in E. cbn in E. lia.
Qed.

Lemma freeze_tree_apart source owned_parent name s s' a :
  freeze_tree w lstat cwd max_files max_bytes source owned_parent name s = (s', Ok a) ->
  overlap (abspath cwd source) (abspath cwd owned_parent) = false.
Proof.
  intros H. apply ebind_Ok in H as (s1 & p & Hp & H). injection Hp as _ Hp. apply ebind_Ok in H as (s2 & q & Hq & H). injection Hq as _ Hq.
  apply ebind_Ok in H as (s3 & u & Hg & _). apply eguard_Ok in Hg as [Hg _].
  apply checked_directory_Ok in Hp as [-> _]. by apply checked_directory_Ok in Hq as [-> _].
Qed.

Lemma abspath_absolute p : is_absolute (abspath cwd p) = true.
Proof. unfold abspath. by destruct (is_absolute p) eqn:E. Qed.

(** C40: only directories are ever frozen.  [freeze_path] says it freezes a
    regular file too, by way of a directory made for it; but that directory lies
    in the directory of the snapshots, from which [freeze_tree] wants its source
    to be apart.  So whatever the system answers, when [freeze_path] succeeds its
    input was a directory. *)
Theorem only_directories_frozen raw owned_parent staged destination s s' a :
  freeze_path raw owned_parent staged destination s = (s', Ok a) ->
  exists info, look (clk s) raw = Some info /\ is_kind Dir info = true.
Proof.
  intros H. apply ebind_Ok in H as (s1 & u1 & Hg & H). apply eguard_Ok in Hg as [_ ->].
  apply ebind_Ok in H as (s2 & info & Hl & H). unfold etry in Hl. destruct (src _ s) as [s3 [i|e]] eqn:Hs.
  2:{ by destruct (is_os_error e). }
  injection Hl as <- <-. apply src_Ok in Hs as [Hs _]. exists i. split; [done|]. destruct (is_kind Dir i) eqn:Hk; [done|]. exfalso.
  apply ebind_Ok in H as (s4 & u4 & _ & H). apply ebind_Ok in H as (s5 & parent & _ & H). apply ebind_Ok in H as (s6 & owned & Ho & H).
  injection Ho as _ Ho. apply checked_directory_Ok in Ho as [-> _]. do 2 (apply ebind_Ok in H as (? & ? & _ & H)).
  apply efinally_Ok in H as (s7 & u7 & H & _). apply ebind_Ok in H as (s8 & u8 & _ & H). apply freeze_tree_apart in H.
  unfold abspath at 1 in H. change (is_absolute (join_part (abspath cwd owned_parent) staged)) with (is_absolute (abspath cwd owned_parent)) in H.
  rewrite abspath_absolute, overlap_child in H. done.
Qed.

(** A directory is frozen as [freeze_tree] does. *)
Lemma freeze_path_directory raw owned_parent staged destination info s :
  look (clk s) raw = Some info -> is_kind Dir info = true -> bool_decide (path_name raw ∈ [[]; DOT; DOTDOT]) = false -> DOTDOT ∉ parts raw ->
  freeze_path raw owned_parent staged destination s =
  freeze_tree w lstat cwd max_files max_bytes raw owned_parent destination (St (S (clk s)) (dst s) (inodes s) (ext s)).
Proof.
  intros Hl Hk Hn Hd. unfold freeze_path. rewrite ebind_guard, Hn, (bool_decide_eq_false_2 (DOTDOT ∈ parts raw)) by done. cbn [orb].
  unfold ebind at 1, etry, src. rewrite Hl. cbn. by rewrite Hk.
Qed.
End Path.

Definition sample_look (_ : nat) (p : path) : option stat_result := sample_info 2.
Lemma path_frozen : finished (freeze_path sample ordinary_lstat sample_look [] 10 100 (parse_path (str "/src")) (parse_path (str "/own")) (str "single-input-x") (str "artifact-1") owned) = true.
Proof. vm_compute. reflexivity. Qed.

Lemma only_directories_frozen_witness : exists info, sample_info 2 = Some info /\ is_kind Dir info = true.
Proof.
  destruct (finished_Ok _ path_frozen) as [a Ha].
  exact (only_directories_frozen sample ordinary_lstat sample_look [] 10 100 (parse_path (str "/src")) (parse_path (str "/own"))
    (str "single-input-x") (str "artifact-1") owned _ a Ha).
Defined.

(** A file that nobody touches is refused, and nothing is left of it. *)
Definition file_look (_ : nat) (p : path) : option stat_result := sample_info 4.
Example file_refused :
  let r := freeze_path sample ordinary_lstat file_look [] 10 100 (parse_path (str "/src/a/f")) (parse_path (str "/own")) (str "single-input-x") (str "artifact-1") owned in
  refused r "snapshot parent must be separate from the source tree" = true /\ map_to_list (dst r.1) = map_to_list (dst owned).
Proof. vm_compute. split; reflexivity. Qed.
End single.
