(* ===== verification/FrozenStore.v ===== *)
(** * The store of snapshots ([supervisor/mirrorgate/artifacts.py], [FrozenStore])

    [freeze], [release] and [close] run in threads of their own.  A thread goes
    from one locked section or system call to the next; a schedule picks the
    threads and answers the calls.  The directory the store owns holds the
    snapshots by name and is written by nobody else. *)

From Stdlib Require Import ZArith Lia.
From stdpp Require Import base list gmap strings numbers.
From S2P Require Import Prelude PyJson.

Module store.

Section Store.
Context {owner : Type} `{EqDecision owner}.
(** Whether the store keeps a journal, and whether it made its directory. *)
Context (journal remove_owned : bool).

(** [FrozenLease] *)
Record lease : Type := Lease { _lease_id : pystr; _owner : owner; _path : pystr; _closed : bool }.

(** [FrozenStore]: a lease is known by its place in [objects], as a Python object
    by its identity.  [disk] is the directory; [drawn] the identifiers drawn so
    far and [lost] the snapshots that were given up, which the code does not keep. *)
Record frozen_store : Type := Store {
  _leases : gmap pystr nat; objects : list lease; _pending_removals : gmap pystr (option pystr);
  _journal_ids : gset pystr; _inflight : Z; store_closed : bool; disk : gset pystr;
  drawn : gset pystr; lost : gset pystr }.

(** [FrozenStore.__init__] *)
Definition init : frozen_store := Store ∅ [] ∅ ∅ 0 false ∅ ∅ ∅.

Definition set_leases x s := Store x (objects s) (_pending_removals s) (_journal_ids s) (_inflight s) (store_closed s) (disk s) (drawn s) (lost s).
Definition set_objects x s := Store (_leases s) x (_pending_removals s) (_journal_ids s) (_inflight s) (store_closed s) (disk s) (drawn s) (lost s).
Definition set_pending x s := Store (_leases s) (objects s) x (_journal_ids s) (_inflight s) (store_closed s) (disk s) (drawn s) (lost s).
Definition set_journal_ids x s := Store (_leases s) (objects s) (_pending_removals s) x (_inflight s) (store_closed s) (disk s) (drawn s) (lost s).
Definition set_inflight x s := Store (_leases s) (objects s) (_pending_removals s) (_journal_ids s) x (store_closed s) (disk s) (drawn s) (lost s).
Definition set_closed s := Store (_leases s) (objects s) (_pending_removals s) (_journal_ids s) (_inflight s) true (disk s) (drawn s) (lost s).
Definition set_disk x s := Store (_leases s) (objects s) (_pending_removals s) (_journal_ids s) (_inflight s) (store_closed s) x (drawn s) (lost s).
Definition set_drawn x s := Store (_leases s) (objects s) (_pending_removals s) (_journal_ids s) (_inflight s) (store_closed s) (disk s) x (lost s).
Definition set_lost x s := Store (_leases s) (objects s) (_pending_removals s) (_journal_ids s) (_inflight s) (store_closed s) (disk s) (drawn s) x.

(** ["artifact-" + lease_id] *)
Definition artifact (id : pystr) : pystr := str "artifact-" ++ id.

Definition pend (p : pystr) (m : option pystr) (s : frozen_store) : frozen_store := set_pending (<[p := m]> (_pending_removals s)) s.
(** [setdefault(p, None)] *)
Definition pend_default (p : pystr) (s : frozen_store) : frozen_store :=
  match _pending_removals s !! p with Some _ => s | None => pend p None s end.
Definition unpend (p : pystr) (s : frozen_store) : frozen_store := set_pending (delete p (_pending_removals s)) s.
Definition removed (p : pystr) (s : frozen_store) : frozen_store := set_disk (disk s ∖ {[p]}) s.
Definition lose (p : pystr) (s : frozen_store) : frozen_store := set_lost (lost s ∪ {[p]}) s.

(** ** Threads *)
Inductive outcome : Type := Leased (i : nat) | Released | Closed (failures : list pystr) | Raised (m : pystr).

(** Where a thread is. *)
Inductive thread : Type :=
  | FEnter (o : owner) | FToken (o : owner) | FClaim (o : owner) (id : pystr) | FCopy (o : owner) (id : pystr)
  | FRecord (o : owner) (id : pystr) | FOpen (o : owner) (id : pystr) | FUnopened (id m : pystr) | FPublish (o : owner) (id : pystr)
  | FRemove (id : pystr) | FPop (id : pystr) | FFailed (id m : pystr) | FEnd (r : pystr + nat)
  | REnter (i : nat) (o : owner) | RRemove (p : pystr) (journaled : bool) | RFailed (p m : pystr) | RReclaim (p : pystr) (journaled : bool) | RPop (p : pystr)
  | CEnter | CWait | CRemove (ps failures : list pystr) | CPop (p : pystr) (ps failures : list pystr)
  | CFailed (p m : pystr) (ps failures : list pystr) | COwned (failures : list pystr)
  | Done (r : outcome).

(** How a call ended: [Well], or with an error; [Leaves] is a copy that failed and
    could not be removed.  [Token] is what [secrets.token_hex] drew, [Expired] a
    deadline that passed; [Locked] answers the journal and the identity check of
    [release]. *)
Inductive answer : Type :=
  | Well | Fails (m : pystr) | Leaves (m : pystr) | Token (id : pystr) | Expired | Locked (journal_error check_error : option pystr).

(** *** [freeze] *)
Definition freeze_enter (o : owner) (s : frozen_store) : frozen_store * thread :=
  if store_closed s then (s, Done (Raised (str "frozen artifact store is closed")))
  else (set_inflight (_inflight s + 1) s, FToken o).

(** An identifier that is leased is drawn again. *)
Definition freeze_token (o : owner) (id : pystr) (s : frozen_store) : frozen_store * thread :=
  if bool_decide (is_Some (_leases s !! id)) then (s, FToken o) else (set_drawn (drawn s ∪ {[id]}) s, FClaim o id).

Definition freeze_publish (o : owner) (id : pystr) (s : frozen_store) : frozen_store * thread :=
  if store_closed s then (pend_default (artifact id) s, FRemove id)
  else (set_leases (<[id := length (objects s)]> (_leases s)) (set_objects (objects s ++ [Lease id o (artifact id) false]) s), FEnd (inr (length (objects s)))).

(** *** [release] *)
Definition close_lease (l : lease) : lease := Lease (_lease_id l) (_owner l) (_path l) true.
Definition release_enter (i : nat) (o : owner) (journal_error check_error : option pystr) (s : frozen_store) : frozen_store * thread :=
  match objects s !! i with
  | None => (s, Done (Raised []))
  | Some l =>
    if negb (bool_decide (o = _owner l)) then (s, Done (Raised (str "frozen artifact lease owner mismatch"))) else
    let p := _path l in
    let journaled := journal && bool_decide (p ∈ _journal_ids s) in
    match (if journaled then journal_error else None) with
    | Some m => (s, Done (Raised m))
    | None =>
      if negb (_closed l) then
        if negb (bool_decide (_leases s !! _lease_id l = Some i)) then (s, Done (Raised (str "frozen artifact lease is closed"))) else
        match check_error with
        | Some m => (s, Done (Raised m))
        | None => (pend p None (set_objects (<[i := close_lease l]> (objects s)) (set_leases (delete (_lease_id l) (_leases s)) s)), RRemove p journaled)
        end
      else if bool_decide (is_Some (_pending_removals s !! p)) then (s, RRemove p journaled) else (s, Done Released)
    end
  end.

(** *** [close] *)
(** The leases of the store are closed and their snapshots are to be removed. *)
Definition leased (s : frozen_store) (i : nat) : bool := bool_decide (i ∈ (map_to_list (_leases s)).*2).
Definition close_collect (s : frozen_store) : frozen_store :=
  let paths := omap (fun i => _path <$> objects s !! i) (map_to_list (_leases s)).*2 in
  foldr pend_default (set_leases ∅ (set_objects (imap (fun i l => if leased s i then close_lease l else l) (objects s)) s)) paths.

Definition close_wait (expired : bool) (s : frozen_store) : option (frozen_store * thread) :=
  if negb (_inflight s =? 0)%Z && negb expired then None
  else
    let failures := if negb (_inflight s =? 0)%Z then [str "snapshot copy did not quiesce before store cleanup deadline"] else [] in
    let s' := close_collect s in Some (s', CRemove (map_to_list (_pending_removals s')).*1 failures).

Definition close_finish (failures : list pystr) (s : frozen_store) : thread :=
  if remove_owned && bool_decide (_pending_removals s = ∅) && (_inflight s =? 0)%Z then COwned failures else Done (Closed failures).

(** One step of a thread. *)
Definition step (a : answer) (t : thread) (s : frozen_store) : option (frozen_store * thread) :=
  match t, a with
  | FEnter o, Well => Some (freeze_enter o s)
  | FToken o, Token id => Some (freeze_token o id s)
  | FClaim o id, Well => Some (s, FCopy o id)
  | FClaim o id, Fails m => if journal then Some (s, Done (Raised m)) else None
  | FCopy o id, Well => if bool_decide (artifact id ∈ disk s) then None else Some (set_disk (disk s ∪ {[artifact id]}) s, FRecord o id)
  | FCopy o id, Fails m => Some (s, FEnd (inl m))
  | FCopy o id, Leaves m => if bool_decide (artifact id ∈ disk s) then None else Some (lose (artifact id) (set_disk (disk s ∪ {[artifact id]}) s), FEnd (inl m))
  | FRecord o id, Well => Some (if journal then set_journal_ids (_journal_ids s ∪ {[artifact id]}) s else s, FOpen o id)
  | FRecord o id, Fails m => if journal then Some (lose (artifact id) s, FEnd (inl m)) else None
  | FOpen o id, Well => Some (s, FPublish o id)
  | FOpen o id, Fails m => Some (s, FUnopened id m)
  | FUnopened id m, Well => Some (removed (artifact id) s, FEnd (inl m))
  | FUnopened id m, Fails m' => Some (lose (artifact id) s, FEnd (inl m'))
  | FPublish o id, Well => Some (freeze_publish o id s)
  | FRemove id, Well => Some (removed (artifact id) s, FPop id)
  | FRemove id, Fails m => Some (s, FFailed id m)
  | FPop id, Well => Some (unpend (artifact id) s, FEnd (inl (str "frozen artifact store closed during snapshot")))
  | FFailed id m, Well => Some (pend (artifact id) (Some m) s, FEnd (inl (str "frozen artifact store closed and partial removal failed")))
  | FEnd r, Well => Some (set_inflight (_inflight s - 1) s, Done match r with inl m => Raised m | inr i => Leased i end)
  | REnter i o, Locked j c => Some (release_enter i o j c s)
  | RRemove p jn, Well => Some (removed p s, RReclaim p jn)
  | RRemove p jn, Fails m => Some (s, RFailed p m)
  | RFailed p m, Well => Some (pend p (Some m) s, Done (Raised (str "frozen artifact snapshot removal failed")))
  | RReclaim p jn, Well => Some (if jn then set_journal_ids (_journal_ids s ∖ {[p]}) s else s, RPop p)
  | RReclaim p jn, Fails m => if jn then Some (s, Done (Raised m)) else None
  | RPop p, Well => Some (unpend p s, Done Released)
  | CEnter, Well => Some (set_closed s, CWait)
  | CWait, Well => close_wait false s
  | CWait, Expired => close_wait true s
  | CRemove [] failures, Well => Some (s, close_finish failures s)
  | CRemove (p :: ps) failures, Well => Some (removed p s, CPop p ps failures)
  | CRemove (p :: ps) failures, Fails m => Some (s, CFailed p m ps failures)
  | CPop p ps failures, Well => Some (unpend p s, CRemove ps failures)
  | CFailed p m ps failures, Well => Some (pend p (Some m) s, CRemove ps (failures ++ [str "snapshot removal failed: " ++ m]))
  | COwned failures, Well => Some (set_disk ∅ s, Done (Closed failures))
  | COwned failures, Fails m => Some (s, Done (Closed (failures ++ [str "snapshot store removal failed: " ++ m])))
  | _, _ => None
  end.

(** ** Schedules *)
Record conf : Type := Conf { st : frozen_store; threads : gmap nat thread }.

(** A call is made, or a thread goes on. *)
Inductive action : Type :=
  | Freeze (o : owner) | Release (i : nat) (o : owner) | Close | Go (k : nat) (a : answer).

(** No identifier is drawn twice. *)
Definition unique (a : answer) (s : frozen_store) : bool := match a with Token id => bool_decide (id ∉ drawn s) | _ => true end.

Definition spawn (t : thread) (c : conf) : conf := Conf (st c) (<[fresh (dom (threads c)) := t]> (threads c)).
Definition act (x : action) (c : conf) : option conf :=
  match x with
  | Freeze o => Some (spawn (FEnter o) c)
  | Release i o => if bool_decide (i < length (objects (st c)))%nat then Some (spawn (REnter i o) c) else None
  | Close => Some (spawn CEnter c)
  | Go k a =>
    t ← threads c !! k;
    if unique a (st c) then '(s, t') ← step a t (st c); Some (Conf s (<[k := t']> (threads c))) else None
  end%stdpp.
Fixpoint run (l : list action) (c : conf) : option conf := match l with [] => Some c | x :: l => match act x c with Some c' => run l c' | None => None end end.

(** ** Where a snapshot is *)

(** The paths a thread deals with: a snapshot it has not made yet, one only it
    knows of, one it just removed. *)
Definition paths_of (t : thread) : list pystr :=
  match t with
  | FClaim _ id | FCopy _ id | FRecord _ id | FOpen _ id | FUnopened id _ | FPublish _ id | FRemove id | FPop id | FFailed id _ => [artifact id]
  | RRemove p _ | RFailed p _ | RReclaim p _ | RPop p => [p]
  | CRemove ps _ => ps
  | CPop p ps _ | CFailed p _ ps _ => p :: ps
  | _ => []
  end.
Definition draws (t : thread) : option pystr := match t with FClaim _ id | FCopy _ id => Some (artifact id) | _ => None end.
Definition holds (t : thread) : option pystr :=
  match t with FRecord _ id | FOpen _ id | FUnopened id _ | FPublish _ id => Some (artifact id) | _ => None end.
Definition gone (t : thread) : option pystr :=
  match t with FPop id => Some (artifact id) | RReclaim p _ | RPop p | CPop p _ _ => Some p | _ => None end.

Definition known (s : frozen_store) (p : pystr) : Prop :=
  p ∈ disk s \/ is_Some (_pending_removals s !! p) \/ exists i l, objects s !! i = Some l /\ _path l = p.
Definition is_leased (s : frozen_store) (p : pystr) : Prop := exists id i, _leases s !! id = Some i /\ p = artifact id.

(** The leases of the store are the objects that are open. *)
Definition coherent (s : frozen_store) : Prop :=
  (forall id i, _leases s !! id = Some i -> exists o, objects s !! i = Some (Lease id o (artifact id) false)) /\
  (forall i l, objects s !! i = Some l -> _path l = artifact (_lease_id l)).

Record sound (c : conf) : Prop := {
  i_coherent : coherent (st c);
  i_drawn : forall id, id ∉ drawn (st c) -> ~ known (st c) (artifact id) /\ forall k t, threads c !! k = Some t -> artifact id ∉ paths_of t;
  i_fresh : forall k t p, threads c !! k = Some t -> draws t = Some p ->
    ~ known (st c) p /\ forall k' t', k' <> k -> threads c !! k' = Some t' -> p ∉ paths_of t';
  i_gone : forall k t p, threads c !! k = Some t -> gone t = Some p -> p ∉ disk (st c);
  i_account : forall p, p ∈ disk (st c) -> is_leased (st c) p \/ is_Some (_pending_removals (st c) !! p) \/
    (exists k t, threads c !! k = Some t /\ holds t = Some p) \/ p ∈ lost (st c) }.

(** What accounts for a snapshot, other threads apart. *)
Definition accounted (s : frozen_store) (t : thread) (p : pystr) : Prop :=
  is_leased s p \/ is_Some (_pending_removals s !! p) \/ holds t = Some p \/ p ∈ lost s.

(** What a step may do, drawing an identifier apart. *)
Record moves (s : frozen_store) (t : thread) (s' : frozen_store) (t' : thread) : Prop := {
  m_drawn : drawn s' = drawn s;
  m_known : forall p, known s' p \/ p ∈ paths_of t' -> known s p \/ p ∈ paths_of t;
  m_disk : forall p, p ∈ disk s' -> p ∈ disk s \/ draws t = Some p;
  m_draws : forall p, draws t' = Some p -> draws t = Some p /\ forall q, known s' q -> known s q;
  m_gone : forall p, gone t' = Some p -> p ∉ disk s';
  m_account : forall p, p ∈ disk s' -> p ∉ disk s \/ accounted s t p -> accounted s' t' p }.

Lemma known_store s s' p :
  disk s' ⊆ disk s -> (forall q, is_Some (_pending_removals s' !! q) -> is_Some (_pending_removals s !! q)) -> objects s' = objects s -> known s' p -> known s p.
Proof. intros Hd Hp Ho [H|[H|H]]; [left; by apply Hd|right; left; by apply Hp|right; right; by rewrite <- Ho]. Qed.

(** Nothing is forgotten but what is not there. *)
Lemma moves_quiet s t s' t' :
  drawn s' = drawn s -> disk s' ⊆ disk s -> objects s' = objects s -> _leases s' = _leases s -> lost s ⊆ lost s' ->
  (forall q, is_Some (_pending_removals s' !! q) -> is_Some (_pending_removals s !! q) \/ q ∈ paths_of t) ->
  (forall q, q ∈ disk s' -> is_Some (_pending_removals s !! q) -> is_Some (_pending_removals s' !! q)) ->
  (forall q, q ∈ paths_of t' -> q ∈ paths_of t) ->
  (forall q, draws t' = Some q -> s' = s /\ draws t = Some q) -> (forall q, gone t' = Some q -> q ∉ disk s') ->
  (forall q, q ∈ disk s' -> holds t = Some q -> accounted s' t' q) ->
  moves s t s' t'.
Proof.
  intros Hdr Hd Ho Hl Hlost Hp Hp' Hm Hdt Hg Hh. split.
  - done.
  - intros p [[H|[H|H]]|H]; [left; left; by apply Hd| |left; right; right; by rewrite <- Ho|right; by apply Hm].
    destruct (Hp _ H) as [H'|H']; [left; right; by left|by right].
  - intros p H. left. by apply Hd.
  - intros p H. destruct (Hdt _ H) as [-> H']. done.
  - exact Hg.
  - intros p H [H'|H']; [by apply Hd in H|]. destruct H' as [H'|[H'|[H'|H']]].
    + left. unfold is_leased in *. by rewrite Hl.
    + right. left. by apply Hp'.
    + by apply Hh.
    + right. right. right. by apply Hlost.
Qed.

Ltac quiet_step :=
  apply moves_quiet; cbn; try done; intros; simplify_eq/=; try done;
  try match goal with H : is_Some (<[_ := _]> _ !! _) |- _ => rewrite lookup_insert_is_Some' in H end;
  try match goal with H : is_Some (delete _ _ !! _) |- _ => rewrite lookup_delete_is_Some in H end;
  rewrite ?lookup_insert_is_Some', ?lookup_delete_is_Some; unfold accounted; cbn; try set_solver.

Lemma copy_moves a o id s s' t' : step a (FCopy o id) s = Some (s', t') -> ~ known s (artifact id) -> moves s (FCopy o id) s' t'.
Proof.
  intros H Hk. destruct a; try done; cbn in H; try case_bool_decide; try done; injection H as <- <-.
  - split; cbn; try done; unfold accounted, known; cbn; set_solver.
  - quiet_step.
  - split; cbn; try done; unfold accounted, known; cbn; set_solver.
Qed.

Lemma step_moves_quiet a t s s' t' :
  step a t s = Some (s', t') -> (forall p, gone t = Some p -> p ∉ disk s) ->
  match t with FEnter _ | FToken _ | FCopy _ _ | FPublish _ _ | REnter _ _ | CWait => False | _ => True end -> moves s t s' t'.
Proof.
  intros H Hg Ht. destruct t; try done; destruct a; try done; cbn in H; try (destruct journal); try (destruct ps); try (destruct journaled); try done;
    try (injection H as <- <-); unfold close_finish; try (destruct (remove_owned && _ && _)); quiet_step.
Qed.

Lemma enter_moves o s s' t' : freeze_enter o s = (s', t') -> moves s (FEnter o) s' t'.
Proof. unfold freeze_enter. destruct (store_closed s); intros H; injection H as <- <-; quiet_step. Qed.

Lemma pend_default_spec p s : drawn (pend_default p s) = drawn s /\ disk (pend_default p s) = disk s /\ objects (pend_default p s) = objects s /\
  _leases (pend_default p s) = _leases s /\ lost (pend_default p s) = lost s /\ _inflight (pend_default p s) = _inflight s /\
  store_closed (pend_default p s) = store_closed s /\
  forall q, is_Some (_pending_removals (pend_default p s) !! q) <-> q = p \/ is_Some (_pending_removals s !! q).
Proof.
  unfold pend_default. destruct (_pending_removals s !! p) eqn:E; split_and!; try done; intros q.
  - split; [by right|]. intros [->|?]; [by rewrite E|done].
  - cbn. rewrite lookup_insert_is_Some'. naive_solver.
Qed.

Lemma pend_all_spec ps s : let s' := foldr pend_default s ps in
  drawn s' = drawn s /\ disk s' = disk s /\ objects s' = objects s /\ _leases s' = _leases s /\ lost s' = lost s /\ _inflight s' = _inflight s /\
  store_closed s' = store_closed s /\ forall q, is_Some (_pending_removals s' !! q) <-> q ∈ ps \/ is_Some (_pending_removals s !! q).
Proof.
  induction ps as [|p ps IH]; cbn; [split_and!; try done; set_solver|]. destruct IH as (? & ? & ? & ? & ? & ? & ? & IH).
  destruct (pend_default_spec p (foldr pend_default s ps)) as (? & ? & ? & ? & ? & ? & ? & Hp). split_and!; try congruence.
  intros q. rewrite Hp, IH, elem_of_cons. tauto.
Qed.

Lemma publish_moves o id s s' t' : freeze_publish o id s = (s', t') -> moves s (FPublish o id) s' t'.
Proof.
  unfold freeze_publish. destruct (store_closed s).
  - destruct (pend_default_spec (artifact id) s) as (Hd & Hk & Ho & Hl & Hlo & _ & _ & Hp). intros H; injection H as <- <-.
    apply moves_quiet; rewrite ?Hk, ?Hlo; try done.
    + intros q. rewrite Hp. cbn. set_solver.
    + intros q _. rewrite Hp. tauto.
    + intros q _ [= <-]. right. left. rewrite Hp. by left.
  - intros H; injection H as <- <-. split; try done.
    + intros p [[H|[H|(i & l & Hi & <-)]]|H]; [left; by left|left; right; by left| |by apply elem_of_nil in H].
      cbn in Hi. apply lookup_app_Some in Hi as [Hi|[_ Hi]]; [left; right; right; by exists i, l|].
      right. apply list_lookup_singleton_Some in Hi as [_ <-]. cbn. set_solver.
    + intros p. by left.
    + intros p Hp [?|H]; [done|]. destruct H as [(id' & i & Hi & ->)|[H|[[= <-]|H]]].
      * left. destruct (decide (id = id')) as [<-|Hne]; [exists id; eexists; cbn; by rewrite lookup_insert_eq|].
        exists id', i. cbn. by rewrite lookup_insert_ne.
      * right. by left.
      * left. exists id. eexists. cbn. by rewrite lookup_insert_eq.
      * right. right. by right.
Qed.

Lemma release_moves i o j c s s' t' : coherent s -> release_enter i o j c s = (s', t') -> moves s (REnter i o) s' t'.
Proof.
  intros [Hl _] H. unfold release_enter in H. destruct (objects s !! i) as [[id o' p' cl]|] eqn:Ei; [|injection H as <- <-; quiet_step]. cbn in H.
  destruct (negb (bool_decide (o = o'))); [injection H as <- <-; quiet_step|]. set (jn := journal && _) in H.
  destruct (if jn then j else None) as [m|]; [injection H as <- <-; quiet_step|]. destruct (negb cl).
  - case_bool_decide as Hin; cbn [negb] in H; [|injection H as <- <-; quiet_step]. destruct c as [m|]; [injection H as <- <-; quiet_step|].
    injection H as <- <-. destruct (Hl _ _ Hin) as [o2 Hi']. rewrite Ei in Hi'. injection Hi' as -> -> ->. split; try done.
    + intros p [[Hk|[Hk|(i' & l' & Hi & <-)]]|Hk].
      * left. by left.
      * left. cbn in Hk. rewrite lookup_insert_is_Some' in Hk. destruct Hk as [<-|Hk]; [right; right; by eexists _, _|right; by left].
      * left. right. right. cbn in Hi. apply list_lookup_insert_Some in Hi as [(<- & <- & _)|[_ Hi]]; by eexists _, _.
      * left. cbn in Hk. apply list_elem_of_singleton in Hk as ->. right. right. by eexists _, _.
    + intros p. by left.
    + intros p Hp [?|Hk]; [done|]. destruct Hk as [(id' & i' & Hi & ->)|[Hk|[Hk|Hk]]];
        [|right; left; cbn; rewrite lookup_insert_is_Some'; by right|done|right; right; by right].
      destruct (decide (id = id')) as [<-|Hne]; [right; left; cbn; by rewrite lookup_insert_eq|].
      left. exists id', i'. cbn. by rewrite lookup_delete_ne.
  - case_bool_decide as Hp; injection H as <- <-; [|quiet_step]. split; cbn; try done.
    + intros p [Hk|Hk]; [by left|]. apply list_elem_of_singleton in Hk as ->. left. right. by left.
    + intros p. by left.
    + intros p Hp0 [?|Hk]; [done|exact Hk].
Qed.

(** Collecting: every lease becomes a removal to come. *)
Lemma collect_spec s : let s' := close_collect s in
  drawn s' = drawn s /\ disk s' = disk s /\ _leases s' = ∅ /\ lost s' = lost s /\ _inflight s' = _inflight s /\ store_closed s' = store_closed s /\
  (forall i l, objects s' !! i = Some l -> exists l0, objects s !! i = Some l0 /\ _path l0 = _path l /\ _lease_id l0 = _lease_id l) /\
  forall q, is_Some (_pending_removals s' !! q) <->
    (exists id i l, _leases s !! id = Some i /\ objects s !! i = Some l /\ _path l = q) \/ is_Some (_pending_removals s !! q).
Proof.
  unfold close_collect. match goal with |- context [foldr pend_default ?s0 ?ps] => destruct (pend_all_spec ps s0) as (-> & -> & -> & -> & -> & -> & -> & Hp) end.
  cbn [drawn disk _leases lost _inflight store_closed objects set_leases set_objects _pending_removals] in *. split_and!; try done.
  - intros i l H. rewrite list_lookup_imap in H. destruct (objects s !! i) as [l0|]; [|done]. cbn in H. injection H as <-. exists l0. by destruct (leased s i).
  - intros q. rewrite Hp, list_elem_of_omap. setoid_rewrite list_elem_of_fmap. split.
    + intros [(i & ([id i'] & -> & Hin%elem_of_map_to_list) & Hq)|H]; [|by right]. left. cbn in Hq. destruct (objects s !! i') as [l|] eqn:El; [|done].
      injection Hq as <-. by exists id, i', l.
    + intros [(id & i & l & Hi & Hl & <-)|H]; [|by right]. left. exists i. split; [|by rewrite Hl]. exists (id, i). split; [done|]. by apply elem_of_map_to_list.
Qed.

Lemma wait_moves b s s' t' : coherent s -> close_wait b s = Some (s', t') -> moves s CWait s' t'.
Proof.
  intros [Hl _] H. unfold close_wait in H. destruct (_ && _); [done|]. injection H as <- <-.
  destruct (collect_spec s) as (Hd & Hk & Hle & Hlo & _ & _ & Ho & Hp). split; cbn; try done.
  - assert (forall p, is_Some (_pending_removals (close_collect s) !! p) -> known s p) as Hpe.
    { intros p [(id & i & l & _ & Hi & <-)|H]%Hp; [right; right; by exists i, l|right; by left]. }
    intros p [[H|[H|(i & l & Hi & <-)]]|H]; left; [left; by rewrite <- Hk|by apply Hpe| |].
    + apply Ho in Hi as (l0 & Hi & E & _). right. right. by exists i, l0.
    + apply list_elem_of_fmap in H as ([q m] & -> & H%elem_of_map_to_list). apply Hpe. by eexists.
  - intros p. rewrite Hk. by left.
  - intros p Hp' [H|H]; [by rewrite Hk in Hp'|]. destruct H as [(id & i & Hi & ->)|[H|[H|H]]]; [|right; left; apply Hp; by right|done|right; right; right; by rewrite Hlo].
    right. left. apply Hp. left. destruct (Hl _ _ Hi) as [o Hobj]. by eexists _, _, _.
Qed.

Lemma step_moves a t s s' t' :
  step a t s = Some (s', t') -> coherent s -> (forall p, gone t = Some p -> p ∉ disk s) -> (forall p, draws t = Some p -> ~ known s p) ->
  match t with FToken _ => False | _ => True end -> moves s t s' t'.
Proof.
  intros H Hc Hg Hd Ht. destruct t; try done; try (by eapply step_moves_quiet).
  - destruct a; try done. injection H as H. by eapply enter_moves.
  - eapply copy_moves; [done|]. by apply Hd.
  - destruct a; try done. injection H as H. by eapply publish_moves.
  - destruct a; try done. injection H as H. by eapply release_moves.
  - destruct a; try done; by eapply wait_moves.
Qed.

(** ** The leases *)
Lemma coherent_same s s' : _leases s' = _leases s -> objects s' = objects s -> coherent s -> coherent s'.
Proof. intros E1 E2 H. unfold coherent. by rewrite E1, E2. Qed.

Lemma publish_coherent o id s : coherent s -> coherent (freeze_publish o id s).1.
Proof.
  intros Hc. pose proof Hc as [Hl Ho]. unfold freeze_publish. destruct (store_closed s).
  - destruct (pend_default_spec (artifact id) s) as (_ & _ & E1 & E2 & _). by eapply coherent_same.
  - split; cbn.
    + intros id' i Hi. destruct (decide (id = id')) as [<-|Hne].
      * rewrite lookup_insert_eq in Hi. injection Hi as <-. exists o. by rewrite lookup_app_r, Nat.sub_diag.
      * rewrite lookup_insert_ne in Hi by done. destruct (Hl _ _ Hi) as [o' Hi']. exists o'. by apply lookup_app_l_Some.
    + intros i l [Hi|[_ Hi]]%lookup_app_Some; [by eapply Ho|]. by apply list_lookup_singleton_Some in Hi as [_ <-].
Qed.

Lemma release_coherent i o j c s : coherent s -> coherent (release_enter i o j c s).1.
Proof.
  intros Hc. pose proof Hc as [Hl Ho]. unfold release_enter. destruct (objects s !! i) as [l|] eqn:Ei; [|done].
  destruct (negb (bool_decide (o = _))); [done|]. match goal with |- context [match ?x with Some _ => _ | None => _ end] => destruct x; [done|] end.
  destruct (negb (_closed l)); [|by case_bool_decide]. case_bool_decide as Hin; [|done]. destruct c; [done|]. cbn. split; cbn.
  - intros id i' [Hne Hi]%lookup_delete_Some. destruct (Hl _ _ Hi) as [o' Hi']. exists o'. rewrite list_lookup_insert_ne; [done|].
    intros <-. rewrite Ei in Hi'. by injection Hi' as ->.
  - intros i' l' Hi. apply list_lookup_insert_Some in Hi as [(<- & <- & _)|[_ Hi]]; cbn; by eapply Ho.
Qed.

Lemma step_coherent a t s s' t' : step a t s = Some (s', t') -> coherent s -> coherent s'.
Proof.
  intros H Hc. destruct t; destruct a; try done; cbn in H; try (destruct journal; try done); try (destruct ps; try done);
    try (destruct journaled; try done); try (case_bool_decide; try done); try (injection H as <- <-; by eapply coherent_same).
  all: try (injection H as H; apply (f_equal fst) in H; cbn [fst] in H; subst s'; by first [apply publish_coherent|apply release_coherent]).
  all: try (injection H as H; unfold freeze_enter, freeze_token in H; repeat case_match; injection H as <- <-; by eapply coherent_same).
  all: unfold close_wait in H; destruct (_ && _) in H; [done|]; injection H as <- <-; destruct Hc as [Hl Ho];
    destruct (collect_spec s) as (_ & _ & E & _ & _ & _ & Hob & _); (split; [rewrite E; intros id i Hi; by rewrite lookup_empty in Hi|]);
    intros i l (l0 & Hi & <- & <-)%Hob; by eapply Ho.
Qed.

(** ** Everything that can happen *)
Lemma sound_move c k t s' t' :
  sound c -> threads c !! k = Some t -> moves (st c) t s' t' -> coherent s' -> sound (Conf s' (<[k := t']> (threads c))).
Proof.
  intros [Hco Hdr Hfr Hgo Hac] Ht [Mdr Mkn Mdi Mdt Mgo Mac] Hco'. split; cbn; [done|..].
  - intros id Hid. rewrite Mdr in Hid. destruct (Hdr _ Hid) as [Hk Hm]. assert (~ (known (st c) (artifact id) \/ artifact id ∈ paths_of t)) as Hn.
    { intros [?|H]; [done|]. by eapply Hm. }
    split; [intros H; apply Hn, Mkn; by left|]. intros k' u [[<- <-]|[_ Hu]]%lookup_insert_Some; [intros H; apply Hn, Mkn; by right|by eapply Hm].
  - intros k' u p [[<- <-]|[Hne Hu]]%lookup_insert_Some Hd.
    + destruct (Mdt _ Hd) as [Hd' Hkn]. destruct (Hfr _ _ _ Ht Hd') as [Hk Hm]. split; [intros H; by apply Hk, Hkn|].
      intros k' t0 Hne [[<- <-]|[_ H]]%lookup_insert_Some; [done|by eapply Hm].
    + destruct (Hfr _ _ _ Hu Hd) as [Hk Hm]. assert (~ (known (st c) p \/ p ∈ paths_of t)) as Hn by (intros [?|H]; [done|by apply (Hm k t)]).
      split; [intros H; apply Hn, Mkn; by left|]. intros k2 t2 Hne2 [[<- <-]|[_ H]]%lookup_insert_Some; [intros H; apply Hn, Mkn; by right|by eapply Hm].
  - intros k' u p [[<- <-]|[Hne Hu]]%lookup_insert_Some Hg; [by apply Mgo|]. intros Hp. apply Mdi in Hp as [Hp|Hp]; [by eapply Hgo|].
    destruct (Hfr _ _ _ Ht Hp) as [_ Hm]. apply (Hm k' u); [done|done|]. destruct u; cbn in Hg; simplify_eq/=; set_solver.
  - intros p Hp. assert (p ∉ disk (st c) \/ accounted (st c) t p -> is_leased s' p \/ is_Some (_pending_removals s' !! p) \/
      (exists k0 t0, <[k:=t']> (threads c) !! k0 = Some t0 /\ holds t0 = Some p) \/ p ∈ lost s') as Hm.
    { intros H. destruct (Mac _ Hp H) as [?|[?|[?|?]]]; [by left|by right; left| |by right; right; right].
      right. right. left. exists k, t'. by rewrite lookup_insert_eq. }
    destruct (decide (p ∈ disk (st c))) as [Hin|Hin]; [|by apply Hm; left]. destruct (Hac _ Hin) as [H|[H|[(k0 & t0 & Hk0 & Hh)|H]]].
    1, 2, 4: apply Hm; right; unfold accounted; tauto.
    destruct (decide (k0 = k)) as [->|Hne].
    + apply Hm. right. right. right. left. by rewrite Ht in Hk0; injection Hk0 as <-.
    + right. right. left. exists k0, t0. by rewrite lookup_insert_ne.
Qed.

Lemma artifact_inj id id' : artifact id = artifact id' -> id = id'.
Proof. apply app_inv_head. Qed.
Lemma draws_paths t p : draws t = Some p -> p ∈ paths_of t.
Proof. destruct t; cbn; intros; simplify_eq; set_solver. Qed.

Lemma sound_token c k o id s' t' :
  sound c -> threads c !! k = Some (FToken o) -> id ∉ drawn (st c) -> freeze_token o id (st c) = (s', t') -> sound (Conf s' (<[k := t']> (threads c))).
Proof.
  intros Hs Hk Hid H. unfold freeze_token in H. case_bool_decide; injection H as <- <-; [by rewrite insert_id by done; destruct c|].
  destruct Hs as [Hco Hdr Hfr Hgo Hac]. destruct (Hdr _ Hid) as [Hn Hm]. split; cbn.
  - by eapply coherent_same.
  - intros id' [Hd Hne]%not_elem_of_union. destruct (Hdr _ Hd) as [Hn' Hm']. split; [exact Hn'|].
    intros k' u [[<- <-]|[_ Hu]]%lookup_insert_Some; [|by eapply Hm']. cbn. intros [E%artifact_inj|E%elem_of_nil]%elem_of_cons; [|done].
    apply Hne. rewrite E. by apply elem_of_singleton.
  - intros k' u p [[<- <-]|[Hne Hu]]%lookup_insert_Some Hd.
    + injection Hd as <-. split; [exact Hn|]. intros k' u Hne [[<- _]|[_ Hu]]%lookup_insert_Some; [done|by eapply Hm].
    + destruct (Hfr _ _ _ Hu Hd) as [Hkn Hoth]. split; [exact Hkn|]. intros k2 u2 Hne2 [[<- <-]|[_ Hu2]]%lookup_insert_Some; [|by eapply Hoth].
      cbn. intros [->|E%elem_of_nil]%elem_of_cons; [|done]. by apply (Hm k' u Hu), draws_paths.
  - intros k' u p [[<- <-]|[Hne Hu]]%lookup_insert_Some Hg; [done|by eapply Hgo].
  - intros p Hp. destruct (Hac p Hp) as [?|[?|[(k0 & t0 & Hk0 & Hh)|?]]]; [by left|by right; left| |by right; right; right].
    right. right. left. exists k0, t0. rewrite lookup_insert_ne; [done|]. intros <-. rewrite Hk in Hk0. by injection Hk0 as <-.
Qed.

Lemma sound_spawn c t : sound c -> paths_of t = [] -> draws t = None -> gone t = None -> sound (spawn t c).
Proof.
  intros [Hco Hdr Hfr Hgo Hac] Hp Hd Hg. assert (threads c !! fresh (dom (threads c)) = None) as Hk by (apply not_elem_of_dom, is_fresh).
  unfold spawn. split; cbn; [done|..].
  - intros id Hid. destruct (Hdr _ Hid) as [Hn Hm]. split; [done|]. intros k' u [[<- <-]|[_ Hu]]%lookup_insert_Some; [rewrite Hp; set_solver|by eapply Hm].
  - intros k' u p [[<- <-]|[Hne Hu]]%lookup_insert_Some Hd'; [congruence|]. destruct (Hfr _ _ _ Hu Hd') as [Hn Hm]. split; [done|].
    intros k2 u2 Hne2 [[<- <-]|[_ Hu2]]%lookup_insert_Some; [rewrite Hp; set_solver|by eapply Hm].
  - intros k' u p [[<- <-]|[Hne Hu]]%lookup_insert_Some Hg'; [congruence|by eapply Hgo].
  - intros p Hp'. destruct (Hac p Hp') as [?|[?|[(k0 & t0 & Hk0 & Hh)|?]]]; [by left|by right; left| |by right; right; right].
    right. right. left. exists k0, t0. rewrite lookup_insert_ne; [done|congruence].
Qed.

Lemma sound_init : sound (Conf init ∅).
Proof.
  assert (forall (X : Type) (k : nat) (x : X), (∅ : gmap nat X) !! k = Some x -> False) as He by (intros X k x; by rewrite lookup_empty).
  split; cbn.
  - split; cbn; intros i x H; [by rewrite lookup_empty in H|done].
  - intros id _. split; [|by intros k t ?%He]. intros [H|[H|(i & l & H & _)]]; cbn in H; [set_solver|by rewrite lookup_empty in H; destruct H|done].
  - by intros k t p ?%He.
  - by intros k t p ?%He.
  - intros p H. set_solver.
Qed.

Lemma act_sound x c c' : sound c -> act x c = Some c' -> sound c'.
Proof.
  intros Hs H. destruct x as [o|i o| |k a]; cbn in H.
  - injection H as <-. by apply sound_spawn.
  - case_bool_decide; [|done]. injection H as <-. by apply sound_spawn.
  - injection H as <-. by apply sound_spawn.
  - destruct (threads c !! k) as [t|] eqn:Hk; [|done]. cbn in H. destruct (unique a (st c)) eqn:Hu; [|done]. destruct (step a t (st c)) as [[s' t']|] eqn:Hst; [|done].
    cbn in H. injection H as <-. destruct (match t with FToken _ => true | _ => false end) eqn:Ht.
    + destruct t; try done. destruct a; try done. injection Hst as Hst. eapply sound_token; [done|done| |exact Hst]. by apply bool_decide_eq_true in Hu.
    + pose proof Hs as [Hco _ Hfr Hgo _]. eapply sound_move; [done|done| |by eapply step_coherent].
      eapply step_moves; [done|done| | |by destruct t].
      * intros p Hg. by eapply Hgo.
      * intros p Hd. by eapply Hfr.
Qed.

Lemma run_ind (P : conf -> Prop) l c c' : (forall x c c', P c -> act x c = Some c' -> P c') -> P c -> run l c = Some c' -> P c'.
Proof.
  intros Hstep. revert c. induction l as [|x l IH]; intros c Hc H; cbn in H; [by injection H as <-|].
  destruct (act x c) as [c1|] eqn:E; [|done]. by eapply IH; [eapply Hstep|].
Qed.

(** C15: no snapshot goes astray.  Whatever the threads do and in whatever order,
    a snapshot in the directory of the store is one that is leased, or one that is
    waiting to be removed, or one a [freeze] that is still running knows of, or
    one that was given up: its copy failed and could not be removed, its journal
    entry could not be written, or it could not be opened nor removed. *)
Theorem snapshots_accounted l c p :
  run l (Conf init ∅) = Some c -> p ∈ disk (st c) ->
  is_leased (st c) p \/ is_Some (_pending_removals (st c) !! p) \/ (exists k t, threads c !! k = Some t /\ holds t = Some p) \/ p ∈ lost (st c).
Proof. intros H. apply i_account. eapply (run_ind sound); [intros x c1 c2; apply act_sound|apply sound_init|exact H]. Qed.

(** ** Counting *)
Definition working (t : thread) : bool :=
  match t with
  | FToken _ | FClaim _ _ | FCopy _ _ | FRecord _ _ | FOpen _ _ | FUnopened _ _ | FPublish _ _ | FRemove _ | FPop _ | FFailed _ _ | FEnd _ => true
  | _ => false
  end.
Definition weight (t : thread) : nat := if working t then 1 else 0.
Definition count (ts : gmap nat thread) : nat := map_fold (fun _ t n => weight t + n)%nat 0%nat ts.

Lemma count_new ts k t : ts !! k = None -> count (<[k := t]> ts) = (weight t + count ts)%nat.
Proof. intros H. unfold count. rewrite (map_fold_insert_L (fun _ t n => weight t + n)%nat); [done|intros; lia|done]. Qed.
Lemma count_set ts k t t' : ts !! k = Some t -> (count (<[k := t']> ts) + weight t = count ts + weight t')%nat.
Proof.
  intros H. rewrite <- (insert_delete_id ts k t H) at 2. rewrite <- insert_delete_eq. rewrite !count_new by apply lookup_delete_eq. lia.
Qed.
Lemma count_none ts k t : count ts = 0%nat -> ts !! k = Some t -> working t = false.
Proof. intros H Hk. pose proof (count_set ts k t (Done Released) Hk) as E. unfold weight in E. destruct (working t); [cbn in E; lia|done]. Qed.

(** What [close] waits for is at least the number of the copies that run. *)
Definition excess (c : conf) : Z := _inflight (st c) - Z.of_nat (count (threads c)).

Lemma step_excess a t s s' t' : step a t s = Some (s', t') -> (_inflight s - Z.of_nat (weight t) <= _inflight s' - Z.of_nat (weight t'))%Z.
Proof.
  intros H. assert (forall s0, close_collect s = s0 -> _inflight s0 = _inflight s) as Hcol by (intros s0 <-; by destruct (collect_spec s) as (_ & _ & _ & _ & E & _)).
  destruct t; destruct a; try done; cbn in H; match type of H with (if journal then _ else None) = _ => destruct journal; [|done] | _ => idtac end; try (destruct ps; try done);
    try (destruct journaled; try done); try (case_bool_decide; try done); try (injection H as <- <-; cbn; unfold close_finish; repeat case_match; cbn; lia).
  all: try (injection H as H; unfold freeze_enter, freeze_token, release_enter in H; repeat case_match; injection H as <- <-; cbn; lia).
  1: { injection H as H. unfold freeze_publish in H. destruct (store_closed s); injection H as <- <-; [|cbn; lia].
    destruct (pend_default_spec (artifact id) s) as (_ & _ & _ & _ & _ & -> & _). cbn. lia. }
  all: unfold close_wait in H; destruct (_ && _) in H; [done|]; injection H as <- <-; rewrite (Hcol _ eq_refl); cbn; lia.
Qed.

Lemma excess_grows x c c' : act x c = Some c' -> (excess c <= excess c')%Z.
Proof.
  intros H. assert (forall t, working t = false -> (excess c <= excess (spawn t c))%Z) as Hsp.
  { intros t Ht. unfold excess, spawn. cbn. rewrite count_new by apply not_elem_of_dom, is_fresh. unfold weight. rewrite Ht. lia. }
  destruct x as [o|i o| |k a]; cbn in H.
  - injection H as <-. by apply Hsp.
  - case_bool_decide; [|done]. injection H as <-. by apply Hsp.
  - injection H as <-. by apply Hsp.
  - destruct (threads c !! k) as [t|] eqn:Hk; [|done]. cbn in H. destruct (unique a (st c)); [|done]. destruct (step a t (st c)) as [[s' t']|] eqn:Hst; [|done].
    cbn in H. injection H as <-. apply step_excess in Hst. unfold excess. cbn. pose proof (count_set _ _ _ t' Hk). lia.
Qed.

(** ** Closing *)

(** Past collecting the leases; and, of a [close] without failures so far, what it
    has still to remove. *)
Definition swept (t : thread) : bool := match t with CRemove _ _ | CPop _ _ _ | CFailed _ _ _ _ | COwned _ | Done (Closed _) => true | _ => false end.
Definition clean (t : thread) : option (list pystr) :=
  match t with CRemove ps [] | CPop _ ps [] => Some ps | COwned [] | Done (Closed []) => Some [] | _ => None end.

Record closing (c : conf) : Prop := {
  c_wait : forall k, threads c !! k = Some CWait -> store_closed (st c) = true;
  c_swept : forall k t, threads c !! k = Some t -> swept t = true -> store_closed (st c) = true /\ _leases (st c) = ∅;
  c_clean : forall k t ps, threads c !! k = Some t -> clean t = Some ps ->
    _inflight (st c) = 0%Z /\ forall p, p ∈ disk (st c) -> p ∈ ps \/ p ∈ lost (st c);
  c_excess : (0 <= excess c)%Z }.

(** A closed store stays closed, and gets no lease. *)
Lemma step_closed a t s s' t' : step a t s = Some (s', t') -> store_closed s = true -> store_closed s' = true /\ (_leases s = ∅ -> _leases s' = ∅).
Proof.
  intros H Hc. destruct (collect_spec s) as (_ & _ & Hle & _ & _ & Hcl & _).
  destruct t; destruct a; try done; cbn in H; match type of H with (if journal then _ else None) = _ => destruct journal; [|done] | _ => idtac end; try (destruct ps; try done);
    try (destruct journaled; try done); try (case_bool_decide; try done); try (injection H as <- <-; done);
    try (destruct journal; injection H as <- <-; done).
  1: injection H as H; unfold freeze_enter in H; rewrite Hc in H; by injection H as <- <-.
  1: injection H as H; unfold freeze_token in H; case_bool_decide; by injection H as <- <-.
  1: { injection H as H; unfold freeze_publish in H; rewrite Hc in H; injection H as <- <-. destruct (pend_default_spec (artifact id) s) as (_ & _ & _ & -> & _ & _ & -> & _). by split. }
  1: { injection H as H; unfold release_enter in H; repeat case_match; injection H as <- <-; (split; [exact Hc|]); try done; cbn; intros ->; apply delete_empty. }
  all: unfold close_wait in H; destruct (_ && _) in H; [done|]; injection H as <- <-; rewrite Hcl; done.
Qed.

(** With the store closed, only a running copy adds a snapshot or is counted. *)
Lemma step_idle a t s s' t' : step a t s = Some (s', t') -> working t = false -> store_closed s = true ->
  _inflight s' = _inflight s /\ disk s' ⊆ disk s /\ lost s ⊆ lost s'.
Proof.
  intros H Hw Hc. destruct (collect_spec s) as (_ & Hdi & _ & Hlo & Hin & _).
  destruct t; try done; destruct a; try done; cbn in H; try (destruct ps; try done); try (destruct journaled; try done);
    try (injection H as <- <-; cbn; split_and!; set_solver).
  1: injection H as H; unfold freeze_enter in H; rewrite Hc in H; injection H as <- <-; done.
  1: injection H as H; unfold release_enter in H; repeat case_match; by injection H as <- <-.
  all: unfold close_wait in H; destruct (_ && _) in H; [done|]; injection H as <- <-; rewrite Hin, Hdi, Hlo; done.
Qed.

Lemma step_wait a t s s' t' : step a t s = Some (s', t') -> t' = CWait -> store_closed s' = true.
Proof.
  intros H ->. destruct t as [| | | | | | | | | | |[]| | | | | | | | | | | |]; destruct a; try done; cbn in H;
    try match type of H with (if journal then _ else None) = _ => destruct journal; [|done] | _ => idtac end; try (destruct ps; try done);
    try (destruct journaled; try done); try (case_bool_decide; try done); try (by injection H as <-); try (injection H as _ H; unfold close_finish in H; by case_match);
    try (injection H as H; unfold freeze_enter, freeze_token, freeze_publish, release_enter in H; by repeat case_match);
    unfold close_wait in H; by case_match.
Qed.

Lemma step_swept a t s s' t' : step a t s = Some (s', t') -> swept t' = true -> swept t = true \/ (t = CWait /\ _leases s' = ∅).
Proof.
  intros H Hs. destruct (collect_spec s) as (_ & _ & Hle & _). destruct t as [| | | | | | | | | | |[]| | | | | | | | | | | |]; try (by left); destruct a; try done; cbn in H;
    try match type of H with (if journal then _ else None) = _ => destruct journal; [|done] | _ => idtac end; try (destruct ps; try done);
    try (destruct journaled; try done); try (case_bool_decide; try done); try (by injection H as <- <-);
    try (injection H as H; unfold freeze_enter, freeze_token, freeze_publish, release_enter in H; repeat case_match; by injection H as <- <-);
    unfold close_wait in H; case_match; try done; injection H as <- <-; by right.
Qed.

Lemma step_clean a t s s' t' ps' : step a t s = Some (s', t') -> clean t' = Some ps' -> t <> CWait ->
  exists ps, clean t = Some ps /\ _inflight s' = _inflight s /\
    ((forall p, p ∈ disk s -> p ∈ ps \/ p ∈ lost s) -> forall p, p ∈ disk s' -> p ∈ ps' \/ p ∈ lost s').
Proof.
  intros H Hcl Hne. destruct t as [| | | | | | | | | | |[]| | | | | | | | | | | |]; try done; destruct a; try done; cbn in H;
    try match type of H with (if journal then _ else None) = _ => destruct journal; [|done] | _ => idtac end; try (destruct ps as [|p ps]; try done);
    try (destruct journaled; try done); try (case_bool_decide; try done); try (by injection H as <- <-);
    try (injection H as H; unfold freeze_enter, freeze_token, freeze_publish, release_enter in H; repeat case_match; by injection H as <- <-);
    injection H as <- <-; unfold close_finish in Hcl; repeat case_match; cbn in Hcl; try (destruct failures; done); try (destruct failures; [|done]);
    simplify_eq/=; eexists; (split; [reflexivity|]); (split; [done|]); set_solver.
Qed.

Lemma clean_swept t ps : clean t = Some ps -> swept t = true.
Proof. destruct t; try done. by destruct r. Qed.

Lemma waits_or_not t : t = CWait \/ t <> CWait.
Proof. destruct t; (by left) || by right. Qed.

Lemma spawn_closing c t : closing c -> working t = false -> swept t = false -> t <> CWait -> closing (spawn t c).
Proof.
  intros [Hw Hs Hcl He] Ht Hsw Hne. unfold spawn. split; cbn.
  - intros k [[_ E]|[_ H]]%lookup_insert_Some; [done|by eapply Hw].
  - intros k u [[_ <-]|[_ H]]%lookup_insert_Some Hu; [congruence|by eapply Hs].
  - intros k u ps [[_ <-]|[_ H]]%lookup_insert_Some Hu; [apply clean_swept in Hu; congruence|by eapply Hcl].
  - unfold excess in *. cbn. rewrite count_new by apply not_elem_of_dom, is_fresh. unfold weight. rewrite Ht. lia.
Qed.

Lemma act_closing x c c' : sound c -> closing c -> act x c = Some c' -> closing c'.
Proof.
  intros Hso Hc Hact. pose proof Hc as [Hw Hs Hcl He]. pose proof (excess_grows _ _ _ Hact) as He'. destruct x as [o|i o| |k a]; cbn in Hact.
  - injection Hact as <-. by apply spawn_closing.
  - case_bool_decide; [|done]. injection Hact as <-. by apply spawn_closing.
  - injection Hact as <-. by apply spawn_closing.
  - destruct (threads c !! k) as [t|] eqn:Hk; [|done]. cbn in Hact. destruct (unique a (st c)); [|done]. destruct (step a t (st c)) as [[s' t']|] eqn:Hst; [|done].
    cbn in Hact. injection Hact as <-. split; cbn; [| | |lia].
    + intros k' [[_ E]|[_ H]]%lookup_insert_Some; [by eapply step_wait|]. by eapply step_closed; [|eapply Hw].
    + intros k' u [[_ <-]|[_ H]]%lookup_insert_Some Hu.
      * destruct (step_swept _ _ _ _ _ Hst Hu) as [Ht|[-> Hle]].
        -- destruct (Hs _ _ Hk Ht) as [H1 H2]. destruct (step_closed _ _ _ _ _ Hst H1) as [H3 H4]. auto.
        -- split; [|done]. by eapply step_closed; [|eapply Hw].
      * destruct (Hs _ _ H Hu) as [H1 H2]. destruct (step_closed _ _ _ _ _ Hst H1) as [H3 H4]. auto.
    + intros k' u ps [[_ <-]|[Hne H]]%lookup_insert_Some Hu.
      * destruct (waits_or_not t) as [->|Hnw].
        -- assert (forall b, close_wait b (st c) = Some (s', t') -> _inflight s' = 0%Z /\ forall p, p ∈ disk s' -> p ∈ ps \/ p ∈ lost s') as Hcol.
           2:{ destruct a; try done; by eapply Hcol. }
           intros b Hcw. unfold close_wait in Hcw. destruct (_ && _); [done|]. injection Hcw as <- <-.
           destruct (collect_spec (st c)) as (_ & Hdi & _ & Hlo & Hin & _ & _ & Hp). cbn in Hu. destruct (Z.eqb_spec (_inflight (st c)) 0) as [Hz|Hz]; [|done].
           cbn in Hu. injection Hu as <-. rewrite Hin, Hdi, Hlo. split; [done|]. intros p Hpd.
           assert (count (threads c) = 0%nat) as Hcount by (unfold excess in He; lia).
           destruct (i_account _ Hso _ Hpd) as [(id & i & Hi & ->)|[Hpe|[(k0 & t0 & Hk0 & Hh)|Hlost]]]; [| | |by right].
           ++ left. destruct (i_coherent _ Hso) as [Hl _]. destruct (Hl _ _ Hi) as [o Hob].
              apply list_elem_of_fmap. destruct (proj2 (Hp (artifact id))) as [m Hm]; [left; by eexists _, _, _|]. exists (artifact id, m). split; [done|]. by apply elem_of_map_to_list.
           ++ left. apply list_elem_of_fmap. destruct (proj2 (Hp p)) as [m Hm]; [by right|]. exists (p, m). split; [done|]. by apply elem_of_map_to_list.
           ++ apply count_none in Hk0; [|done]. by destruct t0.
        -- destruct (step_clean _ _ _ _ _ _ Hst Hu Hnw) as (ps0 & Hcl0 & Hi & Hd). destruct (Hcl _ _ _ Hk Hcl0) as [H1 H2]. split; [congruence|by apply Hd].
      * destruct (Hcl _ _ _ H Hu) as [H1 H2]. assert (count (threads c) = 0%nat) as Hcount by (unfold excess in He; lia).
        destruct (Hs _ _ H (clean_swept _ _ Hu)) as [Hclosed _]. pose proof (count_none _ _ _ Hcount Hk) as Hwk.
        destruct (step_idle _ _ _ _ _ Hst Hwk Hclosed) as (Ei & Ed & El). split; [congruence|]. intros p Hp%Ed. destruct (H2 _ Hp) as [?|Hl]; [by left|right; by apply El].
Qed.

Lemma closing_init : closing (Conf init ∅).
Proof.
  assert (forall (X : Type) (k : nat) (x : X), (∅ : gmap nat X) !! k = Some x -> False) as Hn by (intros X k x; by rewrite lookup_empty).
  split; cbn; [by intros k ?%Hn|by intros k t ?%Hn|by intros k t ps ?%Hn|done].
Qed.

Lemma reached l c : run l (Conf init ∅) = Some c -> sound c /\ closing c.
Proof.
  apply (run_ind (fun c => sound c /\ closing c)); [|split; [apply sound_init|apply closing_init]].
  intros x c1 c2 [H1 H2] H. split; [by eapply act_sound|by eapply act_closing].
Qed.

(** C14: a [close] that reports no failure has removed everything.  Whatever else
    runs at the same time, once [close] has returned no failure the store is
    closed, no lease is left in it, no copy runs, and its directory holds nothing
    but snapshots that had been given up. *)
Theorem clean_close_removes_all l c k :
  run l (Conf init ∅) = Some c -> threads c !! k = Some (Done (Closed [])) ->
  store_closed (st c) = true /\ _leases (st c) = ∅ /\ (forall k' t, threads c !! k' = Some t -> working t = false) /\ disk (st c) ⊆ lost (st c).
Proof.
  intros H Hk. destruct (reached _ _ H) as [_ [_ Hs Hcl He]]. destruct (Hs _ _ Hk eq_refl) as [H1 H2]. destruct (Hcl _ _ _ Hk eq_refl) as [H3 H4].
  split_and!; [done|done| |].
  - intros k' t Ht. eapply count_none; [|exact Ht]. unfold excess in He. lia.
  - intros p Hp. destruct (H4 _ Hp) as [Hn|?]; [by apply elem_of_nil in Hn|done].
Qed.

(** A [freeze] whose journal entry could not be made keeps the store from ever
    closing cleanly.  [freeze] counts itself among the running copies before it
    writes the journal, and takes that back only after; if the write fails, the
    count is wrong for good, and every [close] waits for its deadline and reports
    a copy that did not quiesce. *)
Theorem failed_claim_blocks_close l c k o id m c' l' c'' k' :
  run l (Conf init ∅) = Some c -> threads c !! k = Some (FClaim o id) -> act (Go k (Fails m)) c = Some c' ->
  run l' c' = Some c'' -> threads c'' !! k' <> Some (Done (Closed [])).
Proof.
  intros H Hk Ha H' Hk'. assert (run (l ++ Go k (Fails m) :: l') (Conf init ∅) = Some c'') as Hrun.
  { clear -H Ha H'. revert H. generalize (Conf init ∅). induction l as [|x l IH]; intros c0 H; cbn [run app] in *; [injection H as ->; by rewrite Ha|].
    destruct (act x c0); [by apply IH|done]. }
  destruct (reached _ _ H) as [_ [_ _ _ He]]. destruct (reached _ _ Hrun) as [_ [_ _ Hcl _]]. destruct (Hcl _ _ _ Hk' eq_refl) as [Hz _].
  assert (0 < excess c')%Z as Hpos.
  { cbn in Ha. rewrite Hk in Ha. cbn in Ha. destruct journal; [|done]. injection Ha as <-. unfold excess in *. cbn.
    pose proof (count_set _ _ _ (Done (Raised m)) Hk) as E. unfold weight in E. cbn in E. lia. }
  assert (0 < excess c'')%Z as Hpos'.
  { apply (run_ind (fun c => 0 < excess c)%Z) in H'; [done| |done]. intros x c1 c2 Hc1 Hx. pose proof (excess_grows _ _ _ Hx). lia. }
  unfold excess in Hpos'. lia.
Qed.
End Store.

(** ** Three schedules *)
Definition got (o : option (conf (owner:=nat))) : conf (owner:=nat) := match o with Some c => c | None => Conf init ∅ end.
Lemma got_Some (o : option (conf (owner:=nat))) : is_Some o -> o = Some (got o).
Proof. by intros [c ->]. Qed.

(** A snapshot is made and leased; then the store is closed. *)
Definition freezing_one : list (action (owner:=nat)) :=
  Freeze 7%nat :: map (Go 0) [Well; Token (str "aa"); Well; Well; Well; Well; Well; Well].
Definition closing_one : list (action (owner:=nat)) := freezing_one ++ Close :: map (Go 1) [Well; Well; Well; Well; Well; Well].
Definition leased_conf := got (run false true freezing_one (Conf init ∅)).
Definition closed_conf := got (run false true closing_one (Conf init ∅)).

Lemma freezing_one_runs : run false true freezing_one (Conf init ∅) = Some leased_conf.
Proof. apply got_Some. vm_compute. by eexists. Qed.
Lemma closing_one_runs : run false true closing_one (Conf init ∅) = Some closed_conf.
Proof. apply got_Some. vm_compute. by eexists. Qed.
Lemma leased_on_disk : artifact (str "aa") ∈ disk (st leased_conf).
Proof. refine (bool_decide_eq_true_1 _ _). vm_compute. reflexivity. Qed.
Lemma closed_cleanly : threads closed_conf !! 1%nat = Some (Done (Closed [])).
Proof. vm_compute. reflexivity. Qed.

Lemma snapshots_accounted_witness : is_leased (st leased_conf) (artifact (str "aa")) \/
  is_Some (_pending_removals (st leased_conf) !! artifact (str "aa")) \/
  (exists k t, threads leased_conf !! k = Some t /\ holds t = Some (artifact (str "aa"))) \/ artifact (str "aa") ∈ lost (st leased_conf).
Proof. exact (snapshots_accounted false true freezing_one leased_conf _ freezing_one_runs leased_on_disk). Defined.

Lemma clean_close_removes_all_witness : disk (st closed_conf) ⊆ lost (st closed_conf).
Proof. exact (proj2 (proj2 (proj2 (clean_close_removes_all false true closing_one closed_conf 1 closing_one_runs closed_cleanly)))). Defined.
(** ... and nothing had been given up. *)
Example nothing_left : elements (disk (st leased_conf)) = [artifact (str "aa")] /\ elements (disk (st closed_conf)) = [] /\ elements (lost (st closed_conf)) = [].
Proof. vm_compute. split_and!; reflexivity. Qed.

(** The journal refuses the claim; the store is closed after its deadline. *)
Definition claiming : list (action (owner:=nat)) := Freeze 7%nat :: map (Go 0) [Well; Token (str "aa")].
Definition after_claim : list (action (owner:=nat)) := Close :: map (Go 1) [Well; Expired; Well].
Definition claiming_conf := got (run true false claiming (Conf init ∅)).
Definition claim_failed_conf := got (act true false (Go 0 (Fails [])) claiming_conf).
Definition blocked_conf := got (run true false after_claim claim_failed_conf).

Lemma claiming_runs : run true false claiming (Conf init ∅) = Some claiming_conf.
Proof. apply got_Some. vm_compute. by eexists. Qed.
Lemma claiming_at : threads claiming_conf !! 0%nat = Some (FClaim 7%nat (str "aa")).
Proof. vm_compute. reflexivity. Qed.
Lemma claim_fails : act true false (Go 0 (Fails [])) claiming_conf = Some claim_failed_conf.
Proof. apply got_Some. vm_compute. by eexists. Qed.
Lemma blocked_runs : run true false after_claim claim_failed_conf = Some blocked_conf.
Proof. apply got_Some. vm_compute. by eexists. Qed.

Lemma failed_claim_blocks_close_witness : threads blocked_conf !! 1%nat <> Some (Done (Closed [])).
Proof.
  exact (failed_claim_blocks_close true false claiming claiming_conf 0 7%nat (str "aa") [] claim_failed_conf after_claim blocked_conf 1
    claiming_runs claiming_at claim_fails blocked_runs).
Defined.
Example blocked_reports :
  threads blocked_conf !! 1%nat = Some (Done (Closed [str "snapshot copy did not quiesce before store cleanup deadline"])).
Proof. vm_compute. reflexivity. Qed.
End store.
